(* ===== verification/_CoqProject ===== *)
-Q . S2P
Prelude.v
Bytes.v
Sha256.v
Json.v
JsonFacts.v
JsonCanon.v
JsonScan.v
Stream.v
Env.v
Dict.v
Connection.v
GatewayProtocol.v
GatewayProtocolFacts.v
GatewayJson.v
GatewayLimits.v
Gateway.v
GatewayRun.v
GatewaySafety.v
GatewayFacts.v
GatewayWire.v
GatewayTunnel.v
GatewayShutdown.v
Bridge.v
GameService.v
GameRun.v
GameFacts.v
GameTheorems.v
Attestation.v
AttestationFacts.v
AttestationServer.v
ImaQuote.v
ImaReplay.v
Admission.v
AdmissionFacts.v
AdmissionSafety.v
AdmissionRun.v
AdmissionSpec.v
AdmissionLifecycle.v
AdmissionService.v
Witnesses.v
Lab.v
LabFacts.v
LabRecords.v
LabJobs.v
LabTheorems.v
LabProcesses.v
LabProcessesFacts.v
LabProcessesTheorems.v
GameClient.v
GameClientFacts.v
GameClientTheorems.v
GameSession.v
GameCore.v
GameCoreFacts.v
GameHost.v
GameAuthority.v
GameClose.v
ServerLife.v
AttestationSuite.v
TpmHardware.v
AdmissionSuite.v
GameSuite.v
Sources.v
Analyze.v
Install.v
Launch.v
LabContract.v
LabServer.v
LabServerTheorems.v
LabAdapter.v
LabSuite.v
LabRelay.v
LabHonest.v
LabJob.v
Text.v
LabDemo.v
RunGame.v
Checks.v
Integration.v
ImaChain.v
