(* ===== verification/Prelude.v ===== *)
(** * MiddlewareAnticheatv2: a verification development (root)

    The repository is a laboratory middleware for admitting game clients by
    attestation and for carrying their traffic: services and tools in Python
    around native workers (C) and a Godot game.  This development models the
    Python services, clients, supervisors and tools, and the native programs
    that decide a match, admit laboratory evidence and replay a measurement log,
    as executable definitions
    and proves what makes each of them correct.  This file holds the vocabulary
    they share: exceptions, results, the state monad, automation.

    ** The program and how its parts interact

    - A game server or client starts an _arena gateway_
      ([scripts/arena_gateway.py]) and drives it over a pipe with the messages of
      [scripts/gateway_protocol.py]; two gateways relay the datagrams of the game
      through a mutually authenticated tunnel, and open a route only when their
      parents acknowledge it.
    - The _session admission service_ ([scripts/session_admission.py]) keeps a
      registry of connections to be admitted.  It issues challenges and submits
      evidence to a verifier per entry: a TPM quote verifier
      ([scripts/tpm_attestation.py]) or its extension to the measurement log
      ([scripts/ima_quote_verifier.py]), which runs the log replay of
      [lab/app/ima_replay.c].  The _attestation server_ of
      [tpm_attestation.py] offers the same verifiers on their own.
    - The _game service_ ([scripts/game_service.py]) connects two pinned players
      to one authoritative native worker ([lab/app/game_host.c], with the rules of
      [lab/game/game.c]); [scripts/game.py] and
      [scripts/game_graphics.py] are its clients, [scripts/jugar.py] supervises a
      whole match.
    - The _laboratory_: [scripts/bridge_transport.py] offers a native worker over
      TLS, [scripts/lab.py] runs jobs against a policy server with local and
      remote workers and measures them, [scripts/lab_processes.py] starts, shows
      and stops the two local daemons.  The policy server
      ([lab/server/server.c]) keeps a session per peer and decides on the
      datagrams of the contract ([lab/contracts/]); an adapter
      ([lab/adapter/adapter.c]) can stand before it as a relay.
    - _Tools_: the inventories and the package of the sources, the installers, the
      launcher of the game, the analysis of a match, the checks of a build, of a
      release and of the local measurement log.

    ** Conventions

    A Python function becomes a Rocq function of the same name.  Its exceptions
    are the values [Raise e] of [result], with the classes of [exn]; an object's
    method is a function of the monad [st], from the state to a result and the
    state it leaves, so that a mutation made before a [raise] persists.  [bytes]
    are lists of [byte], [str] are lists of code points, a [dict] is an
    association list in insertion order, a Python object that is shared is an
    index into a heap.  Code that awaits is cut at its [await]s; where handlers
    share an object, the parts are steps, and the theorems hold for every
    interleaving of the steps.  The world outside (clocks, random bytes, sockets,
    processes, TPM tools, the kernel, C programs) is a type class of oracles:
    a theorem holds for every outcome they may have, or states as a named
    hypothesis which documented behaviour it relies on.

    ** Files

    Shared: [Prelude]; [Bytes] (bytes, strings, fixed-width integers); [Sha256];
    [Json] (values, the decoder and encoder of the [json] module) with
    [JsonFacts], [JsonCanon] and [JsonScan] (round trip, canonical order, what a
    decoded document can be); [Stream] (a connection's bytes and deadlines);
    [Env] (clocks and randomness); [Dict]; [Connection] (a handler among others);
    [Text] (string methods).

    - [gateway_protocol.py]: [GatewayProtocol]; facts in [GatewayProtocolFacts]
      (frames), [GatewayJson] (strict JSON, envelopes, the request sequence),
      [GatewayLimits] (queues and rate limiters).
    - [arena_gateway.py]: [Gateway] (configuration, [Channel], [Gateway], the
      pumps, [output], [main]); [GatewayRun] (the accept loop, the connections,
      the commands and the pumps as one step relation, its invariant);
      [GatewaySafety] (the invariant is preserved); [GatewayFacts] and
      [GatewayWire] (theorems); [GatewayTunnel] (two gateways, one writing what
      the other reads); [GatewayShutdown] (the end of the process).
    - [bridge_transport.py]: [Bridge].
    - [game_service.py]: [GameService] (codecs, [exchange], the handler between
      its awaits); [GameRun] (the handlers and the worker interleaved, the
      dialogue specification, the invariant); [GameFacts], [GameTheorems];
      [GameSession] (a service and the client of one of its connections);
      [GameClose] (the end of the service and of a child process).
    - [lab/game/game.c]: [GameCore], [GameCoreFacts].  [lab/app/game_host.c]:
      [GameHost] (commands, frames, the reads and the loop); [GameAuthority] (the service with this worker behind it).
    - [tpm_attestation.py]: [Attestation] (codec, [PCRReference],
      [QuoteVerifier], [AttestationServer], the handler); [AttestationFacts] (the
      codec and the verifier); [AttestationServer] (the server, for every verifier
      that obeys the class [VerifierLaws]).  [ima_quote_verifier.py]: [ImaQuote],
      an instance of [VerifierLaws].  [lab/app/ima_replay.c]: [ImaReplay];
      [ImaChain] is the verifier with this program behind it.
    - [session_admission.py]: [Admission] (the registry; a dispatch is
      [dispatch_begin], the verification outside the lock, [dispatch_finish]);
      [AdmissionFacts], [AdmissionSafety], [AdmissionRun] (every interleaving),
      [AdmissionSpec] (the contracts), [AdmissionLifecycle] (the life of an entry),
      [AdmissionService] (the service around it); [Witnesses] are concrete
      runs.
    - [lab.py]: [Lab] with [LabFacts], [LabRecords], [LabJobs], [LabTheorems];
      [LabDemo] (daemons, resources, the measured run).
      [lab_processes.py]: [LabProcesses] with [LabProcessesFacts],
      [LabProcessesTheorems].
    - [lab/contracts/lab_util.c], [evidence.c]: [LabContract] (the codecs, the
      window of sequence numbers, the policy on requests and observations).
      [lab/server/server.c]: [LabServer] (the table of sessions, the handler of
      each datagram, the loop, the options of the command line) with
      [LabServerTheorems].  [LabHonest] and [LabJob] put a job of [lab.py] before
      that server.  [lab/adapter/adapter.c]: [LabAdapter] (the rings, the routes,
      the turns of the loop, the options, and what they guarantee).
    - [game.py], [game_graphics.py]: [GameClient] with [GameClientFacts],
      [GameClientTheorems].
    - [tools/release_files.py], [package_game.py], [client_manifest.py]:
      [Sources].  [tools/analyze_match.py]: [Analyze].
      [tools/prepare_godot.py], [scripts/preparar-raylib.py]: [Install].
      [scripts/jugar.py], [tools/verify_release.py]: [Launch].
      [tools/run_game.py], [scripts/game_credentials.py]: [RunGame].
      [scripts/verificar-build.py], [scripts/verificar-ima.py]: [Checks].
      [scripts/verificar-tpm-hardware.py]: [TpmHardware] (the TPM and the machine
      are classes, the attestation server is the one of [Attestation]).
      [scripts/verificar-integracion.py]: [Integration] (the programs it owns, the
      blocks of cases, with those of [tests/transport_cases.py], [policy_cases.py] and
      [adapter_cases.py], the verdict).
    - The entry points that own a server, [serve] and [run]: [ServerLife].
    - The repository's own cases, run against the models:
      [scripts/verificar-atestacion.py] in [AttestationSuite],
      [verificar-admision.py] in [AdmissionSuite], [verificar-juego-red.py] in
      [GameSuite] (service, worker and rules together), [verificar-ima.py] and
      [verificar-ima-quote.py] in [ImaChain] (verifier and replay together),
      [verificar-integracion.py] in [LabSuite], for any program of the class
      [System] and for the server alone, and with [tests/adapter_cases.py] in
      [LabRelay] (adapter and server together).

    ** What the theorems show

    - Admission: in any interleaving a connection is allowed only on a verified
      attestation of its own entry that is still valid; a revocation wins over
      every verification in flight; an entry has at most one verification at a
      time, for its current challenge; the registry, the handlers and the
      verifications are bounded; a nonce binds the whole connection.
    - Attestation: a passing quote is one the enrolled key signed over this very
      challenge and selection; the server allows one attempt per challenge, to
      its owner, before its deadline; what is received is one bounded document.
      The log replay accepts exactly the logs of its format, and a passing
      verdict binds the quote to such a log, record by record.
    - Gateway: every channel follows one story, forwarding only after both
      acknowledgements, with quotas; the pumps are FIFO relays of exactly the
      local game's datagrams, and two gateways carry them end to end in order and
      once; when the process ends every channel is retired and every socket closed;
      the codecs round-trip, the queues refine a bounded
      FIFO, the rate limiter bounds traffic and never refuses paced traffic.
    - Game: the dialogue with the worker follows its specification in every
      interleaving, slots are used once, a player receives only its own slot's
      states, every connection ends; the clients report only what they received.
      The rules keep their invariant under any operations and count an intent
      once; the worker process is its specification; put together, what a client
      prints is a state of the match that the rules reach, and no behaviour of the
      players makes the service give its worker up.
    - Laboratory: what an accepted job means end to end; sockets and daemons are
      never left open; a command signals only processes of its own, also where a
      pid goes to another process; failures keep the state file.  In every run of
      the policy server the table of sessions keeps its invariant, a peer touches
      only its own session, and the decisions made in a session are a dialogue, of
      which a failing send loses a part; the window of sequence numbers is its
      reference; an honest job before the server succeeds.  The adapter carries
      the datagrams of each peer in order and once (as often and as long as the
      faults it is asked to make say), on sockets of its own that it always closes,
      and a datagram does go up and its answer down.
    - Tools: the package is exactly the public files with their digests; the
      analysis equals a reference classification; only pinned contents are
      installed; a match or a build passes only if everything it names passed;
      the game's engine gets only validated options; an enrolled TPM is allowed by
      the attestation server; the integration run leaves no program behind, and
      passes only if every build, block of cases and command of its mode succeeded
      and every program it owned ended by itself with code 0.

    ** Bounds and fuel

    Recursion that is not structural takes fuel, and running out of it is a
    distinguished exception proved impossible: the JSON decoder
    ([JsonCanon.loads_fuel]; the fuel is the length of the text), the waits of
    [LabProcesses] ([STOP_FUEL], 202 rounds of 10 ms for two seconds;
    [BOOT_FUEL], 302 for three; [manage_ends]) and the 257 turns of the renderer's
    adapter ([GameClientTheorems.turns_enough]).  A connection of the game service
    makes at most 1293 steps ([GameTheorems.connections_end]).  The loop of the
    worker takes the length of its input, the loop of the log replay that of the
    file ([GameHost.worker_serves] and [ImaReplay.replay_exact] say what
    they return).  Clock readings are
    integers of nanoseconds: the rounding of the floating point seconds of
    [time.monotonic] is not modelled.  Integers of the wire formats are bounded
    where the source packs or checks them.

    ** What is not modelled

    TLS contexts and sockets; argument parsing, except for the game launcher's
    checks; the drain of the gateway's retired ports and the event with which it
    announces its port; a failure to print a result ([lab_processes.py] prints after
    its state file is saved); tar, gzip and SHA-512;
    elapsed times and the texts of reports.  A cancellation is modelled where a
    theorem is about it ([GatewayShutdown], [GameClose]).  The cases of the
    verification programs that need certificates, processes or seeded mutations of
    a C program are left out, or are what [Integration] takes of them, their outcomes;
    [verificar-puente.py], [tools/verify_gateway.py],
    [tools/verify_game.py] and the other [tests/] assert properties of running
    programs and hold no state of the product.  The capability worker, the client and the quote
    inspector under [lab/], and the GDScript of the game, are the other side of
    the modelled protocols and appear as oracles.

    ** Plan

    Next: the cancellation of the attestation and admission servers' tasks, the
    capability worker behind [bridge_transport.py], and the verdicts of the
    remaining verification programs that compute something of their own. *)

From stdpp Require Export base list gmap strings sets numbers sorting.
From Stdlib Require Export ZArith Lia.
From Stdlib Require Export Strings.Byte.

#[global] Open Scope Z_scope.

(** ** Python exceptions and results

    The exception classes the modelled code raises or catches.  A reason is
    kept where the source gives one; the subclasses of [ValueError] that the
    standard library raises ([UnicodeError], [JSONDecodeError],
    [binascii.Error]) are [ValueError]s whose reason names the subclass. *)

Inductive exn :=
| ValueError (reason : string)
| TypeError
| KeyError
| IndexError
| AttributeError
| OSError (reason : string)
| TimeoutError
| IncompleteReadError
| EOFError
| RuntimeError (reason : string)
| RecursionError
| SubprocessError
| CancelledError
| AssertionError
| StructError
| SystemExit (code : Z).

#[export] Instance exn_eq_dec : EqDecision exn.
Proof. solve_decision. Defined.

Inductive result (A : Type) :=
| Ok (a : A)
| Raise (e : exn).
Arguments Ok {A} a.
Arguments Raise {A} e.

#[export] Instance result_eq_dec `{EqDecision A} : EqDecision (result A).
Proof. solve_decision. Defined.

#[export] Instance result_ret : MRet result := λ A a, Ok a.
#[export] Instance result_bind : MBind result := λ A B f m,
  match m with Ok a => f a | Raise e => Raise e end.
#[export] Instance result_fmap : FMap result := λ A B f m,
  match m with Ok a => Ok (f a) | Raise e => Raise e end.

Definition is_Ok {A} (r : result A) : bool :=
  match r with Ok _ => true | Raise _ => false end.

(** The class tests of the [except] clauses.  [TimeoutError] is a subclass of
    [OSError] and [asyncio.IncompleteReadError] one of [EOFError]. *)
Definition is_ValueError (e : exn) : bool :=
  match e with ValueError _ => true | _ => false end.
Definition is_OSError (e : exn) : bool :=
  match e with OSError _ | TimeoutError => true | _ => false end.
Definition is_EOFError (e : exn) : bool :=
  match e with EOFError | IncompleteReadError => true | _ => false end.
Definition is_RuntimeError (e : exn) : bool :=
  match e with RuntimeError _ | RecursionError => true | _ => false end.

(** ** State and exceptions

    A stateful method is a function from the object's state to a result and
    the state it leaves: a mutation made before a [raise] persists, as in
    Python. *)

Definition st (S A : Type) : Type := S → result A * S.

#[export] Instance st_ret {S} : MRet (st S) := λ A a s, (Ok a, s).
#[export] Instance st_bind {S} : MBind (st S) := λ A B f m s,
  match m s with
  | (Ok a, s1) => f a s1
  | (Raise e, s1) => (Raise e, s1)
  end.

Section state_ops.
Context {S : Type}.

Definition lift {A} (r : result A) : st S A := λ s, (r, s).
Definition raise {A} (e : exn) : st S A := λ s, (Raise e, s).
Definition get : st S S := λ s, (Ok s, s).
Definition gets {A} (f : S → A) : st S A := λ s, (Ok (f s), s).
Definition modify (f : S → S) : st S unit := λ s, (Ok tt, f s).

(** [try m except h]: [h] returns [None] for the exceptions it lets pass. *)
Definition try_except {A} (m : st S A) (h : exn → option (st S A)) : st S A :=
  λ s, match m s with
       | (Raise e, s1) => match h e with Some k => k s1 | None => (Raise e, s1) end
       | r => r
       end.

(** [try m finally f]: an exception of [f] replaces the outcome of [m]. *)
Definition try_finally {A} (m : st S A) (f : st S unit) : st S A :=
  λ s, let '(r, s1) := m s in
       match f s1 with
       | (Ok _, s2) => (r, s2)
       | (Raise e, s2) => (Raise e, s2)
       end.

(** Run a method of a component stored inside a larger state. *)
Definition zoom {T A} (proj : S → T) (upd : T → S → S) (m : st T A) : st S A :=
  λ s, let '(r, t) := m (proj s) in (r, upd t s).
End state_ops.

(** [if b: raise e] *)
Definition raise_if (b : bool) (e : exn) : result unit :=
  if b then Raise e else Ok tt.
Definition raise_when {S} (b : bool) (e : exn) : st S unit := lift (raise_if b e).

Declare Scope py_scope.
Delimit Scope py_scope with py.
#[global] Open Scope py_scope.
Notation "'raise_if!' b 'then' e ; k" :=
  (mbind (λ _ : unit, k) (raise_if b e))
  (at level 100, e at level 99, k at level 200, right associativity) : py_scope.

(** ** Inversion lemmas and tactics for both monads *)

Lemma result_bind_Ok {A B} (f : A → result B) (m : result A) b :
  mbind f m = Ok b ↔ ∃ a, m = Ok a ∧ f a = Ok b.
Proof.
  destruct m; cbn; split; [eauto| |discriminate|]; intros (? & ? & ?); congruence.
Qed.

Lemma raise_if_Ok b e x : raise_if b e = Ok x ↔ b = false.
Proof. destruct b, x; cbn; split; congruence. Qed.

Lemma st_bind_Ok {S A B} (f : A → st S B) (m : st S A) s b s' :
  mbind f m s = (Ok b, s') ↔ ∃ a s1, m s = (Ok a, s1) ∧ f a s1 = (Ok b, s').
Proof.
  unfold mbind, st_bind. destruct (m s) as [[a|e] s1]; split; intros H.
  - eauto.
  - destruct H as (? & ? & ? & ?); congruence.
  - discriminate.
  - destruct H as (? & ? & ? & ?); congruence.
Qed.

Lemma st_bind_Raise {S A B} (f : A → st S B) (m : st S A) s e s' :
  mbind f m s = (Raise e, s') ↔
  m s = (Raise e, s') ∨ ∃ a s1, m s = (Ok a, s1) ∧ f a s1 = (Raise e, s').
Proof.
  unfold mbind, st_bind. destruct (m s) as [[a|e1] s1]; split; intros H.
  - eauto.
  - destruct H as [?|(? & ? & ? & ?)]; congruence.
  - left; congruence.
  - destruct H as [?|(? & ? & ? & ?)]; congruence.
Qed.

(** Both outcomes of a bind. *)
Lemma st_bind_inv {S A B} (f : A → st S B) (m : st S A) s r s' :
  mbind f m s = (r, s') →
  ∃ r1 s1, m s = (r1, s1) ∧
    match r1 with Ok a => f a s1 = (r, s') | Raise e => r = Raise e ∧ s' = s1 end.
Proof.
  unfold mbind, st_bind. destruct (m s) as [[a|e] s1]; intros H; do 2 eexists;
    (split; [done|]); [done|by injection H as <- <-].
Qed.

Lemma st_bind_assoc {S A B C} (m : st S A) (k : st S B) (f : B → st S C) s x :
  (_ ← m; b ← k; f b) s = x → (b ← (_ ← m; k); f b) s = x.
Proof. intros <-. unfold mbind, st_bind. by destruct (m s) as [[?|?] ?]. Qed.

Lemma lift_inv {S A} (x : result A) (s : S) r s' : lift x s = (r, s') → x = r ∧ s' = s.
Proof. unfold lift. intros H. split; congruence. Qed.

Lemma raise_when_Ok {S} b e (s : S) x s' :
  raise_when b e s = (Ok x, s') ↔ b = false ∧ s' = s.
Proof.
  destruct b, x; cbn; split; intros H;
    first [by destruct H | by injection H as H | by destruct H as [_ ->]].
Qed.

Lemma raise_when_spec {S} b e (s : S) r s' :
  raise_when b e s = (r, s') →
  s' = s ∧ ((b = false ∧ r = Ok tt) ∨ (b = true ∧ r = Raise e)).
Proof. destruct b; intros [= <- <-]; auto. Qed.

(** A mapping preserved by every step of a stateful method. *)
Definition preserves {S A} (P : S → Prop) (m : st S A) : Prop :=
  ∀ s r s', P s → m s = (r, s') → P s'.

Section preserves.
Context {S : Type} (P : S → Prop).

Lemma preserves_ret {A} (a : A) : preserves P (mret a : st S A).
Proof. intros s r s' H [=]; by subst. Qed.
Lemma preserves_lift {A} (a : result A) : preserves P (lift a : st S A).
Proof. intros s r s' H [=]; by subst. Qed.
Lemma preserves_gets {A} (f : S → A) : preserves P (gets f).
Proof. intros s r s' H [=]; by subst. Qed.
Lemma preserves_raise {A} e : preserves P (raise e : st S A).
Proof. intros s r s' H [=]; by subst. Qed.
Lemma preserves_raise_when b e : preserves P (raise_when b e : st S unit).
Proof. apply preserves_lift. Qed.
Lemma preserves_modify f : (∀ s, P s → P (f s)) → preserves P (modify f).
Proof. intros Hf s r s' H [=]; subst; auto. Qed.
Lemma preserves_bind {A B} (m : st S A) (f : A → st S B) :
  preserves P m → (∀ a, preserves P (f a)) → preserves P (m ≫= f).
Proof.
  intros Hm Hf s r s' H. unfold mbind, st_bind.
  destruct (m s) as [[a|e] s1] eqn:E.
  - intros E2. eapply Hf, E2. by eapply Hm.
  - intros [= <- <-]. by eapply Hm.
Qed.
Lemma preserves_try_finally {A} (m : st S A) f :
  preserves P m → preserves P f → preserves P (try_finally m f).
Proof.
  intros Hm Hf s r s' H. unfold try_finally.
  destruct (m s) as [r1 s1] eqn:E1. destruct (f s1) as [[|] s2] eqn:E2;
    intros [= <- <-]; by eapply Hf, E2; eapply Hm.
Qed.
End preserves.

Create HintDb py discriminated.
#[export] Hint Resolve preserves_ret preserves_lift preserves_gets preserves_raise
  preserves_raise_when preserves_bind preserves_try_finally : py.

(** [py_inv]: peel the binds and guards of a successful run out of the
    hypotheses, one name per intermediate state. *)
Ltac py_inv_step :=
  match goal with
  | H : mbind _ _ = Ok _ |- _ =>
      apply result_bind_Ok in H; destruct H as (? & ? & H)
  | H : mbind _ _ _ = (Ok _, _) |- _ =>
      apply st_bind_Ok in H; destruct H as (? & ? & ? & H)
  | H : raise_if _ _ = Ok _ |- _ => apply raise_if_Ok in H
  | H : raise_when _ _ _ = (Ok _, _) |- _ =>
      apply raise_when_Ok in H; destruct H as [H ->]
  | H : (mret _ : result _) = Ok _ |- _ => injection H as H
  | H : mret _ _ = _ |- _ => unfold mret, st_ret in H
  | H : lift _ _ = _ |- _ => unfold lift in H
  | H : gets _ _ = _ |- _ => unfold gets in H
  | H : modify _ _ = _ |- _ => unfold modify in H
  | H : raise _ _ = _ |- _ => unfold raise in H
  | H : Ok _ = Ok _ |- _ => injection H as H
  | H : (_, _) = (_, _) |- _ => injection H as H
  | H : Raise _ = Ok _ |- _ => discriminate H
  | H : Ok _ = Raise _ |- _ => discriminate H
  end.
Ltac py_inv := repeat (py_inv_step; try subst).

(** Boolean guards as propositions. *)
Ltac bools :=
  repeat match goal with
  | H : (_ && _) = true |- _ => apply andb_true_iff in H; destruct H
  | H : (_ || _) = false |- _ => apply orb_false_iff in H; destruct H
  | H : negb _ = true |- _ => apply negb_true_iff in H
  | H : negb _ = false |- _ => apply negb_false_iff in H
  | H : bool_decide _ = true |- _ => apply bool_decide_eq_true in H
  | H : bool_decide _ = false |- _ => apply bool_decide_eq_false in H
  | H : (_ =? _) = true |- _ => apply Z.eqb_eq in H
  | H : (_ =? _) = false |- _ => apply Z.eqb_neq in H
  | H : (_ <? _) = true |- _ => apply Z.ltb_lt in H
  | H : (_ <? _) = false |- _ => apply Z.ltb_ge in H
  | H : (_ <=? _) = true |- _ => apply Z.leb_le in H
  | H : (_ <=? _) = false |- _ => apply Z.leb_gt in H
  end.

(** Decide a closed proposition. *)
Ltac dec_now :=
  lazymatch goal with |- ?P => refine (bool_decide_unpack P _); vm_compute; exact I end.

(** ** Lists *)

Lemma forallb_Forall {A} (f : A → bool) l : forallb f l = true ↔ Forall (λ x, f x = true) l.
Proof.
  induction l as [|x l IH]; cbn; [by split|]. by rewrite andb_true_iff, IH, Forall_cons.
Qed.

Lemma forallb_elem {A} (f : A → bool) l x : forallb f l = true → x ∈ l → f x = true.
Proof. rewrite forallb_Forall, Forall_forall. auto. Qed.

Lemma forallb_Permutation {A} (f : A → bool) l k : l ≡ₚ k → forallb f l = forallb f k.
Proof. induction 1; cbn; try congruence. by rewrite !andb_assoc, (andb_comm (f y)). Qed.

(** ** Time

    [time.monotonic()] readings are integers of nanoseconds (the source reads
    the same clock as a float of seconds; the rounding of that float is not
    modelled). *)
Definition ns_per_s : Z := 1000000000.
Definition ns_per_ms : Z := 1000000.
