(* ===== verification/Bytes.v ===== *)
(** * Bytes, strings and [struct] integers

    [bytes] objects are lists of [Byte.byte]; [str] objects are lists of code
    points ([pystr]); [u "..."] is a string literal.  The fixed-width integers
    of [struct.pack]/[struct.unpack] (formats [!I], [!Q], [!H], [<I], [<Q],
    [<i]) are little- or big-endian digit lists in base 256. *)

From S2P Require Import Prelude.

Abbreviation bytes := (list byte).
Abbreviation pystr := (list Z).

#[export] Instance byte_eq_dec : EqDecision byte := Byte.byte_eq_dec.

Definition b2z (b : byte) : Z := Z.of_N (Byte.to_N b).
Definition z2b (z : Z) : byte :=
  match Byte.of_N (Z.to_N (z mod 256)) with Some b => b | None => x00 end.

Lemma b2z_range b : 0 <= b2z b < 256.
Proof. unfold b2z. pose proof (Byte.to_N_bounded b). lia. Qed.

Lemma z2b_b2z b : z2b (b2z b) = b.
Proof.
  unfold z2b. rewrite Z.mod_small by apply b2z_range.
  unfold b2z. by rewrite N2Z.id, Byte.of_to_N.
Qed.

Lemma b2z_z2b z : b2z (z2b z) = z mod 256.
Proof.
  unfold z2b. pose proof (Z.mod_pos_bound z 256 eq_refl) as Hz.
  destruct (Byte.of_N (Z.to_N (z mod 256))) as [b|] eqn:E.
  - apply Byte.to_of_N_iff in E. unfold b2z. rewrite E. lia.
  - apply Byte.of_N_None_iff in E. lia.
Qed.

Lemma b2z_inj a b : b2z a = b2z b → a = b.
Proof. intros H. by rewrite <-(z2b_b2z a), H, z2b_b2z. Qed.

Lemma b2z_z2b_small z : 0 <= z < 256 → b2z (z2b z) = z.
Proof. intros. rewrite b2z_z2b. by apply Z.mod_small. Qed.

(** Length of a Python sequence, as an integer. *)
Definition len {A} (l : list A) : Z := Z.of_nat (length l).

Lemma len_nonneg {A} (l : list A) : 0 <= len l.
Proof. unfold len; lia. Qed.
Lemma len_app {A} (l k : list A) : len (l ++ k) = len l + len k.
Proof. unfold len; rewrite length_app; lia. Qed.
Lemma len_cons {A} (a : A) l : len (a :: l) = 1 + len l.
Proof. unfold len; cbn [length]; lia. Qed.
Lemma len_nil {A} : len (@nil A) = 0.
Proof. done. Qed.
#[export] Hint Rewrite @len_app @len_cons @len_nil : pylen.
#[export] Hint Resolve len_nonneg b2z_range : py.

(** [data[i:j]] for [0 <= i <= j]. *)
Definition slice {A} (l : list A) (i j : nat) : list A := take (j - i) (drop i l).

Lemma length_slice {A} (l : list A) i j :
  (i <= j)%nat → (j <= length l)%nat → length (slice l i j) = (j - i)%nat.
Proof. intros. unfold slice. rewrite length_take, length_drop. lia. Qed.

Lemma lookup_slice {A} (l : list A) i j k :
  (k < j - i)%nat → slice l i j !! k = l !! (i + k)%nat.
Proof. intros. unfold slice. rewrite lookup_take, lookup_drop by lia. by case_decide; [|lia]. Qed.

Definition ascii_z (a : Ascii.ascii) : Z := Z.of_N (Ascii.N_of_ascii a).
Fixpoint u (s : string) : pystr :=
  match s with
  | EmptyString => []
  | String a s => ascii_z a :: u s
  end.

#[global] Arguments u : simpl never.

Definition b (s : string) : bytes := z2b <$> u s.
(** [bytes(n)] *)
Definition zeros (n : nat) : bytes := replicate n x00.

(** ** Fixed-width integers *)

Fixpoint le_encode (n : nat) (z : Z) : bytes :=
  match n with
  | O => []
  | S n => z2b z :: le_encode n (z / 256)
  end.

Fixpoint le_decode (l : bytes) : Z :=
  match l with
  | [] => 0
  | x :: l => b2z x + 256 * le_decode l
  end.

Definition be_encode (n : nat) (z : Z) : bytes := rev (le_encode n z).
Definition be_decode (l : bytes) : Z := le_decode (rev l).

Lemma length_le_encode n z : length (le_encode n z) = n.
Proof. revert z; induction n; intros; cbn; auto. Qed.
Lemma length_be_encode n z : length (be_encode n z) = n.
Proof. unfold be_encode. by rewrite length_rev, length_le_encode. Qed.
Lemma len_le_encode n z : len (le_encode n z) = Z.of_nat n.
Proof. unfold len. by rewrite length_le_encode. Qed.
Lemma len_be_encode n z : len (be_encode n z) = Z.of_nat n.
Proof. unfold len. by rewrite length_be_encode. Qed.
#[export] Hint Rewrite length_le_encode length_be_encode : pylen.

Lemma le_decode_bound l : 0 <= le_decode l < 256 ^ len l.
Proof.
  induction l as [|x l IH]; [by vm_compute|].
  rewrite len_cons, Z.pow_add_r by (pose proof (len_nonneg l); lia).
  cbn [le_decode]. pose proof (b2z_range x). change (256 ^ 1) with 256. lia.
Qed.

Lemma be_decode_bound l : 0 <= be_decode l < 256 ^ len l.
Proof.
  unfold be_decode. pose proof (le_decode_bound (rev l)) as H.
  unfold len in *. by rewrite length_rev in H.
Qed.

Lemma le_decode_encode n z : le_decode (le_encode n z) = z mod 256 ^ Z.of_nat n.
Proof.
  revert z. induction n as [|n IH]; intros z.
  - cbn. by rewrite Z.mod_1_r.
  - cbn [le_encode le_decode]. rewrite IH, b2z_z2b, Nat2Z.inj_succ, Z.pow_succ_r by lia.
    assert (0 < 256 ^ Z.of_nat n) by (apply Z.pow_pos_nonneg; lia).
    rewrite (Z.rem_mul_r z 256); lia.
Qed.

Lemma le_encode_decode l : le_encode (length l) (le_decode l) = l.
Proof.
  induction l as [|x l IH]; [done|]. cbn [length le_encode le_decode].
  f_equal.
  - apply b2z_inj. rewrite b2z_z2b, Z.mul_comm, Z.mod_add by lia.
    apply Z.mod_small, b2z_range.
  - rewrite Z.mul_comm, Z.div_add, Z.div_small by (lia || apply b2z_range).
    by rewrite Z.add_0_l.
Qed.

Lemma be_decode_encode n z : be_decode (be_encode n z) = z mod 256 ^ Z.of_nat n.
Proof. unfold be_decode, be_encode. by rewrite rev_involutive, le_decode_encode. Qed.

Lemma be_encode_decode l : be_encode (length l) (be_decode l) = l.
Proof.
  unfold be_decode, be_encode.
  by rewrite <-(length_rev l), le_encode_decode, rev_involutive.
Qed.

Lemma le_encode_inj n x y :
  0 <= x < 256 ^ Z.of_nat n → 0 <= y < 256 ^ Z.of_nat n →
  le_encode n x = le_encode n y → x = y.
Proof.
  intros Hx Hy H. apply (f_equal le_decode) in H.
  rewrite !le_decode_encode, !Z.mod_small in H by lia. done.
Qed.

Lemma be_encode_inj n x y :
  0 <= x < 256 ^ Z.of_nat n → 0 <= y < 256 ^ Z.of_nat n →
  be_encode n x = be_encode n y → x = y.
Proof.
  intros Hx Hy H. apply (f_equal be_decode) in H.
  rewrite !be_decode_encode, !Z.mod_small in H by lia. done.
Qed.

(** Two's complement reading of an [n]-byte little-endian field ([<i]). *)
Definition le_decode_signed (l : bytes) : Z :=
  let z := le_decode l in
  let w := 256 ^ len l in
  if z <? w / 2 then z else z - w.

(** ** Hexadecimal ([bytes.hex], [bytes.fromhex]) *)

Definition hex_digit (z : Z) : Z := if z <? 10 then 48 + z else 87 + z.
Definition hex_of (l : bytes) : pystr :=
  l ≫= λ x, [hex_digit (b2z x / 16); hex_digit (b2z x mod 16)].

(** The lower-case digits [0-9a-f]. *)
Definition is_hex (c : Z) : bool :=
  ((48 <=? c) && (c <=? 57)) || ((97 <=? c) && (c <=? 102)).
Definition hex_val (c : Z) : Z := if c <=? 57 then c - 48 else c - 87.

(** [bytes.fromhex] on a string already checked to be lower-case hex digits
    of even length (its only use in the sources). *)
Fixpoint from_hex (s : pystr) : bytes :=
  match s with
  | h :: l :: s => z2b (16 * hex_val h + hex_val l) :: from_hex s
  | _ => []
  end.

Lemma hex_digit_val z : 0 <= z < 16 → hex_val (hex_digit z) = z.
Proof.
  intros. unfold hex_val, hex_digit.
  destruct (Z.ltb_spec z 10); [destruct (Z.leb_spec (48 + z) 57); lia|].
  destruct (Z.leb_spec (87 + z) 57); lia.
Qed.

Lemma hex_digit_is_hex z : 0 <= z < 16 → is_hex (hex_digit z) = true.
Proof.
  intros. unfold is_hex, hex_digit.
  destruct (Z.ltb_spec z 10); apply orb_true_iff; [left|right];
    apply andb_true_iff; split; apply Z.leb_le; lia.
Qed.

Lemma hex_val_digit c : is_hex c = true → hex_digit (hex_val c) = c.
Proof.
  unfold is_hex. intros [H|H]%orb_true_iff; bools; unfold hex_digit, hex_val.
  - destruct (Z.leb_spec c 57); [|lia]. destruct (Z.ltb_spec (c - 48) 10); lia.
  - destruct (Z.leb_spec c 57); [lia|]. destruct (Z.ltb_spec (c - 87) 10); lia.
Qed.

Lemma hex_val_range c : is_hex c = true → 0 <= hex_val c < 16.
Proof.
  unfold is_hex. intros [H|H]%orb_true_iff; bools; unfold hex_val;
    destruct (Z.leb_spec c 57); lia.
Qed.

Lemma from_hex_hex_of l : from_hex (hex_of l) = l.
Proof.
  induction l as [|x l IH]; [done|]. cbn [hex_of mbind list_bind app from_hex].
  fold (hex_of l). pose proof (b2z_range x).
  rewrite !hex_digit_val, <-Z.div_mod, z2b_b2z.
  - f_equal. exact IH.
  - lia.
  - apply Z.mod_pos_bound; lia.
  - split; [apply Z.div_pos; lia|apply Z.div_lt_upper_bound; lia].
Qed.

Lemma length_hex_of l : length (hex_of l) = (2 * length l)%nat.
Proof.
  induction l as [|x l IH]; [done|]. cbn [hex_of mbind list_bind app length].
  fold (hex_of l). lia.
Qed.

Lemma hex_of_is_hex l : forallb is_hex (hex_of l) = true.
Proof.
  induction l as [|x l IH]; [done|]. cbn [hex_of mbind list_bind app forallb].
  fold (hex_of l). pose proof (b2z_range x).
  rewrite !hex_digit_is_hex; [exact IH| |].
  - apply Z.mod_pos_bound; lia.
  - split; [apply Z.div_pos; lia|apply Z.div_lt_upper_bound; lia].
Qed.

Lemma from_hex_inj s t :
  forallb is_hex s = true → forallb is_hex t = true → length s = length t →
  Nat.Even (length s) → from_hex s = from_hex t → s = t.
Proof.
  revert t. induction s as [s IH] using (induction_ltof1 _ (@length Z)); unfold ltof in IH.
  intros t Hs Ht Hl He H.
  destruct s as [|h [|l s]], t as [|h' [|l' t]]; try done.
  { destruct He; cbn in *; lia. }
  cbn [forallb] in *. bools. cbn [from_hex] in H. injection H as Hb Hr.
  apply (f_equal b2z) in Hb.
  pose proof (hex_val_range h ltac:(done)). pose proof (hex_val_range l ltac:(done)).
  pose proof (hex_val_range h' ltac:(done)). pose proof (hex_val_range l' ltac:(done)).
  rewrite !b2z_z2b_small in Hb by lia.
  assert (hex_val h = hex_val h' ∧ hex_val l = hex_val l') as [E1 E2] by lia.
  apply (f_equal hex_digit) in E1, E2. rewrite !hex_val_digit in E1, E2 by done.
  subst. do 2 f_equal. apply IH; cbn in *; auto with lia.
  destruct He as [k ?]. exists (k - 1)%nat. lia.
Qed.
