(* ===== verification/Sha256.v ===== *)
(** * SHA-256 ([hashlib.sha256(...).digest()], FIPS 180-4)

    The sources call [hashlib.sha256] for certificate fingerprints, nonces,
    Quote qualifications and manifests.  It is modelled here, so that every
    digest of the development evaluates.  Words are integers modulo [2^32]. *)

From S2P Require Import Prelude Bytes.

Module Sha256.

Definition w32 (z : Z) : Z := Z.land z 4294967295.
Definition rotr (n x : Z) : Z := Z.lor (Z.shiftr x n) (w32 (Z.shiftl x (32 - n))).
Definition xor3 (a b c : Z) : Z := Z.lxor a (Z.lxor b c).
Definition ch (x y z : Z) : Z := Z.lxor (Z.land x y) (Z.land (Z.lxor x 4294967295) z).
Definition maj (x y z : Z) : Z := xor3 (Z.land x y) (Z.land x z) (Z.land y z).
Definition Sigma0 (x : Z) : Z := xor3 (rotr 2 x) (rotr 13 x) (rotr 22 x).
Definition Sigma1 (x : Z) : Z := xor3 (rotr 6 x) (rotr 11 x) (rotr 25 x).
Definition sigma0 (x : Z) : Z := xor3 (rotr 7 x) (rotr 18 x) (Z.shiftr x 3).
Definition sigma1 (x : Z) : Z := xor3 (rotr 17 x) (rotr 19 x) (Z.shiftr x 10).

Definition K : list Z :=
  [1116352408; 1899447441; 3049323471; 3921009573; 961987163; 1508970993;
   2453635748; 2870763221; 3624381080; 310598401; 607225278; 1426881987;
   1925078388; 2162078206; 2614888103; 3248222580; 3835390401; 4022224774;
   264347078; 604807628; 770255983; 1249150122; 1555081692; 1996064986;
   2554220882; 2821834349; 2952996808; 3210313671; 3336571891; 3584528711;
   113926993; 338241895; 666307205; 773529912; 1294757372; 1396182291;
   1695183700; 1986661051; 2177026350; 2456956037; 2730485921; 2820302411;
   3259730800; 3345764771; 3516065817; 3600352804; 4094571909; 275423344;
   430227734; 506948616; 659060556; 883997877; 958139571; 1322822218;
   1537002063; 1747873779; 1955562222; 2024104815; 2227730452; 2361852424;
   2428436474; 2756734187; 3204031479; 3329325298].

Record state := State { sa : Z; sb : Z; sc : Z; sd : Z; se : Z; sf : Z; sg : Z; sh : Z }.

Definition H0 : state :=
  State 1779033703 3144134277 1013904242 2773480762
        1359893119 2600822924 528734635 1541459225.

Definition round (s : state) (k w : Z) : state :=
  let t1 := sh s + Sigma1 (se s) + ch (se s) (sf s) (sg s) + k + w in
  let t2 := Sigma0 (sa s) + maj (sa s) (sb s) (sc s) in
  State (w32 (t1 + t2)) (sa s) (sb s) (sc s) (w32 (sd s + t1)) (se s) (sf s) (sg s).

(** The message schedule, as a sliding window of sixteen words. *)
Fixpoint rounds (ks : list Z) (win : list Z) (s : state) : state :=
  match ks with
  | [] => s
  | k :: ks =>
      let w0 := nth 0 win 0 in
      let w16 := w32 (sigma1 (nth 14 win 0) + nth 9 win 0 + sigma0 (nth 1 win 0) + w0) in
      rounds ks (tl win ++ [w16]) (round s k w0)
  end.

Definition add_state (x y : state) : state :=
  State (w32 (sa x + sa y)) (w32 (sb x + sb y)) (w32 (sc x + sc y)) (w32 (sd x + sd y))
        (w32 (se x + se y)) (w32 (sf x + sf y)) (w32 (sg x + sg y)) (w32 (sh x + sh y)).

Definition words (block : bytes) : list Z :=
  (λ i, be_decode (slice block (4 * i) (4 * i + 4))) <$> seq 0 16.

Definition compress (s : state) (block : bytes) : state :=
  add_state s (rounds K (words block) s).

Fixpoint blocks (n : nat) (m : bytes) (s : state) : state :=
  match n with
  | O => s
  | S n => blocks n (drop 64 m) (compress s (take 64 m))
  end.

(** Pad with [0x80], zeros, and the 64-bit bit length, to whole blocks. *)
Definition pad (m : bytes) : bytes :=
  m ++ [x80] ++ zeros (Z.to_nat ((55 - len m) mod 64)) ++ be_encode 8 (8 * len m).

Definition digest (s : state) : bytes :=
  be_encode 4 (sa s) ++ be_encode 4 (sb s) ++ be_encode 4 (sc s) ++ be_encode 4 (sd s) ++
  be_encode 4 (se s) ++ be_encode 4 (sf s) ++ be_encode 4 (sg s) ++ be_encode 4 (sh s).

Definition sha256 (m : bytes) : bytes :=
  let p := pad m in digest (blocks (length p / 64) p H0).

(** [hexdigest()] *)
Definition sha256_hex (m : bytes) : pystr := hex_of (sha256 m).

Lemma length_sha256 m : length (sha256 m) = 32%nat.
Proof. unfold sha256, digest. by rewrite !length_app, !length_be_encode. Qed.

Lemma length_sha256_hex m : length (sha256_hex m) = 64%nat.
Proof. unfold sha256_hex. by rewrite length_hex_of, length_sha256. Qed.

Lemma sha256_hex_is_hex m : forallb is_hex (sha256_hex m) = true.
Proof. apply hex_of_is_hex. Qed.

(** The padded message is a whole number of blocks, so no byte is left out. *)
Lemma pad_blocks m : len (pad m) mod 64 = 0.
Proof.
  unfold pad, zeros. autorewrite with pylen.
  rewrite len_be_encode.
  replace (len (replicate _ _)) with (Z.of_nat (Z.to_nat ((55 - len m) mod 64)))
    by (unfold len; by rewrite length_replicate).
  pose proof (Z.mod_pos_bound (55 - len m) 64).
  rewrite Z2Nat.id by lia.
  pose proof (Z.div_mod (55 - len m) 64). 
  replace (len m + (1 + 0 + ((55 - len m) mod 64 + Z.of_nat 8)))
    with ((1 - (55 - len m) / 64) * 64) by lia.
  apply Z.mod_mul; lia.
Qed.

(** FIPS 180-4 test vectors. *)
Example sha256_empty :
  sha256_hex [] = u "e3b0c44298fc1c149afbf4c8996fb92427ae41e4649b934ca495991b7852b855".
Proof. vm_compute. reflexivity. Qed.
Example sha256_abc :
  sha256_hex (b "abc") = u "ba7816bf8f01cfea414140de5dae2223b00361a396177a9cb410ff61f20015ad".
Proof. vm_compute. reflexivity. Qed.
Example sha256_two_blocks :
  sha256_hex (b "abcdbcdecdefdefgefghfghighijhijkijkljklmklmnlmnomnopnopq")
  = u "248d6a61d20638b8e5c026930c3e6039a33ce45964ff2167f6ecedd419db06c1".
Proof. vm_compute. reflexivity. Qed.

End Sha256.

Export Sha256 (sha256, sha256_hex, length_sha256, length_sha256_hex, sha256_hex_is_hex).
Arguments sha256 : simpl never.
