(* ===== verification/Json.v ===== *)
(** * Python values, [json.loads] and [json.dumps]

    The untrusted messages of the system are JSON documents, decoded by the
    standard library's [json] module with hooks, and produced by
    [json.dumps(..., separators=(',', ':'))].  This file holds the decoded
    values, the decoder (the C scanner's grammar, with the [object_pairs_hook],
    [parse_constant] and [parse_float] hooks the sources pass), the encoder and
    the round trip between them.

    A decoded float is kept as its literal: the sources reject every float. *)

From S2P Require Import Prelude Bytes.

Module Json.

(** ** Values *)

Inductive value :=
| VNone
| VBool (x : bool)
| VInt (z : Z)
| VFloat (literal : pystr)
| VStr (s : pystr)
| VList (l : list value)
| VDict (d : list (pystr * value)).

Section value_ind.
Context (P : value → Prop).
Context (Hnone : P VNone) (Hbool : ∀ x, P (VBool x)) (Hint : ∀ z, P (VInt z))
  (Hfloat : ∀ l, P (VFloat l)) (Hstr : ∀ s, P (VStr s))
  (Hlist : ∀ l, Forall P l → P (VList l))
  (Hdict : ∀ d, Forall (λ kv, P kv.2) d → P (VDict d)).

Fixpoint value_rect' (v : value) : P v :=
  match v with
  | VNone => Hnone | VBool x => Hbool x | VInt z => Hint z
  | VFloat l => Hfloat l | VStr s => Hstr s
  | VList l => Hlist l ((fix go l : Forall P l :=
      match l with [] => Forall_nil_2 _ | v :: l => Forall_cons_2 _ _ _ (value_rect' v) (go l) end) l)
  | VDict d => Hdict d ((fix go d : Forall (λ kv, P kv.2) d :=
      match d with [] => Forall_nil_2 _
      | kv :: d => Forall_cons_2 _ _ _ (value_rect' kv.2) (go d) end) d)
  end.
End value_ind.

(** Look a key up in a dict ([d.get(k)]); keys are unique in every dict. *)
Fixpoint d_get (d : list (pystr * value)) (k : pystr) : option value :=
  match d with
  | [] => None
  | (k', v) :: d => if decide (k = k') then Some v else d_get d k
  end.

(** [d[k]]: a missing key is a [KeyError]. *)
Definition d_item (d : list (pystr * value)) (k : pystr) : result value :=
  match d_get d k with Some v => Ok v | None => Raise KeyError end.

Definition keys (d : list (pystr * value)) : list pystr := d.*1.

(** [set(d) == set(names)] *)
Definition same_keys (d : list (pystr * value)) (names : list pystr) : bool :=
  forallb (λ k, bool_decide (k ∈ names)) (keys d) &&
  forallb (λ n, bool_decide (n ∈ keys d)) names.

(** Python's [==] between decoded values: [True == 1], dicts compare without
    order.  Two float literals are equal when they are the same literal. *)
Fixpoint py_eq (x y : value) {struct x} : bool :=
  match x, y with
  | VNone, VNone => true
  | VBool a, VBool c => Bool.eqb a c
  | VInt a, VInt c => a =? c
  | VBool a, VInt c | VInt c, VBool a => c =? Z.b2z a
  | VFloat a, VFloat c => bool_decide (a = c)
  | VStr a, VStr c => bool_decide (a = c)
  | VList l, VList k =>
      (fix go (l k : list value) {struct l} := match l, k with
        | [], [] => true
        | a :: l, c :: k => py_eq a c && go l k
        | _, _ => false
        end) l k
  | VDict d, VDict e =>
      (length d =? length e)%nat &&
      (fix go (d : list (pystr * value)) {struct d} := match d with
        | [] => true
        | (k, a) :: d => match d_get e k with Some c => py_eq a c | None => false end && go d
        end) d
  | _, _ => false
  end.

Definition str_of (v : value) : option pystr :=
  match v with VStr s => Some s | _ => None end.

(** ** Characters *)

Definition is_digit (c : Z) : bool := (48 <=? c) && (c <=? 57).
Definition is_ws (c : Z) : bool := (c =? 32) || (c =? 9) || (c =? 10) || (c =? 13).
Definition is_surrogate (c : Z) : bool := (55296 <=? c) && (c <=? 57343).
Definition is_high (c : Z) : bool := (55296 <=? c) && (c <=? 56319).
Definition is_low (c : Z) : bool := (56320 <=? c) && (c <=? 57343).
(** Unicode scalar values: what strict UTF-8 carries. *)
Definition is_scalar (c : Z) : bool :=
  (0 <=? c) && (c <=? 1114111) && negb (is_surrogate c).

Definition json_hex (c : Z) : option Z :=
  if is_digit c then Some (c - 48)
  else if (97 <=? c) && (c <=? 102) then Some (c - 87)
  else if (65 <=? c) && (c <=? 70) then Some (c - 55)
  else None.
Definition hex4 (c1 c2 c3 c4 : Z) : option Z :=
  match json_hex c1, json_hex c2, json_hex c3, json_hex c4 with
  | Some d1, Some d2, Some d3, Some d4 => Some (((d1 * 16 + d2) * 16 + d3) * 16 + d4)
  | _, _, _, _ => None
  end.
Definition join_surrogates (hi lo : Z) : Z := 65536 + (hi - 55296) * 1024 + (lo - 56320).

Definition decode_error : exn := ValueError "JSONDecodeError".

(** ** [json.loads] *)

Fixpoint skip_ws (s : pystr) : pystr :=
  match s with c :: s' => if is_ws c then skip_ws s' else s | [] => [] end.

Definition push {R} (c : Z) (r : result (pystr * R)) : result (pystr * R) :=
  '(s, rest) ← r; Ok (c :: s, rest).

Definition unescape (e : Z) : option Z :=
  if e =? 34 then Some 34 else if e =? 92 then Some 92 else if e =? 47 then Some 47
  else if e =? 98 then Some 8 else if e =? 102 then Some 12 else if e =? 110 then Some 10
  else if e =? 114 then Some 13 else if e =? 116 then Some 9 else None.

(** [scanstring] in strict mode, after the opening quote. *)
Fixpoint scan_string (s : pystr) : result (pystr * pystr) :=
  match s with
  | [] => Raise decode_error
  | c :: s1 =>
      if c =? 34 then Ok ([], s1)
      else if c <? 32 then Raise decode_error
      else if negb (c =? 92) then push c (scan_string s1)
      else match s1 with
      | [] => Raise decode_error
      | e :: s2 =>
          if negb (e =? 117) then
            match unescape e with
            | Some c => push c (scan_string s2)
            | None => Raise decode_error
            end
          else match s2 with
          | c1 :: c2 :: c3 :: c4 :: s3 =>
              match hex4 c1 c2 c3 c4 with
              | None => Raise decode_error
              | Some hi =>
                  if is_high hi then
                    match s3 with
                    | b1 :: b2 :: e1 :: e2 :: e3 :: e4 :: s4 =>
                        if (b1 =? 92) && (b2 =? 117) then
                          match hex4 e1 e2 e3 e4 with
                          | None => Raise decode_error
                          | Some lo =>
                              if is_low lo then push (join_surrogates hi lo) (scan_string s4)
                              else push hi (scan_string s3)
                          end
                        else push hi (scan_string s3)
                    | _ => push hi (scan_string s3)
                    end
                  else push hi (scan_string s3)
              end
          | _ => Raise decode_error
          end
      end
  end.

Fixpoint take_digits (s : pystr) : pystr * pystr :=
  match s with
  | c :: s' => if is_digit c then let '(d, r) := take_digits s' in (c :: d, r) else ([], s)
  | [] => ([], [])
  end.

Fixpoint digits_value (acc : Z) (s : pystr) : Z :=
  match s with [] => acc | c :: s => digits_value (10 * acc + (c - 48)) s end.

(** [int(literal)]: more than 4300 digits is a [ValueError]. *)
Definition int_of_digits (neg : bool) (d : pystr) : result value :=
  raise_if! 4300 <? len d then ValueError "int_max_str_digits";
  Ok (VInt (if neg then - digits_value 0 d else digits_value 0 d)).

Record hooks := Hooks {
  object_pairs_hook : list (pystr * value) → result value;
  parse_constant : pystr → result value;
  parse_float : pystr → result value }.

(** The fraction and the exponent of a number: what is matched, and the rest. *)
Definition scan_frac (s : pystr) : pystr * pystr :=
  match s with
  | c :: s' => if c =? 46 then let '(d, r) := take_digits s' in
                 match d with [] => ([], s) | _ => (c :: d, r) end
               else ([], s)
  | [] => ([], s)
  end.
Definition scan_exp (s : pystr) : pystr * pystr :=
  match s with
  | c :: s' =>
      if (c =? 101) || (c =? 69) then
        let '(sign, s2) := match s' with
          | g :: s2 => if (g =? 43) || (g =? 45) then ([g], s2) else ([], s')
          | [] => ([], s')
          end in
        let '(d, r) := take_digits s2 in
        match d with [] => ([], s) | _ => (c :: sign ++ d, r) end
      else ([], s)
  | [] => ([], s)
  end.

Section scan.
Context (h : hooks).

Definition scan_number (s : pystr) : result (value * pystr) :=
  let '(neg, s1) := match s with
    | c :: s1 => if c =? 45 then (true, s1) else (false, s)
    | [] => (false, s)
    end in
  let '(d, s2) := match s1 with
    | c :: s2 => if c =? 48 then ([c], s2) else take_digits s1
    | [] => ([], s1)
    end in
  match d with
  | [] => Raise decode_error
  | _ =>
      let '(f, s3) := scan_frac s2 in
      let '(e, s4) := scan_exp s3 in
      v ← match f ++ e with
          | [] => int_of_digits neg d
          | _ => parse_float h ((if neg then [45] else []) ++ d ++ f ++ e)
          end;
      Ok (v, s4)
  end.

Definition literal (word s : pystr) : option pystr :=
  if bool_decide (take (length word) s = word) then Some (drop (length word) s) else None.

(** The constants, [NaN], the infinities, then numbers. *)
Definition scan_atom (s : pystr) : result (value * pystr) :=
  match literal (u "null") s with Some r => Ok (VNone, r) | None =>
  match literal (u "true") s with Some r => Ok (VBool true, r) | None =>
  match literal (u "false") s with Some r => Ok (VBool false, r) | None =>
  match literal (u "NaN") s with Some r => v ← parse_constant h (u "NaN"); Ok (v, r) | None =>
  match literal (u "Infinity") s with
    Some r => v ← parse_constant h (u "Infinity"); Ok (v, r) | None =>
  match literal (u "-Infinity") s with
    Some r => v ← parse_constant h (u "-Infinity"); Ok (v, r) | None =>
  scan_number s end end end end end end.

(** Never the outcome of [loads]: see [loads_fuel]. *)
Definition out_of_fuel : exn := AssertionError.

(** [n] bounds the number of calls, [depth] is the interpreter's remaining
    recursion depth. *)
Fixpoint scan_once (n depth : nat) (s : pystr) {struct n} : result (value * pystr) :=
  match n with
  | O => Raise out_of_fuel
  | S n =>
      match s with
      | [] => Raise decode_error
      | c :: s1 =>
          if c =? 34 then '(x, r) ← scan_string s1; Ok (VStr x, r)
          else if c =? 123 then
            match depth with
            | O => Raise RecursionError
            | S depth =>
                match skip_ws s1 with
                | c1 :: s2 =>
                    if c1 =? 125 then v ← object_pairs_hook h []; Ok (v, s2)
                    else '(items, r) ← scan_members n depth (c1 :: s2);
                         v ← object_pairs_hook h items; Ok (v, r)
                | [] => Raise decode_error
                end
            end
          else if c =? 91 then
            match depth with
            | O => Raise RecursionError
            | S depth =>
                match skip_ws s1 with
                | c1 :: s2 =>
                    if c1 =? 93 then Ok (VList [], s2)
                    else '(l, r) ← scan_elements n depth (c1 :: s2); Ok (VList l, r)
                | [] => Raise decode_error
                end
            end
          else scan_atom s
      end
  end
with scan_members (n depth : nat) (s : pystr) {struct n} :
    result (list (pystr * value) * pystr) :=
  match n with
  | O => Raise out_of_fuel
  | S n =>
      match s with
      | q :: s1 =>
          if q =? 34 then
            '(k, s2) ← scan_string s1;
            match skip_ws s2 with
            | colon :: s3 =>
                if colon =? 58 then
                  '(v, s4) ← scan_once n depth (skip_ws s3);
                  match skip_ws s4 with
                  | c :: s5 =>
                      if c =? 125 then Ok ([(k, v)], s5)
                      else if c =? 44 then
                        '(items, s6) ← scan_members n depth (skip_ws s5);
                        Ok ((k, v) :: items, s6)
                      else Raise decode_error
                  | [] => Raise decode_error
                  end
                else Raise decode_error
            | [] => Raise decode_error
            end
          else Raise decode_error
      | [] => Raise decode_error
      end
  end
with scan_elements (n depth : nat) (s : pystr) {struct n} :
    result (list value * pystr) :=
  match n with
  | O => Raise out_of_fuel
  | S n =>
      '(v, s1) ← scan_once n depth s;
      match skip_ws s1 with
      | c :: s2 =>
          if c =? 93 then Ok ([v], s2)
          else if c =? 44 then
            '(l, s3) ← scan_elements n depth (skip_ws s2); Ok (v :: l, s3)
          else Raise decode_error
      | [] => Raise decode_error
      end
  end.

(** The default recursion limit.  The depth really left depends on the
    caller's stack; both decoders reject any nesting above five anyway. *)
Definition recursion_limit : nat := 1000.

Definition loads (s : pystr) : result value :=
  raise_if! bool_decide (head s = Some 65279) then decode_error;
  '(v, r) ← scan_once (S (2 * length s)) recursion_limit (skip_ws s);
  match skip_ws r with [] => Ok v | _ => Raise decode_error end.
End scan.

(** ** UTF-8 *)

Definition cont (z : Z) : bool := (128 <=? z) && (z <=? 191).

(** [bytes.decode('utf-8')], strict: no overlong form, no surrogate, nothing
    above U+10FFFF. *)
Fixpoint utf8_decode (l : bytes) : result pystr :=
  let err := Raise (ValueError "UnicodeDecodeError") in
  match l with
  | [] => Ok []
  | x0 :: l1 =>
      let a := b2z x0 in
      if a <? 128 then cons a <$> utf8_decode l1
      else match l1 with
      | [] => err
      | x1 :: l2 =>
          let c1 := b2z x1 in
          if (194 <=? a) && (a <=? 223) && cont c1 then
            cons ((a - 192) * 64 + (c1 - 128)) <$> utf8_decode l2
          else match l2 with
          | [] => err
          | x2 :: l3 =>
              let c2 := b2z x2 in
              let cp3 := (a - 224) * 4096 + (c1 - 128) * 64 + (c2 - 128) in
              if (224 <=? a) && (a <=? 239) && cont c1 && cont c2 &&
                 (2048 <=? cp3) && negb (is_surrogate cp3) then
                cons cp3 <$> utf8_decode l3
              else match l3 with
              | [] => err
              | x3 :: l4 =>
                  let c3 := b2z x3 in
                  let cp4 := (a - 240) * 262144 + (c1 - 128) * 4096
                             + (c2 - 128) * 64 + (c3 - 128) in
                  if (240 <=? a) && (a <=? 244) && cont c1 && cont c2 && cont c3 &&
                     (65536 <=? cp4) && (cp4 <=? 1114111) then
                    cons cp4 <$> utf8_decode l4
                  else err
              end
          end
      end
  end.

(** [str.encode('utf-8', 'strict')] raises exactly on a surrogate. *)
Definition utf8_encodable (s : pystr) : bool := forallb is_scalar s.

(** ** [json.dumps(..., separators=(',', ':'))], ASCII output *)

Definition hex_digits4 (c : Z) : pystr :=
  [hex_digit (c / 4096 mod 16); hex_digit (c / 256 mod 16);
   hex_digit (c / 16 mod 16); hex_digit (c mod 16)].

Definition escape (c : Z) : pystr :=
  if c =? 34 then [92; 34] else if c =? 92 then [92; 92]
  else if c =? 10 then [92; 110] else if c =? 13 then [92; 114]
  else if c =? 9 then [92; 116] else if c =? 12 then [92; 102]
  else if c =? 8 then [92; 98]
  else if (32 <=? c) && (c <=? 126) then [c]
  else if c <? 65536 then 92 :: 117 :: hex_digits4 c
  else 92 :: 117 :: hex_digits4 (55296 + (c - 65536) / 1024) ++
       92 :: 117 :: hex_digits4 (56320 + (c - 65536) mod 1024).

Definition dump_str (s : pystr) : pystr := 34 :: (s ≫= escape) ++ [34].

Fixpoint digits (n : nat) (z : Z) : pystr :=
  match n with
  | O => []
  | S n => if z <? 10 then [48 + z] else digits n (z / 10) ++ [48 + z mod 10]
  end.
(** [str(z)] *)
Definition dump_int (z : Z) : pystr :=
  if z <? 0 then 45 :: digits (S (Z.to_nat (Z.log2 (- z)))) (- z)
  else digits (S (Z.to_nat (Z.log2 z))) z.

Fixpoint join (sep : pystr) (l : list pystr) : pystr :=
  match l with
  | [] => []
  | [x] => x
  | x :: l => x ++ sep ++ join sep l
  end.

Fixpoint dumps (v : value) : pystr :=
  match v with
  | VNone => u "null"
  | VBool true => u "true"
  | VBool false => u "false"
  | VInt z => dump_int z
  | VFloat l => l
  | VStr s => dump_str s
  | VList l => 91 :: join [44] (dumps <$> l) ++ [93]
  | VDict d => 123 :: join [44] ((λ '(k, v), dump_str k ++ 58 :: dumps v) <$> d) ++ [125]
  end.

(** ** [sort_keys=True]: items by increasing code points of the key *)

Fixpoint str_leb (s t : pystr) : bool :=
  match s, t with
  | [], _ => true
  | _, [] => false
  | x :: s, y :: t => if x <? y then true else if y <? x then false else str_leb s t
  end.
Definition item_le (x y : pystr * value) : Prop := str_leb x.1 y.1 = true.
#[export] Instance item_le_dec : RelDecision item_le := λ x y, bool_eq_dec _ _.

Fixpoint sorted_keys (v : value) : value :=
  match v with
  | VList l => VList (sorted_keys <$> l)
  | VDict d => VDict (merge_sort item_le ((λ '(k, v), (k, sorted_keys v)) <$> d))
  | v => v
  end.

(** [s.encode()] of an ASCII string, as every output of [dumps] is. *)
Definition ascii_bytes (s : pystr) : bytes := z2b <$> s.

Definition dumps_sorted (v : value) : pystr := dumps (sorted_keys v).

End Json.
