(* ===== verification/JsonFacts.v ===== *)
(** * The JSON round trip

    [loads (dumps v) = v] for every value the sources send (no float, unique
    keys, encodable strings), the canonical order of [sort_keys=True], and the
    sufficiency of the decoder's fuel. *)

From S2P Require Import Prelude Bytes Json.
Import Json.

(** ** Digits *)

Lemma take_digits_app d rest :
  forallb is_digit d = true →
  match rest with c :: _ => is_digit c = false | [] => True end →
  take_digits (d ++ rest) = (d, rest).
Proof.
  intros Hd Hr. induction d as [|c d IH]; cbn [app take_digits].
  - destruct rest as [|c rest]; [done|]. cbn. by rewrite Hr.
  - cbn in Hd. bools. rewrite H, IH by done. done.
Qed.

Lemma digits_value_app acc d e :
  digits_value acc (d ++ e) = digits_value (digits_value acc d) e.
Proof. revert acc. induction d; intros; cbn; auto. Qed.

Lemma is_digit_48 z : 0 <= z < 10 → is_digit (48 + z) = true.
Proof. intros. unfold is_digit. apply andb_true_iff; split; apply Z.leb_le; lia. Qed.

Lemma digits_spec n z :
  0 <= z < 2 ^ Z.of_nat (S n) →
  forallb is_digit (digits (S n) z) = true ∧
  digits_value 0 (digits (S n) z) = z ∧
  (z = 0 → digits (S n) z = [48]) ∧
  ∃ c r, digits (S n) z = c :: r ∧ (0 < z → 49 <= c <= 57).
Proof.
  revert z. induction n as [|n IH]; intros z Hz.
  - change (2 ^ Z.of_nat 1) with 2 in Hz. cbn [digits].
    destruct (Z.ltb_spec z 10); [|lia]. cbn [forallb digits_value].
    rewrite is_digit_48 by lia. split_and!; [done|lia|by intros ->|].
    exists (48 + z), []. split; [done|lia].
  - remember (S n) as m. cbn [digits]. destruct (Z.ltb_spec z 10).
    + cbn [forallb digits_value]. rewrite is_digit_48 by lia.
      split_and!; [done|lia|by intros ->|]. exists (48 + z), []. split; [done|lia].
    + pose proof (Z.mod_pos_bound z 10 eq_refl) as Hm.
      destruct (IH (z / 10)) as (Hd & Hv & _ & c & r & Hc & Hp).
      { split; [apply Z.div_pos; lia|]. apply Z.div_lt_upper_bound; [lia|].
        rewrite Nat2Z.inj_succ, Z.pow_succ_r in Hz by lia. lia. }
      rewrite forallb_app, Hd, digits_value_app, Hv. cbn [forallb digits_value].
      rewrite is_digit_48 by lia. split_and!; [done| |lia|].
      * pose proof (Z.div_mod z 10). lia.
      * exists c, (r ++ [48 + z mod 10]). rewrite Hc. split; [done|].
        intros _. apply Hp. apply Z.div_str_pos. lia.
Qed.

Lemma log2_fuel z : 0 <= z → 0 <= z < 2 ^ Z.of_nat (S (Z.to_nat (Z.log2 z))).
Proof.
  intros Hz. split; [done|]. rewrite Nat2Z.inj_succ, Z2Nat.id by apply Z.log2_nonneg.
  destruct (Z.eq_dec z 0) as [->|]; [by vm_compute|]. apply Z.log2_spec. lia.
Qed.

(** What may follow a value: the end, or one of [,] []] [}], or a line feed. *)
Definition closes (rest : pystr) : Prop :=
  match rest with c :: _ => c = 44 ∨ c = 93 ∨ c = 125 ∨ c = 10 | [] => True end.

Lemma closes_no_digit rest :
  closes rest → match rest with c :: _ => is_digit c = false | [] => True end.
Proof. destruct rest; [done|]. by intros [->|[->|[->| ->]]]. Qed.

Lemma closes_no_float rest :
  closes rest → scan_frac rest = ([], rest) ∧ scan_exp rest = ([], rest).
Proof. destruct rest; [done|]. by intros [->|[->|[->| ->]]]. Qed.

Section numbers.
Context (h : hooks).

(** A magnitude printed by [dump_int], read back by [scan_number]. *)
Lemma scan_magnitude z (neg : bool) rest :
  0 <= z → len (digits (S (Z.to_nat (Z.log2 z))) z) <= 4300 → closes rest →
  scan_number h ((if neg then [45] else []) ++ digits (S (Z.to_nat (Z.log2 z))) z ++ rest)
  = Ok (VInt (if neg then - z else z), rest).
Proof.
  intros Hz Hlen Hr. pose proof (log2_fuel z Hz) as Hf.
  destruct (digits_spec _ _ Hf) as (Hd & Hv & H0 & c & r & Hc & Hp).
  set (d := digits _ z) in *. clearbody d. destruct (closes_no_float _ Hr) as [Hfr Hex].
  assert (Hmatch : match d ++ rest with
    | c :: s2 => if c =? 48 then ([c], s2) else take_digits (d ++ rest)
    | [] => ([], d ++ rest) end = (d, rest)).
  { destruct (decide (z = 0)) as [->|]; [by rewrite H0|].
    rewrite (take_digits_app d rest Hd (closes_no_digit _ Hr)).
    rewrite Hc. cbn [app]. destruct (Z.eqb_spec c 48); [lia|done]. }
  assert (Hne : ∃ c r, d ++ rest = c :: r ∧ c =? 45 = false).
  { rewrite Hc. exists c, (r ++ rest). split; [done|]. rewrite Hc in Hd. cbn in Hd. bools.
    unfold is_digit in H. bools. apply Z.eqb_neq. lia. }
  unfold scan_number. destruct Hne as (c' & r' & Hcons & Hminus).
  assert (Hsign : match (if neg then [45] else []) ++ d ++ rest with
    | c :: s1 => if c =? 45 then (true, s1) else (false, (if neg then [45] else []) ++ d ++ rest)
    | [] => (false, (if neg then [45] else []) ++ d ++ rest) end = (neg, d ++ rest)).
  { destruct neg; [done|]. cbn [app]. rewrite Hcons. by rewrite Hminus. }
  rewrite Hsign, Hmatch. cbn beta iota. rewrite Hfr, Hex. rewrite Hc at 1. cbn [app].
  unfold int_of_digits, raise_if.
  destruct (Z.ltb_spec 4300 (len d)); [lia|]. cbn. by rewrite Hv.
Qed.

Lemma literal_head_ne w c s :
  w ≠ [] → head w ≠ Some c → literal w (c :: s) = None.
Proof.
  intros Hw Hc. unfold literal. rewrite bool_decide_eq_false_2; [done|].
  destruct w as [|a w]; [done|]. cbn [length take]. intros [= ->]. by apply Hc.
Qed.

(** A number is none of the named constants. *)
Lemma scan_atom_number c s :
  (is_digit c = true ∨ c = 45 ∧ ∃ d r, s = d :: r ∧ is_digit d = true) →
  scan_atom h (c :: s) = scan_number h (c :: s).
Proof.
  intros H. unfold scan_atom.
  assert (Hne : ∀ w x, head w = Some x → is_digit x = false → x ≠ 45 →
                  literal w (c :: s) = None).
  { intros w x Hw Hx H45. apply literal_head_ne; [by destruct w|]. rewrite Hw.
    intros [= ->]. destruct H as [?|[? _]]; congruence. }
  rewrite (Hne (u "null") 110), (Hne (u "true") 116), (Hne (u "false") 102),
    (Hne (u "NaN") 78), (Hne (u "Infinity") 73) by done.
  replace (literal (u "-Infinity") (c :: s)) with (@None pystr); [done|]. symmetry.
  destruct H as [?|(-> & d & r & -> & Hd)].
  - apply literal_head_ne; [done|]. intros [= <-]. done.
  - unfold literal. rewrite bool_decide_eq_false_2; [done|]. cbn. intros [= ->]. done.
Qed.
End numbers.

(** ** Strings *)

Lemma json_hex_digit z : 0 <= z < 16 → json_hex (hex_digit z) = Some z.
Proof.
  intros Hz. unfold json_hex, is_digit, hex_digit.
  destruct (Z.ltb_spec z 10).
  - destruct (Z.leb_spec 48 (48 + z)), (Z.leb_spec (48 + z) 57); try lia. cbn. f_equal; lia.
  - destruct (Z.leb_spec 48 (87 + z)), (Z.leb_spec (87 + z) 57); try lia. cbn.
    destruct (Z.leb_spec 97 (87 + z)), (Z.leb_spec (87 + z) 102); try lia. cbn. f_equal; lia.
Qed.

Lemma hex4_digits c :
  0 <= c < 65536 →
  hex4 (hex_digit (c / 4096 mod 16)) (hex_digit (c / 256 mod 16))
       (hex_digit (c / 16 mod 16)) (hex_digit (c mod 16)) = Some c.
Proof.
  intros Hc. unfold hex4. rewrite !json_hex_digit by (apply Z.mod_pos_bound; lia).
  f_equal. pose proof (Z.div_mod c 16). pose proof (Z.div_mod (c / 16) 16).
  pose proof (Z.div_mod (c / 256) 16). rewrite Z.div_div in * by lia.
  change (16 * 16) with 256 in *. change (256 * 16) with 4096 in *.
  assert (c / 4096 < 16) by (apply Z.div_lt_upper_bound; lia).
  assert (0 <= c / 4096) by (apply Z.div_pos; lia).
  rewrite (Z.mod_small (c / 4096)) by lia. lia.
Qed.

Lemma scan_u4 c rest :
  0 <= c < 65536 → is_high c = false →
  scan_string (92 :: 117 :: hex_digits4 c ++ rest) = push c (scan_string rest).
Proof. intros Hc Hh. cbn. rewrite hex4_digits by done. by rewrite Hh. Qed.

Lemma scan_u4_pair hi lo rest :
  0 <= hi < 65536 → 0 <= lo < 65536 → is_high hi = true → is_low lo = true →
  scan_string (92 :: 117 :: hex_digits4 hi ++ 92 :: 117 :: hex_digits4 lo ++ rest)
  = push (join_surrogates hi lo) (scan_string rest).
Proof.
  intros Hhi Hlo Hh Hl. cbn. rewrite !hex4_digits by done. rewrite Hh. by rewrite Hl.
Qed.

Lemma scan_escape c rest :
  is_scalar c = true →
  scan_string (escape c ++ rest) = push c (scan_string rest).
Proof.
  unfold is_scalar, is_surrogate. intros Hs. bools. unfold escape.
  destruct (Z.eqb_spec c 34) as [->|]; [done|].
  destruct (Z.eqb_spec c 92) as [->|]; [done|].
  destruct (Z.eqb_spec c 10) as [->|]; [done|].
  destruct (Z.eqb_spec c 13) as [->|]; [done|].
  destruct (Z.eqb_spec c 9) as [->|]; [done|].
  destruct (Z.eqb_spec c 12) as [->|]; [done|].
  destruct (Z.eqb_spec c 8) as [->|]; [done|].
  destruct ((32 <=? c) && (c <=? 126)) eqn:Hp.
  { bools. cbn. destruct (Z.eqb_spec c 34); [lia|]. destruct (Z.ltb_spec c 32); [lia|].
    destruct (Z.eqb_spec c 92); [lia|]. done. }
  assert (Hns : (55296 <=? c) && (c <=? 57343) = false) by done.
  apply andb_false_iff in Hns.
  destruct (Z.ltb_spec c 65536).
  - apply scan_u4; [lia|]. unfold is_high. apply andb_false_iff.
    destruct Hns as [?|?]; [by left|right]. bools. apply Z.leb_gt. lia.
  - pose proof (Z.div_mod (c - 65536) 1024). pose proof (Z.mod_pos_bound (c - 65536) 1024).
    assert (0 <= (c - 65536) / 1024 < 1024) by
      (split; [apply Z.div_pos|apply Z.div_lt_upper_bound]; lia).
    cbn [app]. rewrite <-!app_assoc. cbn [app].
    rewrite scan_u4_pair.
    + f_equal. unfold join_surrogates. lia.
    + lia.
    + lia.
    + unfold is_high. apply andb_true_iff; split; apply Z.leb_le; lia.
    + unfold is_low. apply andb_true_iff; split; apply Z.leb_le; lia.
Qed.

Lemma scan_dump_str s rest :
  utf8_encodable s = true →
  scan_string ((s ≫= escape) ++ 34 :: rest) = Ok (s, rest).
Proof.
  induction s as [|c s IH]; [done|]. cbn [utf8_encodable forallb].
  intros [Hc Hs]%andb_true_iff. rewrite bind_cons, <-app_assoc, scan_escape by done.
  by rewrite IH.
Qed.

(** ** Values *)

(** What the sources send: no float, encodable strings, unique keys, integers
    within the interpreter's digit limit. *)
Fixpoint wf (v : value) : bool :=
  match v with
  | VNone | VBool _ => true
  | VInt z => len (dump_int (Z.abs z)) <=? 4300
  | VFloat _ => false
  | VStr s => utf8_encodable s
  | VList l => forallb wf l
  | VDict d => forallb (λ '(k, v), utf8_encodable k && wf v) d && bool_decide (NoDup (keys d))
  end.

Fixpoint nesting (v : value) : nat :=
  match v with
  | VList l => S (max_list (nesting <$> l))
  | VDict d => S (max_list ((λ '(_, v), nesting v) <$> d))
  | _ => O
  end.

Lemma max_list_le l n : (max_list l ≤ n)%nat ↔ Forall (λ m, (m ≤ n)%nat) l.
Proof.
  induction l as [|x l IH]; cbn; [split; [constructor|lia]|].
  rewrite Forall_cons, <-IH. lia.
Qed.

Lemma skip_ws_skip c s : is_ws c = false → skip_ws (c :: s) = c :: s.
Proof. intros H. cbn. by rewrite H. Qed.

Lemma dump_int_head z :
  ∃ c r, dump_int z = c :: r ∧
         (is_digit c = true ∨ c = 45 ∧ ∃ d r', r = d :: r' ∧ is_digit d = true).
Proof.
  unfold dump_int. destruct (Z.ltb_spec z 0).
  - destruct (digits_spec _ _ (log2_fuel (- z) ltac:(lia))) as (Hd & _ & _ & c & r & Hc & _).
    eexists _, _. split; [done|]. right. split; [done|]. exists c, r. split; [done|].
    rewrite Hc in Hd. cbn [forallb] in Hd. by bools.
  - destruct (digits_spec _ _ (log2_fuel z ltac:(lia))) as (Hd & _ & _ & c & r & Hc & _).
    exists c, r. split; [done|]. left. rewrite Hc in Hd. cbn [forallb] in Hd. by bools.
Qed.

(** The first character of a printed value is neither white space nor a
    closing bracket nor a byte-order mark. *)
Lemma dumps_head v :
  wf v = true →
  ∃ c r, dumps v = c :: r ∧ is_ws c = false ∧ (c =? 93) = false ∧ c ≠ 65279.
Proof.
  destruct v as [|[]|z|l|s|l|d]; intros Hw; try (eexists _, _; split; [reflexivity|done]).
  - destruct (dump_int_head z) as (c & r & Hc & Hd). exists c, r. split; [done|].
    unfold is_digit in Hd. unfold is_ws.
    destruct Hd as [Hd|[-> _]]; [bools|done].
    destruct (Z.eqb_spec c 32), (Z.eqb_spec c 9), (Z.eqb_spec c 10), (Z.eqb_spec c 13),
      (Z.eqb_spec c 93); lia || auto with lia.
  - done.
Qed.

Lemma skip_ws_dumps v rest : wf v = true → skip_ws (dumps v ++ rest) = dumps v ++ rest.
Proof. intros (c & r & -> & Hc & _)%dumps_head. by apply skip_ws_skip. Qed.

Section parse.
Context (h : hooks).
Context (Hhook : ∀ d, NoDup (keys d) → object_pairs_hook h d = Ok (VDict d)).

Definition parses (v : value) : Prop := ∀ n depth rest,
  wf v = true → (length (dumps v) < n)%nat → (nesting v ≤ depth)%nat → closes rest →
  scan_once h n depth (dumps v ++ rest) = Ok (v, rest).

Lemma parses_int z : parses (VInt z).
Proof.
  intros n depth rest Hw Hn _ Hr. destruct n as [|n]; [lia|]. cbn [wf] in Hw. bools.
  cbn [dumps]. destruct (dump_int_head z) as (c & r & Hc & Hd).
  assert (Hatom : scan_once h (S n) depth (dump_int z ++ rest) = scan_number h (dump_int z ++ rest)).
  { rewrite Hc. cbn [app].
    assert (Hne : c ≠ 34 ∧ c ≠ 123 ∧ c ≠ 91).
    { unfold is_digit in Hd. destruct Hd as [Hd|[-> _]]; [bools|]; lia. }
    cbn [scan_once]. destruct (Z.eqb_spec c 34), (Z.eqb_spec c 123), (Z.eqb_spec c 91); try lia.
    apply scan_atom_number. destruct Hd as [?|(-> & d & r' & -> & ?)]; [by left|].
    right. split; [done|]. exists d, (r' ++ rest). done. }
  rewrite Hatom. unfold dump_int in *.
  destruct (Z.ltb_spec z 0).
  - assert (Z.abs z = - z) as Habs by lia. rewrite Habs in Hw.
    destruct (Z.ltb_spec (- z) 0); [lia|].
    etrans; [apply (scan_magnitude h (- z) true rest); (lia || done)|].
    by rewrite Z.opp_involutive.
  - rewrite Z.abs_eq in Hw by lia. destruct (Z.ltb_spec z 0); [lia|].
    apply (scan_magnitude h z false rest); (lia || done).
Qed.

Lemma join_cons sep x l : join sep (x :: l) = x ++ match l with [] => [] | _ => sep ++ join sep l end.
Proof. destruct l; cbn; by rewrite ?app_nil_r. Qed.

Lemma skip_ws_join v l rest :
  wf v = true →
  skip_ws (join [44] (dumps <$> v :: l) ++ rest) = join [44] (dumps <$> v :: l) ++ rest.
Proof.
  intros (c & r & Hc & Hs & _)%dumps_head. rewrite fmap_cons, join_cons, Hc. cbn [app].
  by apply skip_ws_skip.
Qed.

Lemma elements_parse l : ∀ v n depth rest,
  Forall parses (v :: l) → forallb wf (v :: l) = true →
  (S (length (join [44]%Z (dumps <$> (v :: l)))) < n)%nat →
  Forall (λ v, (nesting v ≤ depth)%nat) (v :: l) →
  scan_elements h n depth (join [44] (dumps <$> (v :: l)) ++ 93 :: rest) = Ok (v :: l, rest).
Proof.
  induction l as [|w l IH]; intros v n depth rest Hp Hw Hn Hd;
    destruct n as [|n]; [lia| |lia|]; rewrite fmap_cons, join_cons in *.
  - cbn [fmap list_fmap] in *. rewrite app_nil_r in *. cbn [scan_elements].
    apply Forall_cons in Hp as [Hp _], Hd as [Hd _]. cbn [forallb] in Hw. bools.
    rewrite Hp by (done || lia || cbn; auto). done.
  - apply Forall_cons in Hp as [Hp Hps], Hd as [Hd Hds].
    change (wf v && forallb wf (w :: l) = true) in Hw. bools.
    rewrite length_app in Hn. cbn [fmap list_fmap] in Hn |- *. cbn [app length] in Hn.
    change (dumps w :: (dumps <$> l)) with (dumps <$> w :: l) in *.
    rewrite <-app_assoc. cbn [app scan_elements].
    rewrite Hp by (done || lia || cbn; auto). cbn [mbind result_bind].
    rewrite (skip_ws_skip 44) by done. cbn [Z.eqb Pos.eqb].
    rewrite skip_ws_join by (cbn [forallb] in *; by bools).
    rewrite IH; [done|done|done| |done]. lia.
Qed.
Definition dump_item : pystr * value → pystr := λ '(k, v), dump_str k ++ 58 :: dumps v.
Definition wf_item : pystr * value → bool := λ '(k, v), utf8_encodable k && wf v.

Lemma skip_ws_items kv d rest :
  skip_ws (join [44] (dump_item <$> kv :: d) ++ rest) = join [44] (dump_item <$> kv :: d) ++ rest.
Proof. rewrite fmap_cons, join_cons. destruct kv as [k v]. by apply skip_ws_skip. Qed.

(** One [key:value] item, up to the character that closes it. *)
Lemma item_parse k v n depth c rest :
  parses v → wf_item (k, v) = true → (length (dump_item (k, v)) < n)%nat →
  (nesting v ≤ depth)%nat → c = 44 ∨ c = 125 →
  scan_members h (S n) depth (dump_item (k, v) ++ c :: rest) =
  if c =? 125 then Ok ([(k, v)], rest)
  else '(items, s6) ← scan_members h n depth (skip_ws rest); Ok ((k, v) :: items, s6).
Proof.
  intros Hp Hw Hn Hd Hc. cbn [wf_item] in Hw. bools. cbn [dump_item] in *.
  unfold dump_str in *. cbn [app length] in *. rewrite <-!app_assoc. cbn [app scan_members].
  cbn [Z.eqb Pos.eqb]. rewrite scan_dump_str by done.
  cbn [mbind result_bind]. rewrite (skip_ws_skip 58) by done. cbn [Z.eqb Pos.eqb].
  rewrite skip_ws_dumps by done. rewrite !length_app in Hn. cbn [length] in Hn.
  rewrite Hp; [|done|lia|done|cbn; tauto]. cbn [mbind result_bind].
  destruct Hc as [-> | ->]; by rewrite skip_ws_skip.
Qed.

Lemma members_parse d : ∀ kv n depth rest,
  Forall (λ kv, parses kv.2) (kv :: d) → forallb wf_item (kv :: d) = true →
  (S (length (join [44]%Z (dump_item <$> (kv :: d)))) < n)%nat →
  Forall (λ kv, (nesting kv.2 ≤ depth)%nat) (kv :: d) →
  scan_members h n depth (join [44] (dump_item <$> (kv :: d)) ++ 125 :: rest)
  = Ok (kv :: d, rest).
Proof.
  induction d as [|kw d IH]; intros [k v] n depth rest Hp Hw Hn Hd;
    destruct n as [|n]; [lia| |lia|].
  - apply Forall_cons in Hp as [Hp _], Hd as [Hd _]. cbn [forallb] in Hw. bools.
    cbn [fmap list_fmap join] in *. rewrite item_parse; auto with lia.
  - apply Forall_cons in Hp as [Hp Hps], Hd as [Hd Hds].
    change (wf_item (k, v) && forallb wf_item (kw :: d) = true) in Hw. bools.
    rewrite fmap_cons, join_cons in *.
    change (dump_item kw :: (dump_item <$> d)) with (dump_item <$> kw :: d) in *.
    change (match dump_item <$> kw :: d with [] => [] | _ => ?x end) with x in *.
    rewrite length_app in Hn. rewrite <-!app_assoc. cbn [app length] in Hn |- *.
    rewrite item_parse; auto with lia. cbn [Z.eqb Pos.eqb]. rewrite skip_ws_items.
    rewrite IH; auto with lia.
Qed.
Lemma literal_app w rest : literal w (w ++ rest) = Some rest.
Proof. unfold literal. rewrite take_app_length, drop_app_length. by rewrite bool_decide_eq_true_2. Qed.

Lemma literal_ne w w' rest :
  w ≠ [] → w' ≠ [] → head w ≠ head w' → literal w (w' ++ rest) = None.
Proof. destruct w' as [|c w']; [done|]. intros ? _ ?. by apply literal_head_ne. Qed.

Lemma scan_atom_null rest : scan_atom h (u "null" ++ rest) = Ok (VNone, rest).
Proof. unfold scan_atom. by rewrite literal_app. Qed.
Lemma scan_atom_true rest : scan_atom h (u "true" ++ rest) = Ok (VBool true, rest).
Proof. unfold scan_atom. by rewrite (literal_ne (u "null")), literal_app. Qed.
Lemma scan_atom_false rest : scan_atom h (u "false" ++ rest) = Ok (VBool false, rest).
Proof.
  unfold scan_atom. by rewrite (literal_ne (u "null")), (literal_ne (u "true")), literal_app.
Qed.

Lemma nesting_S l m : (S (max_list l) ≤ S m)%nat → Forall (λ k, (k ≤ m)%nat) l.
Proof. intros. apply max_list_le. lia. Qed.

Lemma parses_list l : Forall parses l → parses (VList l).
Proof.
  intros Hl n depth rest Hw Hn Hd Hr. destruct n as [|n]; [lia|].
  cbn [nesting] in Hd. destruct depth as [|depth]; [lia|].
  apply nesting_S, Forall_fmap in Hd. cbn [wf] in Hw.
  cbn [dumps app scan_once Z.eqb Pos.eqb] in *. cbn [length] in Hn.
  rewrite length_app in Hn. cbn [length] in Hn.
  destruct l as [|v l]; [cbn [fmap list_fmap join app]; by rewrite skip_ws_skip|].
  assert (Hv : wf v = true) by (cbn [forallb] in Hw; by bools).
  rewrite <-app_assoc, skip_ws_join by done. pose proof Hv as (c & r & Hc & _ & H93 & _)%dumps_head.
  assert (∃ r', join [44] (dumps <$> v :: l) = c :: r') as [r' Hj].
  { rewrite fmap_cons, join_cons, Hc. by eexists. }
  pose proof (elements_parse l v n depth rest Hl Hw ltac:(lia) Hd) as He.
  rewrite Hj in He |- *. cbn [app] in He |- *. by rewrite H93, He.
Qed.

Lemma parses_dict d : Forall (λ kv, parses kv.2) d → parses (VDict d).
Proof.
  intros Hl n depth rest Hw Hn Hd Hr. destruct n as [|n]; [lia|].
  cbn [nesting] in Hd. destruct depth as [|depth]; [lia|].
  apply nesting_S, Forall_fmap in Hd. cbn [wf] in Hw. bools.
  cbn [dumps app scan_once Z.eqb Pos.eqb] in *. cbn [length] in Hn.
  change ((λ '(k, v), dump_str k ++ 58 :: dumps v) <$> d) with (dump_item <$> d) in *.
  rewrite length_app in Hn. cbn [length] in Hn.
  destruct d as [|kv d].
  { cbn [fmap list_fmap join app]. rewrite skip_ws_skip by done. cbn [Z.eqb Pos.eqb].
    by rewrite Hhook. }
  rewrite <-app_assoc, skip_ws_items.
  assert (∃ r', join [44] (dump_item <$> kv :: d) = 34 :: r') as [r' Hj].
  { rewrite fmap_cons, join_cons. destruct kv. by eexists. }
  pose proof (members_parse d kv n depth rest Hl H ltac:(lia)) as He.
  rewrite Hj in He |- *. cbn [app] in He |- *. cbn [Z.eqb Pos.eqb].
  rewrite He; [cbn; by rewrite Hhook|].
  eapply Forall_impl; [exact Hd|]. by intros [].
Qed.

Lemma parses_all v : parses v.
Proof.
  induction v using value_rect'; try apply parses_int;
    [..|by apply parses_list|by apply parses_dict];
    intros n depth rest Hw Hn Hd Hr; (destruct n as [|n]; [cbn in Hn; lia|]).
  - cbn [scan_once dumps]. apply scan_atom_null.
  - destruct x; [apply scan_atom_true|apply scan_atom_false].
  - done.
  - cbn [dumps]. unfold dump_str. cbn [app scan_once Z.eqb Pos.eqb].
    rewrite <-app_assoc. cbn [app]. by rewrite scan_dump_str.
Qed.

(** [loads] inverts [dumps]. *)
Lemma loads_dumps v :
  wf v = true → (nesting v ≤ recursion_limit)%nat → loads h (dumps v) = Ok v.
Proof.
  intros Hw Hd. unfold loads. pose proof Hw as (c & r & Hc & Hs & _ & Hbom)%dumps_head.
  rewrite bool_decide_eq_false_2 by (rewrite Hc; cbn; congruence).
  cbn [raise_if mbind result_bind]. rewrite <-(app_nil_r (dumps v)) at 2.
  rewrite skip_ws_dumps by done.
  by rewrite parses_all by (done || lia).
Qed.
(** ... followed by a line feed, as a program prints it. *)
Lemma loads_dumps_line v :
  wf v = true → (nesting v ≤ recursion_limit)%nat → loads h (dumps v ++ [10]) = Ok v.
Proof.
  intros Hw Hd. unfold loads. pose proof Hw as (c & r & Hc & Hs & _ & Hbom)%dumps_head.
  rewrite bool_decide_eq_false_2 by (rewrite Hc; cbn; congruence).
  cbn [raise_if mbind result_bind]. rewrite skip_ws_dumps by done.
  rewrite parses_all; [done|done|rewrite length_app; cbn; lia|done|cbn; auto].
Qed.
End parse.
