(* ===== verification/JsonCanon.v ===== *)
(** * Canonical JSON

    The ASCII output of [json.dumps], its UTF-8 bytes, the canonical item order
    of [sort_keys=True] (which changes neither the value nor its
    well-formedness), and the decoder's fuel. *)

From S2P Require Import Prelude Bytes Json JsonFacts.
Import Json.

(** ** ASCII *)

Definition ascii (s : pystr) : bool := forallb (λ c, (0 <=? c) && (c <? 128)) s.

Lemma ascii_app s t : ascii (s ++ t) = ascii s && ascii t.
Proof. apply forallb_app. Qed.

Lemma ascii_digits n z : 0 <= z → ascii (digits n z) = true.
Proof.
  revert z. induction n as [|n IH]; intros z Hz; [done|]. cbn [digits].
  destruct (Z.ltb_spec z 10).
  - cbn. destruct (Z.leb_spec 0 (48 + z)), (Z.ltb_spec (48 + z) 128); lia || done.
  - rewrite ascii_app, IH by (apply Z.div_pos; lia).
    pose proof (Z.mod_pos_bound z 10 eq_refl). cbn.
    destruct (Z.leb_spec 0 (48 + z mod 10)), (Z.ltb_spec (48 + z mod 10) 128); lia || done.
Qed.

Lemma ascii_dump_int z : ascii (dump_int z) = true.
Proof.
  unfold dump_int. destruct (Z.ltb_spec z 0).
  - apply (ascii_digits _ (- z)). lia.
  - by apply ascii_digits.
Qed.

Lemma ascii_hex4 c : ascii (hex_digits4 c) = true.
Proof.
  assert (H : ∀ z, (0 <=? hex_digit (z mod 16)) && (hex_digit (z mod 16) <? 128) = true).
  { intros z. pose proof (Z.mod_pos_bound z 16 eq_refl). unfold hex_digit.
    apply andb_true_iff. destruct (z mod 16 <? 10); split;
      [apply Z.leb_le|apply Z.ltb_lt|apply Z.leb_le|apply Z.ltb_lt]; lia. }
  unfold hex_digits4, ascii. cbn [forallb]. by rewrite !H.
Qed.

Lemma ascii_escape c : ascii (escape c) = true.
Proof.
  unfold escape. repeat case_match; try done.
  - bools. cbn. destruct (Z.leb_spec 0 c), (Z.ltb_spec c 128); lia || done.
  - change (ascii (u "\u" ++ hex_digits4 c) = true). by rewrite ascii_app, ascii_hex4.
  - change (ascii (u "\u" ++ hex_digits4 (55296 + (c - 65536) / 1024) ++
      u "\u" ++ hex_digits4 (56320 + (c - 65536) mod 1024)) = true).
    by rewrite !ascii_app, !ascii_hex4.
Qed.

Lemma ascii_dump_str s : ascii (dump_str s) = true.
Proof.
  change (ascii ([34] ++ (s ≫= escape) ++ [34]) = true). rewrite !ascii_app.
  apply andb_true_iff; split; [done|]. rewrite andb_true_r.
  induction s as [|c s IH]; [done|]. by rewrite bind_cons, ascii_app, ascii_escape.
Qed.

Lemma ascii_join sep l :
  ascii sep = true → Forall (λ s, ascii s = true) l → ascii (join sep l) = true.
Proof.
  intros Hs. induction 1 as [|x l Hx Hl IH]; [done|].
  rewrite join_cons, ascii_app, Hx. destruct l; [done|]. by rewrite ascii_app, Hs, IH.
Qed.

Lemma ascii_dumps v : wf v = true → ascii (dumps v) = true.
Proof.
  induction v as [|[]|z|l|s|l IH|d IH] using value_rect'; cbn [wf]; intros Hw; try done.
  - apply ascii_dump_int.
  - apply ascii_dump_str.
  - change (ascii ([91] ++ join [44] (dumps <$> l) ++ [93]) = true). rewrite !ascii_app.
    rewrite ascii_join; [done|done|]. apply Forall_fmap, Forall_forall.
    intros v Hv. rewrite Forall_forall in IH. apply IH; [done|]. by eapply forallb_elem.
  - apply andb_true_iff in Hw as [Hw _].
    change (ascii ([123] ++ join [44] (dump_item <$> d) ++ [125]) = true).
    rewrite !ascii_app, ascii_join; [done|done|]. apply Forall_fmap, Forall_forall.
    intros [k v] Hv. rewrite Forall_forall in IH.
    pose proof (forallb_elem _ _ _ Hw Hv) as Hi. cbn in Hi. bools.
    change (ascii (dump_str k ++ [58] ++ dumps v) = true).
    rewrite !ascii_app, ascii_dump_str. by apply (IH _ Hv).
Qed.

Lemma utf8_decode_ascii s : ascii s = true → utf8_decode (ascii_bytes s) = Ok s.
Proof.
  induction s as [|c s IH]; [done|]. cbn [ascii forallb]. intros H. bools.
  unfold ascii_bytes in *. rewrite fmap_cons. cbn [utf8_decode].
  rewrite b2z_z2b_small by lia. destruct (Z.ltb_spec c 128); [|lia].
  by rewrite IH.
Qed.

Lemma ascii_bytes_inj s t :
  ascii s = true → ascii t = true → ascii_bytes s = ascii_bytes t → s = t.
Proof.
  intros Hs Ht H. apply utf8_decode_ascii in Hs, Ht. congruence.
Qed.

Lemma len_ascii_bytes s : len (ascii_bytes s) = len s.
Proof. unfold len, ascii_bytes. by rewrite length_fmap. Qed.

(** ** [sort_keys=True] *)

Lemma str_leb_total s t : str_leb s t = true ∨ str_leb t s = true.
Proof.
  revert t. induction s as [|x s IH]; intros [|y t]; cbn; auto.
  destruct (Z.ltb_spec x y), (Z.ltb_spec y x); auto; lia.
Qed.

Definition sort_item : pystr * value → pystr * value := λ '(k, v), (k, sorted_keys v).

Lemma sorted_dict_perm d : merge_sort item_le (sort_item <$> d) ≡ₚ sort_item <$> d.
Proof. apply merge_sort_Permutation. Qed.

Lemma keys_sort_item d : keys (sort_item <$> d) = keys d.
Proof. unfold keys. rewrite <-list_fmap_compose. apply list_fmap_ext. by intros ? []. Qed.

Lemma wf_sorted v : wf v = true → wf (sorted_keys v) = true.
Proof.
  induction v as [|[]|z|l|s|l IH|d IH] using value_rect'; cbn [wf sorted_keys]; intros Hw; try done.
  - apply forallb_Forall, Forall_fmap, Forall_forall. intros v Hv.
    rewrite Forall_forall in IH. apply IH; [done|]. by eapply forallb_elem.
  - apply andb_true_iff in Hw as [Hw Hn]. apply bool_decide_eq_true in Hn.
    change (λ '(k, v), (k, sorted_keys v)) with sort_item.
    rewrite (forallb_Permutation _ _ _ (sorted_dict_perm d)). apply andb_true_iff. split.
    + apply forallb_Forall, Forall_fmap, Forall_forall. intros [k v] Hv.
      rewrite Forall_forall in IH. pose proof (forallb_elem _ _ _ Hw Hv) as Hi. cbn in Hi |- *.
      bools. apply andb_true_iff; split; [done|]. by apply (IH _ Hv).
    + apply bool_decide_eq_true. unfold keys. by rewrite (sorted_dict_perm d), keys_sort_item.
Qed.

Lemma max_list_Permutation l k : l ≡ₚ k → max_list l = max_list k.
Proof. induction 1; cbn; lia. Qed.

Lemma nesting_sorted v : nesting (sorted_keys v) = nesting v.
Proof.
  induction v as [|[]|z|l|s|l IH|d IH] using value_rect'; cbn [nesting sorted_keys]; try done.
  - f_equal. f_equal. rewrite <-list_fmap_compose. apply list_fmap_ext.
    intros i v Hv. rewrite Forall_forall in IH. apply IH. by eapply list_elem_of_lookup_2.
  - f_equal. change (λ '(k, v), (k, sorted_keys v)) with sort_item.
    rewrite (max_list_Permutation _ ((λ '(_, v), nesting v) <$> (sort_item <$> d)))
      by (by rewrite sorted_dict_perm).
    f_equal. rewrite <-list_fmap_compose. apply list_fmap_ext.
    intros i [k v] Hv. rewrite Forall_forall in IH. apply (IH (k, v)).
    by eapply list_elem_of_lookup_2.
Qed.

Lemma d_get_elem d k v : NoDup (keys d) → (k, v) ∈ d → d_get d k = Some v.
Proof.
  induction d as [|[k' v'] d IH]; [by intros _ ?%elem_of_nil|]. cbn [keys fmap list_fmap d_get].
  intros [Hn Hd]%NoDup_cons [[= -> ->]|Hx]%elem_of_cons.
  - by rewrite decide_True.
  - rewrite decide_False; [by apply IH|]. intros ->. apply Hn.
    apply list_elem_of_fmap. by exists (k', v).
Qed.

Lemma d_get_Some d k v : d_get d k = Some v → (k, v) ∈ d.
Proof.
  induction d as [|[k' v'] d IH]; [done|]. cbn. case_decide; intros Hd.
  - simplify_eq. apply list_elem_of_here.
  - apply list_elem_of_further; auto.
Qed.

Lemma d_get_None d k : d_get d k = None ↔ k ∉ keys d.
Proof.
  induction d as [|[k' v'] d IH]; cbn.
  - split; [intros _ ?%elem_of_nil; done|done].
  - rewrite elem_of_cons. case_decide; [naive_solver|]. rewrite IH. naive_solver.
Qed.

Lemma same_keys_spec d names : same_keys d names = true ↔ ∀ k, k ∈ keys d ↔ k ∈ names.
Proof.
  unfold same_keys. rewrite andb_true_iff, !forallb_Forall, !Forall_forall.
  setoid_rewrite bool_decide_eq_true. naive_solver.
Qed.

Lemma d_item_Ok d k v : d_item d k = Ok v ↔ d_get d k = Some v.
Proof. unfold d_item. destruct (d_get d k); split; congruence. Qed.

Lemma d_item_present d k : k ∈ keys d → ∃ v, d_item d k = Ok v.
Proof.
  intros Hk. unfold d_item. destruct (d_get d k) eqn:E; [eauto|]. by apply d_get_None in E.
Qed.

Lemma py_eq_str v s : py_eq v (VStr s) = true ↔ v = VStr s.
Proof.
  destruct v; cbn; try (split; done). rewrite bool_decide_eq_true. split; congruence.
Qed.

Definition sorted_dict (d : list (pystr * value)) : list (pystr * value) :=
  merge_sort item_le (sort_item <$> d).

Lemma sorted_keys_dict d : sorted_keys (VDict d) = VDict (sorted_dict d).
Proof. done. Qed.

Lemma keys_sorted_dict d : keys (sorted_dict d) ≡ₚ keys d.
Proof.
  rewrite <-(keys_sort_item d). unfold keys, sorted_dict. by rewrite sorted_dict_perm.
Qed.

Lemma d_get_sorted d k :
  NoDup (keys d) → d_get (sorted_dict d) k = sorted_keys <$> d_get d k.
Proof.
  intros Hn. destruct (d_get d k) as [v|] eqn:E; cbn.
  - apply d_get_elem; [by rewrite keys_sorted_dict|].
    unfold sorted_dict. rewrite sorted_dict_perm. apply list_elem_of_fmap.
    exists (k, v). split; [done|]. by apply d_get_Some.
  - apply d_get_None. rewrite keys_sorted_dict. by apply d_get_None.
Qed.

(** The canonical form is the same Python value. *)
Lemma py_eq_sorted v : wf v = true → py_eq v (sorted_keys v) = true.
Proof.
  induction v as [|[]|z|l|s|l IH|d IH] using value_rect'; cbn [wf sorted_keys]; intros Hw; try done.
  - apply Z.eqb_refl.
  - by apply bool_decide_eq_true.
  - cbn. induction IH as [|v l Hv Hl IHl]; [done|]. cbn [forallb] in Hw. bools.
    cbn. rewrite Hv by done. by apply IHl.
  - apply andb_true_iff in Hw as [Hw Hn]. apply bool_decide_eq_true in Hn.
    change (λ '(k, v), (k, sorted_keys v)) with sort_item.
    set (e := merge_sort item_le (sort_item <$> d)). cbn [py_eq].
    apply andb_true_iff. split.
    { apply Nat.eqb_eq. unfold e. by rewrite sorted_dict_perm, length_fmap. }
    assert (He : ∀ k v, (k, v) ∈ d → d_get e k = Some (sorted_keys v)).
    { intros k v Hv. apply d_get_elem.
      - unfold e, keys. by rewrite sorted_dict_perm, keys_sort_item.
      - unfold e. rewrite sorted_dict_perm. apply list_elem_of_fmap. by exists (k, v). }
    clearbody e. induction IH as [|[k v] d Hv Hd IHd]; [done|].
    cbn [forallb] in Hw. apply andb_true_iff in Hw as [Hw Hws]. apply andb_true_iff in Hw as [_ Hw].
    cbn. rewrite (He k v) by apply list_elem_of_here.
    cbn [snd] in Hv. rewrite Hv by done. cbn.
    apply IHd; [done| |].
    + by apply NoDup_cons in Hn as [_ ?].
    + intros k' v' ?. apply He. by apply list_elem_of_further.
Qed.

(** [json.loads] undoes [json.dumps(sort_keys=True)], up to the item order. *)
Lemma loads_dumps_sorted h v :
  (∀ d, NoDup (keys d) → object_pairs_hook h d = Ok (VDict d)) →
  wf v = true → (nesting v ≤ recursion_limit)%nat →
  loads h (dumps_sorted v) = Ok (sorted_keys v).
Proof.
  intros Hh Hw Hd. apply loads_dumps; [done|by apply wf_sorted|by rewrite nesting_sorted].
Qed.

(** ** Fuel: every call of the scanner is on a shorter input *)

Lemma push_Ok {R} c (m : result (pystr * R)) x r :
  push c m = Ok (x, r) → ∃ x', m = Ok (x', r).
Proof. destruct m as [[x' r']|]; [|done]. intros [= _ <-]. eauto. Qed.
Lemma push_Raise {R} c (m : result (pystr * R)) e : push c m = Raise e → m = Raise e.
Proof. destruct m as [[x' r']|]; [done|]. by intros [= ->]. Qed.

Definition string_out (s : pystr) (m : result (pystr * pystr)) : Prop :=
  match m with Ok (_, r) => (length r < length s)%nat | Raise e => e = decode_error end.

Lemma scan_string_out s : string_out s (scan_string s).
Proof.
  induction s as [s IH] using (induction_ltof1 _ (@length Z)); unfold ltof in IH.
  assert (Hpush : ∀ c k, (length k < length s)%nat → string_out s (push c (scan_string k))).
  { intros c k Hk. pose proof (IH k Hk) as Hs.
    destruct (scan_string k) as [[x r]|e]; cbn in *; [lia|done]. }
  destruct s as [|c s1]; [done|]. cbn [scan_string].
  repeat case_match; subst; first [apply Hpush; cbn; lia|cbn; lia|done].
Qed.

Lemma skip_ws_length s : (length (skip_ws s) ≤ length s)%nat.
Proof. induction s; cbn; [done|]. case_match; cbn; lia. Qed.

Lemma take_digits_length s : (length (take_digits s).1 + length (take_digits s).2 = length s)%nat.
Proof.
  induction s as [|c s IH]; [done|]. cbn. case_match; [|done].
  destruct (take_digits s) as [d r]. cbn in *. lia.
Qed.

Lemma scan_frac_length s : (length (scan_frac s).2 ≤ length s)%nat.
Proof.
  unfold scan_frac. destruct s as [|c s]; [done|]. destruct (c =? 46); [|done].
  pose proof (take_digits_length s) as Ht. destruct (take_digits s) as [d r].
  destruct d; cbn in *; lia.
Qed.

Lemma scan_exp_length s : (length (scan_exp s).2 ≤ length s)%nat.
Proof.
  unfold scan_exp. destruct s as [|c s]; [done|]. destruct (_ || _); [|done].
  destruct (match s with [] => _ | _ => _ end) as [sg s2] eqn:E.
  assert (length s2 ≤ length s)%nat.
  { repeat case_match; simplify_eq; cbn; lia. }
  pose proof (take_digits_length s2) as Ht. destruct (take_digits s2) as [d r].
  destruct d; cbn in *; lia.
Qed.

Section fuel.
Context (h : hooks).
Context (Hpairs : ∀ d, object_pairs_hook h d ≠ Raise out_of_fuel)
  (Hconst : ∀ s, parse_constant h s ≠ Raise out_of_fuel)
  (Hfloat : ∀ s, parse_float h s ≠ Raise out_of_fuel).

(** A scan that stays within the fuel and consumes input. *)
Definition consumes {A} (m : result (A * pystr)) (s : pystr) : Prop :=
  match m with Ok (_, r) => (length r < length s)%nat | Raise e => e ≠ out_of_fuel end.

Lemma scan_number_consumes s : consumes (scan_number h s) s.
Proof.
  unfold scan_number.
  destruct (match s with [] => _ | _ => _ end) as [neg s1] eqn:E1.
  assert (length s1 ≤ length s)%nat by (repeat case_match; simplify_eq; cbn; lia).
  destruct (match s1 with [] => _ | _ => _ end) as [d s2] eqn:E2.
  assert (length d + length s2 ≤ length s1)%nat.
  { destruct s1 as [|c s1]; simplify_eq; [done|]. case_match; simplify_eq; cbn [length]; [lia|].
    pose proof (take_digits_length (c :: s1)) as Ht. rewrite E2 in Ht. cbn in *. lia. }
  destruct d as [|c d]; [done|]. cbn in *.
  pose proof (scan_frac_length s2). destruct (scan_frac s2) as [f s3].
  pose proof (scan_exp_length s3). destruct (scan_exp s3) as [e s4]. cbn in *.
  destruct (f ++ e).
  - unfold int_of_digits, raise_if. destruct (4300 <? _); [done|]. cbn. lia.
  - match goal with |- context [parse_float h ?x] => pose proof (Hfloat x) end.
    destruct (parse_float h _); cbn; [lia|congruence].
Qed.

Lemma literal_length w s r : literal w s = Some r → w ≠ [] → (length r < length s)%nat.
Proof.
  unfold literal. case_bool_decide as Hl; [|done]. intros [= <-] Hw.
  apply (f_equal length) in Hl. rewrite length_take in Hl. rewrite length_drop.
  destruct w; [done|]. cbn [length] in *. lia.
Qed.

Lemma scan_atom_consumes s : consumes (scan_atom h s) s.
Proof.
  assert (Hok : ∀ (v : value) w r, literal w s = Some r → w ≠ [] → consumes (Ok (v, r)) s).
  { intros. by eapply literal_length. }
  assert (Hcst : ∀ x w r, literal w s = Some r → w ≠ [] →
    consumes (v ← parse_constant h x; Ok (v, r)) s).
  { intros x w r Hl Hw. pose proof (Hconst x).
    destruct (parse_constant h x); cbn; [by eapply literal_length|congruence]. }
  unfold scan_atom.
  destruct (literal (u "null") s) eqn:?; [by eapply Hok|].
  destruct (literal (u "true") s) eqn:?; [by eapply Hok|].
  destruct (literal (u "false") s) eqn:?; [by eapply Hok|].
  destruct (literal (u "NaN") s) eqn:?; [by eapply Hcst|].
  destruct (literal (u "Infinity") s) eqn:?; [by eapply Hcst|].
  destruct (literal (u "-Infinity") s) eqn:?; [by eapply Hcst|].
  apply scan_number_consumes.
Qed.

Lemma scan_consumes n : ∀ depth s,
  ((2 * length s < n)%nat →
    consumes (scan_once h n depth s) s ∧ consumes (scan_members h n depth s) s) ∧
  ((2 * length s + 1 < n)%nat → consumes (scan_elements h n depth s) s).
Proof.
  induction n as [|n IH]; intros depth s; [lia|]. split; [intros Hn; split|intros Hn].
  - destruct s as [|c s1]; [done|]. cbn [scan_once length] in *.
    pose proof (skip_ws_length s1) as Hws.
    case_match; [|case_match; [|case_match]].
    + pose proof (scan_string_out s1) as Hs. destruct (scan_string s1) as [[x r]|e]; cbn in *; [lia|].
      by subst.
    + destruct depth as [|depth]; [done|]. destruct (skip_ws s1) as [|c1 s2]; [done|].
      cbn [length] in Hws. case_match.
      { pose proof (Hpairs []). destruct (object_pairs_hook h []); cbn; [lia|congruence]. }
      destruct (IH depth (c1 :: s2)) as [[_ Hm] _]; [cbn; lia|].
      destruct (scan_members h n depth (c1 :: s2)) as [[items r]|e]; [|done]. cbn in Hm |- *.
      pose proof (Hpairs items). destruct (object_pairs_hook h items); cbn; [lia|congruence].
    + destruct depth as [|depth]; [done|]. destruct (skip_ws s1) as [|c1 s2]; [done|].
      cbn [length] in Hws. case_match; [cbn; lia|].
      destruct (IH depth (c1 :: s2)) as [_ He]; specialize (He ltac:(cbn; lia)).
      destruct (scan_elements h n depth (c1 :: s2)) as [[l r]|e]; [cbn in *; lia|done].
    + apply scan_atom_consumes.
  - destruct s as [|q s1]; [done|]. cbn [scan_members length] in *. case_match; [|done].
    pose proof (scan_string_out s1) as Hs.
    destruct (scan_string s1) as [[k s2]|e]; [|cbn in *; by subst]. cbn in Hs |- *.
    pose proof (skip_ws_length s2). destruct (skip_ws s2) as [|c s3]; [done|]. cbn [length] in *.
    case_match; [|done]. pose proof (skip_ws_length s3).
    destruct (IH depth (skip_ws s3)) as [[Ho _] _]; [lia|].
    destruct (scan_once h n depth (skip_ws s3)) as [[v s4]|e]; [|done]. cbn in Ho |- *.
    pose proof (skip_ws_length s4). destruct (skip_ws s4) as [|c' s5]; [done|]. cbn [length] in *.
    case_match; [cbn; lia|]. case_match; [|done]. pose proof (skip_ws_length s5).
    destruct (IH depth (skip_ws s5)) as [[_ Hm] _]; [lia|].
    destruct (scan_members h n depth (skip_ws s5)) as [[items s6]|e]; [cbn in *; lia|done].
  - cbn [scan_elements]. destruct (IH depth s) as [[Ho _] _]; [lia|].
    destruct (scan_once h n depth s) as [[v s1]|e]; [|done]. cbn in Ho |- *.
    pose proof (skip_ws_length s1). destruct (skip_ws s1) as [|c s2]; [done|]. cbn [length] in *.
    case_match; [cbn; lia|]. case_match; [|done]. pose proof (skip_ws_length s2).
    destruct (IH depth (skip_ws s2)) as [_ He]. specialize (He ltac:(lia)).
    destruct (scan_elements h n depth (skip_ws s2)) as [[l s3]|e]; [cbn in *; lia|done].
Qed.

(** The fuel of [loads] is never what stops it. *)
Lemma loads_fuel s : loads h s ≠ Raise out_of_fuel.
Proof.
  unfold loads, raise_if. case_match; [done|]. cbn [mbind result_bind].
  destruct (scan_consumes (S (2 * length s)) recursion_limit (skip_ws s)) as [[Ho _] _].
  { pose proof (skip_ws_length s). lia. }
  destruct (scan_once h _ _ (skip_ws s)) as [[v r]|e]; cbn in *; [|congruence].
  by case_match.
Qed.
End fuel.
