(* ===== verification/JsonScan.v ===== *)
(** * What the JSON scanner can build

    A predicate closed under the decoder's constructors and hooks holds of every
    decoded value; the two predicates the protocols use, no repeated key and no
    float. *)

From S2P Require Import Prelude Bytes Json JsonFacts JsonCanon.
Import Json.

(** ** A predicate on every value the scanner builds *)

Section scan_values.
Context (h : hooks) (P : value → Prop).
Context (Pnone : P VNone) (Pbool : ∀ x, P (VBool x)) (Pint : ∀ z, P (VInt z))
  (Pstr : ∀ s, P (VStr s)) (Plist : ∀ l, Forall P l → P (VList l))
  (Ppairs : ∀ d v, Forall (λ kv, P kv.2) d → object_pairs_hook h d = Ok v → P v)
  (Pconst : ∀ s v, parse_constant h s = Ok v → P v)
  (Pfloat : ∀ s v, parse_float h s = Ok v → P v).

Lemma scan_number_P s v r : scan_number h s = Ok (v, r) → P v.
Proof.
  unfold scan_number. intros H. repeat case_match; try done; py_inv;
    first [by eapply Pfloat|unfold int_of_digits in *; py_inv; by subst].
Qed.

Lemma scan_atom_P s v r : scan_atom h s = Ok (v, r) → P v.
Proof.
  unfold scan_atom. intros Hs. repeat case_match; py_inv; eauto using scan_number_P.
Qed.

Lemma scan_P n : ∀ depth s,
  (∀ v r, scan_once h n depth s = Ok (v, r) → P v) ∧
  (∀ d r, scan_members h n depth s = Ok (d, r) → Forall (λ kv, P kv.2) d) ∧
  (∀ l r, scan_elements h n depth s = Ok (l, r) → Forall P l).
Proof.
  induction n as [|n IH]; intros depth s; [by split_and!|]. split_and!.
  - intros v r H. destruct s as [|c s1]; [done|]. cbn [scan_once] in H.
    destruct (c =? 34); [py_inv; case_match; py_inv; done|].
    destruct (c =? 123).
    { destruct depth as [|depth]; [done|]. destruct (skip_ws s1) as [|c1 s2]; [done|].
      destruct (c1 =? 125); py_inv; [by eapply Ppairs; [constructor|]|].
      case_match; py_inv. eapply Ppairs; [|done]. by eapply IH. }
    destruct (c =? 91); [|by eapply scan_atom_P].
    destruct depth as [|depth]; [done|]. destruct (skip_ws s1) as [|c1 s2]; [done|].
    destruct (c1 =? 93); py_inv; [by apply Plist|]. case_match; py_inv.
    apply Plist. by eapply IH.
  - intros d r H. destruct s as [|q s1]; [done|]. cbn [scan_members] in H.
    repeat (case_match; try done; py_inv);
      (constructor; [by eapply IH|first [by eapply IH|constructor]]).
  - intros l r H. cbn [scan_elements] in H.
    repeat (py_inv; case_match; try done); py_inv;
      (constructor; [by eapply IH|first [by eapply IH|constructor]]).
Qed.

Lemma loads_P s v : loads h s = Ok v → P v.
Proof.
  unfold loads. intros H. py_inv. case_match; subst. case_match; py_inv. by eapply scan_P.
Qed.
End scan_values.

(** No object of the document repeats a key. *)
Fixpoint unique_keys (v : value) : bool :=
  match v with
  | VList l => forallb unique_keys l
  | VDict d => bool_decide (NoDup (keys d)) && forallb (λ '(_, v), unique_keys v) d
  | _ => true
  end.

(** No float at any level. *)
Fixpoint no_float (v : value) : bool :=
  match v with
  | VFloat _ => false
  | VList l => forallb no_float l
  | VDict d => forallb (λ '(_, v), no_float v) d
  | _ => true
  end.

Lemma wf_no_float v : wf v = true → no_float v = true.
Proof.
  induction v as [|x|z|l|s|l IH|d IH] using value_rect'; cbn [wf no_float]; try done.
  - rewrite !forallb_Forall. intros Hw. rewrite Forall_forall in *. auto.
  - intros [Hw _]%andb_true_iff. rewrite forallb_Forall in *. rewrite Forall_forall in *.
    intros [k x] Hk. specialize (Hw _ Hk). cbn in Hw. bools. by apply (IH _ Hk).
Qed.

