(* ===== verification/Stream.v ===== *)
(** * Byte streams with deadlines ([asyncio.StreamReader])

    A connection's incoming bytes, each with the time it becomes readable, and
    the time of the end of file if there is one.  [readexactly] under a
    deadline ([asyncio.wait_for], [asyncio.timeout]) either returns the bytes
    at the time the last of them is there, or fails at the end of file or at
    the deadline.  A byte that becomes readable exactly at a deadline is late. *)

From S2P Require Import Prelude Bytes.

Module Stream.

Record reader := Reader {
  pending : list (Z * byte);   (* arrival time and byte, in order *)
  eof : option Z;
  now : Z }.

(** Everything already readable at time [t]. *)
Definition buffered (l : bytes) (t : Z) : list (Z * byte) := (λ x, (t, x)) <$> l.

(** The time at which the first [n] bytes are all readable. *)
Definition ready_at (t : Z) (l : list (Z * byte)) : Z := foldr Z.max t l.*1.

Definition readexactly (n : nat) (deadline : Z) : st reader bytes := λ r,
  if (n <=? length (pending r))%nat then
    let t := ready_at (now r) (take n (pending r)) in
    if t <? deadline then (Ok (take n (pending r)).*2, Reader (drop n (pending r)) (eof r) t)
    else (Raise TimeoutError, Reader (pending r) (eof r) (Z.max (now r) deadline))
  else match eof r with
       | Some e =>
           let t := Z.max (ready_at (now r) (pending r)) e in
           if t <? deadline then (Raise IncompleteReadError, Reader [] (eof r) t)
           else (Raise TimeoutError, Reader (pending r) (eof r) (Z.max (now r) deadline))
       | None => (Raise TimeoutError, Reader (pending r) (eof r) (Z.max (now r) deadline))
       end.

Lemma ready_at_ge t l : t <= ready_at t l.
Proof. unfold ready_at. induction (l.*1); cbn; lia. Qed.

Lemma buffered_app l k t : buffered (l ++ k) t = buffered l t ++ buffered k t.
Proof. apply fmap_app. Qed.

Lemma readexactly_Ok n dl r d r' :
  readexactly n dl r = (Ok d, r') →
  length d = n ∧ now r <= now r' < dl ∧ (pending r).*2 = d ++ (pending r').*2 ∧
  eof r' = eof r ∧ pending r' = drop n (pending r).
Proof.
  unfold readexactly. destruct (Nat.leb_spec n (length (pending r))).
  - destruct (Z.ltb_spec (ready_at (now r) (take n (pending r))) dl); [|done].
    intros [= <- <-]. cbn. split_and!; try done.
    + rewrite length_fmap, length_take. lia.
    + apply ready_at_ge.
    + rewrite <-fmap_app. by rewrite take_drop.
  - destruct (eof r); [|done]. by case_match.
Qed.

(** Reading bytes that are all there already. *)
Lemma readexactly_app n l rest e t dl :
  length l = n → t < dl →
  readexactly n dl (Reader (buffered l t ++ rest) e t) = (Ok l, Reader rest e t).
Proof.
  intros <- Ht. unfold readexactly. cbn [pending eof now].
  assert (Hl : length (buffered l t) = length l) by (unfold buffered; by rewrite length_fmap).
  destruct (Nat.leb_spec (length l) (length (buffered l t ++ rest))) as [|Hlt];
    [|rewrite length_app, Hl in Hlt; lia].
  rewrite <-Hl. rewrite take_app_length, drop_app_length.
  assert (Hr : ready_at t (buffered l t) = t).
  { unfold ready_at, buffered. clear. induction l as [|x l IH]; [done|].
    cbn [fmap list_fmap foldr fst] in *. lia. }
  rewrite Hr. destruct (Z.ltb_spec t dl); [|lia].
  unfold buffered. rewrite <-list_fmap_compose. by rewrite list_fmap_id.
Qed.

Lemma readexactly_mono n dl r x r' :
  readexactly n dl r = (x, r') → now r <= now r'.
Proof.
  unfold readexactly. pose proof (ready_at_ge (now r)) as Hge.
  repeat case_match; intros [= <- <-]; cbn; try apply Hge; try lia.
  specialize (Hge (pending r)). lia.
Qed.

End Stream.
