(* ===== verification/Env.v ===== *)
(** * The environment: clocks and randomness

    What a process reads from outside: the monotonic clock, the wall clock and
    the entropy source.  They are an oracle ([Env]) indexed by the number of
    readings made so far; the theorems hold for every oracle, so for every
    passage of time and every outcome of [secrets]. *)

From S2P Require Import Prelude Bytes.

Class Env := {
  tick : nat → N;              (* nanoseconds elapsed before the n-th event *)
  wall : nat → N;              (* [int(time.time() * 1000)] at the n-th event *)
  entropy : nat → nat → byte   (* the bytes [secrets] returns at the n-th event *)
}.

Record world := World { mono : Z; events : nat }.

Section env.
Context `{Env}.

(** [time.monotonic()] *)
Definition clock : st world Z := λ w,
  let t := mono w + Z.of_N (tick (events w)) in (Ok t, World t (S (events w))).

Definition wall_ms : st world Z := λ w,
  (Ok (Z.of_N (wall (events w))), World (mono w) (S (events w))).

(** [secrets.token_hex(n)] *)
Definition token_hex (n : nat) : st world pystr := λ w,
  (Ok (hex_of (entropy (events w) <$> seq 0 n)), World (mono w) (S (events w))).

(** The index of an outside event, for calls of external programs. *)
Definition event : st world nat := λ w, (Ok (events w), World (mono w) (S (events w))).

(** Run on the world beside an object. *)
Definition on_world {X A} (m : st world A) : st (world * X) A := λ s,
  let '(r, w) := m s.1 in (r, (w, s.2)).

Lemma on_world_inv {X A} (m : st world A) (w : world) (x : X) r w' x' :
  on_world m (w, x) = (r, (w', x')) → m w = (r, w') ∧ x' = x.
Proof. unfold on_world. cbn. destruct (m w). by intros [= -> -> ->]. Qed.

Lemma clock_spec w r w' :
  clock w = (r, w') → r = Ok (mono w') ∧ mono w <= mono w'.
Proof. intros [= <- <-]. cbn. split; [done|lia]. Qed.

Lemma token_hex_spec n w r w' :
  token_hex n w = (r, w') →
  mono w' = mono w ∧
  ∃ s, r = Ok s ∧ len s = 2 * Z.of_nat n ∧ forallb is_hex s = true.
Proof.
  intros [= <- <-]. split; [done|]. eexists. split_and!; [done| |apply hex_of_is_hex].
  unfold len. rewrite length_hex_of, length_fmap, length_seq. lia.
Qed.

(** A computation during which time does not go back. *)
Definition time_passes {A} (m : st world A) : Prop :=
  ∀ w r w', m w = (r, w') → mono w <= mono w'.

Lemma time_clock : time_passes clock.
Proof. intros w r w' E. by apply clock_spec in E as [_ ?]. Qed.
Lemma time_token n : time_passes (token_hex n).
Proof. intros w r w' E. apply token_hex_spec in E as [-> _]. lia. Qed.
Lemma time_wall : time_passes wall_ms.
Proof. intros w r w' [= _ <-]. cbn. lia. Qed.
Lemma time_event : time_passes event.
Proof. intros w r w' [= _ <-]. cbn. lia. Qed.
Lemma time_lift {A} (a : result A) : time_passes (lift a).
Proof. intros w r w' [= _ <-]. lia. Qed.
Lemma time_ret {A} (a : A) : time_passes (mret a).
Proof. intros w r w' [= _ <-]. lia. Qed.
Lemma time_raise {A} e : time_passes (raise e : st world A).
Proof. intros w r w' [= _ <-]. lia. Qed.
Lemma time_raise_when x e : time_passes (raise_when x e).
Proof. apply time_lift. Qed.
Lemma time_bind {A B} (m : st world A) (f : A → st world B) :
  time_passes m → (∀ a, time_passes (f a)) → time_passes (m ≫= f).
Proof.
  intros Hm Hf w r w'. unfold mbind, st_bind. destruct (m w) as [[a|e] w1] eqn:E.
  - intros Hr. apply Hf in Hr. apply Hm in E. lia.
  - intros [= <- <-]. by eapply Hm.
Qed.
End env.

#[export] Hint Resolve time_clock time_token time_wall time_event time_lift time_ret
  time_raise time_raise_when : py.

Ltac time_step := first [apply time_bind; [solve [auto with py]|intros ?]|case_match].
Ltac time_tac := repeat time_step; auto with py.

(** ** A fixed environment, for the witnesses: one millisecond per event, the
    entropy of event [n] is the byte [n] repeated. *)
Definition test_env : Env := {|
  tick := λ _, 1000000%N;
  wall := λ n, (1700000000000 + N.of_nat n)%N;
  entropy := λ n _, z2b (Z.of_nat n) |}.
