(* ===== verification/Dict.v ===== *)
(** * Python dicts of JSON values: assignment, update, removal

    Operations on the association lists of [Json.VDict], in insertion order. *)

From S2P Require Import Prelude Bytes Json JsonCanon.
Import Json.

Abbreviation dict := (list (pystr * value)).

(** [d[k] = v] *)
Fixpoint d_set (d : dict) (k : pystr) (v : value) : dict :=
  match d with
  | [] => [(k, v)]
  | (k', v') :: d => if decide (k = k') then (k', v) :: d else (k', v') :: d_set d k v
  end.

(** [d.update(e)], [dict(d, **e)] *)
Definition d_update (d e : dict) : dict := foldl (λ d kv, d_set d kv.1 kv.2) d e.

#[global] Arguments d_update : simpl never.

Definition d_delete (d : dict) (k : pystr) : dict := filter (λ kv, kv.1 ≠ k) d.

(** [d.pop(k)] *)
Definition d_pop (d : dict) (k : pystr) : result (value * dict) :=
  v ← d_item d k; Ok (v, d_delete d k).

(** [v[k]] of any decoded value: only a dict has string keys. *)
Definition v_item (v : value) (k : pystr) : result value :=
  match v with VDict d => d_item d k | _ => Raise TypeError end.

(** [v.get(k)] of any decoded value *)
Definition v_get (v : value) (k : pystr) : result (option value) :=
  match v with VDict d => Ok (d_get d k) | _ => Raise AttributeError end.

Lemma d_get_set d k v k' : d_get (d_set d k v) k' = if decide (k' = k) then Some v else d_get d k'.
Proof.
  induction d as [|[k1 v1] d IH]; cbn; [done|].
  repeat (case_decide; cbn; subst); try done; rewrite ?IH; by repeat case_decide.
Qed.

Lemma d_get_set_eq d k v : d_get (d_set d k v) k = Some v.
Proof. rewrite d_get_set. by rewrite decide_True. Qed.
Lemma d_get_set_ne d k v k' : k' ≠ k → d_get (d_set d k v) k' = d_get d k'.
Proof. intros. rewrite d_get_set. by rewrite decide_False. Qed.

Lemma keys_set d k v k' : k' ∈ keys (d_set d k v) ↔ k' = k ∨ k' ∈ keys d.
Proof.
  induction d as [|[k1 v1] d IH]; cbn.
  - unfold keys. cbn. rewrite list_elem_of_singleton. set_solver.
  - case_decide; unfold keys in *; cbn; rewrite ?elem_of_cons in *; rewrite ?IH; naive_solver.
Qed.

Lemma NoDup_set d k v : NoDup (keys d) → NoDup (keys (d_set d k v)).
Proof.
  induction d as [|[k1 v1] d IH]; cbn.
  - intros _. apply NoDup_singleton.
  - intros [Hn Hd]%NoDup_cons. case_decide; cbn; apply NoDup_cons; [done|].
    split; [|auto]. change (k1 ∉ keys (d_set d k v)). rewrite keys_set. naive_solver.
Qed.

Lemma d_get_delete d k k' : d_get (d_delete d k) k' = if decide (k' = k) then None else d_get d k'.
Proof.
  unfold d_delete. induction d as [|[k1 v1] d IH]; [by case_decide|].
  rewrite filter_cons. cbn [fst]. destruct (decide (k1 = k)) as [->|Hk].
  - rewrite decide_False by (intros []; done). rewrite IH. cbn. by repeat case_decide.
  - rewrite decide_True by done. cbn. rewrite IH. by repeat (case_decide; subst).
Qed.

(** A key the update does not mention keeps its value. *)
Lemma d_get_update_None d e k : d_get e k = None → d_get (d_update d e) k = d_get d k.
Proof.
  unfold d_update. revert d. induction e as [|[k1 v1] e IH]; intros d; cbn; [done|].
  case_decide; [done|]. intros H1. rewrite IH by done. by apply d_get_set_ne.
Qed.

Lemma d_get_update_Some d e k v :
  NoDup (keys e) → d_get e k = Some v → d_get (d_update d e) k = Some v.
Proof.
  unfold d_update. revert d. induction e as [|[k1 v1] e IH]; intros d; cbn; [done|].
  intros [Hn He]%NoDup_cons. case_decide as Hk.
  - intros [= ->]. subst. fold (d_update (d_set d k1 v) e).
    rewrite d_get_update_None; [by apply d_get_set_eq|]. by apply d_get_None.
  - by apply IH.
Qed.
