(* ===== verification/Connection.v ===== *)
(** * Connections: one handler among others

    What a connection handler sees: its reader, the frames it has written, the
    environment, and the shared object it serves.  At every [await] the other
    handlers may have changed the shared object: an [Interference] gives their
    effect, and the theorems hold for every one. *)

From S2P Require Import Prelude Bytes Json Stream Env Dict.
Import Json Stream.

(** The peer's TLS certificate, and how each [drain()] of the writer ends (within
    its four seconds, or with [OSError] or [TimeoutError]). *)
Class Peer := { certificate : bytes; drain_outcome : nat → result unit }.

(** The change of the shared object by the others during the n-th [await]. *)
Class Interference (X : Type) := others : nat → X → X.

Record conn (X : Type) := Conn {
  c_reader : reader;
  c_out : list bytes;
  c_world : world;
  c_obj : X }.
Arguments Conn {X}.
Arguments c_reader {X}.
Arguments c_out {X}.
Arguments c_world {X}.
Arguments c_obj {X}.

Section conn.
Context `{Env} `{Peer} {X : Type} `{Interference X}.

(** A method of the shared object, under its lock. *)
Definition shared {A} (m : st (world * X) A) : st (conn X) A := λ c,
  let '(r, (w, x)) := m (c_world c, c_obj c) in (r, Conn (c_reader c) (c_out c) w x).

Definition resumed : st (conn X) unit := λ c,
  (Ok tt, Conn (c_reader c) (c_out c) (World (mono (c_world c)) (S (events (c_world c))))
            (others (events (c_world c)) (c_obj c))).

(** [await m], for a read of the connection: the reader and the process share
    one clock. *)
Definition await_read {A} (m : st reader A) : st (conn X) A := λ c,
  let r := c_reader c in
  let '(a, r') := m (Reader (pending r) (eof r) (Z.max (Stream.now r) (mono (c_world c)))) in
  let '(_, c') := resumed (Conn r' (c_out c)
        (World (Z.max (mono (c_world c)) (Stream.now r')) (events (c_world c))) (c_obj c)) in
  (a, c').

Definition write (frame : bytes) : st (conn X) unit := λ c,
  (Ok tt, Conn (c_reader c) (c_out c ++ [frame]) (c_world c) (c_obj c)).

(** [await asyncio.wait_for(writer.drain(), 4)] *)
Definition drain : st (conn X) unit :=
  n ← gets (λ c, events (c_world c));
  _ ← resumed;
  lift (drain_outcome n).
End conn.

(** ** What is written *)

Section quiet.
Context `{Env} `{Peer} {X : Type} `{Interference X}.

(** A computation that writes nothing. *)
Definition quiet {A} (m : st (conn X) A) : Prop := ∀ c r c', m c = (r, c') → c_out c' = c_out c.

Lemma quiet_lift {A} (a : result A) : quiet (lift a).
Proof. by intros c r c' [= _ <-]. Qed.
Lemma quiet_ret {A} (a : A) : quiet (mret a).
Proof. by intros c r c' [= _ <-]. Qed.
Lemma quiet_gets {A} (f : conn X → A) : quiet (gets f).
Proof. by intros c r c' [= _ <-]. Qed.
Lemma quiet_raise_when x e : quiet (raise_when x e).
Proof. apply quiet_lift. Qed.
Lemma quiet_raise {A} e : quiet (raise e : st (conn X) A).
Proof. by intros c r c' [= _ <-]. Qed.
Lemma quiet_shared {A} (m : st (world * X) A) : quiet (shared m).
Proof. intros c r c'. unfold shared. destruct (m _) as [? []]. by intros [= _ <-]. Qed.
Lemma quiet_resumed : quiet resumed.
Proof. by intros c r c' [= _ <-]. Qed.
Lemma quiet_await_read {A} (m : st reader A) : quiet (await_read m).
Proof. intros c r c'. unfold await_read. destruct (m _) as [? ?]. by intros [= _ <-]. Qed.
Lemma quiet_bind {A B} (m : st (conn X) A) (f : A → st (conn X) B) :
  quiet m → (∀ a, quiet (f a)) → quiet (m ≫= f).
Proof.
  intros Hm Hf c r c' Hb. apply st_bind_inv in Hb as ([a|e] & c1 & E & Hb); apply Hm in E.
  - apply Hf in Hb. congruence.
  - destruct Hb as [_ ->]. done.
Qed.
Lemma quiet_finally {A} (m : st (conn X) A) f : quiet m → quiet f → quiet (try_finally m f).
Proof.
  intros Hm Hf c r c' Hb. unfold try_finally in Hb. destruct (m c) as [r1 c1] eqn:E1.
  destruct (f c1) as [[u|e] c2] eqn:E2; injection Hb as <- <-; apply Hm in E1; apply Hf in E2; congruence.
Qed.
Lemma quiet_except {A} (m : st (conn X) A) h :
  quiet m → (∀ e k, h e = Some k → quiet k) → quiet (try_except m h).
Proof.
  intros Hm Hh c r c' Hb. unfold try_except in Hb. destruct (m c) as [[a|e] c1] eqn:E1; apply Hm in E1.
  - by injection Hb as _ <-.
  - destruct (h e) as [k|] eqn:E; [|by injection Hb as _ <-]. apply (Hh _ _ E) in Hb. congruence.
Qed.
Lemma quiet_drain : quiet drain.
Proof.
  apply quiet_bind; [apply quiet_gets|intros n]. apply quiet_bind; [apply quiet_resumed|intros _].
  apply quiet_lift.
Qed.
End quiet.

#[export] Hint Resolve quiet_lift quiet_ret quiet_gets quiet_raise quiet_raise_when quiet_shared
  quiet_resumed quiet_await_read quiet_bind quiet_finally quiet_drain : py.
