(* ===== verification/GatewayProtocol.v ===== *)
(** * Gateway protocol ([src/scripts/gateway_protocol.py])

    The codecs, sequences, envelopes, bounded queues and rate limiters shared by
    the TLS tunnel and the parent's IPC pipe: definitions. *)

From S2P Require Import Prelude Bytes Json Stream.
Import Json Stream.

Module GatewayProtocol.

Definition TUNNEL : pystr := u "arena-enet-tunnel/1".
Definition IPC : pystr := u "arena-gateway-ipc/1".
Definition PROFILE : pystr := u "verified_pinned_ak/1".
Definition MAX_ID : Z := 2147483647.

Abbreviation dict := (list (pystr * value)).

(** [fields(value, names)]; the dict itself is returned for the uses that follow. *)
Definition fields (v : value) (names : list pystr) : result dict :=
  match v with
  | VDict d => raise_if! negb (same_keys d names) then ValueError "fields"; Ok d
  | _ => Raise (ValueError "fields")
  end.

(** [integer(value, low, high)]: a [bool] is not an integer here. *)
Definition integer (v : value) (low high : Z) : result Z :=
  match v with
  | VInt z => raise_if! negb ((low <=? z) && (z <=? high)) then ValueError "integer"; Ok z
  | _ => Raise (ValueError "integer")
  end.

Definition hex_id (v : value) (size : Z) : result pystr :=
  match v with
  | VStr s =>
      raise_if! negb ((len s =? size) && forallb is_hex s) then ValueError "identifier"; Ok s
  | _ => Raise (ValueError "identifier")
  end.

(** ** Strict JSON *)

(** The [object_pairs_hook] of [strict_json]. *)
Fixpoint pairs (acc items : dict) : result value :=
  match items with
  | [] => Ok (VDict acc)
  | (k, v) :: items =>
      raise_if! bool_decide (k ∈ keys acc) then ValueError "duplicate_key";
      pairs (acc ++ [(k, v)]) items
  end.

Definition strict_hooks : hooks :=
  Hooks (pairs []) (λ _, Raise (ValueError "non_finite")) (λ l, Ok (VFloat l)).

Definition is_container (v : value) : bool :=
  match v with VList _ | VDict _ => true | _ => false end.

Fixpoint seq_results (l : list (result unit)) : result unit :=
  match l with [] => Ok tt | r :: l => _ ← r; seq_results l end.

Fixpoint depth (v : value) (level : Z) {struct v} : result unit :=
  raise_if! (4 <? level) || ((4 <=? level) && is_container v) then ValueError "json_depth";
  match v with
  | VDict d => seq_results ((λ kv, depth kv.2 (level + 1)) <$> d)
  | VList l => seq_results ((λ x, depth x (level + 1)) <$> l)
  | VFloat _ => Raise (ValueError "integer_fields_only")
  | _ => Ok tt
  end.

Definition strict_json (data : bytes) : result value :=
  raise_if! negb ((1 <=? len data) && (len data <=? 4096)) then ValueError "json_size";
  v ← match s ← utf8_decode data; loads strict_hooks s with
      | Ok v => Ok v
      | Raise e =>
          Raise (if bool_decide (e = ValueError "UnicodeDecodeError" ∨ e = RecursionError)
                 then ValueError "json_encoding_depth" else e)
      end;
  _ ← depth v 0;
  Ok v.

Definition json_bytes (v : value) : result bytes :=
  let data := ascii_bytes (dumps_sorted v) in
  _ ← strict_json data;
  Ok data.

(** ** Frames *)

Definition is_kind (k : Z) : bool := (k =? 1) || (k =? 2).

Definition frame (payload : bytes) (kind : option Z) : result bytes :=
  raise_if! negb ((1 <=? len payload) && (len payload <=? 4096)) ||
            negb (match kind with None => true | Some k => is_kind k end)
  then ValueError "frame";
  let body := match kind with Some k => [z2b k] | None => [] end ++ payload in
  Ok (be_encode 4 (len body) ++ body).

Definition default_idle : Z := 1000 * ns_per_ms.

(** [read_frame(reader, tunnel, idle)]: the idle timeout covers the first byte,
    one absolute deadline covers the rest of the frame. *)
Definition read_frame (tunnel : bool) (idle : Z) : st reader (option Z * bytes) :=
  t0 ← gets now;
  first ← readexactly 1 (t0 + idle);
  t1 ← gets now;
  let deadline := t1 + 200 * ns_per_ms in
  rest ← readexactly 3 deadline;
  let size := be_decode (first ++ rest) in
  _ ← raise_when (negb (((if tunnel then 2 else 1) <=? size) &&
                        (size <=? (if tunnel then 4097 else 4096))))
                 (ValueError "frame_size");
  data ← readexactly (Z.to_nat size) deadline;
  if tunnel then
    match data with
    | k :: data =>
        _ ← raise_when (negb (is_kind (b2z k))) (ValueError "frame_type");
        mret (Some (b2z k), data)
    | [] => raise (ValueError "frame_type")
    end
  else mret (None, data).

(** ** Sequences and envelopes *)

(** [Sequence]: the last number used, initially [0]. *)
Definition seq0 : Z := 0.

Definition seq_next : st Z Z := λ s,
  match integer (VInt (s + 1)) 1 MAX_ID with
  | Ok n => (Ok n, n)
  | Raise e => (Raise e, s)
  end.

Definition seq_accept (v : value) : st Z unit := λ s,
  match integer v 1 MAX_ID with
  | Ok n => if negb (n =? s + 1) then (Raise (ValueError "sequence"), s) else (Ok tt, n)
  | Raise e => (Raise e, s)
  end.

Definition envelope_fields : list pystr :=
  [u "protocol_version"; u "server_run_id"; u "gateway_generation"; u "request_id";
   u "operation"; u "body"].

Definition envelope_dict (run : pystr) (generation request : Z) (operation : pystr) (body : dict) : dict :=
  [(u "protocol_version", VStr IPC); (u "server_run_id", VStr run);
         (u "gateway_generation", VInt generation); (u "request_id", VInt request);
         (u "operation", VStr operation); (u "body", VDict body)].

Definition envelope (run : pystr) (generation request : Z) (operation : pystr) (body : dict) : value :=
  VDict (envelope_dict run generation request operation body).

(** [validate_envelope(value, run, generation, sequence)].  The comparison of
    generations is Python's [==], which [True] passes for generation 1; the
    [integer] check that follows refuses it. *)
Definition validate_envelope (v : value) (run : pystr) (generation : Z) : st Z (pystr * dict) :=
  d ← lift (fields v envelope_fields);
  version ← lift (d_item d (u "protocol_version"));
  run' ← lift (d_item d (u "server_run_id"));
  generation' ← lift (d_item d (u "gateway_generation"));
  _ ← raise_when (negb (py_eq version (VStr IPC)) || negb (py_eq run' (VStr run)) ||
                  negb (py_eq generation' (VInt generation))) (ValueError "ipc_context");
  _ ← lift (integer generation' 1 MAX_ID);
  operation ← lift (d_item d (u "operation"));
  body ← lift (d_item d (u "body"));
  match operation, body with
  | VStr operation, VDict body =>
      request ← lift (d_item d (u "request_id"));
      _ ← seq_accept request;
      mret (operation, body)
  | _, _ => raise (ValueError "ipc_operation")
  end.

(** The [commands] loop of [stdio_main], on the messages read so far: the first
    rejected message ends it. *)
Fixpoint consume (run : pystr) (generation : Z) (ms : list value) : st Z (list (pystr * dict)) :=
  match ms with
  | [] => mret []
  | m :: ms =>
      c ← validate_envelope m run generation;
      cs ← consume run generation ms;
      mret (c :: cs)
  end.

(** ** Bounded queues *)

Record BoundedQueue := Queue {
  maxsize : Z;                    (* queue.maxsize *)
  q_items : list (Z * bytes);     (* the asyncio.Queue: arrival time and data *)
  q_limit : Z;
  q_bytes : Z;
  q_age : Z }.

Definition new_queue (count size age : Z) : BoundedQueue := Queue count [] size 0 age.
(** [BoundedQueue()]: 64 items, 64 KiB, 100 ms. *)
Definition default_queue : BoundedQueue := new_queue 64 65536 (100 * ns_per_ms).

(** [asyncio.Queue.full()]: a queue without a positive [maxsize] is never full. *)
Definition queue_full (q : BoundedQueue) : bool :=
  (0 <? maxsize q) && (maxsize q <=? len (q_items q)).

Definition q_put (at_time : Z) (data : bytes) : st BoundedQueue unit := λ q,
  if (q_limit q <? q_bytes q + len data) || queue_full q then (Raise (ValueError "queue_full"), q)
  else (Ok tt, Queue (maxsize q) (q_items q ++ [(at_time, data)]) (q_limit q)
                     (q_bytes q + len data) (q_age q)).

(** [await get()] resumed at [now]; [None] while the queue is empty: the
    coroutine stays suspended.  The item is gone even when it has expired. *)
Definition q_get (now : Z) (q : BoundedQueue) : option (result bytes * BoundedQueue) :=
  match q_items q with
  | [] => None
  | (t, data) :: items =>
      let q' := Queue (maxsize q) items (q_limit q) (q_bytes q - len data) (q_age q) in
      Some (if q_age q <? now - t then Raise (ValueError "queue_expired") else Ok data, q')
  end.

(** ** Rate limiting *)

(** Token buckets, in units of [10^-9] frame and [10^-9] byte: one nanosecond
    refills 512 and 524288 units. *)
Record Rate := MkRate { r_at : Z; r_frames : Z; r_bytes : Z }.

Definition new_rate (now : Z) : Rate := MkRate now (64 * ns_per_s) (65536 * ns_per_s).

Definition rate_take (now size : Z) : st Rate unit := λ r,
  let delta := Z.max 0 (now - r_at r) in
  let frames := Z.min (64 * ns_per_s) (r_frames r + delta * 512) in
  let bytes := Z.min (65536 * ns_per_s) (r_bytes r + delta * 524288) in
  if (frames <? 1 * ns_per_s) || (bytes <? size * ns_per_s) then
    (Raise (ValueError "rate"), MkRate now frames bytes)
  else (Ok tt, MkRate now (frames - 1 * ns_per_s) (bytes - size * ns_per_s)).

End GatewayProtocol.
