(* ===== verification/GatewayProtocolFacts.v ===== *)
(** * Properties of the gateway protocol

    Framing, strict JSON, envelopes, bounded queues and rate limits. *)

From S2P Require Import Prelude Bytes Json JsonFacts JsonCanon JsonScan Stream GatewayProtocol.
Import Json Stream GatewayProtocol.

(** ** Guards *)

Lemma integer_Ok v lo hi z : integer v lo hi = Ok z ↔ v = VInt z ∧ lo <= z <= hi.
Proof.
  destruct v; cbn [integer]; try (split; [done|by intros [? _]]).
  unfold raise_if. destruct ((lo <=? z0) && (z0 <=? hi)) eqn:E; cbn.
  - bools. split; [intros [= ->]; auto|by intros [[= ->] _]].
  - split; [done|]. intros [[= ->] ?]. apply andb_false_iff in E as [?|?]; bools; lia.
Qed.

Lemma hex_id_Ok v size s :
  hex_id v size = Ok s ↔ v = VStr s ∧ len s = size ∧ forallb is_hex s = true.
Proof.
  destruct v; cbn [hex_id]; try (split; [done|by intros [? _]]).
  unfold raise_if. destruct ((len s0 =? size) && forallb is_hex s0) eqn:E; cbn.
  - bools. split; [intros [= ->]; auto|by intros [[= ->] _]].
  - split; [done|]. intros (?&<-&?). simplify_eq. rewrite Z.eqb_refl in E. cbn in E. congruence.
Qed.

Lemma fields_Ok v names d :
  fields v names = Ok d ↔ v = VDict d ∧ ∀ k, k ∈ keys d ↔ k ∈ names.
Proof.
  destruct v as [| | | | | |d']; cbn [fields]; try (split; [done|by intros [? _]]).
  unfold raise_if. rewrite <-(same_keys_spec d). destruct (same_keys d' names) eqn:E; cbn.
  - split; [intros [= <-]; auto|by intros [[= ->] _]].
  - split; [done|]. intros [[= ->] ?]. congruence.
Qed.

(** ** Frames *)

Lemma frame_Ok payload kind wire :
  frame payload kind = Ok wire ↔
  1 <= len payload <= 4096 ∧ (∀ k, kind = Some k → is_kind k = true) ∧
  wire = be_encode 4 (len payload + (if kind then 1 else 0)) ++
         (match kind with Some k => [z2b k] | None => [] end) ++ payload.
Proof.
  unfold frame. pose proof (len_nonneg payload).
  destruct ((1 <=? len payload) && (len payload <=? 4096)) eqn:E; cbn.
  - bools. destruct kind as [k|]; cbn.
    + destruct (is_kind k) eqn:Ek; cbn.
      * rewrite len_cons, Z.add_comm. split; [intros [= <-]; naive_solver|by intros (_&_& ->)].
      * split; [done|]. intros (_ & Hk & _). specialize (Hk k eq_refl). congruence.
    + rewrite Z.add_0_r. split; [intros [= <-]; naive_solver|by intros (_&_& ->)].
  - split; [done|]. intros (? & _). apply andb_false_iff in E as [?|?]; bools; lia.
Qed.

Lemma is_kind_range k : is_kind k = true → 0 <= k < 256.
Proof. unfold is_kind. intros [?|?]%orb_true_iff; bools; lia. Qed.

Lemma be_size n : 0 <= n < 4294967296 → be_decode (be_encode 4 n) = n.
Proof. intros. rewrite be_decode_encode. apply Z.mod_small. done. Qed.

Lemma be_encode4_split n : ∃ a r, be_encode 4 n = a :: r ∧ length r = 3%nat.
Proof.
  pose proof (length_be_encode 4 n). destruct (be_encode 4 n) as [|a r]; [done|].
  exists a, r. cbn in *. auto.
Qed.

(** A frame written by [frame] and readable at once is read back exactly,
    by the tunnel reader when it carries a type byte and by the IPC reader when
    it does not, and the bytes that follow it stay in the stream. *)
Theorem frame_roundtrip payload kind wire idle rest e t :
  frame payload kind = Ok wire → 0 < idle →
  read_frame (bool_decide (is_Some kind)) idle (Reader (buffered wire t ++ rest) e t)
  = (Ok (kind, payload), Reader rest e t).
Proof.
  intros (Hlen & Hk & ->)%frame_Ok Hidle.
  set (size := len payload + (if kind then 1 else 0)).
  set (body := _ ++ payload).
  assert (Hsize : Z.to_nat size = length body).
  { unfold size, body, len. rewrite length_app. destruct kind; cbn; lia. }
  assert (0 <= size < 4294967296) as Hrange by (unfold size; destruct kind; lia).
  destruct (be_encode4_split size) as (a & r & Hs & Hr).
  unfold buffered. rewrite fmap_app, Hs, fmap_cons.
  change ((t, a) :: ((λ x, (t, x)) <$> r)) with (buffered [a] t ++ buffered r t).
  change ((λ x, (t, x)) <$> body) with (buffered body t). rewrite <-!app_assoc.
  unfold read_frame, gets, mbind, st_bind. cbn [now].
  rewrite (readexactly_app 1 [a]) by (done || lia). cbn [now].
  assert (t < t + 200 * ns_per_ms) by (unfold ns_per_ms; lia).
  rewrite (readexactly_app 3 r) by done.
  change ([a] ++ r) with (a :: r). rewrite <-Hs, be_size by done.
  unfold raise_when, lift, raise_if.
  assert (Hguard : ((if bool_decide (is_Some kind) then 2 else 1) <=? size) &&
    (size <=? (if bool_decide (is_Some kind) then 4097 else 4096)) = true).
  { unfold size. destruct kind as [k|]; [rewrite bool_decide_eq_true_2 by eauto|
      rewrite bool_decide_eq_false_2 by (by intros [? ?])];
      apply andb_true_iff; split; apply Z.leb_le; lia. }
  rewrite Hguard. cbn [negb]. rewrite readexactly_app by done.
  destruct kind as [k|].
  - rewrite bool_decide_eq_true_2 by eauto. cbn.
    specialize (Hk k eq_refl). rewrite b2z_z2b_small by (by apply is_kind_range). by rewrite Hk.
  - rewrite bool_decide_eq_false_2 by (by intros [? ?]). done.
Qed.

Lemma frame_roundtrip_witness :
  read_frame true 1 (Reader (buffered (be_encode 4 6 ++ [x01] ++ b "hello") 5 ++ [(9, x07)]) None 5)
  = (Ok (Some 1, b "hello"), Reader [(9, x07)] None 5).
Proof. apply (frame_roundtrip (b "hello") (Some 1)); [vm_compute; reflexivity|lia]. Defined.

(** A successful read, taken apart. *)
Lemma read_frame_Ok tunnel idle r kind data r' :
  read_frame tunnel idle r = (Ok (kind, data), r') →
  ∃ first t1,
    now r <= t1 < now r + idle ∧ t1 <= now r' < t1 + 200 * ns_per_ms ∧
    length first = 4%nat ∧
    (pending r).*2 = first ++ (match kind with Some k => [z2b k] | None => [] end) ++ data ++ (pending r').*2 ∧
    be_decode first = len data + (if kind then 1 else 0) ∧
    1 <= len data <= 4096 ∧
    (if tunnel then ∃ k, kind = Some k ∧ is_kind k = true else kind = None).
Proof.
  unfold read_frame. intros H. py_inv.
  match goal with
  | H1 : readexactly 1 _ _ = (Ok ?f, ?s1), H2 : readexactly 3 _ ?s1 = (Ok ?g, ?s2),
    H3 : readexactly (Z.to_nat ?sz) _ _ = (Ok ?body, ?s3) |- _ =>
      apply readexactly_Ok in H1 as (L1 & T1 & P1 & _ & _);
      apply readexactly_Ok in H2 as (L2 & T2 & P2 & _ & _);
      apply readexactly_Ok in H3 as (L3 & T3 & P3 & _ & _);
      assert (L4 : length (f ++ g) = 4%nat) by (rewrite length_app, L1, L2; done);
      exists (f ++ g), (now s1); pose proof (be_decode_bound (f ++ g)) as B;
      assert (L5 : len body = be_decode (f ++ g)) by (unfold len; rewrite L3; lia);
      rename body into dat
  end.
  bools. destruct tunnel.
  - destruct dat as [|k body]; [done|]. py_inv. bools. rewrite len_cons in L5.
    split_and!; try done; try (cbn; lia); try (eexists; by split).
    by rewrite P1, P2, P3, z2b_b2z, <-app_assoc.
  - py_inv. split_and!; try done; try (cbn; lia).
    by rewrite P1, P2, P3, <-app_assoc.
Qed.

(** Whatever [read_frame] returns was on the wire exactly as [frame] writes
    it, a payload of 1 to 4096 bytes; the first byte came within the idle
    timeout, and the whole frame within 200 ms of the first byte, however the
    fragments were spread. *)
Theorem read_frame_sound tunnel idle r kind data r' :
  read_frame tunnel idle r = (Ok (kind, data), r') →
  ∃ wire t1,
    frame data kind = Ok wire ∧ (pending r).*2 = wire ++ (pending r').*2 ∧
    1 <= len data <= 4096 ∧ (tunnel = true ↔ is_Some kind) ∧
    now r <= t1 < now r + idle ∧ t1 <= now r' < t1 + 200 * ns_per_ms.
Proof.
  intros (first & t1 & ? & ? & L & P & D & ? & K)%read_frame_Ok.
  exists (first ++ (match kind with Some k => [z2b k] | None => [] end) ++ data), t1.
  split_and!; try lia.
  - apply frame_Ok. split_and!; try lia.
    + intros k ->. destruct tunnel; [|done]. destruct K as (k' & [= ->] & ?). done.
    + rewrite <-D, <-L, be_encode_decode. done.
  - rewrite P, <-!app_assoc. done.
  - destruct tunnel; [destruct K as (k & -> & _); split; eauto|subst]. by split; [|intros []].
Qed.

Lemma read_frame_sound_witness :
  ∃ wire t1,
    frame (b "hi") None = Ok wire ∧
    (pending (Reader (buffered (be_encode 4 2 ++ b "hi") 0) None 0)).*2 = wire ++ (pending (Reader [] None 0)).*2 ∧
    1 <= len (b "hi") <= 4096 ∧ (false = true ↔ is_Some (@None Z)) ∧
    0 <= t1 < 0 + 1000 ∧ t1 <= 0 < t1 + 200 * ns_per_ms.
Proof.
  apply (read_frame_sound false 1000 (Reader (buffered (be_encode 4 2 ++ b "hi") 0) None 0)
           None (b "hi") (Reader [] None 0)).
  vm_compute. reflexivity.
Defined.

(** ** Strict JSON *)

Lemma pairs_Ok items : ∀ acc v,
  pairs acc items = Ok v → NoDup (keys acc) →
  v = VDict (acc ++ items) ∧ NoDup (keys (acc ++ items)).
Proof.
  induction items as [|[k x] items IH]; intros acc v H Hacc; cbn in H.
  - injection H as <-. by rewrite app_nil_r.
  - py_inv. bools. apply IH in H as [-> Hn].
    + rewrite <-app_assoc in *. done.
    + unfold keys. rewrite fmap_app. apply NoDup_app. split_and!; [done| |apply NoDup_singleton].
      intros k' Hk ->%list_elem_of_singleton. done.
Qed.

Lemma pairs_unique items acc :
  NoDup (keys (acc ++ items)) → pairs acc items = Ok (VDict (acc ++ items)).
Proof.
  revert acc. induction items as [|[k v] items IH]; intros acc Hn; cbn.
  - by rewrite app_nil_r.
  - unfold keys in *. rewrite fmap_app in Hn.
    rewrite bool_decide_eq_false_2.
    + cbn. rewrite IH; rewrite <-app_assoc; [done|]. unfold keys. by rewrite fmap_app.
    + apply NoDup_app in Hn as (_ & Hn & _). intros Hk. apply (Hn k Hk). apply list_elem_of_here.
Qed.

Lemma strict_hooks_unique d :
  NoDup (keys d) → object_pairs_hook strict_hooks d = Ok (VDict d).
Proof. apply (pairs_unique d []). Qed.

Lemma seq_results_Ok l : seq_results l = Ok tt ↔ Forall (λ r, r = Ok tt) l.
Proof.
  induction l as [|r l IH]; [by split|]. cbn [seq_results]. rewrite Forall_cons, <-IH.
  destruct r as [[]|]; cbn; [naive_solver|]. split; [done|by intros [? _]].
Qed.

Definition depth_spec (v : value) : Prop := ∀ level, 0 <= level →
  depth v level = Ok tt ↔
  no_float v = true ∧ level <= 4 ∧ Z.of_nat (nesting v) + level <= 4.

Lemma max_list_bound l n :
  Z.of_nat (max_list l) <= n ↔ 0 <= n ∧ Forall (λ m, Z.of_nat m <= n) l.
Proof.
  induction l as [|m l IH].
  - change (max_list []) with O. split; [by split; [lia|constructor]|lia].
  - rewrite Forall_cons. change (max_list (m :: l)) with (Nat.max m (max_list l)). split.
    + intros Hm. split_and!; [lia|lia|]. apply IH. lia.
    + intros (? & ? & ?). assert (Z.of_nat (max_list l) <= n) by (apply IH; auto). lia.
Qed.

Lemma depth_leaf v :
  is_container v = false → no_float v = true → nesting v = O → depth_spec v.
Proof.
  intros Hc Hf Hn level _. rewrite Hf, Hn.
  assert (depth v level = raise_if (4 <? level) (ValueError "json_depth")) as ->.
  { destruct v; try done; cbn; rewrite orb_false_r || rewrite andb_false_r, orb_false_r;
      unfold raise_if; by destruct (4 <? level). }
  rewrite raise_if_Ok, Z.ltb_ge. intuition lia.
Qed.

(** One level of containers, over the list of the children. *)
Lemma depth_children l level :
  Forall depth_spec l → 0 <= level →
  (raise_if! (4 <? level) || ((4 <=? level) && true) then ValueError "json_depth";
   seq_results ((λ v, depth v (level + 1)) <$> l)) = Ok tt ↔
  forallb no_float l = true ∧ level <= 4 ∧
  Z.of_nat (S (max_list (nesting <$> l))) + level <= 4.
Proof.
  intros IH Hl. rewrite andb_true_r. unfold raise_if.
  destruct (Z.ltb_spec 4 level), (Z.leb_spec 4 level); cbn -[max_list Z.of_nat]; try lia.
  1,2: split; [done|intros (_ & _ & ?); lia].
  rewrite seq_results_Ok, Forall_fmap, forallb_Forall.
  transitivity (Forall (λ v, no_float v = true ∧ Z.of_nat (nesting v) <= 3 - level) l).
  - clear -IH Hl H0. induction IH as [|v l Hv _ IH]; [by split; constructor|].
    rewrite !Forall_cons, IH. cbn. rewrite (Hv (level + 1)) by lia. intuition lia.
  - rewrite Forall_and. pose proof (max_list_bound (nesting <$> l) (3 - level)) as Hm.
    assert (Z.of_nat (S (max_list (nesting <$> l))) + level <= 4 ↔
            Z.of_nat (max_list (nesting <$> l)) <= 3 - level) as -> by lia.
    rewrite Hm, Forall_fmap. unfold compose. intuition lia.
Qed.

Lemma depth_Ok v : depth_spec v.
Proof.
  induction v as [|x|z|l|s|l IH|d IH] using value_rect'; try (by apply depth_leaf).
  - intros level _. cbn. unfold raise_if. destruct (_ || _); cbn; split; try done; by intros [? _].
  - intros level Hl. by apply depth_children.
  - intros level Hl. pose proof (depth_children d.*2 level) as H.
    rewrite Forall_fmap in H. specialize (H IH Hl). cbn [depth is_container no_float nesting].
    rewrite <-!list_fmap_compose in H.
    assert (Hn : (λ '(_, v), nesting v) <$> d = (nesting ∘ snd) <$> d).
    { apply list_fmap_ext. by intros ? []. }
    assert (Hf : forallb (λ '(_, v), no_float v) d = forallb no_float d.*2).
    { clear. induction d as [|[k v] d IH]; [done|]. cbn. by rewrite IH. }
    by rewrite Hn, Hf.
Qed.
