(* ===== verification/GatewayJson.v ===== *)
(** * Properties of the gateway's strict JSON and of its envelopes

    What [strict_json] accepts, the round trip with [json_bytes], and the
    request sequence of the IPC envelopes. *)

From S2P Require Import Prelude Bytes Json JsonFacts JsonCanon JsonScan GatewayProtocol GatewayProtocolFacts.
Import Json GatewayProtocol.

(** ** What [strict_json] accepts *)

Lemma loads_unique s v : loads strict_hooks s = Ok v → unique_keys v = true.
Proof.
  apply (loads_P strict_hooks (λ v, unique_keys v = true)); try done.
  - intros l Hl. by apply forallb_Forall.
  - intros d x Hd Hp. cbn in Hp. apply pairs_Ok in Hp as [-> Hn]; [|constructor].
    cbn [app unique_keys] in *. rewrite bool_decide_eq_true_2 by done.
    apply forallb_Forall. eapply Forall_impl; [exact Hd|]. by intros [].
  - by intros s' x [= <-].
Qed.

Lemma strict_json_Ok data v :
  strict_json data = Ok v ↔
  1 <= len data <= 4096 ∧ no_float v = true ∧ (nesting v ≤ 4)%nat ∧
  ∃ s, utf8_decode data = Ok s ∧ loads strict_hooks s = Ok v.
Proof.
  unfold strict_json. pose proof (depth_Ok v 0 ltac:(lia)) as Hd. split.
  - intros H. py_inv. bools.
    match goal with H : depth v 0 = Ok ?x |- _ => destruct x; apply Hd in H end.
    split_and!; try lia; try tauto.
    case_match; simplify_eq. py_inv. eauto.
  - intros (Hl & Hf & Hn & s & Hs & Hv).
    assert ((1 <=? len data) && (len data <=? 4096) = true) as ->.
    { apply andb_true_iff; split; apply Z.leb_le; lia. }
    rewrite Hs. cbn [negb raise_if mbind result_bind]. rewrite Hv. cbn [mbind result_bind].
    destruct Hd as [_ Hd]. rewrite Hd; [done|]. split_and!; [done|lia|lia].
Qed.

(** C32.  A document that [strict_json] accepts is 1 to 4096 bytes of UTF-8 and
    decodes to a value of at most four nested containers, without any float
    (so without [NaN] and infinities) and without a repeated key at any level. *)
Theorem strict_json_sound data v :
  strict_json data = Ok v →
  1 <= len data <= 4096 ∧ is_Ok (utf8_decode data) = true ∧
  (nesting v ≤ 4)%nat ∧ no_float v = true ∧ unique_keys v = true.
Proof.
  intros (? & ? & ? & s & Hs & Hv)%strict_json_Ok. rewrite Hs. split_and!; try done; try lia.
  by eapply loads_unique.
Qed.

Lemma strict_json_sound_witness :
  1 <= len (b "[[[[1]]]]") <= 4096 ∧ is_Ok (utf8_decode (b "[[[[1]]]]")) = true ∧
  (nesting (VList [VList [VList [VList [VInt 1]]]]) ≤ 4)%nat ∧
  no_float (VList [VList [VList [VList [VInt 1]]]]) = true ∧
  unique_keys (VList [VList [VList [VList [VInt 1]]]]) = true.
Proof. apply strict_json_sound. vm_compute. reflexivity. Defined.

(** ** The round trip *)

Lemma strict_json_dumps v :
  wf v = true → (nesting v ≤ 4)%nat → len (dumps_sorted v) <= 4096 →
  strict_json (ascii_bytes (dumps_sorted v)) = Ok (sorted_keys v).
Proof.
  intros Hw Hn Hl. apply strict_json_Ok. rewrite len_ascii_bytes. split_and!; try done.
  - destruct (dumps_head (sorted_keys v) ltac:(by apply wf_sorted)) as (c & r & Hd & _).
    unfold dumps_sorted. rewrite Hd, len_cons. pose proof (len_nonneg r). lia.
  - by apply wf_no_float, wf_sorted.
  - by rewrite nesting_sorted.
  - exists (dumps_sorted v). split; [by apply utf8_decode_ascii, ascii_dumps, wf_sorted|].
    apply loads_dumps_sorted; [apply strict_hooks_unique|done|].
    unfold recursion_limit. lia.
Qed.

Lemma json_bytes_Ok v data :
  wf v = true → (nesting v ≤ recursion_limit)%nat →
  json_bytes v = Ok data ↔
  data = ascii_bytes (dumps_sorted v) ∧ len (dumps_sorted v) <= 4096 ∧ (nesting v ≤ 4)%nat.
Proof.
  intros Hw Hr. unfold json_bytes. split.
  - intros H. py_inv.
    match goal with H : strict_json _ = Ok ?x |- _ =>
      apply strict_json_Ok in H as (Hl & _ & Hn & s & Hs & Hv) end.
    rewrite len_ascii_bytes in Hl. split_and!; try done; try lia.
    rewrite utf8_decode_ascii in Hs by (by apply ascii_dumps, wf_sorted). simplify_eq.
    rewrite loads_dumps_sorted in Hv by (done || apply strict_hooks_unique). simplify_eq.
    by rewrite nesting_sorted in Hn.
  - intros (-> & Hl & Hn). by rewrite strict_json_dumps.
Qed.

(** C31.  [json_bytes] and [strict_json] are inverse: whatever is sent is read
    back as the same Python value, its keys in the canonical order; sending
    fails exactly when the document would exceed 4096 bytes or four levels. *)
Theorem json_bytes_roundtrip v :
  wf v = true → (nesting v ≤ recursion_limit)%nat →
  (is_Ok (json_bytes v) = true ↔ len (dumps_sorted v) <= 4096 ∧ (nesting v ≤ 4)%nat) ∧
  ∀ data, json_bytes v = Ok data →
    strict_json data = Ok (sorted_keys v) ∧ py_eq v (sorted_keys v) = true.
Proof.
  intros Hw Hr. split.
  - split.
    + destruct (json_bytes v) as [data|] eqn:E; [|done]. apply json_bytes_Ok in E; tauto.
    + intros H. assert (json_bytes v = Ok (ascii_bytes (dumps_sorted v))) as ->; [|done].
      by apply json_bytes_Ok.
  - intros data (-> & ? & ?)%json_bytes_Ok; [|done..]. split; [by apply strict_json_dumps|].
    by apply py_eq_sorted.
Qed.

Definition sample_message : value :=
  VDict [(u "operation", VStr (u "poll")); (u "body", VDict []); (u "at", VInt 7)].

Lemma json_bytes_roundtrip_witness :
  (is_Ok (json_bytes sample_message) = true ↔
     len (dumps_sorted sample_message) <= 4096 ∧ (nesting sample_message ≤ 4)%nat) ∧
  ∀ data, json_bytes sample_message = Ok data →
    strict_json data = Ok (sorted_keys sample_message) ∧
    py_eq sample_message (sorted_keys sample_message) = true.
Proof.
  apply json_bytes_roundtrip; [vm_compute; reflexivity|].
  apply Nat.leb_le. vm_compute. reflexivity.
Defined.

(** ** Envelopes *)

(** The message [validate_envelope] accepts as request number [n]. *)
Definition is_request (run : pystr) (generation n : Z) (m : value) (c : pystr * list (pystr * value)) : Prop :=
  ∃ d, m = VDict d ∧ (∀ k, k ∈ keys d ↔ k ∈ envelope_fields) ∧
    d_get d (u "protocol_version") = Some (VStr IPC) ∧
    d_get d (u "server_run_id") = Some (VStr run) ∧
    d_get d (u "gateway_generation") = Some (VInt generation) ∧ 1 <= generation <= MAX_ID ∧
    d_get d (u "request_id") = Some (VInt n) ∧ 1 <= n <= MAX_ID ∧
    d_get d (u "operation") = Some (VStr c.1) ∧ d_get d (u "body") = Some (VDict c.2).

Lemma py_eq_int v z : py_eq v (VInt z) = true → (∀ b, v ≠ VBool b) → v = VInt z.
Proof. destruct v; cbn; try done; [naive_solver|]. intros ?%Z.eqb_eq. congruence. Qed.

Lemma fields_Raise v names e : fields v names = Raise e → e = ValueError "fields".
Proof. destruct v; cbn; try congruence. unfold raise_if. case_match; cbn; congruence. Qed.

Lemma integer_Raise v lo hi e : integer v lo hi = Raise e → e = ValueError "integer".
Proof. destruct v; cbn; try congruence. unfold raise_if. case_match; cbn; congruence. Qed.

Lemma seq_accept_spec v n r n' :
  seq_accept v n = (r, n') →
  (r = Ok tt ∧ n' = n + 1 ∧ v = VInt (n + 1) ∧ 1 <= n + 1 <= MAX_ID) ∨
  (∃ s, r = Raise (ValueError s) ∧ n' = n ∧ ¬ (v = VInt (n + 1) ∧ 1 <= n + 1 <= MAX_ID)).
Proof.
  unfold seq_accept. destruct (integer v 1 MAX_ID) as [z|e] eqn:E.
  - apply integer_Ok in E as [-> ?]. destruct (Z.eqb_spec z (n + 1)) as [->|]; cbn; intros [= <- <-].
    + by left.
    + right. eexists. split_and!; [done..|]. intros [[= ->] _]. lia.
  - intros [= <- <-]. right. apply integer_Raise in E as He. subst e. eexists.
    split_and!; [done..|]. intros H%integer_Ok. congruence.
Qed.

(** Every outcome of [validate_envelope]. *)
Lemma validate_envelope_spec m run gen n r n' :
  validate_envelope m run gen n = (r, n') →
  (∃ c, r = Ok c ∧ n' = n + 1 ∧ is_request run gen (n + 1) m c) ∨
  (∃ s, r = Raise (ValueError s) ∧ n' = n ∧ ∀ c, ¬ is_request run gen (n + 1) m c).
Proof.
  unfold validate_envelope, mbind, st_bind, lift, raise_when, raise_if, lift, raise.
  destruct (fields m envelope_fields) as [d|e] eqn:Ef.
  2:{ intros [= <- <-]. right. pose proof (fields_Raise _ _ _ Ef) as ->. eexists. split_and!; [done..|].
      intros c (d & -> & Hk & _). assert (fields (VDict d) envelope_fields = Ok d); [|congruence].
      by apply fields_Ok. }
  apply fields_Ok in Ef as [-> Hk].
  assert (Hi : ∀ k, k ∈ envelope_fields → ∃ v, d_item d k = Ok v ∧ d_get d k = Some v).
  { intros k Hi. apply Hk in Hi. destruct (d_item_present d k Hi) as [v Hv].
    exists v. split; [done|]. by apply d_item_Ok. }
  destruct (Hi (u "protocol_version")) as (v1 & -> & G1); [by dec_now|].
  destruct (Hi (u "server_run_id")) as (v2 & -> & G2); [by dec_now|].
  destruct (Hi (u "gateway_generation")) as (v3 & -> & G3); [by dec_now|].
  destruct (Hi (u "operation")) as (v4 & -> & G4); [by dec_now|].
  destruct (Hi (u "body")) as (v5 & -> & G5); [by dec_now|].
  destruct (Hi (u "request_id")) as (v6 & -> & G6); [by dec_now|].
  clear Hi.
  destruct (_ || _) eqn:Ec.
  { intros [= <- <-]. right. eexists. split_and!; [done..|].
    intros c (d' & [= <-] & _ & ? & ? & ? & _). simplify_eq.
    cbn in Ec. rewrite !bool_decide_eq_true_2, Z.eqb_refl in Ec by done. done. }
  apply orb_false_iff in Ec as [[E1 E2]%orb_false_iff E3]. apply negb_false_iff in E1, E2, E3.
  apply py_eq_str in E1, E2. subst v1 v2.
  destruct (integer v3 1 MAX_ID) as [g|e] eqn:Ei.
  2:{ intros [= <- <-]. right. pose proof (integer_Raise _ _ _ _ Ei) as ->.
      eexists. split_and!; [done..|]. intros c (d' & [= <-] & _ & ? & ? & ? & ? & _). simplify_eq.
      assert (integer (VInt gen) 1 MAX_ID = Ok gen); [|congruence]. by apply integer_Ok. }
  apply integer_Ok in Ei as [-> Hg]. cbn in E3. apply Z.eqb_eq in E3. subst g.
  assert (Hno : ∀ s, (∀ op body, v4 = VStr op → v5 = VDict body → ¬ (v6 = VInt (n + 1) ∧ 1 <= n + 1 <= MAX_ID)) →
    (Raise (ValueError s), n) = (r, n') →
    (∃ c, r = Ok c ∧ n' = n + 1 ∧ is_request run gen (n + 1) (VDict d) c) ∨
    (∃ s, r = Raise (ValueError s) ∧ n' = n ∧ ∀ c, ¬ is_request run gen (n + 1) (VDict d) c)).
  { intros s Hs [= <- <-]. right. eexists. split_and!; [done..|].
    intros c (d' & [= <-] & _ & _ & _ & _ & _ & ? & ? & ? & ?). simplify_eq.
    by apply (Hs _ _ eq_refl eq_refl). }
  destruct v4; try (by apply Hno). destruct v5; try (by apply Hno).
  destruct (seq_accept v6 n) as [r1 n1] eqn:Es.
  apply seq_accept_spec in Es as [(-> & -> & -> & Hn)|(x & -> & -> & Hx)].
  - intros [= <- <-]. left. eexists. split_and!; [done..|]. exists d. split_and!; done || lia.
  - apply Hno. by intros op body [= <-] [= <-].
Qed.

Lemma consume_from run gen ms : ∀ n0 r n,
  consume run gen ms n0 = (r, n) →
  ∃ k, n = n0 + Z.of_nat k ∧
    (∀ i m, (i < k)%nat → ms !! i = Some m → ∃ c, is_request run gen (n0 + Z.of_nat i + 1) m c) ∧
    match r with
    | Ok cs => k = length ms ∧ length cs = k ∧
        ∀ i c m, cs !! i = Some c → ms !! i = Some m → is_request run gen (n0 + Z.of_nat i + 1) m c
    | Raise e => (∃ s, e = ValueError s) ∧
        ∃ m, ms !! k = Some m ∧ ∀ c, ¬ is_request run gen (n0 + Z.of_nat k + 1) m c
    end.
Proof.
  induction ms as [|m ms IH]; intros n0 r n; cbn [consume].
  { intros [= <- <-]. exists O. split_and!; [lia|intros; lia|done..]. }
  unfold mbind, st_bind. destruct (validate_envelope m run gen n0) as [r1 n1] eqn:E.
  apply validate_envelope_spec in E as [(c & -> & -> & Hc)|(s & -> & -> & Hno)].
  2:{ intros [= <- <-]. exists O. split_and!; [lia|intros; lia|by eexists|].
      exists m. split; [done|]. by rewrite Z.add_0_r. }
  destruct (consume run gen ms (n0 + 1)) as [r2 n2] eqn:E2.
  apply IH in E2 as (k & -> & Hpre & Hr).
  assert (Hsh : ∀ i : nat, n0 + Z.of_nat (S i) + 1 = n0 + 1 + Z.of_nat i + 1) by lia.
  intros H. exists (S k). split; [destruct r2; injection H as _ <-; lia|]. split.
  { intros [|i] m' Hi Hm; cbn in Hm; [simplify_eq; exists c; by rewrite Z.add_0_r|].
    rewrite Hsh. apply Hpre; [lia|done]. }
  destruct r2 as [cs|e]; injection H as <- _.
  - destruct Hr as (-> & Hl & Hr). split_and!; [done|cbn; lia|].
    intros [|i] c' m' Hc' Hm; cbn in Hc', Hm; [simplify_eq; by rewrite Z.add_0_r|].
    rewrite Hsh. by apply Hr.
  - destruct Hr as (? & m' & ? & Hn). split; [done|]. exists m'. split; [done|]. by rewrite Hsh.
Qed.

(** Reading requests from the first one on, the gateway takes exactly the
    longest run of well-formed messages of its own run and generation whose
    request identifiers are [1, 2, 3, ...]: the first one out of place, repeated,
    above [MAX_ID] or otherwise malformed ends the loop with a [ValueError] and
    leaves the sequence at the last one taken. *)
Theorem consume_sequence run gen ms r n :
  consume run gen ms seq0 = (r, n) →
  ∃ k, n = Z.of_nat k ∧
    (∀ i m, (i < k)%nat → ms !! i = Some m → ∃ c, is_request run gen (Z.of_nat i + 1) m c) ∧
    (match r with
     | Ok cs => k = length ms ∧ length cs = k ∧
         ∀ i c m, cs !! i = Some c → ms !! i = Some m → is_request run gen (Z.of_nat i + 1) m c
     | Raise e => (∃ s, e = ValueError s) ∧
         ∃ m, ms !! k = Some m ∧ ∀ c, ¬ is_request run gen (Z.of_nat k + 1) m c
     end).
Proof.
  intros H. destruct (consume_from run gen ms seq0 r n H) as (k & -> & H1 & H2).
  exists k. split; [done|]. split; [exact H1|]. destruct r; [|exact H2].
  split_and!; tauto.
Qed.

Definition request1 : value := envelope (u "run") 3 1 (u "poll") [].
Definition request2 : value := envelope (u "run") 3 2 (u "stop") [].

Lemma consume_sequence_witness :
  ∃ k, 2 = Z.of_nat k ∧
    (∀ i m, (i < k)%nat → [request1; request2; request2] !! i = Some m →
       ∃ c, is_request (u "run") 3 (Z.of_nat i + 1) m c) ∧
    ((∃ s, ValueError "sequence" = ValueError s) ∧
     ∃ m, [request1; request2; request2] !! k = Some m ∧
       ∀ c, ¬ is_request (u "run") 3 (Z.of_nat k + 1) m c).
Proof.
  apply (consume_sequence (u "run") 3 [request1; request2; request2] (Raise (ValueError "sequence")) 2).
  vm_compute. reflexivity.
Defined.

(** A request written by [envelope] and [json_bytes] and read by
    [strict_json] is accepted as the next one of its run and generation, with
    the same operation and body (the body's keys in the canonical order). *)
Theorem envelope_over_the_wire run gen n op body data :
  wf (envelope run gen (n + 1) op body) = true → (nesting (VDict body) ≤ 3)%nat →
  1 <= gen <= MAX_ID → 1 <= n + 1 <= MAX_ID →
  json_bytes (envelope run gen (n + 1) op body) = Ok data →
  ∃ m body', strict_json data = Ok m ∧ sorted_keys (VDict body) = VDict body' ∧
    validate_envelope m run gen n = (Ok (op, body'), n + 1).
Proof.
  intros Hw Hnest Hgen Hn Hdata. set (e := envelope run gen (n + 1) op body) in *.
  apply json_bytes_Ok in Hdata as (-> & Hl & He); [|done|].
  2:{ unfold e, envelope. cbn [nesting fmap list_fmap max_list foldr] in Hnest |- *.
      unfold recursion_limit. cbn -[Nat.mul Nat.add]. lia. }
  assert (Hok : is_request run gen (n + 1) (sorted_keys e) (op, sorted_dict body)).
  { assert (NoDup (keys (envelope_dict run gen (n + 1) op body))) as Hnd by dec_now.
    exists (sorted_dict (envelope_dict run gen (n + 1) op body)). split; [done|].
    rewrite !d_get_sorted by done. split; [|split_and!; done || lia].
    intros k. by rewrite keys_sorted_dict. }
  exists (sorted_keys e), (sorted_dict body).
  split_and!; [by apply strict_json_dumps|done|].
  destruct (validate_envelope (sorted_keys e) run gen n) as [r n'] eqn:E.
  apply validate_envelope_spec in E as [(c & -> & -> & Hc)|(s & _ & _ & Hno)].
  - destruct Hc as (d & E & _ & _ & _ & _ & _ & _ & _ & E1 & E2).
    destruct Hok as (d' & E' & _ & _ & _ & _ & _ & _ & _ & F1 & F2).
    rewrite E in E'. destruct c. simplify_eq. cbn in *. by simplify_eq.
  - by destruct (Hno _ Hok).
Qed.

Lemma envelope_over_the_wire_witness :
  ∃ m body', strict_json (ascii_bytes (dumps_sorted request1)) = Ok m ∧
    sorted_keys (VDict []) = VDict body' ∧
    validate_envelope m (u "run") 3 0 = (Ok (u "poll", body'), 1).
Proof.
  apply (envelope_over_the_wire (u "run") 3 0 (u "poll") []);
    [vm_compute; reflexivity|cbn; lia|unfold MAX_ID; lia|unfold MAX_ID; lia|vm_compute; reflexivity].
Defined.
