(* ===== verification/GatewayLimits.v ===== *)
(** * Properties of the bounded queues and of the rate limiter

    FIFO refinement and bounds of [BoundedQueue] under any sequence of puts and
    gets; the traffic a [Rate] lets through, and the traffic it never refuses. *)

From S2P Require Import Prelude Bytes GatewayProtocol.
Import GatewayProtocol.

(** ** Bounded queues *)

Inductive queue_op :=
| QPut (t : Z) (data : bytes)   (* [put(data)] when the clock reads [t] *)
| QGet (t : Z).                 (* a [get()] resumed when the clock reads [t] *)

(** What has gone through a queue: the items taken in, in order, and those
    taken out, each with the time and the outcome of its [get]. *)
Record queue_log := Log {
  taken_in : list (Z * bytes);
  taken_out : list (Z * (Z * bytes) * result bytes) }.

Definition queue_step (op : queue_op) (s : BoundedQueue * queue_log) : BoundedQueue * queue_log :=
  let '(q, l) := s in
  match op with
  | QPut t data =>
      match q_put t data q with
      | (Ok _, q') => (q', Log (taken_in l ++ [(t, data)]) (taken_out l))
      | (Raise _, q') => (q', l)
      end
  | QGet t =>
      match q_items q, q_get t q with
      | item :: _, Some (r, q') => (q', Log (taken_in l) (taken_out l ++ [(t, item, r)]))
      | _, _ => (q, l)
      end
  end.

Definition queue_run (ops : list queue_op) (s : BoundedQueue * queue_log) :=
  foldl (λ s op, queue_step op s) s ops.

Fixpoint total_len (l : list (Z * bytes)) : Z :=
  match l with [] => 0 | x :: l => len x.2 + total_len l end.

Lemma total_len_app l k : total_len (l ++ k) = total_len l + total_len k.
Proof. induction l as [|x l IH]; cbn; [done|]. rewrite IH. lia. Qed.

Lemma total_len_nonneg l : 0 <= total_len l.
Proof. induction l as [|x l IH]; cbn; [done|]. pose proof (len_nonneg x.2). lia. Qed.

Definition outcome_ok (age : Z) (x : Z * (Z * bytes) * result bytes) : Prop :=
  let '(now, (t, data), r) := x in
  (now - t <= age ∧ r = Ok data) ∨ (age < now - t ∧ r = Raise (ValueError "queue_expired")).

Record queue_inv (count size age : Z) (s : BoundedQueue * queue_log) : Prop := {
  qi_max : maxsize s.1 = count;
  qi_limit : q_limit s.1 = size;
  qi_age : q_age s.1 = age;
  qi_bytes : q_bytes s.1 = total_len (q_items s.1);
  qi_size : q_bytes s.1 <= size;
  qi_count : len (q_items s.1) <= count;
  qi_fifo : taken_in s.2 = ((λ x, x.1.2) <$> taken_out s.2) ++ q_items s.1;
  qi_out : Forall (outcome_ok age) (taken_out s.2) }.

Lemma q_put_Ok t data q q' x :
  q_put t data q = (Ok x, q') →
  q_bytes q + len data <= q_limit q ∧ (0 < maxsize q → len (q_items q) < maxsize q) ∧
  q' = Queue (maxsize q) (q_items q ++ [(t, data)]) (q_limit q) (q_bytes q + len data) (q_age q).
Proof.
  unfold q_put, queue_full. case_match eqn:E; [done|]. intros [= _ <-].
  apply orb_false_iff in E as [E1 E2]. bools. split_and!; [done| |done].
  intros H%Z.ltb_lt. rewrite H in E2. cbn in E2. by bools.
Qed.

Lemma queue_step_inv count size age op s :
  0 < count → queue_inv count size age s → queue_inv count size age (queue_step op s).
Proof.
  intros Hc [H1 H2 H3 H4 H5 H6 H7 H8]. destruct s as [q [i o]]. cbn in *.
  destruct op as [t data|t]; cbn [queue_step].
  - destruct (q_put t data q) as [[x|e] q'] eqn:E.
    + apply q_put_Ok in E as (Hb & Hm & ->). specialize (Hm ltac:(lia)).
      split; cbn; try done; try lia.
      * rewrite total_len_app. cbn. lia.
      * rewrite len_app, len_cons, len_nil. lia.
      * by rewrite H7, <-app_assoc.
    + assert (q' = q) as -> by (unfold q_put in E; case_match; congruence). by split.
  - destruct (q_items q) as [|[t0 data] items] eqn:E; [split; cbn; by rewrite ?E|].
    unfold q_get. rewrite E. cbn [q_items] in *. rewrite len_cons in H6.
    pose proof (len_nonneg items). pose proof (len_nonneg data). cbn in H4.
    split; cbn; try done; try lia.
    + by rewrite H7, fmap_app, <-app_assoc.
    + apply Forall_app. split; [done|]. apply Forall_singleton. cbn.
      destruct (Z.ltb_spec (q_age q) (t - t0)); [right|left]; split; try done; lia.
Qed.

(** C33.  A [BoundedQueue] under any interleaving of [put] and [get]: it never
    holds more than [count] items or [size] bytes, its byte count is the exact
    sum of what it holds, the items leave in the order they came in, none lost
    and none twice, and a [get] returns the data exactly when it has not been
    queued longer than [age], otherwise it raises and the item is gone. *)
Theorem queue_refines_fifo count size age ops :
  0 < count → 0 <= size →
  queue_inv count size age (queue_run ops (new_queue count size age, Log [] [])).
Proof.
  intros Hc Hs.
  assert (Hgen : ∀ s, queue_inv count size age s → queue_inv count size age (queue_run ops s)).
  { induction ops as [|op ops IH]; intros s H; [done|]. apply IH. by apply queue_step_inv. }
  apply Hgen. split; cbn; try done. unfold len; cbn; lia.
Qed.

Lemma queue_refines_fifo_witness :
  queue_inv 64 65536 (100 * ns_per_ms)
    (queue_run [QPut 5 (b "one"); QPut 6 (b "two"); QGet 100000006; QGet 100000006]
       (default_queue, Log [] [])).
Proof. apply (queue_refines_fifo 64 65536); lia. Defined.

(** ** Rates *)

(** A run of [take]s, each at its clock reading, with the outcomes. *)
Fixpoint take_all (l : list (Z * Z)) (r : Rate) : list (Z * result unit) * Rate :=
  match l with
  | [] => ([], r)
  | (now, size) :: l =>
      let '(o, r1) := rate_take now size r in
      let '(os, r2) := take_all l r1 in
      ((size, o) :: os, r2)
  end.

Definition granted (l : list (Z * result unit)) : list Z :=
  (filter (λ x, is_Ok x.2 = true) l).*1.
Fixpoint sum_z (l : list Z) : Z := match l with [] => 0 | x :: l => x + sum_z l end.

(** Non-decreasing clock readings from [t] on, and sizes that are lengths. *)
Fixpoint clocked (t : Z) (l : list (Z * Z)) : Prop :=
  match l with
  | [] => True
  | (now, size) :: l => t <= now ∧ 0 <= size ∧ clocked now l
  end.

Definition last_time (t : Z) (l : list (Z * Z)) : Z := foldl (λ _ x, x.1) t l.

Lemma take_all_bound l : ∀ r os r' F B,
  clocked (r_at r) l → take_all l r = (os, r') →
  r_frames r <= F → r_bytes r <= B →
  let dt := last_time (r_at r) l - r_at r in
  0 <= dt ∧
  r_frames r' + len (granted os) * ns_per_s <= F + 512 * dt ∧
  r_bytes r' + sum_z (granted os) * ns_per_s <= B + 524288 * dt.
Proof.
  induction l as [|[now size] l IH]; intros r os r' F B Hc H HF HB; cbn [take_all] in H.
  { injection H as <- <-. cbn. unfold len. cbn. lia. }
  destruct Hc as (Ht & Hs & Hc).
  destruct (rate_take now size r) as [o r1] eqn:E.
  destruct (take_all l r1) as [os2 r2] eqn:E2. injection H as <- <-.
  assert (Hat : r_at r1 = now).
  { unfold rate_take in E. case_match; by simplify_eq. }
  change (last_time (r_at r) ((now, size) :: l)) with (last_time now l).
  unfold rate_take in E. rewrite Z.max_r in E by lia.
  set (k := ns_per_s) in *. assert (0 < k) by done.
  unfold granted. rewrite filter_cons. cbn [snd fst].
  case_match; injection E as <- <-; cbn [is_Ok].
  - rewrite decide_False by done. rewrite <-Hat in Hc.
    eapply (IH _ _ _ (F + 512 * (now - r_at r)) (B + 524288 * (now - r_at r))) in E2; cbn in *;
      [|done|lia..]. unfold granted in E2. lia.
  - rewrite decide_True by done. rewrite <-Hat in Hc.
    eapply (IH _ _ _ (F + 512 * (now - r_at r) - k) (B + 524288 * (now - r_at r) - size * k)) in E2;
      cbn in *; [|done|lia..].
    fold (granted os2). rewrite len_cons. lia.
Qed.

Lemma take_all_nonneg l : ∀ r os r',
  0 <= r_frames r → 0 <= r_bytes r → take_all l r = (os, r') →
  0 <= r_frames r' ∧ 0 <= r_bytes r'.
Proof.
  induction l as [|[now size] l IH]; intros r os r' Hf Hb H; cbn [take_all] in H.
  { by injection H as _ <-. }
  destruct (rate_take now size r) as [o r1] eqn:E.
  destruct (take_all l r1) as [os2 r2] eqn:E2. injection H as _ <-.
  apply IH in E2; [done|..]; unfold rate_take in E; case_match eqn:G; injection E as _ <-; cbn;
    unfold ns_per_s in *; try (apply orb_false_iff in G as [? ?]; bools); lia.
Qed.

(** C34.  What a [Rate] grants up to time [T] after its creation at [t0]: at most
    64 frames plus 512 a second, and at most 64 KiB plus 512 KiB a second,
    whatever the sizes and the times of the requests. *)
Theorem rate_bound t0 l os r :
  clocked t0 l → take_all l (new_rate t0) = (os, r) →
  let dt := last_time t0 l - t0 in
  len (granted os) * ns_per_s <= 64 * ns_per_s + 512 * dt ∧
  sum_z (granted os) * ns_per_s <= 65536 * ns_per_s + 524288 * dt.
Proof.
  intros Hc H dt.
  pose proof (take_all_bound l (new_rate t0) os r _ _ Hc H (Z.le_refl _) (Z.le_refl _)) as Hb.
  apply take_all_nonneg in H; [|done..]. cbn [r_frames r_bytes new_rate r_at] in Hb. cbn in Hb. lia.
Qed.

Lemma rate_bound_witness :
  let dt := last_time 7 [(7, 100); (8, 70000); (9, 5)] - 7 in
  len (granted [(100, Ok tt); (70000, Raise (ValueError "rate")); (5, Ok tt)]) * ns_per_s
    <= 64 * ns_per_s + 512 * dt ∧
  sum_z (granted [(100, Ok tt); (70000, Raise (ValueError "rate")); (5, Ok tt)]) * ns_per_s
    <= 65536 * ns_per_s + 524288 * dt.
Proof.
  eapply (rate_bound 7 [(7, 100); (8, 70000); (9, 5)]).
  - cbn. lia.
  - vm_compute. reflexivity.
Defined.

(** Requests at least [1/512] s apart, of at most 1 KiB each. *)
Fixpoint paced (t : Z) (l : list (Z * Z)) : Prop :=
  match l with
  | [] => True
  | (now, size) :: l => t <= now ∧ 0 <= size <= 1024 ∧ paced (now + 1953125) l
  end.

(** A peer that keeps to one frame of at most 1 KiB every [1/512] s is never
    refused. *)
Theorem rate_admits_paced t0 l :
  paced t0 l → Forall (λ x, x.2 = Ok tt) (take_all l (new_rate t0)).1.
Proof.
  assert (Hgen : ∀ l t r, paced t l → t - 1953125 <= r_at r <= t →
    1 * ns_per_s <= r_frames r + (t - r_at r) * 512 →
    1024 * ns_per_s <= r_bytes r + (t - r_at r) * 524288 →
    Forall (λ x, x.2 = Ok tt) (take_all l r).1); cycle 1.
  { intros H. apply (Hgen l t0); cbn; unfold ns_per_s; auto; lia. }
  clear. induction l as [|[now size] l IH]; intros t r Hp Ha Hf Hb; [constructor|].
  destruct Hp as (Ht & Hs & Hp). cbn [take_all].
  unfold rate_take. rewrite Z.max_r by lia. unfold ns_per_s in *.
  destruct (_ || _) eqn:G.
  { apply orb_true_iff in G as [?|?]; bools; lia. }
  match goal with |- context [take_all l ?r1] => specialize (IH (now + 1953125) r1 Hp) end.
  destruct (take_all l _) as [os r2]. cbn in *. constructor; [done|].
  apply orb_false_iff in G as [? ?]; bools. apply IH; lia.
Qed.

Lemma rate_admits_paced_witness :
  Forall (λ x, x.2 = Ok tt) (take_all [(3, 1024); (1953128, 12)] (new_rate 3)).1.
Proof. apply rate_admits_paced. cbn. lia. Defined.
