(* ===== verification/Gateway.v ===== *)
(** * The arena gateway ([src/scripts/arena_gateway.py])

    The ENet/TLS auxiliary process: its configuration, its channels, the IPC
    commands of the parent, the life of a connection from the accept to the
    retirement of its channel, and the pumps of an open channel.

    Channels are heap objects, named by their index; the dict of channels maps
    identifiers to them.  Sockets, certificates and TLS are parameters. *)

From S2P Require Import Prelude Bytes Sha256 Json JsonCanon Stream Env Dict GatewayProtocol.
Import Json Stream GatewayProtocol.

Module Gateway.

Definition status (s : string) : value := VStr (u s).

(** What the operating system and the TLS library answer. *)
Class Platform := {
  cert_fingerprint : pystr → result pystr;   (* SHA-256 of the DER of a PEM file *)
  udp_bind : nat → result Z;                 (* the port of a new loopback UDP socket *)
  udp_connect : nat → result unit }.

(** ** Configuration *)

Definition common : list pystr := [u "role"; u "cert"; u "key"; u "ca"; u "host"; u "port"].
Definition server_fields : list pystr := [u "attestors"; u "game_port"; u "game_session_id"].
Definition client_fields : list pystr := [u "gateway_pin"; u "server_name"].

(** [os.path.isabs] and the length limit. *)
Definition credential_path (v : value) : result unit :=
  match v with
  | VStr s =>
      raise_if (negb (bool_decide (head s = Some 47)) || (1024 <? len s)) (ValueError "credential_path")
  | _ => Raise (ValueError "credential_path")
  end.

(** A dotted IPv4 address, as [inet_pton] reads it: no octet above 255, no
    leading zero. *)
Fixpoint split_dots (cur : pystr) (s : pystr) : list pystr :=
  match s with
  | [] => [cur]
  | c :: s => if c =? 46 then cur :: split_dots [] s else split_dots (cur ++ [c]) s
  end.
Definition is_octet (s : pystr) : bool :=
  forallb is_digit s && (1 <=? len s) && (len s <=? 3) && (digits_value 0 s <=? 255) &&
  ((len s =? 1) || negb (bool_decide (head s = Some 48))).
Definition inet_pton (v : value) : result unit :=
  match v with
  | VStr s =>
      raise_if! negb (utf8_encodable s) then ValueError "UnicodeEncodeError";
      raise_if! bool_decide (0 ∈ s) then ValueError "embedded null character";
      let parts := split_dots [] s in
      raise_if (negb ((len parts =? 4) && forallb is_octet parts)) (OSError "illegal IP address")
  | _ => Raise TypeError
  end.

Fixpoint all_results {A B} (f : A → result B) (l : list A) : result (list B) :=
  match l with [] => Ok [] | x :: l => y ← f x; ys ← all_results f l; Ok (y :: ys) end.

Section configuration.
Context `{Platform}.

Definition server_configuration (body : dict) : result unit :=
  v ← d_item body (u "game_session_id"); _ ← hex_id v 32;
  v ← d_item body (u "game_port"); _ ← integer v 1 65535;
  v ← d_item body (u "attestors");
  match v with
  | VList l =>
      raise_if! negb ((1 <=? len l) && (len l <=? 8)) then ValueError "attestors";
      ids ← all_results (λ v, hex_id v 64) l;
      raise_if! negb (bool_decide (NoDup ids)) then ValueError "duplicate_role";
      cert ← d_item body (u "cert");
      own ← cert_fingerprint (default [] (str_of cert));
      raise_if (bool_decide (own ∈ ids)) (ValueError "overlapping_role")
  | _ => Raise (ValueError "attestors")
  end.

Definition client_configuration (body : dict) : result unit :=
  v ← d_item body (u "gateway_pin"); _ ← hex_id v 64;
  v ← d_item body (u "server_name");
  match v with
  | VStr s => raise_if (negb ((1 <=? len s) && (len s <=? 253))) (ValueError "server_name")
  | _ => Raise (ValueError "server_name")
  end.

Definition is_role (name : string) (role : option value) : bool :=
  match role with Some v => py_eq v (status name) | None => false end.

Definition configuration (body : dict) : result dict :=
  let server := is_role "server" (d_get body (u "role")) in
  _ ← fields (VDict body) (common ++ if server then server_fields else client_fields);
  raise_if! negb (server || is_role "client" (d_get body (u "role"))) then ValueError "role";
  cert ← d_item body (u "cert"); _ ← credential_path cert;
  key ← d_item body (u "key"); _ ← credential_path key;
  ca ← d_item body (u "ca"); _ ← credential_path ca;
  host ← d_item body (u "host"); _ ← inet_pton host;
  port ← d_item body (u "port"); _ ← integer port (if server then 0 else 1) 65535;
  _ ← (if server then server_configuration body else client_configuration body);
  Ok body.
End configuration.

(** ** Peers *)

(** What the TLS object of a connection says of the session. *)
Record tls_session := Tls {
  tls_version : pystr;
  alpn : option pystr;
  session_reused : bool;
  peer_certificate : bytes }.

(** [identity(writer, allowed)] *)
Definition identity (tls : option tls_session) (allowed : list pystr) : result pystr :=
  match tls with
  | None => Raise (ValueError "tls_protocol")
  | Some t =>
      raise_if! negb (bool_decide (tls_version t = u "TLSv1.3")) ||
                negb (bool_decide (alpn t = Some TUNNEL)) || session_reused t then ValueError "tls_protocol";
      let fingerprint := sha256_hex (peer_certificate t) in
      raise_if! negb (bool_decide (fingerprint ∈ allowed)) then ValueError "tls_role";
      Ok fingerprint
  end.

(** The bytes [send_control] writes. *)
Definition control_frame (message : value) : result bytes :=
  data ← json_bytes message; frame data (Some 2).

(** ** State *)

Abbreviation loc := nat.

Record Channel := MkChannel {
  ch_id : pystr;
  fingerprint : pystr;
  ch_session : pystr;
  udp_port : Z;
  origin : option Z;        (* the loopback port of the game's socket *)
  ack : bool;               (* the events [ack] and [closed] *)
  closed : bool;
  route_request : Z;
  outgoing : BoundedQueue;
  incoming : BoundedQueue;
  tx_rate : Rate;
  rx_rate : Rate }.

Inductive role := Server | Client.

#[export] Instance role_eq_dec : EqDecision role.
Proof. solve_decision. Defined.

Record Gateway := MkGateway {
  g_role : role;
  g_allowed : list pystr;       (* attestors, or the pinned gateway *)
  g_session : pystr;            (* game_session_id, of a server *)
  g_game_port : Z;
  g_run : pystr;
  g_generation : Z;
  channels : gmap pystr loc;
  g_heap : list Channel;
  retired : list Z;             (* UDP sockets kept until exit *)
  retired_ids : gset pystr;
  pending : Z;
  stopping : bool;
  tx : Z;                       (* the outgoing [Sequence] *)
  ipc : BoundedQueue }.         (* the outgoing IPC queue *)

Definition set_channels (m : gmap pystr loc) (g : Gateway) : Gateway :=
  MkGateway (g_role g) (g_allowed g) (g_session g) (g_game_port g) (g_run g) (g_generation g)
    m (g_heap g) (retired g) (retired_ids g) (pending g) (stopping g) (tx g) (ipc g).
Definition set_heap (h : list Channel) (g : Gateway) : Gateway :=
  MkGateway (g_role g) (g_allowed g) (g_session g) (g_game_port g) (g_run g) (g_generation g)
    (channels g) h (retired g) (retired_ids g) (pending g) (stopping g) (tx g) (ipc g).
Definition set_retired (l : list Z) (s : gset pystr) (g : Gateway) : Gateway :=
  MkGateway (g_role g) (g_allowed g) (g_session g) (g_game_port g) (g_run g) (g_generation g)
    (channels g) (g_heap g) l s (pending g) (stopping g) (tx g) (ipc g).
Definition set_pending (n : Z) (g : Gateway) : Gateway :=
  MkGateway (g_role g) (g_allowed g) (g_session g) (g_game_port g) (g_run g) (g_generation g)
    (channels g) (g_heap g) (retired g) (retired_ids g) n (stopping g) (tx g) (ipc g).
Definition set_stopping (g : Gateway) : Gateway :=
  MkGateway (g_role g) (g_allowed g) (g_session g) (g_game_port g) (g_run g) (g_generation g)
    (channels g) (g_heap g) (retired g) (retired_ids g) (pending g) true (tx g) (ipc g).
Definition set_ipc (n : Z) (q : BoundedQueue) (g : Gateway) : Gateway :=
  MkGateway (g_role g) (g_allowed g) (g_session g) (g_game_port g) (g_run g) (g_generation g)
    (channels g) (g_heap g) (retired g) (retired_ids g) (pending g) (stopping g) n q.

Definition ch_set_ack (c : Channel) : Channel :=
  MkChannel (ch_id c) (fingerprint c) (ch_session c) (udp_port c) (origin c) true (closed c)
    (route_request c) (outgoing c) (incoming c) (tx_rate c) (rx_rate c).
Definition ch_set_origin (port : option Z) (c : Channel) : Channel :=
  MkChannel (ch_id c) (fingerprint c) (ch_session c) (udp_port c) port (ack c) (closed c)
    (route_request c) (outgoing c) (incoming c) (tx_rate c) (rx_rate c).
Definition ch_set_closed (c : Channel) : Channel :=
  MkChannel (ch_id c) (fingerprint c) (ch_session c) (udp_port c) (origin c) (ack c) true
    (route_request c) (outgoing c) (incoming c) (tx_rate c) (rx_rate c).
Definition ch_set_request (n : Z) (c : Channel) : Channel :=
  MkChannel (ch_id c) (fingerprint c) (ch_session c) (udp_port c) (origin c) (ack c) (closed c)
    n (outgoing c) (incoming c) (tx_rate c) (rx_rate c).
Definition ch_set_tx (q : BoundedQueue) (r : Rate) (c : Channel) : Channel :=
  MkChannel (ch_id c) (fingerprint c) (ch_session c) (udp_port c) (origin c) (ack c) (closed c)
    (route_request c) q (incoming c) r (rx_rate c).
Definition ch_set_rx (q : BoundedQueue) (r : Rate) (c : Channel) : Channel :=
  MkChannel (ch_id c) (fingerprint c) (ch_session c) (udp_port c) (origin c) (ack c) (closed c)
    (route_request c) (outgoing c) q (tx_rate c) r.

Definition is_server (g : Gateway) : bool := bool_decide (g_role g = Server).

(** ** Operations *)

Section operations.
Context `{Env} `{Platform}.

Abbreviation gst := (st (world * Gateway)).

Definition self {A} (f : Gateway → A) : gst A := gets (λ s, f s.2).
Definition update (f : Gateway → Gateway) : gst unit := modify (λ s, (s.1, f s.2)).

(** The channel object at [l], and a change of its fields. *)
Definition ch_at (l : loc) : gst Channel :=
  o ← self (λ g : Gateway, g_heap g !! l);
  match (o : option Channel) with Some c => mret c | None => raise AssertionError end.
Definition ch_update (l : loc) (f : Channel → Channel) : gst unit :=
  update (λ g, set_heap (alter f l (g_heap g)) g).

(** [socket.connect] of a UDP socket to a loopback port. *)
Definition connect_udp : gst unit := n ← on_world event; lift (udp_connect n).

(** [Channel(gateway, channel_id, ..., fingerprint, session)]: the object is on
    the heap when the constructor returns. *)
Definition new_channel (channel_id : value) (fp : pystr) (session : value) : gst loc :=
  id ← lift (hex_id channel_id 32);
  sid ← lift (hex_id session 32);
  n ← on_world event;
  port ← lift (udp_bind n);
  server ← self is_server;
  game ← self g_game_port;
  _ ← (if (server : bool) then connect_udp else mret tt);
  t1 ← on_world clock;
  t2 ← on_world clock;
  h ← self g_heap;
  let c := MkChannel id fp sid port (if (server : bool) then Some game else None) false false 0
             default_queue default_queue (new_rate t1) (new_rate t2) in
  _ ← update (set_heap (h ++ [c]));
  mret (length h).

(** [Channel.acknowledge(body)] *)
Definition acknowledge (l : loc) (body : dict) : gst unit :=
  server ← self is_server;
  _ ← lift (fields (VDict body)
        ([u "channel_id"; u "route_request_id"] ++ if (server : bool) then [] else [u "client_port"]));
  c ← ch_at l;
  id ← lift (d_item body (u "channel_id"));
  _ ← raise_when (negb (py_eq id (VStr (ch_id c)))) (ValueError "route_ack");
  req ← lift (d_item body (u "route_request_id"));
  n ← lift (integer req 1 MAX_ID);
  _ ← raise_when (negb (n =? route_request c) || ack c || closed c) (ValueError "route_ack");
  _ ← (if (server : bool) then mret tt else
         v ← lift (d_item body (u "client_port"));
         port ← lift (integer v 1 65535);
         _ ← ch_update l (ch_set_origin (Some port));
         connect_udp);
  ch_update l ch_set_ack.

(** [emit(operation, body)]: the request number is used up even when the queue
    refuses the frame. *)
Definition emit (operation : pystr) (body : dict) : gst Z :=
  run ← self g_run;
  generation ← self g_generation;
  request ← zoom (λ s, tx s.2) (λ n s, (s.1, set_ipc n (ipc s.2) s.2)) seq_next;
  data ← lift (json_bytes (envelope run generation request operation body));
  wire ← lift (frame data None);
  t ← on_world clock;
  _ ← zoom (λ s, ipc s.2) (λ q s, (s.1, set_ipc (tx s.2) q s.2)) (q_put t wire);
  mret request.

(** [self.channels.get(key)]: an unhashable key raises. *)
Definition channel_get (key : option value) : gst (option loc) :=
  match key with
  | Some (VList _) | Some (VDict _) => raise TypeError
  | Some (VStr s) => self (λ g, channels g !! s)
  | _ => mret None
  end.

Definition is_retired (key : option value) (g : Gateway) : bool :=
  match key with Some (VStr s) => bool_decide (s ∈ retired_ids g) | _ => false end.

(** [Gateway.command(operation, body)] *)
Definition command (operation : pystr) (body : dict) : gst unit :=
  if decide (operation = u "HEARTBEAT") then _ ← lift (fields (VDict body) []); mret tt
  else if decide (operation = u "SHUTDOWN") then _ ← lift (fields (VDict body) []); raise EOFError
  else if decide (operation = u "ROUTE_ACK") then
    o ← channel_get (d_get body (u "channel_id"));
    match o with
    | None => raise (ValueError "unknown_route")
    | Some l => acknowledge l body
    end
  else if decide (operation = u "ROUTE_CLOSE") then
    _ ← lift (fields (VDict body) [u "channel_id"]);
    o ← channel_get (d_get body (u "channel_id"));
    match o with
    | None =>
        old ← self (is_retired (d_get body (u "channel_id")));
        if (old : bool) then mret tt else raise (ValueError "unknown_route")
    | Some l => ch_update l ch_set_closed
    end
  else raise (ValueError "ipc_operation").

(** [Gateway.advertise], up to its [await] and from it. *)
Definition route_open (c : Channel) (remote_run : pystr) : dict :=
  [(u "channel_id", VStr (ch_id c)); (u "attestor", VStr (fingerprint c));
   (u "address", VStr (u "127.0.0.1")); (u "port", VInt (udp_port c));
   (u "remote_run_id", VStr remote_run); (u "game_session_id", VStr (ch_session c))].
Definition advertise_begin (l : loc) (remote_run : pystr) : gst unit :=
  c ← ch_at l;
  request ← emit (u "ROUTE_OPEN") (route_open c remote_run);
  ch_update l (ch_set_request request).
Definition advertise_end (l : loc) : gst unit :=
  c ← ch_at l;
  raise_when (closed c) (ValueError "closed_route").

(** [Gateway.retire(channel)], up to the closing of the writer. *)
Definition retire (l : loc) : gst unit :=
  _ ← ch_update l ch_set_closed;
  c ← ch_at l;
  _ ← update (λ g, set_channels (delete (ch_id c) (channels g)) g);
  _ ← update (λ g, set_retired (retired g ++ [udp_port c]) ({[ch_id c]} ∪ retired_ids g) g);
  stop ← self stopping;
  if (stop : bool) then mret tt
  else _ ← emit (u "ROUTE_CLOSE") [(u "channel_id", VStr (ch_id c))]; mret tt.

(** No room for one more channel. *)
Definition full (g : Gateway) : bool :=
  (8 <=? Z.of_nat (size (channels g))) ||
  (256 <=? Z.of_nat (size (channels g)) + len (retired g)).

(** [Gateway.serve_socket], the part between the TLS handshake and the OPEN
    message: a channel of its own, registered. *)
Definition serve_open (tls : option tls_session) : gst loc :=
  allowed ← self g_allowed;
  fp ← lift (identity tls allowed);
  no_room ← self full;
  _ ← raise_when no_room (ValueError "route_capacity");
  id ← on_world (token_hex 16);
  taken ← self (λ g, bool_decide (is_Some (channels g !! id)) || bool_decide (id ∈ retired_ids g));
  _ ← raise_when taken (ValueError "channel_collision");
  session ← self g_session;
  l ← new_channel (VStr id) fp (VStr session);
  _ ← update (λ g, set_channels (<[id := l]> (channels g)) g);
  mret l.

(** The OPEN message and its acknowledgement. *)
Definition opening (operation : string) (run channel session : pystr) : dict :=
  [(u "operation", status operation); (u "protocol_version", VStr TUNNEL); (u "profile", VStr PROFILE);
   (u "server_run_id", VStr run); (u "channel_id", VStr channel); (u "game_session_id", VStr session)].
Definition opening_of (operation : string) (g : Gateway) (c : Channel) : dict :=
  opening operation (g_run g) (ch_id c) (g_session g).
Definition send_opening (l : loc) : gst bytes :=
  c ← ch_at l;
  message ← self (λ g, opening_of "OPEN" g c);
  lift (control_frame (VDict message)).

(** The OPEN_ACK read by the server, up to the [await] in [advertise]. *)
Definition serve_ack (l : loc) (kind : Z) (data : bytes) : gst unit :=
  c ← ch_at l;
  expected ← self (λ g, opening_of "OPEN_ACK" g c);
  _ ← raise_when (negb (kind =? 2)) (ValueError "open_ack");
  message ← lift (strict_json data);
  _ ← raise_when (negb (py_eq message (VDict expected))) (ValueError "open_ack");
  run ← self g_run;
  advertise_begin l run.

(** [Gateway.connect], from the OPEN message to the sending of OPEN_ACK, which is
    returned with the server's run. *)
Definition open_fields : list pystr :=
  [u "operation"; u "protocol_version"; u "profile"; u "server_run_id"; u "channel_id"; u "game_session_id"].
Definition check_opening (kind : Z) (message : value) : result (dict * pystr) :=
  d ← fields message open_fields;
  raise_if! negb (kind =? 2) then ValueError "open_context";
  operation ← d_item d (u "operation");
  version ← d_item d (u "protocol_version");
  profile ← d_item d (u "profile");
  raise_if! negb (py_eq operation (status "OPEN")) || negb (py_eq version (VStr TUNNEL)) ||
            negb (py_eq profile (VStr PROFILE)) then ValueError "open_context";
  run ← d_item d (u "server_run_id");
  run ← hex_id run 32;
  Ok (d, run).
Definition connect_open (own : result pystr) (kind : Z) (data : bytes) : gst (loc * pystr * dict) :=
  message ← lift (strict_json data);
  dr ← lift (check_opening kind message);
  fp ← lift own;
  id ← lift (d_item dr.1 (u "channel_id"));
  session ← lift (d_item dr.1 (u "game_session_id"));
  l ← new_channel id fp session;
  c ← ch_at l;
  _ ← update (λ g, set_channels (<[ch_id c := l]> (channels g)) g);
  mret (l, dr.2, d_set dr.1 (u "operation") (status "OPEN_ACK")).
Definition connect_ack (message : dict) : gst bytes := lift (control_frame (VDict message)).
Definition connect_ready (l : loc) (run : pystr) : gst unit :=
  _ ← emit (u "READY") [(u "port", VInt 0)];
  advertise_begin l run.
End operations.

(** ** The pumps of an open channel ([Channel.forward])

    What its tasks do between two [await]s; [UdpRead] and [TlsRead] carry what
    the [await] returned. *)

Inductive pump :=
| UdpRead (data : bytes) (from : pystr * Z)
| TlsWrite
| TlsRead (kind : Z) (data : bytes)
| UdpWrite
| Beat.

Inductive pumped :=
| Quiet
| Ended                      (* a task of [forward] returned *)
| ToTunnel (wire : bytes)    (* written to the TLS connection *)
| ToGame (data : bytes).     (* sent from the UDP socket *)

Definition loopback (port : Z) : pystr * Z := (u "127.0.0.1", port).
Definition from_origin (from : pystr * Z) (c : Channel) : bool :=
  bool_decide (Some from = loopback <$> origin c).
Definition control (operation : string) : value := VDict [(u "operation", status operation)].

Section pumps.
Context `{Env}.

Abbreviation cst := (st (world * Channel)).

Definition take_tx (size : Z) : cst unit :=
  t ← on_world clock;
  zoom (λ s, tx_rate s.2) (λ r s, (s.1, ch_set_tx (outgoing s.2) r s.2)) (rate_take t size).
Definition take_rx (size : Z) : cst unit :=
  t ← on_world clock;
  zoom (λ s, rx_rate s.2) (λ r s, (s.1, ch_set_rx (incoming s.2) r s.2)) (rate_take t size).
Definition put_out (wire : bytes) : cst unit :=
  t ← on_world clock;
  zoom (λ s, outgoing s.2) (λ q s, (s.1, ch_set_tx q (tx_rate s.2) s.2)) (q_put t wire).
Definition put_in (data : bytes) : cst unit :=
  t ← on_world clock;
  zoom (λ s, incoming s.2) (λ q s, (s.1, ch_set_rx q (rx_rate s.2) s.2)) (q_put t data).

(** [await queue.get()], [None] while it is empty. *)
Definition get_out : cst (option bytes) := λ s,
  let w := (clock s.1).2 in
  match q_get (mono w) (outgoing s.2) with
  | None => (Ok None, s)
  | Some (r, q) => (Some <$> r, (w, ch_set_tx q (tx_rate s.2) s.2))
  end.
Definition get_in : cst (option bytes) := λ s,
  let w := (clock s.1).2 in
  match q_get (mono w) (incoming s.2) with
  | None => (Ok None, s)
  | Some (r, q) => (Some <$> r, (w, ch_set_rx q (rx_rate s.2) s.2))
  end.

Definition udp_reader (data : bytes) (from : pystr * Z) : cst pumped :=
  _ ← take_tx (len data);
  own ← gets (λ s, from_origin from s.2);
  if (own : bool) then wire ← lift (frame data (Some 1)); _ ← put_out wire; mret Quiet
  else mret Quiet.
Definition tls_reader (kind : Z) (data : bytes) : cst pumped :=
  _ ← take_rx (len data);
  if kind =? 1 then _ ← put_in data; mret Quiet
  else
    message ← lift (strict_json data);
    d ← lift (fields message [u "operation"]);
    operation ← lift (d_item d (u "operation"));
    if py_eq operation (status "CLOSE") then mret Ended
    else _ ← raise_when (negb (py_eq operation (status "HEARTBEAT"))) (ValueError "unexpected_control");
         mret Quiet.
Definition tls_writer : cst pumped :=
  o ← get_out; mret (match o with Some wire => ToTunnel wire | None => Quiet end).
Definition udp_writer : cst pumped :=
  o ← get_in; mret (match o with Some data => ToGame data | None => Quiet end).
Definition heartbeat : cst pumped :=
  wire ← lift (control_frame (control "HEARTBEAT")); _ ← put_out wire; mret Quiet.

Definition pump_step (p : pump) : cst pumped :=
  match p with
  | UdpRead data from => udp_reader data from
  | TlsWrite => tls_writer
  | TlsRead kind data => tls_reader kind data
  | UdpWrite => udp_writer
  | Beat => heartbeat
  end.
End pumps.

(** ** Starting and stopping *)

Definition text (d : dict) (k : string) : pystr :=
  match d_get d (u k) with Some (VStr s) => s | _ => [] end.
Definition number (d : dict) (k : string) : Z :=
  match d_get d (u k) with Some (VInt z) => z | _ => 0 end.
Definition texts (d : dict) (k : string) : list pystr :=
  match d_get d (u k) with Some (VList l) => omap str_of l | _ => [] end.

(** [Gateway(config, run, generation, emit)]; the outgoing queue and sequence are
    the ones of [stdio_main]. *)
Definition new_gateway `{Platform} (config : dict) (run generation : value) : result Gateway :=
  config ← configuration config;
  run ← hex_id run 32;
  generation ← integer generation 1 MAX_ID;
  let server := is_role "server" (d_get config (u "role")) in
  Ok (MkGateway (if server then Server else Client)
        (if server then texts config "attestors" else [text config "gateway_pin"])
        (text config "game_session_id") (number config "game_port") run generation
        ∅ [] [] ∅ 0 false seq0 (new_queue 128 262144 (200 * ns_per_ms))).

(** [stdio_main], on its first message. *)
Definition first_message `{Platform} (message : value) : result (Gateway * Z) :=
  d ← fields message envelope_fields;
  run ← hex_id (default VNone (d_get d (u "server_run_id"))) 32;
  generation ← integer (default VNone (d_get d (u "gateway_generation"))) 1 MAX_ID;
  match validate_envelope message run generation seq0 with
  | (Ok (operation, config), rx) =>
      raise_if! negb (bool_decide (operation = u "CONFIG")) then ValueError "config_required";
      g ← new_gateway config (VStr run) (VInt generation);
      Ok (g, rx)
  | (Raise e, _) => Raise e
  end.

(** [Gateway.close], up to the cancellation of the tasks, and after it. *)
Definition close_begin (g : Gateway) : Gateway :=
  set_heap (foldr (λ l h, alter ch_set_closed l h) (g_heap g) (map_to_list (channels g)).*2) (set_stopping g).
Definition close_end (g : Gateway) : Gateway := set_retired [] (retired_ids g) (set_channels ∅ g).

(** [output()], one frame: what each call of [os.write] did, with the clock
    before it.  The bytes written, and how the frame ended: [None] while the
    script has not said. *)
Inductive wrote := Wrote (n : Z) | Blocked | WriteError (e : exn).
Fixpoint output (deadline : Z) (data : bytes) (script : list (Z * wrote)) : bytes * option (result unit) :=
  match data with
  | [] => ([], Some (Ok tt))
  | _ =>
      match script with
      | [] => ([], None)
      | (now, w) :: script =>
          if deadline <=? now then ([], Some (Raise TimeoutError))
          else match w with
               | Wrote n =>
                   if n =? 0 then ([], Some (Raise (OSError "BrokenPipeError")))
                   else let '(out, r) := output deadline (drop (Z.to_nat n) data) script in
                        (take (Z.to_nat n) data ++ out, r)
               | Blocked => output deadline data script
               | WriteError e => ([], Some (Raise e))
               end
      end
  end.

(** [str.isalpha] and [str(error).replace('_', '')] on the ASCII reasons of the
    source's own [ValueError]s; the standard library's subclasses are named by
    their class. *)
Definition is_alpha (c : Z) : bool := ((65 <=? c) && (c <=? 90)) || ((97 <=? c) && (c <=? 122)).
Definition subclasses : list string :=
  ["UnicodeDecodeError"; "UnicodeEncodeError"; "JSONDecodeError"]%string.
Definition os_subclasses : list string :=
  ["BrokenPipeError"; "ConnectionRefusedError"; "ConnectionResetError"; "FileNotFoundError";
   "PermissionError"; "SSLError"; "SSLCertVerificationError"; "gaierror"]%string.
Definition plain_reason (s : string) : bool :=
  let r := filter (λ c, c ≠ 95) (u s) in forallb is_alpha r && negb (len r =? 0).
Definition diagnostic (e : exn) : string :=
  match e with
  | ValueError s =>
      if bool_decide (s ∈ subclasses) then s else if plain_reason s then s else "ValueError"
  | TimeoutError => "TimeoutError"
  | IncompleteReadError => "IncompleteReadError"
  | KeyError => "KeyError"
  | TypeError => "TypeError"
  | OSError s => if bool_decide (s ∈ os_subclasses) then s else "OSError"
  | _ => EmptyString
  end%string.

(** [stdio_main]'s own [except EOFError], then [main]'s: the exit code and the
    line on stderr. *)
Definition stdio_outcome (r : result unit) : result unit :=
  match r with Raise e => if is_EOFError e then Ok tt else Raise e | r => r end.
Definition main (r : result unit) : result (Z * option string) :=
  match stdio_outcome r with
  | Ok _ => Ok (0, None)
  | Raise e =>
      if is_OSError e || is_ValueError e || bool_decide (e ∈ [IncompleteReadError; KeyError; TypeError])
      then Ok (1, Some ("GATEWAY_CLOSED: " ++ diagnostic e)%string) else Raise e
  end.

End Gateway.
