(* ===== verification/GatewayRun.v ===== *)
(** * Runs of the arena gateway

    The accept loop, the connections, the parent's commands and the pumps,
    interleaved in any order: the steps, the invariant of every reachable state
    and what it says of channels and quotas. *)

From S2P Require Import Prelude Bytes Json JsonCanon Env Dict GatewayProtocol GatewayProtocolFacts GatewayLimits Gateway.
Import Json GatewayProtocol Gateway.

(** Where a task of the gateway is suspended. *)
Inductive phase :=
| Handshake                            (* [serve_socket]: the TLS handshake *)
| Opening (l : loc)                    (* the channel is registered; no [await] here *)
| AwaitAck (l : loc)                   (* OPEN sent *)
| Dialling                             (* [connect]: the TLS handshake *)
| AwaitOpen                            (* the OPEN message *)
| Acking (l : loc) (run : pystr)       (* OPEN_ACK written *)
| AwaitRoute (l : loc)                 (* ROUTE_OPEN emitted *)
| Forwarding (l : loc)
| Gone.

(** What has happened to a channel. *)
Inductive entry :=
| Opened (l : loc)
| OpenAcked (l : loc)
| Routed (l : loc) (request : Z)
| Acked (l : loc) (body : dict)
| Forwarded (l : loc)
| Retired (l : loc).

Definition entry_loc (e : entry) : loc :=
  match e with
  | Opened l | OpenAcked l | Routed l _ | Acked l _ | Forwarded l | Retired l => l
  end.

Record sys := Sys {
  s_w : world;
  s_g : Gateway;
  s_tasks : list phase;
  s_log : list entry }.

(** What the event loop runs next. *)
Inductive action :=
| AAccept                                             (* a connection at the listener *)
| ATls (i : nat) (tls : result (option tls_session))  (* the handshake of task [i] is over *)
| AFrame (i : nat) (read : result (Z * bytes))        (* [read_frame] returned *)
| ADrained (i : nat) (r : result unit)
| ARoute (i : nat) (r : result unit)                  (* [wait_for(ack.wait(), 1)] *)
| APump (i : nat) (p : pump)
| AEnd (i : nat)                                      (* cancelled, or [forward] is over *)
| ACommand (operation : pystr) (body : dict)
| ABeat                                               (* the IPC heartbeat *)
| AStdout                                             (* a frame leaves for the parent *)
| AStop.

Section run.
Context `{Env} `{Platform}.
Context (own : result pystr).   (* the fingerprint of a client's own certificate *)

Abbreviation gst := (st (world * Gateway)).

(** The [finally] clauses of [serve_socket] and [connect]. *)
Definition leave (o : option loc) : gst unit :=
  server ← self is_server;
  _ ← (if (server : bool) then update (λ g, set_pending (pending g - 1) g) else mret tt);
  match o with Some l => retire l | None => mret tt end.

Definition on_gateway {A} (m : gst A) (s : sys) : result A * sys :=
  let '(r, (w, g)) := m (s_w s, s_g s) in (r, Sys w g (s_tasks s) (s_log s)).
Definition move (i : nat) (p : phase) (s : sys) : sys :=
  Sys (s_w s) (s_g s) (<[i := p]> (s_tasks s)) (s_log s).
Definition note (es : list entry) (s : sys) : sys :=
  Sys (s_w s) (s_g s) (s_tasks s) (s_log s ++ es).

(** Task [i] ends, with or without a channel. *)
Definition finish (i : nat) (o : option loc) (s : sys) : sys :=
  let s := (on_gateway (leave o) s).2 in
  move i Gone (note (match o with Some l => [Retired l] | None => [] end) s).

(** Task [i] runs [m]; on an exception it ends. *)
Definition task {A} (i : nat) (o : option loc) (m : gst A) (k : A → sys → sys) (s : sys) : sys :=
  match on_gateway m s with
  | (Ok a, s) => k a s
  | (Raise _, s) => finish i o s
  end.

Definition request_of (l : loc) (s : sys) : Z :=
  match g_heap (s_g s) !! l with Some c => route_request c | None => 0 end.

(** A pump of the channel at [l]. *)
Definition pump_at (l : loc) (p : pump) : gst pumped :=
  c ← ch_at l;
  r ← (λ s, let '(r, (w, c')) := pump_step p (s.1, c) in (Ok r, (w, set_heap (<[l := c']> (g_heap s.2)) s.2)));
  lift r.

(** The end of [forward] gives the place back in [pending]; the [finally] of
    [serve_socket] takes it again. *)
Definition end_forward : gst unit :=
  server ← self is_server;
  if (server : bool) then update (λ g, set_pending (pending g + 1) g) else mret tt.

Definition step_task (act : action) (i : nat) (p : phase) (s : sys) : sys :=
  match act, p with
  | ATls _ tls, Handshake =>
      task i None (tls ← lift tls; serve_open tls) (λ l,
        task i (Some l) (send_opening l) (λ _ s, move i (AwaitAck l) (note [Opened l] s))) s
  | ATls _ tls, Dialling =>
      task i None (tls ← lift tls; allowed ← self g_allowed; lift (identity tls allowed))
        (λ _ s, move i AwaitOpen s) s
  | AFrame _ read, AwaitAck l =>
      task i (Some l) (kd ← lift read; serve_ack l kd.1 kd.2)
        (λ _ s, move i (AwaitRoute l) (note [OpenAcked l; Routed l (request_of l s)] s)) s
  | AFrame _ read, AwaitOpen =>
      task i None (kd ← lift read; connect_open own kd.1 kd.2) (λ '(l, run, message),
        task i (Some l) (connect_ack message) (λ _ s, move i (Acking l run) (note [Opened l] s))) s
  | ADrained _ r, Acking l run =>
      task i (Some l) (_ ← lift r; connect_ready l run)
        (λ _ s, move i (AwaitRoute l) (note [OpenAcked l; Routed l (request_of l s)] s)) s
  | ARoute _ r, AwaitRoute l =>
      if is_Ok r && negb (match g_heap (s_g s) !! l with Some c => ack c | None => false end) then s
      else task i (Some l)
        (_ ← lift r; _ ← advertise_end l; server ← self is_server;
         if (server : bool) then update (λ g, set_pending (pending g - 1) g) else mret tt)
        (λ _ s, move i (Forwarding l) (note [Forwarded l] s)) s
  | APump _ q, Forwarding l =>
      match on_gateway (pump_at l q) s with
      | (Ok (Quiet | ToTunnel _ | ToGame _), s) => s
      | (Ok Ended, s) | (Raise _, s) => finish i (Some l) (on_gateway end_forward s).2
      end
  | AEnd _, Forwarding l => finish i (Some l) (on_gateway end_forward s).2
  | AEnd _, (AwaitAck l | Acking l _ | AwaitRoute l) => finish i (Some l) s
  | AEnd _, (Handshake | Dialling | AwaitOpen) => finish i None s
  | _, _ => s
  end.

Definition step (act : action) (s : sys) : sys :=
  match act with
  | AAccept =>
      let g := s_g s in
      if negb (is_server g) || (4 <=? pending g) || full g then s
      else Sys (s_w s) (set_pending (pending g + 1) g) (s_tasks s ++ [Handshake]) (s_log s)
  | ATls i _ | AFrame i _ | ADrained i _ | ARoute i _ | APump i _ | AEnd i =>
      match s_tasks s !! i with Some p => step_task act i p s | None => s end
  | ACommand operation body =>
      match on_gateway (command operation body) s with
      | (Ok _, s') =>
          match bool_decide (operation = u "ROUTE_ACK"), channels (s_g s) !! text body "channel_id" with
          | true, Some l => note [Acked l body] s'
          | _, _ => s'
          end
      | (Raise _, s') => s'
      end
  | ABeat => (on_gateway (emit (u "HEARTBEAT") []) s).2
  | AStdout =>
      let w := (clock (s_w s)).2 in
      match q_get (mono w) (ipc (s_g s)) with
      | Some (_, q) => Sys w (set_ipc (tx (s_g s)) q (s_g s)) (s_tasks s) (s_log s)
      | None => s
      end
  | AStop => Sys (s_w s) (close_begin (s_g s)) (s_tasks s) (s_log s)
  end.

Definition run (acts : list action) (s : sys) : sys := foldl (λ s act, step act s) s acts.

(** A gateway that has been configured: a server listens, a client connects. *)
Definition start (w : world) (g : Gateway) : sys :=
  Sys w g (if is_server g then [] else [Dialling]) [].
End run.

(** ** What the invariant sees of a gateway *)

Definition core (c : Channel) : pystr * bool * Z := (ch_id c, ack c, route_request c).

Record view := View {
  v_role : role;
  v_channels : gmap pystr loc;
  v_retired : list Z;
  v_ids : gset pystr;
  v_pending : Z;
  v_chans : list (pystr * bool * Z) }.

Definition view_of (g : Gateway) : view :=
  View (g_role g) (channels g) (retired g) (retired_ids g) (pending g) (core <$> g_heap g).

Definition v_set_pending (n : Z) (v : view) : view :=
  View (v_role v) (v_channels v) (v_retired v) (v_ids v) n (v_chans v).
Definition v_set_chans (cs : list (pystr * bool * Z)) (v : view) : view :=
  View (v_role v) (v_channels v) (v_retired v) (v_ids v) (v_pending v) cs.
Definition v_open (id : pystr) (v : view) : view :=
  View (v_role v) (<[id := length (v_chans v)]> (v_channels v)) (v_retired v) (v_ids v) (v_pending v)
    (v_chans v ++ [(id, false, 0)]).
Definition v_retire (id : pystr) (port : Z) (v : view) : view :=
  View (v_role v) (delete id (v_channels v)) (v_retired v ++ [port]) ({[id]} ∪ v_ids v) (v_pending v)
    (v_chans v).

(** ** The history of a channel *)

Definition history (l : loc) (log : list entry) : list entry := filter (λ e, entry_loc e = l) log.

Definition story (l : loc) (n : Z) (body : dict) : list entry :=
  [Opened l; OpenAcked l; Routed l n; Acked l body; Forwarded l].

Definition answers (id : pystr) (n : Z) (body : dict) : Prop :=
  d_get body (u "channel_id") = Some (VStr id) ∧ d_get body (u "route_request_id") = Some (VInt n).

(** The first [k] events of a channel's life. *)
Definition told (l : loc) (id : pystr) (k : nat) (h : list entry) : Prop :=
  ∃ n body, h = take k (story l n body) ∧ ((3 ≤ k)%nat → 1 <= n <= MAX_ID) ∧
    ((4 ≤ k)%nat → answers id n body).

Definition stage (p : phase) (l : loc) (c : pystr * bool * Z) (h : list entry) : Prop :=
  let '(id, a, n) := c in
  match p with
  | Opening _ => a = false ∧ n = 0 ∧ h = []
  | AwaitAck _ | Acking _ _ => a = false ∧ n = 0 ∧ h = [Opened l]
  | AwaitRoute _ => 1 <= n <= MAX_ID ∧
      ((a = false ∧ h = take 3 (story l n [])) ∨
       (a = true ∧ ∃ body, answers id n body ∧ h = take 4 (story l n body)))
  | Forwarding _ => 1 <= n <= MAX_ID ∧ a = true ∧ ∃ body, answers id n body ∧ h = story l n body
  | _ => False
  end.

Definition phase_loc (p : phase) : option loc :=
  match p with
  | Opening l | AwaitAck l | Acking l _ | AwaitRoute l | Forwarding l => Some l
  | _ => None
  end.
Definition in_role (r : role) (p : phase) : Prop :=
  match p with
  | Handshake | AwaitAck _ => r = Server
  | Dialling | AwaitOpen | Acking _ _ => r = Client
  | _ => True
  end.
(** The tasks [pending] counts. *)
Definition counted (p : phase) : Z :=
  match p with Handshake | Opening _ | AwaitAck _ | AwaitRoute _ => 1 | _ => 0 end.
Fixpoint count (ts : list phase) : Z := match ts with [] => 0 | p :: ts => counted p + count ts end.

Definition phase_ok (v : view) (log : list entry) (p : phase) : Prop :=
  in_role (v_role v) p ∧ ∀ l, phase_loc p = Some l →
    ∃ c, v_chans v !! l = Some c ∧ v_channels v !! c.1.1 = Some l ∧ stage p l c (history l log).

Definition ended (l : loc) (id : pystr) (log : list entry) : Prop :=
  ∃ k h, told l id k h ∧ history l log = h ++ [Retired l].

Record ok (v : view) (ts : list phase) (log : list entry) : Prop := {
  ok_phase : ∀ i p, ts !! i = Some p → phase_ok v log p;
  ok_distinct : ∀ i j p q l, ts !! i = Some p → ts !! j = Some q →
    phase_loc p = Some l → phase_loc q = Some l → i = j;
  ok_channels : ∀ id l, v_channels v !! id = Some l →
    (∃ c, v_chans v !! l = Some c ∧ c.1.1 = id) ∧ ∃ i p, ts !! i = Some p ∧ phase_loc p = Some l;
  ok_chans : ∀ l c, v_chans v !! l = Some c →
    v_channels v !! c.1.1 = Some l ∨ (c.1.1 ∈ v_ids v ∧ ended l c.1.1 log);
  ok_fresh : ∀ l, (length (v_chans v) ≤ l)%nat → history l log = [];
  ok_ids : ∀ id, id ∈ v_ids v → v_channels v !! id = None ∧ ∃ l c, v_chans v !! l = Some c ∧ c.1.1 = id;
  ok_once : ∀ l k c d, v_chans v !! l = Some c → v_chans v !! k = Some d → c.1.1 = d.1.1 → l = k;
  ok_size : size (v_ids v) = length (v_retired v);
  ok_pending : v_pending v = match v_role v with Server => count ts | Client => 0 end;
  ok_four : v_pending v <= 4;
  ok_eight : (size (v_channels v) ≤ 8)%nat;
  ok_total : (size (v_channels v) + length (v_retired v) ≤ 256)%nat;
  ok_client : v_role v = Client → ∃ p, ts = [p] ∧ (p = Dialling ∨ p = AwaitOpen → v_chans v = []) }.

(** ** Lemmas on histories and counts *)

Lemma history_app l log es : history l (log ++ es) = history l log ++ history l es.
Proof. apply filter_app. Qed.

Lemma history_all l es : Forall (λ e, entry_loc e = l) es → history l es = es.
Proof.
  unfold history. induction 1 as [|e es He _ IH]; [done|]. rewrite filter_cons_True by done. by rewrite IH.
Qed.
Lemma history_none l es : Forall (λ e, entry_loc e ≠ l) es → history l es = [].
Proof.
  unfold history. induction 1 as [|e es He _ IH]; [done|]. by rewrite filter_cons_False.
Qed.

Lemma history_own l log es :
  Forall (λ e, entry_loc e = l) es → history l (log ++ es) = history l log ++ es.
Proof. intros He. by rewrite history_app, (history_all l es). Qed.
Lemma history_other l k log es :
  Forall (λ e, entry_loc e = l) es → k ≠ l → history k (log ++ es) = history k log.
Proof.
  intros He Hk. rewrite history_app, (history_none k es), app_nil_r; [done|].
  eapply Forall_impl; [exact He|]. cbn. congruence.
Qed.

Lemma counted_insert i p q ts :
  ts !! i = Some p → count (<[i := q]> ts) = count ts - counted p + counted q.
Proof.
  revert i. induction ts as [|x ts IH]; intros [|i] Hi; cbn in *; try done; [|rewrite IH by done; lia].
  injection Hi as ->. lia.
Qed.
Lemma counted_app ts us : count (ts ++ us) = count ts + count us.
Proof. induction ts as [|p ts IH]; cbn; [done|]. lia. Qed.
Lemma count_nonneg ts : 0 <= count ts.
Proof. induction ts as [|p ts IH]; cbn; [done|]. destruct p; cbn; lia. Qed.

Lemma stage_told p l c h : stage p l c h → ∃ k, (k ≤ 5)%nat ∧ told l c.1.1 k h.
Proof.
  destruct c as [[id a] n]. unfold told. cbn [fst].
  destruct p; cbn [stage]; try done.
  - intros (_ & _ & ->). exists O. split; [lia|]. exists 0, []. split_and!; [done|lia|lia].
  - intros (_ & _ & ->). exists 1%nat. split; [lia|]. exists 0, []. split_and!; [done|lia|lia].
  - intros (_ & _ & ->). exists 1%nat. split; [lia|]. exists 0, []. split_and!; [done|lia|lia].
  - intros [Hn [[_ ->]|(_ & body & Ha & ->)]].
    + exists 3%nat. split; [lia|]. exists n, []. split_and!; [done|done|lia].
    + exists 4%nat. split; [lia|]. exists n, body. by split_and!.
  - intros (Hn & _ & body & Ha & ->). exists 5%nat. split; [lia|]. exists n, body. by split_and!.
Qed.
