(* ===== verification/GatewaySafety.v ===== *)
(** * Safety of the arena gateway

    The invariant of [GatewayRun] is preserved by every step; the theorems about
    every reachable state. *)

From S2P Require Import Prelude Bytes Json JsonCanon Env Dict GatewayProtocol GatewayProtocolFacts GatewayJson GatewayLimits Gateway GatewayRun.
Import Json GatewayProtocol Gateway.

(** ** Transitions of the view *)

(** Another task's channel is not touched by events and fields of [l]. *)
Lemma phase_ok_other v log es p l chans' n :
  phase_ok v log p → phase_loc p ≠ Some l → Forall (λ e, entry_loc e = l) es →
  (∀ k, k ≠ l → chans' !! k = v_chans v !! k) →
  phase_ok (v_set_pending n (v_set_chans chans' v)) (log ++ es) p.
Proof.
  intros [Hr Hp] Hl He Hc. split; [done|]. intros k Hk. destruct (Hp k Hk) as (c & H1 & H2 & H3).
  assert (k ≠ l) as Hne by congruence. exists c. cbn. rewrite Hc by done. split_and!; [done..|].
  by rewrite (history_other l k log es).
Qed.

(** A task advances: its phase, the fields of its channel and the history of
    that channel change together. *)
Definition advance (v : view) (log es : list entry) (p p' : phase) (chans' : list (pystr * bool * Z)) : Prop :=
  phase_loc p' = phase_loc p ∧ in_role (v_role v) p' ∧
  match phase_loc p with
  | None => chans' = v_chans v ∧ es = []
  | Some l => ∃ c c', v_chans v !! l = Some c ∧ chans' = <[l := c']> (v_chans v) ∧ c'.1.1 = c.1.1 ∧
      stage p' l c' (history l log ++ es) ∧ Forall (λ e, entry_loc e = l) es
  end.

Lemma advance_chans v log es p p' chans' l :
  advance v log es p p' chans' →
  (∀ c, v_chans v !! l = Some c → ∃ c', chans' !! l = Some c' ∧ c'.1.1 = c.1.1) ∧
  (∀ c', chans' !! l = Some c' → ∃ c, v_chans v !! l = Some c ∧ c'.1.1 = c.1.1) ∧
  length chans' = length (v_chans v).
Proof.
  intros (_ & _ & Ha). destruct (phase_loc p) as [k|]; [|destruct Ha as [-> _]; split_and!; eauto].
  destruct Ha as (c & c' & Hc & -> & Heq & _). rewrite length_insert.
  pose proof (lookup_lt_Some _ _ _ Hc) as Hlt.
  split_and!; [| |done]; intros d Hd; destruct (decide (l = k)) as [->|Hne].
  - exists c'. rewrite list_lookup_insert_eq by done. split; [done|congruence].
  - exists d. by rewrite list_lookup_insert_ne.
  - rewrite list_lookup_insert_eq in Hd by done. injection Hd as <-. eauto.
  - rewrite list_lookup_insert_ne in Hd by done. eauto.
Qed.

Lemma advance_history v log es p p' chans' l :
  advance v log es p p' chans' → phase_loc p ≠ Some l → history l (log ++ es) = history l log.
Proof.
  intros (_ & _ & Ha) Hl. destruct (phase_loc p) as [k|].
  - destruct Ha as (c & c' & _ & _ & _ & _ & He). apply (history_other k); [done|congruence].
  - destruct Ha as [_ ->]. by rewrite app_nil_r.
Qed.

Lemma lookup_insert_case (ts : list phase) i p' j q :
  <[i := p']> ts !! j = Some q → (j = i ∧ q = p' ∧ (i < length ts)%nat) ∨ (j ≠ i ∧ ts !! j = Some q).
Proof. intros [(<- & <- & ?)|[? ?]]%list_lookup_insert_Some; auto. Qed.

Lemma ok_update v ts log i p p' chans' es n :
  ok v ts log → ts !! i = Some p → advance v log es p p' chans' →
  n = match v_role v with Server => v_pending v - counted p + counted p' | Client => v_pending v end →
  n <= 4 → (v_role v = Client → p' = Dialling ∨ p' = AwaitOpen → chans' = []) →
  ok (v_set_pending n (v_set_chans chans' v)) (<[i := p']> ts) (log ++ es).
Proof.
  intros O Hi Ha Hn H4 Hcl. pose proof (λ l, advance_chans v log es p p' chans' l Ha) as Hch.
  pose proof (λ l, advance_history v log es p p' chans' l Ha) as Hhi.
  pose proof Ha as (Hloc & Hrole & Hadv).
  pose proof (lookup_lt_Some _ _ _ Hi) as Hlt.
  split; cbn.
  - intros j q [(-> & -> & _)|[Hne Hj]]%lookup_insert_case.
    + split; [done|]. intros l Hl. rewrite Hloc in Hl. rewrite Hl in Hadv.
      destruct Hadv as (c & c' & Hc & -> & Heq & Hst & He).
      exists c'. cbn. rewrite list_lookup_insert_eq by (by eapply lookup_lt_Some).
      destruct (ok_phase _ _ _ O _ _ Hi) as [_ Hp]. destruct (Hp l Hl) as (c0 & Hc0 & Hid & _).
      rewrite Hc in Hc0. injection Hc0 as <-. rewrite Heq. split_and!; [done..|].
      by rewrite (history_own l log es).
    + destruct (phase_loc p) as [l|] eqn:Hl.
      * destruct Hadv as (c & c' & Hc & -> & Heq & Hst & He).
        apply (phase_ok_other _ _ _ _ l); [by eapply ok_phase| |done|].
        -- intros Hq. apply Hne. eapply (ok_distinct _ _ _ O); eauto.
        -- intros k Hk. by rewrite list_lookup_insert_ne.
      * destruct Hadv as [-> ->]. rewrite app_nil_r. exact (ok_phase _ _ _ O _ _ Hj).
  - intros j k q q' l Hj Hk Hq Hq'.
    assert (Hback : ∀ j q, <[i := p']> ts !! j = Some q → ∃ q0, ts !! j = Some q0 ∧ phase_loc q0 = phase_loc q).
    { intros j0 q0 [(-> & -> & _)|[_ ?]]%lookup_insert_case; [|by eauto]. exists p. by rewrite Hloc. }
    apply Hback in Hj as (q1 & Hj & E1). apply Hback in Hk as (q2 & Hk & E2).
    apply (ok_distinct _ _ _ O j k q1 q2 l); congruence.
  - intros id l Hid. apply (ok_channels _ _ _ O) in Hid as [(c & Hc & Hci) (j & q & Hj & Hq)]. split.
    + apply (Hch l) in Hc as (c' & ? & ?). exists c'. split; [done|congruence].
    + destruct (decide (j = i)) as [->|Hne].
      * exists i, p'. rewrite list_lookup_insert_eq by done. split; [done|]. rewrite Hi in Hj.
        injection Hj as ->. congruence.
      * exists j, q. by rewrite list_lookup_insert_ne.
  - intros l c' Hc'. apply (Hch l) in Hc' as (c & Hc & ->).
    apply (ok_chans _ _ _ O) in Hc as Hor. destruct Hor as [?|[? Hend]]; [by left|].
    destruct (decide (phase_loc p = Some l)) as [Hl|Hl].
    + left. destruct (ok_phase _ _ _ O _ _ Hi) as [_ Hp]. destruct (Hp l Hl) as (c0 & Hc0 & ? & _).
      rewrite Hc in Hc0. by injection Hc0 as <-.
    + right. split; [done|]. unfold ended in *. by rewrite Hhi.
  - intros l Hl. rewrite (proj2 (proj2 (Hch l))) in Hl. rewrite Hhi; [by apply (ok_fresh _ _ _ O)|].
    intros E. destruct (ok_phase _ _ _ O _ _ Hi) as [_ Hp]. destruct (Hp l E) as (c0 & Hc0 & _).
    apply lookup_lt_Some in Hc0. lia.
  - intros id Hid. apply (ok_ids _ _ _ O) in Hid as (? & l & c & Hc & ?). split; [done|].
    apply (Hch l) in Hc as (c' & ? & ?). exists l, c'. split; [done|congruence].
  - intros l k c d Hc Hd E. apply (Hch l) in Hc as (c0 & ? & ?). apply (Hch k) in Hd as (d0 & ? & ?).
    eapply (ok_once _ _ _ O); [done|done|congruence].
  - apply (ok_size _ _ _ O).
  - rewrite Hn, (counted_insert i p p' ts Hi), (ok_pending _ _ _ O). by destruct (v_role v).
  - done.
  - apply (ok_eight _ _ _ O).
  - apply (ok_total _ _ _ O).
  - intros Hc. destruct (ok_client _ _ _ O Hc) as (p0 & -> & _). destruct i as [|i]; [|done].
    exists p'. split; [done|]. auto.
Qed.

(** A new channel. *)
Definition fits (v : view) (id : pystr) : Prop :=
  v_channels v !! id = None ∧ id ∉ v_ids v ∧ (size (v_channels v) < 8)%nat ∧
  (size (v_channels v) + length (v_retired v) < 256)%nat.

Lemma ok_open v ts log i p id :
  ok v ts log → ts !! i = Some p → (p = Handshake ∨ p = AwaitOpen) → fits v id →
  ok (v_open id v) (<[i := Opening (length (v_chans v))]> ts) log.
Proof.
  intros O Hi Hp (Hf & Hni & H8 & H256). pose proof (lookup_lt_Some _ _ _ Hi) as Hlt.
  assert (Hpl : phase_loc p = None) by (destruct Hp as [-> | ->]; done).
  assert (Hold : ∀ l c, v_chans v !! l = Some c → c.1.1 ≠ id).
  { intros l c Hc <-. apply (ok_chans _ _ _ O) in Hc as [Hc|[Hc _]]; [congruence|done]. }
  assert (Hchan : ∀ l c, (v_chans v ++ [(id, false, 0)]) !! l = Some c →
    v_chans v !! l = Some c ∨ (l = length (v_chans v) ∧ c = (id, false, 0))).
  { intros l c [?|[? Hx]]%lookup_app_Some; [by left|]. right.
    apply list_lookup_singleton_Some in Hx as [? <-]. split; [lia|done]. }
  assert (Hnew : (v_chans v ++ [(id, false, 0)]) !! length (v_chans v) = Some (id, false, 0)).
  { by apply list_lookup_middle. }
  split; cbn.
  - intros j q [(-> & -> & _)|[Hne Hj]]%lookup_insert_case.
    + split; [done|]. intros l [= <-]. exists (id, false, 0). cbn. rewrite lookup_insert_eq.
      split_and!; try done. by apply (ok_fresh _ _ _ O).
    + destruct (ok_phase _ _ _ O _ _ Hj) as [Hr Hq]. split; [done|]. intros l Hl.
      destruct (Hq l Hl) as (c & Hc & Hid & Hst). exists c. cbn.
      rewrite lookup_app_l by (by eapply lookup_lt_Some).
      rewrite lookup_insert_ne by (by apply not_eq_sym, (Hold l)). done.
  - intros j k q q' l [(-> & -> & _)|[Hnj Hj]]%lookup_insert_case [(-> & -> & _)|[Hnk Hk]]%lookup_insert_case Hq Hq'.
    + done.
    + injection Hq as <-. destruct (ok_phase _ _ _ O _ _ Hk) as [_ Hx]. apply Hx in Hq' as (c & Hc & _).
      apply lookup_lt_Some in Hc. lia.
    + injection Hq' as <-. destruct (ok_phase _ _ _ O _ _ Hj) as [_ Hx]. apply Hx in Hq as (c & Hc & _).
      apply lookup_lt_Some in Hc. lia.
    + by eapply (ok_distinct _ _ _ O).
  - intros id' l [[<- <-]|[Hne Hid]]%lookup_insert_Some.
    + split; [by eexists|]. exists i, (Opening (length (v_chans v))).
      by rewrite list_lookup_insert_eq.
    + apply (ok_channels _ _ _ O) in Hid as [(c & Hc & Hci) (j & q & Hj & Hq)]. split.
      * exists c. rewrite lookup_app_l by (by eapply lookup_lt_Some). done.
      * exists j, q. rewrite list_lookup_insert_ne by (intros ->; congruence). done.
  - intros l c [Hc|[-> ->]]%Hchan; [|by left; rewrite lookup_insert_eq].
    rewrite lookup_insert_ne by (by apply not_eq_sym, (Hold l)). by apply (ok_chans _ _ _ O).
  - intros l Hl. rewrite length_app in Hl. cbn in Hl. apply (ok_fresh _ _ _ O). lia.
  - intros id' Hid. apply (ok_ids _ _ _ O) in Hid as Hx. destruct Hx as (? & l & c & Hc & ?).
    split; [rewrite lookup_insert_ne; [done|congruence]|]. exists l, c.
    rewrite lookup_app_l by (by eapply lookup_lt_Some). done.
  - intros l k c d [Hc|[-> ->]]%Hchan [Hd|[-> ->]]%Hchan E; try done.
    + by eapply (ok_once _ _ _ O).
    + by apply Hold in Hc.
    + symmetry in E. by apply Hold in Hd.
  - apply (ok_size _ _ _ O).
  - rewrite (counted_insert i p) by done. rewrite (ok_pending _ _ _ O).
    destruct (ok_phase _ _ _ O _ _ Hi) as [Hr _].
    destruct Hp as [-> | ->]; cbn in *; rewrite Hr; cbn; lia.
  - apply (ok_four _ _ _ O).
  - rewrite map_size_insert_None by done. lia.
  - rewrite map_size_insert_None by done. lia.
  - intros Hc. destruct (ok_client _ _ _ O Hc) as (p0 & -> & _). destruct i as [|i]; [|done].
    eexists. split; [done|]. by intros [?|?].
Qed.

(** A task without a channel ends, or a connection is accepted. *)
Lemma ok_accept v ts log :
  ok v ts log → v_role v = Server → v_pending v < 4 →
  ok (v_set_pending (v_pending v + 1) v) (ts ++ [Handshake]) log.
Proof.
  intros O Hr H4.
  assert (Hlk : ∀ j q, (ts ++ [Handshake]) !! j = Some q → q = Handshake ∨ ts !! j = Some q).
  { intros j q [?|[? Hx]]%lookup_app_Some; [by right|]. apply list_lookup_singleton_Some in Hx as [_ <-]. by left. }
  split; cbn.
  - intros j q [-> | Hj]%Hlk; [done|]. by apply (ok_phase _ _ _ O _ _ Hj).
  - intros j k q q' l [-> | Hj]%Hlk [-> | Hk]%Hlk Hq Hq'; try done. by eapply (ok_distinct _ _ _ O).
  - intros id l Hid. apply (ok_channels _ _ _ O) in Hid as [Hc (j & q & Hj & Hq)].
    split; [done|]. exists j, q. rewrite lookup_app_l by (by eapply lookup_lt_Some). done.
  - apply (ok_chans _ _ _ O).
  - apply (ok_fresh _ _ _ O).
  - apply (ok_ids _ _ _ O).
  - apply (ok_once _ _ _ O).
  - apply (ok_size _ _ _ O).
  - rewrite (ok_pending _ _ _ O), Hr, counted_app. cbn. lia.
  - lia.
  - apply (ok_eight _ _ _ O).
  - apply (ok_total _ _ _ O).
  - congruence.
Qed.

(** A task ends and its channel is retired. *)
Lemma ok_retire v ts log i p l c port n :
  ok v ts log → ts !! i = Some p → phase_loc p = Some l → v_chans v !! l = Some c →
  n = match v_role v with Server => v_pending v - counted p | Client => v_pending v end →
  ok (v_set_pending n (v_retire c.1.1 port v)) (<[i := Gone]> ts) (log ++ [Retired l]).
Proof.
  intros O Hi Hl Hc Hn. pose proof (lookup_lt_Some _ _ _ Hi) as Hlt.
  destruct (ok_phase _ _ _ O _ _ Hi) as [Hr Hp]. destruct (Hp l Hl) as (c0 & Hc0 & Hid & Hst).
  rewrite Hc in Hc0. injection Hc0 as <-.
  assert (Hes : Forall (λ e, entry_loc e = l) [Retired l]) by (by apply Forall_singleton).
  assert (Hsz : S (size (delete c.1.1 (v_channels v))) = size (v_channels v)).
  { rewrite map_size_delete_Some by eauto.
    assert (size (v_channels v) ≠ 0%nat) by (apply map_size_ne_0_lookup; eauto). lia. }
  assert (Hni : c.1.1 ∉ v_ids v).
  { intros Hx. apply (ok_ids _ _ _ O) in Hx as [? _]. congruence. }
  split; cbn.
  - intros j q [(-> & -> & _)|[Hne Hj]]%lookup_insert_case; [done|].
    destruct (ok_phase _ _ _ O _ _ Hj) as [Hrq Hq]. split; [done|]. intros k Hk.
    destruct (Hq k Hk) as (d & Hd & Hdi & Hdst). exists d. cbn.
    assert (k ≠ l) as Hkl. { intros ->. apply Hne. eapply (ok_distinct _ _ _ O); eauto. }
    rewrite lookup_delete_ne. 2:{ intros E. apply Hkl. by eapply (ok_once _ _ _ O). }
    rewrite (history_other l k); done.
  - intros j k q q' m [(-> & -> & _)|[Hnj Hj]]%lookup_insert_case [(-> & -> & _)|[Hnk Hk]]%lookup_insert_case Hq Hq'; try done.
    by eapply (ok_distinct _ _ _ O).
  - intros id k [Hne Hk]%lookup_delete_Some. apply (ok_channels _ _ _ O) in Hk as [(d & Hd & Hdi) (j & q & Hj & Hq)].
    split; [by exists d|]. exists j, q. rewrite list_lookup_insert_ne; [done|]. intros <-.
    rewrite Hi in Hj. injection Hj as <-. rewrite Hl in Hq. injection Hq as <-. congruence.
  - intros k d Hd. destruct (decide (k = l)) as [->|Hkl].
    + right. rewrite Hc in Hd. injection Hd as <-. split; [set_solver|].
      apply stage_told in Hst as (m & _ & Ht). exists m, (history l log). split; [done|].
      by rewrite (history_own l).
    + apply (ok_chans _ _ _ O) in Hd as Hor. destruct Hor as [Hk|[Hk Hend]].
      * left. rewrite lookup_delete_ne; [done|]. intros E. apply Hkl. symmetry. by eapply (ok_once _ _ _ O).
      * right. split; [set_solver|]. unfold ended in *. by rewrite (history_other l k).
  - intros k Hk. rewrite (history_other l k); [by apply (ok_fresh _ _ _ O)|done|].
    intros ->. apply lookup_lt_Some in Hc. lia.
  - intros id [->%elem_of_singleton | Hx]%elem_of_union.
    + split; [apply lookup_delete_eq|by exists l, c].
    + apply (ok_ids _ _ _ O) in Hx as [Hx ?]. split; [|done].
      apply lookup_delete_None. by right.
  - apply (ok_once _ _ _ O).
  - rewrite size_union, size_singleton, length_app, (ok_size _ _ _ O) by set_solver. cbn. lia.
  - rewrite Hn, (counted_insert i p) by done. rewrite (ok_pending _ _ _ O). cbn. destruct (v_role v); lia.
  - pose proof (ok_four _ _ _ O). destruct (v_role v), p; cbn in Hn; lia.
  - pose proof (ok_eight _ _ _ O). lia.
  - rewrite length_app. cbn. pose proof (ok_total _ _ _ O). lia.
  - intros Hcl. destruct (ok_client _ _ _ O Hcl) as (p0 & -> & _). destruct i as [|i]; [|done].
    exists Gone. split; [done|]. by intros [?|?].
Qed.

(** ** What the operations do to the view *)

Section effects.
Context `{Env} `{Platform}.

Abbreviation gst := (st (world * Gateway)).

(** An operation that leaves the view alone, whatever its outcome. *)
Definition unseen {A} (m : gst A) : Prop := ∀ s r s', m s = (r, s') → view_of s'.2 = view_of s.2.

Lemma unseen_bind {A B} (m : gst A) (k : A → gst B) :
  unseen m → (∀ a, unseen (k a)) → unseen (m ≫= k).
Proof.
  intros Hm Hk s r s' E. apply st_bind_inv in E as ([a|e] & s1 & E & E2); apply Hm in E.
  - apply Hk in E2. congruence.
  - destruct E2 as [_ ->]. done.
Qed.
Lemma unseen_lift {A} (a : result A) : unseen (lift a).
Proof. by intros s r s' [= _ <-]. Qed.
Lemma unseen_ret {A} (a : A) : unseen (mret a).
Proof. by intros s r s' [= _ <-]. Qed.
Lemma unseen_raise {A} e : unseen (raise e : gst A).
Proof. by intros s r s' [= _ <-]. Qed.
Lemma unseen_raise_when b e : unseen (raise_when b e).
Proof. apply unseen_lift. Qed.
Lemma unseen_self {A} (f : Gateway → A) : unseen (self f).
Proof. by intros s r s' [= _ <-]. Qed.
Lemma unseen_world {A} (m : st world A) : unseen (on_world m).
Proof. intros [w g] r [w' g'] E. apply on_world_inv in E as [_ ->]. done. Qed.
Lemma unseen_ch_at l : unseen (ch_at l).
Proof. intros s r s'. unfold ch_at, mbind, st_bind, self, gets. by destruct (g_heap s.2 !! l); intros [= _ <-]. Qed.
Lemma unseen_update (f : Gateway → Gateway) : (∀ g, view_of (f g) = view_of g) → unseen (update f).
Proof. intros Hf [w g] r s' [= _ <-]. apply Hf. Qed.
Lemma unseen_seq_next :
  unseen (zoom (λ s, tx s.2) (λ n s, (s.1, set_ipc n (ipc s.2) s.2)) seq_next).
Proof. intros [w g] r s'. unfold zoom. destruct (seq_next _). by intros [= _ <-]. Qed.
Lemma unseen_put t wire :
  unseen (zoom (λ s, ipc s.2) (λ q s, (s.1, set_ipc (tx s.2) q s.2)) (q_put t wire)).
Proof. intros [w g] r s'. unfold zoom. destruct (q_put _ _ _). by intros [= _ <-]. Qed.

#[local] Hint Resolve unseen_bind unseen_lift unseen_ret unseen_raise unseen_raise_when unseen_self
  unseen_world unseen_ch_at unseen_seq_next unseen_put : unseen.

Ltac unseen_tac := repeat first [apply unseen_bind; [solve [auto with unseen]|intros ?]|case_match];
  auto with unseen.

Lemma unseen_emit op body : unseen (emit op body).
Proof. unfold emit. unseen_tac. Qed.
Lemma unseen_connect_udp : unseen connect_udp.
Proof. unfold connect_udp. unseen_tac. Qed.

Lemma alter_insert {A} (f : A → A) (l : list A) i x : l !! i = Some x → alter f i l = <[i := f x]> l.
Proof. revert i. induction l as [|y l IH]; intros [|i] E; cbn in *; try done; [congruence|]. by rewrite IH. Qed.

Lemma core_alter (f : Channel → Channel) (k : pystr * bool * Z → pystr * bool * Z) l (h : list Channel) :
  (∀ c, core (f c) = k (core c)) → core <$> alter f l h = alter k l (core <$> h).
Proof.
  intros Hf. revert l. induction h as [|c h IH]; intros [|l]; cbn; try done; [by rewrite Hf|].
  f_equal. apply IH.
Qed.

Lemma ch_update_view l f k c s r s' :
  (∀ c, core (f c) = k (core c)) → v_chans (view_of s.2) !! l = Some c →
  ch_update l f s = (r, s') →
  r = Ok tt ∧ view_of s'.2 = v_set_chans (<[l := k c]> (v_chans (view_of s.2))) (view_of s.2).
Proof.
  intros Hf Hc [= <- <-]. split; [done|]. cbn. unfold view_of, v_set_chans; cbn. f_equal.
  rewrite (core_alter f k) by done. by apply alter_insert.
Qed.

Lemma alter_id {A} (f : A → A) i (l : list A) : (∀ x, f x = x) → alter f i l = l.
Proof.
  intros Hf. revert i. induction l as [|y l IH]; intros [|i]; cbn; try done; [by rewrite Hf|].
  f_equal. apply IH.
Qed.
Lemma unseen_ch_update l f : (∀ c, core (f c) = core c) → unseen (ch_update l f).
Proof.
  intros Hf. apply unseen_update. intros g. unfold view_of; cbn. f_equal.
  rewrite (core_alter f id) by done. by apply alter_id.
Qed.

Lemma ch_at_Ok l s c s' : ch_at l s = (Ok c, s') → s' = s ∧ g_heap s.2 !! l = Some c.
Proof.
  unfold ch_at, mbind, st_bind, self, gets. destruct (g_heap s.2 !! l); [|done]. by intros [= -> ->].
Qed.
Lemma ch_at_some l s c : g_heap s.2 !! l = Some c → ch_at l s = (Ok c, s).
Proof. intros E. unfold ch_at, mbind, st_bind, self, gets. by rewrite E. Qed.

Lemma chans_lookup g l c :
  v_chans (view_of g) !! l = Some c → ∃ ch, g_heap g !! l = Some ch ∧ core ch = c.
Proof. cbn. intros (ch & -> & ?)%list_lookup_fmap_Some. eauto. Qed.

Lemma emit_request op body s n s' : emit op body s = (Ok n, s') → 1 <= n <= MAX_ID.
Proof.
  intros E. unfold emit in E. py_inv. unfold zoom, seq_next in *.
  destruct (integer _ 1 MAX_ID) as [z|] eqn:Ez; simplify_eq.
  by apply integer_Ok in Ez as [_ ?].
Qed.
Lemma advertise_begin_view l run s r s' :
  advertise_begin l run s = (r, s') →
  match r with
  | Ok _ => ∃ id a n0 n, v_chans (view_of s.2) !! l = Some (id, a, n0) ∧ 1 <= n <= MAX_ID ∧
      view_of s'.2 = v_set_chans (<[l := (id, a, n)]> (v_chans (view_of s.2))) (view_of s.2)
  | Raise _ => view_of s'.2 = view_of s.2
  end.
Proof.
  intros E. unfold advertise_begin in E.
  apply st_bind_inv in E as ([c|e] & s1 & E1 & E); [|destruct E as [-> ->]; by apply unseen_ch_at in E1].
  apply ch_at_Ok in E1 as [-> Hc].
  apply st_bind_inv in E as ([n|e] & s1 & E1 & E); [|destruct E as [-> ->]; by apply unseen_emit in E1].
  apply emit_request in E1 as Hn. apply unseen_emit in E1.
  assert (Hl : v_chans (view_of s.2) !! l = Some (core c)) by (cbn; by rewrite list_lookup_fmap, Hc).
  rewrite <-E1 in *. apply (ch_update_view _ _ (λ c, (c.1.1, c.1.2, n)) (core c)) in E as [-> ->]; [|done|done].
  by exists (ch_id c), (ack c), (route_request c), n.
Qed.

Lemma acknowledge_view l body s r s' c :
  v_chans (view_of s.2) !! l = Some c →
  acknowledge l body s = (r, s') →
  match r with
  | Ok _ => c.1.2 = false ∧ 1 <= c.2 <= MAX_ID ∧ answers c.1.1 c.2 body ∧
      view_of s'.2 = v_set_chans (<[l := (c.1.1, true, c.2)]> (v_chans (view_of s.2))) (view_of s.2)
  | Raise _ => view_of s'.2 = view_of s.2
  end.
Proof.
  intros Hc E. apply chans_lookup in Hc as Hx. destruct Hx as (ch & Hch & <-).
  unfold acknowledge in E.
  apply st_bind_inv in E as ([server|e] & s1 & E1 & E); [|by destruct E as [-> ->]; injection E1 as _ <-].
  injection E1 as _ <-.
  apply st_bind_inv in E as ([?|e] & s1 & E1 & E); apply lift_inv in E1 as [E1 ->]; [|by destruct E as [-> ->]].
  apply st_bind_inv in E as ([c|e] & s1 & E2 & E); rewrite (ch_at_some _ _ _ Hch) in E2;
    [|by destruct E as [-> ->]; injection E2 as _ <-].
  injection E2 as <- <-.
  apply st_bind_inv in E as ([id|e] & s1 & E2 & E); apply lift_inv in E2 as [E2 ->]; [|by destruct E as [-> ->]].
  apply st_bind_inv in E as ([?|e] & s1 & E3 & E); apply lift_inv in E3 as [E3 ->]; [|by destruct E as [-> ->]].
  apply raise_if_Ok in E3. bools. apply py_eq_str in E3 as ->.
  apply st_bind_inv in E as ([req|e] & s1 & E4 & E); apply lift_inv in E4 as [E4 ->]; [|by destruct E as [-> ->]].
  apply st_bind_inv in E as ([n|e] & s1 & E5 & E); apply lift_inv in E5 as [E5 ->]; [|by destruct E as [-> ->]].
  apply st_bind_inv in E as ([?|e] & s1 & E6 & E); apply lift_inv in E6 as [E6 ->]; [|by destruct E as [-> ->]].
  apply raise_if_Ok in E6. bools. subst n. apply integer_Ok in E5 as [-> Hn].
  apply d_item_Ok in E2, E4.
  match type of E with mbind _ ?m _ = _ => assert (unseen m) as Hm end.
  { destruct server; [auto with unseen|].
    apply unseen_bind; [auto with unseen|intros v]. apply unseen_bind; [auto with unseen|intros port].
    apply unseen_bind; [by apply unseen_ch_update|intros _]. apply unseen_connect_udp. }
  apply st_bind_inv in E as ([?|e] & s1 & E7 & E); apply Hm in E7 as Hv; [|by destruct E as [-> ->]].
  rewrite <-Hv in *. apply (ch_update_view _ _ (λ c, (c.1.1, true, c.2)) (core ch)) in E as [-> ->]; [|done|done].
  cbn [core fst snd]. by split_and!; try apply Hn.
Qed.

Lemma retire_view l s r s' c :
  v_chans (view_of s.2) !! l = Some c → retire l s = (r, s') →
  ∃ port, view_of s'.2 = v_retire c.1.1 port (view_of s.2).
Proof.
  intros Hc E. apply chans_lookup in Hc as Hx. destruct Hx as (ch & Hch & Hco).
  unfold retire in E.
  apply st_bind_inv in E as (r1 & s1 & E1 & E). pose proof E1 as Hu.
  apply unseen_ch_update in Hu; [|done]. injection E1 as <- <-.
  apply st_bind_inv in E as (r1 & s1 & E1 & E).
  rewrite (ch_at_some _ _ (ch_set_closed ch)) in E1 by (cbn; by rewrite list_lookup_alter_eq, Hch).
  injection E1 as <- <-.
  apply st_bind_inv in E as (r1 & s1 & E1 & E). injection E1 as <- <-.
  apply st_bind_inv in E as (r1 & s1 & E1 & E). injection E1 as <- <-.
  exists (udp_port ch). apply (f_equal v_chans) in Hu as Hheap. cbn in Hheap.
  assert (Hgoal : view_of s'.2 = View (g_role s.2) (delete (ch_id ch) (channels s.2)) (retired s.2 ++ [udp_port ch])
    ({[ch_id ch]} ∪ retired_ids s.2) (pending s.2) (core <$> alter ch_set_closed l (g_heap s.2))).
  { revert E. match goal with |- ?m ?x = _ → _ => assert (unseen m) as Hm end.
    { apply unseen_bind; [auto with unseen|intros []]; [auto with unseen|].
      apply unseen_bind; [apply unseen_emit|auto with unseen]. }
    intros E. apply Hm in E. by rewrite E. }
  rewrite Hgoal, Hheap. subst c. done.
Qed.
Lemma new_channel_view id fp session s r s' :
  new_channel id fp session s = (r, s') →
  match r with
  | Ok l => ∃ name, id = VStr name ∧ l = length (v_chans (view_of s.2)) ∧
      (∃ c, g_heap s'.2 !! l = Some c ∧ ch_id c = name) ∧ channels s'.2 = channels s.2 ∧
      view_of s'.2 = v_set_chans (v_chans (view_of s.2) ++ [(name, false, 0)]) (view_of s.2)
  | Raise _ => view_of s'.2 = view_of s.2
  end.
Proof.
  intros E. unfold new_channel in E.
  apply st_bind_inv in E as ([name|e] & s1 & E1 & E); apply lift_inv in E1 as [E1 ->]; [|by destruct E as [-> ->]].
  assert (Hn : id = VStr name).
  { unfold hex_id in E1. destruct id; try done. py_inv. done. }
  apply st_bind_inv in E as ([sid|e] & s1 & E2 & E); apply lift_inv in E2 as [E2 ->]; [|by destruct E as [-> ->]].
  apply st_bind_inv in E as ([n|e] & s1 & E3 & E); apply unseen_world in E3 as V3; [|by destruct E as [-> ->]].
  apply st_bind_inv in E as ([port|e] & s2 & E4 & E); apply lift_inv in E4 as [E4 ->]; [|by destruct E as [-> ->]].
  apply st_bind_inv in E as ([server|e] & s2 & E5 & E); [|done]. injection E5 as _ <-.
  apply st_bind_inv in E as ([game|e] & s2 & E5 & E); [|done]. injection E5 as _ <-.
  match type of E with mbind _ ?m _ = _ => assert (unseen m) as Hm end.
  { destruct server; [apply unseen_connect_udp|auto with unseen]. }
  apply st_bind_inv in E as ([?|e] & s2 & E6 & E); apply Hm in E6 as V6; [|destruct E as [-> ->]; congruence].
  apply st_bind_inv in E as ([t1|e] & s3 & E7 & E); apply unseen_world in E7 as V7; [|destruct E as [-> ->]; congruence].
  apply st_bind_inv in E as ([t2|e] & s4 & E8 & E); apply unseen_world in E8 as V8; [|destruct E as [-> ->]; congruence].
  assert (V : view_of s4.2 = view_of s.2) by congruence.
  apply st_bind_inv in E as ([h|e] & s5 & E9 & E); [|done]. injection E9 as <- <-.
  apply st_bind_inv in E as ([?|e] & s5 & E9 & E); [|done]. injection E9 as _ <-. injection E as <- <-.
  exists name. split; [done|]. rewrite <-V. cbn. split_and!.
  - by rewrite length_fmap.
  - eexists. split; [by apply list_lookup_middle|done].
  - by apply (f_equal v_channels) in V.
  - unfold view_of, v_set_chans; cbn. by rewrite fmap_app.
Qed.

Lemma full_fits g : full g = false →
  (size (channels g) < 8)%nat ∧ (size (channels g) + length (retired g) < 256)%nat.
Proof. unfold full, len. intros E. bools. lia. Qed.

Lemma register_view l s r s' id c :
  v_chans (view_of s.2) = c ++ [(id, false, 0)] → l = length c →
  update (λ g, set_channels (<[id := l]> (channels g)) g) s = (r, s') →
  r = Ok tt ∧ view_of s'.2 = v_open id (v_set_chans c (view_of s.2)).
Proof. intros Hc -> [= <- <-]. split; [done|]. unfold v_open, view_of; cbn in *. by rewrite Hc. Qed.

Lemma serve_open_view tls s r s' :
  serve_open tls s = (r, s') →
  match r with
  | Ok l => ∃ id, fits (view_of s.2) id ∧ l = length (v_chans (view_of s.2)) ∧
      view_of s'.2 = v_open id (view_of s.2)
  | Raise _ => view_of s'.2 = view_of s.2
  end.
Proof.
  intros E. unfold serve_open in E.
  apply st_bind_inv in E as ([allowed|e] & s1 & E1 & E); [|done]. injection E1 as _ <-.
  apply st_bind_inv in E as ([fp|e] & s1 & E2 & E); apply lift_inv in E2 as [E2 ->]; [|by destruct E as [-> ->]].
  apply st_bind_inv in E as ([no_room|e] & s1 & E1 & E); [|done]. injection E1 as <- <-.
  apply st_bind_inv in E as ([?|e] & s1 & E3 & E); apply lift_inv in E3 as [E3 ->]; [|by destruct E as [-> ->]].
  apply raise_if_Ok, full_fits in E3 as [F1 F2].
  apply st_bind_inv in E as ([id|e] & s1 & E4 & E); apply unseen_world in E4 as V4; [|by destruct E as [-> ->]].
  apply st_bind_inv in E as ([taken|e] & s2 & E5 & E); [|done]. injection E5 as <- <-.
  apply st_bind_inv in E as ([?|e] & s2 & E5 & E); apply lift_inv in E5 as [E5 ->]; [|by destruct E as [-> ->]].
  apply raise_if_Ok in E5. bools.
  apply st_bind_inv in E as ([session|e] & s2 & E6 & E); [|done]. injection E6 as _ <-.
  apply st_bind_inv in E as ([l|e] & s2 & E6 & E); apply new_channel_view in E6;
    [|destruct E as [-> ->]; congruence].
  destruct E6 as (name & [= <-] & -> & (c & Hc & Hid) & Hch & V6).
  rewrite V4 in *.
  apply st_bind_inv in E as ([?|e] & s3 & E7 & E).
  2:{ destruct E as [-> ->]. done. }
  eapply (register_view _ s2 _ s3 id) in E7 as [_ V7]; [|by rewrite V6|done].
  injection E as <- <-. exists id. split_and!; [|done|].
  - apply (f_equal v_channels) in V4 as V41. apply (f_equal v_ids) in V4 as V42. cbn in V41, V42.
    unfold fits. cbn. rewrite <-V41, <-V42. split_and!; [by apply eq_None_not_Some|done|by rewrite V41..].
  - rewrite V7, V6. done.
Qed.
Lemma connect_open_view own kind data s r s' :
  connect_open own kind data s = (r, s') →
  match r with
  | Ok (l, _, _) => l = length (v_chans (view_of s.2)) ∧ ∃ id, view_of s'.2 = v_open id (view_of s.2)
  | Raise _ => view_of s'.2 = view_of s.2
  end.
Proof.
  intros E. unfold connect_open in E.
  apply st_bind_inv in E as ([m|e] & s1 & E1 & E); apply lift_inv in E1 as [_ ->]; [|by destruct E as [-> ->]].
  apply st_bind_inv in E as ([dr|e] & s1 & E1 & E); apply lift_inv in E1 as [_ ->]; [|by destruct E as [-> ->]].
  apply st_bind_inv in E as ([fp|e] & s1 & E1 & E); apply lift_inv in E1 as [_ ->]; [|by destruct E as [-> ->]].
  apply st_bind_inv in E as ([id|e] & s1 & E1 & E); apply lift_inv in E1 as [_ ->]; [|by destruct E as [-> ->]].
  apply st_bind_inv in E as ([session|e] & s1 & E1 & E); apply lift_inv in E1 as [_ ->]; [|by destruct E as [-> ->]].
  apply st_bind_inv in E as ([l|e] & s2 & E6 & E); apply new_channel_view in E6; [|by destruct E as [-> ->]].
  destruct E6 as (name & -> & -> & (c & Hc & Hid) & Hch & V6).
  apply st_bind_inv in E as ([c'|e] & s3 & E7 & E); rewrite (ch_at_some _ _ _ Hc) in E7; [|done].
  injection E7 as <- <-.
  apply st_bind_inv in E as ([?|e] & s3 & E8 & E); [|by injection E8].
  eapply (register_view _ s2 _ s3 (ch_id c)) in E8 as [_ V8]; [|by rewrite V6, Hid|done].
  injection E as <- <-. split; [done|]. exists (ch_id c). rewrite V8, V6. done.
Qed.

(** A command of the parent changes nothing the invariant sees, except that
    ROUTE_ACK acknowledges the channel it names. *)
Lemma command_view op body s r s' :
  command op body s = (r, s') →
  view_of s'.2 = view_of s.2 ∧ (r = Ok tt → op ≠ u "ROUTE_ACK") ∨
  op = u "ROUTE_ACK" ∧ ∃ id l, d_get body (u "channel_id") = Some (VStr id) ∧
    channels s.2 !! id = Some l ∧ acknowledge l body s = (r, s').
Proof.
  intros E. unfold command in E.
  assert (Hget : ∀ key r1 s1, channel_get key s = (r1, s1) → s1 = s ∧ ∀ l, r1 = Ok (Some l) →
    ∃ id, key = Some (VStr id) ∧ channels s.2 !! id = Some l).
  { intros key r1 s1. unfold channel_get. destruct key as [[]|]; intros [= <- <-]; split; try done.
    intros l [= ?]. eauto. }
  destruct (decide (op = u "HEARTBEAT")) as [->|_].
  { left. py_inv. apply st_bind_inv in E as ([?|e] & s1 & E1 & E); apply lift_inv in E1 as [_ ->].
    - by injection E as _ <-.
    - by destruct E as [-> ->]. }
  destruct (decide (op = u "SHUTDOWN")) as [->|_].
  { left. apply st_bind_inv in E as ([?|e] & s1 & E1 & E); apply lift_inv in E1 as [_ ->].
    - by injection E as _ <-.
    - by destruct E as [-> ->]. }
  destruct (decide (op = u "ROUTE_ACK")) as [->|Hop].
  - apply st_bind_inv in E as ([o|e] & s1 & E1 & E); apply Hget in E1 as [-> Ho];
      [|destruct E as [-> ->]; by left].
    destruct o as [l|]; [|by left; injection E as <- <-].
    destruct (Ho l eq_refl) as (id & Hid & Hl). right. split; [done|]. by exists id, l.
  - left. split; [|done]. destruct (decide (op = u "ROUTE_CLOSE")) as [->|_]; [|by injection E as _ <-].
    revert E. apply (λ H : unseen _, H s r s').
    apply unseen_bind; [auto with unseen|intros ?]. apply unseen_bind.
    { intros t r1 t1. unfold channel_get. repeat case_match; by intros [= _ <-]. }
    intros [l|]; [by apply unseen_ch_update|]. apply unseen_bind; [auto with unseen|intros []]; auto with unseen.
Qed.
End effects.

Create HintDb unseen discriminated.
#[export] Hint Resolve unseen_lift unseen_ret unseen_raise unseen_raise_when unseen_self
  unseen_world unseen_ch_at unseen_seq_next unseen_put unseen_emit unseen_connect_udp : unseen.

(** ** Every step preserves the invariant *)

#[local] Arguments view_of : simpl never.

Definition sys_ok (s : sys) : Prop := ok (view_of (s_g s)) (s_tasks s) (s_log s).

Section steps.
Context `{Env} `{Platform} (own : result pystr).

Abbreviation gst := (st (world * Gateway)).

Lemma on_gateway_inv {A} (m : gst A) s r s' :
  on_gateway m s = (r, s') →
  m (s_w s, s_g s) = (r, (s_w s', s_g s')) ∧ s_tasks s' = s_tasks s ∧ s_log s' = s_log s.
Proof. unfold on_gateway. destruct (m _) as [r1 [w g]]. by intros [= <- <-]. Qed.

Lemma on_gateway_unseen {A} (m : gst A) s r s' :
  unseen m → on_gateway m s = (r, s') →
  view_of (s_g s') = view_of (s_g s) ∧ s_tasks s' = s_tasks s ∧ s_log s' = s_log s.
Proof. intros Hm E. apply on_gateway_inv in E as (E & ? & ?). apply Hm in E. done. Qed.

Lemma sys_ok_unseen {A} (m : gst A) s r s' :
  unseen m → sys_ok s → on_gateway m s = (r, s') → sys_ok s'.
Proof.
  unfold sys_ok. intros Hm Hs E. apply (on_gateway_unseen _ _ _ _ Hm) in E as (-> & -> & ->). done.
Qed.

Definition minus_one (v : view) : Z :=
  match v_role v with Server => v_pending v - 1 | Client => v_pending v end.

Lemma leave_none s r s' : leave None s = (r, s') → view_of s'.2 = v_set_pending (minus_one (view_of s.2)) (view_of s.2).
Proof.
  intros E. unfold leave in E. apply st_bind_inv in E as ([b|e] & s1 & E1 & E); [|done].
  injection E1 as <- <-. unfold is_server in E. unfold minus_one; cbn.
  destruct (g_role s.2) eqn:Hr; cbn in E; apply st_bind_inv in E as ([?|e] & s1 & E1 & E); try done;
    injection E1 as _ <-; injection E as _ <-; unfold view_of, v_set_pending; cbn; by rewrite ?Hr.
Qed.

Lemma leave_some l c s r s' :
  v_chans (view_of s.2) !! l = Some c → leave (Some l) s = (r, s') →
  ∃ port, view_of s'.2 = v_set_pending (minus_one (view_of s.2)) (v_retire c.1.1 port (view_of s.2)).
Proof.
  intros Hc E. unfold leave in E. apply st_bind_inv in E as ([b|e] & s1 & E1 & E); [|done].
  injection E1 as <- <-. unfold is_server in E. unfold minus_one; cbn.
  destruct (g_role s.2) eqn:Hr; cbn in E; apply st_bind_inv in E as ([?|e] & s1 & E1 & E); try done;
    injection E1 as _ <-; apply (retire_view _ _ _ _ c) in E as [port ->]; try done;
    exists port; unfold view_of, v_set_pending, v_retire; cbn; by rewrite ?Hr.
Qed.

Lemma finish_none i p s :
  sys_ok s → s_tasks s !! i = Some p → phase_loc p = None → p ≠ Gone → sys_ok (finish i None s).
Proof.
  intros O Hi Hl Hg. unfold finish. destruct (on_gateway (leave None) s) as [r s1] eqn:E.
  apply on_gateway_inv in E as (E & Ht & Hlog). apply leave_none in E. cbn in E. cbn [snd].
  unfold sys_ok; cbn. rewrite Ht, Hlog. pose proof O as O1. unfold sys_ok in O1.
  assert (view_of (s_g s1) = v_set_pending (minus_one (view_of (s_g s)))
    (v_set_chans (v_chans (view_of (s_g s))) (view_of (s_g s)))) as -> by done.
  destruct (ok_phase _ _ _ O1 _ _ Hi) as [Hr _]. pose proof (ok_four _ _ _ O1).
  eapply (ok_update _ _ _ _ p); [done|done| | | |by intros _ [?|?]].
  - split_and!; [done|done|]. by rewrite Hl.
  - unfold minus_one. destruct (v_role _) eqn:Hv; [|done]. destruct p; cbn in *; lia || done.
  - unfold minus_one. destruct (v_role _); lia.
Qed.

(** The end of a task with a channel, from a state whose [pending] may already
    have got the place of a forwarding task back. *)
Lemma finish_some i p l s s1 :
  sys_ok s → s_tasks s !! i = Some p → phase_loc p = Some l →
  view_of (s_g s1) = v_set_pending (match v_role (view_of (s_g s)) with
    | Server => v_pending (view_of (s_g s)) + 1 - counted p | Client => v_pending (view_of (s_g s)) end)
    (view_of (s_g s)) →
  s_tasks s1 = s_tasks s → s_log s1 = s_log s →
  sys_ok (finish i (Some l) s1).
Proof.
  intros O Hi Hl Hv Ht Hlog. unfold sys_ok in O.
  destruct (ok_phase _ _ _ O _ _ Hi) as [Hr Hp]. destruct (Hp l Hl) as (c & Hc & _).
  unfold finish. destruct (on_gateway (leave (Some l)) s1) as [r s2] eqn:E.
  apply on_gateway_inv in E as (E & Ht2 & Hlog2). apply (leave_some _ c) in E as [port E]; [|by cbn; rewrite Hv].
  unfold sys_ok; cbn in *. rewrite E, Ht2, Hlog2, Ht, Hlog, Hv.
  match goal with |- ok (v_set_pending ?n _) _ _ =>
    apply (ok_retire _ _ _ _ p l c port n O Hi Hl Hc) end.
  unfold minus_one; cbn. destruct (v_role _); cbn; lia.
Qed.

(** The same when the task was not forwarding. *)
Lemma finish_channel i p l s s1 :
  sys_ok s → s_tasks s !! i = Some p → phase_loc p = Some l → (∀ k, p ≠ Forwarding k) →
  view_of (s_g s1) = view_of (s_g s) → s_tasks s1 = s_tasks s → s_log s1 = s_log s →
  sys_ok (finish i (Some l) s1).
Proof.
  intros O Hi Hl Hf Hv. eapply finish_some; [done|exact Hi|done|]. rewrite Hv.
  destruct (ok_phase _ _ _ O _ _ Hi) as [Hr _].
  assert (v_role (view_of (s_g s)) = Server → counted p = 1) as Hc.
  { intros Hs. rewrite Hs in Hr. destruct p; cbn in *; try done. by destruct (Hf l0). }
  unfold view_of, v_set_pending in *; cbn in *. f_equal.
  destruct (g_role (s_g s)) eqn:E; [rewrite Hc by done; lia|done].
Qed.

Lemma finish_forward i l s :
  sys_ok s → s_tasks s !! i = Some (Forwarding l) → sys_ok (finish i (Some l) (on_gateway end_forward s).2).
Proof.
  intros O Hi. destruct (on_gateway end_forward s) as [r s1] eqn:E. cbn.
  apply on_gateway_inv in E as (E & Ht & Hlog). eapply finish_some; [done|exact Hi|done| |done|done].
  unfold end_forward in E. apply st_bind_inv in E as ([b|e] & s2 & E1 & E); [|done].
  injection E1 as <- <-. unfold is_server in E; cbn in E. unfold view_of, v_set_pending; cbn.
  destruct (g_role (s_g s)) eqn:Hr; cbn in E; injection E as _ _ E; rewrite <-E; cbn;
    rewrite ?Hr; f_equal; lia.
Qed.

(** A task of a channel moves on after an operation that leaves the view alone. *)
Lemma move_unseen i l p' (es : list entry) s s1 n :
  sys_ok s → view_of (s_g s1) = v_set_pending n (view_of (s_g s)) → s_tasks s1 = s_tasks s → s_log s1 = s_log s →
  ∀ p, s_tasks s !! i = Some p → phase_loc p = Some l → phase_loc p' = Some l →
  in_role (v_role (view_of (s_g s))) p' → Forall (λ e, entry_loc e = l) es →
  (∀ c, stage p l c (history l (s_log s)) → v_chans (view_of (s_g s)) !! l = Some c →
     stage p' l c (history l (s_log s) ++ es)) →
  n = match v_role (view_of (s_g s)) with
      | Server => v_pending (view_of (s_g s)) - counted p + counted p'
      | Client => v_pending (view_of (s_g s)) end → n <= 4 →
  sys_ok (move i p' (note es s1)).
Proof.
  intros O Hv Ht Hlog p Hi Hl Hl' Hr He Hst Hn H4. unfold sys_ok in *; cbn. rewrite Hv, Ht, Hlog.
  destruct (ok_phase _ _ _ O _ _ Hi) as [_ Hp]. destruct (Hp l Hl) as (c & Hc & _ & Hs).
  assert (v_set_pending n (view_of (s_g s)) = v_set_pending n (v_set_chans (<[l:=c]> (v_chans (view_of (s_g s)))) (view_of (s_g s)))) as ->.
  { rewrite list_insert_id by done. done. }
  eapply (ok_update _ _ _ _ p); [done|done| |done|done|].
  - split_and!; [congruence|done|]. rewrite Hl. exists c, c. split_and!; try done. by apply Hst.
  - intros _ [-> | ->]; done.
Qed.

(** After [advertise_begin]: the channel has its request number. *)
Lemma move_routed i l p run s s1 s2 :
  sys_ok s → s_tasks s !! i = Some p → (p = AwaitAck l ∨ ∃ x, p = Acking l x) →
  view_of (s_g s1) = view_of (s_g s) → s_tasks s1 = s_tasks s → s_log s1 = s_log s →
  on_gateway (advertise_begin l run) s1 = (Ok tt, s2) →
  sys_ok (move i (AwaitRoute l) (note [OpenAcked l; Routed l (request_of l s2)] s2)).
Proof.
  intros O Hi Hp Hv Ht Hlog E. unfold sys_ok in O.
  assert (Hl : phase_loc p = Some l) by (by destruct Hp as [-> | [x ->]]).
  apply on_gateway_inv in E as (E & Ht2 & Hlog2). apply advertise_begin_view in E.
  destruct E as (id & a & n0 & n & Hc & Hn & Hv2). cbn [snd] in Hc, Hv2. rewrite Hv in Hc, Hv2.
  destruct (ok_phase _ _ _ O _ _ Hi) as [Hr Hx]. destruct (Hx l Hl) as (c & Hc' & _ & Hs).
  rewrite Hc in Hc'. injection Hc' as <-.
  assert (Hs' : a = false ∧ n0 = 0 ∧ history l (s_log s) = [Opened l]) by (by destruct Hp as [-> | [x ->]]).
  destruct Hs' as (-> & -> & Hh).
  assert (Hreq : request_of l s2 = n).
  { unfold request_of. apply (f_equal v_chans) in Hv2. unfold view_of in Hv2 at 1; cbn in Hv2.
    apply (f_equal (lookup l)) in Hv2.
    rewrite list_lookup_fmap, list_lookup_insert_eq in Hv2 by (by eapply lookup_lt_Some).
    destruct (g_heap (s_g s2) !! l); [|done]. by injection Hv2. }
  rewrite Hreq. unfold sys_ok; cbn. rewrite Ht2, Hlog2, Hv2, Ht, Hlog.
  assert (∀ cs v, v_set_chans cs v = v_set_pending (v_pending v) (v_set_chans cs v)) as -> by done.
  pose proof (ok_four _ _ _ O).
  eapply (ok_update _ _ _ _ p); [done|done| | |done|by intros _ [?|?]].
  - split_and!; [by rewrite Hl|done|]. rewrite Hl. eexists _, (id, false, n). split_and!; [done..| |by repeat constructor].
    split; [done|]. left. split; [done|]. by rewrite Hh.
  - destruct (v_role _) eqn:Hrole; [|done]. destruct Hp as [-> | [x ->]]; cbn in *; [lia|done].
Qed.

(** A channel is registered by task [i]. *)
Lemma opened_ok i p id s s1 :
  sys_ok s → s_tasks s !! i = Some p → (p = Handshake ∨ p = AwaitOpen) → fits (view_of (s_g s)) id →
  view_of (s_g s1) = v_open id (view_of (s_g s)) → s_tasks s1 = s_tasks s → s_log s1 = s_log s →
  sys_ok (move i (Opening (length (v_chans (view_of (s_g s))))) s1).
Proof.
  intros O Hi Hp Hf Hv Ht Hlog. unfold sys_ok; cbn. rewrite Hv, Ht, Hlog. by eapply ok_open.
Qed.

(** The message after the registration is sent, or the task ends. *)
Lemma task_opening {A} i l (m : gst A) p' s1 :
  unseen m → sys_ok (move i (Opening l) s1) → (i < length (s_tasks s1))%nat →
  (p' = AwaitAck l ∧ g_role (s_g s1) = Server ∨ ∃ run, p' = Acking l run ∧ g_role (s_g s1) = Client) →
  sys_ok (task i (Some l) m (λ _ s, move i p' (note [Opened l] s)) s1).
Proof.
  intros Hm O Hlt Hp. unfold task. destruct (on_gateway m s1) as [r s2] eqn:E.
  apply (on_gateway_unseen _ _ _ _ Hm) in E as (Hv & Ht & Hlog).
  assert (Hi : s_tasks (move i (Opening l) s1) !! i = Some (Opening l)) by (cbn; by rewrite list_lookup_insert_eq).
  assert (Hm2 : ∀ p es s, move i p (note es (move i (Opening l) s)) = move i p (note es s)).
  { intros p es s. unfold move, note; cbn. f_equal. by rewrite list_insert_insert_eq. }
  destruct r as [a|e].
  - rewrite <-Hm2. pose proof (ok_four _ _ _ O).
    eapply (move_unseen i l _ _ (move i (Opening l) s1) _ (pending (s_g s1)) O);
      [|cbn; by rewrite Ht|done|exact Hi|done| | |by repeat constructor| | |done].
    + unfold view_of, v_set_pending in *; cbn in *. done.
    + by destruct Hp as [[-> _]|(run & -> & _)].
    + destruct Hp as [[-> Hr]|(run & -> & Hr)]; exact Hr.
    + intros c Hs _. destruct c as [[id a0] n]. destruct Hs as (-> & -> & Hh). rewrite Hh.
      by destruct Hp as [[-> _]|(run & -> & _)].
    + unfold view_of; cbn. destruct Hp as [[-> Hr]|(run & -> & Hr)]; rewrite Hr; cbn; lia.
  - assert (finish i (Some l) s2 = finish i (Some l) (move i (Opening l) s2)) as ->.
    { unfold finish, move, note, on_gateway; cbn. destruct (leave (Some l) _) as [? []]. cbn. f_equal.
      by rewrite list_insert_insert_eq. }
    eapply (finish_channel i _ l (move i (Opening l) s1)); [done|exact Hi|done|done|done|cbn; by rewrite Ht|done].
Qed.
(** The pumps only touch the queues and the rates of their channel. *)
Lemma pump_field {K} (f : Channel → K) k p :
  (∀ q r c, f (ch_set_tx q r c) = f c) → (∀ q r c, f (ch_set_rx q r c) = f c) →
  preserves (λ s, f s.2 = k) (pump_step p).
Proof.
  intros Htx Hrx.
  assert (Hz : ∀ T (proj : world * Channel → T) (upd : T → world * Channel → world * Channel) A (m : st T A),
    (∀ t s, f (upd t s).2 = f s.2) → preserves (λ s, f s.2 = k) (zoom proj upd m)).
  { intros T proj upd A m Hu s r s' Hs. unfold zoom. destruct (m _). intros [= _ <-]. congruence. }
  assert (Hw : ∀ A (m : st world A), preserves (λ s : world * Channel, f s.2 = k) (on_world m)).
  { intros A m [w c] r [w' c'] Hs E. apply on_world_inv in E as [_ ->]. done. }
  assert (Ho : preserves (λ s, f s.2 = k) get_out).
  { intros s r s' Hs. unfold get_out. cbv zeta. destruct (q_get _ _) as [[]|]; intros [= _ <-]; cbn; rewrite ?Htx, ?Hrx; done. }
  assert (Hi : preserves (λ s, f s.2 = k) get_in).
  { intros s r s' Hs. unfold get_in. cbv zeta. destruct (q_get _ _) as [[]|]; intros [= _ <-]; cbn; rewrite ?Htx, ?Hrx; done. }
  destruct p; cbn [pump_step];
    unfold udp_reader, tls_reader, tls_writer, udp_writer, heartbeat, take_tx, take_rx, put_out, put_in;
    repeat first [apply preserves_bind; [|intros ?]|case_match|apply Hz; intros ? []; cbn; by rewrite ?Htx, ?Hrx|apply Hw|exact Ho|exact Hi];
    auto with py.
Qed.

Lemma pump_core k p : preserves (λ s, core s.2 = k) (pump_step p).
Proof. by apply pump_field. Qed.

Lemma unseen_pump l p : unseen (pump_at l p).
Proof.
  intros s r s' E. unfold pump_at in E. apply st_bind_inv in E as ([c|e] & s1 & E1 & E).
  2:{ destruct E as [_ ->]. by apply unseen_ch_at in E1. }
  apply ch_at_Ok in E1 as [-> Hc]. apply st_bind_inv in E as (r1 & s1 & E1 & E).
  destruct (pump_step p (s.1, c)) as [r2 [w c']] eqn:Ep. injection E1 as <- <-.
  apply lift_inv in E as [_ ->]. apply (pump_core (core c)) in Ep; [|done].
  unfold view_of; cbn in *. f_equal. rewrite list_fmap_insert, Ep. apply list_insert_id.
  by rewrite list_lookup_fmap, Hc.
Qed.

Lemma client_fits s i : sys_ok s → s_tasks s !! i = Some AwaitOpen →
  v_role (view_of (s_g s)) = Client ∧ v_chans (view_of (s_g s)) = [] ∧ ∀ id, fits (view_of (s_g s)) id.
Proof.
  intros O Hi. destruct (ok_phase _ _ _ O _ _ Hi) as [Hr _]. cbn in Hr.
  destruct (ok_client _ _ _ O Hr) as (p & Ht & Hp). rewrite Ht in Hi. destruct i; [|done]. injection Hi as ->.
  assert (Hc : v_chans (view_of (s_g s)) = []) by (apply Hp; auto).
  assert (Hm : v_channels (view_of (s_g s)) = ∅).
  { apply map_empty. intros id. destruct (_ !! id) as [l|] eqn:E; [|done].
    apply (ok_channels _ _ _ O) in E as [(c & E & _) _]. by rewrite Hc in E. }
  assert (Hs : v_ids (view_of (s_g s)) = ∅).
  { apply set_eq. intros id. split; [|set_solver]. intros Hid.
    apply (ok_ids _ _ _ O) in Hid as (_ & l & c & E & _). by rewrite Hc in E. }
  split_and!; [done|done|]. intros id. unfold fits. rewrite Hm. split_and!; [done|set_solver| |].
  - rewrite map_size_empty. lia.
  - pose proof (ok_size _ _ _ O) as Hz. rewrite map_size_empty, <-Hz, Hs, size_empty. lia.
Qed.

Lemma step_handshake i tls s :
  sys_ok s → s_tasks s !! i = Some Handshake → sys_ok (step_task own (ATls i tls) i Handshake s).
Proof.
  intros O Hi. cbn [step_task]. unfold task at 1. destruct (on_gateway _ s) as [[l|e] s1] eqn:E;
    apply on_gateway_inv in E as (E & Ht & Hlog);
    apply st_bind_inv in E as ([t|e'] & s2 & E1 & E); apply lift_inv in E1 as [-> ->]; try (by destruct E);
    [apply serve_open_view in E as Hv; cbn [snd] in Hv..|].
  - destruct Hv as (id & Hf & -> & Hv). pose proof (lookup_lt_Some _ _ _ Hi) as Hlt.
    apply task_opening; [| |by rewrite Ht|].
    + unfold send_opening. repeat (apply unseen_bind; [auto with unseen|intros ?]). auto with unseen.
    + eapply opened_ok; eauto.
    + left. split; [done|]. destruct (ok_phase _ _ _ O _ _ Hi) as [Hr _].
      apply (f_equal v_role) in Hv. cbn in Hv, Hr. unfold view_of in Hv, Hr. cbn in Hv, Hr. congruence.
  - apply (finish_none i Handshake); [|by rewrite Ht|done|done]. unfold sys_ok. by rewrite Hv, Ht, Hlog.
  - destruct E as [_ E]. injection E as _ E. apply (finish_none i Handshake); [|by rewrite Ht|done|done].
    unfold sys_ok. by rewrite E, Ht, Hlog.
Qed.
Lemma step_dialling i tls s :
  sys_ok s → s_tasks s !! i = Some Dialling → sys_ok (step_task own (ATls i tls) i Dialling s).
Proof.
  intros O Hi. cbn [step_task]. unfold task. destruct (on_gateway _ s) as [r s1] eqn:E.
  apply on_gateway_unseen in E as (Hv & Ht & Hlog);
    [|repeat (apply unseen_bind; [auto with unseen|intros ?]); auto with unseen].
  assert (O1 : sys_ok s1) by (unfold sys_ok; by rewrite Hv, Ht, Hlog).
  rewrite <-Ht in Hi. destruct r; [|by eapply finish_none].
  destruct (ok_phase _ _ _ O1 _ _ Hi) as [Hr _].
  unfold sys_ok in *; cbn. rewrite <-(app_nil_r (s_log s1)).
  assert (view_of (s_g s1) = v_set_pending (v_pending (view_of (s_g s1)))
    (v_set_chans (v_chans (view_of (s_g s1))) (view_of (s_g s1)))) as -> by done.
  eapply (ok_update _ _ _ _ Dialling); [done|done| | |by eapply ok_four|].
  - by split_and!.
  - by rewrite Hr.
  - intros _ _. destruct (ok_client _ _ _ O1 Hr) as (p & Hp & Hc). apply Hc.
    rewrite Hp in Hi. destruct i; [|done]. injection Hi as ->. by left.
Qed.

(** An operation that begins with a [lift] and then advertises the channel. *)
Lemma step_routed {A} i l p (r : result A) (m : A → gst unit) (pre : A → gst unit) run s :
  sys_ok s → s_tasks s !! i = Some p → (p = AwaitAck l ∨ ∃ x, p = Acking l x) →
  (∀ a, unseen (pre a)) → (∀ a x y, m a x = y → ∃ run, (_ ← pre a; advertise_begin l run) x = y) →
  run = (a ← lift r; m a) →
  sys_ok (task i (Some l) run
    (λ _ s, move i (AwaitRoute l) (note [OpenAcked l; Routed l (request_of l s)] s)) s).
Proof.
  intros O Hi Hp Hpre Hm ->. unfold task.
  assert (Hl : phase_loc p = Some l) by (by destruct Hp as [-> | [x ->]]).
  assert (Hf : ∀ k, p ≠ Forwarding k) by (by destruct Hp as [-> | [x ->]]).
  destruct (on_gateway _ s) as [r1 s1] eqn:E. apply on_gateway_inv in E as (E & Ht & Hlog).
  apply st_bind_inv in E as ([a|e] & s2 & E1 & E); apply lift_inv in E1 as [-> ->].
  - apply Hm in E as [rn E]. apply st_bind_inv in E as ([[]|e] & s2 & E1 & E); apply Hpre in E1 as Hv.
    + cbn [snd] in Hv. set (s3 := Sys s2.1 s2.2 (s_tasks s) (s_log s)).
      assert (E3 : on_gateway (advertise_begin l rn) s3 = (r1, s1)).
      { unfold on_gateway, s3; cbn. destruct s2 as [w g]; cbn in *. rewrite E. destruct s1; cbn in *. by subst. }
      destruct r1 as [[]|e].
      * by eapply (move_routed i l p rn s s3).
      * apply on_gateway_inv in E3 as (E3 & _). apply advertise_begin_view in E3. cbn in E3.
        eapply (finish_channel i p l s); [done|done|done|done|congruence|done|done].
    + destruct E as [-> E]. eapply (finish_channel i p l s); [done|done|done|done| |done|done].
      rewrite <-E in Hv. done.
  - destruct E as [-> E]. injection E as _ E.
    eapply (finish_channel i p l s); [done|done|done|done|by rewrite E|done|done].
Qed.

Lemma step_await_ack i l read s :
  sys_ok s → s_tasks s !! i = Some (AwaitAck l) → sys_ok (step_task own (AFrame i read) i (AwaitAck l) s).
Proof.
  intros O Hi. cbn [step_task].
  eapply (step_routed i l _ read (λ kd, serve_ack l kd.1 kd.2)
    (λ kd, c ← ch_at l; expected ← self (λ g, opening_of "OPEN_ACK" g c);
       _ ← raise_when (negb (kd.1 =? 2)) (ValueError "open_ack");
       message ← lift (strict_json kd.2);
       raise_when (negb (py_eq message (VDict expected))) (ValueError "open_ack")));
    [done|exact Hi|by left| | |done].
  - intros kd. repeat (apply unseen_bind; [auto with unseen|intros ?]). auto with unseen.
  - intros kd x y <-. exists (g_run x.2). unfold serve_ack, mbind, st_bind.
    destruct (ch_at l x) as [[c|e] x1] eqn:E; [|done]. apply ch_at_Ok in E as [-> _].
    destruct (self _ x) as [[c'|e] x1] eqn:E1; [|done]. injection E1 as _ <-.
    destruct (raise_when _ _ x) as [[c''|e] x1] eqn:E1; [|done]. apply raise_when_Ok in E1 as [_ ->].
    destruct (lift _ x) as [[m|e] x1] eqn:E1; [|done]. apply lift_inv in E1 as [_ ->].
    destruct (raise_when _ _ x) as [[c3|e] x1] eqn:E1; [|done]. by apply raise_when_Ok in E1 as [_ ->].
Qed.

Lemma step_acking i l rn r s :
  sys_ok s → s_tasks s !! i = Some (Acking l rn) → sys_ok (step_task own (ADrained i r) i (Acking l rn) s).
Proof.
  intros O Hi. cbn [step_task].
  eapply (step_routed i l _ r (λ _, connect_ready l rn)
    (λ _, _ ← emit (u "READY") [(u "port", VInt 0)]; mret tt)); [done|exact Hi|by right; exists rn| | |done].
  - intros a. apply unseen_bind; [auto with unseen|intros ?]. auto with unseen.
  - intros _ x y <-. exists rn. unfold connect_ready, mbind, st_bind, mret, st_ret.
    by destruct (emit _ _ x) as [[]].
Qed.

Lemma step_await_open i read s :
  sys_ok s → s_tasks s !! i = Some AwaitOpen → sys_ok (step_task own (AFrame i read) i AwaitOpen s).
Proof.
  intros O Hi. cbn [step_task]. destruct (client_fits _ _ O Hi) as (Hr & Hc & Hf).
  pose proof (lookup_lt_Some _ _ _ Hi) as Hlt.
  unfold task at 1. destruct (on_gateway _ s) as [[[[l run] message]|e] s1] eqn:E;
    apply on_gateway_inv in E as (E & Ht & Hlog);
    apply st_bind_inv in E as ([t|e'] & s2 & E1 & E); apply lift_inv in E1 as [-> ->]; try (by destruct E);
    [apply connect_open_view in E as Hv; cbn [snd] in Hv..|].
  - destruct Hv as (-> & id & Hv). apply task_opening; [| |by rewrite Ht|].
    + unfold connect_ack. auto with unseen.
    + eapply opened_ok; eauto.
    + right. exists run. split; [done|]. apply (f_equal v_role) in Hv. cbn in Hv, Hr.
      unfold view_of in Hv, Hr. cbn in Hv, Hr. congruence.
  - apply (finish_none i AwaitOpen); [|by rewrite Ht|done|done]. unfold sys_ok. by rewrite Hv, Ht, Hlog.
  - destruct E as [_ E]. injection E as _ E. apply (finish_none i AwaitOpen); [|by rewrite Ht|done|done].
    unfold sys_ok. by rewrite E, Ht, Hlog.
Qed.
Lemma step_route i l r s :
  sys_ok s → s_tasks s !! i = Some (AwaitRoute l) → sys_ok (step_task own (ARoute i r) i (AwaitRoute l) s).
Proof.
  intros O Hi. cbn [step_task]. destruct (is_Ok r && _) eqn:G; [done|].
  unfold task. destruct (on_gateway _ s) as [r1 s1] eqn:E. apply on_gateway_inv in E as (E & Ht & Hlog).
  apply st_bind_inv in E as ([[]|e] & s2 & E1 & E); apply lift_inv in E1 as [-> ->]; cycle 1.
  { destruct E as [-> E]. injection E as _ E.
    eapply (finish_channel i _ l s); [done|exact Hi|done|done|by rewrite E|done|done]. }
  apply st_bind_inv in E as ([[]|e] & s2 & E1 & E); cycle 1.
  { destruct E as [-> <-]. assert (unseen (advertise_end l)) as Hu.
    { unfold advertise_end. apply unseen_bind; auto with unseen. }
    apply Hu in E1. eapply (finish_channel i _ l s); [done|exact Hi|done|done|done|done|done]. }
  assert (s2 = (s_w s, s_g s)) as ->.
  { unfold advertise_end in E1. apply st_bind_Ok in E1 as (c & s3 & E1 & E2).
    apply ch_at_Ok in E1 as [-> _]. by apply raise_when_Ok in E2 as [_ ->]. }
  apply st_bind_inv in E as ([server|e] & s3 & E2 & E); [|done]. injection E2 as <- <-.
  pose proof (ok_four _ _ _ O) as H4.
  assert (Hv : r1 = Ok tt ∧ view_of (s_g s1) = v_set_pending (match v_role (view_of (s_g s)) with
    | Server => v_pending (view_of (s_g s)) - 1 | Client => v_pending (view_of (s_g s)) end) (view_of (s_g s))).
  { unfold is_server in E; cbn in E. unfold view_of, v_set_pending; cbn.
    destruct (g_role (s_g s)) eqn:Hrole; cbn in E; injection E as <- _ E; rewrite <-E; cbn; by rewrite ?Hrole. }
  destruct Hv as [-> Hv]. cbn in G.
  eapply (move_unseen i l _ _ s s1); [done|exact Hv|done|done|exact Hi|done|done|done|by repeat constructor| | |].
  - intros [[id a] n] Hst Hc. destruct Hst as [Hn Hst]. cbn.
    apply chans_lookup in Hc as (ch & Hch & [= <- <- <-]). rewrite Hch in G. bools.
    destruct Hst as [[? _]|(_ & body & Hb & Hh)]; [congruence|].
    split_and!; [lia|lia|done|]. exists body. split; [done|]. by rewrite Hh.
  - cbn. destruct (v_role _); lia.
  - destruct (v_role _); lia.
Qed.

Lemma step_end i p s act :
  act = AEnd i → sys_ok s → s_tasks s !! i = Some p → sys_ok (step_task own act i p s).
Proof.
  intros -> O Hi.
  destruct p; cbn [step_task]; try done;
    first [by eapply finish_none|by apply finish_forward|
           eapply (finish_channel i _ _ s); [done|exact Hi|done|done|done|done|done]].
Qed.

Lemma step_pump i l q s :
  sys_ok s → s_tasks s !! i = Some (Forwarding l) → sys_ok (step_task own (APump i q) i (Forwarding l) s).
Proof.
  intros O Hi. cbn [step_task]. destruct (on_gateway (pump_at l q) s) as [r s1] eqn:E.
  pose proof (sys_ok_unseen _ _ _ _ (unseen_pump l q) O E) as O1.
  apply on_gateway_inv in E as (_ & Ht & _). rewrite <-Ht in Hi.
  destruct r as [[]|e]; try done; by apply finish_forward.
Qed.

Lemma step_task_ok act i p s :
  (act = AEnd i ∨ (∃ x, act = ATls i x) ∨ (∃ x, act = AFrame i x) ∨ (∃ x, act = ADrained i x) ∨
   (∃ x, act = ARoute i x) ∨ (∃ x, act = APump i x)) →
  sys_ok s → s_tasks s !! i = Some p → sys_ok (step_task own act i p s).
Proof.
  intros Hact O Hi.
  destruct Hact as [->|[[x ->]|[[x ->]|[[x ->]|[[x ->]|[x ->]]]]]]; [by eapply step_end| | | | |];
    destruct p; try exact O.
  - by apply step_handshake.
  - by apply step_dialling.
  - by apply step_await_ack.
  - by apply step_await_open.
  - by apply step_acking.
  - by apply step_route.
  - by apply step_pump.
Qed.

Lemma command_ok op body s : sys_ok s → sys_ok (step own (ACommand op body) s).
Proof.
  intros O. cbn [step]. destruct (on_gateway _ s) as [r s1] eqn:E.
  apply on_gateway_inv in E as (E & Ht & Hlog). apply command_view in E as [[Hv Hop]|(-> & id & l & Hid & Hl & E)].
  - cbn in Hv. assert (O1 : sys_ok s1) by (unfold sys_ok; by rewrite Hv, Ht, Hlog).
    destruct r as [[]|e]; [|done]. rewrite bool_decide_eq_false_2 by auto. done.
  - assert (Htext : text body "channel_id" = id) by (unfold text; by rewrite Hid).
    cbn in Hl. apply (ok_channels _ _ _ O) in Hl as Hx. destruct Hx as [(c & Hc & Hci) (i & p & Hi & Hp)].
    apply (acknowledge_view _ _ _ _ _ c) in E; [|done]. cbn [snd] in E.
    destruct r as [[]|e]; [|unfold sys_ok; by rewrite E, Ht, Hlog].
    destruct E as (Hack & Hn & Hans & Hv).
    rewrite bool_decide_eq_true_2, Htext, Hl by done.
    destruct (ok_phase _ _ _ O _ _ Hi) as [Hr Hph]. destruct (Hph l Hp) as (c1 & Hc1 & _ & Hst).
    rewrite Hc in Hc1. injection Hc1 as <-. destruct c as [[id0 a] n]. cbn in Hack, Hn, Hci, Hans. subst.
    assert (p = AwaitRoute l) as ->.
    { destruct p; cbn in Hp; simplify_eq; cbn in Hst; try done; destruct Hst as (? & ? & ?); lia || done. }
    unfold sys_ok; cbn. rewrite Hv, Ht, Hlog.
    assert (s_tasks s = <[i := AwaitRoute l]> (s_tasks s)) as -> by (by rewrite list_insert_id).
    assert (∀ cs v, v_set_chans cs v = v_set_pending (v_pending v) (v_set_chans cs v)) as -> by done.
    eapply (ok_update _ _ _ _ (AwaitRoute l)); [done|done| | |by eapply ok_four|by intros _ [?|?]].
    + split_and!; [done|done|]. cbn. eexists _, (_, true, n). split_and!; [done..| |by repeat constructor].
      destruct Hst as [_ [[_ Hh]|[? _]]]; [|done]. split; [done|]. right. split; [done|].
      exists body. split; [done|]. by rewrite Hh.
    + cbn. destruct (v_role _); lia.
Qed.

Lemma close_begin_view g : view_of (close_begin g) = view_of g.
Proof.
  unfold view_of; cbn. f_equal. generalize ((map_to_list (channels g)).*2) as ls.
  induction ls as [|l ls IH]; [done|]. cbn [foldr]. rewrite (core_alter _ id), IH by done. by apply alter_id.
Qed.

Lemma gw_step_ok act s : sys_ok s → sys_ok (step own act s).
Proof.
  intros O. destruct act; cbn [step];
    try (destruct (s_tasks s !! i) as [p0|] eqn:Hi; [|done]; apply step_task_ok; eauto 10).
  - destruct (_ || _) eqn:G; [done|]. bools. unfold sys_ok in *; cbn.
    apply (ok_accept _ _ _ O); [|done]. unfold is_server in *. bools. done.
  - by apply command_ok.
  - destruct (on_gateway _ s) as [r s1] eqn:E. cbn. eapply sys_ok_unseen; [|exact O|exact E]. auto with unseen.
  - cbv zeta. destruct (q_get _ _) as [[? q]|]; [|done]. exact O.
  - unfold sys_ok in *; cbn. by rewrite close_begin_view.
Qed.

Lemma gw_run_ok acts s : sys_ok s → sys_ok (run own acts s).
Proof. revert s. induction acts as [|act acts IH]; intros s O; [done|]. apply IH. by apply gw_step_ok. Qed.

(** A configured gateway: no channel yet. *)
Definition fresh (g : Gateway) : Prop :=
  channels g = ∅ ∧ g_heap g = [] ∧ retired g = [] ∧ retired_ids g = ∅ ∧ pending g = 0.

Lemma start_ok w g : fresh g → sys_ok (start w g).
Proof.
  intros (Hc & Hh & Hr & Hi & Hp). unfold sys_ok, start, view_of; cbn. rewrite Hc, Hh, Hr, Hi, Hp.
  assert (Ht : ∀ i p, (if is_server g then [] else [Dialling]) !! i = Some p →
    i = O ∧ p = Dialling ∧ is_server g = false).
  { intros i p. destruct (is_server g); [done|]. destruct i; [|done]. by intros [= <-]. }
  split; cbn; try done.
  - intros i p (-> & -> & Hs)%Ht. split; [|done]. cbn. unfold is_server in Hs. bools. by destruct (g_role g).
  - intros i j p q l (-> & -> & _)%Ht (-> & -> & _)%Ht. done.
  - unfold is_server. by destruct (g_role g).
  - rewrite map_size_empty. lia.
  - rewrite map_size_empty. lia.
  - intros Hcl. unfold is_server. rewrite Hcl. cbn. by exists Dialling.
Qed.
End steps.
