(* ===== verification/GatewayFacts.v ===== *)
(** * Theorems about the arena gateway

    The life of a channel, the quotas, the commands of the parent, the pumps,
    the opening handshake and the writing of frames to the parent. *)

From S2P Require Import Prelude Bytes Sha256 Json JsonFacts JsonCanon Env Dict GatewayProtocol GatewayProtocolFacts GatewayJson GatewayLimits Gateway GatewayRun GatewaySafety.
Import Json GatewayProtocol Gateway.

Lemma new_gateway_fresh `{Platform} config run gen g : new_gateway config run gen = Ok g → fresh g.
Proof. intros E. unfold new_gateway in E. py_inv. done. Qed.

Section reachable.
Context `{Env} `{Platform} (own : result pystr).

Lemma reachable_ok config rn gen g w acts :
  new_gateway config rn gen = Ok g → sys_ok (run own acts (start w g)).
Proof. intros E%new_gateway_fresh. apply gw_run_ok. by apply start_ok. Qed.

(** C2.  Whatever the order of connections, messages, commands, timeouts and
    cancellations, the history of every channel is a beginning of one fixed
    story: OPEN sent, OPEN_ACK, ROUTE_OPEN with a request number, a ROUTE_ACK of
    the parent for this channel and this very number, and only then the
    forwarding; followed by its retirement or not.  So nothing is acknowledged
    twice, nothing happens after the retirement, and no channel is retired
    twice. *)
Theorem channel_story config rn gen g w acts l :
  new_gateway config rn gen = Ok g →
  let s := run own acts (start w g) in
  ∃ k n body tail, history l (s_log s) = take k (story l n body) ++ tail ∧
    (tail = [] ∨ tail = [Retired l]) ∧
    ((3 ≤ k)%nat → 1 <= n <= MAX_ID) ∧
    ((4 ≤ k)%nat → ∃ c, g_heap (s_g s) !! l = Some c ∧ answers (ch_id c) n body).
Proof.
  intros E s. pose proof (reachable_ok _ _ _ _ w acts E) as O. fold s in O. clearbody s.
  assert (Hgoal : ∀ c h tail, v_chans (view_of (s_g s)) !! l = Some c → history l (s_log s) = h ++ tail →
    (tail = [] ∨ tail = [Retired l]) → (∃ k, told l c.1.1 k h) →
    ∃ k n body tail, history l (s_log s) = take k (story l n body) ++ tail ∧
      (tail = [] ∨ tail = [Retired l]) ∧ ((3 ≤ k)%nat → 1 <= n <= MAX_ID) ∧
      ((4 ≤ k)%nat → ∃ c, g_heap (s_g s) !! l = Some c ∧ answers (ch_id c) n body)).
  { intros c h tail Hc Hh Ht (k & n & body & -> & Hn & Hb). exists k, n, body, tail.
    split_and!; [done|done|done|]. intros Hk. apply chans_lookup in Hc as (ch & Hch & <-).
    exists ch. split; [done|]. by apply Hb. }
  destruct (v_chans (view_of (s_g s)) !! l) as [c|] eqn:Hc.
  - destruct (ok_chans _ _ _ O _ _ Hc) as [Hin|[_ (k & h & Ht & Hh)]].
    + apply (ok_channels _ _ _ O) in Hin as [_ (i & p & Hi & Hp)].
      destruct (ok_phase _ _ _ O _ _ Hi) as [_ Hx]. destruct (Hx l Hp) as (c1 & Hc1 & _ & Hst).
      rewrite Hc in Hc1. injection Hc1 as <-. apply stage_told in Hst as (k & _ & Ht).
      apply (Hgoal c (history l (s_log s)) []); [done|by rewrite app_nil_r|by left|by exists k].
    + apply (Hgoal c h [Retired l]); [done|done|by right|by exists k].
  - apply lookup_ge_None in Hc. exists 0%nat, 0, [], []. rewrite (ok_fresh _ _ _ O) by done.
    split_and!; [done|by left|lia|lia].
Qed.

(** A task pumps datagrams only for a channel that is registered under its
    own identifier and whose whole opening is behind it: OPEN, OPEN_ACK,
    ROUTE_OPEN and the parent's ROUTE_ACK, in this order, and not retired; and
    no two tasks ever hold the same channel. *)
Theorem forwarding_is_acknowledged config rn gen g w acts i l :
  new_gateway config rn gen = Ok g →
  let s := run own acts (start w g) in
  s_tasks s !! i = Some (Forwarding l) →
  (∃ c body, g_heap (s_g s) !! l = Some c ∧ channels (s_g s) !! ch_id c = Some l ∧ ack c = true ∧
    answers (ch_id c) (route_request c) body ∧
    history l (s_log s) = [Opened l; OpenAcked l; Routed l (route_request c); Acked l body; Forwarded l]) ∧
  ∀ j p, s_tasks s !! j = Some p → phase_loc p = Some l → j = i.
Proof.
  intros E s Hi. pose proof (reachable_ok _ _ _ _ w acts E) as O. fold s in O. clearbody s. split.
  - destruct (ok_phase _ _ _ O _ _ Hi) as [_ Hx]. destruct (Hx l eq_refl) as (c & Hc & Hin & Hst).
    apply chans_lookup in Hc as (ch & Hch & <-). destruct Hst as (_ & Ha & body & Hb & Hh).
    by exists ch, body.
  - intros j p Hj Hp. eapply (ok_distinct _ _ _ O); [exact Hj|exact Hi|done|done].
Qed.

(** C35.  The quotas hold in every reachable state: at most eight channels, at
    most 256 channels ever (retired ones included, whose ports stay reserved), at
    most four connections between their accept and their forwarding, which is
    what [pending] counts on a server; the identifiers of two channels always
    differ, and a retired identifier is not registered again. *)
Theorem gateway_quotas config rn gen g w acts :
  new_gateway config rn gen = Ok g →
  let s := run own acts (start w g) in
  (size (channels (s_g s)) ≤ 8)%nat ∧
  (size (channels (s_g s)) + length (retired (s_g s)) ≤ 256)%nat ∧
  0 <= pending (s_g s) <= 4 ∧
  pending (s_g s) = (match g_role (s_g s) with Server => count (s_tasks s) | Client => 0 end) ∧
  NoDup (ch_id <$> g_heap (s_g s)) ∧
  (∀ id, id ∈ retired_ids (s_g s) → channels (s_g s) !! id = None).
Proof.
  intros E s. pose proof (reachable_ok _ _ _ _ w acts E) as O. fold s in O. clearbody s.
  pose proof (ok_pending _ _ _ O) as Hp. pose proof (ok_four _ _ _ O) as H4.
  split_and!.
  - apply (ok_eight _ _ _ O).
  - apply (ok_total _ _ _ O).
  - unfold view_of in Hp; cbn in Hp. rewrite Hp. pose proof (count_nonneg (s_tasks s)).
    by destruct (g_role (s_g s)).
  - apply H4.
  - exact Hp.
  - apply NoDup_alt. intros i j id Hi Hj.
    apply list_lookup_fmap_Some in Hi as (c & Hid & Hc).
    apply list_lookup_fmap_Some in Hj as (d & Hjd & Hd).
    apply (ok_once _ _ _ O i j (core c) (core d)); unfold view_of; cbn.
    + by rewrite list_lookup_fmap, Hc.
    + by rewrite list_lookup_fmap, Hd.
    + congruence.
  - intros id Hid. by apply (ok_ids _ _ _ O) in Hid as [? _].
Qed.

(** A terminal close is idempotent and never reopens: after the retirement of
    a channel its ROUTE_CLOSE is accepted without any effect, and a late
    ROUTE_ACK for it is refused without any effect. *)
Theorem retired_route_stays_closed config rn gen g w acts l body :
  new_gateway config rn gen = Ok g →
  let s := run own acts (start w g) in
  let now := (s_w s, s_g s) in
  Retired l ∈ s_log s →
  d_get body (u "channel_id") = (λ c, VStr (ch_id c)) <$> g_heap (s_g s) !! l →
  (keys body = [u "channel_id"] → command (u "ROUTE_CLOSE") body now = (Ok tt, now)) ∧
  command (u "ROUTE_ACK") body now = (Raise (ValueError "unknown_route"), now).
Proof.
  intros E s now Hret Hid. pose proof (reachable_ok _ _ _ _ w acts E) as O.
  fold s in O. subst now. clearbody s.
  assert (Hh : Retired l ∈ history l (s_log s)) by (by apply list_elem_of_filter).
  destruct (v_chans (view_of (s_g s)) !! l) as [c|] eqn:Hc.
  2:{ apply lookup_ge_None in Hc. rewrite (ok_fresh _ _ _ O) in Hh by done. by apply elem_of_nil in Hh. }
  destruct (ok_chans _ _ _ O _ _ Hc) as [Hin|[Hin _]].
  { apply (ok_channels _ _ _ O) in Hin as [_ (i & p & Hi & Hp)].
    destruct (ok_phase _ _ _ O _ _ Hi) as [_ Hx]. destruct (Hx l Hp) as (c1 & _ & _ & Hst).
    apply stage_told in Hst as (k & _ & n & b0 & Hst & _). rewrite Hst in Hh.
    apply elem_of_take in Hh as (m & Hm & _). unfold story in Hm.
    do 5 (destruct m as [|m]; [done|]). done. }
  apply chans_lookup in Hc as (ch & Hch & <-). rewrite Hch in Hid. cbn in Hid, Hin.
  apply (ok_ids _ _ _ O) in Hin as Hn. destruct Hn as [Hn _]. cbn in Hn.
  assert (Hget : channel_get (d_get body (u "channel_id")) (s_w s, s_g s) = (Ok None, (s_w s, s_g s))).
  { rewrite Hid. unfold channel_get, self, gets. cbn. by rewrite Hn. }
  split.
  - intros Hk. unfold command. rewrite !decide_False, decide_True by done.
    unfold mbind, st_bind. cbn [fields].
    assert (same_keys body [u "channel_id"] = true) as ->.
    { apply same_keys_spec. intros k. by rewrite Hk. }
    cbn [negb raise_if mbind result_bind lift]. rewrite Hget. unfold self, gets, is_retired. cbn [snd].
    rewrite Hid. by rewrite bool_decide_eq_true_2.
  - unfold command. rewrite !decide_False, decide_True by done.
    unfold mbind, st_bind. by rewrite Hget.
Qed.
End reachable.

(** ** A run, for the witnesses *)

Definition test_platform : Platform := {|
  cert_fingerprint := λ _, Ok (replicate 64 97);
  udp_bind := λ n, Ok (40000 + Z.of_nat n);
  udp_connect := λ _, Ok tt |}.
#[local] Existing Instance test_env.
#[local] Existing Instance test_platform.

Definition peer_cert : bytes := b "attestor".
Definition attestor_id : pystr := Eval vm_compute in sha256_hex peer_cert.
Definition run_id : pystr := replicate 32 114.
Definition session_id : pystr := replicate 32 53.
Definition hex_run : pystr := replicate 32 98.
Definition server_config : dict :=
  [(u "role", status "server"); (u "cert", status "/c"); (u "key", status "/k"); (u "ca", status "/a");
   (u "host", status "127.0.0.1"); (u "port", VInt 0); (u "attestors", VList [VStr attestor_id]);
   (u "game_port", VInt 9000); (u "game_session_id", VStr session_id)].
Definition test_gateway : Gateway := Eval vm_compute in
  match new_gateway server_config (VStr hex_run) (VInt 1) with
  | Ok g => g
  | Raise _ => MkGateway Client [] [] 0 [] 0 ∅ [] [] ∅ 0 false 0 (new_queue 0 0 0)
  end.

Lemma test_gateway_made : new_gateway server_config (VStr hex_run) (VInt 1) = Ok test_gateway.
Proof. vm_compute. reflexivity. Qed.

Definition test_tls : tls_session := Tls (u "TLSv1.3") (Some TUNNEL) false peer_cert.
(** The first channel's identifier, from the entropy of the first event. *)
Definition first_id : pystr := replicate 32 48.
Definition open_ack : bytes :=
  Eval vm_compute in ascii_bytes (dumps_sorted (VDict (opening "OPEN_ACK" hex_run first_id session_id))).
Definition route_ack : dict := [(u "channel_id", VStr first_id); (u "route_request_id", VInt 1)].
Definition opening_acts : list action :=
  [AAccept; ATls 0 (Ok (Some test_tls)); AFrame 0 (Ok (2, open_ack));
   ACommand (u "ROUTE_ACK") route_ack; ARoute 0 (Ok tt)].
Definition closing_acts : list action :=
  opening_acts ++ [APump 0 (UdpRead (b "hi") (loopback 9000)); APump 0 TlsWrite; AEnd 0].

Lemma channel_story_witness :
  let s := run (Ok []) closing_acts (start (World 0 0) test_gateway) in
  (∃ k n body tail, history 0 (s_log s) = take k (story 0 n body) ++ tail ∧
    (tail = [] ∨ tail = [Retired 0]) ∧ ((3 ≤ k)%nat → 1 <= n <= MAX_ID) ∧
    ((4 ≤ k)%nat → ∃ c, g_heap (s_g s) !! 0%nat = Some c ∧ answers (ch_id c) n body)) ∧
  history 0 (s_log s) = story 0 1 route_ack ++ [Retired 0].
Proof.
  split; [|vm_compute; reflexivity].
  exact (channel_story (Ok []) server_config (VStr hex_run) (VInt 1) test_gateway (World 0 0) closing_acts 0 test_gateway_made).
Defined.

Lemma forwarding_is_acknowledged_witness :
  let s := run (Ok []) opening_acts (start (World 0 0) test_gateway) in
  (∃ c body, g_heap (s_g s) !! 0%nat = Some c ∧ channels (s_g s) !! ch_id c = Some 0%nat ∧ ack c = true ∧
    answers (ch_id c) (route_request c) body ∧
    history 0 (s_log s) = [Opened 0; OpenAcked 0; Routed 0 (route_request c); Acked 0 body; Forwarded 0]) ∧
  ∀ j p, s_tasks s !! j = Some p → phase_loc p = Some 0%nat → j = 0%nat.
Proof.
  refine (forwarding_is_acknowledged (Ok []) server_config (VStr hex_run) (VInt 1) test_gateway (World 0 0)
    opening_acts 0 0 test_gateway_made _).
  vm_compute. reflexivity.
Defined.

Lemma gateway_quotas_witness :
  let s := run (Ok []) closing_acts (start (World 0 0) test_gateway) in
  (size (channels (s_g s)) ≤ 8)%nat ∧
  (size (channels (s_g s)) + length (retired (s_g s)) ≤ 256)%nat ∧
  0 <= pending (s_g s) <= 4 ∧
  pending (s_g s) = (match g_role (s_g s) with Server => count (s_tasks s) | Client => 0 end) ∧
  NoDup (ch_id <$> g_heap (s_g s)) ∧
  (∀ id, id ∈ retired_ids (s_g s) → channels (s_g s) !! id = None).
Proof.
  exact (gateway_quotas (Ok []) server_config (VStr hex_run) (VInt 1) test_gateway (World 0 0) closing_acts test_gateway_made).
Defined.

Lemma retired_route_stays_closed_witness :
  let s := run (Ok []) closing_acts (start (World 0 0) test_gateway) in
  let now := (s_w s, s_g s) in
  let body := [(u "channel_id", VStr first_id)] in
  (keys body = [u "channel_id"] → command (u "ROUTE_CLOSE") body now = (Ok tt, now)) ∧
  command (u "ROUTE_ACK") body now = (Raise (ValueError "unknown_route"), now).
Proof.
  refine (retired_route_stays_closed (Ok []) server_config (VStr hex_run) (VInt 1) test_gateway (World 0 0)
    closing_acts 0 [(u "channel_id", VStr first_id)] test_gateway_made _ _).
  - apply (list_elem_of_lookup_2 _ 5). vm_compute. reflexivity.
  - vm_compute. reflexivity.
Defined.
