(* ===== verification/GatewayWire.v ===== *)
(** * What the arena gateway puts on its wires

    The pumps of an open channel as two FIFO relays, the opening handshake
    between a server and a client gateway, and the writing of frames to the
    parent. *)

From S2P Require Import Prelude Bytes Json JsonFacts JsonCanon Env Dict GatewayProtocol GatewayProtocolFacts GatewayJson GatewayLimits Gateway.
Import Json GatewayProtocol Gateway.

(** ** The pumps *)

Section relay.
Context `{Env}.

Abbreviation cst := (st (world * Channel)).

(** The tasks of [forward], in the order the event loop runs them. *)
Fixpoint pump_run (ps : list pump) : cst (list pumped) :=
  match ps with
  | [] => mret []
  | p :: ps => o ← pump_step p; os ← pump_run ps; mret (o :: os)
  end.

(** The frames owed to the tunnel and the datagrams owed to the game. *)
Definition owed_out (game : option Z) (ps : list pump) : list (result bytes) :=
  omap (λ p, match p with
    | UdpRead data from =>
        if bool_decide (Some from = loopback <$> game) then Some (frame data (Some 1)) else None
    | Beat => Some (control_frame (control "HEARTBEAT"))
    | _ => None
    end) ps.
Definition owed_in (ps : list pump) : list bytes :=
  omap (λ p, match p with TlsRead kind data => if kind =? 1 then Some data else None | _ => None end) ps.

Definition to_tunnel (os : list pumped) : list bytes :=
  omap (λ o, match o with ToTunnel wire => Some wire | _ => None end) os.
Definition to_game (os : list pumped) : list bytes :=
  omap (λ o, match o with ToGame data => Some data | _ => None end) os.

Definition waiting_out (c : Channel) : list bytes := (q_items (outgoing c)).*2.
Definition waiting_in (c : Channel) : list bytes := (q_items (incoming c)).*2.

(** One pump: the balance of each direction. *)
Definition balance (c c' : Channel) (p : pump) (o : pumped) : Prop :=
  origin c' = origin c ∧
  Ok <$> (to_tunnel [o] ++ waiting_out c') = (Ok <$> waiting_out c) ++ owed_out (origin c) [p] ∧
  to_game [o] ++ waiting_in c' = waiting_in c ++ owed_in [p].

Lemma take_tx_spec n s x s' : take_tx n s = (x, s') →
  origin s'.2 = origin s.2 ∧ outgoing s'.2 = outgoing s.2 ∧ incoming s'.2 = incoming s.2.
Proof.
  destruct s as [w c]. unfold take_tx, mbind, st_bind, on_world, zoom. cbn.
  destruct (rate_take _ _ _). by intros [= _ <-].
Qed.
Lemma take_rx_spec n s x s' : take_rx n s = (x, s') →
  origin s'.2 = origin s.2 ∧ outgoing s'.2 = outgoing s.2 ∧ incoming s'.2 = incoming s.2.
Proof.
  destruct s as [w c]. unfold take_rx, mbind, st_bind, on_world, zoom. cbn.
  destruct (rate_take _ _ _). by intros [= _ <-].
Qed.
Lemma put_out_spec wire s x s' : put_out wire s = (Ok x, s') →
  origin s'.2 = origin s.2 ∧ waiting_out s'.2 = waiting_out s.2 ++ [wire] ∧ incoming s'.2 = incoming s.2.
Proof.
  destruct s as [w c]. unfold put_out, mbind, st_bind, on_world, zoom. cbn.
  destruct (q_put _ _ _) as [[?|?] q] eqn:E; intros [= _ <-]. apply q_put_Ok in E as (_ & _ & ->).
  unfold waiting_out; cbn. by rewrite fmap_app.
Qed.
Lemma put_in_spec data s x s' : put_in data s = (Ok x, s') →
  origin s'.2 = origin s.2 ∧ outgoing s'.2 = outgoing s.2 ∧ waiting_in s'.2 = waiting_in s.2 ++ [data].
Proof.
  destruct s as [w c]. unfold put_in, mbind, st_bind, on_world, zoom. cbn.
  destruct (q_put _ _ _) as [[?|?] q] eqn:E; intros [= _ <-]. apply q_put_Ok in E as (_ & _ & ->).
  unfold waiting_in; cbn. by rewrite fmap_app.
Qed.
Lemma q_get_spec t q r q' : q_get t q = Some (r, q') →
  ∃ data, (q_items q).*2 = data :: (q_items q').*2 ∧ ∀ d, r = Ok d → d = data.
Proof.
  unfold q_get. destruct (q_items q) as [|[t0 data] items]; [done|]. intros [= <- <-].
  exists data. split; [done|]. intros d. by case_match; intros [= <-].
Qed.

Lemma pump_balance p s o s' : pump_step p s = (Ok o, s') → balance s.2 s'.2 p o.
Proof.
  unfold balance. destruct p as [data from| |kind data| |]; cbn [pump_step]; intros E.
  - unfold udp_reader in E. apply st_bind_Ok in E as (x & s1 & E1 & E).
    apply take_tx_spec in E1 as (Ho & Hq & Hi). apply st_bind_Ok in E as (own & s2 & E2 & E).
    injection E2 as <- <-. unfold owed_out; cbn. unfold from_origin in E. rewrite Ho in E.
    destruct (bool_decide _); py_inv.
    + match goal with E : frame _ _ = _ |- _ => rewrite E end.
      match goal with E : put_out _ _ = _ |- _ => apply put_out_spec in E as (Ho2 & Hq2 & Hi2) end.
      unfold waiting_in. rewrite Ho2, Hq2, Hi2. unfold waiting_out.
      rewrite Hq, Hi, !fmap_app. cbn. by rewrite !app_nil_r.
    + unfold waiting_in, waiting_out. by rewrite Hq, Hi, !app_nil_r.
  - unfold tls_writer in E. apply st_bind_Ok in E as (o1 & s1 & E1 & E). injection E as <- <-.
    unfold get_out in E1. cbv zeta in E1. unfold waiting_out, waiting_in.
    destruct (q_get _ _) as [[[d|e] q]|] eqn:Eq; cbn in E1; try discriminate E1;
      injection E1 as <- <-; cbn; rewrite !app_nil_r; try done.
    apply q_get_spec in Eq as (data & Hd & Hdd). rewrite Hd, (Hdd d) by done. done.
  - unfold tls_reader in E. apply st_bind_Ok in E as (x & s1 & E1 & E).
    apply take_rx_spec in E1 as (Ho & Hq & Hi). unfold owed_in, waiting_in, waiting_out; cbn.
    destruct (kind =? 1).
    + py_inv. match goal with E : put_in _ _ = _ |- _ => apply put_in_spec in E as (Ho2 & Hq2 & Hi2) end.
      unfold waiting_in in Hi2. rewrite Ho2, Hq2, Hi2, Hq, Hi, !app_nil_r. done.
    + do 3 (apply st_bind_Ok in E as (? & ? & E1 & E); apply lift_inv in E1 as [_ ->]).
      assert (s' = s1 ∧ to_tunnel [o] = [] ∧ to_game [o] = []) as (-> & Ht & Hg).
      { destruct (py_eq _ _); py_inv; done. }
      unfold to_tunnel, to_game in Ht, Hg. cbn in Ht, Hg. rewrite Ht, Hg, Ho, Hq, Hi, !app_nil_r. done.
  - unfold udp_writer in E. apply st_bind_Ok in E as (o1 & s1 & E1 & E). injection E as <- <-.
    unfold get_in in E1. cbv zeta in E1. unfold waiting_out, waiting_in.
    destruct (q_get _ _) as [[[d|e] q]|] eqn:Eq; cbn in E1; try discriminate E1;
      injection E1 as <- <-; cbn; rewrite !app_nil_r; try done.
    apply q_get_spec in Eq as (data & Hd & Hdd). rewrite Hd, (Hdd d) by done. done.
  - unfold heartbeat in E. apply st_bind_Ok in E as (wire & s1 & E1 & E). apply lift_inv in E1 as [E1 ->].
    py_inv. match goal with E : put_out _ _ = _ |- _ => apply put_out_spec in E as (Ho2 & Hq2 & Hi2) end.
    unfold waiting_in, owed_out, owed_in; cbn. rewrite Ho2, Hq2, Hi2, E1, fmap_app, !app_nil_r. done.
Qed.

(** While a channel is open, each direction is a FIFO: the frames written to
    the tunnel, followed by those still queued, are exactly the frames of the
    datagrams received from the game's own port (and the heartbeats) in order,
    no byte of a foreign datagram among them; the datagrams sent to the game,
    followed by those still queued, are exactly the payloads read from the
    tunnel in order. *)
Theorem pumps_relay ps w c os s' :
  pump_run ps (w, c) = (Ok os, s') →
  Ok <$> (to_tunnel os ++ waiting_out s'.2) = (Ok <$> waiting_out c) ++ owed_out (origin c) ps ∧
  to_game os ++ waiting_in s'.2 = waiting_in c ++ owed_in ps.
Proof.
  assert (Hgen : ∀ ps s os s', pump_run ps s = (Ok os, s') →
    Ok <$> (to_tunnel os ++ waiting_out s'.2) = (Ok <$> waiting_out s.2) ++ owed_out (origin s.2) ps ∧
    to_game os ++ waiting_in s'.2 = waiting_in s.2 ++ owed_in ps); [|apply Hgen].
  clear ps w c os s'. induction ps as [|p ps IH]; intros s os s' E; cbn [pump_run] in E.
  { py_inv. unfold owed_out, owed_in; cbn. by rewrite !app_nil_r. }
  apply st_bind_Ok in E as (o & s1 & E1 & E). apply st_bind_Ok in E as (os1 & s2 & E2 & E). py_inv.
  apply pump_balance in E1 as (Ho & Hout & Hin). apply IH in E2 as [IHo IHi]. rewrite Ho in IHo.
  assert (Hcat : ∀ {A B} (f : A → option B) x l, omap f (x :: l) = omap f [x] ++ omap f l).
  { intros A B f x l. by rewrite <-omap_app. }
  unfold to_tunnel, to_game, owed_out, owed_in in *. rewrite !(Hcat _ _ _ o os1), !(Hcat _ _ _ p ps). split.
  - rewrite app_assoc, <-Hout, <-app_assoc, !fmap_app, <-!app_assoc. f_equal. by rewrite <-IHo, fmap_app.
  - by rewrite app_assoc, <-Hin, <-!app_assoc, IHi.
Qed.
End relay.

#[local] Existing Instance test_env.

Definition open_channel : Channel :=
  MkChannel (u "id") (u "fp") (u "s") 40000 (Some 9000) true false 1 default_queue default_queue
    (new_rate 0) (new_rate 0).

Definition relay_pumps : list pump :=
  [UdpRead (b "one") (loopback 9000); UdpRead (b "spoof") (loopback 9001); TlsRead 1 (b "two");
   Beat; TlsWrite; UdpWrite].
Definition relay_outs : list pumped := Eval vm_compute in
  match pump_run relay_pumps (World 0 0, open_channel) with (Ok os, _) => os | _ => [] end.
Definition relay_end : world * Channel := Eval vm_compute in
  (pump_run relay_pumps (World 0 0, open_channel)).2.

Lemma pumps_relay_witness :
  Ok <$> (to_tunnel relay_outs ++ waiting_out relay_end.2) =
    (Ok <$> waiting_out open_channel) ++ owed_out (origin open_channel) relay_pumps ∧
  to_game relay_outs ++ waiting_in relay_end.2 = waiting_in open_channel ++ owed_in relay_pumps.
Proof.
  apply (pumps_relay relay_pumps (World 0 0) open_channel relay_outs relay_end).
  vm_compute. reflexivity.
Defined.

(** ** The opening handshake *)

Lemma len_dump_hex s : forallb is_hex s = true → len (dump_str s) = len s + 2.
Proof.
  intros Hs. unfold dump_str. rewrite len_cons, len_app.
  assert (s ≫= escape = s) as ->.
  { induction s as [|c s IH]; [done|]. cbn [forallb] in Hs. apply andb_true_iff in Hs as [Hc Hs].
    rewrite bind_cons, IH by done. unfold is_hex in Hc.
    assert (48 <= c <= 57 ∨ 97 <= c <= 102) as Hr by (apply orb_true_iff in Hc as [?|?]; bools; lia).
    unfold escape. repeat match goal with |- context [c =? ?k] => destruct (Z.eqb_spec c k); [lia|] end.
    destruct (Z.leb_spec 32 c); [|lia]. destruct (Z.leb_spec c 126); [done|lia]. }
  unfold len at 2. cbn. lia.
Qed.

Lemma hex_wf s : forallb is_hex s = true → wf (VStr s) = true.
Proof.
  intros Hs. cbn. unfold utf8_encodable. rewrite forallb_Forall in *.
  eapply Forall_impl; [exact Hs|]. intros c Hc. unfold is_hex in Hc. unfold is_scalar.
  assert (48 <= c <= 102) as Hr by (apply orb_true_iff in Hc as [?|?]; bools; lia).
  unfold is_surrogate. destruct (Z.leb_spec 0 c), (Z.leb_spec c 1114111), (Z.leb_spec 55296 c); cbn; lia || done.
Qed.

Lemma len_join_le sep l : len (join sep l) <= foldr (λ s n, len s + len sep + n) 0 l.
Proof.
  induction l as [|x l IH]; [done|]. rewrite join_cons, len_app. cbn [foldr].
  pose proof (len_nonneg sep). destruct l; [unfold len at 2; cbn in *; lia|]. rewrite len_app. lia.
Qed.

(** Three identifiers of 32 hexadecimal digits. *)
Definition id32 (s : pystr) : Prop := len s = 32 ∧ forallb is_hex s = true.

Lemma hex_id_id32 v s : hex_id v 32 = Ok s ↔ v = VStr s ∧ id32 s.
Proof. unfold id32. rewrite hex_id_Ok. naive_solver. Qed.

Definition sorted_opening (operation : string) (run channel session : pystr) : dict :=
  [(u "channel_id", VStr channel); (u "game_session_id", VStr session); (u "operation", status operation);
   (u "profile", VStr PROFILE); (u "protocol_version", VStr TUNNEL); (u "server_run_id", VStr run)].

Lemma sorted_dict_opening op r c s : sorted_dict (opening op r c s) = sorted_opening op r c s.
Proof. vm_compute. reflexivity. Qed.
Lemma sorted_dict_sorted op r c s : sorted_dict (sorted_opening op r c s) = sorted_opening op r c s.
Proof. vm_compute. reflexivity. Qed.

Lemma py_eq_strings d e :
  length d = length e → Forall (λ kv, ∃ s, kv.2 = VStr s ∧ d_get e kv.1 = Some (VStr s)) d →
  py_eq (VDict d) (VDict e) = true.
Proof.
  intros Hl Hd. cbn. rewrite Hl, Nat.eqb_refl. cbn. clear Hl.
  induction Hd as [|[k v] d (s & Hs & Hk) _ IH]; [done|]. cbn in *. subst. rewrite Hk. cbn.
  by rewrite bool_decide_eq_true_2.
Qed.

Section handshake.
Context (r c s : pystr) (Hr : id32 r) (Hc : id32 c) (Hs : id32 s).

Lemma opening_wf op d :
  d = opening op r c s ∨ d = sorted_opening op r c s → utf8_encodable (u op) = true → wf (VDict d) = true.
Proof.
  intros Hd Hop. destruct Hr as [_ Hr2], Hc as [_ Hc2], Hs as [_ Hs2].
  apply hex_wf in Hr2, Hc2, Hs2. cbn in Hr2, Hc2, Hs2.
  change (wf (VDict d)) with (forallb wf_item d && bool_decide (NoDup (keys d))).
  apply andb_true_iff. destruct Hd as [-> | ->]; (split; [|vm_compute; reflexivity]);
    unfold opening, sorted_opening, status; cbn [forallb wf_item wf];
    rewrite Hr2, Hc2, Hs2, Hop; vm_compute; reflexivity.
Qed.

Lemma opening_len op :
  len (dump_str (u op)) <= 1000 → len (dumps (VDict (sorted_opening op r c s))) <= 4096.
Proof.
  intros Hop. destruct Hr as [Hr1 Hr2], Hc as [Hc1 Hc2], Hs as [Hs1 Hs2].
  change (dumps (VDict (sorted_opening op r c s))) with
    ([123] ++ join [44] (dump_item <$> sorted_opening op r c s) ++ [125]).
  rewrite !len_app. pose proof (len_join_le [44] (dump_item <$> sorted_opening op r c s)) as Hj.
  unfold sorted_opening, status in *. cbn [fmap list_fmap dump_item foldr dumps] in Hj.
  revert Hj. set (j := len (join _ _)).
  change (len (join _ _)) with j. clearbody j. intros Hj.
  rewrite !len_app, !len_cons, (len_dump_hex r), (len_dump_hex c), (len_dump_hex s), Hr1, Hc1, Hs1 in Hj by done.
  assert (len (dump_str (u "channel_id")) = 12) as Hk1 by reflexivity.
  assert (len (dump_str (u "game_session_id")) = 17) as Hk2 by reflexivity.
  assert (len (dump_str (u "operation")) = 11) as Hk3 by reflexivity.
  assert (len (dump_str (u "profile")) = 9) as Hk4 by reflexivity.
  assert (len (dump_str (u "protocol_version")) = 18) as Hk5 by reflexivity.
  assert (len (dump_str (u "server_run_id")) = 15) as Hk6 by reflexivity.
  assert (len (dump_str PROFILE) = 22) as Hk7 by reflexivity.
  assert (len (dump_str TUNNEL) = 21) as Hk8 by reflexivity.
  rewrite Hk1, Hk2, Hk3, Hk4, Hk5, Hk6, Hk7, Hk8 in Hj.
  rewrite !len_nil in Hj.
  change (len [123]) with 1. change (len [125]) with 1. lia.
Qed.

Lemma opening_bytes d op :
  sorted_dict d = sorted_opening op r c s → wf (VDict d) = true → (nesting (VDict d) ≤ 1)%nat →
  len (dump_str (u op)) <= 1000 →
  ∃ data wire, json_bytes (VDict d) = Ok data ∧ control_frame (VDict d) = Ok wire ∧
    frame data (Some 2) = Ok wire ∧ strict_json data = Ok (VDict (sorted_opening op r c s)).
Proof.
  intros Hd Hw Hn Hop. assert (Hl : len (dumps_sorted (VDict d)) <= 4096).
  { unfold dumps_sorted. rewrite sorted_keys_dict, Hd. by apply opening_len. }
  assert (Hj : json_bytes (VDict d) = Ok (ascii_bytes (dumps_sorted (VDict d)))).
  { apply json_bytes_Ok; [done|unfold recursion_limit; lia|]. split_and!; [done|done|lia]. }
  assert (Hs' : strict_json (ascii_bytes (dumps_sorted (VDict d))) = Ok (VDict (sorted_opening op r c s))).
  { rewrite strict_json_dumps; [by rewrite sorted_keys_dict, Hd|done|lia|done]. }
  assert (Hp : 1 <= len (ascii_bytes (dumps_sorted (VDict d)))).
  { apply strict_json_Ok in Hs' as [? _]. lia. }
  do 2 eexists. split_and!; [exact Hj| | |exact Hs'].
  - unfold control_frame. rewrite Hj. cbn [mbind result_bind]. apply frame_Ok. split_and!; try done.
    + by rewrite len_ascii_bytes.
    + by intros k [= <-].
  - apply frame_Ok. split_and!; try done.
    + by rewrite len_ascii_bytes.
    + by intros k [= <-].
Qed.
End handshake.

(** The opening handshake succeeds between a server and a client of the same
    version: the OPEN that the server writes for a channel fits in a frame; the
    client takes from it the server's run, the channel and the session; and the
    OPEN_ACK that the client writes is, read by the server, equal to the one it
    expects for this channel. *)
Theorem opening_handshake g c :
  id32 (g_run g) → id32 (ch_id c) → id32 (g_session g) →
  ∃ data wire message reply,
    control_frame (VDict (opening_of "OPEN" g c)) = Ok wire ∧ frame data (Some 2) = Ok wire ∧
    strict_json data = Ok message ∧ check_opening 2 message = Ok (reply, g_run g) ∧
    d_item reply (u "channel_id") = Ok (VStr (ch_id c)) ∧
    d_item reply (u "game_session_id") = Ok (VStr (g_session g)) ∧
    ∃ ack ack_wire answer,
      control_frame (VDict (d_set reply (u "operation") (status "OPEN_ACK"))) = Ok ack_wire ∧
      frame ack (Some 2) = Ok ack_wire ∧ strict_json ack = Ok answer ∧
      py_eq answer (VDict (opening_of "OPEN_ACK" g c)) = true.
Proof.
  intros Hr Hc Hs. set (r := g_run g) in *. set (n := ch_id c) in *. set (s := g_session g) in *.
  destruct (opening_bytes r n s Hr Hc Hs (opening "OPEN" r n s) "OPEN") as (data & wire & _ & Hcf & Hfr & Hsj).
  - apply sorted_dict_opening.
  - eapply opening_wf; [..|by left|done]; done.
  - cbn. lia.
  - vm_compute. done.
  - exists data, wire, (VDict (sorted_opening "OPEN" r n s)), (sorted_opening "OPEN" r n s).
    split_and!; [exact Hcf|exact Hfr|exact Hsj| |done|done|].
    + unfold check_opening.
      assert (fields (VDict (sorted_opening "OPEN" r n s)) open_fields = Ok (sorted_opening "OPEN" r n s)) as ->
        by (vm_compute; reflexivity).
      cbn [mbind result_bind]. assert (hex_id (VStr r) 32 = Ok r) as Hh by (by apply hex_id_id32).
      assert (∃ v1 v2 v3, d_item (sorted_opening "OPEN" r n s) (u "operation") = Ok v1 ∧
        d_item (sorted_opening "OPEN" r n s) (u "protocol_version") = Ok v2 ∧
        d_item (sorted_opening "OPEN" r n s) (u "profile") = Ok v3 ∧
        d_item (sorted_opening "OPEN" r n s) (u "server_run_id") = Ok (VStr r) ∧
        py_eq v1 (status "OPEN") = true ∧ py_eq v2 (VStr TUNNEL) = true ∧ py_eq v3 (VStr PROFILE) = true)
        as (v1 & v2 & v3 & E1 & E2 & E3 & E4 & E5 & E6 & E7) by (vm_compute; do 3 eexists; done).
      rewrite E1, E2, E3, E4. cbn [mbind result_bind]. rewrite E5, E6, E7. cbn [negb orb Z.eqb raise_if].
      change (2 =? 2) with true. cbn [negb raise_if mbind result_bind]. by rewrite Hh.
    + change (d_set (sorted_opening "OPEN" r n s) (u "operation") (status "OPEN_ACK"))
        with (sorted_opening "OPEN_ACK" r n s).
      destruct (opening_bytes r n s Hr Hc Hs (sorted_opening "OPEN_ACK" r n s) "OPEN_ACK") as (ack & aw & _ & H1 & H2 & H3).
      * apply sorted_dict_sorted.
      * eapply opening_wf; [..|by right|done]; done.
      * cbn. lia.
      * vm_compute. done.
      * exists ack, aw, (VDict (sorted_opening "OPEN_ACK" r n s)). split_and!; [done..|].
        apply py_eq_strings; [done|].
        repeat constructor; eexists; (split; [reflexivity|vm_compute; reflexivity]).
Qed.

Definition hex_gateway : Gateway :=
  MkGateway Server [] (replicate 32 53) 9000 (replicate 32 98) 1 ∅ [] [] ∅ 0 false 0 (new_queue 128 262144 1).
Definition hex_channel : Channel :=
  MkChannel (replicate 32 48) (u "fp") (replicate 32 53) 40000 (Some 9000) false false 0 default_queue
    default_queue (new_rate 0) (new_rate 0).

Lemma opening_handshake_witness :
  ∃ data wire message reply,
    control_frame (VDict (opening_of "OPEN" hex_gateway hex_channel)) = Ok wire ∧
    frame data (Some 2) = Ok wire ∧
    strict_json data = Ok message ∧ check_opening 2 message = Ok (reply, g_run hex_gateway) ∧
    d_item reply (u "channel_id") = Ok (VStr (ch_id hex_channel)) ∧
    d_item reply (u "game_session_id") = Ok (VStr (g_session hex_gateway)) ∧
    ∃ ack ack_wire answer,
      control_frame (VDict (d_set reply (u "operation") (status "OPEN_ACK"))) = Ok ack_wire ∧
      frame ack (Some 2) = Ok ack_wire ∧ strict_json ack = Ok answer ∧
      py_eq answer (VDict (opening_of "OPEN_ACK" hex_gateway hex_channel)) = true.
Proof. apply (opening_handshake hex_gateway hex_channel); split; vm_compute; reflexivity. Defined.

(** ** The pipe to the parent *)

(** [output] writes a frame from its first byte on, each byte once: what has
    been written is always a beginning of the frame, and the whole frame exactly
    when it reports success; a failure leaves a strict beginning.  ([os.write]
    takes at least nothing and at most what it is given.) *)
Theorem output_writes_prefix deadline data script out r :
  Forall (λ x, match x.2 with Wrote n => 0 <= n | _ => True end) script →
  output deadline data script = (out, r) →
  ∃ rest, data = out ++ rest ∧ (r = Some (Ok tt) ↔ rest = []) ∧
    (∀ e, r = Some (Raise e) → rest ≠ []).
Proof.
  intros Hs. revert data out r. induction Hs as [|[now w] script Hw _ IH]; intros data out r E.
  - destruct data as [|x data]; cbn in E; injection E as <- <-.
    + by exists [].
    + exists (x :: data). by split_and!.
  - destruct data as [|x data]; [cbn in E; injection E as <- <-; by exists []|].
    set (d := x :: data) in *. assert (Hd : d ≠ []) by done.
    assert (E' : output deadline d ((now, w) :: script) = (out, r)) by exact E. clear E.
    unfold d in E' at 1. cbn [output] in E'. fold d in E'.
    assert (Hstop : ∀ e, ([], Some (Raise e)) = (out, r) → ∃ rest, d = out ++ rest ∧
      (r = Some (Ok tt) ↔ rest = []) ∧ (∀ e, r = Some (Raise e) → rest ≠ [])).
    { intros e [= <- <-]. exists d. by split_and!. }
    destruct (deadline <=? now); [by eapply Hstop|].
    destruct w as [n| |e]; [|by apply IH|by eapply Hstop].
    destruct (n =? 0); [by eapply Hstop|].
    destruct (output deadline (drop (Z.to_nat n) d) script) as [out1 r1] eqn:E1.
    injection E' as <- <-. apply IH in E1 as (rest & Hr & ?). exists rest.
    split; [|done]. rewrite <-(take_drop (Z.to_nat n) d) at 1. rewrite Hr. by rewrite <-app_assoc.
Qed.

Lemma output_writes_prefix_witness :
  ∃ rest, b "frame" = b "fra" ++ rest ∧ (Some (Raise (OSError "EPIPE")) = Some (Ok tt) ↔ rest = []) ∧
    (∀ e, Some (Raise (A := unit) (OSError "EPIPE")) = Some (Raise e) → rest ≠ []).
Proof.
  apply (output_writes_prefix 200 (b "frame") [(1, Wrote 1); (2, Blocked); (3, Wrote 2); (4, WriteError (OSError "EPIPE"))]).
  - repeat constructor; cbn; lia.
  - vm_compute. reflexivity.
Defined.

(** [asyncio.IncompleteReadError] is an [EOFError]: a frame cut short by the
    parent is handled by [stdio_main] as the end of its input, and never reaches
    the clause of [main] that names it. *)
Lemma truncated_frame_exits_zero : main (Raise IncompleteReadError) = Ok (0, None).
Proof. reflexivity. Qed.
