(* ===== verification/GatewayTunnel.v ===== *)
(** * Two arena gateways and the tunnel between them

    The open channel of a server gateway and that of a client gateway, composed:
    what one writes to its TLS connection is the stream the other reads.  Each
    endpoint runs the pumps of [Gateway.v] in any order and may end at any
    moment; the bytes of a write become readable whenever the network pleases, in
    order. *)

From S2P Require Import Prelude Bytes Json Env Dict Stream GatewayProtocol GatewayProtocolFacts Gateway GatewayWire.
Import Json Stream GatewayProtocol Gateway.

Record endpoint := Endpoint {
  e_state : world * Channel;
  e_alive : bool;                 (* [forward] is running *)
  e_in : reader;                  (* the stream from the other endpoint *)
  e_accepted : list bytes;        (* datagrams taken from the own game, in order *)
  e_delivered : list bytes }.     (* datagrams handed to the own game, in order *)
Abbreviation tunnel := (endpoint * endpoint)%type.

(** What a task of [forward] does next; [Stop]: it fails, is cancelled, or the
    parent closes the route. *)
Inductive action :=
| FromGame (data : bytes) (from : pystr * Z)
| WriteTunnel (arrival : nat → Z)
| ReadTunnel
| WriteGame
| Heartbeat
| Stop.

Definition idle : Z := default_idle.
Definition kind_of (k : option Z) : Z := default 0 k.

Section tunnel.
Context `{Env}.

Definition stop (a : endpoint) : endpoint :=
  Endpoint (e_state a) false (e_in a) (e_accepted a) (e_delivered a).
(** [pump_step] at an endpoint: what it writes goes to the stream of the other. *)
Definition pump_on (p : pump) (arrival : nat → Z) (t : tunnel) : tunnel :=
  let '(a, z) := t in
  let accepted := match p with
                  | UdpRead data from => if from_origin from (e_state a).2 then [data] else []
                  | _ => []
                  end in
  match pump_step p (e_state a) with
  | (Raise _, s) => (Endpoint s false (e_in a) (e_accepted a) (e_delivered a), z)
  | (Ok o, s) =>
      let a := Endpoint s (match o with Ended => false | _ => true end) (e_in a)
                 (e_accepted a ++ accepted) (e_delivered a) in
      match o with
      | Quiet | Ended => (a, z)
      | ToTunnel wire =>
          (a, Endpoint (e_state z) (e_alive z)
                (Reader (Stream.pending (e_in z) ++ imap (λ i x, (arrival i, x)) wire) (eof (e_in z)) (Stream.now (e_in z)))
                (e_accepted z) (e_delivered z))
      | ToGame data =>
          (Endpoint (e_state a) (e_alive a) (e_in a) (e_accepted a) (e_delivered a ++ [data]), z)
      end
  end.
Definition step (act : action) (t : tunnel) : tunnel :=
  let '(a, z) := t in
  if negb (e_alive a) then t else
  match act with
  | FromGame data from => pump_on (UdpRead data from) (λ _, 0) t
  | WriteTunnel arrival => pump_on TlsWrite arrival t
  | ReadTunnel =>
      match read_frame true idle (e_in a) with
      | (Ok (kind, data), r) =>
          pump_on (TlsRead (kind_of kind) data) (λ _, 0)
            (Endpoint (e_state a) true r (e_accepted a) (e_delivered a), z)
      | (Raise _, r) => (Endpoint (e_state a) false r (e_accepted a) (e_delivered a), z)
      end
  | WriteGame => pump_on UdpWrite (λ _, 0) t
  | Heartbeat => pump_on Beat (λ _, 0) t
  | Stop => (stop a, z)
  end.
Definition swap (t : tunnel) : tunnel := (t.2, t.1).
(** One action of the first endpoint ([true]) or of the second. *)
Definition step_side (x : bool * action) (t : tunnel) : tunnel :=
  if x.1 then step x.2 t else swap (step x.2 (swap t)).
Definition run (acts : list (bool * action)) (t : tunnel) : tunnel := foldl (λ t x, step_side x t) t acts.

(** Two channels that have just been opened and acknowledged. *)
Definition fresh (c : Channel) : Prop := waiting_out c = [] ∧ waiting_in c = [].
Definition endpoint_of (w : world) (c : Channel) : endpoint := Endpoint (w, c) true (Reader [] None 0) [] [].
Definition opened (wa : world) (a : Channel) (wz : world) (z : Channel) : tunnel :=
  (endpoint_of wa a, endpoint_of wz z).

(** ** The invariant of one direction *)

(** The frames [l] on the wire. *)
Definition wires (l : list (Z * bytes)) (w : list bytes) : Prop := Forall2 (λ x y, frame x.2 (Some x.1) = Ok y) l w.
Definition datagrams (l : list (Z * bytes)) : list bytes := (filter (λ x, x.1 = 1) l).*2.

(** From [a] to [z]: [unread] are the frames [a] has queued or written and [z]
    has not read; [extra] is what [z] has read and not yet queued. *)
Record flowing (extra : list bytes) (a z : endpoint) : Prop := {
  fl_prefix : ∃ rest, e_accepted a = e_delivered z ++ rest;
  fl_exact : e_alive z = true → ∃ unread tail w,
    wires unread w ∧ (Stream.pending (e_in z)).*2 ++ tail = mjoin w ∧
    (e_alive a = true → tail = mjoin (waiting_out (e_state a).2)) ∧
    e_accepted a = e_delivered z ++ waiting_in (e_state z).2 ++ extra ++ datagrams unread }.
Definition flow : endpoint → endpoint → Prop := flowing [].

Lemma wires_app l k w v : wires l w → wires k v → wires (l ++ k) (w ++ v).
Proof. apply Forall2_app. Qed.
Lemma datagrams_app l k : datagrams (l ++ k) = datagrams l ++ datagrams k.
Proof. unfold datagrams. by rewrite filter_app, fmap_app. Qed.

(** A frame read from a stream of frames is the first of them. *)
Lemma read_first r kind data r' unread w tail :
  read_frame true idle r = (Ok (kind, data), r') → wires unread w → (Stream.pending r).*2 ++ tail = mjoin w →
  ∃ k unread' w', kind = Some k ∧ unread = (k, data) :: unread' ∧ wires unread' w' ∧
    (Stream.pending r').*2 ++ tail = mjoin w'.
Proof.
  intros E Hw Hp. apply read_frame_Ok in E as (first & t1 & _ & _ & Hf & Hb & Hsz & Hl & k & -> & Hk).
  rewrite Hb, <-!app_assoc in Hp. destruct Hw as [|[k0 d0] y unread' w' Hy Hw].
  { cbn in Hp. apply (f_equal length) in Hp. rewrite length_app, Hf in Hp. done. }
  cbn [mjoin list_join fst snd] in *. apply frame_Ok in Hy as (Hl0 & Hk0 & ->). cbn in Hk0.
  rewrite <-!app_assoc in Hp. apply app_inj_1 in Hp as [-> Hp]; [|by rewrite length_be_encode].
  cbn [app] in Hp. injection Hp as Hkk Hp. rewrite be_size in Hsz by lia.
  apply app_inj_1 in Hp as [-> Hp]; [|unfold len in *; lia].
  specialize (Hk0 k0 eq_refl). apply is_kind_range in Hk, Hk0. apply (f_equal b2z) in Hkk. rewrite !b2z_z2b_small in Hkk by lia. subst k0.
  by exists k, unread', w'.
Qed.

(** What a pump adds to the outgoing queue and to the accepted datagrams. *)
Definition accepted_by (p : pump) (c : Channel) : list bytes :=
  match p with UdpRead data from => if from_origin from c then [data] else [] | _ => [] end.
#[local] Instance Ok_inj : Inj (=) (=) (@Ok bytes).
Proof. by intros x y [= ->]. Qed.
Lemma owed_out_wires p c ys xs : Ok <$> xs = (Ok <$> ys) ++ owed_out (origin c) [p] →
  ∃ us ws, xs = ys ++ ws ∧ wires us ws ∧ datagrams us = accepted_by p c.
Proof.
  intros E. assert (Hone : ∀ r : result bytes, Ok <$> xs = (Ok <$> ys) ++ [r] → ∃ w, r = Ok w ∧ xs = ys ++ [w]).
  { intros r Er. apply fmap_app_inv in Er as (l1 & l2 & E1 & E2 & ->).
    apply (inj (fmap Ok)) in E1 as ->. destruct l2 as [|w [|]]; cbn in E2; simplify_eq. by exists w. }
  assert (Hnil : owed_out (origin c) [p] = [] → accepted_by p c = [] →
    ∃ us ws, xs = ys ++ ws ∧ wires us ws ∧ datagrams us = accepted_by p c).
  { intros Ho Ha. rewrite Ho, app_nil_r in E. apply (inj (fmap Ok)) in E as ->.
    exists [], []. rewrite app_nil_r, Ha. split_and!; [done|constructor|done]. }
  destruct p as [data from| |kind data| |]; try by apply Hnil.
  - unfold accepted_by, from_origin in *. unfold owed_out in *. cbn in E, Hnil. destruct (bool_decide _); [|by apply Hnil].
    apply Hone in E as (w & Hw & ->). exists [(1, data)], [w]. split_and!; [done|by repeat constructor|done].
  - cbn in E. apply Hone in E as (w & Hw & ->). unfold control_frame in Hw. apply result_bind_Ok in Hw as (d & _ & Hw).
    exists [(2, d)], [w]. split_and!; [done|by repeat constructor|done].
Qed.

Lemma imap_arrival (f : nat → Z) (l : bytes) : (imap (λ i x, (f i, x)) l).*2 = l.
Proof. revert f. induction l as [|x l IH]; intros f; [done|]. cbn. f_equal. apply (IH (λ i, f (S i))). Qed.

Lemma pump_flow p arrival a z : e_alive a = true → flow a z → flowing (owed_in [p]) z a →
  flow (pump_on p arrival (a, z)).1 (pump_on p arrival (a, z)).2 ∧
  flow (pump_on p arrival (a, z)).2 (pump_on p arrival (a, z)).1.
Proof.
  intros Ha [Hp1 Hx1] [Hp2 Hx2]. unfold pump_on.
  destruct (pump_step p (e_state a)) as [[o|e] s] eqn:E; cbn [fst snd].
  2:{ split; (split; cbn; [done|]); [|done]. intros Hz. destruct (Hx1 Hz) as (us & tail & w & H1 & H2 & _ & H3).
      by exists us, tail, w. }
  apply pump_balance in E as (Ho & Hout & Hin). apply owed_out_wires in Hout as (us & ws & Hout & Hws & Hacc).
  change (match p with UdpRead data from => if from_origin from (e_state a).2 then [data] else [] | _ => [] end)
    with (accepted_by p (e_state a).2). rewrite <-Hacc. clear Hacc Ho.
  destruct (Hx2 Ha) as (un & tl & w & Hun & Htl & Hz & Heq).
  assert (Hback : ∀ alive, flow z (Endpoint s alive (e_in a) (e_accepted a ++ datagrams us) (e_delivered a ++ to_game [o]))).
  { intros alive. assert (Heq' : e_accepted z = (e_delivered a ++ to_game [o]) ++ waiting_in s.2 ++ datagrams un).
    { rewrite Heq, <-!app_assoc. f_equal. by rewrite !app_assoc, Hin. }
    split; cbn; [by eexists|]. intros _. by exists un, tl, w. }
  assert (Hfwd : ∀ alive del, to_tunnel [o] = [] → flow (Endpoint s alive (e_in a) (e_accepted a ++ datagrams us) del) z).
  { intros alive del Hno. rewrite Hno in Hout. cbn [app] in Hout. split; cbn.
    - destruct Hp1 as (rest & ->). exists (rest ++ datagrams us). by rewrite app_assoc.
    - intros Hzl. destruct (Hx1 Hzl) as (un1 & tl1 & w1 & H1 & H2 & H3 & H4).
      exists (un1 ++ us), (tl1 ++ mjoin ws), (w1 ++ ws). split_and!.
      + by apply wires_app.
      + by rewrite app_assoc, H2, join_app.
      + intros _. by rewrite Hout, join_app, H3.
      + by rewrite H4, datagrams_app, <-!app_assoc. }
  destruct o as [| |wire|data]; cbn [fst snd].
  - split; [by apply Hfwd|]. specialize (Hback true). cbn in Hback. by rewrite app_nil_r in Hback.
  - split; [by apply Hfwd|]. specialize (Hback false). cbn in Hback. by rewrite app_nil_r in Hback.
  - specialize (Hback true). cbn in Hback. rewrite app_nil_r in Hback. split.
    + split; cbn.
      * destruct Hp1 as (rest & ->). exists (rest ++ datagrams us). by rewrite app_assoc.
      * intros Hzl. destruct (Hx1 Hzl) as (un1 & tl1 & w1 & H1 & H2 & H3 & H4).
        exists (un1 ++ us), (mjoin (waiting_out s.2)), (w1 ++ ws). split_and!; [by apply wires_app| |done|].
        -- rewrite fmap_app, imap_arrival, join_app, <-H2, (H3 Ha), <-!app_assoc. f_equal.
           rewrite <-join_app, <-Hout. done.
        -- by rewrite H4, datagrams_app, <-!app_assoc.
    + destruct Hback as [Hb1 Hb2]. by split.
  - split; [by apply Hfwd|]. apply (Hback true).
Qed.

Lemma step_flow act t : flow t.1 t.2 → flow t.2 t.1 → flow (step act t).1 (step act t).2 ∧ flow (step act t).2 (step act t).1.
Proof.
  destruct t as [a z]. cbn [fst snd]. intros Haz Hza. unfold step. destruct (e_alive a) eqn:Ha; cbn [negb]; [|done].
  assert (Hdead : ∀ r,
    flow (Endpoint (e_state a) false r (e_accepted a) (e_delivered a)) z ∧
    flow z (Endpoint (e_state a) false r (e_accepted a) (e_delivered a))).
  { intros r. destruct Haz as [H1 H2], Hza as [H3 H4]. split; split; cbn; try done.
    intros Hz. destruct (H2 Hz) as (un & tl & w & ? & ? & _ & ?). by exists un, tl, w. }
  destruct act; try by apply pump_flow.
  - destruct (read_frame true idle (e_in a)) as [[[kind data]|e] r] eqn:Er; [|apply Hdead].
    apply pump_flow; [done| |].
    + destruct Haz as [H1 H2]. split; [exact H1|]. intros Hz. destruct (H2 Hz) as (un & tl & w & ? & ? & Ht & ?).
      exists un, tl, w. split_and!; try done. intros _. by apply Ht.
    + destruct Hza as [H3 H4]. destruct (H4 Ha) as (un & tl & w & Hw & Hp & Ht & Heq).
      destruct (read_first _ _ _ _ _ _ _ Er Hw Hp) as (k & un' & w' & -> & -> & Hw' & Hp').
      split; cbn; [done|]. intros _. exists un', tl, w'. split_and!; try done.
      rewrite Heq. unfold owed_in, datagrams; cbn. f_equal. f_equal.
      destruct (Z.eqb_spec k 1); case_decide; try lia; done.
  - apply Hdead.
Qed.

Lemma run_flow acts t : flow t.1 t.2 → flow t.2 t.1 → flow (run acts t).1 (run acts t).2 ∧ flow (run acts t).2 (run acts t).1.
Proof.
  revert t. induction acts as [|[[] act] acts IH]; intros t H1 H2; [done| |]; cbn [run foldl]; apply IH; unfold step_side; cbn.
  all: try (by apply step_flow). all: by apply (step_flow act (swap t)).
Qed.
Lemma opened_flow wa a wz z : fresh a → fresh z → flow (opened wa a wz z).1 (opened wa a wz z).2.
Proof.
  intros [Ha _] [_ Hz]. split; cbn; [by exists []|]. intros _. exists [], [], []. rewrite Ha, Hz.
  split_and!; try done. constructor.
Qed.

Lemma wires_nil l w : wires l w → mjoin w = [] → l = [].
Proof.
  destruct 1 as [|x y l w Hy _]; [done|]. intros E. cbn in E. apply app_eq_nil in E as [-> _].
  apply frame_Ok in Hy as (_ & _ & Hy). apply (f_equal length) in Hy. rewrite !length_app, length_be_encode in Hy.
  cbn in Hy. lia.
Qed.

Lemma flow_delivered a z : flow a z → e_delivered z `prefix_of` e_accepted a.
Proof. by intros [[rest ->] _]; exists rest. Qed.
(** Nothing of [a]'s is under way to [z]. *)
Definition settled (a z : endpoint) : Prop :=
  e_alive a = true ∧ e_alive z = true ∧
  waiting_out (e_state a).2 = [] ∧ Stream.pending (e_in z) = [] ∧ waiting_in (e_state z).2 = [].
Lemma flow_settled a z : flow a z → settled a z → e_delivered z = e_accepted a.
Proof.
  intros [_ Hx] (Ha & Hz & Ho & Hp & Hi). destruct (Hx Hz) as (us & tl & w & Hw & Hs & Ht & ->).
  rewrite Hp, (Ht Ha), Ho in Hs. rewrite Hi. symmetry in Hs. apply (wires_nil us) in Hs; [|done]. subst us.
  by rewrite app_nil_r.
Qed.

(** C4.  Through two gateways, whatever the order and the timing of their pumps:
    the datagrams one side hands to its game are a prefix of those the other side
    took from its own game's port, byte for byte, in order, none twice and no
    foreign one, even when either side stops; and while both run and nothing is
    under way, all of them have been delivered. *)
Theorem tunnel_end_to_end wa a wz z acts t :
  fresh a → fresh z → t = run acts (opened wa a wz z) →
  e_delivered t.2 `prefix_of` e_accepted t.1 ∧ e_delivered t.1 `prefix_of` e_accepted t.2 ∧
  (settled t.1 t.2 → e_delivered t.2 = e_accepted t.1) ∧ (settled t.2 t.1 → e_delivered t.1 = e_accepted t.2).
Proof.
  intros Ha Hz ->. destruct (run_flow acts (opened wa a wz z)) as [H1 H2]; 
    [by apply opened_flow|by apply (opened_flow wz z wa a)|].
  split_and!; by auto using flow_delivered, flow_settled.
Qed.
End tunnel.

#[local] Existing Instance test_env.

Definition client_channel : Channel :=
  MkChannel (u "id") (u "fp") (u "s") 40001 (Some 9100) true false 1 default_queue default_queue
    (new_rate 0) (new_rate 0).
Definition tunnel_acts : list (bool * action) :=
  [(true, FromGame (b "one") (loopback 9000)); (true, FromGame (b "spoof") (loopback 9001));
   (false, FromGame (b "up") (loopback 9100)); (true, Heartbeat); (true, FromGame (b "two") (loopback 9000));
   (true, WriteTunnel (λ i, Z.of_nat i)); (true, WriteTunnel (λ _, 1)); (false, ReadTunnel); (false, WriteTunnel (λ _, 2));
   (true, WriteTunnel (λ _, 3)); (false, ReadTunnel); (false, ReadTunnel); (false, WriteGame); (true, ReadTunnel);
   (false, WriteGame)].
Lemma tunnel_end_to_end_witness :
  (let t := run tunnel_acts (opened (World 0 0) open_channel (World 0 0) client_channel) in
   e_accepted t.1 = [b "one"; b "two"] ∧ settled t.1 t.2 ∧ e_accepted t.2 = [b "up"] ∧
   Stream.pending (e_in t.1) = []) ∧
  let t := run tunnel_acts (opened (World 0 0) open_channel (World 0 0) client_channel) in
  e_delivered t.2 `prefix_of` e_accepted t.1 ∧ e_delivered t.1 `prefix_of` e_accepted t.2 ∧
  (settled t.1 t.2 → e_delivered t.2 = e_accepted t.1) ∧ (settled t.2 t.1 → e_delivered t.1 = e_accepted t.2).
Proof.
  split.
  - vm_compute. by repeat split.
  - apply (tunnel_end_to_end (World 0 0) open_channel (World 0 0) client_channel tunnel_acts); by repeat split.
Defined.
