(* ===== verification/GatewayShutdown.v ===== *)
(** * The end of the arena gateway

    [Gateway.close] and the end of [stdio_main]: from any reachable state, every
    task is cancelled, every route retired and every UDP socket closed. *)

From S2P Require Import Prelude Bytes Json JsonCanon Env Dict GatewayProtocol GatewayProtocolFacts GatewayJson GatewayLimits Gateway GatewayRun GatewaySafety GatewayFacts.
Import Json GatewayProtocol Gateway.

(** ** What no operation but [retire] does *)

(** No socket is retired, and the channels keep their sockets; a closed channel
    stays closed. *)
Record grows (g g' : Gateway) : Prop := {
  gr_retired : retired g' = retired g;
  gr_heap : ∀ l c, g_heap g !! l = Some c →
    ∃ c', g_heap g' !! l = Some c' ∧ udp_port c' = udp_port c ∧ (closed c = true → closed c' = true) }.

#[export] Instance grows_preorder : PreOrder grows.
Proof.
  split.
  - intros g. split; eauto.
  - intros g1 g2 g3 [R1 H1] [R2 H2]. split; [congruence|].
    intros l c Hc. destruct (H1 l c Hc) as (c2 & Hc2 & ? & ?), (H2 l c2 Hc2) as (c3 & ? & ? & ?).
    exists c3. split_and!; [done|congruence|auto].
Qed.

Create HintDb growing discriminated.

Section growing.
Context `{Env} `{Platform} (own : result pystr).

Abbreviation gst := (st (world * Gateway)).

Definition growing {A} (m : gst A) : Prop := ∀ g0, preserves (λ s, grows g0 s.2) m.

Lemma growing_ret {A} (a : A) : growing (mret a).
Proof. intros g0. apply preserves_ret. Qed.
Lemma growing_raise {A} e : growing (raise e : gst A).
Proof. intros g0. apply preserves_raise. Qed.
Lemma growing_lift {A} (a : result A) : growing (lift a).
Proof. intros g0. apply preserves_lift. Qed.
Lemma growing_raise_when b e : growing (raise_when b e).
Proof. intros g0. apply preserves_lift. Qed.
Lemma growing_self {A} (f : Gateway → A) : growing (self f).
Proof. intros g0. apply preserves_gets. Qed.
Lemma growing_world {A} (m : st world A) : growing (on_world m).
Proof. intros g0 [w g] r [w' g'] Hs E. apply on_world_inv in E as [_ ->]. done. Qed.
Lemma growing_bind {A B} (m : gst A) (k : A → gst B) : growing m → (∀ a, growing (k a)) → growing (m ≫= k).
Proof. intros Hm Hk g0. apply preserves_bind; [apply Hm|intros a; apply Hk]. Qed.
Lemma growing_update (f : Gateway → Gateway) : (∀ g, grows g (f g)) → growing (update f).
Proof. intros Hf g0. apply preserves_modify. intros [w g] Hs. cbn in *. by etrans. Qed.
Lemma growing_ch_at l : growing (ch_at l).
Proof. apply growing_bind; [apply growing_self|intros [c|]; [apply growing_ret|apply growing_raise]]. Qed.
Lemma growing_seq_next : growing (zoom (λ s, tx s.2) (λ n s, (s.1, set_ipc n (ipc s.2) s.2)) seq_next).
Proof. intros g0 [w g] r s' Hs. unfold zoom. destruct (seq_next _). intros [= _ <-]. cbn. etrans; [exact Hs|]. split; eauto. Qed.
Lemma growing_put t wire : growing (zoom (λ s, ipc s.2) (λ q s, (s.1, set_ipc (tx s.2) q s.2)) (q_put t wire)).
Proof. intros g0 [w g] r s' Hs. unfold zoom. destruct (q_put _ _ _). intros [= _ <-]. cbn. etrans; [exact Hs|]. split; eauto. Qed.
Lemma grows_heap g h : (∀ l c, g_heap g !! l = Some c →
    ∃ c', h !! l = Some c' ∧ udp_port c' = udp_port c ∧ (closed c = true → closed c' = true)) → grows g (set_heap h g).
Proof. by split. Qed.
Lemma growing_ch_update l f :
  (∀ c, udp_port (f c) = udp_port c ∧ (closed c = true → closed (f c) = true)) → growing (ch_update l f).
Proof.
  intros Hf. apply growing_update. intros g. apply grows_heap. intros k c Hc. destruct (decide (k = l)) as [->|Hne].
  - exists (f c). rewrite list_lookup_alter_eq, Hc. split; [done|apply Hf].
  - exists c. by rewrite list_lookup_alter_ne.
Qed.

#[local] Hint Resolve growing_ret growing_raise growing_lift growing_raise_when growing_self growing_world
  growing_ch_at growing_seq_next growing_put : growing.
Ltac grow := repeat first [solve [auto with growing]|apply growing_bind; [solve [auto with growing]|intros ?]|case_match].

Lemma growing_emit op body : growing (emit op body).
Proof. unfold emit. grow. Qed.
Lemma growing_connect_udp : growing connect_udp.
Proof. unfold connect_udp. grow. Qed.
#[local] Hint Resolve growing_emit growing_connect_udp : growing.
Lemma growing_ack l : growing (ch_update l ch_set_ack).
Proof. by apply growing_ch_update. Qed.
Lemma growing_origin l port : growing (ch_update l (ch_set_origin port)).
Proof. by apply growing_ch_update. Qed.
Lemma growing_closed l : growing (ch_update l ch_set_closed).
Proof. by apply growing_ch_update. Qed.
Lemma growing_request l n : growing (ch_update l (ch_set_request n)).
Proof. by apply growing_ch_update. Qed.
Lemma growing_register id l : growing (update (λ g, set_channels (<[id := l]> (channels g)) g)).
Proof. apply growing_update. intros g. split; eauto. Qed.
Lemma growing_pending n : growing (update (λ g, set_pending (pending g + n) g)).
Proof. apply growing_update. intros g. split; eauto. Qed.
Lemma growing_pending_minus n : growing (update (λ g, set_pending (pending g - n) g)).
Proof. apply growing_update. intros g. split; eauto. Qed.
#[local] Hint Resolve growing_ack growing_origin growing_closed growing_request growing_register
  growing_pending growing_pending_minus : growing.

Lemma growing_acknowledge l body : growing (acknowledge l body).
Proof.
  unfold acknowledge. repeat (apply growing_bind; [solve [auto with growing]|intros ?]).
  apply growing_bind; [|auto with growing]. case_match; [auto with growing|]. grow.
Qed.
Lemma growing_new_channel id fp session : growing (new_channel id fp session).
Proof.
  unfold new_channel. repeat (apply growing_bind; [solve [auto with growing]|intros ?]).
  apply growing_bind; [case_match; auto with growing|intros _].
  do 2 (apply growing_bind; [solve [auto with growing]|intros ?]).
  intros g0 [w g] r s' Hs E. injection E as _ <-. cbn in *. etrans; [exact Hs|]. apply grows_heap. intros l c Hc.
  exists c. rewrite lookup_app_l by (by eapply lookup_lt_Some). by split_and!.
Qed.
#[local] Hint Resolve growing_acknowledge growing_new_channel : growing.
Lemma growing_advertise_begin l rn : growing (advertise_begin l rn).
Proof. unfold advertise_begin. grow. Qed.
Lemma growing_channel_get key : growing (channel_get key).
Proof. unfold channel_get. grow. Qed.
#[local] Hint Resolve growing_advertise_begin growing_channel_get : growing.
Lemma growing_command op body : growing (command op body).
Proof. unfold command. grow. Qed.
Lemma growing_serve_open tls : growing (serve_open tls).
Proof. unfold serve_open. grow. Qed.
Lemma growing_connect_open kind data : growing (connect_open own kind data).
Proof. unfold connect_open. grow. Qed.
Lemma growing_serve_ack l kind data : growing (serve_ack l kind data).
Proof. unfold serve_ack. grow. Qed.
Lemma growing_connect_ready l rn : growing (connect_ready l rn).
Proof. unfold connect_ready. grow. Qed.
Lemma growing_send_opening l : growing (send_opening l).
Proof. unfold send_opening. grow. Qed.
Lemma growing_advertise_end l : growing (advertise_end l).
Proof. unfold advertise_end. grow. Qed.
Lemma growing_end_forward : growing end_forward.
Proof. unfold end_forward. grow. Qed.
Lemma growing_pump l p : growing (pump_at l p).
Proof.
  intros g0 s r s' Hs E. unfold pump_at in E. apply st_bind_inv in E as ([c|e] & s1 & E1 & E).
  2:{ destruct E as [_ ->]. by eapply growing_ch_at. }
  apply ch_at_Ok in E1 as [-> Hc]. apply st_bind_inv in E as (r1 & s1 & E1 & E).
  destruct (pump_step p (s.1, c)) as [r2 [w c']] eqn:Ep. injection E1 as <- <-. apply lift_inv in E as [_ ->].
  apply (pump_field (λ c, (udp_port c, closed c)) (udp_port c, closed c)) in Ep; [|done..]. cbn in Ep.
  injection Ep as Eu Ec. cbn. etrans; [exact Hs|]. apply grows_heap. intros k d Hd. destruct (decide (k = l)) as [->|Hne].
  - rewrite Hc in Hd. injection Hd as <-. exists c'. rewrite list_lookup_insert_eq by (by eapply lookup_lt_Some).
    split_and!; [done|done|congruence].
  - exists d. by rewrite list_lookup_insert_ne.
Qed.
End growing.

#[export] Hint Resolve growing_ret growing_raise growing_lift growing_raise_when growing_self growing_world growing_ch_at
  growing_emit growing_acknowledge growing_command growing_serve_open growing_connect_open growing_serve_ack
  growing_connect_ready growing_send_opening growing_advertise_end growing_end_forward growing_pump growing_pending
  growing_pending_minus : growing.

(** ** The ledger of the retired sockets *)

Definition retired_loc (e : entry) : option loc := match e with Retired l => Some l | _ => None end.
Definition retired_locs (log : list entry) : list loc := omap retired_loc log.

(** The reserved sockets are those of the retired channels, in order, each once,
    and these channels are closed. *)
Record ledger (s : sys) : Prop := {
  ld_ports : Forall2 (λ l port, ∃ c, g_heap (s_g s) !! l = Some c ∧ udp_port c = port ∧ closed c = true)
    (retired_locs (s_log s)) (retired (s_g s));
  ld_once : NoDup (retired_locs (s_log s));
  ld_settled : ∀ i l, s_tasks s !! i ≠ Some (Opening l) }.

(** A channel that exists and has not been retired. *)
Definition owned (s : sys) (l : loc) : Prop :=
  is_Some (g_heap (s_g s) !! l) ∧ l ∉ retired_locs (s_log s).

Lemma retired_locs_app log es : retired_locs (log ++ es) = retired_locs log ++ retired_locs es.
Proof. apply omap_app. Qed.
Lemma elem_retired_locs l log : l ∈ retired_locs log ↔ Retired l ∈ history l log.
Proof.
  unfold retired_locs, history. rewrite list_elem_of_omap. split.
  - intros (e & He & Hl). destruct e; try done. injection Hl as ->. by apply list_elem_of_filter.
  - intros [_ He]%list_elem_of_filter. by exists (Retired l).
Qed.

Section ledger.
Context `{Env} `{Platform} (own : result pystr).

Abbreviation gst := (st (world * Gateway)).

Lemma owned_task s i p l : sys_ok s → s_tasks s !! i = Some p → phase_loc p = Some l → owned s l.
Proof.
  intros O Hi Hl. destruct (ok_phase _ _ _ O _ _ Hi) as [_ Hp]. destruct (Hp l Hl) as (c & Hc & _ & Hst). split.
  - apply chans_lookup in Hc as (ch & -> & _). done.
  - rewrite elem_retired_locs. apply stage_told in Hst as (k & _ & n & body & -> & _).
    intros He. apply list_elem_of_lookup in He as [j He]. apply lookup_take_Some in He as [He _].
    unfold story in He. do 5 (destruct j as [|j]; [done|]). done.
Qed.

Lemma ledger_grows s s' es :
  ledger s → grows (s_g s) (s_g s') → s_log s' = s_log s ++ es → retired_locs es = [] →
  (∀ i l, s_tasks s' !! i ≠ Some (Opening l)) → ledger s'.
Proof.
  intros [Hp Ho _] [Gr Gh] Hlog He Ht. split; [| |done]; rewrite Hlog, retired_locs_app, He, app_nil_r; [|done].
  rewrite Gr. eapply Forall2_impl; [exact Hp|]. intros l port (c & Hc & <- & Hx).
  destruct (Gh l c Hc) as (c' & ? & ? & ?). exists c'. auto.
Qed.
Lemma owned_grows s s' es l :
  owned s l → grows (s_g s) (s_g s') → s_log s' = s_log s ++ es → retired_locs es = [] → owned s' l.
Proof.
  intros [[c Hc] Hn] [_ Gh] Hlog He. split; [destruct (Gh l c Hc) as (c' & -> & _); done|].
  by rewrite Hlog, retired_locs_app, He, app_nil_r.
Qed.

Lemma on_gateway_grows {A} (m : gst A) s r s' : growing m → on_gateway m s = (r, s') →
  grows (s_g s) (s_g s') ∧ s_tasks s' = s_tasks s ∧ s_log s' = s_log s.
Proof.
  intros Hm E. apply on_gateway_inv in E as (E & Ht & Hl). split_and!; [|done|done].
  exact (Hm (s_g s) _ _ _ (reflexivity _) E).
Qed.
Lemma ledger_on_gateway {A} (m : gst A) s r s' : growing m → ledger s → on_gateway m s = (r, s') → ledger s'.
Proof.
  intros Hm L E. apply (on_gateway_grows _ _ _ _ Hm) in E as (G & Ht & Hl).
  apply (ledger_grows s s' []); [done|done|by rewrite app_nil_r|done|]. rewrite Ht. apply L.
Qed.
Lemma owned_on_gateway {A} (m : gst A) s r s' l : growing m → owned s l → on_gateway m s = (r, s') → owned s' l.
Proof.
  intros Hm L E. apply (on_gateway_grows _ _ _ _ Hm) in E as (G & _ & Hl).
  apply (owned_grows s s' []); [done|done|by rewrite app_nil_r|done].
Qed.
Lemma ledger_move i p es s : ledger s → retired_locs es = [] → (∀ l, p ≠ Opening l) → ledger (move i p (note es s)).
Proof.
  intros L He Hp. apply (ledger_grows s _ es); [done|done|done|done|]. cbn. intros j l Hj.
  apply list_lookup_insert_Some in Hj as [(_ & -> & _)|[_ Hj]]; [by eapply Hp|by eapply L].
Qed.

(** [retire]: the channel is closed, its socket reserved. *)
Definition retired_gateway (l : loc) (c : Channel) (g : Gateway) : Gateway :=
  set_retired (retired g ++ [udp_port c]) (retired_ids g) (set_heap (alter ch_set_closed l (g_heap g)) g).
Lemma retire_grows l s r s' c :
  g_heap s.2 !! l = Some c → retire l s = (r, s') → grows (retired_gateway l c s.2) s'.2.
Proof.
  intros Hc E. unfold retire in E.
  apply st_bind_inv in E as (r1 & s1 & E1 & E). injection E1 as <- <-.
  apply st_bind_inv in E as (r1 & s1 & E1 & E).
  rewrite (ch_at_some _ _ (ch_set_closed c)) in E1 by (cbn; by rewrite list_lookup_alter_eq, Hc). injection E1 as <- <-.
  apply st_bind_inv in E as (r1 & s1 & E1 & E). injection E1 as <- <-.
  apply st_bind_inv in E as (r1 & s1 & E1 & E). injection E1 as <- <-.
  revert E. match goal with |- ?m ?x = _ → _ => assert (growing m) as Hm end.
  { apply growing_bind; [auto with growing|intros []]; [auto with growing|].
    apply growing_bind; auto with growing. }
  apply Hm. cbn. split; cbn; [done|]. intros k d Hd. by exists d.
Qed.
Lemma leave_grows l s r s' c :
  g_heap s.2 !! l = Some c → leave (Some l) s = (r, s') → grows (retired_gateway l c s.2) s'.2.
Proof.
  intros Hc E. unfold leave in E. apply st_bind_inv in E as (r1 & s1 & E1 & E). injection E1 as <- <-.
  apply st_bind_inv in E as (r1 & s1 & E1 & E).
  assert (∃ n, r1 = Ok tt ∧ s1.2 = set_pending n s.2) as (n & -> & Hs).
  { destruct (is_server s.2); injection E1 as <- <-.
    { by exists (pending s.2 - 1). }
   
    exists (pending s.2). split; [done|]. by destruct s as [w []]. }
  apply (retire_grows _ _ _ _ c) in E; [|by rewrite Hs]. rewrite Hs in E.
  etrans; [|exact E]. split; [done|]. cbn. eauto.
Qed.
Lemma growing_leave_none : growing (leave None).
Proof.
  unfold leave. apply growing_bind; [auto with growing|intros b]. apply growing_bind; [|auto with growing].
  destruct b; auto with growing.
Qed.

Lemma ledger_finish i o s :
  ledger s → (∀ l, o = Some l → owned s l) → ledger (finish i o s).
Proof.
  intros L Ho. unfold finish. destruct (on_gateway (leave o) s) as [r s1] eqn:E. cbn [snd].
  assert (Hset : ∀ s1, s_tasks s1 = s_tasks s → ∀ j k, s_tasks (move i Gone s1) !! j ≠ Some (Opening k)).
  { intros s2 Ht j k Hj. cbn in Hj. rewrite Ht in Hj.
    apply list_lookup_insert_Some in Hj as [(_ & ? & _)|[_ Hj]]; [done|by eapply L]. }
  destruct o as [l|].
  2:{ apply ledger_move; [|done|done]. eapply ledger_on_gateway; [apply growing_leave_none|done|done]. }
  destruct (Ho l eq_refl) as [[c Hc] Hn]. apply on_gateway_inv in E as (E & Ht & Hlog).
  apply (leave_grows _ _ _ _ c) in E as [Gr Gh]; [|done]. cbn in Gr, Gh.
  destruct L as [Lp Lo Ls]. split; [| |by apply Hset]; cbn; rewrite Hlog, retired_locs_app; cbn.
  - rewrite Gr. apply Forall2_app.
    + eapply Forall2_impl; [exact Lp|]. intros k port (d & Hd & <- & Hx).
      destruct (decide (k = l)) as [->|Hne].
      * destruct (Gh l (ch_set_closed c)) as (c' & ? & ? & ?); [by rewrite list_lookup_alter_eq, Hc|].
        rewrite Hc in Hd. injection Hd as <-. exists c'. auto.
      * destruct (Gh k d) as (c' & ? & ? & ?); [by rewrite list_lookup_alter_ne|]. exists c'. auto.
    + constructor; [|constructor].
      destruct (Gh l (ch_set_closed c)) as (c' & ? & ? & ?); [by rewrite list_lookup_alter_eq, Hc|]. exists c'. auto.
  - apply NoDup_app. split_and!; [done| |apply NoDup_singleton]. intros k Hk ->%list_elem_of_singleton. done.
Qed.

(** A task that runs [m] and goes on, or ends. *)
Lemma ledger_task {A} i o (m : gst A) k s :
  growing m → ledger s → (∀ l, o = Some l → owned s l) →
  (∀ a s1, on_gateway m s = (Ok a, s1) → ledger s1 → ledger (k a s1)) → ledger (task i o m k s).
Proof.
  intros Hm L Ho Hk. unfold task. destruct (on_gateway m s) as [[a|e] s1] eqn:E.
  - apply Hk; [done|]. by eapply ledger_on_gateway.
  - apply ledger_finish; [by eapply ledger_on_gateway|]. intros l Hl. eapply owned_on_gateway; eauto.
Qed.

Lemma note_nil s : note [] s = s.
Proof. destruct s. unfold note; cbn. by rewrite app_nil_r. Qed.
Lemma owned_fresh s s1 id :
  sys_ok s → s_log s1 = s_log s → view_of (s_g s1) = v_open id (view_of (s_g s)) →
  owned s1 (length (v_chans (view_of (s_g s)))).
Proof.
  intros O Hlog Hv. split.
  - apply (f_equal v_chans) in Hv. cbn in Hv. apply (f_equal length) in Hv. rewrite length_app in Hv.
    unfold view_of in Hv; cbn in Hv. rewrite !length_fmap in Hv. cbn. rewrite length_fmap.
    apply lookup_lt_is_Some. lia.
  - rewrite elem_retired_locs, Hlog, (ok_fresh _ _ _ O); [by intros ?%elem_of_nil|lia].
Qed.

Lemma ledger_opened {A} i l (m : gst A) p s :
  growing m → ledger s → owned s l → (∀ k, p ≠ Opening k) →
  ledger (task i (Some l) m (λ _ s, move i p (note [Opened l] s)) s).
Proof.
  intros Hm L Ho Hp. apply ledger_task; [done|done|by intros k [= ->]|].
  intros a s1 _ L1. by apply ledger_move.
Qed.

Lemma ledger_step_task act i p s :
  sys_ok s → ledger s → s_tasks s !! i = Some p → ledger (step_task own act i p s).
Proof.
  intros O L Hi.
  assert (Hown : ∀ l, phase_loc p = Some l → owned s l) by (intros l; by eapply owned_task).
  assert (Hown' : ∀ l, phase_loc p = Some l → ∀ k, Some l = Some k → owned s k) by (intros l Hl k [= <-]; auto).
  destruct act, p; try exact L; cbn [step_task].
  - apply ledger_task; [apply growing_bind; auto with growing|done|done|]. intros l s1 E L1.
    apply ledger_opened; [auto with growing|done| |done].
    apply on_gateway_inv in E as (E & _ & Hlog). apply st_bind_Ok in E as (t & s2 & E1 & E).
    apply lift_inv in E1 as [-> ->]. apply serve_open_view in E as (id & _ & -> & Hv).
    by eapply (owned_fresh s).
  - apply ledger_task; [|done|done|].
    + apply growing_bind; [auto with growing|intros ?]. apply growing_bind; auto with growing.
    + intros f s1 _ L1. rewrite <-(note_nil s1). by apply ledger_move.
  - apply ledger_task; [apply growing_bind; auto with growing|done|by apply Hown'|].
    intros a s1 _ L1. by apply ledger_move.
  - apply ledger_task; [apply growing_bind; auto with growing|done|done|]. intros [[l rn] msg] s1 E L1.
    apply ledger_opened; [unfold connect_ack; auto with growing|done| |done].
    apply on_gateway_inv in E as (E & _ & Hlog). apply st_bind_Ok in E as (t & s2 & E1 & E).
    apply lift_inv in E1 as [-> ->]. apply connect_open_view in E as (-> & id & Hv).
    by eapply (owned_fresh s).
  - apply ledger_task; [apply growing_bind; auto with growing|done|by apply Hown'|].
    intros a s1 _ L1. by apply ledger_move.
  - destruct (is_Ok r && _); [exact L|]. apply ledger_task; [|done|by apply Hown'|intros a s1 _ L1; by apply ledger_move].
    repeat (apply growing_bind; [solve [auto with growing]|intros ?]). case_match; auto with growing.
  - destruct (on_gateway (pump_at l p0) s) as [r s1] eqn:E.
    assert (L1 : ledger s1) by (eapply ledger_on_gateway; [|exact L|exact E]; auto with growing).
    assert (O1 : owned s1 l) by (eapply owned_on_gateway; [|by apply Hown|exact E]; auto with growing).
    assert (ledger (finish i (Some l) (on_gateway end_forward s1).2)); [|by destruct r as [[]|]].
    destruct (on_gateway end_forward s1) as [r2 s2] eqn:E2. apply ledger_finish.
    + eapply ledger_on_gateway; [|exact L1|exact E2]; auto with growing.
    + intros k [= <-]. eapply owned_on_gateway; [|exact O1|exact E2]; auto with growing.
  - by apply ledger_finish.
  - by apply ledger_finish; [|apply Hown'].
  - by apply ledger_finish.
  - by apply ledger_finish.
  - by apply ledger_finish; [|apply Hown'].
  - by apply ledger_finish; [|apply Hown'].
  - destruct (on_gateway end_forward s) as [r2 s2] eqn:E2. apply ledger_finish.
    + eapply ledger_on_gateway; [|exact L|exact E2]; auto with growing.
    + intros k [= <-]. eapply owned_on_gateway; [|by apply Hown|exact E2]; auto with growing.
Qed.
End ledger.

Section steps.
Context `{Env} `{Platform} (own : result pystr).

Lemma close_begin_grows g : grows g (close_begin g).
Proof.
  trans (set_stopping g); [split; eauto|]. apply (grows_heap (set_stopping g)). cbn. intros l c Hc. induction (map_to_list (channels g)).*2 as [|k ks IH]; cbn; [by eauto|].
  destruct IH as (c1 & H1 & H2 & H3). destruct (decide (l = k)) as [->|Hne].
  - exists (ch_set_closed c1). by rewrite list_lookup_alter_eq, H1.
  - exists c1. by rewrite list_lookup_alter_ne.
Qed.

Lemma ledger_step act s : sys_ok s → ledger s → ledger (step own act s).
Proof.
  intros O L. destruct act; cbn [step];
    try (destruct (s_tasks s !! i) as [p0|] eqn:Hi; [by apply ledger_step_task|done]).
  - destruct (_ || _); [done|]. apply (ledger_grows s _ []); [done| |by rewrite app_nil_r|done|].
    + split; eauto.
    + cbn. intros i l [Hj|[_ Hj]]%lookup_app_Some; [by eapply L|].
      by apply list_lookup_singleton_Some in Hj as [_ ?].
  - destruct (on_gateway _ s) as [r s1] eqn:E.
    assert (L1 : ledger s1) by (eapply ledger_on_gateway; [|exact L|exact E]; auto with growing).
    destruct r as [[]|e]; [|done]. destruct (bool_decide _), (channels (s_g s) !! text body "channel_id") as [l|]; try done.
    apply (ledger_grows s1 _ [Acked l body]); [done|done|done|done|apply L1].
  - destruct (on_gateway _ s) as [r s1] eqn:E. cbn. eapply ledger_on_gateway; [|exact L|exact E]. auto with growing.
  - cbv zeta. destruct (q_get _ _) as [[? q]|]; [|done].
    apply (ledger_grows s _ []); [done| |by rewrite app_nil_r|done|apply L]. split; eauto.
  - apply (ledger_grows s _ []); [done|apply close_begin_grows|by rewrite app_nil_r|done|apply L].
Qed.
Lemma ledger_run acts s : sys_ok s → ledger s → ledger (run own acts s).
Proof.
  revert s. induction acts as [|act acts IH]; intros s O L; [done|].
  apply IH; [by apply gw_step_ok|by apply ledger_step].
Qed.
Lemma ledger_start w g : fresh g → ledger (start w g).
Proof.
  intros (_ & _ & Hr & _). split; cbn.
  - rewrite Hr. constructor.
  - constructor.
  - intros i l Hi. destruct (is_server g); [done|]. by destruct i.
Qed.

(** *** One cancelled task *)

Lemma ports_same g g' : (∀ l c, g_heap g !! l = Some c → ∃ c', g_heap g' !! l = Some c' ∧ udp_port c' = udp_port c) →
  length (g_heap g') = length (g_heap g) → udp_port <$> g_heap g' = udp_port <$> g_heap g.
Proof.
  intros Hg Hl. apply list_eq. intros i. rewrite !list_lookup_fmap.
  destruct (g_heap g !! i) as [c|] eqn:Hc.
  - destruct (Hg i c Hc) as (c' & -> & Hu). cbn. by rewrite Hu.
  - apply lookup_ge_None in Hc. rewrite (proj2 (lookup_ge_None (g_heap g') i)) by lia. done.
Qed.
Lemma view_length g g' : length (v_chans (view_of g')) = length (v_chans (view_of g)) → length (g_heap g') = length (g_heap g).
Proof. unfold view_of; cbn. by rewrite !length_fmap. Qed.

(** What is left alone when a task ends. *)
Record calm (g g' : Gateway) : Prop := {
  ca_ports : udp_port <$> g_heap g' = udp_port <$> g_heap g;
  ca_role : g_role g' = g_role g;
  ca_silent : stopping g = true → stopping g' = true ∧ tx g' = tx g ∧ ipc g' = ipc g }.
#[export] Instance calm_preorder : PreOrder calm.
Proof.
  split; [by intros g|]. intros g1 g2 g3 [P1 R1 S1] [P2 R2 S2]. split; [congruence..|].
  intros Hs. destruct (S1 Hs) as (Hs2 & ? & ?). destruct (S2 Hs2) as (? & ? & ?). split_and!; congruence.
Qed.

Lemma retire_silent l s r s' c : g_heap s.2 !! l = Some c → stopping s.2 = true → retire l s = (r, s') →
  stopping s'.2 = true ∧ tx s'.2 = tx s.2 ∧ ipc s'.2 = ipc s.2.
Proof.
  intros Hc Hs E. unfold retire in E.
  apply st_bind_inv in E as (r1 & s1 & E1 & E). injection E1 as <- <-.
  apply st_bind_inv in E as (r1 & s1 & E1 & E).
  rewrite (ch_at_some _ _ (ch_set_closed c)) in E1 by (cbn; by rewrite list_lookup_alter_eq, Hc). injection E1 as <- <-.
  apply st_bind_inv in E as (r1 & s1 & E1 & E). injection E1 as <- <-.
  apply st_bind_inv in E as (r1 & s1 & E1 & E). injection E1 as <- <-.
  apply st_bind_inv in E as (r1 & s1 & E1 & E). injection E1 as <- <-. cbn in E. rewrite Hs in E. by injection E as _ <-.
Qed.
Lemma leave_calm o s r s' :
  (∀ l, o = Some l → is_Some (g_heap s.2 !! l)) → leave o s = (r, s') → calm s.2 s'.2.
Proof.
  intros Ho E. pose proof E as E0. unfold leave in E. apply st_bind_inv in E as (r1 & s1 & E1 & E). injection E1 as <- <-.
  apply st_bind_inv in E as (r1 & s1 & E1 & E).
  assert (∃ n, r1 = Ok tt ∧ s1.2 = set_pending n s.2) as (n & -> & Hs).
  { destruct (is_server s.2); injection E1 as <- <-; [by eexists|]. exists (pending s.2). split; [done|]. by destruct s as [w []]. }
  destruct o as [l|].
  - destruct (Ho l eq_refl) as [c Hc].
    assert (Hcore : v_chans (view_of s.2) !! l = Some (core c)).
    { unfold view_of; cbn. by rewrite list_lookup_fmap, Hc. }
    pose proof (leave_some _ _ _ _ _ Hcore E0) as (port & Hv). apply (leave_grows _ _ _ _ c) in E0 as [_ Gh]; [|done].
    split.
    + apply ports_same; [|apply view_length; by rewrite Hv]. intros k d Hd. cbn in Gh. destruct (decide (k = l)) as [->|Hne].
      * destruct (Gh l (ch_set_closed d)) as (d' & ? & ? & _); [by rewrite list_lookup_alter_eq, Hd|]. by exists d'.
      * destruct (Gh k d) as (d' & ? & ? & _); [by rewrite list_lookup_alter_ne|]. by exists d'.
    + apply (f_equal v_role) in Hv. exact Hv.
    + intros Hst. apply (retire_silent _ _ _ _ c) in E; [|by rewrite Hs..]. by rewrite Hs in E.
  - injection E as _ <-. by rewrite Hs.
Qed.
Lemma finish_calm i o s : (∀ l, o = Some l → owned s l) → calm (s_g s) (s_g (finish i o s)).
Proof.
  intros Ho. unfold finish. destruct (on_gateway (leave o) s) as [r s1] eqn:E. cbn.
  apply on_gateway_inv in E as (E & _ & _). apply leave_calm in E; [done|]. cbn. intros l Hl. by apply Ho.
Qed.
Lemma finish_tasks i o s : s_tasks (finish i o s) = <[i := Gone]> (s_tasks s).
Proof.
  unfold finish. destruct (on_gateway (leave o) s) as [r s1] eqn:E. cbn.
  apply on_gateway_inv in E as (_ & -> & _). done.
Qed.

Lemma end_forward_calm s r s1 : on_gateway end_forward s = (r, s1) →
  s_tasks s1 = s_tasks s ∧ s_log s1 = s_log s ∧ calm (s_g s) (s_g s1).
Proof.
  intros E. apply on_gateway_inv in E as (E & Ht & Hl). split_and!; [done|done|].
  unfold end_forward in E. apply st_bind_inv in E as (r1 & s2 & E1 & E). injection E1 as <- <-.
  cbn in E. destruct (is_server (s_g s)); injection E as _ _ <-; done.
Qed.

(** A cancelled task ends, whatever it was doing. *)
Lemma end_task i s p :
  sys_ok s → ledger s → s_tasks s !! i = Some p →
  s_tasks (step own (AEnd i) s) = <[i := Gone]> (s_tasks s) ∧ calm (s_g s) (s_g (step own (AEnd i) s)).
Proof.
  intros O L Hi. cbn [step]. rewrite Hi. assert (Hown : ∀ l, phase_loc p = Some l → ∀ k, Some l = Some k → owned s k).
  { intros l Hl k [= <-]. by eapply owned_task. }
  destruct p; cbn [step_task];
    try (by split; [by apply finish_tasks|apply finish_calm; first [done|by apply Hown]]).
  - by apply L in Hi.
  - destruct (on_gateway end_forward s) as [r s1] eqn:E. pose proof E as E0.
    apply end_forward_calm in E as (Ht & Hl & Hc). cbn [snd]. rewrite finish_tasks, Ht. split; [done|]. etrans; [exact Hc|].
    apply finish_calm. intros k [= <-]. eapply owned_on_gateway; [|by apply (Hown l)|exact E0]. auto with growing.
  - split; [|done]. by rewrite list_insert_id.
Qed.

(** ** The shutdown *)

(** The tasks are cancelled in some order. *)
Definition cancel (order : list nat) (s : sys) : sys := run own (AEnd <$> order) s.

(** The [finally] of [stdio_main] cancels a client's [connect] before
    [gateway.close()]; a server's connections are cancelled by the latter. *)
Definition shutdown (order : list nat) (s : sys) : sys :=
  if is_server (s_g s) then cancel order (step own AStop s) else step own AStop (step own (AEnd 0) s).

(** The UDP sockets [close] closes: the channels', then the reserved ones. *)
Definition closed_sockets (g : Gateway) : list Z :=
  (udp_port <$> omap (λ l, g_heap g !! l) (map_to_list (channels g)).*2) ++ retired g.

Lemma cancel_spec order s :
  sys_ok s → ledger s →
  sys_ok (cancel order s) ∧ ledger (cancel order s) ∧ calm (s_g s) (s_g (cancel order s)) ∧
  s_tasks (cancel order s) = foldl (λ ts i, <[i := Gone]> ts) (s_tasks s) order.
Proof.
  revert s. induction order as [|i order IH]; intros s O L; [done|]. cbn.
  assert (s_tasks (step own (AEnd i) s) = <[i := Gone]> (s_tasks s) ∧ calm (s_g s) (s_g (step own (AEnd i) s))) as [Ht Hc].
  { destruct (s_tasks s !! i) as [p|] eqn:Hi; [by eapply end_task|]. cbn. rewrite Hi. split; [|done].
    apply lookup_ge_None in Hi. by rewrite list_insert_ge. }
  destruct (IH (step own (AEnd i) s)) as (O' & L' & C' & T'); [by apply gw_step_ok|by apply ledger_step|].
  split_and!; [done|done|by etrans|]. by rewrite <-Ht.
Qed.

Lemma insert_all (ts : list phase) order :
  order ≡ₚ seq 0 (length ts) → Forall (eq Gone) (foldl (λ ts i, <[i := Gone]> ts) ts order).
Proof.
  intros Ho. apply Forall_lookup. intros i p Hi.
  assert (Hlen : ∀ us, length (foldl (λ ts i, <[i := Gone]> ts) us order) = length us).
  { clear. induction order as [|j order IH]; intros us; [done|]. cbn. by rewrite IH, length_insert. }
  assert (i ∈ order) as Hio.
  { rewrite Ho. apply elem_of_seq. apply lookup_lt_Some in Hi. rewrite Hlen in Hi. lia. }
  clear Ho. revert ts Hi. clear Hlen. induction order as [|j order IH]; intros ts Hi; [by apply elem_of_nil in Hio|].
  cbn in Hi. apply elem_of_cons in Hio. destruct (decide (i ∈ order)) as [Hin|Hout]; [by eapply IH|].
  destruct Hio as [->|?]; [|done]. revert ts Hi. clear IH.
  assert (Hkeep : ∀ us : list phase, foldl (λ ts i, <[i := Gone]> ts) us order !! j = us !! j).
  { clear -Hout. induction order as [|k order IH]; intros us; [done|]. apply not_elem_of_cons in Hout as [Hk Hin].
    cbn. rewrite IH by done. by apply list_lookup_insert_ne. }
  intros ts Hi. rewrite Hkeep in Hi. by apply list_lookup_insert_Some in Hi as [(_ & -> & _)|[? _]].
Qed.

(** With every task gone, every channel has been retired. *)
Lemma all_retired s : sys_ok s → ledger s → Forall (eq Gone) (s_tasks s) →
  channels (s_g s) = ∅ ∧ retired (s_g s) ≡ₚ udp_port <$> g_heap (s_g s) ∧ Forall (λ c, closed c = true) (g_heap (s_g s)) ∧
  count (s_tasks s) = 0.
Proof.
  intros O [Hp Ho _] Hg.
  assert (Hch : channels (s_g s) = ∅).
  { apply map_empty. intros id. destruct (channels (s_g s) !! id) as [l|] eqn:E; [|done].
    apply (ok_channels _ _ _ O) in E as [_ (i & p & Hi & Hl)]. by apply (Forall_lookup_1 _ _ _ _ Hg) in Hi; subst p. }
  assert (Hret : ∀ l c, g_heap (s_g s) !! l = Some c → l ∈ retired_locs (s_log s)).
  { intros l c Hc. assert (v_chans (view_of (s_g s)) !! l = Some (core c)) as Hcc.
    { unfold view_of; cbn. by rewrite list_lookup_fmap, Hc. }
    apply (ok_chans _ _ _ O) in Hcc as [Hcc|[_ (k & h & _ & Hh)]].
    - unfold view_of in Hcc; cbn in Hcc. by rewrite Hch in Hcc.
    - rewrite elem_retired_locs, Hh. apply elem_of_app. right. by apply list_elem_of_singleton. }
  assert (Hlocs : retired_locs (s_log s) ≡ₚ seq 0 (length (g_heap (s_g s)))).
  { apply NoDup_Permutation; [done|apply NoDup_seq|]. intros l. rewrite elem_of_seq. split.
    - intros Hl. apply list_elem_of_lookup in Hl as [j Hj].
      destruct (Forall2_lookup_l _ _ _ _ _ Hp Hj) as (port & _ & c & Hc & _). apply lookup_lt_Some in Hc. lia.
    - intros [_ Hl]. cbn in Hl. destruct (lookup_lt_is_Some_2 (g_heap (s_g s)) l) as [c Hc]; [lia|]. by eapply Hret. }
  set (port := λ l, default 0 (udp_port <$> g_heap (s_g s) !! l)).
  assert (Hports : retired (s_g s) = port <$> retired_locs (s_log s)).
  { unfold port. clear -Hp. induction Hp as [|l x locs ports (c & Hc & <- & _) _ IHp]; [done|].
    cbn. rewrite Hc. f_equal. apply IHp. }
  split_and!; [done| | |].
  - rewrite Hports, Hlocs. apply reflexive_eq. apply list_eq. intros i. rewrite !list_lookup_fmap.
    destruct (decide (i < length (g_heap (s_g s)))%nat) as [Hi|Hi].
    + rewrite lookup_seq_lt by done. cbn. unfold port. destruct (lookup_lt_is_Some_2 _ _ Hi) as [c ->]. done.
    + rewrite lookup_seq_ge, (proj2 (lookup_ge_None (g_heap (s_g s)) i)) by lia. done.
  - apply Forall_lookup. intros l c Hc. pose proof (Hret l c Hc) as [j Hj]%list_elem_of_lookup.
    destruct (Forall2_lookup_l _ _ _ _ _ Hp Hj) as (x & _ & c' & Hc' & _ & ?). by rewrite Hc in Hc'; injection Hc' as ->.
  - clear -Hg. induction Hg as [|p ts <- _ IH]; [done|exact IH].
Qed.

(** C24.  Whatever state the gateway is in when its process ends, and in whatever
    order its tasks are cancelled: no task is left, every channel has been
    retired and is closed, and the UDP sockets that are closed are exactly those
    of all the channels ever opened, each once.  A server's quota is back to
    zero, and a server tells the parent nothing more. *)
Theorem shutdown_complete config rn gen g w acts order s s' :
  new_gateway config rn gen = Ok g → s = run own acts (start w g) → order ≡ₚ seq 0 (length (s_tasks s)) →
  s' = shutdown order s →
  Forall (eq Gone) (s_tasks s') ∧ channels (s_g s') = ∅ ∧ Forall (λ c, closed c = true) (g_heap (s_g s')) ∧
  closed_sockets (s_g s') ≡ₚ udp_port <$> g_heap (s_g s) ∧
  (is_server (s_g s) = true → pending (s_g s') = 0 ∧ tx (s_g s') = tx (s_g s) ∧ ipc (s_g s') = ipc (s_g s)).
Proof.
  intros E -> Ho ->. pose proof (reachable_ok own _ _ _ _ w acts E) as O.
  pose proof (ledger_run acts _ (start_ok w g (new_gateway_fresh _ _ _ _ E)) (ledger_start w g (new_gateway_fresh _ _ _ _ E))) as L.
  set (s := run own acts (start w g)) in *. clearbody s.
  assert (Hstop : ∀ s0, udp_port <$> g_heap (close_begin (s_g s0)) = udp_port <$> g_heap (s_g s0)).
  { intros s0. apply ports_same.
    - intros l c Hc. destruct (close_begin_grows (s_g s0)) as [_ Gh]. destruct (Gh l c Hc) as (c' & ? & ? & _). by exists c'.
    - apply view_length. by rewrite close_begin_view. }
  assert (Hdone : ∀ s1, sys_ok s1 → ledger s1 → Forall (eq Gone) (s_tasks s1) →
    udp_port <$> g_heap (s_g s1) = udp_port <$> g_heap (s_g s) →
    Forall (eq Gone) (s_tasks s1) ∧ channels (s_g s1) = ∅ ∧ Forall (λ c, closed c = true) (g_heap (s_g s1)) ∧
    closed_sockets (s_g s1) ≡ₚ udp_port <$> g_heap (s_g s)).
  { intros s1 O1 L1 G1 P1. destruct (all_retired s1 O1 L1 G1) as (Hc & Hp & Hx & _). split_and!; [done..|].
    unfold closed_sockets. rewrite Hc, map_to_list_empty. cbn. by rewrite Hp, P1. }
  pose proof (gw_step_ok own AStop s O) as Os. pose proof (ledger_step AStop s O L) as Ls.
  unfold shutdown. destruct (is_server (s_g s)) eqn:Hs.
  - destruct (cancel_spec order _ Os Ls) as (O1 & L1 & [P1 R1 S1] & T1).
    assert (G1 : Forall (eq Gone) (s_tasks (cancel order (step own AStop s)))) by (rewrite T1; by apply insert_all).
    destruct (Hdone _ O1 L1 G1) as (H1 & H2 & H3 & H4); [by rewrite P1; apply Hstop|].
    split_and!; [done..|]. intros _. destruct (S1 eq_refl) as (_ & -> & ->). split_and!; [|done|done].
    etrans; [exact (ok_pending _ _ _ O1)|]. destruct (v_role _); [|done]. by apply all_retired.
  - assert (Hr' : g_role (s_g s) = Client) by (unfold is_server in Hs; bools; by destruct (g_role (s_g s))).
    destruct (ok_client _ _ _ O Hr') as (p & Ht & _).
    destruct (end_task 0 s p O L) as [T1 [P1 _ _]]; [by rewrite Ht|].
    rewrite Ht in T1. change (<[0%nat := Gone]> [p]) with [Gone] in T1.
    destruct (Hdone (step own AStop (step own (AEnd 0) s))) as (H1 & H2 & H3 & H4);
      [by do 2 apply gw_step_ok|by apply ledger_step; [apply gw_step_ok|apply ledger_step]| | |by split_and!].
    + change (s_tasks (step own AStop (step own (AEnd 0) s))) with (s_tasks (step own (AEnd 0) s)). rewrite T1. by repeat constructor.
    + by etrans; [apply Hstop|].
Qed.
End steps.

#[local] Existing Instance test_env.
#[local] Existing Instance test_platform.

(** A server with one channel forwarding and one connection in its handshake. *)
Definition shutdown_acts : list action := opening_acts ++ [AAccept].
Lemma shutdown_complete_witness :
  let s := run (Ok []) shutdown_acts (start (World 0 0) test_gateway) in
  let s' := shutdown (Ok []) [1; 0]%nat s in
  s_tasks s = [Forwarding 0; Handshake] ∧
  Forall (eq Gone) (s_tasks s') ∧ channels (s_g s') = ∅ ∧ Forall (λ c, closed c = true) (g_heap (s_g s')) ∧
  closed_sockets (s_g s') ≡ₚ udp_port <$> g_heap (s_g s) ∧
  (is_server (s_g s) = true → pending (s_g s') = 0 ∧ tx (s_g s') = tx (s_g s) ∧ ipc (s_g s') = ipc (s_g s)).
Proof.
  split; [vm_compute; reflexivity|].
  apply (shutdown_complete (Ok []) server_config (VStr hex_run) (VInt 1) test_gateway (World 0 0) shutdown_acts [1; 0]%nat);
    [exact test_gateway_made|done| |done].
  assert (length (s_tasks (run (Ok []) shutdown_acts (start (World 0 0) test_gateway))) = 2%nat) as -> by (vm_compute; reflexivity).
  apply perm_swap.
Defined.
