(* ===== verification/Bridge.v ===== *)
(** * The bridge transport ([src/scripts/bridge_transport.py])

    Length-prefixed frames of at most 256 bytes, the execution of one job by a
    native worker process, and the connection handler that offers it. *)

From S2P Require Import Prelude Bytes Stream.
Import Stream.

Module Bridge.

Definition MAX_FRAME : Z := 256.
Definition FRAME_TIMEOUT : Z := 4 * ns_per_s.

Definition encode_frame (data : bytes) : result bytes :=
  raise_if! negb ((0 <? len data) && (len data <=? MAX_FRAME)) then ValueError "frame_size";
  Ok (be_encode 4 (len data) ++ data).

(** [read_frame(reader, timeout)]: one deadline for the whole frame. *)
Definition read_frame (timeout : Z) : st reader bytes :=
  t ← gets now;
  size ← readexactly 4 (t + timeout);
  let size := be_decode size in
  _ ← raise_when (negb ((0 <? size) && (size <=? MAX_FRAME))) (ValueError "frame_size");
  readexactly (Z.to_nat size) (t + timeout).

(** [reader.read(1)] within a timeout: nothing at the end of the stream. *)
Definition read_one (timeout : Z) : st reader bytes := λ r,
  let deadline := now r + timeout in
  let late := (Raise TimeoutError, Reader (pending r) (eof r) (Z.max (now r) deadline)) in
  match pending r, eof r with
  | (t, x) :: l, _ =>
      if Z.max (now r) t <? deadline then (Ok [x], Reader l (eof r) (Z.max (now r) t)) else late
  | [], Some e => if Z.max (now r) e <? deadline then (Ok [], Reader [] (eof r) (Z.max (now r) e)) else late
  | [], None => late
  end.

(** ** The worker process *)

(** A worker: its standard output, what has been written to its standard input,
    and how the waits on it end: the [drain] of its input, [wait] after the job,
    and the wait after a termination. *)
Record process := Process {
  stdout : reader;
  stdin : list bytes;
  drained : result unit;
  waited : result Z;
  stopped : result unit;
  returncode : option Z }.

Definition on_stdout {A} : st reader A → st process A :=
  zoom stdout (λ r p, Process r (stdin p) (drained p) (waited p) (stopped p) (returncode p)).
Definition write_stdin (data : bytes) : st process unit :=
  modify (λ p, Process (stdout p) (stdin p ++ [data]) (drained p) (waited p) (stopped p) (returncode p)).
Definition wait : st process Z := λ p,
  match waited p with
  | Ok code => (Ok code, Process (stdout p) (stdin p) (drained p) (waited p) (stopped p) (Some code))
  | Raise e => (Raise e, p)
  end.

(** [worker(binary)]: what happens before the body and after it. *)
Definition worker_hello : st process bytes :=
  hello ← on_stdout (read_frame FRAME_TIMEOUT);
  _ ← raise_when (negb (len hello =? 76)) (ValueError "worker_hello");
  mret hello.
Definition worker_stop : st process unit := λ p,
  (match returncode p with Some _ => Ok tt | None => stopped p end, p).

Fixpoint read_frames (n : nat) : st process (list bytes) :=
  match n with
  | O => mret []
  | S n => data ← on_stdout (read_frame FRAME_TIMEOUT); rest ← read_frames n; mret (data :: rest)
  end.

(** [execute(process, command)] *)
Definition execute (command : bytes) : st process (list bytes) :=
  _ ← raise_when (negb ((len command =? 60) || (len command =? 180))) (ValueError "job_size");
  wire ← lift (encode_frame command);
  _ ← write_stdin wire;
  d ← gets drained; _ ← lift d;
  observations ← read_frames (if len command =? 180 then 2 else 1);
  extra ← on_stdout (read_one FRAME_TIMEOUT);
  code ← wait;
  _ ← raise_when (negb (bool_decide (extra = [])) || negb (code =? 0) ||
                  existsb (λ data, negb (len data =? 120)) observations) (ValueError "worker_result");
  mret observations.

(** ** The service *)

(** A connection of [WorkerService.handle] and its worker, on one clock; how the
    two [drain]s of the writer end. *)
Record job := Job {
  client : reader;
  out : list bytes;
  proc : process;
  drain1 : result unit;
  drain2 : result unit }.

Definition set_now (t : Z) (r : reader) : reader := Reader (pending r) (eof r) (Z.max (now r) t).

Definition on_client {A} (m : st reader A) : st job A := λ j,
  let '(a, r) := m (set_now (now (stdout (proc j))) (client j)) in
  (a, Job r (out j) (proc j) (drain1 j) (drain2 j)).
Definition on_proc {A} (m : st process A) : st job A := λ j,
  let p := proc j in
  let p := Process (set_now (now (client j)) (stdout p)) (stdin p) (drained p) (waited p) (stopped p) (returncode p) in
  let '(a, p) := m p in
  (a, Job (client j) (out j) p (drain1 j) (drain2 j)).
Definition send (data : bytes) : st job unit :=
  wire ← lift (encode_frame data);
  modify (λ j, Job (client j) (out j ++ [wire]) (proc j) (drain1 j) (drain2 j)).

Fixpoint send_all (l : list bytes) : st job unit :=
  match l with [] => mret tt | data :: l => _ ← send data; send_all l end.

Definition handle_body : st job unit :=
  hello ← on_proc worker_hello;
  _ ← send hello;
  d ← gets drain1; _ ← lift d;
  command ← on_client (read_frame FRAME_TIMEOUT);
  observations ← on_proc (execute command);
  _ ← send_all observations;
  d ← gets drain2; lift d.

Definition closed_quietly (e : exn) : bool :=
  is_OSError e || is_ValueError e || bool_decide (e = IncompleteReadError).

(** [WorkerService.handle] with [busy] tasks of [limit] running: a worker is
    started (or its start fails), used and stopped. *)
Definition handle (limit busy : Z) (started : result unit) : st job unit :=
  if limit <=? busy then mret tt
  else try_except (_ ← lift started; try_finally handle_body (on_proc worker_stop))
         (λ e, if closed_quietly e then Some (mret tt) else None).

(** ** Frames *)

Lemma encode_frame_Ok data wire :
  encode_frame data = Ok wire ↔ 0 < len data <= MAX_FRAME ∧ wire = be_encode 4 (len data) ++ data.
Proof.
  unfold encode_frame. split.
  - intros E. py_inv. bools. auto.
  - intros [Hl ->]. destruct (Z.ltb_spec 0 (len data)), (Z.leb_spec (len data) MAX_FRAME); try lia. done.
Qed.

Lemma bridge_read_frame_Ok timeout r data r' :
  read_frame timeout r = (Ok data, r') →
  ∃ wire, encode_frame data = Ok wire ∧ (pending r).*2 = wire ++ (pending r').*2 ∧
    eof r' = eof r ∧ now r <= now r' < now r + timeout.
Proof.
  intros E. unfold read_frame in E. apply st_bind_Ok in E as (t & r0 & E1 & E). injection E1 as <- <-.
  apply st_bind_Ok in E as (head & r1 & E1 & E). apply readexactly_Ok in E1 as (Hl1 & Ht1 & Hp1 & He1 & _).
  apply st_bind_Ok in E as (x & r2 & E2 & E). apply raise_when_Ok in E2 as [Hs ->]. bools.
  apply readexactly_Ok in E as (Hl2 & Ht2 & Hp2 & He2 & _).
  assert (Hlen : len data = be_decode head) by (unfold len; rewrite Hl2; lia).
  exists (be_encode 4 (len data) ++ data). split_and!.
  - apply encode_frame_Ok. rewrite Hlen. split; [lia|done].
  - rewrite Hp1, Hp2, Hlen, app_assoc. f_equal. f_equal. rewrite <-(be_encode_decode head) at 1. by rewrite Hl1.
  - congruence.
  - lia.
  - lia.
Qed.

Lemma read_frames_Ok n p obs p' :
  read_frames n p = (Ok obs, p') →
  length obs = n ∧ (∃ wires, mapM encode_frame obs = Ok wires ∧
    (pending (stdout p)).*2 = concat wires ++ (pending (stdout p')).*2) ∧
  stdin p' = stdin p ∧ drained p' = drained p ∧ waited p' = waited p.
Proof.
  revert p obs. induction n as [|n IH]; intros p obs E; cbn [read_frames] in E.
  { py_inv. split_and!; try done. by exists []. }
  apply st_bind_Ok in E as (data & p1 & E1 & E). apply st_bind_Ok in E as (rest & p2 & E2 & E). py_inv.
  unfold on_stdout, zoom in E1. destruct (read_frame _ _) as [r1 s1] eqn:Er. injection E1 as -> <-.
  apply bridge_read_frame_Ok in Er as (wire & Hw & Hp & _). apply IH in E2 as (Hl & (wires & Hws & Hps) & H1 & H2 & H3).
  cbn in *. split_and!; try done; [by rewrite Hl|]. exists (wire :: wires).
  rewrite Hw. cbn. rewrite Hws. split; [done|]. by rewrite Hp, Hps, <-app_assoc.
Qed.

Lemma read_one_end timeout r x r' :
  read_one timeout r = (Ok x, r') → x = [] → (pending r).*2 = [] ∧ is_Some (eof r).
Proof.
  unfold read_one. intros E ->. destruct (pending r) as [|[t x] l]; [|by case_match].
  destruct (eof r); [|done]. split; [done|by eexists].
Qed.

(** A job that [execute] accepts: the worker printed exactly the observations,
    nothing after them, and succeeded. *)
Lemma execute_Ok command p obs p' :
  execute command p = (Ok obs, p') →
  ∃ wire wires, encode_frame command = Ok wire ∧ mapM encode_frame obs = Ok wires ∧
    (len command = 60 ∧ length obs = 1%nat ∨ len command = 180 ∧ length obs = 2%nat) ∧
    Forall (λ data, len data = 120) obs ∧ waited p = Ok 0 ∧
    stdin p' = stdin p ++ [wire] ∧ (pending (stdout p)).*2 = concat wires.
Proof.
  intros E. unfold execute in E.
  apply st_bind_Ok in E as (x & p1 & E1 & E). apply raise_when_Ok in E1 as [Hs ->]. bools.
  apply st_bind_Ok in E as (wire & p1 & E1 & E). apply lift_inv in E1 as [Hw ->].
  apply st_bind_Ok in E as (y & p1 & E1 & E). injection E1 as _ <-.
  apply st_bind_Ok in E as (d & p1 & E1 & E). injection E1 as <- <-.
  apply st_bind_Ok in E as (z & p1 & E1 & E). apply lift_inv in E1 as [_ ->].
  apply st_bind_Ok in E as (obs1 & p2 & E1 & E).
  apply read_frames_Ok in E1 as (Hl & (wires & Hws & Hp) & Hin & _ & Hwait). cbn in Hp, Hin, Hwait.
  apply st_bind_Ok in E as (extra & p3 & E1 & E). unfold on_stdout, zoom in E1.
  destruct (read_one _ _) as [r1 s1] eqn:Er. injection E1 as -> <-.
  apply st_bind_Ok in E as (code & p4 & E1 & E). unfold wait in E1. cbn in E1.
  destruct (waited p2) as [code'|] eqn:Ec; [|done]. injection E1 as -> <-.
  apply st_bind_Ok in E as (u1 & p5 & E1 & E). apply raise_when_Ok in E1 as [Hc ->]. py_inv. bools. subst.
  apply read_one_end in Er as [Hend _]; [|done].
  exists wire, wires. split_and!; try done.
  - destruct (len command =? 180) eqn:E180; bools; [by right|]. left. split; [|done].
    apply orb_true_iff in Hs as [?|?]; bools; [done|congruence].
  - apply Forall_forall. intros data Hd. destruct (Z.eq_dec (len data) 120) as [|Hne]; [done|].
    exfalso. assert (existsb (λ data, negb (len data =? 120)) obs = true); [|congruence].
    apply existsb_exists. exists data. split; [by apply list_elem_of_In|].
    apply negb_true_iff. by apply Z.eqb_neq.
  - by rewrite Hp, Hend, app_nil_r.
Qed.

Lemma send_Ok data j r j' :
  send data j = (r, j') →
  match r with
  | Ok _ => ∃ wire, encode_frame data = Ok wire ∧ out j' = out j ++ [wire] ∧ client j' = client j ∧ proc j' = proc j
  | Raise _ => j' = j
  end.
Proof.
  unfold send, mbind, st_bind, lift. destruct (encode_frame data) as [wire|e]; intros [= <- <-]; [|done].
  by exists wire.
Qed.

Lemma send_all_Ok l j :
  Forall (λ data, len data = 120) l →
  ∃ wires j', send_all l j = (Ok tt, j') ∧ mapM encode_frame l = Ok wires ∧ out j' = out j ++ wires ∧
    client j' = client j ∧ proc j' = proc j.
Proof.
  intros Hl. revert j. induction Hl as [|data l Hd _ IH]; intros j; cbn [send_all].
  { exists [], j. split_and!; try done. by rewrite app_nil_r. }
  assert (Hw : encode_frame data = Ok (be_encode 4 (len data) ++ data)).
  { apply encode_frame_Ok. unfold MAX_FRAME. split; [lia|done]. }
  unfold mbind at 1, st_bind at 1, send, mbind at 1, st_bind at 1, lift at 1. rewrite Hw. cbn [modify].
  destruct (IH (Job (client j) (out j ++ [be_encode 4 (len data) ++ data]) (proc j) (drain1 j) (drain2 j)))
    as (wires & j' & E & Hm & Ho & Hc & Hp).
  exists ((be_encode 4 (len data) ++ data) :: wires), j'. rewrite E. split_and!; try done.
  - cbn. rewrite Hw. cbn. by rewrite Hm.
  - cbn in Ho. by rewrite Ho, <-app_assoc.
Qed.
End Bridge.
Import Bridge.

(** ** What a client receives *)

(** The three outcomes of a connection: nothing, the hello of the worker alone,
    or a complete job. *)
Inductive served (j : job) : list bytes → list bytes → Prop :=
| ServedNothing stdin : served j [] stdin
| ServedHello hello wire stdin :
    len hello = 76 → encode_frame hello = Ok wire → served j [wire] stdin
| ServedJob hello wire command cw obs wires rest :
    len hello = 76 → encode_frame hello = Ok wire →
    encode_frame command = Ok cw → (pending (client j)).*2 = cw ++ rest →
    mapM encode_frame obs = Ok wires → Forall (λ data, len data = 120) obs →
    (len command = 60 ∧ length obs = 1%nat ∨ len command = 180 ∧ length obs = 2%nat) →
    waited (proc j) = Ok 0 → (pending (stdout (proc j))).*2 = wire ++ concat wires →
    served j (wire :: wires) [cw].

Lemma handle_body_served j r j' :
  out j = [] → stdin (proc j) = [] → handle_body j = (r, j') → served j (out j') (stdin (proc j')).
Proof.
  intros Ho Hin E. unfold handle_body in E.
  apply st_bind_inv in E as ([hello|e] & j1 & E1 & E); unfold on_proc in E1;
    destruct (worker_hello _) as [r1 p1] eqn:Eh; injection E1 as -> <-;
    [|destruct E as [-> ->]; cbn; rewrite Ho; constructor].
  unfold worker_hello in Eh. apply st_bind_Ok in Eh as (h & p2 & E2 & Eh).
  apply st_bind_Ok in Eh as (u1 & p3 & E3 & Eh). apply raise_when_Ok in E3 as [H76 ->]. py_inv. bools.
  unfold on_stdout, zoom in E2. destruct (read_frame _ _) as [r2 s2] eqn:Er. injection E2 as -> <-. cbn in *.
  apply bridge_read_frame_Ok in Er as (wire & Hw & Hp & _). cbn in Hp.
  apply st_bind_inv in E as ([[]|e] & j2 & E1 & E); apply send_Ok in E1.
  2:{ destruct E as [-> ->]. subst j2. cbn. rewrite Ho. constructor. }
  destruct E1 as (wire' & Hw' & Ho2 & Hc2 & Hp2). rewrite Hw in Hw'. injection Hw' as <-. cbn in *.
  rewrite Ho in Ho2. cbn in Ho2.
  assert (Hhello : ∀ s, served j [wire] s) by (intros; by econstructor).
  apply st_bind_inv in E as ([d|e] & j3 & E1 & E); [|done]. injection E1 as <- <-.
  apply st_bind_inv in E as ([[]|e] & j3 & E1 & E); apply lift_inv in E1 as [_ ->];
    [|destruct E as [-> ->]; rewrite Ho2; apply Hhello].
  apply st_bind_inv in E as ([command|e] & j3 & E1 & E); unfold on_client in E1;
    destruct (read_frame _ _) as [r3 s3] eqn:Er; injection E1 as -> <-;
    [|destruct E as [-> ->]; cbn; rewrite Ho2; apply Hhello].
  apply bridge_read_frame_Ok in Er as (cw & Hcw & Hcp & _). cbn in Hcp. rewrite Hc2 in Hcp. cbn in Hcp.
  apply st_bind_inv in E as ([obs|e] & j4 & E1 & E); unfold on_proc in E1;
    destruct (execute _ _) as [r4 p4] eqn:Ex; injection E1 as -> <-;
    [|destruct E as [-> ->]; cbn; rewrite Ho2; apply Hhello].
  apply execute_Ok in Ex as (cw' & wires & Hcw' & Hws & Hn & H120 & Hwait & Hstd & Hall). cbn in *.
  rewrite Hcw in Hcw'. injection Hcw' as <-. rewrite Hp2 in Hall, Hstd, Hwait. cbn in *.
  apply st_bind_inv in E as (r5 & j5 & E1 & E).
  match type of E1 with send_all _ ?j0 = _ =>
    destruct (send_all_Ok obs j0 H120) as (wires' & j6 & Es & Hws' & Ho6 & _ & Hp6) end.
  rewrite Es in E1. injection E1 as <- <-. rewrite Hws in Hws'. injection Hws' as <-. cbn in *.
  apply st_bind_inv in E as ([d|e] & j7 & E1 & E); [|done]. injection E1 as <- <-.
  apply lift_inv in E as [_ ->]. rewrite Ho6, Hp6, Ho2. cbn. rewrite Hstd, Hin. cbn.
  eapply ServedJob; try done. by rewrite Hp, Hall.
Qed.

(** C28.  A client of the bridge never receives an observation that is not part of
    a complete, successful job: either it gets nothing, or the hello of the
    worker alone, or the hello and then exactly the observations the worker
    printed, one for a REQUEST of 60 bytes and two for a REQUEST followed by an
    OBSERVATION, each of 120 bytes, when the worker printed nothing else and
    ended with code 0; and the worker was given exactly the client's command. *)
Theorem bridge_serves_whole_jobs limit busy started j r j' :
  out j = [] → stdin (proc j) = [] →
  handle limit busy started j = (r, j') → served j (out j') (stdin (proc j')).
Proof.
  intros Ho Hin E. unfold handle in E. destruct (limit <=? busy).
  { injection E as <- <-. rewrite Ho. constructor. }
  unfold try_except in E. 
  match type of E with match ?x with _ => _ end = _ => destruct x as [r1 j1] eqn:Eb end.
  assert (Hj : served j (out j1) (stdin (proc j1))).
  { apply st_bind_inv in Eb as ([[]|e] & j2 & E1 & Eb); apply lift_inv in E1 as [_ ->].
    - unfold try_finally in Eb. destruct (handle_body j) as [r2 j2] eqn:Eh.
      apply handle_body_served in Eh; [|done|done].
      unfold on_proc, worker_stop in Eb. cbn in Eb. destruct (returncode _); [|destruct (stopped _)];
        by injection Eb as _ <-.
    - destruct Eb as [_ ->]. rewrite Ho. constructor. }
  destruct r1 as [x|e]; [by injection E as _ <-|].
  destruct (closed_quietly e); by injection E as _ <-.
Qed.

Definition sample_hello : bytes := zeros 76.
Definition sample_observation : bytes := replicate 120 x07.
Definition sample_command : bytes := replicate 60 x05.
Definition wired (data : bytes) : bytes := be_encode 4 (len data) ++ data.
Definition sample_job : job :=
  Job (Reader (buffered (wired sample_command) 3) None 0) []
    (Process (Reader (buffered (wired sample_hello ++ wired sample_observation) 2) (Some 5) 0) []
       (Ok tt) (Ok 0) (Ok tt) None) (Ok tt) (Ok tt).
Definition sample_result : result unit * job := Eval vm_compute in handle 4 1 (Ok tt) sample_job.

Lemma bridge_serves_whole_jobs_witness :
  served sample_job (out sample_result.2) (stdin (proc sample_result.2)) ∧
  out sample_result.2 = [wired sample_hello; wired sample_observation].
Proof.
  split; [|vm_compute; reflexivity].
  apply (bridge_serves_whole_jobs 4 1 (Ok tt) sample_job sample_result.1 sample_result.2);
    [reflexivity|reflexivity|vm_compute; reflexivity].
Defined.
