(* ===== verification/GameService.v ===== *)
(** * The game service ([src/scripts/game_service.py])

    Two pinned TLS players and one authoritative worker: the state and command
    codecs, the exchange with the worker, and the parts of a connection handler
    between its [await]s.  The worker is any process: what it answers is a
    parameter of every step. *)

From S2P Require Import Prelude Bytes Sha256 Env.
From S2P Require Bridge.

Module GameService.

Definition RESULTS : list string :=
  ["ACCEPTED"; "BAD_INPUT"; "WRONG_MATCH"; "WRONG_SESSION"; "SESSION_CLOSED";
   "PLAYER_DEAD"; "SEQUENCE_REPLAY"; "SEQUENCE_EXHAUSTED"; "TICK_ALREADY_USED";
   "FIRE_COOLDOWN"; "NO_AMMO"; "OUTSIDE_ARENA"; "POSITION_OCCUPIED"; "SERVER_TICK_EXHAUSTED"]%string.

Definition error_name (code : Z) : option string :=
  match code with
  | 1 => Some "IDENTITY_NOT_ENROLLED"%string
  | 2 => Some "PLAYER_CONNECTED"%string
  | 3 => Some "SESSION_CLOSED"%string
  | 4 => Some "WORKER_UNAVAILABLE"%string
  | 5 => Some "BAD_FRAME"%string
  | 6 => Some "SESSION_LIMIT"%string
  | 7 => Some "MATCH_INACTIVE"%string
  | _ => None
  end.

(** ** State frames *)

Record player := Player {
  x_mm : Z; y_mm : Z; health : Z; ammo : Z; hits : Z; kills : Z; open : bool }.

Record snapshot := Snapshot {
  s_tick : Z;
  s_sequence : Z;
  s_player : Z;
  s_reason : string;
  s_players : list player }.

(** [data[i]] of a frame known to be long enough. *)
Definition at_ (data : bytes) (i : nat) : Z := match data !! i with Some x => b2z x | None => 0 end.
Definition some_set (data : bytes) : bool := existsb (λ x, negb (b2z x =? 0)) data.

(** [struct.unpack_from('<iiBBBB', data, 52 + slot * 12)] *)
Definition read_player (data : bytes) (slot : nat) : player :=
  let o := (52 + slot * 12)%nat in
  Player (le_decode_signed (slice data o (o + 4))) (le_decode_signed (slice data (o + 4) (o + 8)))
    (at_ data (o + 8)) (at_ data (o + 9)) (at_ data (o + 10)) (at_ data (o + 11))
    (Z.testbit (at_ data 76) (Z.of_nat slot)).

Definition in_range (p : player) : bool :=
  (-10000 <=? x_mm p) && (x_mm p <=? 10000) && (-10000 <=? y_mm p) && (y_mm p <=? 10000) &&
  (health p <=? 100) && (ammo p <=? 4) && (hits p <=? 4) && (kills p <=? 1).

Definition error_frame (code : Z) : bytes := b "LGRE" ++ [z2b code].

(** [state(data)] *)
Definition error_of (data : bytes) : option string :=
  if (len data =? 5) && bool_decide (take 4 data = b "LGRE") then error_name (at_ data 4) else None.
Definition schema_ok (data : bytes) : bool :=
  (len data =? 80) && bool_decide (take 5 data = b "LGST" ++ [z2b 1]) &&
  (at_ data 5 <? Z.of_nat (length RESULTS)) && (at_ data 6 <=? 1) && (at_ data 7 =? 1) &&
  (at_ data 76 <=? 3) && negb (some_set (drop 77 data)).
Definition state (data : bytes) : result snapshot :=
  match error_of data with
  | Some name => Raise (ValueError name)
  | None =>
      raise_if! negb (schema_ok data) then ValueError "STATE_SCHEMA";
      raise_if! negb (in_range (read_player data 0)) then ValueError "STATE_RANGE";
      raise_if! negb (in_range (read_player data 1)) then ValueError "STATE_RANGE";
      raise_if! negb (some_set (slice data 20 36)) || negb (some_set (slice data 36 52)) then ValueError "STATE_IDENTITY";
      Ok (Snapshot (le_decode (slice data 8 16)) (le_decode (slice data 16 20)) (at_ data 6)
            (nth (Z.to_nat (at_ data 5)) RESULTS EmptyString) [read_player data 0; read_player data 1])
  end.

(** [command(hello, sequence, action)] *)
Definition direction (action : string) : option (Z * Z * Z) :=
  if decide (action = "east"%string) then Some (1, 2, 0)
  else if decide (action = "west"%string) then Some (1, 1, 0)
  else if decide (action = "north"%string) then Some (1, 0, 2)
  else if decide (action = "south"%string) then Some (1, 0, 1)
  else if decide (action = "fire"%string) then Some (2, 0, 0)
  else if decide (action = "wait"%string) then Some (3, 0, 0)
  else None.
Definition command (hello : bytes) (sequence : Z) (action : string) : result bytes :=
  _ ← state hello;
  match direction action with
  | None => Raise (ValueError "INPUT_ARGUMENT")
  | Some (kind, x, y) =>
      raise_if! negb ((0 <? sequence) && (sequence <? 4294967295)) then ValueError "INPUT_ARGUMENT";
      Ok (b "LGIN" ++ [z2b 1; z2b kind; z2b x; z2b y] ++ slice hello 20 52 ++ le_encode 4 sequence ++ zeros 4)
  end.

(** ** The service object *)

Definition digest := bytes.   (* of a player's certificate *)

(** What has gone through the worker's pipes: a command by a handler, and how its
    exchange ended. *)
Inductive worker_event :=
| Wrote (i : nat) (op : Z) (slot : nat) (payload : bytes)
| Answered (i : nat) (slot : nat) (r : result bytes).

Record service := Service {
  identities : list digest;
  running : bool;             (* [process] is not [None] and has no [returncode] *)
  broken : bool;
  claimed : list bool;
  connected : list bool;
  started : Z;
  lock : option nat;          (* the handler that holds [self.lock] *)
  pipe : list worker_event }.

Definition set_running (b : bool) (s : service) : service :=
  Service (identities s) b (broken s) (claimed s) (connected s) (started s) (lock s) (pipe s).
Definition set_broken (s : service) : service :=
  Service (identities s) (running s) true (claimed s) (connected s) (started s) (lock s) (pipe s).
Definition set_claimed (slot : nat) (s : service) : service :=
  Service (identities s) (running s) (broken s) (<[slot := true]> (claimed s)) (connected s) (started s) (lock s) (pipe s).
Definition set_connected (slot : nat) (b : bool) (s : service) : service :=
  Service (identities s) (running s) (broken s) (claimed s) (<[slot := b]> (connected s)) (started s) (lock s) (pipe s).
Definition set_started (t : Z) (s : service) : service :=
  Service (identities s) true (broken s) (claimed s) (connected s) t (lock s) (pipe s).
Definition set_lock (o : option nat) (s : service) : service :=
  Service (identities s) (running s) (broken s) (claimed s) (connected s) (started s) o (pipe s).
Definition log (e : worker_event) (s : service) : service :=
  Service (identities s) (running s) (broken s) (claimed s) (connected s) (started s) (lock s) (pipe s ++ [e]).

(** [GameService(binary, player_certificates)]: the digests of the players'
    certificates. *)
Definition new_service (ids : list digest) : result service :=
  raise_if! negb (len ids =? 2) || negb (bool_decide (NoDup ids)) then
    ValueError "TWO_DISTINCT_PLAYER_CERTIFICATES_REQUIRED";
  Ok (Service ids false false [false; false] [false; false] 0 None []).

(** The checks of [start] on the first 160 bytes of the worker. *)
Definition check_hello (data : bytes) : result unit :=
  p ← state (take 80 data);
  q ← state (drop 80 data);
  raise_if (negb (s_player p =? 0) || negb (s_player q =? 1) ||
            negb (bool_decide (s_reason p = "ACCEPTED"%string)) || negb (bool_decide (s_reason q = "ACCEPTED"%string)) ||
            negb (bool_decide (slice data 20 36 = slice data 100 116)) ||
            bool_decide (slice data 36 52 = slice data 116 132)) (ValueError "WORKER_HELLO").

(** [start], on what the wait for the hello gave; on a failure [close] is called. *)
Definition start (hello : result bytes) (now : Z) : st service unit := λ s,
  if running s then (Raise (RuntimeError "SERVICE_ALREADY_STARTED"), s)
  else match (data ← hello; check_hello data) with
       | Ok _ => (Ok tt, set_started now s)
       | Raise e => (Raise e, set_broken s)
       end.

(** [exchange(op, slot, payload)] up to its [await]s: the command is written. *)
Definition exchange_begin (i : nat) (op : Z) (slot : nat) (payload : bytes) : st service unit :=
  s ← get;
  _ ← raise_when (broken s || negb (running s)) (RuntimeError "WORKER_UNAVAILABLE");
  _ ← raise_when (negb (bool_decide (op ∈ [1; 2; 3; 4])) || negb (bool_decide (slot ∈ [0; 1]%nat)) ||
                  negb (len payload =? 48)) (ValueError "PRIVATE_COMMAND");
  modify (log (Wrote i op slot payload)).

(** The rest of [exchange], on what the [drain] and the read of 80 bytes gave:
    any failure poisons the worker. *)
Definition reply_check (slot : nat) (data : bytes) : result bytes :=
  value ← state data;
  raise_if! negb (s_player value =? Z.of_nat slot) then ValueError "WORKER_REPLY_ASSOCIATION";
  Ok data.
Definition exchange_end (i : nat) (slot : nat) (reply : result bytes) : st service bytes := λ s,
  let r := (data ← reply; reply_check slot data) in
  (r, log (Answered i slot r) (if is_Ok r then s else set_broken s)).

(** The tick of [apply]: the time since the start in units of 50 ms, truncated. *)
Definition tick_payload (now : Z) (s : service) : result bytes :=
  let tick := Z.quot (now - started s) (50 * ns_per_ms) in
  raise_if! negb ((0 <=? tick) && (tick <=? 18446744073709551615)) then RuntimeError "SERVER_CLOCK_EXHAUSTED";
  Ok (le_encode 8 tick ++ zeros 40).

(** ** A connection handler *)

(** What a handler does with the worker while it holds the lock. *)
Inductive purpose :=
| Peek                         (* the state of a slot somebody else holds *)
| Hello
| Tick (payload : bytes)       (* the first half of [apply] *)
| Input (payload : bytes)      (* its second half, under the same lock *)
| Close.

(** Where a handler goes after a frame has been sent. *)
Inductive after := ToLeave | ToLoop (n : nat) | ToStart.

Inductive phase :=
| Sending (data : bytes) (k : after)
| Locking (p : purpose)
| Exchanging (p : purpose)
| Reading (n : nat)
| Closing                      (* [close_writer] *)
| Gone.

Record handler := Handler {
  h_slot : option nat;
  h_owned : bool;
  h_deadline : Z;
  h_left : nat;                (* iterations of the loop not yet begun *)
  h_phase : phase }.

Definition at_phase (p : phase) (h : handler) : handler :=
  Handler (h_slot h) (h_owned h) (h_deadline h) (h_left h) p.
Definition slot_of (h : handler) : nat := default 0%nat (h_slot h).

Definition iterations : nat := 256.
Definition session_time : Z := 30 * ns_per_s.

(** [self.identities.get(sha256(cert))] *)
Definition slot_for (ids : list digest) (cert : option bytes) : option nat :=
  c ← cert; fst <$> list_find (λ d, d = sha256 c) ids.

(** [handle], up to the first [await] of a handler that has been counted. *)
Definition handle_begin (cert : option bytes) : st service handler := λ s,
  match slot_for (identities s) cert with
  | None => (Ok (Handler None false 0 iterations (Sending (error_frame 1) ToLeave)), s)
  | Some slot =>
      if broken s then (Ok (Handler (Some slot) false 0 iterations (Sending (error_frame 4) ToLeave)), s)
      else if default false (claimed s !! slot) then
        (Ok (Handler (Some slot) false 0 iterations (Locking Peek)), s)
      else (Ok (Handler (Some slot) true 0 iterations (Locking Hello)),
            set_connected slot true (set_claimed slot s))
  end.

(** The [finally] of [handle]. *)
Definition leave (h : handler) : st service handler := λ s,
  if h_owned h then
    let s := set_connected (slot_of h) false s in
    (Ok (at_phase (if broken s then Closing else Locking Close) h), s)
  else (Ok (at_phase Closing h), s).

(** The head of the loop: the next iteration, or the end of the session. *)
Definition next (now : Z) (h : handler) (n : nat) : st service handler :=
  match n with
  | O => mret (at_phase (Sending (error_frame 6) ToLeave) h)
  | S n => if h_deadline h - now <=? 0 then leave h else mret (at_phase (Reading n) h)
  end.

(** [send] has returned. *)
Definition sent (now : Z) (h : handler) (k : after) : st service handler :=
  match k with
  | ToLeave => leave h
  | ToLoop n => next now h n
  | ToStart => next now (Handler (h_slot h) (h_owned h) (now + session_time) (h_left h) (h_phase h)) iterations
  end.

(** [read_frame] has returned a frame. *)
Definition received (h : handler) (n : nat) (data : bytes) : st service handler := λ s,
  let h := Handler (h_slot h) (h_owned h) (h_deadline h) n (h_phase h) in
  if negb (len data =? 48) then (Ok (at_phase (Sending (error_frame 5) ToLeave) h), s)
  else if negb (forallb id (connected s)) then (Ok (at_phase (Sending (error_frame 7) (ToLoop n)) h), s)
  else (Ok (at_phase (Locking (Tick data)) h), s).

Definition op_of (p : purpose) : Z :=
  match p with Peek | Hello => 4 | Tick _ => 2 | Input _ => 1 | Close => 3 end.
Definition payload_of (now : Z) (s : service) (p : purpose) : result bytes :=
  match p with
  | Tick _ => tick_payload now s
  | Input data => Ok data
  | _ => Ok (zeros 48)
  end.

(** A failure of a handler: out of the [try], or out of the closing exchange. *)
Definition failed (h : handler) (p : purpose) : st service handler := λ s,
  match p with
  | Close => (Ok (at_phase Closing h), set_broken s)
  | _ => leave h s
  end.

(** The lock is granted: the command of [p] is written, or the handler fails and
    the lock is released. *)
Definition locked (i : nat) (now : Z) (h : handler) (p : purpose) : st service handler := λ s,
  match (payload ← lift (payload_of now s p); exchange_begin i (op_of p) (slot_of h) payload) s with
  | (Ok _, s') => (Ok (at_phase (Exchanging p) h), set_lock (Some i) s')
  | (Raise _, s') => failed h p (set_lock None s')
  end.

(** The exchange of [p] is over. *)
Definition answered (i : nat) (now : Z) (h : handler) (p : purpose) (reply : result bytes) : st service handler := λ s,
  match exchange_end i (slot_of h) reply s with
  | (Raise _, s) => failed h p (set_lock None s)
  | (Ok data, s) =>
      match p with
      | Peek =>
          let s := set_lock None s in
          match state data with
          | Ok v =>
              let alive := match s_players v !! slot_of h with Some q => open q | None => false end in
              (Ok (at_phase (Sending (error_frame (if alive then 2 else 3)) ToLeave) h), s)
          | Raise _ => leave h s
          end
      | Hello => (Ok (at_phase (Sending data ToStart) h), set_lock None s)
      | Tick payload => locked i now h (Input payload) s
      | Input _ => (Ok (at_phase (Sending data (ToLoop (h_left h))) h), set_lock None s)
      | Close => (Ok (at_phase Closing h), set_lock None s)
      end
  end.

(** The handler is cancelled at its [await]: an exchange under way counts as
    failed, and a handler already in its [finally] just ends. *)
Definition cancelled (i : nat) (h : handler) : st service handler := λ s,
  match h_phase h with
  | Exchanging Close => (Ok (at_phase Gone h), set_lock None (exchange_end i (slot_of h) (Raise CancelledError) s).2)
  | Exchanging p => leave h (set_lock None (exchange_end i (slot_of h) (Raise CancelledError) s).2)
  | Locking Close | Closing | Gone => (Ok (at_phase Gone h), s)
  | _ => leave h s
  end.

End GameService.
