(* ===== verification/GameRun.v ===== *)
(** * Runs of the game service

    The handlers of [GameService] interleaved in any order with any answers of
    the worker: the steps, the dialogue with the worker as a specification, and
    the invariant of every reachable state. *)

From S2P Require Import Prelude Bytes Sha256 GameService.
Import GameService.

Record sys := Sys { s_svc : service; s_hs : list handler }.

Inductive action :=
| EStart (hello : result bytes) (now : Z)
| EConnect (cert : option bytes)
| ELock (i : nat) (now : Z)                            (* the lock is granted to handler [i] *)
| EReply (i : nat) (now : Z) (reply : result bytes)    (* its exchange is over *)
| ESent (i : nat) (now : Z) (r : result unit)
| ERead (i : nat) (r : result bytes)
| EClosed (i : nat)
| ECancel (i : nat)
| EExit                                                (* the worker ends *)
| EClose.                                              (* [close], before the cancellations *)

Definition is_gone (h : handler) : bool := match h_phase h with Gone => true | _ => false end.
Definition tasks (hs : list handler) : Z := len (filter (λ h, is_gone h = false) hs).

(** Handler [i] runs to its next [await]. *)
Definition resume (i : nat) (m : st service handler) (s : sys) : sys :=
  match m (s_svc s) with
  | (Ok h, svc) => Sys svc (<[i := h]> (s_hs s))
  | (Raise _, svc) => Sys svc (s_hs s)
  end.

Definition step_handler (act : action) (i : nat) (h : handler) (s : sys) : sys :=
  match act, h_phase h with
  | ELock _ now, Locking p =>
      match lock (s_svc s) with
      | None => resume i (locked i now h p) s
      | Some _ => s
      end
  | EReply _ now reply, Exchanging p => resume i (answered i now h p reply) s
  | ESent _ now r, Sending _ k => resume i (match r with Ok _ => sent now h k | Raise _ => leave h end) s
  | ERead _ r, Reading n => resume i (match r with Ok data => received h n data | Raise _ => leave h end) s
  | EClosed _, Closing => resume i (mret (at_phase Gone h)) s
  | ECancel _, _ => resume i (cancelled i h) s
  | _, _ => s
  end.

Definition step (act : action) (s : sys) : sys :=
  match act with
  | EStart hello now => Sys (start hello now (s_svc s)).2 (s_hs s)
  | EConnect cert =>
      if 4 <=? tasks (s_hs s) then s
      else match handle_begin cert (s_svc s) with
           | (Ok h, svc) => Sys svc (s_hs s ++ [h])
           | (Raise _, svc) => Sys svc (s_hs s)
           end
  | ELock i _ | EReply i _ _ | ESent i _ _ | ERead i _ | EClosed i | ECancel i =>
      match s_hs s !! i with Some h => step_handler act i h s | None => s end
  | EExit => Sys (set_running false (s_svc s)) (s_hs s)
  | EClose => Sys (set_broken (s_svc s)) (s_hs s)
  end.

Definition run (acts : list action) (s : sys) : sys := foldl (λ s act, step act s) s acts.

(** ** The dialogue with the worker

    One command at a time; none after a failure; an input (1) only right after a
    successful tick (2) of the same handler; ticks, inputs and the close (3) of a
    slot all come from one handler, and after the close nothing of the slot but the
    snapshots (4) that another handler asks for. *)

Definition failure (e : worker_event) : Prop :=
  match e with Answered _ _ (Raise _) => True | _ => False end.
Definition plays (op : Z) : Prop := op = 1 ∨ op = 2 ∨ op = 3.

Record may_write (l : list worker_event) (i : nat) (op : Z) (slot : nat) : Prop := {
  mw_healthy : ∀ e, e ∈ l → ¬ failure e;
  mw_tick : op = 1 → ∃ l0 payload data, l = l0 ++ [Wrote i 2 slot payload; Answered i slot (Ok data)];
  mw_owner : plays op → ∀ j op' payload, Wrote j op' slot payload ∈ l → plays op' → j = i;
  mw_known : plays op ∨ op = 4;
  mw_open : ∀ j payload, Wrote j 3 slot payload ∈ l → op = 4 ∧ j ≠ i }.

Inductive dialogue : list worker_event → option (nat * Z * nat * bytes) → Prop :=
| dialogue_nil : dialogue [] None
| dialogue_write l i op slot payload :
    dialogue l None → may_write l i op slot → len payload = 48 →
    dialogue (l ++ [Wrote i op slot payload]) (Some (i, op, slot, payload))
| dialogue_answer l i op slot payload r :
    dialogue l (Some (i, op, slot, payload)) →
    dialogue (l ++ [Answered i slot r]) None.

(** ** The invariant *)

Definition owner_phase (p : phase) : Prop :=
  match p with
  | Reading _ | Locking (Hello | Tick _ | Close) | Exchanging (Hello | Tick _ | Input _ | Close)
  | Sending _ (ToLoop _ | ToStart) => True
  | _ => False
  end.
Definition exchanging (p : phase) : Prop := match p with Exchanging _ => True | _ => False end.
Definition over (p : phase) : Prop :=
  match p with Exchanging Close | Closing | Gone => True | _ => False end.
(** The handler is in the [try] block of [handle]. *)
Definition playing (p : phase) : bool :=
  match p with Locking Close | Exchanging Close | Closing | Gone => false | _ => true end.

(** What a handler may send. *)
Definition sendable (pipe : list worker_event) (i : nat) (h : handler) (data : bytes) : Prop :=
  (∃ code, 1 <= code <= 7 ∧ data = error_frame code) ∨
  (Answered i (slot_of h) (Ok data) ∈ pipe ∧ reply_check (slot_of h) data = Ok data ∧ h_owned h = true).

Record handler_ok (s : service) (i : nat) (h : handler) : Prop := {
  ho_owned : h_owned h = true → ∃ slot, h_slot h = Some slot ∧ claimed s !! slot = Some true;
  ho_phase : owner_phase (h_phase h) → h_owned h = true;
  ho_input : ∀ payload, h_phase h ≠ Locking (Input payload);
  ho_lock : exchanging (h_phase h) → lock s = Some i;
  ho_over : ∀ slot payload, Wrote i 3 slot payload ∈ pipe s → over (h_phase h);
  ho_wrote : ∀ op slot payload, Wrote i op slot payload ∈ pipe s → slot = slot_of h ∧ (plays op → h_owned h = true);
  ho_sends : ∀ data k, h_phase h = Sending data k → sendable (pipe s) i h data;
  ho_connected : h_owned h = true → connected s !! slot_of h = Some (playing (h_phase h)) }.

(** Who is talking to the worker. *)
Definition talking (s : service) (hs : list handler) (o : option nat) : Prop :=
  match o with
  | None => dialogue (pipe s) None
  | Some i => ∃ h p payload, hs !! i = Some h ∧ h_phase h = Exchanging p ∧
      dialogue (pipe s) (Some (i, op_of p, slot_of h, payload))
  end.

Record shared_ok (s : service) (hs : list handler) : Prop := {
  sh_index : ∀ i op slot payload, Wrote i op slot payload ∈ pipe s → (i < length hs)%nat;
  sh_unique : ∀ i j h k, hs !! i = Some h → hs !! j = Some k →
    h_owned h = true → h_owned k = true → slot_of h = slot_of k → i = j;
  sh_talk : talking s hs (lock s);
  sh_broken : broken s = false → ∀ e, e ∈ pipe s → ¬ failure e;
  sh_len : length (identities s) = 2%nat ∧ length (claimed s) = 2%nat ∧ length (connected s) = 2%nat;
  sh_tasks : tasks hs <= 4 }.

Record sys_ok (s : sys) : Prop := {
  so_handlers : ∀ i h, s_hs s !! i = Some h → handler_ok (s_svc s) i h;
  so_shared : shared_ok (s_svc s) (s_hs s) }.

(** Handler [i] between two [await]s: [b] tells whether it is still in its [try]
    block, [c] whether it has written its closing command. *)
Record between (i : nat) (h : handler) (b c : bool) (s : service) (hs : list handler) : Prop := {
  bt_here : ∃ h0, hs !! i = Some h0 ∧ h_slot h0 = h_slot h ∧ h_owned h0 = h_owned h ∧ is_gone h0 = false;
  bt_others : ∀ j hj, j ≠ i → hs !! j = Some hj → handler_ok s j hj;
  bt_owned : h_owned h = true → ∃ slot, h_slot h = Some slot ∧ claimed s !! slot = Some true;
  bt_wrote : ∀ op slot payload, Wrote i op slot payload ∈ pipe s → slot = slot_of h ∧ (plays op → h_owned h = true);
  bt_close : ∀ slot payload, Wrote i 3 slot payload ∈ pipe s → c = true;
  bt_connected : h_owned h = true → connected s !! slot_of h = Some b;
  bt_free : lock s ≠ Some i;
  bt_shared : shared_ok s hs }.
