(* ===== verification/GameFacts.v ===== *)
(** * Theorems about the game service

    Every step of [GameRun] preserves the invariant; what it says of the slots,
    of the worker and of the frames the players receive. *)

From S2P Require Import Prelude Bytes Sha256 GameService GameRun.
Import GameService.

(** ** Histories *)

Lemma elem_snoc {A} (l : list A) x y : x ∈ l ++ [y] ↔ x ∈ l ∨ x = y.
Proof. rewrite elem_of_app, list_elem_of_singleton. done. Qed.

Lemma slot_of_eq h k : h_slot h = h_slot k → slot_of h = slot_of k.
Proof. unfold slot_of. by intros ->. Qed.

Lemma tasks_insert i h h' hs :
  hs !! i = Some h → is_gone h = false → tasks (<[i := h']> hs) <= tasks hs.
Proof.
  unfold tasks. revert i. induction hs as [|k hs IH]; intros [|i] Hi Hg; try done.
  - injection Hi as ->. cbn [insert list_insert]. rewrite !filter_cons.
    rewrite (decide_True (P := is_gone h = false)) by done. case_decide; rewrite ?len_cons; lia.
  - change (<[S i := h']> (k :: hs)) with (k :: <[i := h']> hs). specialize (IH i Hi Hg).
    rewrite !filter_cons. case_decide; rewrite ?len_cons; lia.
Qed.

(** Another handler's facts only look at its own part of the service. *)
Lemma handler_ok_other s s' i j h e :
  handler_ok s j h → j ≠ i → claimed s' = claimed s →
  (∀ slot, slot_of h = slot → h_owned h = true → connected s' !! slot = connected s !! slot) →
  (lock s = Some j → lock s' = Some j) →
  (pipe s' = pipe s ∨ pipe s' = pipe s ++ [e] ∧
     match e with Wrote k _ _ _ | Answered k _ _ => k = i end) →
  handler_ok s' j h.
Proof.
  intros [H1 H2 H3 H4 H5 H6 H7 H8] Hij Hc Hcon Hl Hp.
  assert (Hw : ∀ op slot payload, Wrote j op slot payload ∈ pipe s' → Wrote j op slot payload ∈ pipe s).
  { intros op slot payload. destruct Hp as [-> |[-> He]]; [done|]. rewrite elem_snoc.
    intros [?|<-]; [done|]. by subst. }
  split; try done.
  - by rewrite Hc.
  - auto.
  - eauto.
  - eauto.
  - intros data k Hk. destruct (H7 data k Hk) as [?|(Ha & ?)]; [by left|]. right. split; [|done].
    destruct Hp as [-> |[-> _]]; [done|]. rewrite elem_snoc. by left.
  - intros Ho. rewrite Hcon by done. auto.
Qed.

(** ** Entering and leaving an [await] *)

Lemma between_of_ok i h s hs :
  sys_ok (Sys s hs) → hs !! i = Some h → ¬ exchanging (h_phase h) → is_gone h = false →
  ∃ c, between i h (playing (h_phase h)) c s hs ∧ (c = true → over (h_phase h)).
Proof.
  intros [Ho Hs] Hi Hx Hg. destruct (Ho _ _ Hi) as [H1 H2 H3 H4 H5 H6 H7 H8]. cbn in *.
  exists (match h_phase h with Closing => true | _ => false end). split.
  - split; try done.
    + by exists h.
    + intros j hj _. apply Ho.
    + intros slot payload Hw. apply H5 in Hw. destruct (h_phase h) as [| |[]| | |] eqn:E; cbn in *; try done.
      unfold is_gone in Hg. by rewrite E in Hg.
    + intros Hl. pose proof (sh_talk _ _ Hs) as Ht. rewrite Hl in Ht. destruct Ht as (h' & p & pl & Hi' & Hp & _).
      rewrite Hi in Hi'. injection Hi' as <-. rewrite Hp in Hx. by apply Hx.
  - destruct (h_phase h); done.
Qed.

Lemma shared_insert i h h' s hs :
  hs !! i = Some h → h_slot h' = h_slot h → h_owned h' = h_owned h → is_gone h = false →
  lock s ≠ Some i → shared_ok s hs → shared_ok s (<[i := h']> hs).
Proof.
  intros Hi Hsl How Hg Hl [S1 S2 S3 S4 S5 S6].
  assert (Hback : ∀ j k, <[i := h']> hs !! j = Some k →
    ∃ k0, hs !! j = Some k0 ∧ slot_of k0 = slot_of k ∧ h_owned k0 = h_owned k).
  { intros j k [(<- & <- & _)|[_ ?]]%list_lookup_insert_Some; [|by exists k].
    exists h. by rewrite (slot_of_eq h h'). }
  split; try done.
  - intros. rewrite length_insert. eauto.
  - intros j k hj hk Hj Hk. apply Hback in Hj as (? & ? & <- & <-). apply Hback in Hk as (? & ? & <- & <-). eauto.
  - unfold talking in *. destruct (lock s) as [j|]; [|done]. destruct S3 as (hj & p & pl & Hj & ?).
    exists hj, p, pl. rewrite list_lookup_insert_ne by congruence. done.
  - pose proof (tasks_insert i h h' hs Hi Hg). lia.
Qed.

(** The handler reaches its next [await], none of the worker. *)
Lemma enter i h b c s hs p :
  between i h b c s hs →
  ¬ exchanging p → playing p = b → (c = true → over p) →
  (owner_phase p → h_owned h = true) → (∀ payload, p ≠ Locking (Input payload)) →
  (∀ data k, p = Sending data k → sendable (pipe s) i h data) →
  sys_ok (Sys s (<[i := at_phase p h]> hs)).
Proof.
  intros [(h0 & Hi & Hsl & How & Hg) B2 B3 B4 B5 B6 B7 B8] Hx Hb Hc Hp Hin Hs.
  split; cbn.
  - intros j hj [(<- & <- & _)|[Hne Hj]]%list_lookup_insert_Some; [|by apply B2].
    split; cbn; try done.
    + intros slot payload Hw. eauto.
    + intros Ho. rewrite Hb. auto.
  - eapply shared_insert; [exact Hi|by rewrite Hsl|by rewrite How|done|done|done].
Qed.

(** The handler writes a command and awaits the answer. *)
Lemma enter_exchange i h b c s s' hs p payload :
  between i h b c s hs → lock s = None →
  exchange_begin i (op_of p) (slot_of h) payload s = (Ok tt, s') →
  playing (Exchanging p) = b → c = false →
  (owner_phase (Exchanging p) → h_owned h = true) → (plays (op_of p) → h_owned h = true) →
  (op_of p = 1 → ∃ l0 q data, pipe s = l0 ++ [Wrote i 2 (slot_of h) q; Answered i (slot_of h) (Ok data)]) →
  sys_ok (Sys (set_lock (Some i) s') (<[i := at_phase (Exchanging p) h]> hs)).
Proof.
  intros [(h0 & Hi & Hsl & How & Hg) B2 B3 B4 B5 B6 B7 B8] Hl E Hb -> Hp Hplay Htick.
  unfold exchange_begin in E. apply st_bind_Ok in E as (s0 & s1 & E0 & E). injection E0 as <- <-.
  apply st_bind_Ok in E as (x1 & s2 & E1 & E). apply raise_when_Ok in E1 as [G1 ->].
  apply st_bind_Ok in E as (x2 & s2 & E2 & E). apply raise_when_Ok in E2 as [G2 ->]. bools.
  injection E as <-. pose proof B8 as [S1 S2 S3 S4 S5 S6]. rewrite Hl in S3. cbn in S3.
  assert (Hpipe : ∀ e, e ∈ pipe s ++ [Wrote i (op_of p) (slot_of h) payload] ↔
    e ∈ pipe s ∨ e = Wrote i (op_of p) (slot_of h) payload) by (intros; apply elem_snoc).
  assert (Hslot : ∀ j hj op q, hs !! j = Some hj → j ≠ i → Wrote j op (slot_of h) q ∈ pipe s → plays op →
    h_owned h = true → False).
  { intros j hj op q Hj Hne Hw Hpl Ho. apply (ho_wrote _ _ _ (B2 j hj Hne Hj)) in Hw as [Hs Ho'].
    apply Hne. eapply S2; [exact Hj|exact Hi|auto|congruence|]. by rewrite (slot_of_eq h0 h). }
  assert (Hall : ∀ j op q, Wrote j op (slot_of h) q ∈ pipe s → plays op → h_owned h = true → j = i).
  { intros j op q Hw Hpl Ho. destruct (decide (j = i)) as [|Hne]; [done|]. exfalso.
    apply S1 in Hw as Hlt. apply lookup_lt_is_Some in Hlt as [hj Hj]. eauto. }
  split; cbn.
  - intros j hj [(<- & <- & _)|[Hne Hj]]%list_lookup_insert_Some.
    + split; cbn; try done.
      * intros slot q [Hw|Hw]%Hpipe; [by apply B5 in Hw|].
        injection Hw as Hop _ _. by destruct p.
      * intros op slot q [Hw|Hw]%Hpipe; [eauto|]. injection Hw as -> -> ->. done.
      * intros Ho. cbn in Hb. rewrite Hb. auto.
    + eapply (handler_ok_other s _ i j hj (Wrote i (op_of p) (slot_of h) payload)); try done.
      * eauto.
      * by rewrite Hl.
      * by right.
  - split; cbn; try done.
    + intros j op slot q [Hw|Hw]%Hpipe; rewrite length_insert; [eauto|]. injection Hw as -> _ _ _.
      by eapply lookup_lt_Some.
    + intros j k hj hk Hj Hk.
      assert (Hback : ∀ j k, <[i := at_phase (Exchanging p) h]> hs !! j = Some k →
        ∃ k0, hs !! j = Some k0 ∧ slot_of k0 = slot_of k ∧ h_owned k0 = h_owned k).
      { intros j1 k1 [(<- & <- & _)|[_ ?]]%list_lookup_insert_Some; [|by exists k1].
        exists h0. split; [done|]. split; [by apply slot_of_eq|done]. }
      apply Hback in Hj as (? & ? & <- & <-). apply Hback in Hk as (? & ? & <- & <-). eauto.
    + eexists _, p, payload. rewrite list_lookup_insert_eq by (by eapply lookup_lt_Some).
      split; [done|]. split; [done|]. apply dialogue_write; [done| |done]. split.
      * auto.
      * done.
      * intros Hpl j op' q Hw Hpl'. eauto.
      * unfold plays. destruct p; cbn; lia.
      * intros j q Hw. assert (j ≠ i) by (intros ->; by apply B5 in Hw). split; [|done].
        destruct (h_owned h) eqn:Eo; [assert (j = i) by (apply (Hall j 3 q); [done|right; by right|done]); done|].
        unfold plays in Hplay. destruct p; cbn in *; try done; naive_solver.
    + intros Hbr e [He|He]%Hpipe; [by apply S4|]. subst. by intros [].
    + pose proof (tasks_insert i h0 (at_phase (Exchanging p) h) hs Hi Hg). lia.
Qed.

Definition is_close (p : purpose) : bool := match p with Close => true | _ => false end.

Lemma dialogue_some l o : dialogue l (Some o) →
  ∃ l0, l = l0 ++ [Wrote o.1.1.1 o.1.1.2 o.1.2 o.2] ∧ dialogue l0 None ∧ may_write l0 o.1.1.1 o.1.1.2 o.1.2.
Proof. inversion 1; subst. eauto. Qed.

(** The exchange is over: the lock is free and the handler between two
    [await]s. *)
Lemma answer_between i h p s hs reply r s' :
  sys_ok (Sys s hs) → hs !! i = Some h → h_phase h = Exchanging p →
  exchange_end i (slot_of h) reply s = (r, s') →
  between i h (playing (Exchanging p)) (is_close p) (set_lock None s') hs ∧
  (∃ l q, pipe s = l ++ [Wrote i (op_of p) (slot_of h) q]) ∧
  pipe s' = pipe s ++ [Answered i (slot_of h) r] ∧ broken s' = negb (is_Ok r) || broken s.
Proof.
  intros [Ho Hs] Hi Hp E. cbn in *. pose proof (Ho _ _ Hi) as [H1 H2 H3 H4 H5 H6 H7 H8].
  rewrite Hp in *. cbn in H4. specialize (H4 I).
  destruct Hs as [S1 S2 S3 S4 S5 S6]. rewrite H4 in S3. destruct S3 as (h1 & p1 & q & Hi1 & Hp1 & Hd).
  rewrite Hi in Hi1. injection Hi1 as <-. rewrite Hp in Hp1. injection Hp1 as <-.
  unfold exchange_end in E. injection E as Hr <-. rewrite Hr.
  set (s2 := if is_Ok r then s else set_broken s).
  assert (Hsame : identities s2 = identities s ∧ claimed s2 = claimed s ∧ connected s2 = connected s ∧ pipe s2 = pipe s ∧
    lock s2 = lock s ∧ broken s2 = negb (is_Ok r) || broken s).
  { unfold s2. by destruct r. }
  destruct Hsame as (Hid & Hcl & Hco & Hpi & Hlo & Hbr).
  assert (Hel : ∀ e, e ∈ pipe s2 ++ [Answered i (slot_of h) r] ↔ e ∈ pipe s ∨ e = Answered i (slot_of h) r).
  { intros e. rewrite Hpi. apply elem_snoc. }
  split_and!.
  - split; cbn; try done.
    + exists h. unfold is_gone. by rewrite Hp.
    + intros j hj Hne Hj. eapply (handler_ok_other s _ i j hj (Answered i (slot_of h) r)); cbn; try done.
      * by apply Ho.
      * by rewrite Hco.
      * rewrite H4. congruence.
      * right. by rewrite Hpi.
    + by rewrite Hcl.
    + intros op slot pl [Hw|?]%Hel; [|done]. eauto.
    + intros slot pl [Hw|?]%Hel; [|done]. apply H5 in Hw. by destruct p.
    + by rewrite Hco.
    + split; cbn; try done.
      * intros j op slot pl [Hw|?]%Hel; [|done]. eauto.
      * rewrite Hpi. eapply dialogue_answer. exact Hd.
      * rewrite Hbr. intros [Hk Hb]%orb_false_iff e [He|He]%Hel; [by apply S4|]. subst e. destruct r; [by intros []|done].
      * by rewrite Hid, Hcl, Hco.
  - apply dialogue_some in Hd as (l & Hl & _). by exists l, q.
  - cbn. by rewrite Hpi.
  - done.
Qed.

(** ** The parts of a handler *)

(** Changes of the service between two [await]s of handler [i]. *)
Lemma between_broken i h b c s hs : between i h b c s hs → between i h b c (set_broken s) hs.
Proof.
  intros [B1 B2 B3 B4 B5 B6 B7 [S1 S2 S3 S4 S5 S6]]. split; try done.
  intros j hj Hne Hj. destruct (B2 j hj Hne Hj). by split.
Qed.

Lemma between_disconnect i h b c s hs :
  between i h b c s hs → h_owned h = true → between i h false c (set_connected (slot_of h) false s) hs.
Proof.
  intros [(h0 & Hi & Hsl & How & Hg) B2 B3 B4 B5 B6 B7 B8] Ho.
  pose proof B8 as [S1 S2 S3 S4 S5 S6].
  split; try done.
  - by exists h0.
  - intros j hj Hne Hj. eapply (handler_ok_other s _ i j hj (Answered i 0 (Raise TypeError))); cbn; try done; [by apply B2| |by left].
    intros slot Hs Hoj. apply list_lookup_insert_ne. intros E. apply Hne.
    eapply S2; [exact Hj|exact Hi|done|congruence|]. rewrite (slot_of_eq h0 h) by done. congruence.
  - intros _. cbn. apply list_lookup_insert_eq. eapply lookup_lt_Some. by apply B6.
  - split; cbn; try done. by rewrite length_insert.
Qed.

Lemma leave_ok i h b s hs h' s' :
  between i h b false s hs → leave h s = (Ok h', s') → sys_ok (Sys s' (<[i := h']> hs)).
Proof.
  intros B E. unfold leave in E. destruct (h_owned h) eqn:Ho.
  - injection E as <- <-. apply (between_disconnect _ _ _ _ _ _ B) in Ho as B'.
    destruct (broken s); (eapply enter; [exact B'|by intros []|done..]).
  - injection E as <- <-. destruct B as [B1 B2 B3 B4 B5 B6 B7 B8].
    eapply (enter i h false false); [|by intros []|done..]. split; try done. congruence.
Qed.

Lemma leave_total h s : ∃ h' s', leave h s = (Ok h', s').
Proof. unfold leave. destruct (h_owned h); eauto. Qed.

Lemma failed_ok i h p b s hs h' s' :
  between i h b (is_close p) s hs → b = playing (Exchanging p) → failed h p s = (Ok h', s') →
  sys_ok (Sys s' (<[i := h']> hs)).
Proof.
  intros B -> E. unfold failed in E.
  destruct p; try (by eapply leave_ok). injection E as <- <-.
  eapply enter; [by apply between_broken|by intros []|done..].
Qed.

Lemma between_same i h h' b c s hs :
  h_slot h' = h_slot h → h_owned h' = h_owned h → between i h b c s hs → between i h' b c s hs.
Proof.
  intros Hs Ho [(h0 & ?) B2 B3 B4 B5 B6 B7 B8]. assert (slot_of h' = slot_of h) as Hsl by (by apply slot_of_eq).
  split; rewrite ?Hs, ?Ho, ?Hsl; try done. by exists h0.
Qed.

Lemma between_weaken i h b c s hs : between i h b false s hs → between i h b c s hs.
Proof. intros [B1 B2 B3 B4 B5 B6 B7 B8]. split; try done. intros slot q Hw. by apply B5 in Hw. Qed.

Lemma set_lock_None s : lock s = None → set_lock None s = s.
Proof. destruct s. cbn. by intros ->. Qed.

Lemma next_ok i now h n s hs h' s' :
  between i h true false s hs → h_owned h = true → next now h n s = (Ok h', s') →
  sys_ok (Sys s' (<[i := h']> hs)).
Proof.
  intros B Ho E. unfold next in E. destruct n as [|n].
  - injection E as <- <-. eapply enter; [exact B|by intros []|done..|]. intros data k [= <- _].
    left. exists 6. split; [lia|done].
  - destruct (h_deadline h - now <=? 0); [by eapply leave_ok|]. injection E as <- <-.
    eapply enter; [exact B|by intros []|done..].
Qed.

Lemma sent_ok i now h k s hs h' s' :
  between i h true false s hs → (k ≠ ToLeave → h_owned h = true) → sent now h k s = (Ok h', s') →
  sys_ok (Sys s' (<[i := h']> hs)).
Proof.
  intros B Ho E. unfold sent in E. destruct k as [|n|]; [by eapply leave_ok|by eapply next_ok; eauto|].
  refine (next_ok _ _ _ _ _ _ _ _ _ _ E); [by eapply between_same; [..|exact B]|by apply Ho].
Qed.

Lemma received_ok i h n data s hs h' s' :
  between i h true false s hs → h_owned h = true → received h n data s = (Ok h', s') →
  sys_ok (Sys s' (<[i := h']> hs)).
Proof.
  intros B Ho E. unfold received in E.
  set (h2 := Handler (h_slot h) (h_owned h) (h_deadline h) n (h_phase h)) in *.
  assert (B2 : between i h2 true false s hs) by (by eapply between_same; [..|exact B]).
  destruct (negb _); [|destruct (negb _)]; injection E as <- <-;
    (eapply enter; [exact B2|by intros []|done..|]); try done; intros d k [= <- _]; left;
    [exists 5|exists 7]; (split; [lia|done]).
Qed.

Lemma exchange_begin_Raise i op slot payload s e s' :
  exchange_begin i op slot payload s = (Raise e, s') → s' = s.
Proof.
  unfold exchange_begin, mbind, st_bind, get, raise_when, lift, raise_if, modify.
  destruct (broken s || negb (running s)); cbn; [by intros [= _ <-]|].
  destruct (_ || _); cbn; [by intros [= _ <-]|done].
Qed.

Lemma locked_ok i now h p s hs h' s' :
  between i h (playing (Exchanging p)) false s hs → lock s = None →
  (p ≠ Peek → h_owned h = true) →
  (op_of p = 1 → ∃ l0 q data, pipe s = l0 ++ [Wrote i 2 (slot_of h) q; Answered i (slot_of h) (Ok data)]) →
  locked i now h p s = (Ok h', s') → sys_ok (Sys s' (<[i := h']> hs)).
Proof.
  intros B Hl Ho Ht E. unfold locked in E.
  destruct ((payload ← lift (payload_of now s p); exchange_begin i (op_of p) (slot_of h) payload) s)
    as [[[]|e] s1] eqn:E1.
  - injection E as <- <-. apply st_bind_Ok in E1 as (payload & s2 & E1 & E2). apply lift_inv in E1 as [_ ->].
    eapply enter_exchange; try done.
    + intros Hp. apply Ho. by intros ->.
    + intros Hp. apply Ho. intros ->. unfold plays in Hp. cbn in Hp. lia.
  - assert (s1 = s) as ->.
    { apply st_bind_Raise in E1 as [E1|(payload & s2 & E1 & E2)]; [by apply lift_inv in E1 as [_ ->]|].
      apply lift_inv in E1 as [_ ->]. by eapply exchange_begin_Raise. }
    rewrite set_lock_None in E by done.
    eapply failed_ok; [apply between_weaken; exact B|done|exact E].
Qed.

Lemma exchange_begin_lock i op slot payload o s :
  exchange_begin i op slot payload (set_lock o s) =
  let '(r, s') := exchange_begin i op slot payload s in (r, set_lock o s').
Proof.
  unfold exchange_begin, mbind, st_bind, get, raise_when, lift, raise_if. cbn.
  destruct (broken s || negb (running s)); [done|]. cbn.
  by destruct (_ || _).
Qed.

Lemma locked_lock i now h p s : locked i now h p (set_lock None s) = locked i now h p s.
Proof.
  unfold locked, mbind, st_bind, lift. assert (payload_of now (set_lock None s) p = payload_of now s p) as -> by (by destruct p).
  destruct (payload_of now s p) as [payload|e]; [|done]. rewrite exchange_begin_lock.
  by destruct (exchange_begin _ _ _ _ s) as [[|] s1].
Qed.

Lemma reply_check_Ok slot data d : reply_check slot data = Ok d → d = data ∧ reply_check slot d = Ok d.
Proof.
  intros E. assert (d = data) as ->; [|done]. unfold reply_check in E. by py_inv.
Qed.

Lemma answered_ok i now h p reply s hs h' s' :
  sys_ok (Sys s hs) → hs !! i = Some h → h_phase h = Exchanging p →
  answered i now h p reply s = (Ok h', s') → sys_ok (Sys s' (<[i := h']> hs)).
Proof.
  intros O Hi Hp E. unfold answered in E. destruct (exchange_end i (slot_of h) reply s) as [r s1] eqn:Ee.
  destruct (answer_between _ _ _ _ _ _ _ _ O Hi Hp Ee) as (B & (l & q & Hl) & Hpipe & _).
  pose proof (ho_phase _ _ _ (so_handlers _ O _ _ Hi)) as Hown. rewrite Hp in Hown.
  destruct r as [data|e]; [|by eapply failed_ok].
  assert (Hrep : reply_check (slot_of h) data = Ok data).
  { unfold exchange_end in Ee. injection Ee as Er _. apply result_bind_Ok in Er as (d0 & _ & Er).
    by apply reply_check_Ok in Er as [-> ?]. }
  assert (Hans : Answered i (slot_of h) (Ok data) ∈ pipe s1) by (rewrite Hpipe; apply elem_snoc; by right).
  destruct p; cbn [playing is_close] in *.
  - destruct (state data) as [v|e]; [|by eapply leave_ok].
    injection E as <- <-. eapply enter; [exact B|by intros []|done..|]. intros d k [= <- _]. left.
    case_match; [exists 2|exists 3]; (split; [lia|done]).
  - injection E as <- <-. eapply enter; [exact B|by intros []|done|done|by intros _; apply Hown|done|].
    intros d k [= <- _]. right. split; [done|]. split; [done|]. by apply Hown.
  - rewrite <-locked_lock in E. refine (locked_ok i now h (Input payload) _ _ _ _ B eq_refl _ _ E); [by intros _; apply Hown|].
    intros _. exists l, q, data. cbn. rewrite Hpipe, Hl. cbn. by rewrite <-app_assoc.
  - injection E as <- <-. eapply enter; [exact B|by intros []|done|done|by intros _; apply Hown|done|].
    intros d k [= <- _]. right. split; [done|]. split; [done|]. by apply Hown.
  - injection E as <- <-. eapply enter; [exact B|by intros []|done..].
Qed.

Lemma cancelled_ok i h s hs h' s' :
  sys_ok (Sys s hs) → hs !! i = Some h → is_gone h = false →
  cancelled i h s = (Ok h', s') → sys_ok (Sys s' (<[i := h']> hs)).
Proof.
  intros O Hi Hg E. unfold cancelled in E.
  destruct (h_phase h) as [data k|p|p|n| |] eqn:Hp.
  3:{ destruct (exchange_end i (slot_of h) (Raise CancelledError) s) as [r s1] eqn:Ee.
      destruct (answer_between _ _ _ _ _ _ _ _ O Hi Hp Ee) as (B & _). cbn [snd] in E.
      destruct p; try (by eapply leave_ok). injection E as <- <-. eapply enter; [exact B|by intros []|done..]. }
  all: destruct (between_of_ok _ _ _ _ O Hi) as (c & B & Hc); [rewrite Hp; by intros []|done|]; rewrite Hp in B, Hc.
  all: try (assert (c = false) as -> by (destruct c; [by destruct (Hc eq_refl)|done])).
  - by eapply leave_ok.
  - destruct p; try (by eapply leave_ok). injection E as <- <-. eapply enter; [exact B|by intros []|done..].
  - by eapply leave_ok.
  - injection E as <- <-. eapply enter; [exact B|by intros []|done..].
  - unfold is_gone in Hg. by rewrite Hp in Hg.
Qed.

(** ** Every step preserves the invariant *)

Lemma resume_ok i (m : st service handler) s hs :
  sys_ok (Sys s hs) → (∀ h' s', m s = (Ok h', s') → sys_ok (Sys s' (<[i := h']> hs))) →
  (∃ h' s', m s = (Ok h', s')) → sys_ok (resume i m (Sys s hs)).
Proof. intros O Hm (h' & s' & E). unfold resume; cbn. rewrite E. auto. Qed.

Lemma failed_total h p s : ∃ h' s', failed h p s = (Ok h', s').
Proof. unfold failed. destruct p; eauto using leave_total. Qed.
Lemma locked_total i now h p s : ∃ h' s', locked i now h p s = (Ok h', s').
Proof. unfold locked. case_match. case_match; eauto using failed_total. Qed.
Lemma answered_total i now h p r s : ∃ h' s', answered i now h p r s = (Ok h', s').
Proof.
  unfold answered. destruct (exchange_end _ _ _ _) as [[|] ?]; [|apply failed_total].
  destruct p; eauto using locked_total. destruct (state _); eauto using leave_total.
Qed.
Lemma next_total now h n s : ∃ h' s', next now h n s = (Ok h', s').
Proof. unfold next. destruct n; [by do 2 eexists|]. case_match; [apply leave_total|by do 2 eexists]. Qed.
Lemma cancelled_total i h s : ∃ h' s', cancelled i h s = (Ok h', s').
Proof.
  unfold cancelled. destruct (h_phase h) as [| [] | [] | | |]; eauto using leave_total.
Qed.

Lemma step_handler_ok act i h s :
  sys_ok s → s_hs s !! i = Some h → sys_ok (step_handler act i h s).
Proof.
  destruct s as [s hs]. cbn. intros O Hi. pose proof (so_handlers _ O _ _ Hi) as Hh. cbn in Hh.
  pose proof (ho_phase _ _ _ Hh) as Hown.
  assert (Hb : ∀ p, h_phase h = p → ¬ exchanging p → p ≠ Gone → ¬ over p → between i h (playing p) false s hs).
  { intros p <- Hx Hg Hov. destruct (between_of_ok _ _ _ _ O Hi Hx) as (c & B & Hc).
    - unfold is_gone. by destruct (h_phase h).
    - assert (c = false) as -> by (destruct c; [by destruct Hov; apply Hc|done]). done. }
  unfold step_handler. destruct act; try exact O.
  - destruct (h_phase h) as [|p| | | |] eqn:Hp; try exact O. cbn. destruct (lock s) eqn:Hl; [exact O|].
    apply resume_ok; [done| |apply locked_total]. intros h' s' E.
    refine (locked_ok i now h p _ _ _ _ _ Hl _ _ E).
    + replace (playing (Exchanging p)) with (playing (Locking p)) by (by destruct p).
      apply Hb; [done|by intros []|done|by intros []].
    + intros Hne. apply Hown. destruct p as [| | |payload|]; try done. by destruct (ho_input _ _ _ Hh payload).
    + intros Hop. destruct p as [| | |payload|]; try done. by destruct (ho_input _ _ _ Hh payload).
  - destruct (h_phase h) as [| |p| | |] eqn:Hp; try exact O.
    apply resume_ok; [done| |apply answered_total]. intros h' s' E. by eapply answered_ok.
  - destruct (h_phase h) as [data k| | | | |] eqn:Hp; try exact O.
    pose proof (Hb _ eq_refl ltac:(by intros []) ltac:(done) ltac:(by intros [])) as B.
    apply resume_ok; [done| |destruct r; [|apply leave_total]; destruct k; eauto using leave_total, next_total].
    intros h' s' E. destruct r; [|by eapply leave_ok]. eapply sent_ok; [exact B| |exact E].
    intros Hk. apply Hown. by destruct k.
  - destruct (h_phase h) as [| | |n| |] eqn:Hp; try exact O.
    pose proof (Hb _ eq_refl ltac:(by intros []) ltac:(done) ltac:(by intros [])) as B.
    apply resume_ok; [done| |destruct r; [|apply leave_total]; unfold received; repeat case_match; eauto].
    intros h' s' E. destruct r; [|by eapply leave_ok]. eapply received_ok; [exact B|by apply Hown|exact E].
  - destruct (h_phase h) eqn:Hp; try exact O. apply resume_ok; [done| |by do 2 eexists].
    intros h' s' [= <- <-].
    destruct (between_of_ok _ _ _ _ O Hi) as (c & B & _); [by rewrite Hp; intros []|by unfold is_gone; rewrite Hp|].
    rewrite Hp in B. eapply enter; [exact B|by intros []|done..].
  - destruct (is_gone h) eqn:Hg.
    + assert (h_phase h = Gone) as Hp by (unfold is_gone in Hg; by destruct (h_phase h)).
      assert (resume i (cancelled i h) (Sys s hs) = Sys s hs) as Hsame.
      { unfold resume, cancelled; cbn. rewrite Hp. f_equal. apply list_insert_id.
        rewrite Hi. f_equal. unfold at_phase. destruct h; cbn in *. by subst. }
      by rewrite Hsame.
    + assert (Hgoal : sys_ok (resume i (cancelled i h) (Sys s hs))).
      { apply resume_ok; [done| |apply cancelled_total]. intros h' s' E. by eapply cancelled_ok. }
      by destruct (h_phase h).
Qed.

(** A connection is accepted. *)
Lemma slot_for_lt ids cert slot : slot_for ids cert = Some slot → (slot < length ids)%nat.
Proof.
  unfold slot_for. destruct cert as [c|]; [|done]. cbn.
  destruct (list_find (λ d, d = sha256 c) ids) as [[i d]|] eqn:E; [|done]. intros [= <-].
  apply list_find_Some in E as (E & _). by eapply lookup_lt_Some.
Qed.

Lemma tasks_snoc hs h : tasks (hs ++ [h]) <= tasks hs + 1.
Proof.
  unfold tasks. rewrite filter_app, len_app.
  assert (len (filter (λ h, is_gone h = false) [h]) <= 1); [|lia].
  rewrite filter_cons. case_decide; cbn; unfold len; cbn; lia.
Qed.

Lemma add_handler s s' hs h :
  sys_ok (Sys s hs) → tasks hs < 4 →
  (identities s' = identities s ∧ broken s' = broken s ∧ lock s' = lock s ∧ pipe s' = pipe s ∧
   length (claimed s') = 2%nat ∧ length (connected s') = 2%nat) →
  (∀ slot, claimed s !! slot = Some true → claimed s' !! slot = Some true) →
  (∀ slot, claimed s !! slot = Some true → connected s' !! slot = connected s !! slot) →
  (h_owned h = true → ∃ slot, h_slot h = Some slot ∧ claimed s !! slot ≠ Some true) →
  ¬ exchanging (h_phase h) →
  (∀ payload, h_phase h ≠ Locking (Input payload)) →
  (h_owned h = true → (∃ slot, h_slot h = Some slot ∧ claimed s' !! slot = Some true) ∧
     connected s' !! slot_of h = Some (playing (h_phase h))) →
  (owner_phase (h_phase h) → h_owned h = true) →
  (∀ data k, h_phase h = Sending data k → sendable (pipe s) (length hs) h data) →
  sys_ok (Sys s' (hs ++ [h])).
Proof.
  intros [Ho Hs] Ht (Hid & Hbr & Hlo & Hpi & Hl1 & Hl2) Hcl Hco Hnew Hx Hin Hown Hph Hse. cbn in *.
  destruct Hs as [S1 S2 S3 S4 S5 S6].
  assert (Hlk : ∀ j k, (hs ++ [h]) !! j = Some k → hs !! j = Some k ∨ (j = length hs ∧ k = h)).
  { intros j k [?|[? Hk]]%lookup_app_Some; [by left|]. right.
    apply list_lookup_singleton_Some in Hk as [? <-]. split; [lia|done]. }
  assert (Hno : ∀ op slot payload, Wrote (length hs) op slot payload ∉ pipe s).
  { intros op slot payload Hw. apply S1 in Hw. lia. }
  split; cbn.
  - intros j k [Hj|[-> ->]]%Hlk.
    + destruct (Ho _ _ Hj) as [H1 H2 H3 H4 H5 H6 H7 H8]. split; rewrite ?Hpi, ?Hlo; try done.
      * intros Hk. destruct (H1 Hk) as (slot & ? & ?). exists slot. auto.
      * intros Hk. destruct (H1 Hk) as (slot & Hsl & Hc). unfold slot_of in *. rewrite Hsl in *. cbn in *.
        rewrite Hco by done. auto.
    + split; rewrite ?Hpi; try done; try (by intros ??; intros ?%Hno); try (by intros ???; intros ?%Hno).
      * intros Hk. by destruct (Hown Hk).
      * intros Hk. by apply Hown.
  - split; rewrite ?Hpi, ?Hlo, ?Hbr, ?Hid; try done.
    + intros i op slot payload Hw%S1. rewrite length_app. lia.
    + assert (Hd : ∀ j k, hs !! j = Some k → h_owned k = true → h_owned h = true → slot_of k = slot_of h → False).
      { intros j k Hj Hk Hh E. destruct (ho_owned _ _ _ (Ho _ _ Hj) Hk) as (slot & Hsl & Hc).
        destruct (Hnew Hh) as (slot' & Hsl' & Hc'). unfold slot_of in E. rewrite Hsl, Hsl' in E. cbn in E. by subst. }
      intros i j k k' [Hi|[-> ->]]%Hlk [Hj|[-> ->]]%Hlk Hk Hk' E; try done; [by eapply S2| |];
        exfalso; eauto.
    + unfold talking in *. destruct (lock s) as [i|]; [|by rewrite Hpi].
      destruct S3 as (k & p & q & Hi & ? & ?). exists k, p, q. rewrite Hpi.
      rewrite lookup_app_l by (by eapply lookup_lt_Some). done.
    + intuition.
    + pose proof (tasks_snoc hs h). lia.
Qed.

Lemma connect_ok cert s : sys_ok s → sys_ok (step (EConnect cert) s).
Proof.
  destruct s as [s hs]. intros O. cbn. destruct (Z.leb_spec 4 (tasks hs)) as [|Ht]; [done|].
  pose proof (sh_len _ _ (so_shared _ O)) as (L1 & L2 & L3). cbn in *.
  unfold handle_begin. destruct (slot_for _ _) as [slot|] eqn:Es.
  2:{ eapply add_handler; cbn; try done; [by intros []|]. intros data k [= <- _]. left. exists 1. split; [lia|done]. }
  apply slot_for_lt in Es. rewrite L1 in Es. destruct (broken s).
  { eapply add_handler; cbn; try done; [by intros []|]. intros data k [= <- _]. left. exists 4. split; [lia|done]. }
  destruct (claimed s !! slot) as [c|] eqn:Ec.
  2:{ apply lookup_ge_None in Ec. lia. }
  cbn. destruct c.
  { eapply add_handler; cbn; try done. by intros []. }
  eapply add_handler; cbn; try done.
  - by rewrite !length_insert.
  - intros k Hk. rewrite list_lookup_insert_ne; [done|congruence].
  - intros k Hk. rewrite list_lookup_insert_ne; [done|congruence].
  - intros _. exists slot. split; [done|congruence].
  - by intros [].
  - intros _. split; [exists slot; split; [done|]|]; rewrite list_lookup_insert_eq; done || lia.
Qed.

(** A change of the service that the invariant does not look at. *)
Lemma service_ok s s' hs :
  sys_ok (Sys s hs) →
  identities s' = identities s ∧ claimed s' = claimed s ∧ connected s' = connected s ∧ lock s' = lock s ∧
  pipe s' = pipe s ∧ (broken s' = false → broken s = false) → sys_ok (Sys s' hs).
Proof.
  intros [Ho [S1 S2 S3 S4 S5 S6]] (H1 & H2 & H3 & H4 & H5 & H6). split; cbn in *.
  - intros i h Hi. destruct (Ho i h Hi). split; rewrite ?H2, ?H3, ?H4, ?H5; done.
  - split; rewrite ?H1, ?H2, ?H3, ?H4, ?H5; auto. unfold talking in *. rewrite H5.
    destruct (lock s); done.
Qed.

Lemma game_step_ok act s : sys_ok s → sys_ok (step act s).
Proof.
  intros O. destruct act; cbn [step];
    try (destruct (s_hs s !! i) as [h0|] eqn:Hi; [by apply step_handler_ok|done]).
  - destruct s as [s hs]. cbn. eapply service_ok; [exact O|]. unfold start.
    destruct (running s); [by split_and!|]. case_match; by split_and!.
  - by apply connect_ok.
  - destruct s as [s hs]. eapply service_ok; [exact O|]. by split_and!.
  - destruct s as [s hs]. eapply service_ok; [exact O|]. by split_and!.
Qed.

Lemma game_run_ok acts s : sys_ok s → sys_ok (run acts s).
Proof. revert s. induction acts as [|act acts IH]; intros s O; [done|]. apply IH. by apply game_step_ok. Qed.

Lemma new_service_ok ids s : new_service ids = Ok s → sys_ok (Sys s []).
Proof.
  unfold new_service. intros E. py_inv. bools. split; cbn; [done|].
  split; cbn; try done; [intros; set_solver|constructor|intros _ e He; set_solver|].
  unfold len in *. split_and!; lia || done.
Qed.
