(* ===== verification/GameTheorems.v ===== *)
(** * What the game service guarantees

    The state and command codecs; the dialogue with the worker, the slots, the
    frames sent to the players and the end of every connection, in any
    interleaving. *)

From S2P Require Import Prelude Bytes Sha256 GameService GameRun GameFacts.
Import GameService.

(** ** Codecs *)

Lemma at_range data i : 0 <= at_ data i < 256.
Proof. unfold at_. destruct (data !! i); [apply b2z_range|lia]. Qed.

Lemma le_slice_bound data i j n :
  (i <= j)%nat → (j <= length data)%nat → (j - i)%nat = n → 0 <= le_decode (slice data i j) < 256 ^ Z.of_nat n.
Proof.
  intros Hi Hj <-. pose proof (le_decode_bound (slice data i j)) as Hb. unfold len in Hb.
  by rewrite length_slice in Hb.
Qed.

(** The bounds of a player that [state] accepts. *)
Definition bounded (p : player) : Prop :=
  -10000 <= x_mm p <= 10000 ∧ -10000 <= y_mm p <= 10000 ∧ 0 <= health p <= 100 ∧
  0 <= ammo p <= 4 ∧ 0 <= hits p <= 4 ∧ 0 <= kills p <= 1.

Lemma read_player_bounded data slot : in_range (read_player data slot) = true → bounded (read_player data slot).
Proof.
  unfold in_range, bounded. intros E. bools.
  pose proof (at_range data (52 + slot * 12 + 8)). pose proof (at_range data (52 + slot * 12 + 9)).
  pose proof (at_range data (52 + slot * 12 + 10)). pose proof (at_range data (52 + slot * 12 + 11)).
  cbn in *. lia.
Qed.

(** A state that [state] accepts is 80 bytes, versioned, with a tick of 64
    bits, a sequence of 32 bits, one of the two players, a reason of the list, two
    players within the arena and the limits of health, ammunition, hits and
    kills, and match and session identifiers that are not null; and every error
    frame the service sends is reported under its own name. *)
Theorem state_sound data v :
  state data = Ok v →
  len data = 80 ∧ take 5 data = b "LGST" ++ [z2b 1] ∧
  0 <= s_tick v < 2 ^ 64 ∧ 0 <= s_sequence v < 2 ^ 32 ∧ (s_player v = 0 ∨ s_player v = 1) ∧
  s_reason v ∈ RESULTS ∧
  s_players v = [read_player data 0; read_player data 1] ∧ Forall bounded (s_players v) ∧
  some_set (slice data 20 36) = true ∧ some_set (slice data 36 52) = true ∧
  ∀ code name, error_name code = Some name → state (error_frame code) = Raise (ValueError name).
Proof.
  unfold state at 1. destruct (error_of data); [done|]. intros E.
  apply result_bind_Ok in E as (x1 & G1 & E). apply raise_if_Ok in G1.
  apply result_bind_Ok in E as (x2 & G2 & E). apply raise_if_Ok in G2.
  apply result_bind_Ok in E as (x3 & G3 & E). apply raise_if_Ok in G3.
  apply result_bind_Ok in E as (x4 & G4 & E). apply raise_if_Ok in G4.
  injection E as <-. apply negb_false_iff in G1, G2, G3. apply orb_false_iff in G4 as [G4 G5].
  apply negb_false_iff in G4, G5. unfold schema_ok in G1. bools.
  assert (Hlen : length data = 80%nat) by (unfold len in *; lia).
  pose proof (at_range data 5). pose proof (at_range data 6).
  cbn [s_tick s_sequence s_player s_reason s_players]. split_and!; try done.
  - apply (le_slice_bound data 8 16 8); lia.
  - apply (le_slice_bound data 8 16 8); lia.
  - apply (le_slice_bound data 16 20 4); lia.
  - apply (le_slice_bound data 16 20 4); lia.
  - lia.
  - change (nth (Z.to_nat (at_ data 5)) RESULTS EmptyString ∈ RESULTS). apply list_elem_of_In, nth_In. lia.
  - apply Forall_cons; split; [by apply read_player_bounded|]. apply Forall_singleton. by apply read_player_bounded.
  - intros code name Hn. unfold state.
    assert (Hc : 1 <= code <= 7).
    { unfold error_name in Hn. repeat (destruct code as [|code|code]; try done). }
    assert (error_of (error_frame code) = Some name) as ->; [|done].
    assert (code = 1 ∨ code = 2 ∨ code = 3 ∨ code = 4 ∨ code = 5 ∨ code = 6 ∨ code = 7) as Hcs by lia.
    destruct Hcs as [->|[->|[->|[->|[->|[->| ->]]]]]]; rewrite <-Hn; vm_compute; reflexivity.
Qed.

Definition sample_state (slot : Z) : bytes :=
  b "LGST" ++ [x01; x00; z2b slot; x01] ++ le_encode 8 7 ++ le_encode 4 3 ++ replicate 16 x0a ++
  replicate 16 (z2b (11 + slot)) ++
  (le_encode 4 500 ++ le_encode 4 4294966296 ++ [x64; x04; x00; x00]) ++
  (le_encode 4 0 ++ le_encode 4 0 ++ [x64; x03; x01; x00]) ++ [x03; x00; x00; x00].
Definition sample_snapshot : snapshot := Eval vm_compute in
  match state (sample_state 0) with Ok v => v | Raise _ => Snapshot 0 0 0 EmptyString [] end.

Lemma state_sound_witness :
  len (sample_state 0) = 80 ∧ take 5 (sample_state 0) = b "LGST" ++ [z2b 1] ∧
  0 <= s_tick sample_snapshot < 2 ^ 64 ∧ 0 <= s_sequence sample_snapshot < 2 ^ 32 ∧
  (s_player sample_snapshot = 0 ∨ s_player sample_snapshot = 1) ∧ s_reason sample_snapshot ∈ RESULTS ∧
  s_players sample_snapshot = [read_player (sample_state 0) 0; read_player (sample_state 0) 1] ∧
  Forall bounded (s_players sample_snapshot) ∧
  some_set (slice (sample_state 0) 20 36) = true ∧ some_set (slice (sample_state 0) 36 52) = true ∧
  ∀ code name, error_name code = Some name → state (error_frame code) = Raise (ValueError name).
Proof. apply (state_sound (sample_state 0) sample_snapshot). vm_compute. reflexivity. Defined.

(** The command a player builds from its hello is 48 bytes, the only size the
    service takes for an input: the header, one of the six directions, the match
    and session identifiers of the hello unchanged, and the sequence number,
    which is never [0] nor the last of its 32 bits, read back from its field. *)
Theorem command_layout hello sequence action data :
  command hello sequence action = Ok data →
  len data = 48 ∧ take 5 data = b "LGIN" ++ [z2b 1] ∧
  Some (at_ data 5, at_ data 6, at_ data 7) = direction action ∧
  slice data 8 40 = slice hello 20 52 ∧ le_decode (slice data 40 44) = sequence ∧
  0 < sequence < 2 ^ 32 - 1 ∧ drop 44 data = zeros 4.
Proof.
  unfold command. intros E. apply result_bind_Ok in E as (v & Hs & E).
  assert (Hlen : length hello = 80%nat).
  { unfold state in Hs. destruct (error_of hello); [done|].
    apply result_bind_Ok in Hs as (x1 & G1 & _). apply raise_if_Ok in G1. apply negb_false_iff in G1.
    unfold schema_ok in G1. bools. unfold len in *. lia. }
  destruct (direction action) as [[[kind x] y]|] eqn:Hd; [|done].
  apply result_bind_Ok in E as (x2 & G2 & E). apply raise_if_Ok in G2. bools.
  assert (Hids : length (slice hello 20 52) = 32%nat) by (rewrite length_slice; lia).
  assert (Hseq : length (le_encode 4 sequence) = 4%nat) by apply length_le_encode.
  set (ids := slice hello 20 52) in *. set (sq := le_encode 4 sequence) in *.
  set (head := b "LGIN" ++ [z2b 1; z2b kind; z2b x; z2b y]).
  assert (data = head ++ ids ++ sq ++ zeros 4) as -> by (by injection E as <-).
  assert (Hh : length head = 8%nat) by done.
  assert (Hdir : 0 <= kind < 256 ∧ 0 <= x < 256 ∧ 0 <= y < 256).
  { unfold direction in Hd. repeat case_decide; simplify_eq; lia. }
  split_and!.
  - unfold len. rewrite !length_app, Hh, Hids, Hseq. done.
  - done.
  - change (Some (b2z (z2b kind), b2z (z2b x), b2z (z2b y)) = Some (kind, x, y)).
    by rewrite !b2z_z2b_small by lia.
  - unfold slice. rewrite drop_app_length' by done. apply take_app_length'. by rewrite Hids.
  - unfold slice. rewrite app_assoc, drop_app_length' by (rewrite length_app; lia).
    rewrite take_app_length' by (by rewrite Hseq). unfold sq. rewrite le_decode_encode.
    apply Z.mod_small. cbn. lia.
  - lia.
  - lia.
  - rewrite !app_assoc. apply drop_app_length'. rewrite !length_app. lia.
Qed.

Definition sample_input : bytes := Eval vm_compute in
  match command (sample_state 0) 5 "fire" with Ok d => d | Raise _ => [] end.
Lemma command_layout_witness :
  len sample_input = 48 ∧ take 5 sample_input = b "LGIN" ++ [z2b 1] ∧
  Some (at_ sample_input 5, at_ sample_input 6, at_ sample_input 7) = direction "fire" ∧
  slice sample_input 8 40 = slice (sample_state 0) 20 52 ∧ le_decode (slice sample_input 40 44) = 5 ∧
  0 < 5 < 2 ^ 32 - 1 ∧ drop 44 sample_input = zeros 4.
Proof. apply (command_layout (sample_state 0) 5 "fire" sample_input). vm_compute. reflexivity. Defined.

(** ** The worker, the slots and the players *)

(** C5.  The worker sees one command at a time, each written only after the answer
    to the one before and never after a failure; an input reaches it only right
    after a successful tick of the same connection; and the ticks, inputs and the
    close of a player's slot all come from one connection.  After the close the worker
    is asked nothing more of the slot but its snapshot (4), which the service takes
    for another connection of the player before it refuses it: a slot serves one
    connection per match and is never resurrected. *)
Theorem worker_dialogue ids s acts :
  new_service ids = Ok s →
  let r := run acts (Sys s []) in
  ∃ o, dialogue (pipe (s_svc r)) o ∧ (λ x, x.1.1.1) <$> o = lock (s_svc r).
Proof.
  intros E%new_service_ok r. pose proof (game_run_ok acts _ E) as O. fold r in O. clearbody r.
  pose proof (sh_talk _ _ (so_shared _ O)) as Ht. destruct (lock (s_svc r)) as [i|] eqn:Hl.
  - destruct Ht as (h & p & payload & _ & _ & Hd). eexists. split; [exact Hd|]. done.
  - exists None. by split.
Qed.

(** No two connections ever own the same slot, at most four connections are
    handled at a time, and a player counts as connected exactly while the
    connection that owns the slot has not left its session. *)
Theorem slots_are_single_use ids s acts :
  new_service ids = Ok s →
  let r := run acts (Sys s []) in
  (∀ i j h k, s_hs r !! i = Some h → s_hs r !! j = Some k → h_owned h = true → h_owned k = true →
     slot_of h = slot_of k → i = j) ∧
  tasks (s_hs r) <= 4 ∧
  ∀ i h, s_hs r !! i = Some h → h_owned h = true →
    (∃ slot, h_slot h = Some slot ∧ claimed (s_svc r) !! slot = Some true) ∧
    connected (s_svc r) !! slot_of h = Some (playing (h_phase h)).
Proof.
  intros E%new_service_ok r. pose proof (game_run_ok acts _ E) as O. fold r in O. clearbody r.
  pose proof (so_shared _ O) as S. split_and!.
  - apply (sh_unique _ _ S).
  - apply (sh_tasks _ _ S).
  - intros i h Hi Ho. pose proof (so_handlers _ O _ _ Hi) as Hh. split.
    + by apply (ho_owned _ _ _ Hh).
    + by apply (ho_connected _ _ _ Hh).
Qed.

(** Every frame a connection sends is one of the seven error frames, or a
    state that the worker answered to this very connection, that passes the
    checks of [state] and carries the number of the connection's own slot. *)
Theorem players_get_their_own_state ids s acts i h data k :
  new_service ids = Ok s →
  let r := run acts (Sys s []) in
  s_hs r !! i = Some h → h_phase h = Sending data k →
  (∃ code, 1 <= code <= 7 ∧ data = error_frame code) ∨
  (h_owned h = true ∧ Answered i (slot_of h) (Ok data) ∈ pipe (s_svc r) ∧
   ∃ v, state data = Ok v ∧ s_player v = Z.of_nat (slot_of h)).
Proof.
  intros E%new_service_ok r Hi Hp. pose proof (game_run_ok acts _ E) as O. fold r in O, Hi. clearbody r.
  destruct (ho_sends _ _ _ (so_handlers _ O _ _ Hi) _ _ Hp) as [?|(Ha & Hr & Ho)]; [by left|right].
  split; [done|]. split; [done|]. unfold reply_check in Hr.
  apply result_bind_Ok in Hr as (v & Hv & Hr). exists v. split; [done|].
  apply result_bind_Ok in Hr as (x & Hx & _). apply raise_if_Ok in Hx. by bools.
Qed.

(** ** The end of a connection *)

#[export] Instance purpose_eq_dec : EqDecision purpose.
Proof. solve_decision. Defined.
#[export] Instance after_eq_dec : EqDecision after.
Proof. solve_decision. Defined.
#[export] Instance phase_eq_dec : EqDecision phase.
Proof. solve_decision. Defined.
#[export] Instance handler_eq_dec : EqDecision handler.
Proof. solve_decision. Defined.

(** How far a handler is from its end. *)
Definition loop_rank (n : nat) : nat := 5 * n + 10.
Definition rank (h : handler) : nat :=
  match h_phase h with
  | Gone => 0
  | Closing => 1
  | Exchanging Close => 2
  | Locking Close => 3
  | Sending _ ToLeave => 4
  | Exchanging Peek => 5
  | Locking Peek => 6
  | Sending _ (ToLoop n) => loop_rank n
  | Exchanging (Input _) => loop_rank (h_left h) + 1
  | Exchanging (Tick _) => loop_rank (h_left h) + 2
  | Locking (Tick _) | Locking (Input _) => loop_rank (h_left h) + 3
  | Reading n => loop_rank n + 4
  | Sending _ ToStart => loop_rank iterations
  | Exchanging Hello => loop_rank iterations + 1
  | Locking Hello => loop_rank iterations + 2
  end%nat.
Definition rank_at (i : nat) (s : sys) : nat :=
  match s_hs s !! i with Some h => rank h | None => loop_rank iterations + 3 end%nat.

Lemma leave_rank h s h' s' : leave h s = (Ok h', s') → (rank h' ≤ 3)%nat.
Proof.
  unfold leave. destruct (h_owned h); [|intros [= <- _]; cbn; lia].
  cbn. destruct (broken s); intros [= <- _]; cbn; lia.
Qed.
Lemma failed_rank h p s h' s' : failed h p s = (Ok h', s') → (rank h' ≤ if is_close p then 1 else 3)%nat.
Proof. unfold failed. destruct p; cbn; try (apply leave_rank). intros [= <- _]. done. Qed.
Lemma next_rank now h n s h' s' : next now h n s = (Ok h', s') → (rank h' < loop_rank n)%nat.
Proof.
  unfold next. destruct n as [|n]; [intros [= <- _]; cbn; lia|].
  case_match; [intros E%leave_rank; unfold loop_rank; lia|]. intros [= <- _].
  cbn [rank at_phase h_phase]. unfold loop_rank. lia.
Qed.
Lemma locked_rank i now h p s h' s' :
  locked i now h p s = (Ok h', s') → (rank h' ≤ rank (at_phase (Exchanging p) h))%nat.
Proof.
  unfold locked. case_match. case_match; [by intros [= <- _]|].
  intros E%failed_rank. destruct p; cbn [is_close] in E; cbn [rank at_phase h_phase]; unfold loop_rank; lia.
Qed.
Lemma answered_rank i now h p r s h' s' :
  answered i now h p r s = (Ok h', s') → (rank h' < rank (at_phase (Exchanging p) h))%nat.
Proof.
  unfold answered. destruct (exchange_end _ _ _ _) as [[data|e] s1].
  - destruct p.
    + destruct (state data); [intros [= <- _]; cbn; lia|]. intros E%leave_rank. cbn. lia.
    + intros [= <- _]. cbn [rank at_phase h_phase]. lia.
    + intros E%locked_rank. cbn [rank at_phase h_phase h_left] in *. lia.
    + intros [= <- _]. cbn [rank at_phase h_phase h_left]. lia.
    + intros [= <- _]. cbn. lia.
  - intros E%failed_rank. destruct p; cbn [is_close] in E; cbn [rank at_phase h_phase h_left]; unfold loop_rank; lia.
Qed.
Lemma at_same_phase h : at_phase (h_phase h) h = h.
Proof. by destruct h. Qed.
Lemma cancelled_rank i h s h' s' :
  cancelled i h s = (Ok h', s') → h' = h ∨ (rank h' < rank h)%nat.
Proof.
  unfold cancelled. intros E. destruct (h_phase h) as [d k|p|p|n| |] eqn:Hp.
  6:{ left. injection E as <- _. rewrite <-Hp. apply at_same_phase. }
  all: right; unfold rank at 2; rewrite Hp.
  - apply leave_rank in E. destruct k; unfold loop_rank; lia.
  - destruct p; try (apply leave_rank in E; unfold loop_rank; lia). injection E as <- _. cbn. lia.
  - destruct p; try (apply leave_rank in E; unfold loop_rank; lia). injection E as <- _. cbn. lia.
  - apply leave_rank in E. unfold loop_rank; lia.
  - injection E as <- _. cbn. lia.
Qed.

Lemma resume_lookup i j m s :
  s_hs (resume i m s) !! j = s_hs s !! j ∨
  ∃ h s', m (s_svc s) = (Ok h, s') ∧ i = j ∧ s_hs (resume i m s) !! j = Some h.
Proof.
  unfold resume. destruct (m (s_svc s)) as [[h|e] s'] eqn:E; [|by left]. cbn.
  destruct (decide (i = j)) as [->|Hne]; [|left; by apply list_lookup_insert_ne].
  destruct (decide (j < length (s_hs s))%nat).
  - right. exists h, s'. by rewrite list_lookup_insert_eq.
  - left. rewrite list_insert_ge by lia. done.
Qed.

Lemma step_handler_rank act i j h s :
  s_hs s !! i = Some h →
  s_hs (step_handler act i h s) !! j = s_hs s !! j ∨ (rank_at j (step_handler act i h s) < rank_at j s)%nat.
Proof.
  intros Hi.
  assert (Hres : ∀ m, (∀ h' s', m (s_svc s) = (Ok h', s') → h' = h ∨ (rank h' < rank h)%nat) →
    s_hs (resume i m s) !! j = s_hs s !! j ∨ (rank_at j (resume i m s) < rank_at j s)%nat).
  { intros m Hm. destruct (resume_lookup i j m s) as [?|(h' & s' & E & <- & Hl)]; [by left|].
    apply Hm in E as [->|Hlt]; [left; congruence|]. right. unfold rank_at. by rewrite Hl, Hi. }
  unfold step_handler. destruct act; try (by left); destruct (h_phase h) as [d k|p|p|n| |] eqn:Hp;
    try (by left); try (apply Hres; intros h' s'; first [by apply cancelled_rank|intros E; right; unfold rank at 2; rewrite Hp]).
  - destruct (lock (s_svc s)); [by left|]. apply Hres. intros h' s' E. right. unfold rank at 2; rewrite Hp.
    apply locked_rank in E. destruct p; cbn [rank at_phase h_phase h_left] in E; unfold loop_rank in *; lia.
  - apply answered_rank in E. destruct p; exact E.
  - destruct r; [|apply leave_rank in E; destruct k; unfold loop_rank; lia].
    destruct k; cbn [sent] in E; [apply leave_rank in E; lia|by apply next_rank in E|].
    by apply next_rank in E.
  - destruct r as [data|e]; [|apply leave_rank in E; unfold loop_rank; lia].
    unfold received in E. repeat case_match; injection E as <- _;
      cbn [rank at_phase h_phase h_left]; unfold loop_rank; lia.
  - injection E as <- _. cbn. lia.
Qed.

Lemma begin_rank cert s h s' : handle_begin cert s = (Ok h, s') → (rank h ≤ loop_rank iterations + 2)%nat.
Proof.
  unfold handle_begin. repeat case_match; intros [= <- _]; cbn [rank at_phase h_phase]; unfold loop_rank; lia.
Qed.

Lemma game_step_rank act i s :
  s_hs (step act s) !! i = s_hs s !! i ∨ (rank_at i (step act s) < rank_at i s)%nat.
Proof.
  destruct act; cbn [step];
    try (destruct (s_hs s !! _) as [h0|] eqn:Hi0; [by apply step_handler_rank|by left]); try (by left).
  destruct (4 <=? tasks (s_hs s)); [by left|].
  destruct (handle_begin cert (s_svc s)) as [[h|e] s'] eqn:E; [|by left]. cbn [s_hs].
  destruct (decide (i < length (s_hs s))%nat).
  - left. by apply lookup_app_l.
  - destruct (decide (i = length (s_hs s))) as [->|].
    + right. unfold rank_at. cbn [s_hs]. rewrite list_lookup_middle by done.
      rewrite lookup_ge_None_2 by lia. apply begin_rank in E. lia.
    + left. rewrite !lookup_ge_None_2; rewrite ?length_app; cbn; lia || done.
Qed.

(** The number of steps of a run that move connection [i], its arrival included. *)
Fixpoint moves (i : nat) (acts : list action) (s : sys) : nat :=
  match acts with
  | [] => O
  | act :: acts =>
      (if decide (s_hs (step act s) !! i = s_hs s !! i) then 0 else 1)%nat + moves i acts (step act s)
  end.

Lemma moves_bound i acts s :
  (rank_at i s ≤ loop_rank iterations + 3)%nat →
  (moves i acts s + rank_at i (run acts s) ≤ rank_at i s)%nat.
Proof.
  revert s. induction acts as [|act acts IH]; intros s Hr; cbn [moves run foldl]; [lia|].
  specialize (IH (step act s)). fold (run acts (step act s)).
  destruct (game_step_rank act i s) as [E|Hlt].
  - rewrite decide_True by done.
    assert (rank_at i (step act s) = rank_at i s) as Heq by (unfold rank_at; by rewrite E). lia.
  - destruct (decide _); lia.
Qed.

(** C36.  Every connection ends: from its arrival on, a connection makes at most
    1293 steps in any run, whatever the worker, the peer, the clock and the other
    connections do (256 rounds of five steps, the opening and the closing); and
    one that has made them all is over. *)
Theorem connections_end i acts svc :
  (moves i acts (Sys svc []) < 1293)%nat ∨
  moves i acts (Sys svc []) = 1293%nat ∧ ∃ h, s_hs (run acts (Sys svc [])) !! i = Some h ∧ h_phase h = Gone.
Proof.
  pose proof (moves_bound i acts (Sys svc []) (Nat.le_refl _)) as Hm.
  change (rank_at i (Sys svc [])) with 1293%nat in Hm.
  destruct (decide (moves i acts (Sys svc []) = 1293%nat)) as [E|]; [right; split; [done|]|left; lia].
  assert (Hz : rank_at i (run acts (Sys svc [])) = 0%nat) by lia. unfold rank_at in Hz.
  destruct (s_hs _ !! i) as [h|]; [|unfold loop_rank in Hz; lia]. exists h. split; [done|].
  unfold rank in Hz. destruct (h_phase h) as [d []|[]|[]|n| |]; unfold loop_rank in Hz; lia || done.
Qed.

(** ** A match, for the witnesses *)

Definition cert0 : bytes := b "player-0".
Definition cert1 : bytes := b "player-1".
Definition two_players : list digest := Eval vm_compute in [sha256 cert0; sha256 cert1].
Definition test_service : service := Eval vm_compute in
  match new_service two_players with Ok s => s | Raise _ => Service [] false true [] [] 0 None [] end.
Lemma test_service_made : new_service two_players = Ok test_service.
Proof. vm_compute. reflexivity. Qed.

Definition test_match : list action :=
  [EStart (Ok (sample_state 0 ++ sample_state 1)) 0;
   EConnect (Some cert0); ELock 0 10; EReply 0 20 (Ok (sample_state 0)); ESent 0 30 (Ok tt);
   EConnect (Some cert1); ELock 1 40; EReply 1 50 (Ok (sample_state 1)); ESent 1 60 (Ok tt);
   ERead 0 (Ok sample_input); ELock 0 100000000; EReply 0 100000000 (Ok (sample_state 0));
   EReply 0 100000010 (Ok (sample_state 0))].

Lemma worker_dialogue_witness :
  let r := run test_match (Sys test_service []) in
  ∃ o, dialogue (pipe (s_svc r)) o ∧ (λ x, x.1.1.1) <$> o = lock (s_svc r).
Proof. exact (worker_dialogue two_players test_service test_match test_service_made). Defined.

Lemma slots_are_single_use_witness :
  let r := run test_match (Sys test_service []) in
  (∀ i j h k, s_hs r !! i = Some h → s_hs r !! j = Some k → h_owned h = true → h_owned k = true →
     slot_of h = slot_of k → i = j) ∧
  tasks (s_hs r) <= 4 ∧
  ∀ i h, s_hs r !! i = Some h → h_owned h = true →
    (∃ slot, h_slot h = Some slot ∧ claimed (s_svc r) !! slot = Some true) ∧
    connected (s_svc r) !! slot_of h = Some (playing (h_phase h)).
Proof. exact (slots_are_single_use two_players test_service test_match test_service_made). Defined.

Definition test_handler : handler := Handler (Some 0%nat) true 30000000030 255 (Sending (sample_state 0) (ToLoop 255)).

Lemma players_get_their_own_state_witness :
  (∃ code, 1 <= code <= 7 ∧ sample_state 0 = error_frame code) ∨
  (h_owned test_handler = true ∧
   Answered 0 0 (Ok (sample_state 0)) ∈ pipe (s_svc (run test_match (Sys test_service []))) ∧
   ∃ v, state (sample_state 0) = Ok v ∧ s_player v = Z.of_nat (slot_of test_handler)).
Proof.
  refine (players_get_their_own_state two_players test_service test_match 0 test_handler (sample_state 0)
    (ToLoop 255) test_service_made _ _).
  - vm_compute. reflexivity.
  - reflexivity.
Defined.
