(* ===== verification/Attestation.v ===== *)
(** * Attestation protocol ([src/scripts/tpm_attestation.py])

    The lab-attest/1 codec, the PCR reference, the quote verifier and the
    challenge server.  The TPM tools it runs ([lab_quote_inspect],
    [tpm2_checkquote]) are parameters: what they print and return for a given
    input at a given event.  The server is a client of the [Verifier]
    interface, which the quote verifiers implement. *)

From S2P Require Import Prelude Bytes Sha256 Json JsonCanon Stream Env Dict Connection.
Import Json Stream.

Module Attestation.

Definition PROTOCOL : pystr := u "lab-attest/1".
Definition POLICY : pystr := u "pinned-ak-quote-v1".
Definition MAX_FRAME : Z := 16384.

(** ** Codec *)

(** [no_duplicates(pairs)], an [object_pairs_hook]. *)
Fixpoint no_duplicates (out pairs : dict) : result value :=
  match pairs with
  | [] => Ok (VDict out)
  | (k, v) :: pairs =>
      raise_if! bool_decide (k ∈ keys out) then ValueError "DUPLICATE_FIELD";
      no_duplicates (out ++ [(k, v)]) pairs
  end.

Definition invalid_number {A} (_ : pystr) : result A := Raise (ValueError "INVALID_NUMBER").
Definition decode_hooks : hooks := Hooks (no_duplicates []) invalid_number invalid_number.

Definition validate_str (s : pystr) (level : Z) : result unit :=
  raise_if! 4 <? level then ValueError "JSON_DEPTH";
  raise_if (negb (utf8_encodable s)) (ValueError "UnicodeEncodeError").

Fixpoint validate (item : value) (level : Z) {struct item} : result unit :=
  raise_if! 4 <? level then ValueError "JSON_DEPTH";
  match item with
  | VStr s => raise_if (negb (utf8_encodable s)) (ValueError "UnicodeEncodeError")
  | VDict d =>
      foldr (λ r k, _ ← r; k) (Ok tt)
        ((λ '(k, v), _ ← validate_str k (level + 1); validate v (level + 1)) <$> d)
  | VList l => foldr (λ r k, _ ← r; k) (Ok tt) ((λ v, validate v (level + 1)) <$> l)
  | _ => Ok tt
  end.

Definition decode (raw : bytes) : result dict :=
  raise_if! negb ((0 <? len raw) && (len raw <=? MAX_FRAME)) then ValueError "FRAME_SIZE";
  s ← utf8_decode raw;
  v ← match loads decode_hooks s with
      | Raise RecursionError => Raise (ValueError "JSON_DEPTH")
      | r => r
      end;
  _ ← validate v 0;
  match v with VDict d => Ok d | _ => Raise (ValueError "OBJECT_REQUIRED") end.

Definition encode (value : dict) : result bytes :=
  let raw := ascii_bytes (dumps (VDict value)) in
  raise_if! negb ((0 <? len raw) && (len raw <=? MAX_FRAME)) then ValueError "FRAME_SIZE";
  Ok (be_encode 4 (len raw) ++ raw).

(** [receive(reader, timeout)]: one deadline for the whole message. *)
Definition receive (timeout : Z) : st reader dict :=
  t0 ← gets now;
  header ← readexactly 4 (t0 + timeout);
  let size := be_decode header in
  _ ← raise_when (negb ((0 <? size) && (size <=? MAX_FRAME))) (ValueError "FRAME_SIZE");
  raw ← readexactly (Z.to_nat size) (t0 + timeout);
  lift (decode raw).

(** ** Challenges *)

Record challenge := Challenge {
  session_id : pystr;
  nonce : pystr;
  created_at : Z;
  expires_at : Z;
  c_policy_id : pystr;
  requested : pystr;      (* requested_evidence[1] *)
  c_ak_sha256 : pystr }.

Definition challenge_dict (c : challenge) : dict :=
  [(u "protocol_version", VStr PROTOCOL); (u "session_id", VStr (session_id c));
   (u "nonce", VStr (nonce c)); (u "created_at", VInt (created_at c));
   (u "expires_at", VInt (expires_at c)); (u "policy_id", VStr (c_policy_id c));
   (u "requested_evidence", VList [VStr (u "tpm_quote"); VStr (requested c)]);
   (u "ak_sha256", VStr (c_ak_sha256 c))].

Definition fits_u64 (z : Z) : bool := (0 <=? z) && (z <? 2 ^ 64).

(** The fixed binary input of [qualification]. *)
Definition qualification_data (c : challenge) : bytes :=
  b "lab-attest/1" ++ [x00] ++ from_hex (session_id c) ++ from_hex (nonce c) ++
  be_encode 8 (created_at c) ++ be_encode 8 (expires_at c) ++
  sha256 (z2b <$> c_policy_id c) ++ from_hex (c_ak_sha256 c).

(** [struct.pack('!QQ', ...)] and [encode('ascii')] can raise. *)
Definition qualification (c : challenge) : result pystr :=
  raise_if! negb (fits_u64 (created_at c) && fits_u64 (expires_at c)) then StructError;
  raise_if! negb (JsonCanon.ascii (c_policy_id c)) then ValueError "UnicodeEncodeError";
  Ok (sha256_hex (qualification_data c)).

(** ** [base64.b64decode(value, validate=True)] *)

Definition b64_val (c : Z) : option Z :=
  if (65 <=? c) && (c <=? 90) then Some (c - 65)
  else if (97 <=? c) && (c <=? 122) then Some (c - 71)
  else if (48 <=? c) && (c <=? 57) then Some (c + 4)
  else if c =? 43 then Some 62 else if c =? 47 then Some 63 else None.

Definition b64_error : exn := ValueError "binascii.Error".

(** The strict decoder's loop: [quad] is the position in the current group,
    [left] its pending bits. *)
Fixpoint a2b (s : pystr) (quad pads : nat) (left : Z) (padding : bool) : result bytes :=
  match s with
  | [] => if (quad =? 0)%nat then Ok [] else Raise b64_error
  | c :: s =>
      if c =? 61 then
        if (2 <=? quad)%nat then
          if (4 <=? quad + S pads)%nat then
            match s with [] => Ok [] | _ => Raise b64_error end
          else a2b s quad (S pads) left true
        else a2b s quad pads left true
      else match b64_val c with
      | None => Raise b64_error
      | Some x =>
          if padding then Raise b64_error
          else match quad with
          | 0%nat => a2b s 1 0 x false
          | 1%nat => cons (z2b (left * 4 + x / 16)) <$> a2b s 2 0 (x mod 16) false
          | 2%nat => cons (z2b (left * 16 + x / 4)) <$> a2b s 3 0 (x mod 4) false
          | _ => cons (z2b (left * 64 + x)) <$> a2b s 0 0 0 false
          end
      end
  end.

Definition b64decode (s : pystr) : result bytes :=
  raise_if! negb (JsonCanon.ascii s) then ValueError "non-ASCII base64";
  raise_if! bool_decide (head s = Some 61) then b64_error;
  a2b s 0 0 0 false.

(** ** PCR reference *)

Record PcrReference := MkPcrReference { expected : bytes; ref_policy_id : pystr }.

Definition pcr_hex (v : value) : result bytes :=
  match v with
  | VStr s =>
      raise_if! negb (len s =? 64) || negb (forallb is_hex s) then ValueError "INVALID_PCR_POLICY";
      Ok (from_hex s)
  | _ => Raise (ValueError "INVALID_PCR_POLICY")
  end.

(** [PcrReference(path)], on the first [MAX_FRAME + 1] bytes of the file. *)
Definition load_reference (file : bytes) : result PcrReference :=
  v ← decode (take (Z.to_nat (MAX_FRAME + 1)) file);
  raise_if! negb (same_keys v [u "policy_version"; u "sha256"]) then ValueError "INVALID_PCR_POLICY";
  version ← d_item v (u "policy_version");
  raise_if! negb (py_eq version (VStr (u "pcr-reference/1"))) then ValueError "INVALID_PCR_POLICY";
  bank ← d_item v (u "sha256");
  match bank with
  | VDict bank =>
      raise_if! negb (same_keys bank [u "0"; u "7"]) then ValueError "INVALID_PCR_POLICY";
      e0 ← d_item bank (u "0"); p0 ← pcr_hex e0;
      e7 ← d_item bank (u "7"); p7 ← pcr_hex e7;
      Ok (MkPcrReference (p0 ++ p7) (u "pcr-reference-v1:" ++ sha256_hex (p0 ++ p7)))
  | _ => Raise (ValueError "INVALID_PCR_POLICY")
  end.

(** ** The verifier interface *)

(** What the challenge server asks of a verifier. *)
Class Verifier (V : Type) := {
  v_policy_id : V → pystr;
  v_pcr_selection : V → pystr;
  v_ak_sha256 : V → pystr;
  v_verify : V → dict → challenge → st world dict }.

(** What it relies on: verification takes time, and the passing verdict comes
    with all three validities. *)
Class VerifierLaws (V : Type) `{Verifier V} : Prop := {
  verify_time : ∀ (v : V) evidence c, time_passes (v_verify v evidence c);
  verify_keys : ∀ (v : V) evidence c w d w',
    v_verify v evidence c w = (Ok d, w') → NoDup (keys d);
  verify_pass : ∀ (v : V) evidence c w d w',
    v_verify v evidence c w = (Ok d, w') →
    d_get d (u "reason") = Some (VStr (u "SCOPED_POLICY_PASS")) →
    d_get d (u "cryptographic_validity") = Some (VStr (u "verified")) ∧
    d_get d (u "freshness_validity") = Some (VStr (u "verified")) ∧
    d_get d (u "policy_validity") = Some (VStr (u "passed")) }.

(** ** The quote verifier *)

(** The two programs it runs: for the n-th event and the files they are given,
    the exit status (and the standard output, of the inspector), or the
    exception of [subprocess.run]. *)
Class TpmTools := {
  inspect_quote : nat → bytes → result (Z * pystr);
  checkquote : nat → ∀ (ak quote signature pcrs : bytes) (selection qualification : pystr), result Z }.

Record QuoteVerifier := MkQuoteVerifier {
  pcr_selection : pystr;
  pcr_size : Z;
  selection_field : pystr;
  public_key : bytes;
  ak_sha256 : pystr;
  reference : option PcrReference;
  policy_id : pystr }.

(** [QuoteVerifier(public_key, inspector, pcr_policy, pcr_selection=...)], on the
    contents of the two files. *)
Definition new_quote_verifier (key : bytes) (pcr_policy : option bytes) (selection : pystr) :
    result QuoteVerifier :=
  raise_if! negb (bool_decide (selection ∈ [u "sha256:0,7"; u "sha256:10"]))
    then ValueError "PCR_SELECTION_UNSUPPORTED";
  raise_if! bool_decide (is_Some pcr_policy) && negb (bool_decide (selection = u "sha256:0,7"))
    then ValueError "PCR_POLICY_SELECTION";
  let size := if decide (selection = u "sha256:0,7") then 64 else 32 in
  raise_if! negb ((0 <? len key) && (len key <=? 8192)) then ValueError "AK_SIZE";
  reference ← match pcr_policy with
              | Some file => Some <$> load_reference file
              | None => Ok None
              end;
  Ok (MkQuoteVerifier selection size
        (if size =? 64 then u "pcr_selection_matches" else u "pcr10_selection_matches")
        key (sha256_hex key) reference
        (match reference with
         | Some r => ref_policy_id r
         | None => if size =? 64 then POLICY else u "pinned-ak-pcr10-quote-v1"
         end)).

Definition decode_field (evidence : dict) (field : pystr) (limit : Z) : result bytes :=
  v ← d_item evidence field;
  match v with
  | VStr s =>
      data ← b64decode s;
      raise_if! negb ((0 <? len data) && (len data <=? limit)) then ValueError "INVALID_PAYLOAD";
      Ok data
  | _ => Raise (ValueError "INVALID_PAYLOAD")
  end.

(** [json.loads] without hooks: the last of repeated keys stays. *)
Definition plain_hooks : hooks :=
  Hooks (λ items, Ok (VDict (d_update [] items))) (λ l, Ok (VFloat l)) (λ l, Ok (VFloat l)).

(** A float literal whose nearest double is zero. *)
Definition float_is_zero (l : pystr) : bool :=
  let '(int_part, r) := take_digits (match l with 45 :: l => l | _ => l end) in
  let '(frac, r) := scan_frac r in
  let '(exp, _) := scan_exp r in
  let mantissa := digits_value 0 (int_part ++ drop 1 frac) in
  let e := match exp with
           | _ :: 45 :: d => - digits_value 0 d
           | _ :: 43 :: d | _ :: d => digits_value 0 d
           | [] => 0
           end - len (drop 1 frac) in
  bool_decide (int_part ≠ []) &&
  ((mantissa =? 0) || ((e <? 0) && (mantissa * 2 ^ 1075 <=? 10 ^ (- e)))).

Definition truthy (v : value) : bool :=
  match v with
  | VNone => false
  | VBool x => x
  | VInt z => negb (z =? 0)
  | VFloat l => negb (float_is_zero l)
  | VStr s => bool_decide (s ≠ [])
  | VList l => (0 <? len l)
  | VDict d => (0 <? len d)
  end.

(** [secrets.compare_digest] of a decoded value and an ASCII string. *)
Definition compare_digest (v : value) (s : pystr) : result bool :=
  match v with
  | VStr t => raise_if! negb (JsonCanon.ascii t) then TypeError; Ok (bool_decide (t = s))
  | _ => Raise TypeError
  end.

(** [round(ns / 10^6)], halves to even. *)
Definition round_ms (ns : Z) : Z :=
  let q := ns / ns_per_ms in
  let r := ns mod ns_per_ms in
  if (2 * r <? ns_per_ms) || ((2 * r =? ns_per_ms) && Z.even q) then q else q + 1.

Definition status (s : string) : value := VStr (u s).

Definition malformed_quote : dict :=
  [(u "cryptographic_validity", status "failed"); (u "freshness_validity", status "not_verified");
   (u "policy_validity", status "not_evaluated"); (u "reason", status "MALFORMED_QUOTE")].

(** The verdict, once both tools have run. *)
Definition judge (r : option PcrReference) (crypto fresh selection reference_matches : bool)
    (ms : Z) : dict :=
  let policy := selection && reference_matches in
  let reference_validity :=
    match r with
    | None => "not_configured"
    | Some _ => if negb (crypto && fresh && selection) then "not_evaluated"
                else if reference_matches then "matched" else "mismatch"
    end%string in
  let reason :=
    (if negb crypto then "SIGNATURE_OR_PCR_DIGEST_INVALID"
     else if negb fresh then "NONCE_MISMATCH"
     else if negb selection then "PCR_SELECTION_MISMATCH"
     else if negb reference_matches then "PCR_REFERENCE_MISMATCH"
     else "SCOPED_POLICY_PASS")%string in
  [(u "cryptographic_validity", status (if crypto then "verified" else "failed"));
   (u "freshness_validity",
     status (if crypto && fresh then "verified" else if crypto then "failed" else "not_verified"));
   (u "policy_validity",
     status (if crypto && fresh && policy then "passed"
             else if crypto && fresh then "failed" else "not_evaluated"));
   (u "reason", status reason);
   (u "pcr_reference_validity", status reference_validity);
   (u "quote_verification_ms", VInt ms)].

Section verifier.
Context `{Env} `{TpmTools}.

Definition quote_verify (self : QuoteVerifier) (evidence : dict) (c : challenge) : st world dict :=
  started ← clock;
  quote ← lift (decode_field evidence (u "quote") 4096);
  signature ← lift (decode_field evidence (u "signature") 1024);
  pcrs ← lift (decode_field evidence (u "pcrs") (pcr_size self));
  _ ← raise_when (negb (len pcrs =? pcr_size self)) (ValueError "PCR_SIZE");
  n ← event;
  inspected ← lift (inspect_quote n quote);
  if negb (inspected.1 =? 0) then mret malformed_quote else
  structure ← lift (loads plain_hooks inspected.2);
  m ← event;
  q ← lift (v_item structure (u "qualification"));
  result ← lift (match q with
                 | VStr s => checkquote m (public_key self) quote signature pcrs (pcr_selection self) s
                 | _ => Raise TypeError
                 end);
  let crypto := result =? 0 in
  expected_q ← lift (qualification c);
  fresh ← lift (compare_digest q expected_q);
  selection ← lift (v_item structure (selection_field self));
  let reference_matches :=
    match reference self with None => true | Some r => bool_decide (pcrs = expected r) end in
  finished ← clock;
  mret (judge (reference self) crypto fresh (truthy selection) reference_matches
          (round_ms (finished - started))).

#[export] Instance quote_verifier : Verifier QuoteVerifier := {|
  v_policy_id := policy_id;
  v_pcr_selection := pcr_selection;
  v_ak_sha256 := ak_sha256;
  v_verify := quote_verify |}.
End verifier.

(** ** The challenge server *)

Record session := Session {
  owner : pystr;
  s_challenge : challenge;
  s_deadline : Z;
  used : bool }.

Record AttestationServer (V : Type) := Server {
  srv_policy_id : pystr;
  srv_verifier : V;
  ttl_ms : Z;
  maximum : Z;
  sessions : gmap pystr session }.
Arguments Server {V}.
Arguments srv_policy_id {V}.
Arguments srv_verifier {V}.
Arguments ttl_ms {V}.
Arguments maximum {V}.
Arguments sessions {V}.

Definition set_sessions {V : Type} (m : gmap pystr session) (s : AttestationServer V) : AttestationServer V :=
  Server (srv_policy_id s) (srv_verifier s) (ttl_ms s) (maximum s) m.

Definition map_size {A : Type} (m : gmap pystr A) : Z := Z.of_nat (size m).

Section server.
Context `{Env} {V : Type} `{Verifier V}.

Definition new_server (verifier : V) (ttl maximum : Z) : result (AttestationServer V) :=
  raise_if! negb ((1 <=? ttl) && (ttl <=? 60000)) then ValueError "TTL_RANGE";
  Ok (Server (v_policy_id verifier) verifier ttl maximum ∅).

(** [sid] drawn again while it is in use, [n] tests at most. *)
Fixpoint fresh_sid (n : nat) (live : gmap pystr session) (sid : pystr) : st world pystr :=
  match n with
  | O => raise (ValueError "ENTROPY_COLLISION")
  | S n =>
      match live !! sid with
      | None => mret sid
      | Some _ => sid ← token_hex 16; fresh_sid n live sid
      end
  end.

(** [_issue(owner)], under the lock. *)
Definition issue (who : pystr) : st (world * AttestationServer V) challenge :=
  now ← on_world clock;
  _ ← modify (λ '(w, s), (w, set_sessions
        (filter (λ x, now < s_deadline x.2 + 60 * ns_per_s) (sessions s)) s));
  self ← gets snd;
  _ ← raise_when (maximum self <=? map_size (sessions self)) (ValueError "SESSION_LIMIT");
  sid0 ← on_world (token_hex 16);
  sid ← on_world (fresh_sid 4 (sessions self) sid0);
  created ← on_world wall_ms;
  nonce ← on_world (token_hex 32);
  let c := Challenge sid nonce created (created + ttl_ms self) (srv_policy_id self)
             (v_pcr_selection (srv_verifier self)) (v_ak_sha256 (srv_verifier self)) in
  _ ← modify (λ '(w, s), (w, set_sessions
        (<[sid := Session who c (now + ttl_ms self * ns_per_ms) false]> (sessions s)) s));
  mret c.

Definition submit_fields : list pystr :=
  [u "protocol_version"; u "session_id"; u "quote"; u "signature"; u "pcrs"].

Definition base_reply (self : AttestationServer V) (sid : pystr) : dict :=
  [(u "protocol_version", VStr PROTOCOL); (u "session_id", VStr sid);
   (u "decision", status "DENY"); (u "cryptographic_validity", status "not_verified");
   (u "freshness_validity", status "failed"); (u "policy_validity", status "not_evaluated");
   (u "tpm_identity_validity", status "not_proven");
   (u "enrollment", status "operator_pinned_ak_lab");
   (u "policy_id", VStr (srv_policy_id self));
   (u "pcr_reference_validity",
     status (if decide (srv_policy_id self = POLICY) then "not_configured" else "not_evaluated"))].

Definition with_reasons (d : dict) (reason : value) : dict :=
  d_set d (u "reasons") (VList [reason]).

(** The part of [submit] before the verification: a final reply, or the session
    the evidence is for, its one attempt taken. *)
Definition submit_begin (who : pystr) (message : dict) :
    st (world * AttestationServer V) (dict + dict * session) :=
  _ ← raise_when (negb (same_keys message submit_fields)) (ValueError "INVALID_SCHEMA");
  version ← lift (d_item message (u "protocol_version"));
  _ ← raise_when (negb (py_eq version (VStr PROTOCOL))) (ValueError "INVALID_SCHEMA");
  v ← lift (d_item message (u "session_id"));
  match v with
  | VStr sid =>
      _ ← raise_when (negb (len sid =? 32)) (ValueError "INVALID_SESSION");
      self ← gets snd;
      let base := base_reply self sid in
      match sessions self !! sid with
      | None => mret (inl (with_reasons base (status "UNKNOWN_SESSION")))
      | Some session =>
          if negb (bool_decide (who = owner session)) then
            mret (inl (with_reasons base (status "UNKNOWN_SESSION")))
          else if used session then
            mret (inl (with_reasons base (status "CHALLENGE_REUSED")))
          else
            now ← on_world clock;
            if s_deadline session <=? now then
              mret (inl (with_reasons base (status "CHALLENGE_EXPIRED")))
            else
              let session' := Session (owner session) (s_challenge session) (s_deadline session) true in
              _ ← modify (λ '(w, s), (w, set_sessions (<[sid := session']> (sessions s)) s));
              mret (inr (base, session'))
      end
  | _ => raise (ValueError "INVALID_SESSION")
  end.

(** The verification and the reply, outside the lock. *)
Definition submit_finish (verifier : V) (message base : dict) (session : session) : st world dict :=
  λ w,
  match v_verify verifier message (s_challenge session) w with
  | (Raise e, w1) =>
      if is_ValueError e then (Ok (with_reasons base (status "INVALID_PAYLOAD")), w1)
      else if is_OSError e || bool_decide (e = SubprocessError) then
        (Ok (with_reasons (d_set base (u "decision") (status "INDETERMINATE"))
                          (status "VERIFIER_ERROR")), w1)
      else (Raise e, w1)
  | (Ok result, w1) =>
      ('(reason, result) ← lift (d_pop result (u "reason"));
       let base := d_update base result in
       now ← clock;
       let '(base, reason) :=
         if s_deadline session <=? now then
           (d_set (d_set base (u "freshness_validity") (status "failed"))
                  (u "policy_validity") (status "not_evaluated"), status "CHALLENGE_EXPIRED")
         else (base, reason) in
       mret (d_set (with_reasons base reason) (u "decision")
               (status (if py_eq reason (status "SCOPED_POLICY_PASS") then "ALLOW" else "DENY")))) w1
  end.

Definition submit (who : pystr) (message : dict) : st (world * AttestationServer V) dict :=
  start ← submit_begin who message;
  match start with
  | inl reply => mret reply
  | inr (base, session) =>
      self ← gets snd;
      on_world (submit_finish (srv_verifier self) message base session)
  end.
End server.

(** ** The connection handler *)

Definition session_request : value :=
  VDict [(u "protocol_version", VStr PROTOCOL); (u "message_type", status "session")].

(** The exceptions a connection handler swallows. *)
Definition connection_error (e : exn) : bool :=
  is_OSError e || is_ValueError e || bool_decide (e = IncompleteReadError).

Definition swallow {S} (m : st S unit) : st S unit :=
  try_except m (λ e, if connection_error e then Some (mret tt) else None).

Section handler.
Context `{Env} `{Peer} {V : Type} `{Verifier V} `{Interference (AttestationServer V)}.

Definition send (d : dict) : st (conn (AttestationServer V)) unit :=
  frame ← lift (encode d); _ ← write frame; drain.

(** The [try] block of [handle]; [submit] runs in a thread of its own, and its
    verification is outside the lock. *)
Definition handle_body : st (conn (AttestationServer V)) unit :=
  let owner := sha256_hex certificate in
  request ← await_read (receive (4 * ns_per_s));
  _ ← raise_when (negb (py_eq (VDict request) session_request)) (ValueError "INVALID_SCHEMA");
  c ← shared (issue owner);
  _ ← send (challenge_dict c);
  self ← gets c_obj;
  evidence ← await_read (receive (ttl_ms self * ns_per_ms + 1 * ns_per_s));
  start ← shared (submit_begin owner evidence);
  reply ← match start with
          | inl reply => mret reply
          | inr (base, session) =>
              _ ← resumed;
              self ← gets c_obj;
              shared (on_world (submit_finish (srv_verifier self) evidence base session))
          end;
  send reply.

(** [handle(reader, writer)] when [tasks] handlers are already running. *)
Definition handle (tasks : Z) : st (conn (AttestationServer V)) unit :=
  if 4 <=? tasks then mret tt else swallow handle_body.
End handler.

End Attestation.
