(* ===== verification/AttestationFacts.v ===== *)
(** * Properties of the attestation codec and of the quote verifier *)

From S2P Require Import Prelude Bytes Sha256 Json JsonFacts JsonCanon JsonScan Stream Env Dict.
From S2P Require Import Connection Attestation.
Import Json Stream Attestation.

(** ** The codec *)

Lemma no_duplicates_pairs items acc v :
  no_duplicates acc items = Ok v → NoDup (keys acc) →
  v = VDict (acc ++ items) ∧ NoDup (keys (acc ++ items)).
Proof.
  revert acc v. induction items as [|[k x] items IH]; intros acc v H Hacc; cbn in H.
  - injection H as <-. by rewrite app_nil_r.
  - py_inv. bools. apply IH in H as [-> Hn].
    + by rewrite <-app_assoc in *.
    + unfold keys. rewrite fmap_app. apply NoDup_app. split_and!; [done| |apply NoDup_singleton].
      intros k' Hk ->%list_elem_of_singleton. done.
Qed.

Lemma no_duplicates_unique items acc :
  NoDup (keys (acc ++ items)) → no_duplicates acc items = Ok (VDict (acc ++ items)).
Proof.
  revert acc. induction items as [|[k v] items IH]; intros acc Hn; cbn.
  - by rewrite app_nil_r.
  - rewrite bool_decide_eq_false_2; cbn.
    + rewrite IH; rewrite <-app_assoc; done.
    + unfold keys in *. rewrite fmap_app in Hn. apply NoDup_app in Hn as (_ & Hn & _).
      intros Hk. apply (Hn k Hk). apply list_elem_of_here.
Qed.

(** What a decoded message satisfies. *)
Definition clean (v : value) : Prop := unique_keys v = true ∧ no_float v = true.

Lemma loads_clean s v : loads decode_hooks s = Ok v → clean v.
Proof.
  apply (loads_P decode_hooks clean); try done.
  - intros l Hl. apply Forall_and in Hl as [H1 H2]. split; by apply forallb_Forall.
  - intros d x Hd Hp. apply no_duplicates_pairs in Hp as [-> Hn]; [|constructor].
    apply Forall_and in Hd as [H1 H2].
    split; cbn [app unique_keys no_float] in *.
    + rewrite bool_decide_eq_true_2 by done. apply forallb_Forall.
      eapply Forall_impl; [exact H1|]. by intros [].
    + apply forallb_Forall. eapply Forall_impl; [exact H2|]. by intros [].
Qed.

Lemma decode_Ok raw d :
  decode raw = Ok d ↔
  0 < len raw <= MAX_FRAME ∧ validate (VDict d) 0 = Ok tt ∧
  ∃ s, utf8_decode raw = Ok s ∧ loads decode_hooks s = Ok (VDict d).
Proof.
  unfold decode. split.
  - intros H. py_inv. bools. repeat case_match; py_inv.
    split_and!; try lia; [by match goal with x : unit |- _ => destruct x end|eauto].
  - intros (Hl & Hv & s & Hs & Hd).
    assert ((0 <? len raw) && (len raw <=? MAX_FRAME) = true) as ->.
    { apply andb_true_iff; split; [apply Z.ltb_lt|apply Z.leb_le]; lia. }
    rewrite Hs. cbn [negb raise_if mbind result_bind]. rewrite Hd. cbn [mbind result_bind].
    by rewrite Hv.
Qed.

(** [receive] returns a message only if the stream starts with a four-byte
    length between 1 and 16384 and that many bytes of UTF-8 JSON, an object
    without repeated keys or floats at any level; all of it came within the
    timeout, counted once from the start. *)
Theorem receive_sound timeout r d r' :
  receive timeout r = (Ok d, r') →
  ∃ raw, (pending r).*2 = be_encode 4 (len raw) ++ raw ++ (pending r').*2 ∧
    0 < len raw <= MAX_FRAME ∧ decode raw = Ok d ∧
    unique_keys (VDict d) = true ∧ no_float (VDict d) = true ∧
    now r <= now r' < now r + timeout.
Proof.
  unfold receive. intros H. py_inv.
  match goal with
  | H1 : readexactly 4 _ _ = (Ok ?h, ?s1), H2 : readexactly (Z.to_nat ?sz) _ _ = (Ok ?raw, ?s2) |- _ =>
      apply readexactly_Ok in H1 as (L1 & T1 & P1 & _ & _);
      apply readexactly_Ok in H2 as (L2 & T2 & P2 & _ & _);
      exists raw; pose proof (be_decode_bound h) as B;
      assert (L3 : len raw = be_decode h) by (unfold len; rewrite L2; lia);
      assert (L4 : be_encode 4 (len raw) = h) by (rewrite L3, <-L1; apply be_encode_decode)
  end.
  match goal with H : decode _ = _ |- _ => pose proof H as Hd; apply decode_Ok in H as (? & ? & s & _ & Hl) end.
  apply loads_clean in Hl as [? ?]. rewrite L4. split_and!; try done; try lia.
  by rewrite P1, P2.
Qed.

Lemma encode_Ok d wire :
  encode d = Ok wire ↔
  0 < len (dumps (VDict d)) <= MAX_FRAME ∧
  wire = be_encode 4 (len (dumps (VDict d))) ++ ascii_bytes (dumps (VDict d)).
Proof.
  unfold encode. rewrite len_ascii_bytes. generalize (dumps (VDict d)) as text. intros text.
  destruct ((0 <? _) && _) eqn:E; cbn.
  - bools. split; [intros [= <-]; auto with lia|by intros [_ ->]].
  - split; [done|]. intros [? _]. apply andb_false_iff in E as [?|?]; bools; lia.
Qed.

(** Every message [encode] sends that the receiver's schema limits admit
    (at most four levels below the root) is received back exactly, key order
    included, and nothing after it is consumed. *)
Theorem encode_receive_roundtrip d wire timeout rest e t :
  encode d = Ok wire → wf (VDict d) = true → validate (VDict d) 0 = Ok tt →
  (nesting (VDict d) ≤ recursion_limit)%nat → 0 < timeout →
  receive timeout (Reader (buffered wire t ++ rest) e t) = (Ok d, Reader rest e t).
Proof.
  intros ([Hl0 Hl] & ->)%encode_Ok Hw Hv Hn Ht.
  set (raw := ascii_bytes (dumps (VDict d))).
  assert (Hraw : len raw = len (dumps (VDict d))) by apply len_ascii_bytes.
  rewrite buffered_app, <-app_assoc.
  unfold receive, gets, mbind, st_bind. cbn [now].
  rewrite (readexactly_app 4 (be_encode 4 (len (dumps (VDict d))))) by (apply length_be_encode || lia).
  rewrite be_decode_encode, Z.mod_small by (change (256 ^ Z.of_nat 4) with 4294967296; unfold MAX_FRAME in Hl; lia).
  unfold raise_when, lift, raise_if.
  assert ((0 <? len (dumps (VDict d))) && (len (dumps (VDict d)) <=? MAX_FRAME) = true) as ->.
  { apply andb_true_iff; split; [apply Z.ltb_lt|apply Z.leb_le]; lia. }
  cbn [negb]. rewrite <-Hraw, readexactly_app by (unfold len; lia || lia).
  f_equal. apply decode_Ok. rewrite Hraw. split_and!; [done|done|done|].
  exists (dumps (VDict d)). split; [by apply utf8_decode_ascii, ascii_dumps|].
  apply loads_dumps; [|done|done].
  intros d' Hd'. by apply (no_duplicates_unique d' []).
Qed.

(** ** Challenges *)

(** The shape [issue] gives every challenge. *)
Record challenge_wf (c : challenge) : Prop := {
  cw_sid : len (session_id c) = 32 ∧ forallb is_hex (session_id c) = true;
  cw_nonce : len (nonce c) = 64 ∧ forallb is_hex (nonce c) = true;
  cw_ak : len (c_ak_sha256 c) = 64 ∧ forallb is_hex (c_ak_sha256 c) = true }.

Lemma length_from_hex n s : length s = (2 * n)%nat → length (from_hex s) = n.
Proof.
  revert s. induction n as [|n IH]; intros s Hs.
  - by destruct s.
  - destruct s as [|h [|l s]]; cbn in *; try lia. f_equal. apply IH. lia.
Qed.

Lemma hex_field_eq n s t (r1 r2 : bytes) :
  len s = 2 * Z.of_nat n ∧ forallb is_hex s = true →
  len t = 2 * Z.of_nat n ∧ forallb is_hex t = true →
  from_hex s ++ r1 = from_hex t ++ r2 → s = t ∧ r1 = r2.
Proof.
  unfold len. intros [L1 H1] [L2 H2] H.
  apply app_inj_1 in H as [Hh ->]; [|rewrite !(length_from_hex n); lia].
  split; [|done]. apply from_hex_inj; try done; [lia|]. exists n. lia.
Qed.

Lemma u64_field_eq x y (r1 r2 : bytes) :
  fits_u64 x = true → fits_u64 y = true →
  be_encode 8 x ++ r1 = be_encode 8 y ++ r2 → x = y ∧ r1 = r2.
Proof.
  unfold fits_u64. intros Hx Hy H. bools.
  apply app_inj_1 in H as [He ->]; [|by rewrite !length_be_encode].
  split; [|done]. apply (be_encode_inj 8); [| |done];
    change (256 ^ Z.of_nat 8) with (2 ^ 64); lia.
Qed.

Lemma z2b_ascii_inj s t :
  JsonCanon.ascii s = true → JsonCanon.ascii t = true → z2b <$> s = z2b <$> t → s = t.
Proof. apply ascii_bytes_inj. Qed.

(** The fields are read back from the binary input, the policy up to its hash. *)
Lemma qualification_data_inj c1 c2 :
  challenge_wf c1 → challenge_wf c2 →
  fits_u64 (created_at c1) && fits_u64 (expires_at c1) = true →
  fits_u64 (created_at c2) && fits_u64 (expires_at c2) = true →
  qualification_data c1 = qualification_data c2 →
  session_id c1 = session_id c2 ∧ nonce c1 = nonce c2 ∧ created_at c1 = created_at c2 ∧
  expires_at c1 = expires_at c2 ∧ c_ak_sha256 c1 = c_ak_sha256 c2 ∧
  sha256 (z2b <$> c_policy_id c1) = sha256 (z2b <$> c_policy_id c2).
Proof.
  intros [S1 N1 A1] [S2 N2 A2] F1 F2 H. bools. unfold qualification_data in H.
  apply app_inv_head in H. apply app_inv_head in H.
  apply (hex_field_eq 16) in H as [-> H]; [|done..].
  apply (hex_field_eq 32) in H as [-> H]; [|done..].
  apply u64_field_eq in H as [-> H]; [|done..].
  apply u64_field_eq in H as [-> H]; [|done..].
  apply app_inj_1 in H as [-> H]; [|by rewrite !length_sha256].
  rewrite <-(app_nil_r (from_hex _)), <-(app_nil_r (from_hex (c_ak_sha256 c2))) in H.
  by apply (hex_field_eq 32) in H as [-> _].
Qed.

Lemma sha256_hex_eq x y : sha256_hex x = sha256_hex y → sha256 x = sha256 y.
Proof.
  unfold sha256_hex. intros H. apply (f_equal from_hex) in H. by rewrite !from_hex_hex_of in H.
Qed.

Lemma qualification_Ok c q :
  qualification c = Ok q →
  fits_u64 (created_at c) && fits_u64 (expires_at c) = true ∧
  JsonCanon.ascii (c_policy_id c) = true ∧ q = sha256_hex (qualification_data c).
Proof.
  unfold qualification. intros H. py_inv.
  by repeat match goal with H : negb _ = false |- _ => apply negb_false_iff in H end.
Qed.

(** The qualification a quote must carry binds the whole challenge: two
    challenges with the same qualification have the same session, nonce, dates,
    policy and key, or exhibit a SHA-256 collision, on their binary inputs or
    on their policy names. *)
Theorem qualification_binds c1 c2 q :
  challenge_wf c1 → challenge_wf c2 →
  qualification c1 = Ok q → qualification c2 = Ok q →
  (session_id c1 = session_id c2 ∧ nonce c1 = nonce c2 ∧ created_at c1 = created_at c2 ∧
   expires_at c1 = expires_at c2 ∧ c_ak_sha256 c1 = c_ak_sha256 c2 ∧
   c_policy_id c1 = c_policy_id c2) ∨
  (qualification_data c1 ≠ qualification_data c2 ∧
   sha256 (qualification_data c1) = sha256 (qualification_data c2)) ∨
  (c_policy_id c1 ≠ c_policy_id c2 ∧
   sha256 (z2b <$> c_policy_id c1) = sha256 (z2b <$> c_policy_id c2)).
Proof.
  intros W1 W2 (F1 & A1 & Q1)%qualification_Ok (F2 & A2 & Q2)%qualification_Ok.
  rewrite Q1 in Q2. apply sha256_hex_eq in Q2.
  destruct (decide (qualification_data c1 = qualification_data c2)) as [E|]; [|by right; left].
  destruct (qualification_data_inj _ _ W1 W2 F1 F2 E) as (? & ? & ? & ? & ? & Hp).
  destruct (decide (c_policy_id c1 = c_policy_id c2)); [by left|by right; right].
Qed.

Definition sample_challenge : challenge :=
  Challenge (replicate 32 97) (replicate 64 98) 1700000000000 1700000010000 POLICY
    (u "sha256:0,7") (replicate 64 99).

Lemma qualification_binds_witness : ∃ q,
  qualification sample_challenge = Ok q ∧
  ((session_id sample_challenge = session_id sample_challenge ∧
    nonce sample_challenge = nonce sample_challenge ∧
    created_at sample_challenge = created_at sample_challenge ∧
    expires_at sample_challenge = expires_at sample_challenge ∧
    c_ak_sha256 sample_challenge = c_ak_sha256 sample_challenge ∧
    c_policy_id sample_challenge = c_policy_id sample_challenge) ∨
   (qualification_data sample_challenge ≠ qualification_data sample_challenge ∧
    sha256 (qualification_data sample_challenge) = sha256 (qualification_data sample_challenge)) ∨
   (c_policy_id sample_challenge ≠ c_policy_id sample_challenge ∧
    sha256 (z2b <$> c_policy_id sample_challenge) = sha256 (z2b <$> c_policy_id sample_challenge))).
Proof.
  eexists. split; [vm_compute; reflexivity|].
  eapply (qualification_binds sample_challenge sample_challenge);
    [by split; vm_compute|by split; vm_compute|vm_compute; reflexivity..].
Defined.

(** ** The quote verifier *)

Lemma status_inj s t : status s = status t → u s = u t.
Proof. by intros [=]. Qed.

Lemma judge_pass r crypto fresh selection matches ms :
  d_get (judge r crypto fresh selection matches ms) (u "reason") = Some (status "SCOPED_POLICY_PASS") →
  crypto = true ∧ fresh = true ∧ selection = true ∧ matches = true.
Proof. destruct crypto, fresh, selection, matches; vm_compute; by try intros [=]. Qed.

Lemma judge_keys r crypto fresh selection matches ms :
  keys (judge r crypto fresh selection matches ms) =
  [u "cryptographic_validity"; u "freshness_validity"; u "policy_validity"; u "reason";
   u "pcr_reference_validity"; u "quote_verification_ms"].
Proof. done. Qed.

Lemma compare_digest_Ok t s x : compare_digest (VStr t) s = Ok x → x = bool_decide (t = s).
Proof. cbn. intros H. by py_inv. Qed.

Section verifier_facts.
Context `{Env} `{TpmTools}.

(** The runs of [verify] that return, taken apart. *)
Lemma quote_verify_Ok self evidence c w d w' :
  quote_verify self evidence c w = (Ok d, w') →
  ∃ quote signature pcrs n out,
    decode_field evidence (u "quote") 4096 = Ok quote ∧
    decode_field evidence (u "signature") 1024 = Ok signature ∧
    decode_field evidence (u "pcrs") (pcr_size self) = Ok pcrs ∧
    len pcrs = pcr_size self ∧ inspect_quote n quote = Ok out ∧
    (d = malformed_quote ∨
     ∃ structure q expected_q m exit selection ms,
       out.1 = 0 ∧ loads plain_hooks out.2 = Ok structure ∧
       v_item structure (u "qualification") = Ok (VStr q) ∧
       checkquote m (public_key self) quote signature pcrs (pcr_selection self) q = Ok exit ∧
       qualification c = Ok expected_q ∧
       v_item structure (selection_field self) = Ok selection ∧
       d = judge (reference self) (exit =? 0) (bool_decide (q = expected_q)) (truthy selection)
             (match reference self with None => true | Some r => bool_decide (pcrs = expected r) end) ms).
Proof.
  unfold quote_verify. intros Hv. py_inv. bools.
  match type of Hv with (if ?c then _ else _) _ = _ => destruct c eqn:Hexit end; py_inv.
  - do 5 eexists. split_and!; eauto.
  - bools. match goal with Hm : match ?q with _ => _ end = Ok _ |- _ => destruct q; try done end.
    match goal with Hc : compare_digest _ _ = Ok _ |- _ => apply compare_digest_Ok in Hc as -> end.
    do 5 eexists. split_and!; eauto. right.
    do 7 eexists. split_and!; eauto.
Qed.

#[export] Instance quote_verifier_laws : VerifierLaws QuoteVerifier.
Proof.
  split.
  - intros self evidence c. cbn [v_verify quote_verifier]. unfold quote_verify. time_tac.
  - intros self evidence c w d w' Hv. apply quote_verify_Ok in Hv
      as (quote & sg & pcrs & n & out & _ & _ & _ & _ & _ & [->|Hj]); [dec_now|].
    destruct Hj as (? & ? & ? & ? & ? & ? & ? & _ & _ & _ & _ & _ & _ & ->).
    rewrite judge_keys. dec_now.
  - intros self evidence c w d w' Hv Hr. apply quote_verify_Ok in Hv
      as (quote & sg & pcrs & n & out & _ & _ & _ & _ & _ & [->|Hj]); [done|].
    destruct Hj as (? & ? & ? & ? & ? & ? & ? & _ & _ & _ & _ & _ & _ & ->).
    apply judge_pass in Hr as (-> & -> & -> & ->). done.
Qed.

(** C29.  A passing quote: the inspector accepted its structure, which carries
    exactly this challenge's qualification and the required PCR selection; the
    signature check against the enrolled key (never one from the evidence)
    succeeded on the very bytes submitted; the PCR values have the exact size
    of the selection and, when the operator pinned reference values, equal
    them.  The verdict then says verified, verified, passed. *)
Theorem quote_pass_sound self evidence c w d w' :
  quote_verify self evidence c w = (Ok d, w') →
  d_get d (u "reason") = Some (status "SCOPED_POLICY_PASS") →
  (∃ quote signature pcrs n m out structure q selection,
    decode_field evidence (u "quote") 4096 = Ok quote ∧
    decode_field evidence (u "signature") 1024 = Ok signature ∧
    decode_field evidence (u "pcrs") (pcr_size self) = Ok pcrs ∧
    inspect_quote n quote = Ok (0, out) ∧ loads plain_hooks out = Ok structure ∧
    v_item structure (u "qualification") = Ok (VStr q) ∧ qualification c = Ok q ∧
    v_item structure (selection_field self) = Ok selection ∧ truthy selection = true ∧
    checkquote m (public_key self) quote signature pcrs (pcr_selection self) q = Ok 0 ∧
    len pcrs = pcr_size self ∧ (∀ r, reference self = Some r → pcrs = expected r)) ∧
  d_get d (u "cryptographic_validity") = Some (status "verified") ∧
  d_get d (u "freshness_validity") = Some (status "verified") ∧
  d_get d (u "policy_validity") = Some (status "passed").
Proof.
  intros Hv Hr. split; [|by eapply (verify_pass self evidence c w d w')].
  apply quote_verify_Ok in Hv
    as (quote & sg & pcrs & n & out & Dq & Ds & Dp & Lp & Hi & [->|Hj]); [done|].
  destruct Hj as (structure & q & eq & m & ex & sel & ms & He & Hl & Hq & Hc & HQ & Hs & ->).
  apply judge_pass in Hr as (Ex & Eq & Et & Em). bools. subst. destruct out as [? out].
  cbn in He. subst. exists quote, sg, pcrs, n, m, out, structure, eq, sel.
  split_and!; try done. intros r Hr. rewrite Hr in Em. by bools.
Qed.
End verifier_facts.
