(* ===== verification/AttestationServer.v ===== *)
(** * Properties of the challenge server

    One attempt per issued challenge, soundness of ALLOW, capacity, and what a
    connection handler can write; for every verifier that obeys
    [VerifierLaws]. *)

From S2P Require Import Prelude Bytes Sha256 Json JsonFacts JsonCanon JsonScan Stream Env Dict.
From S2P Require Import Connection Attestation AttestationFacts.
Import Json Stream Attestation.

(** ** More on dicts *)

Lemma NoDup_delete d k : NoDup (keys d) → NoDup (keys (d_delete d k)).
Proof.
  unfold d_delete. induction d as [|[k1 v1] d IH]; [done|]. intros [Hn Hd]%NoDup_cons.
  rewrite filter_cons. case_decide; [|auto]. apply NoDup_cons. split; [|auto].
  intros Hk. apply Hn. apply list_elem_of_fmap in Hk as ([k' v'] & -> & Hk).
  apply list_elem_of_filter in Hk as [_ Hk]. apply list_elem_of_fmap. by exists (k', v').
Qed.

Lemma map_size_filter {A} (P : pystr * A → Prop) `{∀ x, Decision (P x)} (m : gmap pystr A) :
  map_size (filter P m) <= map_size m.
Proof.
  unfold map_size. apply Nat2Z.inj_le, map_subseteq_size, map_filter_subseteq.
Qed.

Section server_facts.
Context `{Env} {V : Type} `{VerifierLaws V}.
Implicit Types s : AttestationServer V.

(** The sessions [_issue] keeps. *)
Definition live (t : Z) s : gmap pystr session :=
  filter (λ x, t < s_deadline x.2 + 60 * ns_per_s) (sessions s).

Lemma fresh_sid_spec n m sid w r w' :
  fresh_sid n m sid w = (r, w') →
  mono w' = mono w ∧
  ((∃ e, r = Raise (ValueError e)) ∨
   ∃ x, r = Ok x ∧ m !! x = None ∧
     (len sid = 32 ∧ forallb is_hex sid = true → len x = 32 ∧ forallb is_hex x = true)).
Proof.
  revert sid w. induction n as [|n IH]; intros sid w; cbn [fresh_sid].
  { intros [= <- <-]. split; [done|]. left. by eexists. }
  destruct (m !! sid) eqn:E.
  2:{ intros [= <- <-]. split; [done|]. right. by exists sid. }
  unfold mbind, st_bind. destruct (token_hex 16 w) as [r1 w1] eqn:E1.
  apply token_hex_spec in E1 as (Hm & x & -> & Hl & Hx).
  intros E2. apply IH in E2 as [-> Hr]. split; [done|].
  destruct Hr as [?|(y & -> & ? & Hy)]; [by left|right]. exists y. split_and!; auto.
Qed.

(** Every outcome of [_issue]. *)
Lemma issue_spec who w s r w' s' :
  issue who (w, s) = (r, (w', s')) →
  ∃ t, mono w <= t <= mono w' ∧ srv_policy_id s' = srv_policy_id s ∧
    srv_verifier s' = srv_verifier s ∧ ttl_ms s' = ttl_ms s ∧ maximum s' = maximum s ∧
    ((∃ e, r = Raise (ValueError e) ∧ sessions s' = live t s) ∨
     ∃ c, r = Ok c ∧ live t s !! session_id c = None ∧
       sessions s' = <[session_id c := Session who c (t + ttl_ms s * ns_per_ms) false]> (live t s) ∧
       map_size (live t s) < maximum s ∧
       (len (session_id c) = 32 ∧ forallb is_hex (session_id c) = true) ∧
       (len (nonce c) = 64 ∧ forallb is_hex (nonce c) = true) ∧
       c_ak_sha256 c = v_ak_sha256 (srv_verifier s) ∧ c_policy_id c = srv_policy_id s ∧
       expires_at c = created_at c + ttl_ms s).
Proof.
  unfold issue. intros Hi.
  apply st_bind_inv in Hi as (r1 & [w1 x1] & E & Hi). apply on_world_inv in E as [E ->].
  apply clock_spec in E as [-> Hclk]. set (t := mono w1) in *.
  apply st_bind_inv in Hi as (r1 & [w2 s2] & [= <- <- <-] & Hi). fold (live t s) in Hi.
  apply st_bind_inv in Hi as (r1 & [w2 s2] & [= <- <- <-] & Hi). cbn [snd] in Hi.
  unfold set_sessions in Hi. cbn [sessions srv_policy_id srv_verifier ttl_ms maximum] in Hi.
  apply st_bind_inv in Hi as (r1 & [w2 s2] & E & Hi).
  apply raise_when_spec in E as ([= -> ->] & [[Em ->]|[Em ->]]).
  2:{ destruct Hi as [-> [= -> ->]]. exists t. split_and!; try done; try lia. left. by eexists. }
  bools. apply st_bind_inv in Hi as (r1 & [w3 s3] & E & Hi). apply on_world_inv in E as [E ->].
  apply token_hex_spec in E as (Hm1 & sid0 & -> & Hl0 & Hx0).
  apply st_bind_inv in Hi as (r1 & [w4 s4] & E & Hi). apply on_world_inv in E as [E ->].
  apply fresh_sid_spec in E as (Hm2 & [[e ->]|(sid & -> & Hn & Hs)]).
  { destruct Hi as [-> [= -> ->]]. exists t. split_and!; try done; try lia. left. by eexists. }
  apply st_bind_inv in Hi as (r1 & [w5 s5] & E & Hi). apply on_world_inv in E as [E ->].
  injection E as <- <-.
  apply st_bind_inv in Hi as (r1 & [w6 s6] & E & Hi). apply on_world_inv in E as [E ->].
  apply token_hex_spec in E as (Hm4 & nn & -> & Hl4 & Hx4). cbn [mono] in Hm4.
  injection Hi as <- <- <-. exists t. split_and!; try done; try lia.
  right. eexists. split_and!; try done; try lia; cbn; by apply Hs.
Qed.

(** Every outcome of the first half of [submit]: a message or a session that is
    not right changes nothing; otherwise the attempt is taken. *)
Lemma submit_begin_spec who message w s r w' s' :
  submit_begin who message (w, s) = (r, (w', s')) →
  mono w <= mono w' ∧
  ((∃ e, r = Raise e ∧ s' = s ∧ mono w = mono w') ∨
   (∃ sid reason, r = Ok (inl (with_reasons (base_reply s sid) (status reason))) ∧ s' = s) ∨
   ∃ sid x, r = Ok (inr (base_reply s sid, Session who (s_challenge x) (s_deadline x) true)) ∧
     d_get message (u "session_id") = Some (VStr sid) ∧
     sessions s !! sid = Some x ∧ owner x = who ∧ used x = false ∧
     mono w' < s_deadline x ∧
     s' = set_sessions (<[sid := Session who (s_challenge x) (s_deadline x) true]> (sessions s)) s).
Proof.
  unfold submit_begin. intros Hi.
  assert (Hraise : ∀ e, r = Raise e ∧ (w', s') = (w, s) →
    mono w <= mono w' ∧ ∃ e, r = Raise e ∧ s' = s ∧ mono w = mono w').
  { intros e [-> [= -> ->]]. split; [done|]. by eexists. }
  apply st_bind_inv in Hi as (r1 & [w1 s1] & E & Hi).
  apply raise_when_spec in E as ([= -> ->] & [[Em ->]|[Em ->]]); [|naive_solver].
  apply st_bind_inv in Hi as ([version|e] & [w2 s2] & E & Hi);
    apply lift_inv in E as [_ [= -> ->]]; [|naive_solver].
  apply st_bind_inv in Hi as (r1 & [w2 s2] & E & Hi).
  apply raise_when_spec in E as ([= -> ->] & [[Em2 ->]|[Em2 ->]]); [|naive_solver].
  apply st_bind_inv in Hi as ([v|e] & [w2 s2] & E & Hi);
    apply lift_inv in E as [Ev [= -> ->]]; [|naive_solver].
  destruct v as [| | | |sid| |]; try (injection Hi as <- <- <-; naive_solver).
  apply st_bind_inv in Hi as (r1 & [w2 s2] & E & Hi).
  apply raise_when_spec in E as ([= -> ->] & [[Em3 ->]|[Em3 ->]]); [|naive_solver].
  clear Hraise. apply st_bind_inv in Hi as (r1 & [w2 s2] & [= <- <- <-] & Hi). cbn [snd] in Hi.
  destruct (sessions s !! sid) as [x|] eqn:Ex.
  2:{ injection Hi as <- <- <-. split; [done|]. right; left. by do 2 eexists. }
  destruct (bool_decide (who = owner x)) eqn:Eo; cbn [negb] in Hi; bools.
  2:{ injection Hi as <- <- <-. split; [done|]. right; left. by do 2 eexists. }
  destruct (used x) eqn:Eu.
  { injection Hi as <- <- <-. split; [done|]. right; left. by do 2 eexists. }
  apply st_bind_inv in Hi as (r1 & [w2 s2] & E & Hi). apply on_world_inv in E as [E ->].
  apply clock_spec in E as [-> Hclk].
  destruct (s_deadline x <=? mono w2) eqn:Et.
  { injection Hi as <- <- <-. split; [done|]. right; left. by do 2 eexists. }
  bools. injection Hi as <- <- <-. split; [done|]. right; right.
  exists sid, x. unfold d_item in Ev. case_match; simplify_eq. done.
Qed.
Definition decision (reply : dict) : option value := d_get reply (u "decision").
Definition base_decision (base : dict) : Prop := decision base = Some (status "DENY").

Lemma base_reply_deny s sid : base_decision (base_reply s sid).
Proof. done. Qed.

Lemma with_reasons_get d reason k :
  k ≠ u "reasons" → d_get (with_reasons d reason) k = d_get d k.
Proof. apply d_get_set_ne. Qed.

(** Every outcome of the second half of [submit]. *)
Lemma submit_finish_spec (v : V) message base x w r w' :
  submit_finish v message base x w = (r, w') → base_decision base →
  mono w <= mono w' ∧
  ((∃ e, r = Raise e) ∨
   (∃ reply, r = Ok reply ∧
      (decision reply = Some (status "DENY") ∨ decision reply = Some (status "INDETERMINATE"))) ∨
   ∃ reply, r = Ok reply ∧ decision reply = Some (status "ALLOW") ∧
     d_get reply (u "cryptographic_validity") = Some (status "verified") ∧
     d_get reply (u "freshness_validity") = Some (status "verified") ∧
     d_get reply (u "policy_validity") = Some (status "passed") ∧
     mono w' < s_deadline x ∧
     ∃ verdict w1, v_verify v message (s_challenge x) w = (Ok verdict, w1) ∧
       d_get verdict (u "reason") = Some (status "SCOPED_POLICY_PASS")).
Proof.
  unfold submit_finish. intros Hf Hb.
  destruct (v_verify v message (s_challenge x) w) as [[verdict|e] w1] eqn:Ev.
  2:{ assert (mono w <= mono w1) as Ht by (by eapply verify_time, Ev).
      destruct (is_ValueError e); [|destruct (_ || _)]; injection Hf as <- <-; split; try done.
      - right; left. eexists. split; [done|]. left. unfold decision.
        rewrite with_reasons_get by done. exact Hb.
      - right; left. eexists. split; [done|]. right. unfold decision.
        rewrite with_reasons_get by done. apply d_get_set_eq.
      - left. by eexists. }
  assert (mono w <= mono w1) as Ht by (by eapply verify_time, Ev).
  pose proof (verify_keys _ _ _ _ _ _ Ev) as Hk.
  apply st_bind_inv in Hf as ([[reason rest]|e] & w2 & E & Hf); apply lift_inv in E as [E ->].
  2:{ destruct Hf as [-> ->]. split; [done|]. left. by eexists. }
  unfold d_pop in E. py_inv.
  match goal with Hr : d_item _ _ = Ok _ |- _ => apply d_item_Ok in Hr; rename Hr into Hreason end.
  apply st_bind_inv in Hf as (r1 & w2 & E & Hf). apply clock_spec in E as [-> Hclk].
  destruct (s_deadline x <=? mono w2) eqn:Ed; injection Hf as <- <-; (split; [lia|]).
  - right; left. eexists. split; [done|]. left. apply d_get_set_eq.
  - bools. destruct (py_eq reason _) eqn:Er.
    2:{ right; left. eexists. split; [done|]. left. apply d_get_set_eq. }
    apply py_eq_str in Er as ->.
    assert (Hget : ∀ k v, k ≠ u "decision" → k ≠ u "reasons" → k ≠ u "reason" →
      d_get verdict k = Some v →
      d_get (d_set (with_reasons (d_update base (d_delete verdict (u "reason")))
               (status "SCOPED_POLICY_PASS")) (u "decision") (status "ALLOW")) k = Some v).
    { intros k y Hk1 Hk2 Hk3 Hy. rewrite d_get_set_ne, with_reasons_get by done.
      apply d_get_update_Some; [by apply NoDup_delete|].
      rewrite d_get_delete. by rewrite decide_False. }
    destruct (verify_pass _ _ _ _ _ _ Ev Hreason) as (Hc & Hf & Hp).
    right; right. eexists. split; [done|]. split; [apply d_get_set_eq|].
    split_and!; [by apply Hget..|lia|by do 2 eexists].
Qed.

(** C6.  [submit] answers ALLOW only for evidence sent by the owner of a known
    challenge, not yet used and not expired when the verification began nor
    when it ended, that the verifier found verified, fresh and within policy;
    the challenge is used up. *)
Theorem submit_allow_sound who message w s reply w' s' :
  submit who message (w, s) = (Ok reply, (w', s')) →
  decision reply = Some (status "ALLOW") →
  ∃ sid x, d_get message (u "session_id") = Some (VStr sid) ∧
    sessions s !! sid = Some x ∧ owner x = who ∧ used x = false ∧
    mono w <= mono w' < s_deadline x ∧
    sessions s' !! sid = Some (Session who (s_challenge x) (s_deadline x) true) ∧
    (∃ verdict w1 w2, v_verify (srv_verifier s) message (s_challenge x) w1 = (Ok verdict, w2) ∧
       d_get verdict (u "reason") = Some (status "SCOPED_POLICY_PASS")) ∧
    d_get reply (u "cryptographic_validity") = Some (status "verified") ∧
    d_get reply (u "freshness_validity") = Some (status "verified") ∧
    d_get reply (u "policy_validity") = Some (status "passed").
Proof.
  intros Hs Ha. unfold submit in Hs.
  apply st_bind_inv in Hs as (r1 & [w1 s1] & E & Hs).
  apply submit_begin_spec in E as (Ht & [(e & -> & _)|[(sid & reason & -> & ->)|
    (sid & x & -> & Hsid & Hx & Ho & Hu & Hd & ->)]]).
  { by destruct Hs. }
  { injection Hs as <- <- <-. done. }
  apply st_bind_inv in Hs as (r1 & [w2 s2] & [= <- <- <-] & Hs). cbn [snd] in Hs.
  apply on_world_inv in Hs as [Hs ->]. apply submit_finish_spec in Hs as (Ht2 & Hs); [|done].
  destruct Hs as [(e & ?)|[(y & [= <-] & [Hy|Hy])|(y & [= <-] & _ & Hc & Hf & Hp & Hl & verdict & w3 & Hv & Hr)]].
  { done. } { unfold decision in *. by simplify_eq. } { unfold decision in *. by simplify_eq. }
  exists sid, x. split_and!; try done; try lia; cbn in Hl |- *; try lia.
  - by rewrite lookup_insert_eq.
  - by exists verdict, w1, w3.
Qed.

(** *** Traces *)

(** The locked steps of any number of connections, in the order they happen:
    challenges issued, and attempts begun (the verifications they start touch
    no state of the server).  The log keeps who was issued which challenge,
    and whose attempt on which challenge went on to the verifier. *)
Definition attempt_log : Type := list (pystr * challenge) * list (pystr * challenge).

Definition server_step (op : pystr + pystr * dict) (x : (world * AttestationServer V) * attempt_log) :
    (world * AttestationServer V) * attempt_log :=
  let '(ws, (issued, taken)) := x in
  match op with
  | inl who =>
      match issue who ws with
      | (Ok c, ws) => (ws, (issued ++ [(who, c)], taken))
      | (Raise _, ws) => (ws, (issued, taken))
      end
  | inr (who, message) =>
      match submit_begin who message ws with
      | (Ok (inr (_, x)), ws) => (ws, (issued, taken ++ [(who, s_challenge x)]))
      | (_, ws) => (ws, (issued, taken))
      end
  end.

Definition server_run (ops : list (pystr + pystr * dict)) x := foldl (λ x op, server_step op x) x ops.

(** Challenges issued and not tried yet. *)
Definition open_attempts s : list (pystr * challenge) :=
  (λ y, (owner y.2, s_challenge y.2)) <$> map_to_list (filter (λ y, used y.2 = false) (sessions s)).

Record server_inv (x : (world * AttestationServer V) * attempt_log) : Prop := {
  si_taken : x.2.2 ++ open_attempts x.1.2 ⊆+ x.2.1;
  si_size : map_size (sessions x.1.2) <= maximum x.1.2 }.

Definition unused (m : gmap pystr session) : list (pystr * challenge) :=
  (λ y, (owner y.2, s_challenge y.2)) <$> map_to_list (filter (λ y, used y.2 = false) m).

Lemma unused_mono m1 m2 : m1 ⊆ m2 → unused m1 ⊆+ unused m2.
Proof.
  intros Hm. apply fmap_submseteq, map_to_list_submseteq. by apply map_filter_subseteq_mono.
Qed.

Lemma unused_insert m sid x :
  m !! sid = None → used x = false →
  unused (<[sid := x]> m) ≡ₚ (owner x, s_challenge x) :: unused m.
Proof.
  intros Hm Hx. unfold unused. rewrite map_filter_insert_True by done.
  rewrite map_to_list_insert; [done|]. apply map_lookup_filter_None. by left.
Qed.

Lemma unused_take m sid x y :
  m !! sid = Some x → used x = false → used y = true →
  unused m ≡ₚ (owner x, s_challenge x) :: unused (<[sid := y]> m).
Proof.
  intros Hm Hx Hy. rewrite <-(insert_delete_id m sid x Hm) at 1.
  rewrite unused_insert by (done || apply lookup_delete_eq).
  unfold unused at 2. rewrite map_filter_insert_False by (cbn; congruence). done.
Qed.

Lemma server_step_inv op x : server_inv x → server_inv (server_step op x).
Proof.
  destruct x as [[w s] [issued taken]]. intros [Ht Hs]. cbn in Ht, Hs.
  change (open_attempts s) with (unused (sessions s)) in Ht.
  destruct op as [who|[who message]]; cbn [server_step].
  - destruct (issue who (w, s)) as [r [w' s']] eqn:E.
    apply issue_spec in E as (t & _ & _ & _ & _ & Hm & Hr).
    assert (Hlive : unused (live t s) ⊆+ unused (sessions s)).
    { apply unused_mono, map_filter_subseteq. }
    pose proof (map_size_filter (λ x, t < s_deadline x.2 + 60 * ns_per_s) (sessions s)) as Hsz.
    fold (live t s) in Hsz.
    destruct Hr as [(e & -> & E)|(c & -> & Hn & E & Hlt & _)]; split; cbn;
      change (open_attempts s') with (unused (sessions s')); rewrite ?E, ?Hm.
    + etrans; [|exact Ht]. by apply submseteq_app.
    + lia.
    + rewrite unused_insert by done. cbn.
      rewrite <-Permutation_middle, (Permutation_app_comm issued). apply submseteq_skip.
      etrans; [|exact Ht]. by apply submseteq_app.
    + unfold map_size in *. rewrite map_size_insert_None by done. lia.
  - destruct (submit_begin who message (w, s)) as [r [w' s']] eqn:E.
    apply submit_begin_spec in E as (_ & [(e & -> & -> & _)|[(sid & reason & -> & ->)|
      (sid & x & -> & _ & Hx & Ho & Hu & _ & ->)]]); [by split..|].
    split; cbn [fst snd].
    + change (open_attempts _) with
        (unused (<[sid := Session who (s_challenge x) (s_deadline x) true]> (sessions s))).
      rewrite (unused_take _ sid x (Session who (s_challenge x) (s_deadline x) true)) in Ht by done.
      rewrite Ho in Ht. cbn. by rewrite <-app_assoc.
    + cbn. unfold map_size in *. by rewrite map_size_insert_Some by eauto.
Qed.
End server_facts.

(** C25.  Over any sequence of issues and attempts, by any owners and at any
    times, the attempts that reach the verifier are a sub-multiset of the
    challenges issued, each to its owner: no challenge is tried twice and none
    by another identity.  The sessions never exceed the maximum. *)
Theorem one_attempt `{Env} {V : Type} `{VerifierLaws V} (v : V) ttl maximum s ops w :
  new_server v ttl maximum = Ok s → 0 <= maximum →
  let x := server_run ops ((w, s), ([], [])) in
  x.2.2 ⊆+ x.2.1 ∧ map_size (sessions x.1.2) <= Attestation.maximum x.1.2.
Proof.
  intros Hs Hm x.
  assert (Hinv : server_inv x).
  { assert (Hgen : ∀ y, server_inv y → server_inv (server_run ops y)).
    { induction ops as [|op ops IH]; intros y Hy; [done|]. apply IH. by apply server_step_inv. }
    apply Hgen. unfold new_server in Hs. py_inv. split; cbn; [|done].
    unfold open_attempts. cbn. by rewrite map_filter_empty, map_to_list_empty. }
  destruct Hinv as [Ht Hsz]. split; [|done].
  transitivity (x.2.2 ++ open_attempts x.1.2); [|done]. by apply submseteq_inserts_r.
Qed.
