(* ===== verification/ImaQuote.v ===== *)
(** * IMA log replay bound to a quote ([src/scripts/ima_quote_verifier.py])

    [ImaQuoteVerifier] extends the quote verifier: a passing PCR10 quote must
    also equal the replay of the local IMA log.  The replay program is a
    parameter; this verifier too obeys the [Verifier] interface. *)

From S2P Require Import Prelude Bytes Sha256 Json JsonFacts JsonCanon Stream Env Dict.
From S2P Require Import Connection Attestation AttestationFacts.
Import Json Attestation.

Module ImaQuote.

(** The replay program, on the log it is configured with: exit status and
    standard output at the n-th event, or the exception of [subprocess.run]. *)
Class Replayer := { replay_log : nat → result (Z * pystr) }.

Record ImaQuoteVerifier := Ima { quote : QuoteVerifier }.

Definition ima_policy : pystr := u "pinned-ak-ima-chain-v1".

(** [ImaQuoteVerifier(public_key, inspector, replayer, log_path)] *)
Definition new_ima_verifier (key : bytes) : result ImaQuoteVerifier :=
  q ← new_quote_verifier key None (u "sha256:10");
  Ok (Ima (MkQuoteVerifier (pcr_selection q) (pcr_size q) (selection_field q) (public_key q)
             (ak_sha256 q) (reference q) ima_policy)).

Definition not_evaluated : dict :=
  [(u "ima_validity", status "not_evaluated");
   (u "measurement_policy_validity", status "not_evaluated")].

(** The replay failures that say nothing about the log itself. *)
Definition unavailable : list pystr :=
  [u "OPEN_ERROR"; u "READ_ERROR"; u "CLOCK_ERROR"; u "TIME_LIMIT"; u "CLOSE_ERROR"].

Definition is_unavailable (v : option value) : bool :=
  match v with Some v => existsb (λ s, py_eq v (VStr s)) unavailable | None => false end.

Section ima.
Context `{Env} `{TpmTools} `{Replayer}.

Definition ima_verify (self : ImaQuoteVerifier) (evidence : dict) (c : challenge) : st world dict :=
  result ← quote_verify (quote self) evidence c;
  let result := d_update result not_evaluated in
  reason ← lift (d_item result (u "reason"));
  if negb (py_eq reason (status "SCOPED_POLICY_PASS")) then mret result else
  n ← event;
  replay ← lift (replay_log n);
  _ ← raise_when (negb (bool_decide (replay.1 ∈ [0; 1]))) (OSError "IMA_REPLAYER_FAILED");
  value ← lift (loads plain_hooks replay.2);
  if negb (replay.1 =? 0) then
    why ← lift (v_get value (u "reason"));
    _ ← raise_when (is_unavailable why) (OSError "IMA_LOG_UNAVAILABLE");
    mret (d_update result [(u "reason", status "IMA_LOG_INVALID");
            (u "policy_validity", status "failed"); (u "ima_validity", status "invalid")])
  else
  parsed ← lift (v_get value (u "parsed"));
  replayed ← lift (v_get value (u "replayed_pcr_sha256"));
  match parsed, replayed with
  | Some (VBool true), Some (VStr replayed) =>
      pcrs ← lift (d_item evidence (u "pcrs"));
      signed ← lift (match pcrs with VStr s => b64decode s | _ => Raise TypeError end);
      same ← lift (compare_digest (VStr replayed) (hex_of signed));
      if negb same then
        mret (d_update result [(u "reason", status "IMA_LOG_REPLAY_MISMATCH");
                (u "policy_validity", status "failed"); (u "ima_validity", status "mismatch")])
      else
        records ← lift (v_item value (u "records"));
        mret (d_update result [(u "ima_validity", status "quote_bound");
                (u "ima_records", records)])
  | _, _ => raise (OSError "IMA_REPLAYER_RESULT_INVALID")
  end.

#[export] Instance ima_verifier : Verifier ImaQuoteVerifier := {|
  v_policy_id := λ v, policy_id (quote v);
  v_pcr_selection := λ v, pcr_selection (quote v);
  v_ak_sha256 := λ v, ak_sha256 (quote v);
  v_verify := ima_verify |}.

Lemma NoDup_update d e : NoDup (keys d) → NoDup (keys (d_update d e)).
Proof. unfold d_update. revert d. induction e; intros d Hd; [done|]. apply IHe. by apply NoDup_set. Qed.

(** The runs of [verify] that return, taken apart. *)
Lemma ima_verify_Ok self evidence c w d w' :
  ima_verify self evidence c w = (Ok d, w') →
  ∃ base w1 tail, quote_verify (quote self) evidence c w = (Ok base, w1) ∧
    d = d_update (d_update base not_evaluated) tail ∧
    ((tail = [] ∧ d_get d (u "reason") ≠ Some (status "SCOPED_POLICY_PASS")) ∨
     (d_get d (u "reason") = Some (status "IMA_LOG_INVALID")) ∨
     (d_get d (u "reason") = Some (status "IMA_LOG_REPLAY_MISMATCH")) ∨
     ∃ records n out value s signed,
       tail = [(u "ima_validity", status "quote_bound"); (u "ima_records", records)] ∧
       replay_log n = Ok (0, out) ∧ loads plain_hooks out = Ok value ∧
       v_get value (u "parsed") = Ok (Some (VBool true)) ∧
       v_get value (u "replayed_pcr_sha256") = Ok (Some (VStr (hex_of signed))) ∧
       d_get evidence (u "pcrs") = Some (VStr s) ∧ b64decode s = Ok signed ∧
       v_item value (u "records") = Ok records).
Proof.
  unfold ima_verify. intros Hv.
  apply st_bind_inv in Hv as ([base|e] & w1 & Hq & Hv); [|by destruct Hv].
  apply st_bind_Ok in Hv as (reason & w2 & E & Hv). apply lift_inv in E as [Er ->].
  apply d_item_Ok in Er.
  destruct (py_eq reason _) eqn:Ereason; cbn [negb] in Hv.
  2:{ injection Hv as <- <-. exists base, w1, []. split_and!; try done. left. split; [done|].
      intros Hd. change (d_get (d_update base not_evaluated) (u "reason") = Some (status "SCOPED_POLICY_PASS")) in Hd.
      rewrite Er in Hd. injection Hd as ->. cbn in Ereason.
      by rewrite bool_decide_eq_true_2 in Ereason. }
  py_inv. match type of Hv with (if ?c then _ else _) _ = _ => destruct c eqn:Hexit end; py_inv.
  - do 3 eexists. split; [done|]. split; [reflexivity|]. right; left.
    apply d_get_update_Some; [dec_now|done].
  - repeat case_match; try done; py_inv. bools.
    match type of Hv with (if ?c then _ else _) _ = _ => destruct c eqn:Hsame end; py_inv.
    + do 3 eexists. split; [done|]. split; [reflexivity|]. right; right; left.
      apply d_get_update_Some; [dec_now|done].
    + bools. subst. case_match; try done.
      match goal with Hi : d_item evidence _ = _ |- _ => apply d_item_Ok in Hi end.
      match goal with Hr : replay_log _ = Ok ?o |- _ => destruct o as [exit out] end.
      cbn [fst snd] in *. subst.
      do 3 eexists. split; [done|]. split; [reflexivity|]. right; right; right.
      do 6 eexists. by split_and!.
Qed.

Lemma not_evaluated_reason base :
  d_get (d_update base not_evaluated) (u "reason") = d_get base (u "reason").
Proof. by apply d_get_update_None. Qed.

(** When the IMA verifier passes, the quote verifier passed on the same
    evidence and challenge, and the replay of the local log ended in exactly
    the PCR value that was quoted, compared byte for byte; the verdict is
    marked bound to the quote. *)
Theorem ima_pass_sound self evidence c w d w' :
  ima_verify self evidence c w = (Ok d, w') →
  d_get d (u "reason") = Some (status "SCOPED_POLICY_PASS") →
  ∃ base w1 n out value s signed,
    quote_verify (quote self) evidence c w = (Ok base, w1) ∧
    d_get base (u "reason") = Some (status "SCOPED_POLICY_PASS") ∧
    replay_log n = Ok (0, out) ∧ loads plain_hooks out = Ok value ∧
    v_get value (u "parsed") = Ok (Some (VBool true)) ∧
    v_get value (u "replayed_pcr_sha256") = Ok (Some (VStr (hex_of signed))) ∧
    d_get evidence (u "pcrs") = Some (VStr s) ∧ b64decode s = Ok signed ∧
    d_get d (u "ima_validity") = Some (status "quote_bound").
Proof.
  intros (base & w1 & tail & Hq & -> & Hr)%ima_verify_Ok Hp.
  destruct Hr as [[_ Hr]|[Hr|[Hr|Hr]]]; [done| | |].
  { rewrite Hp in Hr. by apply (f_equal (λ v, v ≫= str_of)) in Hr. }
  { rewrite Hp in Hr. by apply (f_equal (λ v, v ≫= str_of)) in Hr. }
  destruct Hr as (records & n & out & value & s & signed & -> & Hr).
  exists base, w1, n, out, value, s, signed.
  rewrite d_get_update_None, not_evaluated_reason in Hp by done.
  split_and!; try done; try apply Hr. apply d_get_update_Some; [dec_now|done].
Qed.

#[export] Instance ima_verifier_laws : VerifierLaws ImaQuoteVerifier.
Proof.
  assert (Hbase : ∀ self evidence c w d w', ima_verify self evidence c w = (Ok d, w') →
    ∃ base w1 tail, quote_verify (quote self) evidence c w = (Ok base, w1) ∧
      d = d_update (d_update base not_evaluated) tail ∧
      (d_get d (u "reason") = Some (status "SCOPED_POLICY_PASS") →
       d_get base (u "reason") = Some (status "SCOPED_POLICY_PASS") ∧
       ∃ records, tail = [(u "ima_validity", status "quote_bound"); (u "ima_records", records)])).
  { intros self evidence c w d w' (base & w1 & tail & Hq & -> & Hr)%ima_verify_Ok.
    exists base, w1, tail. split_and!; [done..|]. intros Hp.
    destruct Hr as [[_ Hr]|[Hr|[Hr|(records & _ & _ & _ & _ & _ & -> & _)]]]; [done| | |].
    1,2: rewrite Hp in Hr; by apply (f_equal (λ v, v ≫= str_of)) in Hr.
    rewrite d_get_update_None, not_evaluated_reason in Hp by done. eauto. }
  split.
  - intros self evidence c. cbn [v_verify ima_verifier]. unfold ima_verify.
    apply time_bind; [exact (verify_time (quote self) evidence c)|intros base]. time_tac.
  - intros self evidence c w d w' (base & w1 & tail & Hq & -> & _)%Hbase.
    apply NoDup_update, NoDup_update. pose proof (verify_keys (quote self) evidence c w base w1) as Hk. by apply Hk.
  - intros self evidence c w d w' (base & w1 & tail & Hq & -> & Hp)%Hbase Hr.
    destruct (Hp Hr) as [Hb [records ->]].
    rewrite !(d_get_update_None (d_update base _)), !d_get_update_None by done.
    pose proof (verify_pass (quote self) evidence c w base w1) as Hv. by apply Hv.
Qed.
End ima.
End ImaQuote.
