(* ===== verification/ImaReplay.v ===== *)
(** * The IMA log replay ([src/lab/app/ima_replay.c])

    The program behind [ima_quote_verifier.py] and [verificar-ima.py]: a binary
    log of SHA-256 measurements of PCR 10 is parsed record by record and its
    digests folded into the value the PCR must have.  The file, how its reads are
    cut or fail, and the clock are the environment. *)

From S2P Require Import Prelude Bytes Sha256 Json JsonFacts JsonCanon Stream Env Dict Attestation ImaQuote.
Import Json Attestation.

Module ImaReplay.

Definition MAX_BYTES : Z := 64 * 1024 * 1024.
Definition MAX_DATA : Z := 65536.
Definition MAX_RECORDS : Z := 100000.

(** What can happen at an iteration of the reading loop; with nothing said, a
    [read] returns all that was asked for and is there. *)
Inductive read_event :=
| Short (n : nat)        (* a [read] returns at most [n + 1] bytes *)
| Interrupted            (* [EINTR] *)
| ReadFails
| ClockFails
| TimeUp.                (* three seconds have passed *)

Record input := Input {
  left : bytes;          (* of the file, not yet read *)
  count : Z;             (* [in->bytes] *)
  events : list read_event;
  pcr : bytes;
  records : Z }.

Definition le32 (p : bytes) : Z := le_decode p.
Definition advanced (got : bytes) (left : bytes) (events : list read_event) (i : input) : input :=
  Input left (count i + len got) events (pcr i) (records i).

(** The loop of [take]: the status with what has been read, what is left, and the
    events to come.  A failure is the name of the error. *)
Inductive filled := Full | Truncated | Failed (error : string).
Fixpoint fill (events : list read_event) (want : nat) (got left : bytes) : filled * bytes * bytes * list read_event :=
  match want with
  | O => (Full, got, left, events)
  | S _ =>
      match events with
      | [] =>
          if (want <=? length left)%nat then (Full, got ++ take want left, drop want left, [])
          else (Truncated, got ++ left, [], [])
      | ClockFails :: events => (Failed "CLOCK_ERROR", got, left, events)
      | TimeUp :: events => (Failed "TIME_LIMIT", got, left, events)
      | Interrupted :: events => fill events want got left
      | ReadFails :: events => (Failed "READ_ERROR", got, left, events)
      | Short n :: events =>
          let chunk := take (want `min` S n) left in
          match chunk with
          | [] => (Truncated, got, left, events)
          | _ => fill events (want - length chunk) (got ++ chunk) (drop (length chunk) left)
          end
      end
  end.

(** [take(in, out, length)]: the bytes, nothing at a clean end, or the error. *)
Definition take_bytes (length : nat) : st input (option bytes) := λ i,
  if MAX_BYTES - count i <? Z.of_nat length then (Raise (ValueError "BYTE_LIMIT"), i)
  else
    match fill (events i) length [] (left i) with
    | (Full, got, left, ev) => (Ok (Some got), advanced got left ev i)
    | (Truncated, got, left, ev) =>
        (if bool_decide (got = []) then Ok None else Raise (ValueError "TRUNCATED_RECORD"), advanced got left ev i)
    | (Failed e, got, left, ev) => (Raise (ValueError e), advanced got left ev i)
    end.
(** [if(take(...) != 1) return 0;] *)
Definition take_all (length : nat) : st input bytes :=
  o ← take_bytes length;
  match o with Some data => mret data | None => raise (ValueError "TRUNCATED_RECORD") end.

Definition digest_names : list (string * nat) := [("sha1:", 20%nat); ("sha256:", 32%nat); ("sha384:", 48%nat); ("sha512:", 64%nat)]%string.
Definition digest_field (data : bytes) : bool :=
  existsb (λ '(name, length), let prefix := b name ++ [x00] in
    (len data =? len prefix + Z.of_nat length) && bool_decide (take (List.length prefix) data = prefix)) digest_names.
Definition name_field (data : bytes) : bool :=
  negb ((len data =? 0) || (4096 <? len data) || negb (bool_decide (last data = Some x00)) ||
        bool_decide (x00 ∈ take (length data - 1) data)).
(** The check of a field by its index. *)
Definition field_ok (field : nat) (data : bytes) : bool :=
  match field with O => digest_field data | 1%nat => name_field data | _ => true end.
(** [fields_valid(data, size, fields)], from field [field] on. *)
Fixpoint fields_from (field fields : nat) (data : bytes) : bool :=
  match fields with
  | O => bool_decide (data = [])
  | S fields =>
      if len data <? 4 then false
      else
        let length := le32 (take 4 data) in
        let data := drop 4 data in
        if len data <? length then false
        else if negb (field_ok field (take (Z.to_nat length) data)) then false
        else fields_from (S field) fields (drop (Z.to_nat length) data)
  end.
Definition fields_valid (data : bytes) (fields : nat) : bool := fields_from 0 fields data.

Definition fail {A} (error : string) : st input A := raise (ValueError error).
Definition fail_when (b : bool) (error : string) : st input unit := raise_when b (ValueError error).

Definition template_fields (name : bytes) : option nat :=
  if decide (name = b "ima-ng") then Some 2%nat else if decide (name = b "ima-sig") then Some 3%nat else None.
Definition extend (pcr digest : bytes) : bytes := sha256 (pcr ++ digest).

(** The rest of a record, after the first four bytes of its header. *)
Definition record_body (start : bytes) : st input unit :=
  n ← gets records;
  _ ← fail_when (MAX_RECORDS <=? n) "RECORD_LIMIT";
  rest ← take_all 36;
  let header := start ++ rest in
  _ ← fail_when (negb (le32 (take 4 header) =? 10)) "UNSUPPORTED_PCR";
  let name_length := le32 (slice header 36 40) in
  _ ← fail_when ((name_length =? 0) || (32 <? name_length)) "TEMPLATE_NAME_SIZE";
  name ← take_all (Z.to_nat name_length);
  match template_fields name with
  | None => fail "UNSUPPORTED_TEMPLATE"
  | Some fields =>
      length_bytes ← take_all 4;
      let length := le32 length_bytes in
      _ ← fail_when ((length =? 0) || (MAX_DATA <? length)) "TEMPLATE_DATA_SIZE";
      data ← take_all (Z.to_nat length);
      _ ← fail_when (negb (fields_valid data fields)) "INVALID_TEMPLATE_FIELDS";
      _ ← fail_when (bool_decide (slice header 4 36 = zeros 32)) "IMA_VIOLATION";
      let digest := sha256 data in
      _ ← fail_when (negb (bool_decide (digest = slice header 4 36))) "TEMPLATE_DIGEST_MISMATCH";
      modify (λ i, Input (left i) (count i) (events i) (extend (pcr i) digest) (records i + 1))
  end.

(** [replay(in, pcr, records)]: each record takes four bytes at least. *)
Fixpoint replay_loop (fuel : nat) : st input unit :=
  match fuel with
  | O => fail "out of fuel"
  | S fuel =>
      header ← take_bytes 4;
      match header with
      | None => n ← gets records; fail_when (n =? 0) "EMPTY_LOG"
      | Some start => _ ← record_body start; replay_loop fuel
      end
  end.
Definition replay : st input unit := i ← get; replay_loop (S (length (left i))).

(** [main], on how the file opens. *)
Inductive opened := NotOpened | NotRegular | NoClock | Opened (file : bytes) (events : list read_event).
Definition fresh (file : bytes) (events : list read_event) : input := Input file 0 events (zeros 32) 0.
Definition error_text (e : exn) : pystr := match e with ValueError s => u s | _ => [] end.
(** The exit code and the line printed. *)
Definition printed (success : bool) (n total : Z) (reason : pystr) (pcr : bytes) : pystr :=
  u "{" ++ dump_str (u "protocol") ++ u ":" ++ dump_str (u "lab-ima-replay/1") ++ u "," ++
  dump_str (u "parsed") ++ u ":" ++ u (if success then "true" else "false") ++ u "," ++
  dump_str (u "records") ++ u ":" ++ dump_int n ++ u "," ++ dump_str (u "bytes") ++ u ":" ++ dump_int total ++ u "," ++
  dump_str (u "attestation_verified") ++ u ":false," ++ dump_str (u "reason") ++ u ":" ++ dump_str reason ++
  (if success then u "," ++ dump_str (u "replayed_pcr_sha256") ++ u ":" ++ dump_str (hex_of pcr) else []) ++ u "}" ++ [10].
Definition main (file : opened) (closes : bool) : Z * pystr :=
  let '(r, i) := match file with
                 | NotOpened => (Raise (ValueError "OPEN_ERROR"), fresh [] [])
                 | NotRegular => (Raise (ValueError "NOT_REGULAR_FILE"), fresh [] [])
                 | NoClock => (Raise (ValueError "CLOCK_ERROR"), fresh [] [])
                 | Opened file events => replay (fresh file events)
                 end in
  let r := match file with NotOpened => r | _ => if closes then r else Raise (ValueError "CLOSE_ERROR") end in
  match r with
  | Ok _ => (0, printed true (records i) (count i) (u "REPLAY_COMPLETE") (pcr i))
  | Raise e => (1, printed false (records i) (count i) (error_text e) (pcr i))
  end.
End ImaReplay.

(** * The IMA log replay: the parser inverts the format

    The logs the replay accepts are exactly the concatenations of well-formed
    records, and its value is the fold of their digests; the line it prints is
    the value [ima_quote_verifier.py] reads, so a passing verdict binds the quote
    to such a log. *)

Import Json Attestation ImaQuote ImaReplay.

(** ** The format *)

(** A record of PCR 10: with or without a signature field, and its data. *)
Record measurement := Measurement { signed : bool; data : bytes }.
Definition template (m : measurement) : bytes := b (if signed m then "ima-sig" else "ima-ng").
Definition field_count (m : measurement) : nat := if signed m then 3 else 2.
Definition encode (m : measurement) : bytes :=
  le_encode 4 10 ++ sha256 (data m) ++ le_encode 4 (len (template m)) ++ template m ++ le_encode 4 (len (data m)) ++ data m.
Record measurement_wf (m : measurement) : Prop := {
  mw_size : 0 < len (data m) <= MAX_DATA;
  mw_fields : fields_valid (data m) (field_count m) = true;
  mw_violation : sha256 (data m) ≠ zeros 32 }.
Definition pcr_of (pcr : bytes) (log : list measurement) : bytes := foldl (λ p m, extend p (sha256 (data m))) pcr log.

(** ** Reading *)

Definition benign (e : read_event) : Prop := match e with Short _ | Interrupted => True | _ => False end.

Lemma fill_spec ev : ∀ want got left0 s got' left' ev',
  fill ev want got left0 = (s, got', left', ev') →
  ∃ chunk, got' = got ++ chunk ∧ left0 = chunk ++ left' ∧
    match s with
    | Full => length chunk = want
    | Truncated => (length chunk < want)%nat ∧ left' = []
    | Failed _ => ¬ Forall benign ev
    end ∧ (Forall benign ev → Forall benign ev').
Proof.
  induction ev as [|e ev IH]; intros want got left0 s got' left' ev' E; cbn [fill] in E.
  - destruct want as [|want]; [injection E as <- <- <- <-; exists []; by rewrite app_nil_r|].
    destruct (Nat.leb_spec (S want) (length left0)); injection E as <- <- <- <-.
    + exists (take (S want) left0). rewrite take_drop, length_take. split_and!; try done. lia.
    + exists left0. rewrite app_nil_r. by split_and!.
  - destruct want as [|want]; [injection E as <- <- <- <-; exists []; by rewrite app_nil_r|].
    assert (Hfail : ∀ e', ¬ benign e' → ∀ s0, (Failed s0, got, left0, ev) = (s, got', left', ev') → e = e' →
      ∃ chunk, got' = got ++ chunk ∧ left0 = chunk ++ left' ∧
      match s with
      | Full => length chunk = S want
      | Truncated => (length chunk < S want)%nat ∧ left' = []
      | Failed _ => ¬ Forall benign (e :: ev)
      end ∧ (Forall benign (e :: ev) → Forall benign ev')).
    { intros e' He s0 [= <- <- <- <-] <-. exists []. rewrite app_nil_r. split_and!; try done.
      - intros Hf. by apply Forall_cons in Hf as [? _].
      - intros Hf. by apply Forall_cons in Hf as [_ ?]. }
    destruct e as [n| | | |]; try (by eapply Hfail; [|exact E|reflexivity]; intros []).
    + destruct (take (S want `min` S n) left0) as [|x c] eqn:Hc.
      * injection E as <- <- <- <-. exists []. rewrite app_nil_r. split_and!; [done|done|cbn; lia|by destruct left0|].
        intros Hf. by apply Forall_cons in Hf as [_ ?].
      * apply IH in E as (more & -> & Hl & Hs & Hb). set (chunk := x :: c) in *.
        assert (Hlen : (0 < length chunk <= S want)%nat) by (split; [cbn; lia|rewrite <-Hc, length_take; lia]).
        assert (Hpre : left0 = chunk ++ drop (length chunk) left0).
        { rewrite <-Hc, length_take. generalize (S want `min` S n)%nat as k. intros k.
          rewrite <-(take_drop k left0) at 1. f_equal. destruct (Nat.le_gt_cases k (length left0)).
          - by rewrite Nat.min_l by lia.
          - rewrite Nat.min_r by lia. rewrite !drop_ge; [done|lia..]. }
        exists (chunk ++ more). rewrite app_assoc. split; [done|]. rewrite <-app_assoc, <-Hl. split; [done|].
        split; [|intros Hf; apply Forall_cons in Hf as [_ ?]; auto].
        destruct s; rewrite ?length_app; [lia| |intros Hf; apply Forall_cons in Hf as [_ ?]; auto].
        destruct Hs as [? ->]. split; [lia|done].
    + apply IH in E as (more & -> & -> & Hs & Hb). exists more. split_and!; try done.
      * destruct s; try done. intros Hf. apply Forall_cons in Hf as [_ ?]. auto.
      * intros Hf. apply Forall_cons in Hf as [_ ?]. auto.
Qed.

(** What a read leaves alone. *)
Definition same_log (i i' : input) : Prop := pcr i' = pcr i ∧ records i' = records i.

Lemma take_bytes_Ok n i o i' : (0 < n)%nat → take_bytes n i = (Ok o, i') →
  same_log i i' ∧ count i + Z.of_nat n <= MAX_BYTES ∧
  match o with
  | Some d => length d = n ∧ left i = d ++ left i' ∧ count i' = count i + Z.of_nat n
  | None => left i = [] ∧ left i' = [] ∧ count i' = count i
  end.
Proof.
  intros Hn. unfold take_bytes. destruct (Z.ltb_spec (MAX_BYTES - count i) (Z.of_nat n)); [done|].
  destruct (fill (events i) n [] (left i)) as [[[s got] l] ev] eqn:E. apply fill_spec in E as (chunk & -> & Hl & Hs & _).
  cbn [app]. destruct s.
  - intros [= <- <-]. cbn [left count pcr records advanced]. split; [done|]. split; [lia|]. split_and!; try done. unfold len. lia.
  - destruct Hs as [_ ->]. case_bool_decide as Hc; intros [= <- <-]. rewrite Hc in *. cbn [left count pcr records advanced]. split; [done|]. split; [lia|].
    split_and!; try done. unfold len. cbn [length]. lia.
  - done.
Qed.
Lemma take_all_Ok n i d i' : (0 < n)%nat → take_all n i = (Ok d, i') →
  same_log i i' ∧ length d = n ∧ left i = d ++ left i' ∧ count i' = count i + Z.of_nat n ∧ count i' <= MAX_BYTES.
Proof.
  intros Hn E. unfold take_all in E. apply st_bind_Ok in E as (o & i1 & E1 & E).
  apply take_bytes_Ok in E1 as (Hs & Hb & Ho); [|done]. destruct o as [d'|]; [|done]. injection E as -> ->.
  destruct Ho as (? & ? & ?). split_and!; try done. lia.
Qed.
Lemma take_bytes_benign n i : (0 < n)%nat → Forall benign (events i) → count i + Z.of_nat n <= MAX_BYTES →
  (n <= length (left i))%nat →
  ∃ ev, Forall benign ev ∧ take_bytes n i = (Ok (Some (take n (left i))), Input (drop n (left i)) (count i + Z.of_nat n) ev (pcr i) (records i)).
Proof.
  intros Hn Hb Hc Hl. unfold take_bytes. destruct (Z.ltb_spec (MAX_BYTES - count i) (Z.of_nat n)); [lia|].
  destruct (fill (events i) n [] (left i)) as [[[s got] l] ev] eqn:E. apply fill_spec in E as (chunk & -> & Hle & Hs & Hev).
  destruct s; [| |done].
  - exists ev. split; [auto|]. cbn [app]. unfold advanced. rewrite Hle, <-Hs, take_app_length, drop_app_length. done.
  - destruct Hs as [Hs ->]. rewrite Hle, app_nil_r in Hl. lia.
Qed.
Lemma take_all_benign n i : (0 < n)%nat → Forall benign (events i) → count i + Z.of_nat n <= MAX_BYTES →
  (n <= length (left i))%nat →
  ∃ ev, Forall benign ev ∧ take_all n i = (Ok (take n (left i)), Input (drop n (left i)) (count i + Z.of_nat n) ev (pcr i) (records i)).
Proof.
  intros Hn Hb Hc Hl. destruct (take_bytes_benign n i Hn Hb Hc Hl) as (ev & Hev & E). exists ev. split; [done|].
  unfold take_all, mbind, st_bind. by rewrite E.
Qed.

(** ** A record *)

Lemma fail_when_Ok b e i x i' : fail_when b e i = (Ok x, i') → b = false ∧ i' = i.
Proof. intros E. by apply raise_when_Ok in E. Qed.
Lemma template_fields_Some name fields : template_fields name = Some fields →
  ∃ signed, name = b (if signed : bool then "ima-sig" else "ima-ng")%string ∧ fields = (if signed then 3 else 2)%nat.
Proof.
  unfold template_fields. case_decide as H1; [intros [= <-]; by exists false|].
  case_decide as H2; [intros [= <-]; by exists true|done].
Qed.

(** The state after a record. *)
Definition extended (m : measurement) (i i' : input) : Prop :=
  pcr i' = extend (pcr i) (sha256 (data m)) ∧ records i' = records i + 1.

Lemma slice_prefix {A} (l k : list A) i j : (j <= length l)%nat → slice (l ++ k) i j = slice l i j.
Proof.
  intros Hj. unfold slice. destruct (Nat.le_gt_cases j i).
  - replace (j - i)%nat with 0%nat by lia. done.
  - rewrite drop_app_le by lia. by rewrite take_app_le by (rewrite length_drop; lia).
Qed.
(** The fields of a header, put together again. *)
Lemma header_split (h : bytes) : length h = 40%nat → h = take 4 h ++ slice h 4 36 ++ slice h 36 40.
Proof.
  intros Hl. unfold slice. rewrite <-(take_drop 4 h) at 1. f_equal. rewrite <-(take_drop 32 (drop 4 h)) at 1. f_equal.
  rewrite drop_drop. rewrite take_ge; [done|]. rewrite length_drop. lia.
Qed.
Lemma encode_field (l : bytes) n : length l = n → le_encode n (le32 l) = l.
Proof. intros <-. apply le_encode_decode. Qed.

Lemma record_body_sound start i i' : length start = 4%nat → record_body start i = (Ok tt, i') →
  ∃ m, measurement_wf m ∧ start ++ left i = encode m ++ left i' ∧ extended m i i' ∧ records i < MAX_RECORDS ∧
    count i' = count i + len (encode m) - 4.
Proof.
  intros Hs E. unfold record_body in E.
  apply st_bind_Ok in E as (n & i0 & E0 & E). injection E0 as <- <-.
  apply st_bind_Ok in E as (x & i0 & E0 & E). apply fail_when_Ok in E0 as [G0 ->].
  apply st_bind_Ok in E as (rest & i1 & E0 & E). apply take_all_Ok in E0 as ([P1 R1] & L1 & F1 & C1 & _); [|lia].
  assert (Hh : length (start ++ rest) = 40%nat) by (rewrite length_app; lia).
  set (header := start ++ rest) in *. cbv zeta in E.
  apply st_bind_Ok in E as (x2 & i2 & E0 & E). apply fail_when_Ok in E0 as [G1 ->]. apply negb_false_iff, Z.eqb_eq in G1.
  apply st_bind_Ok in E as (x3 & i3 & E0 & E). apply fail_when_Ok in E0 as [G2 ->]. apply orb_false_iff in G2 as [G2%Z.eqb_neq G3%Z.ltb_ge].
  pose proof (le_decode_bound (slice header 36 40)) as Hb. change (le_decode (slice header 36 40)) with (le32 (slice header 36 40)) in Hb.
  apply st_bind_Ok in E as (name & i4 & E0 & E). apply take_all_Ok in E0 as ([P2 R2] & L2 & F2 & C2 & _); [|lia].
  destruct (template_fields name) as [fields|] eqn:Ht; [|done]. apply template_fields_Some in Ht as (sg & Hname & Hfields).
  apply st_bind_Ok in E as (lb & i5 & E0 & E). apply take_all_Ok in E0 as ([P3 R3] & L3 & F3 & C3 & _); [|lia].
  apply st_bind_Ok in E as (x4 & i6 & E0 & E). apply fail_when_Ok in E0 as [G4 ->]. apply orb_false_iff in G4 as [G4%Z.eqb_neq G5%Z.ltb_ge].
  pose proof (le_decode_bound lb) as Hb2. change (le_decode lb) with (le32 lb) in Hb2.
  apply st_bind_Ok in E as (d & i7 & E0 & E). apply take_all_Ok in E0 as ([P4 R4] & L4 & F4 & C4 & _); [|lia].
  apply st_bind_Ok in E as (x5 & i8 & E0 & E). apply fail_when_Ok in E0 as [G6 ->]. apply negb_false_iff in G6.
  apply st_bind_Ok in E as (x6 & i9 & E0 & E). apply fail_when_Ok in E0 as [G7 ->]. apply bool_decide_eq_false in G7.
  apply st_bind_Ok in E as (x7 & i10 & E0 & E). apply fail_when_Ok in E0 as [G8 ->]. apply negb_false_iff, bool_decide_eq_true in G8.
  injection E as <-. apply Z.leb_gt in G0.
  assert (Hnl : le32 (slice header 36 40) = len name) by (unfold len; rewrite L2; lia).
  assert (Hdl : le32 lb = len d) by (unfold len; rewrite L4; lia).
  assert (Henc : encode (Measurement sg d) = header ++ name ++ lb ++ d).
  { unfold encode, template. cbn [signed data]. rewrite <-Hname, G8, <-Hnl, <-Hdl, (encode_field lb 4) by done.
    rewrite (encode_field (slice header 36 40) 4) by (rewrite length_slice; lia).
    rewrite <-G1, (encode_field (take 4 header) 4) by (rewrite length_take; lia).
    rewrite (header_split header) at 4 by done. by rewrite <-!app_assoc. }
  exists (Measurement sg d). split.
  { split; cbn [data]; [lia| |by rewrite G8]. unfold field_count. cbn [signed]. by rewrite <-Hfields. }
  rewrite Henc. split; [rewrite F1, F2, F3, F4; unfold header; by rewrite <-!app_assoc|]. cbn [left pcr records count].
  split; [split; cbn [pcr records data]; congruence|]. split; [done|].
  rewrite !len_app. unfold len. rewrite Hh. lia.
Qed.

Lemma take_all_chunk i chunk k : (0 < length chunk)%nat → Forall benign (events i) → left i = chunk ++ k →
  count i + len chunk <= MAX_BYTES →
  ∃ ev, Forall benign ev ∧ take_all (length chunk) i = (Ok chunk, Input k (count i + len chunk) ev (pcr i) (records i)).
Proof.
  intros Hn Hb Hl Hc. destruct (take_all_benign (length chunk) i Hn Hb Hc) as (ev & Hev & E); [rewrite Hl, length_app; lia|].
  exists ev. split; [done|]. by rewrite Hl, take_app_length, drop_app_length in E.
Qed.
Lemma fail_when_run b e i : b = false → fail_when b e i = (Ok tt, i).
Proof. by intros ->. Qed.
Lemma st_step {S A B} (m : st S A) (f : A → st S B) s a s1 r : m s = (Ok a, s1) → f a s1 = r → (m ≫= f) s = r.
Proof. intros E <-. unfold mbind, st_bind. by rewrite E. Qed.

Lemma template_len m : 0 < len (template m) <= 32.
Proof. unfold template. by destruct (signed m). Qed.
Lemma template_known m : template_fields (template m) = Some (field_count m).
Proof. unfold template, field_count. by destruct (signed m). Qed.

Lemma len_encode m : len (encode m) = 44 + len (template m) + len (data m).
Proof. unfold encode. rewrite !len_app, !len_le_encode. unfold len. rewrite length_sha256. lia. Qed.

Lemma record_body_complete m i rest start :
  measurement_wf m → Forall benign (events i) → records i < MAX_RECORDS → length start = 4%nat →
  start ++ left i = encode m ++ rest → count i + len (encode m) - 4 <= MAX_BYTES →
  ∃ ev, Forall benign ev ∧
    record_body start i = (Ok tt, Input rest (count i + len (encode m) - 4) ev (extend (pcr i) (sha256 (data m))) (records i + 1)).
Proof.
  intros [W1 W2 W3] Hb Hr Hs Hl Hc. rewrite len_encode in Hc |- *. unfold encode in Hl. rewrite <-!app_assoc in Hl.
  apply app_inj_1 in Hl as [-> Hl]; [|by rewrite Hs, length_le_encode].
  pose proof (template_len m) as Htl. unfold MAX_DATA in W1.
  assert (Hsha : length (sha256 (data m)) = 32%nat) by apply length_sha256.
  rewrite app_assoc in Hl.
  assert (H36 : length (sha256 (data m) ++ le_encode 4 (len (template m))) = 36%nat) by (rewrite length_app, Hsha, length_le_encode; done).
  destruct (take_all_chunk i _ _ ltac:(rewrite H36; lia) Hb Hl ltac:(unfold len at 1; rewrite H36; lia)) as (ev1 & B1 & E1).
  rewrite H36 in E1. unfold record_body.
  assert (Hheader : ∀ (l : bytes), le_encode 4 10 ++ sha256 (data m) ++ l = (le_encode 4 10 ++ sha256 (data m)) ++ l) by (intros; by rewrite app_assoc).
  assert (Hfix : length (le_encode 4 10 ++ sha256 (data m)) = 36%nat) by (rewrite length_app, length_le_encode, Hsha; done).
  set (i1 := Input _ _ ev1 _ _) in E1.
  destruct (take_all_chunk i1 (template m) (le_encode 4 (len (data m)) ++ data m ++ rest)) as (ev2 & B2 & E2);
    [unfold len in Htl; lia|done|done|cbn [count i1]; unfold len at 1; rewrite H36; lia|]. set (i2 := Input _ _ ev2 _ _) in E2.
  destruct (take_all_chunk i2 (le_encode 4 (len (data m))) (data m ++ rest)) as (ev3 & B3 & E3);
    [rewrite length_le_encode; lia|done|done|cbn [count i1 i2]; rewrite len_le_encode; unfold len at 1; rewrite H36; lia|].
  rewrite length_le_encode in E3. set (i3 := Input _ _ ev3 _ _) in E3.
  destruct (take_all_chunk i3 (data m) rest) as (ev4 & B4 & E4);
    [unfold len in W1; lia|done|done|cbn [count i1 i2 i3]; rewrite len_le_encode; unfold len at 1; rewrite H36; lia|].
  set (i4 := Input _ _ ev4 _ _) in E4.
  exists ev4. split; [done|].
  eapply st_step; [done|]. eapply st_step; [apply fail_when_run; by apply Z.leb_gt|].
  eapply st_step; [exact E1|]. cbv zeta. rewrite Hheader.
  rewrite (take_app_le (le_encode 4 10 ++ sha256 (data m))) by lia. rewrite (take_app_length' (le_encode 4 10)) by done.
  assert (slice ((le_encode 4 10 ++ sha256 (data m)) ++ le_encode 4 (len (template m))) 36 40 = le_encode 4 (len (template m))) as ->.
  { unfold slice. rewrite drop_app_length' by done. by rewrite take_ge by (rewrite length_le_encode; lia). }
  assert (slice ((le_encode 4 10 ++ sha256 (data m)) ++ le_encode 4 (len (template m))) 4 36 = sha256 (data m)) as ->.
  { rewrite slice_prefix by lia. unfold slice. rewrite (drop_app_length' (le_encode 4 10)) by done. rewrite take_ge by lia. done. }
  unfold le32 at 2 3 4. rewrite !le_decode_encode, !Z.mod_small by (cbn; lia).
  eapply st_step; [by apply fail_when_run|].
  eapply st_step; [apply fail_when_run; apply orb_false_iff; split; [apply Z.eqb_neq; lia|apply Z.ltb_ge; lia]|].
  rewrite (Nat2Z.id (length (template m))) at 1. eapply st_step; [exact E2|]. rewrite template_known.
  eapply st_step; [exact E3|]. cbv zeta. unfold le32. rewrite !le_decode_encode, !Z.mod_small by (cbn; lia).
  eapply st_step; [apply fail_when_run; apply orb_false_iff; split; [apply Z.eqb_neq; lia|apply Z.ltb_ge; unfold MAX_DATA; lia]|].
  unfold len at 1. rewrite Nat2Z.id. eapply st_step; [exact E4|].
  eapply st_step; [apply fail_when_run; by rewrite W2|].
  eapply st_step; [apply fail_when_run; by apply bool_decide_eq_false|].
  eapply st_step; [apply fail_when_run; by rewrite bool_decide_eq_true_2|].
  unfold modify. cbn [left count events pcr records i1 i2 i3 i4]. f_equal. f_equal. rewrite len_le_encode, (len_app (sha256 _)), len_le_encode. unfold len at 1. rewrite Hsha. lia.
Qed.

(** ** The log *)

Lemma replay_loop_sound fuel i i' : replay_loop fuel i = (Ok tt, i') →
  ∃ log, Forall measurement_wf log ∧ left i = concat (encode <$> log) ∧ pcr i' = pcr_of (pcr i) log ∧
    records i' = records i + len log ∧ records i' ≠ 0 ∧ (records i <= MAX_RECORDS → records i' <= MAX_RECORDS) ∧
    count i' = count i + len (left i) ∧ count i' + 4 <= MAX_BYTES.
Proof.
  revert i. induction fuel as [|fuel IH]; intros i E; [done|]. cbn [replay_loop] in E.
  apply st_bind_Ok in E as (o & i1 & E1 & E). apply take_bytes_Ok in E1 as ([P1 R1] & Hc & Ho); [|lia].
  destruct o as [start|].
  - destruct Ho as (Ls & Hl & C1). apply st_bind_Ok in E as ([] & i2 & E2 & E).
    apply record_body_sound in E2 as (m & W & Hl2 & [P2 R2] & Hr & C2); [|done].
    apply IH in E as (log & Hw & Hl3 & Hp & Hrec & Hne & Hmax & Hcount & Hb). exists (m :: log).
    assert (Hle : left i = encode m ++ concat (encode <$> log)) by (by rewrite Hl, Hl2, Hl3).
    split; [by constructor|]. split; [done|]. split; [rewrite Hp, P2, P1; done|].
    rewrite len_cons. split; [lia|]. split; [done|]. split; [lia|]. split; [|done].
    rewrite Hcount, C2, C1, Hle, len_app, Hl3. lia.
  - destruct Ho as (Hl & _ & C1). apply st_bind_Ok in E as (n & i2 & E2 & E). injection E2 as <- <-.
    apply fail_when_Ok in E as [G ->]. apply Z.eqb_neq in G. exists []. split; [constructor|]. split; [done|]. split; [done|].
    change (len []) with 0. rewrite Hl. change (len []) with 0. split_and!; lia.
Qed.

Lemma replay_loop_complete fuel i log :
  Forall measurement_wf log → Forall benign (events i) → left i = concat (encode <$> log) → (length log < fuel)%nat →
  0 <= records i → records i + len log ≠ 0 → records i + len log <= MAX_RECORDS → count i + len (left i) + 4 <= MAX_BYTES →
  ∃ i', replay_loop fuel i = (Ok tt, i') ∧ pcr i' = pcr_of (pcr i) log ∧ records i' = records i + len log.
Proof.
  intros Hw. revert fuel i. induction Hw as [|m log W Hw IH]; intros [|fuel] i Hb Hl Hf H0 Hne Hr Hc; cbn [length] in Hf; try lia; cbn [replay_loop].
  - cbn in Hl. rewrite Hl in Hc. change (len []) with 0 in *. unfold mbind, st_bind at 1, take_bytes.
    destruct (Z.ltb_spec (MAX_BYTES - count i) (Z.of_nat 4)); [lia|].
    destruct (fill (events i) 4 [] (left i)) as [[[s got] l] ev] eqn:E. apply fill_spec in E as (chunk & -> & Hle & Hs & _).
    rewrite Hl in Hle. symmetry in Hle. apply app_nil in Hle as [-> ->]. destruct s; [done| |done]. cbn [app].
    rewrite bool_decide_eq_true_2 by done. unfold gets, fail_when, raise_when, st_bind. cbn [advanced records].
    destruct (Z.eqb_spec (records i) 0); [lia|]. eexists. split; [done|]. cbn [pcr records advanced]. split; [done|lia].
  - rewrite len_cons in *. cbn [fmap list_fmap concat] in Hl. rewrite Hl, len_app in Hc. pose proof (len_nonneg (concat (encode <$> log))).
    pose proof (len_nonneg log). pose proof (len_encode m) as Hle. pose proof (template_len m). pose proof (len_nonneg (data m)).
    destruct (take_bytes_benign 4 i) as (ev & Hev & E); [lia|done|lia|rewrite Hl, length_app; unfold len in *; lia|].
    set (i1 := Input _ _ ev _ _) in E.
    destruct (record_body_complete m i1 (concat (encode <$> log)) (take 4 (left i)) W Hev) as (ev' & Hev' & E2);
      [cbn; lia|rewrite length_take, Hl, length_app; unfold len in *; lia|cbn [left i1]; by rewrite take_drop, Hl|cbn [count i1]; lia|].
    set (i2 := Input (concat _) _ ev' _ _) in E2.
    destruct (IH fuel i2 Hev' eq_refl) as (i' & E3 & P & R); [lia|cbn; lia|cbn [records i1 i2]; lia|cbn [records i1 i2]; lia|cbn [left count i1 i2]; lia|].
    exists i'. split; [eapply st_step; [exact E|]; cbv iota; by eapply st_step|]. rewrite P, R. split; [done|cbn [records i2 i1]; lia].
Qed.

(** C22.  The replay accepts exactly the logs of the format: whatever way its reads
    are cut or interrupted, a file is replayed to the value [p] over [n] records
    if and only if it is the concatenation of [n] well-formed records, at least
    one and at most a hundred thousand, within the byte limit, and [p] is the fold of their digests from zero. *)
Theorem replay_exact file ev p n :
  Forall benign ev →
  (∃ i', replay (fresh file ev) = (Ok tt, i') ∧ pcr i' = p ∧ records i' = n) ↔
  ∃ log, Forall measurement_wf log ∧ file = concat (encode <$> log) ∧ p = pcr_of (zeros 32) log ∧ n = len log ∧
    0 < n <= MAX_RECORDS ∧ len file + 4 <= MAX_BYTES.
Proof.
  intros Hb. assert (Hrun : replay (fresh file ev) = replay_loop (S (length file)) (fresh file ev)) by done. rewrite Hrun. split.
  - intros (i' & E & <- & <-). apply replay_loop_sound in E as (log & Hw & Hl & Hp & Hr & Hne & Hmax & Hc & Hby).
    cbn [left pcr records count fresh] in *. exists log. pose proof (len_nonneg log).
    split; [done|]. split; [done|]. split; [done|]. split; [lia|]. split; [|lia].
    assert (records i' <= MAX_RECORDS) by (apply Hmax; unfold MAX_RECORDS; lia). lia.
  - intros (log & Hw & Hl & -> & -> & Hn & Hby).
    destruct (replay_loop_complete (S (length file)) (fresh file ev) log) as (i' & E & P & R); try done; cbn [left records count fresh]; try lia.
    { subst file. clear. induction log as [|m log IH]; [cbn; lia|]. cbn [fmap list_fmap concat length]. rewrite length_app.
      pose proof (len_encode m). pose proof (template_len m). pose proof (len_nonneg (data m)). unfold len in *. lia. }
    exists i'. split; [done|]. split; [done|]. by rewrite R.
Qed.

Definition sample_data : bytes :=
  le_encode 4 40 ++ b "sha256:" ++ [x00] ++ sha256 (b "owned-fixture") ++ le_encode 4 14 ++ b "owned-fixture" ++ [x00].
Definition sample : measurement := Measurement false sample_data.
Lemma sample_wf : measurement_wf sample.
Proof. split; [by vm_compute|by vm_compute|]. intros H. apply (f_equal head) in H. by vm_compute in H. Qed.
Lemma replay_exact_witness :
  Forall benign [Interrupted; Short 2] ∧
  ∃ i', replay (fresh (encode sample) [Interrupted; Short 2]) = (Ok tt, i') ∧
    pcr i' = pcr_of (zeros 32) [sample] ∧ records i' = 1.
Proof.
  assert (Hb : Forall benign [Interrupted; Short 2]) by by repeat constructor.
  split; [done|]. apply (replay_exact (encode sample) [Interrupted; Short 2] (pcr_of (zeros 32) [sample]) 1 Hb).
  exists [sample]. split; [by apply Forall_singleton, sample_wf|]. split; [by cbn; rewrite app_nil_r|]. by split_and!.
Defined.

(** ** The value binds the log *)

Definition collision : Prop := ∃ x y, x ≠ y ∧ sha256 x = sha256 y.
Lemma sha256_inj x y : sha256 x = sha256 y → x = y ∨ collision.
Proof. intros H. destruct (decide (x = y)); [by left|right; by exists x, y]. Qed.
Lemma pcr_of_snoc p log m : pcr_of p (log ++ [m]) = extend (pcr_of p log) (sha256 (data m)).
Proof. unfold pcr_of. by rewrite foldl_app. Qed.
Lemma length_pcr_of p log : length p = 32%nat → length (pcr_of p log) = 32%nat.
Proof. revert p. induction log as [|m log IH]; intros p Hp; [done|]. apply IH, length_sha256. Qed.
Lemma extend_inj p d p' d' : length p = 32%nat → length p' = 32%nat → extend p (sha256 d) = extend p' (sha256 d') →
  p = p' ∧ d = d' ∨ collision.
Proof.
  intros H1 H2 E. apply sha256_inj in E as [E|E]; [|by right].
  apply app_inj_1 in E as [-> E]; [|congruence]. apply sha256_inj in E as [->|E]; auto.
Qed.

(** The replayed value determines the log: two logs with the same value have
    the same records in the same order, unless SHA-256 has a collision or a
    preimage of the zero digest; so no measurement can be dropped, repeated,
    moved or rewritten under a quoted value. *)
Theorem value_binds_the_log log log' :
  pcr_of (zeros 32) log = pcr_of (zeros 32) log' →
  data <$> log = data <$> log' ∨ collision ∨ ∃ x, sha256 x = zeros 32.
Proof.
  revert log'. induction log as [|m log IH] using rev_ind; intros log'; destruct log' as [|m' log' _] using rev_ind; intros E;
    rewrite ?pcr_of_snoc in E; [by left|right; right; by eexists|right; right; by eexists|].
  apply extend_inj in E as [[E Hd]|E]; [|by right; left|by apply length_pcr_of..].
  apply IH in E as [E|E]; [|by right]. left. by rewrite !fmap_app, E; cbn; rewrite Hd.
Qed.
Lemma value_binds_the_log_witness :
  pcr_of (zeros 32) [sample] = pcr_of (zeros 32) [Measurement false (data sample)] ∧
  (data <$> [sample] = data <$> [Measurement false (data sample)] ∨ collision ∨ ∃ x, sha256 x = zeros 32).
Proof. split; [reflexivity|]. apply value_binds_the_log. reflexivity. Defined.

(** ** The line printed *)

Lemma length_digits n z : (length (digits n z) <= n)%nat.
Proof. revert z. induction n as [|n IH]; intros z; [done|]. cbn [digits]. case_match; [cbn; lia|]. rewrite length_app. specialize (IH (z / 10)). cbn. lia. Qed.
Lemma wf_int z : 0 <= z < 2 ^ 64 → wf (VInt z) = true.
Proof.
  intros Hz. cbn [wf]. apply Z.leb_le. rewrite Z.abs_eq by lia. unfold dump_int.
  destruct (Z.ltb_spec z 0); [lia|]. unfold len. pose proof (length_digits (S (Z.to_nat (Z.log2 z))) z).
  pose proof (Z.log2_nonneg z). assert (Z.log2 z < 64); [|lia]. destruct (Z.eq_dec z 0) as [->|]; [done|]. apply Z.log2_lt_pow2; lia.
Qed.
Definition report (n total : Z) (pcr : bytes) : dict :=
  [(u "protocol", VStr (u "lab-ima-replay/1")); (u "parsed", VBool true); (u "records", VInt n); (u "bytes", VInt total);
   (u "attestation_verified", VBool false); (u "reason", VStr (u "REPLAY_COMPLETE")); (u "replayed_pcr_sha256", VStr (hex_of pcr))].
Lemma printed_report n total pcr : printed true n total (u "REPLAY_COMPLETE") pcr = dumps (VDict (report n total pcr)) ++ [10].
Proof.
  unfold printed, report. cbn [dumps fmap list_fmap join].
  repeat match goal with |- context [dump_str ?s] => generalize (dump_str s); intros ? | |- context [dump_int ?z] => generalize (dump_int z); intros ? end.
  cbn. rewrite <-!app_assoc. cbn. repeat (f_equal; rewrite <-?app_assoc; cbn).
Qed.
