(* ===== verification/Admission.v ===== *)
(** * Session admission ([src/scripts/session_admission.py])

    The registry of game connections admitted by attestation.  A dispatch runs
    in two locked parts with the verification between them, outside the lock;
    entries and challenge verifiers are heap objects (indices into [heap] and
    [verifiers]), so that a verification in flight keeps the very [Entry] it
    started from, whatever the dict of entries has become. *)

From S2P Require Import Prelude Bytes Sha256 Json JsonCanon Stream Env Dict Connection Attestation.
Import Json Stream Attestation.

Module Admission.

Definition PROTOCOL : pystr := u "arena-admission/1".

Definition hex_value (v : value) (length : Z) : result pystr :=
  match v with
  | VStr s =>
      raise_if! negb (len s =? length) || negb (forallb is_hex s) then ValueError "INVALID_IDENTIFIER";
      Ok s
  | _ => Raise (ValueError "INVALID_IDENTIFIER")
  end.

Record binding := Binding {
  instance_id : pystr;
  admission_id : pystr;
  game_session_id : pystr;
  peer_id : Z;
  connection_id : pystr;
  controller : pystr;
  attestor : pystr }.

#[export] Instance binding_eq_dec : EqDecision binding.
Proof. solve_decision. Defined.

Definition binding_dict (x : binding) : dict :=
  [(u "instance_id", VStr (instance_id x)); (u "admission_id", VStr (admission_id x));
   (u "game_session_id", VStr (game_session_id x)); (u "peer_id", VInt (peer_id x));
   (u "connection_id", VStr (connection_id x)); (u "controller", VStr (controller x));
   (u "attestor", VStr (attestor x))].

(** The bytes [bound_nonce] hashes. *)
Definition nonce_data (x : binding) (salt : pystr) : bytes :=
  ascii_bytes PROTOCOL ++ [x00] ++ ascii_bytes (dumps_sorted (VDict (binding_dict x))) ++ [x00] ++
  from_hex salt.

Definition bound_nonce (x : binding) (salt : pystr) : result pystr :=
  salt ← hex_value (VStr salt) 64;
  Ok (sha256_hex (nonce_data x salt)).

Inductive state :=
| REGISTERED | CHALLENGED | VERIFYING | ALLOWED | DENIED | REVOKED | EXPIRED.

#[export] Instance state_eq_dec : EqDecision state.
Proof. solve_decision. Defined.

Definition state_name (x : state) : value :=
  status (match x with
          | REGISTERED => "REGISTERED" | CHALLENGED => "CHALLENGED" | VERIFYING => "VERIFYING"
          | ALLOWED => "ALLOWED" | DENIED => "DENIED" | REVOKED => "REVOKED" | EXPIRED => "EXPIRED"
          end).

Abbreviation loc := nat.

Record Entry := MkEntry {
  e_binding : binding;
  e_deadline : Z;
  e_state : state;
  lease_deadline : Z;
  challenge_deadline : Z;
  e_verifier : option loc }.

Definition set_state (x : state) (e : Entry) : Entry :=
  MkEntry (e_binding e) (e_deadline e) x (lease_deadline e) (challenge_deadline e) (e_verifier e).

(** [BoundChallenge]: a challenge server for one binding. *)
Record BoundChallenge (V : Type) := MkBound {
  bc_server : AttestationServer V;
  bc_binding : binding;
  salt : pystr }.
Arguments MkBound {V}.
Arguments bc_server {V}.
Arguments bc_binding {V}.
Arguments salt {V}.

Record AdmissionRegistry (V : Type) := MkRegistry {
  controllers : list pystr;
  attestors : gmap pystr V;
  reg_maximum : Z;
  binding_ms : Z;
  challenge_ms : Z;
  lease_ms : Z;
  reg_instance : pystr;
  entries : gmap pystr loc;
  heap : list Entry;
  verifiers : list (BoundChallenge V) }.
Arguments MkRegistry {V}.
Arguments controllers {V}.
Arguments attestors {V}.
Arguments reg_maximum {V}.
Arguments binding_ms {V}.
Arguments challenge_ms {V}.
Arguments lease_ms {V}.
Arguments reg_instance {V}.
Arguments entries {V}.
Arguments heap {V}.
Arguments verifiers {V}.

Section registry.
Context `{Env} {V : Type} `{Verifier V}.
Notation registry := (AdmissionRegistry V).

Definition set_entries (m : gmap pystr loc) (r : registry) : registry :=
  MkRegistry (controllers r) (attestors r) (reg_maximum r) (binding_ms r) (challenge_ms r)
    (lease_ms r) (reg_instance r) m (heap r) (verifiers r).
Definition set_heap (h : list Entry) (r : registry) : registry :=
  MkRegistry (controllers r) (attestors r) (reg_maximum r) (binding_ms r) (challenge_ms r)
    (lease_ms r) (reg_instance r) (entries r) h (verifiers r).
Definition set_verifiers (l : list (BoundChallenge V)) (r : registry) : registry :=
  MkRegistry (controllers r) (attestors r) (reg_maximum r) (binding_ms r) (challenge_ms r)
    (lease_ms r) (reg_instance r) (entries r) (heap r) l.

Definition in_range (v lo hi : Z) : bool := (lo <=? v) && (v <=? hi).

(** [AdmissionRegistry(controllers, attestors, ...)]: the identities are
    decoded values, the attestors' keys are strings. *)
Definition new_registry (controllers : list value) (attestors : list (pystr * V))
    (maximum binding_ms challenge_ms lease_ms : Z) : st world registry :=
  cs ← lift (foldr (λ v r, x ← hex_value v 64; y ← r; Ok (x :: y)) (Ok []) controllers);
  _ ← lift (foldr (λ kv r, _ ← hex_value (VStr kv.1) 64; r) (Ok tt) attestors);
  _ ← raise_when (bool_decide (cs = []) || bool_decide (attestors = []) ||
        existsb (λ c, bool_decide (c ∈ attestors.*1)) cs) (ValueError "INVALID_ROLES");
  _ ← raise_when (negb (in_range maximum 1 4096 && in_range binding_ms 1 3600000 &&
        in_range challenge_ms 1 60000 && in_range lease_ms 1 60000)) (ValueError "INVALID_LIMIT");
  instance ← token_hex 16;
  mret (MkRegistry cs (list_to_map attestors) maximum binding_ms challenge_ms lease_ms instance
          ∅ [] []).

Definition on_clock : st (world * registry) Z := on_world clock.

Definition read_entry (l : loc) : st (world * registry) Entry := λ s,
  match heap s.2 !! l with Some e => (Ok e, s) | None => (Raise KeyError, s) end.
Definition update_entry (l : loc) (f : Entry → Entry) : st (world * registry) unit :=
  modify (λ s, (s.1, set_heap (alter f l (heap s.2)) s.2)).

(** The two expiry rules of [_status], and its reply. *)
Definition expire (now : Z) (entry : Entry) : Entry :=
  let entry := if negb (bool_decide (e_state entry = REVOKED)) && (e_deadline entry <=? now)
               then set_state EXPIRED entry else entry in
  if bool_decide (e_state entry = ALLOWED) && (lease_deadline entry <=? now)
  then set_state EXPIRED entry else entry.

(** [max(0, int(remaining * 1000))]: [int] truncates. *)
Definition remaining_ms (now : Z) (entry : Entry) : Z :=
  if bool_decide (e_state entry = ALLOWED)
  then Z.max 0 (Z.quot (Z.min (e_deadline entry) (lease_deadline entry) - now) ns_per_ms) else 0.

Definition status_reply (now : Z) (entry : Entry) : dict :=
  [(u "protocol_version", VStr PROTOCOL); (u "binding", VDict (binding_dict (e_binding entry)));
   (u "state", state_name (e_state entry)); (u "allow", VBool (bool_decide (e_state entry = ALLOWED)));
   (u "remaining_ms", VInt (remaining_ms now entry)); (u "provenance", status "operator_pinned_ak_lab")].

(** [_status(entry)] *)
Definition _status (l : loc) : st (world * registry) dict :=
  now ← on_clock;
  entry ← read_entry l;
  let entry := expire now entry in
  _ ← update_entry l (λ _, entry);
  mret (status_reply now entry).

(** Entries [_register] keeps. *)
Definition keeps (now : Z) (r : registry) (l : loc) : bool :=
  match heap r !! l with
  | Some e => (now <? e_deadline e) && negb (bool_decide (e_state e = REVOKED))
  | None => false
  end.
Definition kept (now : Z) (r : registry) : gmap pystr loc :=
  filter (λ kl, keeps now r kl.2 = true) (entries r).

Definition same_peer (identity session : pystr) (peer : Z) (e : Entry) : bool :=
  bool_decide (controller (e_binding e) = identity) &&
  bool_decide (game_session_id (e_binding e) = session) && (peer_id (e_binding e) =? peer).

Definition taken_by (identity session : pystr) (peer : Z) (r : registry) : bool :=
  existsb (λ kl, match heap r !! kl.2 with
                 | Some e => same_peer identity session peer e
                 | None => false
                 end) (map_to_list (entries r)).

Definition _register (identity : pystr) (message : dict) : st (world * registry) dict :=
  v ← lift (d_item message (u "game_session_id"));
  session ← lift (hex_value v 32);
  v ← lift (d_item message (u "attestor"));
  attestor ← lift (hex_value v 64);
  peer ← lift (d_item message (u "peer_id"));
  match peer with
  | VInt peer =>
      _ ← raise_when (negb (in_range peer 2 2147483647)) (ValueError "INVALID_PEER");
      self ← gets snd;
      _ ← raise_when (bool_decide (attestors self !! attestor = None)) (ValueError "UNKNOWN_ATTESTOR");
      now ← on_clock;
      _ ← modify (λ s, (s.1, set_entries (kept now s.2) s.2));
      self ← gets snd;
      _ ← raise_when (taken_by identity session peer self) (ValueError "PEER_ALREADY_REGISTERED");
      _ ← raise_when (reg_maximum self <=? map_size (entries self)) (ValueError "ADMISSION_LIMIT");
      admission_id ← on_world (token_hex 16);
      _ ← raise_when (bool_decide (is_Some (entries self !! admission_id))) (ValueError "ENTROPY_COLLISION");
      connection ← on_world (token_hex 32);
      let x := Binding (reg_instance self) admission_id session peer connection identity attestor in
      let l := length (heap self) in
      let entry := MkEntry x (now + binding_ms self * ns_per_ms) REGISTERED 0 0 None in
      _ ← modify (λ s, (s.1, set_entries (<[admission_id := l]> (entries s.2))
                               (set_heap (heap s.2 ++ [entry]) s.2)));
      _status l
  | _ => raise (ValueError "INVALID_PEER")
  end.

(** ** Dispatch *)

(** [AttestationServer] methods of the [BoundChallenge] at [l]. *)
Definition with_server {A} (l : loc) (m : st (world * AttestationServer V) A) :
    st (world * registry) A := λ s,
  match verifiers s.2 !! l with
  | None => (Raise KeyError, s)
  | Some x =>
      let '(r, (w, srv)) := m (s.1, bc_server x) in
      (r, (w, set_verifiers (<[l := MkBound srv (bc_binding x) (salt x)]> (verifiers s.2)) s.2))
  end.

(** [BoundChallenge(verifier, binding, ttl_ms, clock)]: a fresh object. *)
Definition new_bound (verifier : V) (x : binding) (ttl : Z) : st (world * registry) loc :=
  srv ← lift (new_server verifier ttl 1);
  salt ← on_world (token_hex 32);
  self ← gets snd;
  let l := length (verifiers self) in
  _ ← modify (λ s, (s.1, set_verifiers (verifiers s.2 ++ [MkBound srv x salt]) s.2));
  mret l.

Definition set_nonce (n : pystr) (c : challenge) : challenge :=
  Challenge (session_id c) n (created_at c) (expires_at c) (c_policy_id c) (requested c) (c_ak_sha256 c).

(** [BoundChallenge._issue(owner)]: the base class's challenge, its nonce bound. *)
Definition bound_issue (who : pystr) (x : binding) (salt : pystr) :
    st (world * AttestationServer V) challenge :=
  c ← issue who;
  n ← lift (bound_nonce x salt);
  let c := set_nonce n c in
  _ ← modify (λ s, (s.1, set_sessions (alter (λ y, Session (owner y) c (s_deadline y) (used y))
                                         (session_id c) (sessions s.2)) s.2));
  mret c.

(** A verification in flight: what the thread has in its local variables. *)
Record job := Job {
  j_identity : pystr;
  j_admission : pystr;
  j_entry : loc;
  j_verifier : loc;
  j_evidence : dict }.

(** The fields of each operation, beside [protocol_version] and [operation]. *)
Definition operation_fields : list (pystr * list pystr) :=
  [(u "register", [u "game_session_id"; u "peer_id"; u "attestor"]);
   (u "status", [u "admission_id"]); (u "revoke", [u "admission_id"]);
   (u "challenge", [u "admission_id"]); (u "submit", [u "admission_id"; u "evidence"])].

Fixpoint assoc {A} (l : list (pystr * A)) (k : pystr) : option A :=
  match l with [] => None | (k', x) :: l => if decide (k = k') then Some x else assoc l k end.

(** The schema checks of [dispatch]: the operation and the message. *)
Definition check_schema (message : value) : result (pystr * dict) :=
  match message with
  | VDict d =>
      raise_if! negb (match d_get d (u "protocol_version") with
                      | Some v => py_eq v (VStr PROTOCOL) | None => false end)
        then ValueError "INVALID_SCHEMA";
      match d_get d (u "operation") with
      | Some (VStr operation) =>
          match assoc operation_fields operation with
          | Some names =>
              raise_if! negb (same_keys d (u "protocol_version" :: u "operation" :: names))
                then ValueError "INVALID_SCHEMA";
              Ok (operation, d)
          | None => Raise (ValueError "INVALID_SCHEMA")
          end
      | _ => Raise (ValueError "INVALID_SCHEMA")
      end
  | _ => Raise (ValueError "INVALID_SCHEMA")
  end.

Definition is_controller_op (operation : pystr) : bool :=
  bool_decide (operation ∈ [u "register"; u "status"; u "revoke"]).

Definition in_role (operation identity : pystr) (r : registry) : bool :=
  if is_controller_op operation then bool_decide (identity ∈ controllers r)
  else bool_decide (is_Some (attestors r !! identity)).

Definition role_of (operation : pystr) (x : binding) : pystr :=
  if is_controller_op operation then controller x else attestor x.

(** A verification, or a challenge still within its time, is pending. *)
Definition challenge_pending (entry : Entry) : st (world * registry) bool :=
  if bool_decide (e_state entry = VERIFYING) then mret true
  else if bool_decide (e_state entry = CHALLENGED) then
    now ← on_clock; mret (now <? challenge_deadline entry)
  else mret false.

(** A new [BoundChallenge] for the entry, and its challenge. *)
Definition issue_bound (identity : pystr) (entry : Entry) :
    st (world * registry) (loc * pystr * challenge) :=
  self ← gets snd;
  v ← lift (match attestors self !! identity with Some v => Ok v | None => Raise KeyError end);
  vl ← new_bound v (e_binding entry) (challenge_ms self);
  self ← gets snd;
  bc ← lift (match verifiers self !! vl with Some x => Ok x | None => Raise KeyError end);
  c ← with_server vl (bound_issue identity (bc_binding bc) (salt bc));
  mret (vl, salt bc, c).

(** [operation == 'challenge'] on an entry that is not closed. *)
Definition challenge_op (identity : pystr) (l : loc) (entry : Entry) : st (world * registry) dict :=
  pending ← challenge_pending entry;
  _ ← raise_when pending (ValueError "CHALLENGE_PENDING");
  '(vl, salt, c) ← issue_bound identity entry;
  now ← on_clock;
  self ← gets snd;
  _ ← update_entry l (λ e, MkEntry (e_binding e) (e_deadline e) CHALLENGED (lease_deadline e)
                             (now + challenge_ms self * ns_per_ms) (Some vl));
  mret [(u "protocol_version", VStr PROTOCOL); (u "binding", VDict (binding_dict (e_binding entry)));
        (u "salt", VStr salt); (u "challenge", VDict (challenge_dict c))].

(** The first locked part of [dispatch]: a reply, or a verification to run. *)
Definition dispatch_begin (identity : pystr) (message : value) :
    st (world * registry) (dict + job) :=
  '(operation, d) ← lift (check_schema message);
  self ← gets snd;
  _ ← raise_when (negb (in_role operation identity self)) (ValueError "UNAUTHORIZED_ROLE");
  if bool_decide (operation = u "register") then reply ← _register identity d; mret (inl reply)
  else
  v ← lift (d_item d (u "admission_id"));
  aid ← lift (hex_value v 32);
  l ← lift (match entries self !! aid with
            | Some l => Ok l | None => Raise (ValueError "UNKNOWN_ADMISSION") end);
  entry ← read_entry l;
  _ ← raise_when (negb (bool_decide (identity = role_of operation (e_binding entry))))
        (ValueError "UNKNOWN_ADMISSION");
  if bool_decide (operation = u "status") then reply ← _status l; mret (inl reply)
  else if bool_decide (operation = u "revoke") then
    _ ← update_entry l (set_state REVOKED);
    reply ← _status l; mret (inl reply)
  else
  closed ← (if bool_decide (e_state entry = REVOKED) then mret true
            else now ← on_clock; mret (e_deadline entry <=? now));
  _ ← raise_when closed (ValueError "ADMISSION_CLOSED");
  if bool_decide (operation = u "challenge") then
    reply ← challenge_op identity l entry; mret (inl reply)
  else
  _ ← raise_when (negb (bool_decide (e_state entry = CHALLENGED))) (ValueError "NO_PENDING_CHALLENGE");
  evidence ← lift (d_item d (u "evidence"));
  match evidence with
  | VDict evidence =>
      _ ← update_entry l (set_state VERIFYING);
      match e_verifier entry with
      | Some vl => mret (inr (Job identity aid l vl evidence))
      | None => raise AttributeError
      end
  | _ => raise (ValueError "INVALID_SCHEMA")
  end.

(** [except Exception] *)
Definition is_Exception (e : exn) : bool :=
  match e with CancelledError | SystemExit _ => false | _ => true end.

(** The last locked part, on the outcome of [verifier.submit]. *)
Definition dispatch_finish (j : job) (outcome : result dict) : st (world * registry) dict :=
  match outcome with
  | Raise e =>
      _ ← (if is_Exception e then
             update_entry (j_entry j) (λ x,
               if bool_decide (e_state x = VERIFYING) then set_state DENIED x else x)
           else mret tt);
      raise e
  | Ok result =>
      self ← gets snd;
      entry ← read_entry (j_entry j);
      _ ← raise_when (negb (bool_decide (entries self !! j_admission j = Some (j_entry j))) ||
                      negb (bool_decide (e_state entry = VERIFYING))) (ValueError "ADMISSION_CLOSED");
      decision ← lift (d_item result (u "decision"));
      let x := if py_eq decision (status "ALLOW") then ALLOWED else DENIED in
      let issued := challenge_deadline entry - challenge_ms self * ns_per_ms in
      _ ← update_entry (j_entry j) (λ e,
            MkEntry (e_binding e) (e_deadline e) x
              (Z.min (e_deadline e) (issued + lease_ms self * ns_per_ms))
              (challenge_deadline e) (e_verifier e));
      reply ← _status (j_entry j);
      mret (d_set reply (u "attestation") (VDict result))
  end.

(** [verifier.submit(identity, evidence)], the outcome as a value. *)
Definition run_job (j : job) : st (world * registry) (result dict) := λ s,
  let '(r, s') := with_server (j_verifier j) (submit (j_identity j) (j_evidence j)) s in (Ok r, s').

(** [dispatch(identity, message)] with nothing in between. *)
Definition dispatch (identity : pystr) (message : value) : st (world * registry) dict :=
  start ← dispatch_begin identity message;
  match start with
  | inl reply => mret reply
  | inr j => outcome ← run_job j; dispatch_finish j outcome
  end.
End registry.

End Admission.
