(* ===== verification/AdmissionFacts.v ===== *)
(** * The operations of the admission registry, branch by branch *)

From S2P Require Import Prelude Bytes Sha256 Json JsonFacts JsonCanon Stream Env Dict.
From S2P Require Import Connection Attestation AttestationFacts AttestationServer Admission.
Import Json Attestation Admission.

Section facts.
Context `{Env} {V : Type} `{VerifierLaws V}.
Notation registry := (AdmissionRegistry V).
Implicit Types r : registry.

Lemma on_clock_inv w r a s' :
  on_clock (w, r) = (a, s') → ∃ w', s' = (w', r) ∧ a = Ok (mono w') ∧ mono w <= mono w'.
Proof.
  destruct s' as [w' r']. intros [E ->]%on_world_inv. apply clock_spec in E as [-> ?]. eauto.
Qed.

Lemma read_entry_inv l w r a s' :
  read_entry l (w, r) = (a, s') →
  s' = (w, r) ∧ ((heap r !! l = None ∧ a = Raise KeyError) ∨ ∃ e, heap r !! l = Some e ∧ a = Ok e).
Proof. unfold read_entry. cbn. case_match; intros [= <- <-]; eauto. Qed.

Lemma alter_lookup {A} (f : A → A) (l : list A) i x : l !! i = Some x → alter f i l = <[i := f x]> l.
Proof.
  intros Hx. apply list_eq. intros j. destruct (decide (i = j)) as [->|Hj].
  - rewrite list_lookup_alter_eq, Hx. cbn.
    symmetry. apply list_lookup_insert_eq. by eapply lookup_lt_Some.
  - rewrite list_lookup_alter_ne, list_lookup_insert_ne by done. done.
Qed.

(** [_status] on an entry of the heap. *)
Lemma status_spec l w r a w' r' e :
  _status l (w, r) = (a, (w', r')) → heap r !! l = Some e →
  mono w <= mono w' ∧ a = Ok (status_reply (mono w') (expire (mono w') e)) ∧
  r' = set_heap (<[l := expire (mono w') e]> (heap r)) r.
Proof.
  unfold _status. intros Hs He.
  apply st_bind_inv in Hs as (a1 & s1 & E & Hs). apply on_clock_inv in E as (w1 & -> & -> & Hclk).
  apply st_bind_inv in Hs as (a1 & s1 & E & Hs).
  apply read_entry_inv in E as (-> & [[Hn _]|(e1 & He1 & ->)]); [congruence|].
  rewrite He in He1. injection He1 as <-.
  apply st_bind_inv in Hs as (a1 & s1 & [= <- <-] & Hs). injection Hs as <- <- <-.
  split_and!; [done|done|]. cbn. by rewrite (alter_lookup _ _ _ e He).
Qed.

(** What one entry may become: the binding and the deadline are fixed for life,
    and a revoked entry stays revoked. *)
Definition entry_evolves (e e' : Entry) : Prop :=
  e_binding e' = e_binding e ∧ e_deadline e' = e_deadline e ∧
  (e_state e = REVOKED → e_state e' = REVOKED).

Definition bound_evolves (x x' : BoundChallenge V) : Prop :=
  bc_binding x' = bc_binding x ∧ salt x' = salt x ∧
  srv_verifier (bc_server x') = srv_verifier (bc_server x) .

Record evolves (r r' : registry) : Prop := {
  ev_static : controllers r' = controllers r ∧ attestors r' = attestors r ∧
    reg_maximum r' = reg_maximum r ∧ binding_ms r' = binding_ms r ∧
    challenge_ms r' = challenge_ms r ∧ lease_ms r' = lease_ms r ∧ reg_instance r' = reg_instance r;
  ev_heap : ∀ l e, heap r !! l = Some e → ∃ e', heap r' !! l = Some e' ∧ entry_evolves e e';
  ev_bound : ∀ l x, verifiers r !! l = Some x → ∃ x', verifiers r' !! l = Some x' ∧ bound_evolves x x' }.

#[export] Instance evolves_preorder : PreOrder evolves.
Proof.
  split.
  - intros r. split; [done|intros l e ->; by exists e|intros l x ->; by exists x].
  - intros r1 r2 r3 [S1 H1' B1] [S2 H2' B2]. split.
    + naive_solver congruence.
    + intros l e (e2 & He2 & ? & ? & ?)%H1'. apply H2' in He2 as (e3 & ? & ? & ? & ?).
      exists e3. split; [done|]. unfold entry_evolves. split_and!; [congruence..|auto].
    + intros l x (x2 & Hx2 & ? & ? & ?)%B1. apply B2 in Hx2 as (x3 & ? & ? & ? & ?).
      exists x3. split; [done|]. unfold bound_evolves. split_and!; congruence.
Qed.

Lemma evolves_heap r l e e' :
  heap r !! l = Some e → entry_evolves e e' → evolves r (set_heap (<[l := e']> (heap r)) r).
Proof.
  intros He Hev. split; [done| |intros k x Hx; by exists x].
  intros k e1 Hk. cbn. destruct (decide (k = l)) as [->|].
  - rewrite list_lookup_insert_eq by (by eapply lookup_lt_Some).
    assert (e1 = e) as -> by congruence. by exists e'.
  - rewrite list_lookup_insert_ne by done. by exists e1.
Qed.

Lemma expire_evolves now e : entry_evolves e (expire now e).
Proof.
  destruct e as [x d s ld cd vl]. unfold expire, set_state. cbn.
  destruct s; cbn; repeat case_match; cbn; try done; by split_and!.
Qed.

Lemma expire_allowed now e :
  e_state (expire now e) = ALLOWED →
  expire now e = e ∧ now < e_deadline e ∧ now < lease_deadline e.
Proof.
  destruct e as [x d s ld cd vl]. unfold expire, set_state. cbn.
  destruct s; cbn; repeat (case_match; cbn); try done. intros _. cbn in *.
  rewrite (bool_decide_eq_false_2 (ALLOWED = REVOKED)) in * by done.
  rewrite (bool_decide_eq_true_2 (ALLOWED = ALLOWED)) in * by done. cbn in *. by bools.
Qed.

(** *** Challenge verifiers *)

Definition nonce_of (x : binding) (salt : pystr) : pystr := sha256_hex (nonce_data x salt).

Lemma bound_nonce_Ok x salt :
  len salt = 64 ∧ forallb is_hex salt = true → bound_nonce x salt = Ok (nonce_of x salt).
Proof. intros [Hl Hx]. unfold bound_nonce, hex_value. by rewrite Hl, Hx. Qed.

(** Every challenge of a [BoundChallenge] carries its binding's nonce, is owned
    by the binding's attestor, and is checked by that attestor's verifier. *)
Record bc_ok (att : gmap pystr V) (x : BoundChallenge V) : Prop := {
  bc_salt : len (salt x) = 64 ∧ forallb is_hex (salt x) = true;
  bc_sessions : map_Forall (λ _ y, nonce (s_challenge y) = nonce_of (bc_binding x) (salt x) ∧
                                   owner y = attestor (bc_binding x)) (sessions (bc_server x));
  bc_verifier : att !! attestor (bc_binding x) = Some (srv_verifier (bc_server x)) }.

Lemma bound_issue_spec att x who w a w' srv' :
  bound_issue who (bc_binding x) (salt x) (w, bc_server x) = (a, (w', srv')) →
  bc_ok att x → who = attestor (bc_binding x) →
  mono w <= mono w' ∧ srv_verifier srv' = srv_verifier (bc_server x) ∧
  bc_ok att (MkBound srv' (bc_binding x) (salt x)) ∧
  ((∃ e, a = Raise (ValueError e)) ∨
   ∃ c, a = Ok c ∧ nonce c = nonce_of (bc_binding x) (salt x)).
Proof.
  unfold bound_issue. intros Hi [Hsalt Hsess Hver] ->.
  apply st_bind_inv in Hi as (a1 & [w1 s1] & E & Hi).
  apply issue_spec in E as (t & Ht & _ & Hv & _ & _ & E).
  assert (Hlive : map_Forall (λ _ y, nonce (s_challenge y) = nonce_of (bc_binding x) (salt x) ∧
            owner y = attestor (bc_binding x)) (live t (bc_server x))).
  { intros k y [Hk _]%map_lookup_filter_Some. by eapply Hsess. }
  destruct E as [(e & -> & E)|(c & -> & Hfresh & E & _)].
  { destruct Hi as [-> [= -> ->]]. split_and!; [lia|done| |left; by eexists].
    split; cbn; [done|by rewrite E|by rewrite Hv]. }
  rewrite bound_nonce_Ok in Hi by done. injection Hi as <- <- <-. cbn [sessions set_sessions].
  split_and!; [lia|done| |right; by eexists].
  split; cbn; [done| |by rewrite Hv].
  rewrite E. rewrite alter_insert_eq. apply map_Forall_insert_2; done.
Qed.

Lemma with_server_inv {A} l (m : st (world * AttestationServer V) A) w r a w' r' :
  with_server l m (w, r) = (a, (w', r')) →
  (verifiers r !! l = None ∧ a = Raise KeyError ∧ w' = w ∧ r' = r) ∨
  ∃ x srv', verifiers r !! l = Some x ∧ m (w, bc_server x) = (a, (w', srv')) ∧
    r' = set_verifiers (<[l := MkBound srv' (bc_binding x) (salt x)]> (verifiers r)) r.
Proof.
  unfold with_server. cbn. destruct (verifiers r !! l) as [x|]; [|intros [= <- <- <-]; by left].
  destruct (m _) as [a1 [w1 srv1]] eqn:E. intros [= <- <- <-]. right. by exists x, srv1.
Qed.

Lemma evolves_verifiers r l x x' :
  verifiers r !! l = Some x → bound_evolves x x' →
  evolves r (set_verifiers (<[l := x']> (verifiers r)) r).
Proof.
  intros Hx Hev. split; [done|intros k e He; by exists e|].
  intros k y Hk. cbn. destruct (decide (k = l)) as [->|].
  - rewrite list_lookup_insert_eq by (by eapply lookup_lt_Some).
    assert (y = x) as -> by congruence. by exists x'.
  - rewrite list_lookup_insert_ne by done. by exists y.
Qed.

Lemma evolves_new_verifier r x : evolves r (set_verifiers (verifiers r ++ [x]) r).
Proof.
  split; [done|intros k e He; by exists e|]. intros k y Hk. cbn.
  exists y. split; [|done]. by apply lookup_app_l_Some.
Qed.

(** *** The registry invariant *)

(** A verification that ran: for which entry, on which evidence and challenge,
    with which reply. *)
Definition verdict_log : Type := list (loc * dict * challenge * dict).

Definition admitted (log : verdict_log) (l : loc) (x : binding) : Prop :=
  ∃ evidence salt c reply, (l, evidence, c, reply) ∈ log ∧
    nonce c = nonce_of x salt ∧ decision reply = Some (status "ALLOW").

Record entry_ok (now : Z) r (log : verdict_log) (l : loc) (e : Entry) : Prop := {
  eo_verifier : ∀ vl, e_verifier e = Some vl →
    ∃ x, verifiers r !! vl = Some x ∧ bc_binding x = e_binding e;
  eo_pending : e_state e = CHALLENGED ∨ e_state e = VERIFYING ∨ e_state e = ALLOWED →
    is_Some (e_verifier e);
  eo_challenge : is_Some (e_verifier e) → challenge_deadline e <= now + challenge_ms r * ns_per_ms;
  eo_attestor : is_Some (attestors r !! attestor (e_binding e));
  eo_lease : e_state e = ALLOWED →
    lease_deadline e = Z.min (e_deadline e)
      (challenge_deadline e - challenge_ms r * ns_per_ms + lease_ms r * ns_per_ms) ∧
    admitted log l (e_binding e) }.

Record reg_ok (now : Z) r (log : verdict_log) : Prop := {
  ro_entries : ∀ id l, entries r !! id = Some l →
    ∃ e, heap r !! l = Some e ∧ admission_id (e_binding e) = id;
  ro_size : map_size (entries r) <= reg_maximum r;
  ro_unique : ∀ id1 id2 l1 l2 e1 e2,
    entries r !! id1 = Some l1 → entries r !! id2 = Some l2 →
    heap r !! l1 = Some e1 → heap r !! l2 = Some e2 →
    same_peer (controller (e_binding e2)) (game_session_id (e_binding e2))
              (peer_id (e_binding e2)) e1 = true → id1 = id2;
  ro_bound : ∀ l x, verifiers r !! l = Some x → bc_ok (attestors r) x;
  ro_heap : ∀ l e, heap r !! l = Some e → entry_ok now r log l e }.

Lemma entry_ok_mono now now' r r' log log' l e :
  now <= now' → evolves r r' → log ⊆ log' → entry_ok now r log l e → entry_ok now' r' log' l e.
Proof.
  intros Ht [S Hh Hb] Hl [E1 E2 E3 E4 E5]. destruct S as (_ & Sa & _ & _ & Sc & Sl & _).
  split; rewrite ?Sa, ?Sc, ?Sl; try done.
  - intros vl Hvl. apply E1 in Hvl as (x & Hx & Hxb). apply Hb in Hx as (x' & ? & Hxb' & _).
    exists x'. split; [done|congruence].
  - intros Hs. specialize (E3 Hs). lia.
  - intros Ha. destruct (E5 Ha) as [? (ev & sa & c & rep & Hin & ?)]. split; [done|].
    exists ev, sa, c, rep. split; [by apply Hl|done].
Qed.
End facts.
