(* ===== verification/AdmissionSafety.v ===== *)
(** * The admission registry under any interleaving

    The registry invariant is preserved by every locked step, whatever the
    order in which the steps of concurrent requests happen; what a status
    reply that allows a connection therefore guarantees. *)

From S2P Require Import Prelude Bytes Sha256 Json JsonFacts JsonCanon Stream Env Dict.
From S2P Require Import Connection Attestation AttestationFacts AttestationServer Admission AdmissionFacts.
Import Json Attestation Admission.

Section safety.
Context `{Env} {V : Type} `{VerifierLaws V}.
Notation registry := (AdmissionRegistry V).
Implicit Types r : registry.

Lemma reg_ok_later now now' r log log' :
  now <= now' → log ⊆ log' → reg_ok now r log → reg_ok now' r log'.
Proof.
  intros Ht Hl [R1 R2 R3 R4 R5]. split; try done. intros l e He.
  by eapply entry_ok_mono; [exact Ht|reflexivity|exact Hl|apply R5].
Qed.

(** One entry changes. *)
Lemma reg_ok_heap now r log l e e' :
  reg_ok now r log → heap r !! l = Some e → entry_evolves e e' → entry_ok now r log l e' →
  reg_ok now (set_heap (<[l := e']> (heap r)) r) log.
Proof.
  intros [R1 R2 R3 R4 R5] He Hev Hok.
  assert (Hback : ∀ k y, <[l := e']> (heap r) !! k = Some y →
    ∃ y0, heap r !! k = Some y0 ∧ e_binding y = e_binding y0).
  { intros k y Hk. apply list_lookup_insert_Some in Hk as [(<- & <- & _)|[_ Hk]];
      [exists e; split; [done|apply Hev]|by exists y]. }
  pose proof (evolves_heap r l e e' He Hev) as Hevol.
  split; cbn [entries heap reg_maximum verifiers set_heap attestors]; try done.
  - intros id k Hid. destruct (R1 id k Hid) as (y & Hy & <-).
    destruct (ev_heap _ _ Hevol k y Hy) as (y' & Hy' & Hb & _). exists y'. split; [done|by rewrite Hb].
  - intros id1 id2 l1 l2 y1 y2 Hi1 Hi2 (z1 & Hz1 & B1)%Hback (z2 & Hz2 & B2)%Hback Hp.
    unfold same_peer in *. rewrite B1, B2 in Hp. by eapply R3.
  - intros k y Hk. eapply entry_ok_mono; [reflexivity|exact Hevol|done|].
    apply list_lookup_insert_Some in Hk as [(<- & <- & _)|[_ Hk]]; [done|by apply R5].
Qed.

(** One verifier changes, or a new one is made. *)
Lemma reg_ok_verifier now r log l x x' :
  reg_ok now r log → verifiers r !! l = Some x → bound_evolves x x' → bc_ok (attestors r) x' →
  reg_ok now (set_verifiers (<[l := x']> (verifiers r)) r) log.
Proof.
  intros [R1 R2 R3 R4 R5] Hx Hev Hok. pose proof (evolves_verifiers r l x x' Hx Hev) as Hevol.
  split; cbn [entries heap reg_maximum verifiers set_verifiers attestors]; try done.
  - intros k y [(<- & <- & _)|[_ Hk]]%list_lookup_insert_Some; [done|by eapply R4].
  - intros k e He. eapply entry_ok_mono; [reflexivity|exact Hevol|done|by apply R5].
Qed.

Lemma reg_ok_new_verifier now r log x :
  reg_ok now r log → bc_ok (attestors r) x →
  reg_ok now (set_verifiers (verifiers r ++ [x]) r) log.
Proof.
  intros [R1 R2 R3 R4 R5] Hok. pose proof (evolves_new_verifier r x) as Hevol.
  split; cbn [entries heap reg_maximum verifiers set_verifiers attestors]; try done.
  - intros k y [Hk|[_ Hk]]%lookup_app_Some; [by eapply R4|].
    apply list_lookup_singleton_Some in Hk as [_ <-]. done.
  - intros k e He. eapply entry_ok_mono; [reflexivity|exact Hevol|done|by apply R5].
Qed.

(** An entry put in a state that promises nothing. *)
Lemma entry_ok_set now r log l e x :
  x ≠ CHALLENGED → x ≠ VERIFYING → x ≠ ALLOWED →
  entry_ok now r log l e → entry_ok now r log l (set_state x e).
Proof. intros N1 N2 N3 [E1 E2 E3 E4 E5]. split; cbn; try done. by intros [?|[?|?]]. Qed.

Lemma entry_ok_expire now t r log l e :
  entry_ok now r log l e → entry_ok now r log l (expire t e).
Proof. unfold expire. intros He. repeat case_match; by repeat apply entry_ok_set. Qed.

Lemma status_ok l w r a w' r' e log :
  _status l (w, r) = (a, (w', r')) → heap r !! l = Some e → reg_ok (mono w) r log →
  mono w <= mono w' ∧ evolves r r' ∧ reg_ok (mono w') r' log.
Proof.
  intros Hs He Hok. apply (status_spec _ _ _ _ _ _ e) in Hs as (Ht & -> & ->); [|done].
  split; [done|]. split; [by apply (evolves_heap r l e), expire_evolves|].
  apply (reg_ok_later _ (mono w') _ _ log) in Hok; [|done..].
  eapply reg_ok_heap; [done..|apply expire_evolves|]. by apply entry_ok_expire, Hok.
Qed.

(** *** Replies *)

(** What a reply with [allow] true says of the registry it was made from. *)
Definition allow_ok (now : Z) r (reply : dict) : Prop :=
  d_get reply (u "allow") = Some (VBool true) →
  ∃ l e, heap r !! l = Some e ∧ e_state e = ALLOWED ∧ now < e_deadline e ∧ now < lease_deadline e ∧
    d_get reply (u "binding") = Some (VDict (binding_dict (e_binding e))) ∧
    d_get reply (u "remaining_ms") = Some (VInt (remaining_ms now e)).

Lemma status_reply_allow l w r a w' r' e :
  _status l (w, r) = (a, (w', r')) → heap r !! l = Some e →
  ∃ reply, a = Ok reply ∧ allow_ok (mono w') r' reply.
Proof.
  intros Hs He. apply (status_spec _ _ _ _ _ _ e) in Hs as (_ & -> & ->); [|done].
  eexists. split; [done|]. intros Ha. exists l, (expire (mono w') e).
  assert (Hst : e_state (expire (mono w') e) = ALLOWED).
  { cbn in Ha. injection Ha as Ha. by apply bool_decide_eq_true in Ha. }
  pose proof (expire_allowed _ _ Hst) as (E & ? & ?). rewrite E in *.
  split_and!; try done. cbn. apply list_lookup_insert_eq. by eapply lookup_lt_Some.
Qed.

(** *** Registration *)

Lemma kept_subset now r : kept now r ⊆ entries r.
Proof. apply map_filter_subseteq. Qed.

Lemma evolves_entries m r : evolves r (set_entries m r).
Proof. split; [done|intros l e He; by exists e|intros l x Hx; by exists x]. Qed.

Lemma reg_ok_kept now t r log : reg_ok now r log → reg_ok now (set_entries (kept t r) r) log.
Proof.
  intros [R1 R2 R3 R4 R5]. split; cbn [entries heap reg_maximum verifiers set_entries attestors]; try done.
  - intros id l Hid. eapply R1, lookup_weaken, kept_subset. done.
  - pose proof (map_size_filter (λ kl, keeps t r kl.2 = true) (entries r)) as Hs.
    unfold kept. lia.
  - intros id1 id2 l1 l2 e1 e2 Hi1 Hi2. eapply R3; eapply lookup_weaken, kept_subset; done.
  - intros l e He. eapply entry_ok_mono; [reflexivity|apply evolves_entries|done|by apply R5].
Qed.

Lemma taken_by_false identity session peer r id l e :
  taken_by identity session peer r = false → entries r !! id = Some l → heap r !! l = Some e →
  same_peer identity session peer e = false.
Proof.
  unfold taken_by. intros Ht Hid He. apply not_true_is_false. intros Hs.
  apply not_true_iff_false in Ht. apply Ht, existsb_exists. exists (id, l).
  split; [by apply list_elem_of_In, elem_of_map_to_list|]. cbn. by rewrite He.
Qed.

Lemma same_peer_sym e1 e2 :
  same_peer (controller (e_binding e2)) (game_session_id (e_binding e2)) (peer_id (e_binding e2)) e1 =
  same_peer (controller (e_binding e1)) (game_session_id (e_binding e1)) (peer_id (e_binding e1)) e2.
Proof.
  unfold same_peer. f_equal; [f_equal|]; [apply bool_decide_ext; split; congruence..|].
  apply Z.eqb_sym.
Qed.

Definition insert_entry (id : pystr) (e : Entry) r : registry :=
  set_entries (<[id := length (heap r)]> (entries r)) (set_heap (heap r ++ [e]) r).

Lemma evolves_insert id e r : evolves r (insert_entry id e r).
Proof.
  split; [done| |intros k x Hx; by exists x].
  intros l y Hy. exists y. split; [by apply lookup_app_l_Some|done].
Qed.

Lemma reg_ok_insert now r log id e :
  reg_ok now r log → admission_id (e_binding e) = id → entries r !! id = None →
  taken_by (controller (e_binding e)) (game_session_id (e_binding e)) (peer_id (e_binding e)) r = false →
  map_size (entries r) < reg_maximum r →
  entry_ok now r log (length (heap r)) e → reg_ok now (insert_entry id e r) log.
Proof.
  intros [R1 R2 R3 R4 R5] Hid Hfresh Htaken Hsize Hok.
  pose proof (evolves_insert id e r) as Hevol.
  assert (Hnew : ∀ k y, (heap r ++ [e]) !! k = Some y →
    heap r !! k = Some y ∨ k = length (heap r) ∧ y = e).
  { intros k y [Hk|[Hge Hk]]%lookup_app_Some; [by left|right].
    apply list_lookup_singleton_Some in Hk as [? <-]. split; [lia|done]. }
  assert (Hold : ∀ k l, entries r !! k = Some l → l ≠ length (heap r)).
  { intros k l Hk ->. apply R1 in Hk as (y & Hy & _). apply lookup_lt_Some in Hy. lia. }
  split; cbn [entries heap reg_maximum verifiers insert_entry set_entries set_heap attestors]; try done.
  - intros k l [[<- <-]|[_ Hk]]%lookup_insert_Some.
    + exists e. split; [|done]. by apply list_lookup_middle.
    + destruct (R1 k l Hk) as (y & Hy & ?). exists y. split; [by apply lookup_app_l_Some|done].
  - unfold map_size in *. rewrite map_size_insert_None by done. lia.
  - intros id1 id2 l1 l2 e1 e2 Hi1 Hi2 He1 He2 Hp.
    apply lookup_insert_Some in Hi1 as [[<- <-]|[N1 Hi1]], Hi2 as [[<- <-]|[N2 Hi2]].
    + done.
    + apply Hnew in He1 as [He1|[_ ->]]; [apply lookup_lt_Some in He1; lia|].
      apply Hnew in He2 as [He2|[-> _]]; [|by destruct (Hold _ _ Hi2)].
      rewrite same_peer_sym, (taken_by_false _ _ _ _ _ _ _ Htaken Hi2 He2) in Hp. done.
    + apply Hnew in He2 as [He2|[_ ->]]; [apply lookup_lt_Some in He2; lia|].
      apply Hnew in He1 as [He1|[-> _]]; [|by destruct (Hold _ _ Hi1)].
      rewrite (taken_by_false _ _ _ _ _ _ _ Htaken Hi1 He1) in Hp. done.
    + apply Hnew in He1 as [He1|[-> _]]; [|by destruct (Hold _ _ Hi1)].
      apply Hnew in He2 as [He2|[-> _]]; [|by destruct (Hold _ _ Hi2)].
      by eapply R3.
  - intros k y Hk. eapply entry_ok_mono; [reflexivity|exact Hevol|done|].
    apply Hnew in Hk as [Hk|[-> ->]]; [by apply R5|done].
Qed.

(** What every locked part keeps: time passes, the registry evolves, and its
    invariant holds again. *)
Definition sound (log : verdict_log) (w : world) r (w' : world) r' : Prop :=
  mono w <= mono w' ∧ evolves r r' ∧ reg_ok (mono w') r' log.

Lemma sound_refl log w r : reg_ok (mono w) r log → sound log w r w r.
Proof. done. Qed.

Lemma sound_later log w r w' : reg_ok (mono w) r log → mono w <= mono w' → sound log w r w' r.
Proof. intros Hok Ht. split_and!; [done|done|]. by eapply reg_ok_later. Qed.

Lemma sound_trans log w r w1 r1 w2 r2 :
  sound log w r w1 r1 → sound log w1 r1 w2 r2 → sound log w r w2 r2.
Proof. intros (? & ? & _) (? & ? & ?). split_and!; [lia|by etrans|done]. Qed.

Lemma register_ok identity message w r a w' r' log :
  _register identity message (w, r) = (a, (w', r')) → reg_ok (mono w) r log →
  sound log w r w' r' ∧ ∀ reply, a = Ok reply → allow_ok (mono w') r' reply.
Proof.
  unfold _register. intros Hi Hok.
  assert (Hstop : ∀ e : exn, a = Raise e ∧ (w', r') = (w, r) →
    sound log w r w' r' ∧ ∀ reply, a = Ok reply → allow_ok (mono w') r' reply).
  { by intros e [-> [= -> ->]]. }
  apply st_bind_inv in Hi as ([v1|?] & s1 & E & Hi); apply lift_inv in E as [_ ->]; [|by eauto].
  apply st_bind_inv in Hi as ([session|?] & s1 & E & Hi); apply lift_inv in E as [_ ->]; [|by eauto].
  apply st_bind_inv in Hi as ([v2|?] & s1 & E & Hi); apply lift_inv in E as [_ ->]; [|by eauto].
  apply st_bind_inv in Hi as ([att|?] & s1 & E & Hi); apply lift_inv in E as [_ ->]; [|by eauto].
  apply st_bind_inv in Hi as ([peer|?] & s1 & E & Hi); apply lift_inv in E as [_ ->]; [|by eauto].
  destruct peer as [| |peer| | | |]; try (injection Hi as <- <- <-; by split; [apply sound_refl|]).
  apply st_bind_inv in Hi as (a1 & s1 & E & Hi).
  apply raise_when_spec in E as (-> & [[_ ->]|[_ ->]]); [|by eauto].
  apply st_bind_inv in Hi as (a1 & s1 & [= <- <-] & Hi). cbn [snd] in Hi.
  apply st_bind_inv in Hi as (a1 & s1 & E & Hi).
  apply raise_when_spec in E as (-> & [[Hatt ->]|[_ ->]]); [|by eauto]. clear Hstop. bools.
  apply st_bind_inv in Hi as (a1 & s1 & E & Hi). apply on_clock_inv in E as (w1 & -> & -> & Ht1).
  apply st_bind_inv in Hi as (a1 & s1 & [= <- <-] & Hi). cbn [fst snd] in Hi.
  set (r1 := set_entries (kept (mono w1) r) r) in *.
  assert (Hok1 : sound log w r w1 r1).
  { split; [done|]. split; [apply evolves_entries|]. apply reg_ok_kept. by eapply reg_ok_later. }
  apply st_bind_inv in Hi as (a1 & s1 & [= <- <-] & Hi). cbn [snd] in Hi.
  apply st_bind_inv in Hi as (a1 & s1 & E & Hi).
  apply raise_when_spec in E as (-> & [[Htaken ->]|[_ ->]]); [|by destruct Hi as [-> [= -> ->]]].
  apply st_bind_inv in Hi as (a1 & s1 & E & Hi).
  apply raise_when_spec in E as (-> & [[Hsize ->]|[_ ->]]); [|by destruct Hi as [-> [= -> ->]]].
  apply st_bind_inv in Hi as (a1 & [w2 r2] & E & Hi). apply on_world_inv in E as [E ->].
  apply token_hex_spec in E as (Ht2 & id & -> & _).
  apply st_bind_inv in Hi as (a1 & s1 & E & Hi).
  apply raise_when_spec in E as (-> & [[Hfresh ->]|[_ ->]]).
  2:{ destruct Hi as [-> [= -> ->]]. split; [|done]. eapply sound_trans; [exact Hok1|].
      apply sound_later; [apply Hok1|lia]. }
  apply st_bind_inv in Hi as (a1 & [w3 r3] & E & Hi). apply on_world_inv in E as [E ->].
  apply token_hex_spec in E as (Ht3 & conn & -> & _).
  apply st_bind_inv in Hi as (a1 & s1 & [= <- <-] & Hi). cbn [fst snd] in Hi. bools.
  set (e := MkEntry _ _ _ _ _ _) in Hi.
  change (set_entries _ _) with (insert_entry id e r1) in Hi.
  assert (He : heap (insert_entry id e r1) !! length (heap r1) = Some e) by (by apply list_lookup_middle).
  assert (Hins : sound log w1 r1 w3 (insert_entry id e r1)).
  { split; [lia|]. split; [apply evolves_insert|].
    apply reg_ok_insert; try done.
    - eapply reg_ok_later; [|done|apply Hok1]. lia.
    - apply eq_None_not_Some. done.
    - split; cbn; try done; [by intros [?|[?|?]]|].
      destruct (attestors r !! att); [by eexists|done]. }
  split.
  - do 2 (eapply sound_trans; [eassumption|]). by eapply status_ok; [exact Hi|exact He|apply Hins].
  - eapply status_reply_allow in Hi as (reply & -> & ?); [|exact He]. by intros ? [= <-].
Qed.

Lemma new_bound_inv v x ttl w r a w' r' :
  new_bound v x ttl (w, r) = (a, (w', r')) →
  mono w <= mono w' ∧
  ((∃ e, a = Raise e ∧ r' = r) ∨
   ∃ sa, a = Ok (length (verifiers r)) ∧ len sa = 64 ∧ forallb is_hex sa = true ∧
     r' = set_verifiers (verifiers r ++ [MkBound (Server (v_policy_id v) v ttl 1 ∅) x sa]) r).
Proof.
  unfold new_bound. intros Hi.
  apply st_bind_inv in Hi as ([srv|e] & s1 & E & Hi); apply lift_inv in E as [Es ->].
  2:{ destruct Hi as [-> [= -> ->]]. split; [done|]. left. by eexists. }
  unfold new_server in Es. py_inv.
  apply st_bind_inv in Hi as (a1 & [w2 r2] & E & Hi). apply on_world_inv in E as [E ->].
  apply token_hex_spec in E as (Ht & sa & -> & Hl & Hx).
  apply st_bind_inv in Hi as (a1 & s1 & [= <- <-] & Hi). cbn [snd] in Hi.
  apply st_bind_inv in Hi as (a1 & s1 & [= <- <-] & Hi). injection Hi as <- <- <-.
  split; [lia|]. right. by exists sa.
Qed.

Lemma challenge_pending_inv entry w r a w' r' :
  challenge_pending entry (w, r) = (a, (w', r')) →
  mono w <= mono w' ∧ r' = r ∧ ∃ pending, a = Ok pending ∧
    (pending = false → e_state entry ≠ VERIFYING ∧
       (e_state entry = CHALLENGED → challenge_deadline entry <= mono w')).
Proof.
  unfold challenge_pending. intros Hi.
  destruct (bool_decide (e_state entry = VERIFYING)) eqn:E1.
  { injection Hi as <- <- <-. split_and!; [done..|]. by eexists. }
  destruct (bool_decide (e_state entry = CHALLENGED)) eqn:E2; bools.
  - apply st_bind_inv in Hi as (a2 & s1 & E & E'). apply on_clock_inv in E as (w1 & -> & -> & Ht).
    injection E' as <- <- <-. split_and!; [done..|]. eexists. split; [done|].
    intros ?. bools. by split.
  - injection Hi as <- <- <-. split_and!; [done..|]. by eexists.
Qed.

Lemma issue_bound_ok identity entry w r a w' r' log :
  issue_bound identity entry (w, r) = (a, (w', r')) →
  attestor (e_binding entry) = identity → reg_ok (mono w) r log →
  sound log w r w' r' ∧ heap r' = heap r ∧
  ((∃ e, a = Raise e) ∨
   ∃ vl sa c x, a = Ok (vl, sa, c) ∧ nonce c = nonce_of (e_binding entry) sa ∧
     verifiers r' !! vl = Some x ∧ bc_binding x = e_binding entry).
Proof.
  unfold issue_bound. intros Hi Hatt Hok.
  apply st_bind_inv in Hi as (a1 & s1 & [= <- <-] & Hi). cbn [snd] in Hi.
  apply st_bind_inv in Hi as ([v|e] & s1 & E & Hi); apply lift_inv in E as [Ev ->].
  2:{ destruct Hi as [-> [= -> ->]]. split_and!; [done..|]. left. by eexists. }
  destruct (attestors r !! identity) as [v'|] eqn:Hv; [|done]. injection Ev as ->.
  apply st_bind_inv in Hi as (a1 & [w1 r1] & E & Hi).
  apply new_bound_inv in E as (Ht1 & [(e & -> & ->)|(sa & -> & Hsl & Hsx & ->)]).
  { destruct Hi as [-> [= -> ->]]. split_and!; [by apply sound_later|done|left; by eexists]. }
  apply st_bind_inv in Hi as (a1 & s1 & [= <- <-] & Hi). cbn [snd] in Hi.
  set (x0 := MkBound _ _ _) in Hi. set (r1 := set_verifiers (verifiers r ++ [x0]) r) in *.
  assert (Hx0 : bc_ok (attestors r) x0).
  { split; cbn; [done|apply map_Forall_empty|]. by rewrite Hatt. }
  assert (Hlook : verifiers r1 !! length (verifiers r) = Some x0) by by apply list_lookup_middle.
  assert (Hok1 : sound log w r w1 r1).
  { split; [done|]. split; [apply evolves_new_verifier|].
    apply reg_ok_new_verifier; [|done]. by eapply reg_ok_later. }
  apply st_bind_inv in Hi as (a1 & s1 & E & Hi). apply lift_inv in E as [E ->].
  rewrite Hlook in E. subst a1.
  apply st_bind_inv in Hi as (a1 & [w2 r2] & E & Hi).
  apply with_server_inv in E as [(E & _)|(x & srv' & Hx & E & ->)]; [congruence|].
  rewrite Hlook in Hx. injection Hx as <-.
  apply (bound_issue_spec (attestors r)) in E as (Ht2 & Hsv & Hbc & Ha); [|done|done].
  assert (Hok2 : sound log w1 r1 w2
    (set_verifiers (<[length (verifiers r) := MkBound srv' (bc_binding x0) (salt x0)]> (verifiers r1)) r1)).
  { split; [done|]. split; [eapply evolves_verifiers; [done|]; by split|].
    eapply reg_ok_verifier; [|done|by split|done]. by eapply reg_ok_later; [| |apply Hok1]. }
  pose proof (sound_trans _ _ _ _ _ _ _ Hok1 Hok2) as Hok3.
  destruct Ha as [(e & ->)|(c & -> & Hn)].
  { destruct Hi as [-> [= -> ->]]. split_and!; [done..|]. left. by eexists. }
  injection Hi as <- <- <-. split_and!; [done..|]. right. do 4 eexists. split_and!; [done..| |].
  - apply list_lookup_insert_eq. by eapply lookup_lt_Some.
  - done.
Qed.

Lemma challenge_ok identity l entry w r a w' r' log :
  challenge_op identity l entry (w, r) = (a, (w', r')) →
  heap r !! l = Some entry → attestor (e_binding entry) = identity → e_state entry ≠ REVOKED →
  reg_ok (mono w) r log →
  sound log w r w' r' ∧
  ∀ reply, a = Ok reply → ∃ e' sa c,
    heap r' !! l = Some e' ∧ e_state e' = CHALLENGED ∧ e_state entry ≠ VERIFYING ∧
    (e_state entry = CHALLENGED → challenge_deadline entry <= mono w') ∧
    nonce c = nonce_of (e_binding entry) sa ∧ d_get reply (u "salt") = Some (VStr sa) ∧
    d_get reply (u "challenge") = Some (VDict (challenge_dict c)) ∧ d_get reply (u "allow") = None.
Proof.
  unfold challenge_op. intros Hi He Hatt Hrev Hok.
  apply st_bind_inv in Hi as (a1 & [w0 r0] & E & Hi).
  apply challenge_pending_inv in E as (Ht0 & -> & pending & -> & Hpend).
  assert (Hok0 : sound log w r w0 r) by by apply sound_later.
  apply st_bind_inv in Hi as (a1 & s1 & E & Hi).
  apply raise_when_spec in E as (-> & [[Hp ->]|[_ ->]]); [|by destruct Hi as [-> [= -> ->]]].
  specialize (Hpend Hp) as [Hnv Hch].
  apply st_bind_inv in Hi as (a1 & [w2 r2] & E & Hi).
  apply (issue_bound_ok _ _ _ _ _ _ _ log) in E as (Hok2 & Hheap & Ha); [|done|apply Hok0].
  pose proof (sound_trans _ _ _ _ _ _ _ Hok0 Hok2) as Hok3.
  destruct Ha as [(e & ->)|(vl & sa & c & x & -> & Hn & Hx & Hxb)].
  { by destruct Hi as [-> [= -> ->]]. }
  apply st_bind_inv in Hi as (a1 & s1 & E & Hi). apply on_clock_inv in E as (w3 & -> & -> & Ht3).
  apply st_bind_inv in Hi as (a1 & s1 & [= <- <-] & Hi). cbn [snd] in Hi.
  apply st_bind_inv in Hi as (a1 & s1 & [= <- <-] & Hi). injection Hi as <- <- <-. cbn [fst snd].
  assert (He2 : heap r2 !! l = Some entry) by by rewrite Hheap.
  rewrite (alter_lookup _ _ _ entry) by done. set (e' := MkEntry _ _ CHALLENGED _ _ _).
  split.
  - eapply sound_trans; [exact Hok3|]. split; [done|].
    assert (Hevo : entry_evolves entry e') by by split_and!.
    split; [by eapply evolves_heap|]. eapply reg_ok_heap; [|done|done|].
    { eapply reg_ok_later; [exact Ht3|reflexivity|apply Hok3]. }
    split; cbn; try done.
    + intros k [= <-]. by exists x.
    + by apply (ro_heap _ _ _ (proj2 (proj2 Hok3)) l entry).
  - intros reply [= <-]. exists e', sa, c. split_and!; try done.
    + cbn. apply list_lookup_insert_eq. by eapply lookup_lt_Some.
    + intros Hc. specialize (Hch Hc). destruct Hok2 as [? _]. lia.
Qed.

(** *** The two locked parts of [dispatch] *)

Definition job_ok r (j : job) : Prop :=
  ∃ e x, heap r !! j_entry j = Some e ∧ verifiers r !! j_verifier j = Some x ∧
    bc_binding x = e_binding e ∧ attestor (e_binding e) = j_identity j.

Lemma job_ok_evolves r r' j : evolves r r' → job_ok r j → job_ok r' j.
Proof.
  intros Hev (e & x & He & Hx & Hb & Ha).
  apply (ev_heap _ _ Hev) in He as (e' & ? & Hb' & _).
  apply (ev_bound _ _ Hev) in Hx as (x' & ? & Hx' & _).
  exists e', x'. split_and!; congruence.
Qed.

Definition begin_ok (w : world) r (a : result (dict + job)) (w' : world) r' : Prop :=
  match a with
  | Ok (inl reply) => allow_ok (mono w') r' reply
  | Ok (inr j) => job_ok r' j ∧ ∃ e, heap r !! j_entry j = Some e ∧ e_state e = CHALLENGED
  | Raise _ => True
  end.


Lemma revoke_ok l e w r a w' r' log :
  (_ ← update_entry l (set_state REVOKED); _status l) (w, r) = (a, (w', r')) →
  heap r !! l = Some e → reg_ok (mono w) r log →
  sound log w r w' r' ∧ (∀ reply, a = Ok reply → allow_ok (mono w') r' reply) ∧
  ∃ e', heap r' !! l = Some e' ∧ e_state e' = REVOKED.
Proof.
  intros Hi He Hok. apply st_bind_inv in Hi as (a1 & s1 & [= <- <-] & Hi). cbn [fst snd] in Hi.
  rewrite (alter_lookup _ _ _ e) in Hi by done.
  set (r1 := set_heap _ r) in Hi.
  assert (Hl : heap r1 !! l = Some (set_state REVOKED e)).
  { apply list_lookup_insert_eq. by eapply lookup_lt_Some. }
  assert (Hr1 : sound log w r w r1).
  { split; [done|]. split; [by apply (evolves_heap r l e)|].
    eapply reg_ok_heap; [done..|]. apply entry_ok_set; try done. by apply Hok. }
  pose proof Hi as Hi'. pose proof Hi as Hi''.
  eapply status_ok in Hi as Hs; [|exact Hl|apply Hr1].
  split; [by eapply sound_trans|]. split.
  - eapply status_reply_allow in Hi' as (reply & -> & ?); [|exact Hl]. by intros ? [= <-].
  - eapply status_spec in Hi'' as (_ & _ & ->); [|exact Hl].
    exists (expire (mono w') (set_state REVOKED e)). split; [|done].
    cbn. apply list_lookup_insert_eq. rewrite length_insert. by eapply lookup_lt_Some.
Qed.

(** [submit] accepted: the entry waits for its verification. *)
Lemma submit_op_ok identity aid l entry d w r a w' r' log :
  (evidence ← lift (d_item d (u "evidence"));
   match evidence with
   | VDict evidence =>
       _ ← update_entry l (set_state VERIFYING);
       match e_verifier entry with
       | Some vl => mret (inr (Job identity aid l vl evidence))
       | None => raise AttributeError
       end
   | _ => raise (ValueError "INVALID_SCHEMA")
   end) (w, r) = (a, (w', r')) →
  heap r !! l = Some entry → e_state entry = CHALLENGED → attestor (e_binding entry) = identity →
  reg_ok (mono w) r log →
  sound log w r w' r' ∧ begin_ok w r a w' r'.
Proof.
  intros Hi He Hst Hatt Hok.
  apply st_bind_inv in Hi as ([v|?] & s1 & E & Hi); apply lift_inv in E as [_ ->].
  2:{ by destruct Hi as [-> [= -> ->]]. }
  destruct v; try (injection Hi as <- <- <-; by split; [apply sound_refl|]).
  apply st_bind_inv in Hi as (a1 & s1 & [= <- <-] & Hi). cbn [fst snd] in Hi.
  rewrite (alter_lookup _ _ _ entry) in Hi by done.
  pose proof (ro_heap _ _ _ Hok l entry He) as [E1 E2 E3 E4 E5].
  destruct (E2 (or_introl Hst)) as [vl Hvl]. rewrite Hvl in Hi. injection Hi as <- <- <-.
  assert (Hev : entry_evolves entry (set_state VERIFYING entry)) by (split_and!; [done..|congruence]).
  destruct (E1 vl Hvl) as (x & Hx & Hxb).
  split.
  - split; [done|]. split; [by eapply evolves_heap|].
    eapply reg_ok_heap; [done..|]. split; cbn; try done.
  - split; [|by exists entry]. exists (set_state VERIFYING entry), x. split_and!; try done.
    cbn. apply list_lookup_insert_eq. by eapply lookup_lt_Some.
Qed.

Lemma closed_inv entry w r a w' r' :
  (if bool_decide (e_state entry = REVOKED) then mret true
   else now ← on_clock; mret (e_deadline entry <=? now)) (w, r) = (a, (w', r')) →
  mono w <= mono w' ∧ r' = r ∧ ∃ closed : bool, a = Ok closed ∧
    (closed = false → e_state entry ≠ REVOKED ∧ mono w' < e_deadline entry).
Proof.
  destruct (bool_decide _) eqn:E; intros Hi; bools.
  - injection Hi as <- <- <-. split_and!; [done..|]. by exists true.
  - apply st_bind_inv in Hi as (a1 & s1 & E1 & Hi). apply on_clock_inv in E1 as (w1 & -> & -> & Ht).
    injection Hi as <- <- <-. split_and!; [done..|]. eexists. split; [done|]. intros ?. by bools.
Qed.

Lemma dispatch_begin_ok identity message w r a w' r' log :
  dispatch_begin identity message (w, r) = (a, (w', r')) → reg_ok (mono w) r log →
  sound log w r w' r' ∧ begin_ok w r a w' r'.
Proof.
  unfold dispatch_begin. intros Hi Hok.
  assert (Hstop : ∀ e : exn, a = Raise e ∧ (w', r') = (w, r) → sound log w r w' r' ∧ begin_ok w r a w' r').
  { by intros e [-> [= -> ->]]. }
  apply st_bind_inv in Hi as ([[operation d]|?] & s1 & E & Hi); apply lift_inv in E as [_ ->]; [|by eauto].
  apply st_bind_inv in Hi as (a1 & s1 & [= <- <-] & Hi). cbn [snd] in Hi.
  apply st_bind_inv in Hi as (a1 & s1 & E & Hi).
  apply raise_when_spec in E as (-> & [[_ ->]|[_ ->]]); [|by eauto].
  destruct (bool_decide (operation = u "register")) eqn:Eop.
  { apply st_bind_inv in Hi as (a1 & [w1 r1] & E & Hi).
    eapply register_ok in E as [Hs Ha]; [|done].
    destruct a1 as [reply|e]; [injection Hi as <- <- <-; split; [done|by apply Ha]|].
    by destruct Hi as [-> [= -> ->]]. }
  apply st_bind_inv in Hi as ([v|?] & s1 & E & Hi); apply lift_inv in E as [_ ->]; [|by eauto].
  apply st_bind_inv in Hi as ([aid|?] & s1 & E & Hi); apply lift_inv in E as [_ ->]; [|by eauto].
  apply st_bind_inv in Hi as ([l|?] & s1 & E & Hi); apply lift_inv in E as [_ ->]; [|by eauto].
  apply st_bind_inv in Hi as (a1 & s1 & E & Hi).
  apply read_entry_inv in E as (-> & [[_ ->]|(entry & He & ->)]); [by eauto|].
  apply st_bind_inv in Hi as (a1 & s1 & E & Hi).
  apply raise_when_spec in E as (-> & [[Hrole ->]|[_ ->]]); [|by eauto]. bools.
  destruct (bool_decide (operation = u "status")) eqn:Eop2.
  { apply st_bind_inv in Hi as (a1 & [w1 r1] & E & Hi). pose proof E as E'.
    eapply status_ok in E as Hs; [|done..].
    eapply status_reply_allow in E' as (reply & -> & Ha); [|done]. by injection Hi as <- <- <-. }
  destruct (bool_decide (operation = u "revoke")) eqn:Eop3.
  { apply st_bind_assoc in Hi. apply st_bind_inv in Hi as (a1 & [w1 r1] & E & Hi).
    eapply revoke_ok in E as (Hs & Ha & _); [|done..].
    destruct a1 as [reply|e]; [injection Hi as <- <- <-; split; [done|by apply Ha]|].
    by destruct Hi as [-> [= -> ->]]. }
  clear Hstop. assert (Hatt : attestor (e_binding entry) = identity).
  { unfold role_of, is_controller_op in Hrole. bools.
    rewrite bool_decide_eq_false_2 in Hrole; [done|]. set_solver. }
  apply st_bind_inv in Hi as (a1 & [w1 r1] & E & Hi).
  apply closed_inv in E as (Ht & -> & closed & -> & Hcl).
  assert (Hok1 : sound log w r w1 r) by by apply sound_later.
  apply st_bind_inv in Hi as (a1 & s1 & E & Hi).
  apply raise_when_spec in E as (-> & [[Hc ->]|[_ ->]]); [|by destruct Hi as [-> [= -> ->]]].
  destruct (bool_decide (operation = u "challenge")) eqn:Eop4.
  { apply st_bind_inv in Hi as (a1 & [w2 r2] & E & Hi).
    eapply challenge_ok in E as (Hs & Ha); [|done|done|by apply Hcl|apply Hok1].
    destruct a1 as [reply|e]; [|by destruct Hi as [-> [= -> ->]]; split; [eapply sound_trans|]].
    injection Hi as <- <- <-. split; [by eapply sound_trans|].
    destruct (Ha reply eq_refl) as (? & ? & ? & _ & _ & _ & _ & _ & _ & _ & Hal).
    intros Hal'. congruence. }
  apply st_bind_inv in Hi as (a1 & s1 & E & Hi).
  apply raise_when_spec in E as (-> & [[Hst ->]|[_ ->]]); [|by destruct Hi as [-> [= -> ->]]]. bools.
  eapply submit_op_ok in Hi as (Hs & Hb); [|done..|apply Hok1].
  split; [by eapply sound_trans|]. by destruct a as [[|]|].
Qed.
End safety.
