(* ===== verification/AdmissionRun.v ===== *)
(** * Runs of the admission registry

    Any number of requests, their locked parts and their verifications
    interleaved in any order: the configurations, the steps, and the theorems
    about every reachable configuration. *)

From S2P Require Import Prelude Bytes Sha256 Json JsonFacts JsonCanon Stream Env Dict Connection.
From S2P Require Import Attestation AttestationFacts AttestationServer Admission AdmissionFacts AdmissionSafety.
Import Json Attestation Admission.

(** A request whose first part started a verification. *)
Inductive phase :=
| Ready (j : job)                                     (* about to call [verifier.submit] *)
| Verifying (j : job) (base : dict) (x : session)     (* its attempt taken, the tools running *)
| Finishing (j : job) (outcome : result dict)         (* the verification is over *)
| Gone.

Inductive action :=
| ABegin (identity : pystr) (message : value)
| AAttempt (i : nat)
| AVerify (i : nat)
| AFinish (i : nat).

Section run.
Context `{Env} {V : Type} `{VerifierLaws V}.
Notation registry := (AdmissionRegistry V).

Record cfg := Cfg {
  c_w : world;
  c_r : registry;
  c_phases : list phase;
  c_log : verdict_log }.

(** One step, and the reply it sends, if it sends one. *)
Definition step (act : action) (c : cfg) : cfg * option (result dict) :=
  match act with
  | ABegin identity message =>
      match dispatch_begin identity message (c_w c, c_r c) with
      | (Ok (inl reply), (w, r)) => (Cfg w r (c_phases c) (c_log c), Some (Ok reply))
      | (Ok (inr j), (w, r)) => (Cfg w r (c_phases c ++ [Ready j]) (c_log c), None)
      | (Raise e, (w, r)) => (Cfg w r (c_phases c) (c_log c), Some (Raise e))
      end
  | AAttempt i =>
      match c_phases c !! i with
      | Some (Ready j) =>
          let '(a, (w, r)) :=
            with_server (j_verifier j) (submit_begin (j_identity j) (j_evidence j)) (c_w c, c_r c) in
          let p := match a with
                   | Ok (inl reply) => Finishing j (Ok reply)
                   | Ok (inr (base, x)) => Verifying j base x
                   | Raise e => Finishing j (Raise e)
                   end in
          (Cfg w r (<[i := p]> (c_phases c)) (c_log c), None)
      | _ => (c, None)
      end
  | AVerify i =>
      match c_phases c !! i with
      | Some (Verifying j base x) =>
          match verifiers (c_r c) !! j_verifier j with
          | Some bc =>
              let '(a, w) := submit_finish (srv_verifier (bc_server bc)) (j_evidence j) base x (c_w c) in
              let log := match a with
                         | Ok reply => [(j_entry j, j_evidence j, s_challenge x, reply)]
                         | Raise _ => []
                         end in
              (Cfg w (c_r c) (<[i := Finishing j a]> (c_phases c)) (c_log c ++ log), None)
          | None => (c, None)
          end
      | _ => (c, None)
      end
  | AFinish i =>
      match c_phases c !! i with
      | Some (Finishing j outcome) =>
          let '(a, (w, r)) := dispatch_finish j outcome (c_w c, c_r c) in
          (Cfg w r (<[i := Gone]> (c_phases c)) (c_log c), Some a)
      | _ => (c, None)
      end
  end.

Definition run (acts : list action) (c : cfg) : cfg := foldl (λ c act, (step act c).1) c acts.

Definition phase_ok (r : registry) (log : verdict_log) (p : phase) : Prop :=
  match p with
  | Ready j => job_ok r j
  | Verifying j base x => job_ok r j ∧ base_decision base ∧
      ∃ bc, verifiers r !! j_verifier j = Some bc ∧ nonce (s_challenge x) = nonce_of (bc_binding bc) (salt bc)
  | Finishing j outcome => job_ok r j ∧ ∀ reply e, outcome = Ok reply →
      decision reply = Some (status "ALLOW") → heap r !! j_entry j = Some e →
      admitted log (j_entry j) (e_binding e)
  | Gone => True
  end.

(** Every ALLOW of the log is a verification that passed, by the verifier the
    operator pinned to the entry's attestor. *)
Definition log_ok (r : registry) (log : verdict_log) : Prop :=
  ∀ l evidence c reply, (l, evidence, c, reply) ∈ log → decision reply = Some (status "ALLOW") →
    ∃ e v verdict w1 w2, heap r !! l = Some e ∧ attestors r !! attestor (e_binding e) = Some v ∧
      v_verify v evidence c w1 = (Ok verdict, w2) ∧
      d_get verdict (u "reason") = Some (status "SCOPED_POLICY_PASS").

Record cfg_ok (c : cfg) : Prop := {
  co_reg : reg_ok (mono (c_w c)) (c_r c) (c_log c);
  co_phases : Forall (phase_ok (c_r c) (c_log c)) (c_phases c);
  co_log : log_ok (c_r c) (c_log c) }.

Lemma admitted_mono log log' l x : log ⊆ log' → admitted log l x → admitted log' l x.
Proof. intros Hl (ev & sa & c & rep & Hin & ?). exists ev, sa, c, rep. split; [by apply Hl|done]. Qed.

Lemma phase_ok_mono r r' log log' p :
  evolves r r' → log ⊆ log' → phase_ok r log p → phase_ok r' log' p.
Proof.
  intros Hev Hl. destruct p as [j|j base x|j a|]; cbn; [by apply job_ok_evolves| | |done].
  - intros (Hj & ? & bc & Hbc & Hn). split; [by eapply job_ok_evolves|]. split; [done|].
    apply (ev_bound _ _ Hev) in Hbc as (bc' & ? & Hb & Hs & _). exists bc'. split; [done|congruence].
  - intros [Hj Ha]. split; [by eapply job_ok_evolves|]. intros reply e' -> Hd He'.
    destruct Hj as (e & _ & He & _). pose proof (Ha _ _ eq_refl Hd He) as Had.
    apply (ev_heap _ _ Hev) in He as (e2 & He2 & Hb & _). rewrite He' in He2. injection He2 as ->.
    rewrite Hb. by eapply admitted_mono.
Qed.

Lemma log_ok_evolves r r' log : evolves r r' → log_ok r log → log_ok r' log.
Proof.
  intros Hev Hlog l ev c reply Hin Hd.
  destruct (Hlog _ _ _ _ Hin Hd) as (e & v & verdict & w1 & w2 & He & Hv & ?).
  apply (ev_heap _ _ Hev) in He as (e' & ? & Hb & _).
  destruct (ev_static _ _ Hev) as (_ & Ha & _).
  exists e', v, verdict, w1, w2. split_and!; try done; try tauto. congruence.
Qed.

(** A step whose log does not change. *)
Lemma cfg_ok_sound w r w' r' phases phases' log :
  cfg_ok (Cfg w r phases log) → sound log w r w' r' →
  (∀ p, p ∈ phases' → p ∈ phases ∨ phase_ok r' log p) →
  cfg_ok (Cfg w' r' phases' log).
Proof.
  intros [Hr Hp Hl] (Ht & Hev & Hr') Hnew. cbn in *. split; cbn; [done| |by eapply log_ok_evolves].
  apply Forall_forall. intros p [Hin|?]%Hnew; [|done].
  rewrite Forall_forall in Hp. by eapply phase_ok_mono; [exact Hev|reflexivity|apply Hp].
Qed.

Lemma elem_insert {A} (l : list A) i x p : p ∈ <[i := x]> l → p ∈ l ∨ p = x.
Proof.
  intros [k Hk]%list_elem_of_lookup. apply list_lookup_insert_Some in Hk as [(_ & <- & _)|[_ Hk]];
    [by right|left]. by eapply list_elem_of_lookup_2.
Qed.

(** [verifier.submit] begins. *)
Lemma attempt_ok j w r a w' r' log :
  with_server (j_verifier j) (submit_begin (j_identity j) (j_evidence j)) (w, r) = (a, (w', r')) →
  reg_ok (mono w) r log → job_ok r j →
  sound log w r w' r' ∧
  phase_ok r' log (match a with
                   | Ok (inl reply) => Finishing j (Ok reply)
                   | Ok (inr (base, x)) => Verifying j base x
                   | Raise e => Finishing j (Raise e)
                   end).
Proof.
  intros Hi Hok Hj.
  apply with_server_inv in Hi as [(_ & -> & -> & ->)|(x & srv' & Hx & Hi & ->)]; [done|].
  pose proof (ro_bound _ _ _ Hok _ _ Hx) as [Hsalt Hsess Hver].
  apply submit_begin_spec in Hi as (Ht & Hi).
  assert (srv_verifier srv' = srv_verifier (bc_server x) ∧
    bc_ok (attestors r) (MkBound srv' (bc_binding x) (salt x))) as [Hsv Hbc].
  { destruct Hi as [(e & -> & -> & _)|[(sid & reason & -> & ->)|(sid & y & _ & _ & Hy & Ho & _ & _ & ->)]];
      [by (split; [done|split])..|]. split; [done|]. split; cbn; [done| |done].
    apply map_Forall_insert_2; [|done]. destruct (Hsess _ _ Hy) as [? <-]. by rewrite Ho. }
  set (r2 := set_verifiers _ r).
  assert (Hs : sound log w r w' r2).
  { split; [done|]. split; [eapply evolves_verifiers; [done|]; by split|].
    eapply reg_ok_verifier; [|done|by split|done]. by eapply reg_ok_later. }
  assert (Hj' : job_ok r2 j) by (eapply job_ok_evolves, Hj; apply Hs).
  split; [done|].
  destruct Hi as [(e & -> & _)|[(sid & reason & -> & _)|(sid & y & -> & _ & Hy & _)]]; cbn.
  - by split.
  - split; [done|]. intros reply e [= <-] Hd. by apply (f_equal (λ v, v ≫= str_of)) in Hd.
  - split; [done|]. split; [done|].
    exists (MkBound srv' (bc_binding x) (salt x)). split; [|apply (Hsess _ _ Hy)].
    apply list_lookup_insert_eq. by eapply lookup_lt_Some.
Qed.

(** The verification itself: only the log changes. *)
Lemma verify_ok j base x bc w r a w' log phases i :
  submit_finish (srv_verifier (bc_server bc)) (j_evidence j) base x w = (a, w') →
  verifiers r !! j_verifier j = Some bc → phase_ok r log (Verifying j base x) →
  cfg_ok (Cfg w r phases log) →
  cfg_ok (Cfg w' r (<[i := Finishing j a]> phases)
    (log ++ match a with
            | Ok reply => [(j_entry j, j_evidence j, s_challenge x, reply)]
            | Raise _ => []
            end)).
Proof.
  intros Hf Hbc (Hj & Hb & bc' & Hbc' & Hn) [Hr Hp Hl]. cbn in *.
  rewrite Hbc in Hbc'. injection Hbc' as <-.
  set (log' := log ++ _). assert (Hsub : log ⊆ log') by set_solver.
  apply submit_finish_spec in Hf as (Ht & Ha); [|done].
  destruct Hj as (e & x0 & He & Hx0 & Hxb & Hatt). rewrite Hbc in Hx0. injection Hx0 as <-.
  split; cbn.
  - by eapply reg_ok_later.
  - apply Forall_forall. intros p Hin. apply elem_insert in Hin as [Hin| ->].
    { eapply phase_ok_mono; [reflexivity|exact Hsub|]. rewrite Forall_forall in Hp. by apply Hp. }
    split; [by exists e, bc|]. intros reply e' -> Hd He'. rewrite He in He'. injection He' as <-.
    exists (j_evidence j), (salt bc), (s_challenge x), reply. split; [set_solver|]. by rewrite <-Hxb.
  - intros l ev c reply Hin Hd. apply elem_of_app in Hin as [Hin|Hin]; [by eapply Hl|].
    destruct Ha as [(e1 & ->)|[(y & -> & [Hy|Hy])|(y & -> & _ & _ & _ & _ & _ & verdict & w1 & Hv & Hpass)]].
    + by apply elem_of_nil in Hin.
    + apply list_elem_of_singleton in Hin as [= -> -> -> ->]. unfold decision in *. by rewrite Hy in Hd.
    + apply list_elem_of_singleton in Hin as [= -> -> -> ->]. unfold decision in *. by rewrite Hy in Hd.
    + apply list_elem_of_singleton in Hin as [= -> -> -> ->].
      exists e, (srv_verifier (bc_server bc)), verdict, w, w1. split_and!; try done.
      rewrite <-Hxb. apply (bc_verifier _ _ (ro_bound _ _ _ Hr _ _ Hbc)).
Qed.

(** The last part of [dispatch]. *)
Lemma finish_ok j outcome w r a w' r' log :
  dispatch_finish j outcome (w, r) = (a, (w', r')) →
  reg_ok (mono w) r log → phase_ok r log (Finishing j outcome) →
  sound log w r w' r' ∧ ∀ reply, a = Ok reply → allow_ok (mono w') r' reply.
Proof.
  intros Hi Hok [(e & x & He & Hx & Hxb & Hatt) Had]. unfold dispatch_finish in Hi.
  pose proof (ro_heap _ _ _ Hok _ _ He) as Heok.
  destruct outcome as [result|e0].
  2:{ apply st_bind_inv in Hi as (a1 & [w1 r1] & E & Hi).
      assert (Hs : sound log w r w1 r1).
      { destruct (is_Exception e0); injection E as <- <- <-; [|by apply sound_refl].
        cbn [fst snd]. rewrite (alter_lookup _ _ _ e) by done.
        split; [done|]. case_bool_decide as Hst; (split; [eapply evolves_heap; [done|]|eapply reg_ok_heap; [done..| |]]);
          try done; try (by split_and!; [..|congruence]). by apply entry_ok_set. }
      destruct a1; [injection Hi as <- <- <-; done|]. by destruct Hi as [-> [= -> ->]]. }
  assert (Hstop : ∀ (e : exn) w1, mono w <= mono w1 → a = Raise e ∧ (w', r') = (w1, r) →
    sound log w r w' r' ∧ ∀ reply, a = Ok reply → allow_ok (mono w') r' reply).
  { intros e1 w1 Ht [-> [= -> ->]]. split; [by apply sound_later|done]. }
  apply st_bind_inv in Hi as (a1 & s1 & [= <- <-] & Hi). cbn [snd] in Hi.
  apply st_bind_inv in Hi as (a1 & s1 & E & Hi).
  apply read_entry_inv in E as (-> & [[? _]|(e1 & He1 & ->)]); [congruence|].
  rewrite He in He1. injection He1 as <-.
  apply st_bind_inv in Hi as (a1 & s1 & E & Hi).
  apply raise_when_spec in E as (-> & [[Hg ->]|[_ ->]]); [|by eapply Hstop].
  apply orb_false_iff in Hg as [_ Hst]. bools.
  apply st_bind_inv in Hi as ([dec|?] & s1 & E & Hi); apply lift_inv in E as [Ed ->]; [|by eapply Hstop].
  clear Hstop. apply d_item_Ok in Ed.
  apply st_bind_inv in Hi as (a1 & s1 & [= <- <-] & Hi). cbn [fst snd] in Hi.
  rewrite (alter_lookup _ _ _ e) in Hi by done.
  set (e' := MkEntry _ _ _ _ _ _) in Hi. set (r1 := set_heap _ r) in Hi.
  assert (Hl : heap r1 !! j_entry j = Some e') by (apply list_lookup_insert_eq; by eapply lookup_lt_Some).
  assert (Hr1 : sound log w r w r1).
  { assert (Hev : entry_evolves e e') by (split_and!; [done..|congruence]).
    split; [done|]. split; [by eapply evolves_heap|]. eapply reg_ok_heap; [done..|].
    destruct Heok as [E1 E2 E3 E4 E5]. split; cbn; try done; [by eauto|].
    intros Hal. split; [done|]. destruct (py_eq dec _) eqn:Ep; [|done].
    apply py_eq_str in Ep as ->. by eapply Had. }
  apply st_bind_inv in Hi as (a1 & [w2 r2] & E & Hi). pose proof E as E'.
  eapply status_ok in E as Hs; [|exact Hl|apply Hr1].
  eapply status_reply_allow in E' as (reply & -> & Ha); [|exact Hl].
  injection Hi as <- <- <-. split; [by eapply sound_trans|].
  intros reply' [= <-] Hal. rewrite d_get_set_ne in Hal by done.
  destruct (Ha Hal) as (l & y & ? & ? & ? & ? & ? & ?). exists l, y.
  by rewrite !d_get_set_ne by done.
Qed.

Definition step_post (c c' : cfg) (out : option (result dict)) : Prop :=
  cfg_ok c' ∧ evolves (c_r c) (c_r c') ∧ mono (c_w c) <= mono (c_w c') ∧
  ∀ reply, out = Some (Ok reply) → allow_ok (mono (c_w c')) (c_r c') reply.

Lemma step_ok act c : cfg_ok c → step_post c (step act c).1 (step act c).2.
Proof.
  intros Hok. assert (Hstay : step_post c c None) by by split_and!.
  destruct c as [w r phases log]. pose proof (co_reg _ Hok) as Hreg. cbn in Hreg.
  assert (Hphase : ∀ i p, phases !! i = Some p → phase_ok r log p).
  { intros i p Hi. eapply Forall_lookup_1; [apply (co_phases _ Hok)|done]. }
  destruct act as [identity message|i|i|i]; cbn [step c_w c_r c_phases c_log].
  - destruct (dispatch_begin identity message (w, r)) as [a [w' r']] eqn:E.
    eapply dispatch_begin_ok in E as [Hs Hb]; [|done].
    assert (∀ phases', (∀ p, p ∈ phases' → p ∈ phases ∨ phase_ok r' log p) →
      cfg_ok (Cfg w' r' phases' log)) as Hc by (intros; by eapply cfg_ok_sound).
    destruct Hs as (? & ? & _).
    destruct a as [[reply|j]|e]; (split; [apply Hc|split_and!; try done]).
    + by left. + by intros ? [= <-].
    + intros p [?|Hp]%elem_of_app; [by left|right]. apply list_elem_of_singleton in Hp as ->. apply Hb.
    + by left.
  - destruct (phases !! i) as [[j| | |]|] eqn:Ei; try done.
    destruct (with_server _ _ _) as [a [w' r']] eqn:E.
    eapply attempt_ok in E as [Hs Hp]; [|done|exact (Hphase i _ Ei)].
    split; [|destruct Hs as (? & ? & _); by split_and!]. eapply cfg_ok_sound; [done..|].
    intros p [?| ->]%elem_insert; [by left|by right].
  - destruct (phases !! i) as [[|j base x| |]|] eqn:Ei; try done.
    destruct (verifiers r !! j_verifier j) as [bc|] eqn:Ebc; [|done].
    destruct (submit_finish _ _ _ _ _) as [a w'] eqn:E.
    split; [by eapply verify_ok; [exact E|done|exact (Hphase i _ Ei)|]|].
    apply submit_finish_spec in E as [? _]; [|by apply (Hphase i) in Ei as (_ & ? & _)]. by split_and!.
  - destruct (phases !! i) as [[| |j outcome|]|] eqn:Ei; try done.
    destruct (dispatch_finish j outcome (w, r)) as [a [w' r']] eqn:E.
    eapply finish_ok in E as [Hs Ha]; [|done|exact (Hphase i _ Ei)].
    split; [|destruct Hs as (? & ? & _); split_and!; try done; intros ? [= ->]; by apply Ha].
    eapply cfg_ok_sound; [done..|]. intros p [?| ->]%elem_insert; [by left|by right].
Qed.

Lemma run_ok acts c :
  cfg_ok c → cfg_ok (run acts c) ∧ evolves (c_r c) (c_r (run acts c)) ∧
    mono (c_w c) <= mono (c_w (run acts c)).
Proof.
  revert c. induction acts as [|act acts IH]; intros c Hc; [done|]. cbn [run foldl].
  destruct (step_ok act c Hc) as (Hc' & Hev & Ht & _).
  destruct (IH _ Hc') as (? & ? & ?). split_and!; [done|by etrans|]. unfold run in *. lia.
Qed.

(** The registry the service starts with. *)
Definition started (cs : list value) (atts : list (pystr * V)) (limits : Z * Z * Z * Z) (w0 : world)
    (c : cfg) : Prop :=
  let '(maximum, binding, challenge, lease) := limits in
  ∃ w r, new_registry cs atts maximum binding challenge lease w0 = (Ok r, w) ∧ c = Cfg w r [] [].

Lemma started_ok cs atts limits w0 c :
  started cs atts limits w0 c →
  cfg_ok c ∧ 1 <= lease_ms (c_r c) <= 60000 ∧ 1 <= reg_maximum (c_r c) <= 4096.
Proof.
  destruct limits as [[[maximum binding] challenge] lease]. intros (w & r & Hn & ->).
  unfold new_registry in Hn. py_inv. unfold in_range in *. bools. cbn. split; [|lia].
  split; cbn; [|by constructor|by intros ? ? ? ? ?%elem_of_nil].
  split; cbn; try done; try lia.
  - unfold map_size. rewrite map_size_empty. lia.
Qed.
End run.

Section theorems.
Context `{Env} {V : Type} `{VerifierLaws V}.

(** C1.  Whatever requests were made before and in whatever order their parts
    ran: a reply that allows a connection is about an entry that is ALLOWED at
    that moment, before both its deadline and its lease's; a verification
    whose reply was ALLOW ran for that very entry, on a challenge whose nonce
    is bound to the entry's binding, and passed the verifier pinned to its
    attestor; the lease it reports is at most the configured one. *)
Theorem allow_is_verified cs atts limits w0 c0 acts act reply :
  started cs atts limits w0 c0 →
  (step act (run acts c0)).2 = Some (Ok reply) →
  d_get reply (u "allow") = Some (VBool true) →
  let c := (step act (run acts c0)).1 in
  let now := mono (c_w c) in
  ∃ l e remaining,
    heap (c_r c) !! l = Some e ∧ e_state e = ALLOWED ∧
    d_get reply (u "binding") = Some (VDict (binding_dict (e_binding e))) ∧
    now < e_deadline e ∧ now < lease_deadline e ∧
    d_get reply (u "remaining_ms") = Some (VInt remaining) ∧
    0 <= remaining <= lease_ms (c_r c0) ∧
    ∃ evidence salt ch verdict v w1 w2 answer,
      (l, evidence, ch, answer) ∈ c_log c ∧ decision answer = Some (status "ALLOW") ∧
      nonce ch = nonce_of (e_binding e) salt ∧
      attestors (c_r c0) !! attestor (e_binding e) = Some v ∧
      v_verify v evidence ch w1 = (Ok verdict, w2) ∧
      d_get verdict (u "reason") = Some (status "SCOPED_POLICY_PASS").
Proof.
  intros Hst Hout Hal. apply started_ok in Hst as (Hc0 & Hlease & _).
  destruct (run_ok acts c0 Hc0) as (Hc1 & Hev1 & _).
  destruct (step_ok act (run acts c0) Hc1) as (Hc & Hev & _ & Ha).
  set (c := (step act (run acts c0)).1) in *. cbv zeta.
  destruct (Ha reply Hout Hal) as (l & e & He & Hs & Hd & Hl & Hb & Hr).
  assert (Hev0 : evolves (c_r c0) (c_r c)) by by etrans.
  destruct (ev_static _ _ Hev0) as (_ & Hatt & _ & _ & Hch & Hls & _).
  destruct (ro_heap _ _ _ (co_reg _ Hc) _ _ He) as [_ E2 E3 _ E5].
  destruct (E5 Hs) as [Hlease' (ev & sa & ch & ans & Hin & Hn & Hdec)].
  specialize (E3 (E2 (or_intror (or_intror Hs)))).
  destruct (co_log _ Hc _ _ _ _ Hin Hdec) as (e2 & v & verdict & w1 & w2 & He2 & Hv & Hver & Hpass).
  rewrite He in He2. injection He2 as <-.
  exists l, e, (remaining_ms (mono (c_w c)) e). split_and!; try done.
  - unfold remaining_ms. rewrite bool_decide_eq_true_2 by done. lia.
  - unfold remaining_ms. rewrite bool_decide_eq_true_2 by done.
    apply Z.max_lub; [lia|]. rewrite <-Hls. unfold ns_per_ms in *.
    etrans; [apply (Z.quot_le_mono _ (lease_ms (c_r c) * 1000000)); lia|].
    rewrite Z.quot_mul; lia.
  - exists ev, sa, ch, verdict, v, w1, w2, ans. by rewrite <-Hatt.
Qed.

(** Revocation is final: once the entry of an admission is REVOKED, no
    sequence of requests and verifications, in flight or later, brings it to
    another state, and its binding never changes. *)
Theorem revoked_forever cs atts limits w0 c0 acts1 acts2 l e :
  started cs atts limits w0 c0 →
  heap (c_r (run acts1 c0)) !! l = Some e → e_state e = REVOKED →
  ∃ e', heap (c_r (run acts2 (run acts1 c0))) !! l = Some e' ∧ e_state e' = REVOKED ∧
    e_binding e' = e_binding e.
Proof.
  intros Hst He Hr. apply started_ok in Hst as (Hc0 & _).
  destruct (run_ok acts1 c0 Hc0) as (Hc1 & _).
  destruct (run_ok acts2 _ Hc1) as (_ & Hev & _).
  apply (ev_heap _ _ Hev) in He as (e' & He' & Hb & _ & Hs). exists e'. auto.
Qed.

(** At every moment the registry holds at most its maximum of
    admissions (itself at most 4096), each under its own identifier, and no
    two of them for the same controller, game session and peer. *)
Theorem registry_bounds cs atts limits w0 c0 acts :
  started cs atts limits w0 c0 →
  let r := c_r (run acts c0) in
  map_size (entries r) <= reg_maximum r <= 4096 ∧
  (∀ id l, entries r !! id = Some l →
     ∃ e, heap r !! l = Some e ∧ admission_id (e_binding e) = id) ∧
  (∀ id1 id2 l1 l2 e1 e2, entries r !! id1 = Some l1 → entries r !! id2 = Some l2 →
     heap r !! l1 = Some e1 → heap r !! l2 = Some e2 →
     controller (e_binding e1) = controller (e_binding e2) →
     game_session_id (e_binding e1) = game_session_id (e_binding e2) →
     peer_id (e_binding e1) = peer_id (e_binding e2) → id1 = id2).
Proof.
  intros Hst r. apply started_ok in Hst as (Hc0 & _ & Hmax).
  destruct (run_ok acts c0 Hc0) as (Hc & Hev & _). fold r in Hev.
  destruct (ev_static _ _ Hev) as (_ & _ & Hm & _).
  destruct (co_reg _ Hc) as [R1 R2 R3 _ _]. fold r in R1, R2, R3. split_and!; try done; try lia.
  intros id1 id2 l1 l2 e1 e2 Hi1 Hi2 He1 He2 Hc1 Hc2 Hc3. eapply R3; [exact Hi1|exact Hi2|done..|].
  unfold same_peer. rewrite Hc1, Hc2, Hc3, !bool_decide_eq_true_2, Z.eqb_refl by done. done.
Qed.
End theorems.
