(* ===== verification/AdmissionSpec.v ===== *)
(** * The admission protocol's contracts

    Who may do what, what a challenge is bound to, and the sequential
    [dispatch] as a run of the interleaved steps. *)

From S2P Require Import Prelude Bytes Sha256 Json JsonFacts JsonCanon Stream Env Dict Connection.
From S2P Require Import Attestation AttestationFacts AttestationServer Admission AdmissionFacts.
From S2P Require Import AdmissionSafety AdmissionRun.
Import Json Attestation Admission.

(** ** The nonce binds the connection *)

Definition binding_wf (x : binding) : bool := wf (VDict (binding_dict x)).

Lemma binding_dict_inj x y : sorted_keys (VDict (binding_dict x)) = sorted_keys (VDict (binding_dict y)) → x = y.
Proof.
  rewrite !sorted_keys_dict. intros E0.
  assert (E : sorted_dict (binding_dict x) = sorted_dict (binding_dict y)) by congruence. clear E0.
  assert (Hget : ∀ k, sorted_keys <$> d_get (binding_dict x) k = sorted_keys <$> d_get (binding_dict y) k).
  { intros k. rewrite <-(d_get_sorted (binding_dict x)), <-(d_get_sorted (binding_dict y)) by dec_now.
    by rewrite E. }
  pose proof (Hget (u "instance_id")) as F1. pose proof (Hget (u "admission_id")) as F2.
  pose proof (Hget (u "game_session_id")) as F3. pose proof (Hget (u "peer_id")) as F4.
  pose proof (Hget (u "connection_id")) as F5. pose proof (Hget (u "controller")) as F6.
  pose proof (Hget (u "attestor")) as F7. clear Hget E.
  destruct x, y. vm_compute in F1, F2, F3, F4, F5, F6, F7. congruence.
Qed.

Lemma dumps_sorted_inj v1 v2 :
  wf v1 = true → wf v2 = true → (nesting v1 ≤ recursion_limit)%nat → (nesting v2 ≤ recursion_limit)%nat →
  dumps_sorted v1 = dumps_sorted v2 → sorted_keys v1 = sorted_keys v2.
Proof.
  intros W1 W2 N1 N2 E.
  assert (Hh : ∀ d, NoDup (keys d) → object_pairs_hook decode_hooks d = Ok (VDict d)).
  { intros d Hd. by apply (no_duplicates_unique d []). }
  pose proof (loads_dumps_sorted _ _ Hh W1 N1) as L1. pose proof (loads_dumps_sorted _ _ Hh W2 N2) as L2.
  rewrite E in L1. congruence.
Qed.

Lemma nonce_data_inj x y s t :
  binding_wf x = true → binding_wf y = true →
  len s = 64 ∧ forallb is_hex s = true → len t = 64 ∧ forallb is_hex t = true →
  nonce_data x s = nonce_data y t → x = y ∧ s = t.
Proof.
  intros Wx Wy [Ls Hs] [Lt Ht] E. unfold nonce_data in E.
  apply app_inv_head in E. apply app_inv_head in E. unfold len in *.
  rewrite !app_assoc in E. apply app_inj_2 in E as [E1 E2]; [|rewrite !(length_from_hex 32); lia].
  split; [|apply from_hex_inj; try done; [lia|]; exists 32%nat; lia].
  apply app_inj_tail in E1 as [E1 _]. apply ascii_bytes_inj in E1; [|by apply ascii_dumps, wf_sorted..].
  apply dumps_sorted_inj in E1; [by apply binding_dict_inj|done..| |];
    cbn; unfold recursion_limit; lia.
Qed.

(** The nonce of a challenge binds the connection: two bindings with salts
    that give the same nonce are the same binding (registry, admission, game
    session, peer, connection, controller and attestor) with the same salt, or
    exhibit a SHA-256 collision. *)
Theorem bound_nonce_binds x y s t n :
  binding_wf x = true → binding_wf y = true →
  bound_nonce x s = Ok n → bound_nonce y t = Ok n →
  (x = y ∧ s = t) ∨
  (nonce_data x s ≠ nonce_data y t ∧ sha256 (nonce_data x s) = sha256 (nonce_data y t)).
Proof.
  intros Wx Wy Nx Ny.
  assert (Hbn : ∀ x s, bound_nonce x s = Ok n →
    (len s = 64 ∧ forallb is_hex s = true) ∧ n = sha256_hex (nonce_data x s)).
  { intros z r Hz. unfold bound_nonce, hex_value in Hz. py_inv. by bools. }
  destruct (Hbn _ _ Nx) as [Hs ->]. destruct (Hbn _ _ Ny) as [Ht E].
  apply sha256_hex_eq in E.
  destruct (decide (nonce_data x s = nonce_data y t)) as [D|]; [left|by right].
  by apply nonce_data_inj.
Qed.

Definition sample_binding : binding :=
  Binding (replicate 32 97) (replicate 32 98) (replicate 32 99) 7 (replicate 64 100)
    (replicate 64 101) (replicate 64 102).

Lemma bound_nonce_binds_witness : ∃ n,
  bound_nonce sample_binding (replicate 64 48) = Ok n ∧
  ((sample_binding = sample_binding ∧ replicate 64 48 = replicate 64 48) ∨
   (nonce_data sample_binding (replicate 64 48) ≠ nonce_data sample_binding (replicate 64 48) ∧
    sha256 (nonce_data sample_binding (replicate 64 48)) =
    sha256 (nonce_data sample_binding (replicate 64 48)))).
Proof.
  eexists. split; [vm_compute; reflexivity|].
  eapply (bound_nonce_binds sample_binding sample_binding); vm_compute; reflexivity.
Defined.

Section spec.
Context `{Env} {V : Type} `{VerifierLaws V}.
Notation registry := (AdmissionRegistry V).

(** The operation a well-formed message asks for, and the entry it names. *)
Definition names_entry (r : registry) (message : value) (operation : pystr) (e : Entry) : Prop :=
  ∃ d v aid l, check_schema message = Ok (operation, d) ∧ operation ≠ u "register" ∧
    d_item d (u "admission_id") = Ok v ∧ hex_value v 32 = Ok aid ∧
    entries r !! aid = Some l ∧ heap r !! l = Some e.

(** Only the registered controller of an entry reads or revokes it, and
    only its attestor is challenged or submits for it: any other identity is
    refused with a [ValueError], and neither the registry nor any challenge
    changes. *)
Theorem foreign_identity_refused identity message operation (r : registry) w e :
  names_entry r message operation e → identity ≠ role_of operation (e_binding e) →
  ∃ reason, dispatch identity message (w, r) = (Raise (ValueError reason), (w, r)).
Proof.
  intros (d & v & aid & l & Hschema & Hop & Hv & Haid & Hl & He) Hid.
  unfold dispatch, dispatch_begin, mbind, st_bind, lift. rewrite Hschema.
  unfold raise_when, lift, raise_if, gets. cbn [snd].
  destruct (negb (in_role _ _ _)); [by eexists|].
  rewrite (bool_decide_eq_false_2 (operation = u "register")) by done.
  rewrite Hv. cbn. rewrite Haid. rewrite Hl. unfold read_entry. cbn [snd]. rewrite He.
  rewrite (bool_decide_eq_false_2 (identity = _)) by done. by eexists.
Qed.

(** [dispatch] with nothing in between is the run of its steps, one after
    the other: what holds of every interleaving holds of it. *)
Theorem dispatch_is_a_run identity message w (r : registry) a w' r' phases log :
  dispatch identity message (w, r) = (a, (w', r')) →
  let i := length phases in
  ∃ acts act,
    (acts ++ [act] = [ABegin identity message] ∨
     acts ++ [act] = [ABegin identity message; AAttempt i; AVerify i; AFinish i]) ∧
    let '(c, out) := step act (run acts (Cfg w r phases log)) in
    out = Some a ∧ c_w c = w' ∧ c_r c = r'.
Proof.
  intros Hd i. unfold dispatch in Hd. apply st_bind_inv in Hd as (a1 & [w1 r1] & E & Hd).
  destruct a1 as [[reply|j]|e].
  - injection Hd as <- <- <-. exists [], (ABegin identity message). split; [by left|].
    cbn. by rewrite E.
  - apply st_bind_inv in Hd as (a2 & [w2 r2] & Ej & Hd).
    unfold run_job in Ej. destruct (with_server _ _ _) as [a3 [w3 r3]] eqn:Es.
    injection Ej as <- <- <-.
    exists [ABegin identity message; AAttempt i; AVerify i], (AFinish i). split; [by right|].
    cbn [run foldl step c_w c_r c_phases c_log fst]. rewrite E. cbn [fst c_phases c_w c_r c_log].
    assert (Hi : ∀ p, (phases ++ [p]) !! i = Some p) by (intros; by apply list_lookup_middle).
    assert (Hset : ∀ p q, <[i := q]> (phases ++ [p]) = phases ++ [q]).
    { intros p q. unfold i. by rewrite insert_app_r_alt, Nat.sub_diag by lia. }
    rewrite Hi. unfold with_server in Es |- *. cbn [fst snd] in *.
    destruct (verifiers r1 !! j_verifier j) as [bc|] eqn:Ebc.
    2:{ injection Es as <- <- <-. cbn. rewrite Hset, Hi. cbn. rewrite Hi.
        destruct (dispatch_finish _ _ _) as [? []]. injection Hd as -> -> ->. done. }
    unfold submit, mbind, st_bind in Es. destruct (submit_begin _ _ _) as [b [wb sb]] eqn:Eb.
    destruct b as [[reply|[base x]]|e].
    + injection Es as <- <- <-. cbn. rewrite Hset, Hi. cbn. rewrite Hi.
      destruct (dispatch_finish _ _ _) as [? []]. injection Hd as -> -> ->. done.
    + cbn [gets snd] in Es. unfold on_world in Es. cbn [fst snd] in Es.
      destruct (submit_finish _ _ _ _ _) as [af wf] eqn:Ef. injection Es as <- <- <-.
      cbn [fst c_phases c_w c_r c_log]. rewrite Hset, Hi. cbn [verifiers set_verifiers].
      rewrite list_lookup_insert_eq by (by eapply lookup_lt_Some). cbn [bc_server].
      rewrite Ef. cbn [fst c_phases c_w c_r c_log]. rewrite Hset, Hi.
      destruct (dispatch_finish _ _ _) as [? []]. injection Hd as -> -> ->. done.
    + injection Es as <- <- <-. cbn. rewrite Hset, Hi. cbn. rewrite Hi.
      destruct (dispatch_finish _ _ _) as [? []]. injection Hd as -> -> ->. done.
  - destruct Hd as [-> [= -> ->]]. exists [], (ABegin identity message). split; [by left|].
    cbn. by rewrite E.
Qed.
End spec.
