(* ===== verification/AdmissionLifecycle.v ===== *)
(** * The life of an admission

    The states an [Entry] goes through, who moves it, and the exclusivity of the
    verifications in flight: whatever the interleaving of the requests, a
    verdict is applied to the very challenge it was computed for. *)

From S2P Require Import Prelude Bytes Sha256 Json JsonFacts JsonCanon Stream Env Dict Connection.
From S2P Require Import Attestation AttestationFacts AttestationServer Admission AdmissionFacts.
From S2P Require Import AdmissionSafety AdmissionRun.
Import Json Attestation Admission.

(** ** The automaton of one entry

    [lo] and [hi] bound the clock readings of the request that moves it. *)

Inductive moves (lo hi : Z) (e : Entry) : Entry → Prop :=
| Expire : e_state e ≠ REVOKED →
    (e_deadline e <= hi ∨ e_state e = ALLOWED ∧ lease_deadline e <= hi) → moves lo hi e (set_state EXPIRED e)
| Revoke : moves lo hi e (set_state REVOKED e)
| Challenge (until : Z) (vl : loc) : e_state e ≠ REVOKED → e_state e ≠ VERIFYING →
    (e_state e = CHALLENGED → challenge_deadline e <= hi) → lo < e_deadline e →
    moves lo hi e (MkEntry (e_binding e) (e_deadline e) CHALLENGED (lease_deadline e) until (Some vl))
| Submit (vl : loc) : e_state e = CHALLENGED → lo < e_deadline e → e_verifier e = Some vl →
    moves lo hi e (set_state VERIFYING e).

(** The end of a verification. *)
Inductive judges (e : Entry) : Entry → Prop :=
| Failed : e_state e = VERIFYING → judges e (set_state DENIED e)
| Judged (x : state) (lease : Z) : e_state e = VERIFYING → x = ALLOWED ∨ x = DENIED → lease <= e_deadline e →
    judges e (MkEntry (e_binding e) (e_deadline e) x lease (challenge_deadline e) (e_verifier e)).

(** What a request does to the entries: nothing, a new one, or one moves. *)
Inductive heap_moves (lo hi : Z) (h : list Entry) : list Entry → Prop :=
| NoMove : heap_moves lo hi h h
| NewEntry (e : Entry) : e_state e = REGISTERED ∨ e_state e = EXPIRED → heap_moves lo hi h (h ++ [e])
| OneMove (l : loc) (e e' : Entry) : h !! l = Some e → moves lo hi e e' → heap_moves lo hi h (<[l := e']> h).

Lemma moves_widen lo lo' hi hi' e e' : lo' <= lo → hi <= hi' → moves lo hi e e' → moves lo' hi' e e'.
Proof.
  intros Hlo Hhi Hm. destruct Hm.
  - apply Expire; [done|]. destruct H0 as [?|[? ?]]; [left|right; split; [done|]]; lia.
  - apply Revoke.
  - apply Challenge; try done; [|lia]. intros Hc. specialize (H1 Hc). lia.
  - by apply (Submit _ _ _ vl); [|lia|].
Qed.
Lemma heap_moves_widen lo lo' hi hi' h h' : lo' <= lo → hi <= hi' → heap_moves lo hi h h' → heap_moves lo' hi' h h'.
Proof.
  intros Hlo Hhi [|e He|l e e' He Hm]; [constructor|by constructor|].
  eapply OneMove; [done|]. by eapply moves_widen.
Qed.

Lemma expire_moves lo now e : expire now e = e ∨ moves lo now e (expire now e).
Proof.
  unfold expire. destruct (decide (e_state e = REVOKED)) as [Hr|Hr].
  { left. rewrite (bool_decide_eq_true_2 _ Hr). cbn. by rewrite Hr. }
  rewrite (bool_decide_eq_false_2 _ Hr). cbn. destruct (Z.leb_spec (e_deadline e) now).
  { right. cbn. apply Expire; [done|by left]. }
  destruct (decide (e_state e = ALLOWED)) as [Ha|Ha].
  - rewrite (bool_decide_eq_true_2 _ Ha). cbn. destruct (Z.leb_spec (lease_deadline e) now); [right|by left].
    apply Expire; [done|by right].
  - rewrite (bool_decide_eq_false_2 _ Ha). by left.
Qed.

Section requests.
Context `{Env} {V : Type} `{VerifierLaws V}.
Notation registry := (AdmissionRegistry V).
Implicit Types r : registry.

Lemma status_moves l w r a w' r' e lo :
  _status l (w, r) = (a, (w', r')) → heap r !! l = Some e →
  heap_moves lo (mono w') (heap r) (heap r').
Proof.
  intros Hs He. apply (status_spec _ _ _ _ _ _ e) in Hs as (_ & _ & ->); [|done]. cbn.
  destruct (expire_moves lo (mono w') e) as [->|Hm]; [|by eapply OneMove].
  rewrite list_insert_id by done. constructor.
Qed.

Lemma register_moves identity d w r a w' r' :
  _register identity d (w, r) = (a, (w', r')) →
  heap r' = heap r ∨ ∃ e, (e_state e = REGISTERED ∨ e_state e = EXPIRED) ∧ heap r' = heap r ++ [e].
Proof.
  unfold _register. intros Hi.
  assert (Hstop : ∀ (e : exn) w1 r1, heap r1 = heap r → a = Raise e ∧ (w', r') = (w1, r1) →
    heap r' = heap r ∨ ∃ e, (e_state e = REGISTERED ∨ e_state e = EXPIRED) ∧ heap r' = heap r ++ [e]).
  { intros e w1 r1 Hh [_ [= -> ->]]. by left. }
  apply st_bind_inv in Hi as ([v1|?] & s1 & E & Hi); apply lift_inv in E as [_ ->]; [|by eauto].
  apply st_bind_inv in Hi as ([session|?] & s1 & E & Hi); apply lift_inv in E as [_ ->]; [|by eauto].
  apply st_bind_inv in Hi as ([v2|?] & s1 & E & Hi); apply lift_inv in E as [_ ->]; [|by eauto].
  apply st_bind_inv in Hi as ([att|?] & s1 & E & Hi); apply lift_inv in E as [_ ->]; [|by eauto].
  apply st_bind_inv in Hi as ([peer|?] & s1 & E & Hi); apply lift_inv in E as [_ ->]; [|by eauto].
  destruct peer as [| |peer| | | |]; try (injection Hi as _ _ <-; by left).
  apply st_bind_inv in Hi as (a1 & s1 & E & Hi).
  apply raise_when_spec in E as (-> & [[_ ->]|[_ ->]]); [|by eauto].
  apply st_bind_inv in Hi as (a1 & s1 & [= <- <-] & Hi). cbn [snd] in Hi.
  apply st_bind_inv in Hi as (a1 & s1 & E & Hi).
  apply raise_when_spec in E as (-> & [[_ ->]|[_ ->]]); [|by eauto].
  apply st_bind_inv in Hi as (a1 & s1 & E & Hi). apply on_clock_inv in E as (w1 & -> & -> & _).
  apply st_bind_inv in Hi as (a1 & s1 & [= <- <-] & Hi). cbn [fst snd] in Hi.
  set (r1 := set_entries (kept (mono w1) r) r) in *.
  apply st_bind_inv in Hi as (a1 & s1 & [= <- <-] & Hi). cbn [snd] in Hi.
  apply st_bind_inv in Hi as (a1 & s1 & E & Hi).
  apply raise_when_spec in E as (-> & [[_ ->]|[_ ->]]); [|by eapply (Hstop _ _ r1)].
  apply st_bind_inv in Hi as (a1 & s1 & E & Hi).
  apply raise_when_spec in E as (-> & [[_ ->]|[_ ->]]); [|by eapply (Hstop _ _ r1)].
  apply st_bind_inv in Hi as (a1 & [w2 r2] & E & Hi). apply on_world_inv in E as [E ->].
  apply token_hex_spec in E as (_ & id & -> & _).
  apply st_bind_inv in Hi as (a1 & s1 & E & Hi).
  apply raise_when_spec in E as (-> & [[_ ->]|[_ ->]]); [|by eapply (Hstop _ _ r1)].
  apply st_bind_inv in Hi as (a1 & [w3 r3] & E & Hi). apply on_world_inv in E as [E ->].
  apply token_hex_spec in E as (_ & conn & -> & _).
  apply st_bind_inv in Hi as (a1 & s1 & [= <- <-] & Hi). cbn [fst snd] in Hi.
  set (e := MkEntry _ _ _ _ _ _) in Hi. set (r4 := set_entries _ _) in Hi.
  assert (He : heap r4 !! length (heap r1) = Some e) by (by apply list_lookup_middle).
  eapply status_spec in Hi as (_ & _ & ->); [|exact He]. right. cbn.
  exists (expire (mono w') e). split.
  - unfold expire. cbn. destruct (_ <=? _); cbn; [by right|by left].
  - change (heap r1) with (heap r). by rewrite insert_app_r_alt, Nat.sub_diag by lia.
Qed.

Lemma challenge_moves identity l entry w r a w' r' log :
  challenge_op identity l entry (w, r) = (a, (w', r')) →
  heap r !! l = Some entry → attestor (e_binding entry) = identity → e_state entry ≠ REVOKED →
  reg_ok (mono w) r log → mono w < e_deadline entry →
  heap_moves (mono w) (mono w') (heap r) (heap r').
Proof.
  unfold challenge_op. intros Hi He Hatt Hrev Hok Hd.
  apply st_bind_inv in Hi as (a1 & [w0 r0] & E & Hi).
  apply challenge_pending_inv in E as (Ht0 & -> & pending & -> & Hpend).
  apply st_bind_inv in Hi as (a1 & s1 & E & Hi).
  apply raise_when_spec in E as (-> & [[Hp ->]|[_ ->]]); [|destruct Hi as [_ [= -> ->]]; constructor].
  specialize (Hpend Hp) as [Hnv Hch].
  apply st_bind_inv in Hi as (a1 & [w2 r2] & E & Hi).
  apply (issue_bound_ok _ _ _ _ _ _ _ log) in E as ((Ht2 & _) & Hheap & Ha);
    [|done|by eapply reg_ok_later].
  destruct Ha as [(e & ->)|(vl & sa & c & x & -> & _)].
  { destruct Hi as [_ [= -> ->]]. rewrite Hheap. constructor. }
  apply st_bind_inv in Hi as (a1 & s1 & E & Hi). apply on_clock_inv in E as (w3 & -> & -> & Ht3).
  apply st_bind_inv in Hi as (a1 & s1 & [= <- <-] & Hi). cbn [snd] in Hi.
  apply st_bind_inv in Hi as (a1 & s1 & [= <- <-] & Hi). injection Hi as _ <- <-. cbn [fst snd heap set_heap].
  rewrite Hheap, (alter_lookup _ _ _ entry) by done. eapply OneMove; [done|]. apply Challenge; try done.
  intros Hc. specialize (Hch Hc). lia.
Qed.

(** The first part of [dispatch]: at most one entry moves; and when a
    verification starts, it is for the challenge the entry was waiting on. *)
Definition started_job r r' (j : job) : Prop :=
  ∃ e, heap r !! j_entry j = Some e ∧ e_state e = CHALLENGED ∧ e_verifier e = Some (j_verifier j) ∧
    heap r' = <[j_entry j := set_state VERIFYING e]> (heap r).
Lemma begin_moves identity message w r a w' r' log :
  dispatch_begin identity message (w, r) = (a, (w', r')) → reg_ok (mono w) r log →
  heap_moves (mono w) (mono w') (heap r) (heap r') ∧ ∀ j, a = Ok (inr j) → started_job r r' j.
Proof.
  unfold dispatch_begin. intros Hi Hok.
  assert (Hstop : ∀ (e : exn) w1, a = Raise e ∧ (w', r') = (w1, r) →
    heap_moves (mono w) (mono w') (heap r) (heap r') ∧ ∀ j, a = Ok (inr j) → started_job r r' j).
  { intros e w1 [-> [= -> ->]]. split; [constructor|done]. }
  assert (Hreply : ∀ (m : st (world * registry) dict) s,
    (reply ← m; mret (inl reply)) s = (a, (w', r')) → (∀ j, a = Ok (inr j) → started_job r r' j) ∧
    ∃ a1, m s = (a1, (w', r'))).
  { intros m s Em. apply st_bind_inv in Em as ([reply|e] & s1 & E & Em).
    - injection Em as <- ->. split; [done|]. by eexists.
    - destruct Em as [-> ->]. split; [done|]. by eexists. }
  apply st_bind_inv in Hi as ([[operation d]|?] & s1 & E & Hi); apply lift_inv in E as [_ ->]; [|by eauto].
  apply st_bind_inv in Hi as (a1 & s1 & [= <- <-] & Hi). cbn [snd] in Hi.
  apply st_bind_inv in Hi as (a1 & s1 & E & Hi).
  apply raise_when_spec in E as (-> & [[_ ->]|[_ ->]]); [|by eauto].
  destruct (bool_decide (operation = u "register")) eqn:Eop.
  { apply Hreply in Hi as [? (a1 & Hi)]. split; [|done].
    apply register_moves in Hi as [->|(e & He & ->)]; by constructor. }
  apply st_bind_inv in Hi as ([v|?] & s1 & E & Hi); apply lift_inv in E as [_ ->]; [|by eauto].
  apply st_bind_inv in Hi as ([aid|?] & s1 & E & Hi); apply lift_inv in E as [_ ->]; [|by eauto].
  apply st_bind_inv in Hi as ([l|?] & s1 & E & Hi); apply lift_inv in E as [_ ->]; [|by eauto].
  apply st_bind_inv in Hi as (a1 & s1 & E & Hi).
  apply read_entry_inv in E as (-> & [[_ ->]|(entry & He & ->)]); [by eauto|].
  apply st_bind_inv in Hi as (a1 & s1 & E & Hi).
  apply raise_when_spec in E as (-> & [[Hrole ->]|[_ ->]]); [|by eauto]. bools.
  destruct (bool_decide (operation = u "status")) eqn:Eop2.
  { apply Hreply in Hi as [? (a1 & Hi)]. split; [|done]. by eapply status_moves. }
  destruct (bool_decide (operation = u "revoke")) eqn:Eop3.
  { apply st_bind_assoc in Hi. apply Hreply in Hi as [? (a1 & Hi)]. split; [|done].
    apply st_bind_inv in Hi as (a2 & s1 & [= <- <-] & Hi). cbn [fst snd] in Hi.
    rewrite (alter_lookup _ _ _ entry) in Hi by done.
    eapply status_spec in Hi as (_ & _ & ->);
      [|cbn; apply list_lookup_insert_eq; by eapply lookup_lt_Some].
    cbn. rewrite list_insert_insert_eq. eapply OneMove; [done|].
    assert (expire (mono w') (set_state REVOKED entry) = set_state REVOKED entry) as -> by done. apply Revoke. }
  assert (Hatt : attestor (e_binding entry) = identity).
  { unfold role_of, is_controller_op in Hrole. bools.
    rewrite bool_decide_eq_false_2 in Hrole; [done|]. set_solver. }
  apply st_bind_inv in Hi as (a1 & [w1 r1] & E & Hi).
  apply closed_inv in E as (Ht & -> & closed & -> & Hcl).
  apply st_bind_inv in Hi as (a1 & s1 & E & Hi).
  apply raise_when_spec in E as (-> & [[Hc ->]|[_ ->]]); [|by eauto].
  specialize (Hcl Hc) as [Hnr Hdl].
  destruct (bool_decide (operation = u "challenge")) eqn:Eop4.
  { apply Hreply in Hi as [? (a1 & Hi)]. split; [|done].
    eapply heap_moves_widen; [exact Ht|reflexivity|]. eapply challenge_moves; try done. by eapply reg_ok_later. }
  apply st_bind_inv in Hi as (a1 & s1 & E & Hi).
  apply raise_when_spec in E as (-> & [[Hst ->]|[_ ->]]); [|by eauto]. bools.
  apply st_bind_inv in Hi as ([ev|?] & s1 & E & Hi); apply lift_inv in E as [_ ->]; [|by eauto].
  destruct ev; try (injection Hi as <- <- <-; split; [constructor|done]).
  apply st_bind_inv in Hi as (a1 & s1 & [= <- <-] & Hi). cbn [fst snd] in Hi.
  rewrite (alter_lookup _ _ _ entry) in Hi by done.
  destruct (eo_pending _ _ _ _ _ (ro_heap _ _ _ Hok l entry He) (or_introl Hst)) as [vl Hvl].
  rewrite Hvl in Hi. injection Hi as <- <- <-. cbn. split.
  - eapply OneMove; [done|]. by eapply (Submit _ _ _ vl); [|lia|].
  - intros j [= <-]. cbn. by exists entry.
Qed.
End requests.

Section runs.
Context `{Env} {V : Type} `{VerifierLaws V}.
Notation registry := (AdmissionRegistry V).
Implicit Types r : registry.

(** The last part of [dispatch]: the entry of the job is judged, or nothing happens. *)
Definition judged (hi : Z) (j : job) (e e' : Entry) (outcome a : result dict) : Prop :=
  ∃ e1, judges e e1 ∧ (e' = e1 ∨ moves hi hi e1 e') ∧
    (e_state e' = ALLOWED → ∃ res reply, outcome = Ok res ∧ a = Ok reply ∧ decision res = Some (status "ALLOW")).
Lemma finish_moves j outcome w r a w' r' e :
  dispatch_finish j outcome (w, r) = (a, (w', r')) → heap r !! j_entry j = Some e →
  heap r' = heap r ∨ ∃ e', judged (mono w') j e e' outcome a ∧ heap r' = <[j_entry j := e']> (heap r).
Proof.
  intros Hi He. unfold dispatch_finish in Hi. destruct outcome as [res|e0].
  2:{ apply st_bind_inv in Hi as (a1 & [w1 r1] & E & Hi).
      assert (a1 = Ok tt) as -> by (destruct (is_Exception e0); by injection E).
      injection Hi as -> <- <-. destruct (is_Exception e0); injection E as _ <-; [|by left]. cbn.
      rewrite (alter_lookup _ _ _ e) by done. case_bool_decide as Hst.
      - right. exists (set_state DENIED e). split; [|done]. exists (set_state DENIED e).
        split_and!; [by apply Failed|by left|done].
      - left. by apply list_insert_id. }
  apply st_bind_inv in Hi as (a1 & s1 & [= <- <-] & Hi). cbn [snd] in Hi.
  apply st_bind_inv in Hi as (a1 & s1 & E & Hi).
  apply read_entry_inv in E as (-> & [[? _]|(e1 & He1 & ->)]); [congruence|].
  rewrite He in He1. injection He1 as <-.
  apply st_bind_inv in Hi as (a1 & s1 & E & Hi).
  apply raise_when_spec in E as (-> & [[Hg ->]|[_ ->]]); [|destruct Hi as [_ [= _ ->]]; by left].
  apply orb_false_iff in Hg as [_ Hst]. bools.
  apply st_bind_inv in Hi as ([dec|?] & s1 & E & Hi); apply lift_inv in E as [Ed ->];
    [|destruct Hi as [_ [= _ ->]]; by left].
  apply d_item_Ok in Ed.
  apply st_bind_inv in Hi as (a1 & s1 & [= <- <-] & Hi). cbn [fst snd] in Hi.
  rewrite (alter_lookup _ _ _ e) in Hi by done.
  set (x := if py_eq dec _ then ALLOWED else DENIED) in Hi. set (e' := MkEntry _ _ x _ _ _) in Hi.
  set (r1 := set_heap _ r) in Hi.
  assert (Hl : heap r1 !! j_entry j = Some e') by (apply list_lookup_insert_eq; by eapply lookup_lt_Some).
  apply st_bind_inv in Hi as (a1 & [w2 r2] & E & Hi). eapply status_spec in E as Hs; [|exact Hl]. destruct Hs as (_ & Ha1 & Hr2). subst a1 r2.
  injection Hi as <- <- <-. right. exists (expire (mono w2) e'). split; [|cbn; by rewrite list_insert_insert_eq].
  exists e'. split_and!.
  - apply Judged; [done|unfold x; destruct (py_eq _ _); auto|]. apply Z.le_min_l.
  - apply expire_moves.
  - intros Ha. exists res. eexists. split_and!; [done|done|].
    apply expire_allowed in Ha as Hx. destruct Hx as [Hx _]. rewrite Hx in Ha. cbn in Ha. unfold x in Ha.
    destruct (py_eq dec _) eqn:Ep; [|done]. apply py_eq_str in Ep as ->. unfold decision. by rewrite Ed.
Qed.

(** ** Exclusive verifications *)

(** The request a phase belongs to. *)
Definition in_flight (p : phase) : option job :=
  match p with Ready j | Verifying j _ _ | Finishing j _ => Some j | Gone => None end.
(** The entry waits for this very verification, or is closed for good. *)
Definition holds (now : Z) (e : Entry) (j : job) : Prop :=
  (e_state e = VERIFYING ∧ e_verifier e = Some (j_verifier j)) ∨ e_state e = REVOKED ∨
  (e_state e = EXPIRED ∧ e_deadline e <= now).
Record exclusive (c : cfg (V := V)) : Prop := {
  ex_holds : ∀ i p j, c_phases c !! i = Some p → in_flight p = Some j →
    ∃ e, heap (c_r c) !! j_entry j = Some e ∧ holds (mono (c_w c)) e j;
  ex_one : ∀ i k p q j j', c_phases c !! i = Some p → c_phases c !! k = Some q →
    in_flight p = Some j → in_flight q = Some j' → j_entry j = j_entry j' → i = k }.

Lemma holds_later now now' e j : now <= now' → holds now e j → holds now' e j.
Proof. intros Ht [?|[?|[? ?]]]; [by left|by right; left|right; right]. split; [done|lia]. Qed.
Lemma holds_moves lo hi e e' j : lo <= hi → holds lo e j → moves lo hi e e' → holds hi e' j.
Proof.
  intros Hle Hh Hm. destruct Hm as [Hr Hx| |until vl Hr Hv _ Hd|vl Hs Hd _].
  - right. right. cbn. split; [done|]. destruct Hh as [[Hs _]|[?|[Hs ?]]]; [|done|lia].
    destruct Hx as [?|[? _]]; [done|congruence].
  - right. by left.
  - destruct Hh as [[? _]|[?|[_ ?]]]; [done|done|lia].
  - destruct Hh as [[? _]|[?|[? _]]]; congruence.
Qed.
Lemma heap_moves_holds lo hi h h' l e j : lo <= hi → heap_moves lo hi h h' →
  h !! l = Some e → holds lo e j → ∃ e', h' !! l = Some e' ∧ holds hi e' j.
Proof.
  intros Hle Hm He Hh. destruct Hm as [|e1 _|k e1 e2 He1 Hm].
  - exists e. split; [done|]. by eapply holds_later.
  - exists e. rewrite lookup_app_l by (by eapply lookup_lt_Some). split; [done|]. by eapply holds_later.
  - destruct (decide (k = l)) as [->|Hne].
    + rewrite He in He1. injection He1 as <-. exists e2.
      rewrite list_lookup_insert_eq by (by eapply lookup_lt_Some). split; [done|]. by eapply holds_moves.
    + exists e. rewrite list_lookup_insert_ne by done. split; [done|]. by eapply holds_later.
Qed.

(** A step of a verification that is not over. *)
Lemma exclusive_same w r ps log w' r' ps' log' :
  exclusive (Cfg w r ps log) → mono w <= mono w' → heap r' = heap r →
  (∀ i p' j, ps' !! i = Some p' → in_flight p' = Some j → ∃ p, ps !! i = Some p ∧ in_flight p = Some j) →
  exclusive (Cfg w' r' ps' log').
Proof.
  intros [X1 X2] Ht Hh Hp. split; cbn in *.
  - intros i p' j Hi Hj. destruct (Hp i p' j Hi Hj) as (p & Hi' & Hj'). destruct (X1 i p j Hi' Hj') as (e & He & Hx).
    exists e. rewrite Hh. split; [done|]. by eapply holds_later.
  - intros i k p' q' j j' Hi Hk Hj Hj' E. destruct (Hp i p' j Hi Hj) as (p & ? & ?), (Hp k q' j' Hk Hj') as (q & ? & ?).
    by eapply X2.
Qed.
Lemma in_flight_insert (ps : list phase) i p q :
  ps !! i = Some p → in_flight q = in_flight p →
  ∀ k p' j, <[i := q]> ps !! k = Some p' → in_flight p' = Some j → ∃ p0, ps !! k = Some p0 ∧ in_flight p0 = Some j.
Proof.
  intros Hi Hq k p' j Hk Hj. apply list_lookup_insert_Some in Hk as [(<- & <- & _)|[_ Hk]]; [|by eauto].
  exists p. split; [done|congruence].
Qed.

(** A phase that ends. *)
Lemma exclusive_finish w r ps log w' r' i j outcome a :
  exclusive (Cfg w r ps log) → ps !! i = Some (Finishing j outcome) → mono w <= mono w' →
  dispatch_finish j outcome (w, r) = (a, (w', r')) → exclusive (Cfg w' r' (<[i := Gone]> ps) log).
Proof.
  intros [X1 X2] Hi Ht Ef. cbn in *. destruct (X1 i _ j Hi eq_refl) as (e & He & _).
  apply (finish_moves _ _ _ _ _ _ _ e) in Ef as Hheap; [|done].
  assert (Hback : ∀ k p' j', <[i := Gone]> ps !! k = Some p' → in_flight p' = Some j' → k ≠ i ∧ ps !! k = Some p').
  { intros k p' j' Hk Hj'. apply list_lookup_insert_Some in Hk as [(_ & <- & _)|[? ?]]; [done|by split]. }
  split; cbn.
  - intros k p' j' Hk Hj'. apply (Hback _ _ j') in Hk as [Hne Hk]; [|done].
    destruct (X1 k p' j' Hk Hj') as (e1 & He1 & Hh). exists e1. split; [|by eapply holds_later].
    destruct Hheap as [->|(e' & _ & ->)]; [done|].
    rewrite list_lookup_insert_ne; [done|]. intros E. apply Hne. symmetry. by eapply X2.
  - intros k1 k2 p q j1 j2 H1' H2' Hj1 Hj2 E. apply (Hback _ _ j1) in H1' as [_ ?]; [|done].
    apply (Hback _ _ j2) in H2' as [_ ?]; [|done]. by eapply X2.
Qed.

(** A request that begins. *)
Lemma exclusive_begin w r ps log w' r' identity message a :
  exclusive (Cfg w r ps log) → reg_ok (mono w) r log → mono w <= mono w' →
  dispatch_begin identity message (w, r) = (a, (w', r')) →
  exclusive (Cfg w' r' (match a with Ok (inr j) => ps ++ [Ready j] | _ => ps end) log).
Proof.
  intros [X1 X2] Hok Ht Eb. cbn in *. eapply begin_moves in Eb as [Hm Hj]; [|done].
  assert (Hold : ∀ i p j, ps !! i = Some p → in_flight p = Some j →
    ∃ e, heap r' !! j_entry j = Some e ∧ holds (mono w') e j).
  { intros i p j Hi Hp. destruct (X1 i p j Hi Hp) as (e & He & Hh). by eapply heap_moves_holds. }
  destruct a as [[reply|j]|e]; try by split.
  destruct (Hj j eq_refl) as (e & He & Hs & Hv & Hheap).
  assert (Hnone : ∀ i p j', ps !! i = Some p → in_flight p = Some j' → j_entry j' ≠ j_entry j).
  { intros i p j' Hi Hp E. destruct (X1 i p j' Hi Hp) as (e1 & He1 & Hh). rewrite E, He in He1.
    injection He1 as <-. destruct Hh as [[? _]|[?|[? _]]]; congruence. }
  assert (Hlk : ∀ i p, (ps ++ [Ready j]) !! i = Some p → ps !! i = Some p ∨ (p = Ready j ∧ i = length ps)).
  { intros i p [?|[? Hx]]%lookup_app_Some; [by left|right].
    apply list_lookup_singleton_Some in Hx as [? <-]. split; [done|lia]. }
  split; cbn.
  - intros i p j' [Hi|[-> _]]%Hlk Hp; [by eauto|]. injection Hp as <-.
    exists (set_state VERIFYING e). rewrite Hheap, list_lookup_insert_eq by (by eapply lookup_lt_Some).
    split; [done|]. by left.
  - intros i k p q j1 j2 [Hi|[-> ->]]%Hlk [Hk|[-> ->]]%Hlk Hp Hq E; [by eapply X2| | |done].
    + injection Hq as <-. by destruct (Hnone _ _ _ Hi Hp).
    + injection Hp as <-. symmetry in E. by destruct (Hnone _ _ _ Hk Hq).
Qed.

Lemma step_exclusive act c : cfg_ok c → exclusive c → exclusive (step act c).1.
Proof.
  intros Hok X. destruct (step_ok act c Hok) as (_ & _ & Ht & _). destruct c as [w r ps log].
  destruct act as [identity message|i|i|i]; cbn [step c_w c_r c_phases c_log] in *.
  - destruct (dispatch_begin identity message (w, r)) as [a [w' r']] eqn:E.
    eapply exclusive_begin in E; [|done|apply Hok|by destruct a as [[]|]].
    by destruct a as [[]|].
  - destruct (ps !! i) as [[j| | |]|] eqn:Ei; try done.
    destruct (with_server _ _ _) as [a [w' r']] eqn:E. cbn [fst] in *.
    eapply exclusive_same; [exact X|exact Ht| |].
    + by apply with_server_inv in E as [(_ & _ & _ & ->)|(x & srv & _ & _ & ->)].
    + eapply in_flight_insert; [done|]. by destruct a as [[|[]]|].
  - destruct (ps !! i) as [[|j base x| |]|] eqn:Ei; try done.
    destruct (verifiers r !! j_verifier j) as [bc|] eqn:Ebc; [|done].
    destruct (submit_finish _ _ _ _ _) as [a w'] eqn:E. cbn [fst] in *.
    eapply exclusive_same; [exact X|exact Ht|done|]. by eapply in_flight_insert.
  - destruct (ps !! i) as [[| |j outcome|]|] eqn:Ei; try done.
    destruct (dispatch_finish j outcome (w, r)) as [a [w' r']] eqn:E. cbn [fst] in *. by eapply exclusive_finish.
Qed.
Lemma run_exclusive acts c : cfg_ok c → exclusive c → exclusive (run acts c).
Proof.
  revert c. induction acts as [|act acts IH]; intros c Hc X; [done|]. cbn [run foldl].
  apply IH; [by apply step_ok|by apply step_exclusive].
Qed.
Lemma started_exclusive cs atts limits w0 c : started cs atts limits w0 c → exclusive c.
Proof. destruct limits as [[[m b] ch] le]. intros (w & r & _ & ->). by split. Qed.

(** The entries over one step. *)
Definition life (lo hi : Z) (e e' : Entry) : Prop :=
  moves lo hi e e' ∨ ∃ e1, judges e e1 ∧ (e' = e1 ∨ moves hi hi e1 e').

(** Every step leaves each entry alone or takes it along the automaton: a
    challenge only while the binding lives and nothing is being verified, a
    verification only from a challenge, a verdict only from a verification,
    nothing from REVOKED but REVOKED. *)
Theorem entry_automaton cs atts limits w0 c0 acts act l e :
  started cs atts limits w0 c0 →
  let c := run acts c0 in let c' := (step act c).1 in
  heap (c_r c) !! l = Some e →
  ∃ e', heap (c_r c') !! l = Some e' ∧ (e' = e ∨ life (mono (c_w c)) (mono (c_w c')) e e').
Proof.
  intros Hst c c' He. apply started_ok in Hst as Hc0. destruct Hc0 as [Hc0 _].
  destruct (run_ok acts c0 Hc0) as (Hok & _). fold c in Hok. unfold c'. clear c'. clearbody c.
  destruct c as [w r ps log]. cbn in He.
  assert (Hsame : ∀ w' r' ps' log', heap r' = heap r →
    ∃ e', heap (c_r (Cfg w' r' ps' log')) !! l = Some e' ∧ (e' = e ∨ life (mono w) (mono w') e e')).
  { intros w' r' ps' log' Hh. exists e. cbn. rewrite Hh. split; [done|by left]. }
  destruct act as [identity message|i|i|i]; cbn [step c_w c_r c_phases c_log].
  - destruct (dispatch_begin identity message (w, r)) as [a [w' r']] eqn:E.
    eapply begin_moves in E as [Hm _]; [|apply Hok].
    assert (∃ e', heap r' !! l = Some e' ∧ (e' = e ∨ life (mono w) (mono w') e e')) as Hgoal.
    { destruct Hm as [|e1 _|k e1 e2 He1 Hm].
      - exists e. split; [done|by left].
      - exists e. rewrite lookup_app_l by (by eapply lookup_lt_Some). split; [done|by left].
      - destruct (decide (k = l)) as [->|Hne].
        + rewrite He in He1. injection He1 as <-. exists e2.
          rewrite list_lookup_insert_eq by (by eapply lookup_lt_Some). split; [done|]. right. by left.
        + exists e. rewrite list_lookup_insert_ne by done. split; [done|by left]. }
    by destruct a as [[]|].
  - destruct (ps !! i) as [[j| | |]|] eqn:Ei; try by apply Hsame.
    destruct (with_server _ _ _) as [a [w' r']] eqn:E. apply Hsame.
    by apply with_server_inv in E as [(_ & _ & _ & ->)|(x & srv & _ & _ & ->)].
  - destruct (ps !! i) as [[|j base x| |]|] eqn:Ei; try by apply Hsame.
    destruct (verifiers r !! j_verifier j) as [bc|] eqn:Ebc; [|by apply Hsame].
    destruct (submit_finish _ _ _ _ _) as [a w']. by apply Hsame.
  - destruct (ps !! i) as [[| |j outcome|]|] eqn:Ei; try by apply Hsame.
    destruct (dispatch_finish j outcome (w, r)) as [a [w' r']] eqn:E. cbn [fst c_r c_w].
    assert (phase_ok r log (Finishing j outcome)) as [(ej & _ & Hej & _) _].
    { eapply Forall_lookup_1; [apply (co_phases _ Hok)|exact Ei]. }
    eapply finish_moves in E as [Hh|(e2 & (e1 & Hj & He2 & _) & Hh)]; [exists e; rewrite Hh; split; [done|by left]| |exact Hej].
    rewrite Hh. destruct (decide (j_entry j = l)) as [Heq|Hne].
    + rewrite Heq in *. rewrite He in Hej. injection Hej as <-. exists e2.
      rewrite list_lookup_insert_eq by (by eapply lookup_lt_Some). split; [done|]. right. right. by exists e1.
    + exists e. rewrite list_lookup_insert_ne by done. split; [done|by left].
Qed.

(** C13.  Verifications are exclusive: whatever requests run concurrently, at most
    one is in flight for an entry, and while it is, the entry is VERIFYING the
    very challenge it answers, or has been revoked, or has outlived its
    deadline; so no verdict is ever applied to another challenge than the one
    it was computed for. *)
Theorem one_verification cs atts limits w0 c0 acts i p j :
  started cs atts limits w0 c0 →
  let c := run acts c0 in
  c_phases c !! i = Some p → in_flight p = Some j →
  (∃ e, heap (c_r c) !! j_entry j = Some e ∧
    ((e_state e = VERIFYING ∧ e_verifier e = Some (j_verifier j)) ∨ e_state e = REVOKED ∨
     (e_state e = EXPIRED ∧ e_deadline e <= mono (c_w c)))) ∧
  ∀ k q j', c_phases c !! k = Some q → in_flight q = Some j' → j_entry j' = j_entry j → k = i.
Proof.
  intros Hst c Hi Hp. apply started_ok in Hst as Hc0. destruct Hc0 as [Hc0 _].
  pose proof (run_exclusive acts c0 Hc0 (started_exclusive _ _ _ _ _ Hst)) as [X1 X2]. fold c in X1, X2.
  split; [exact (X1 i p j Hi Hp)|]. intros k q j' Hk Hq E. by eapply X2.
Qed.

(** The only step that makes an entry ALLOWED is the end of a verification
    whose reply was ALLOW, run by the verifier object of the challenge the entry
    is still waiting for. *)
Theorem allowed_by_current_verdict cs atts limits w0 c0 acts act l e e' :
  started cs atts limits w0 c0 →
  let c := run acts c0 in let c' := (step act c).1 in
  heap (c_r c) !! l = Some e → e_state e ≠ ALLOWED →
  heap (c_r c') !! l = Some e' → e_state e' = ALLOWED →
  ∃ i j res, act = AFinish i ∧ c_phases c !! i = Some (Finishing j (Ok res)) ∧ j_entry j = l ∧
    e_state e = VERIFYING ∧ e_verifier e = Some (j_verifier j) ∧ decision res = Some (status "ALLOW").
Proof.
  intros Hst c c' He Hna He' Ha. apply started_ok in Hst as Hc0. destruct Hc0 as [Hc0 _].
  destruct (run_ok acts c0 Hc0) as (Hok & _).
  pose proof (run_exclusive acts c0 Hc0 (started_exclusive _ _ _ _ _ Hst)) as [X1 _].
  fold c in Hok, X1. unfold c' in He'. clear c'. clearbody c. destruct c as [w r ps log]. cbn in He, X1.
  assert (Hmoved : ∀ lo hi e1 e2, moves lo hi e1 e2 → e_state e2 ≠ ALLOWED) by (intros ???? []; done).
  destruct act as [identity message|i|i|i]; cbn [step c_w c_r c_phases c_log] in *.
  - destruct (dispatch_begin identity message (w, r)) as [a [w' r']] eqn:E.
    eapply begin_moves in E as [Hm _]; [|apply Hok].
    assert (heap r' !! l = Some e') as Hl by (by destruct a as [[]|]). clear He'.
    destruct Hm as [|e1 _|k e1 e2 He1 Hm]; [congruence| |].
    + rewrite lookup_app_l in Hl by (by eapply lookup_lt_Some). congruence.
    + apply list_lookup_insert_Some in Hl as [(_ & -> & _)|[_ ?]]; [|congruence]. by apply Hmoved in Hm.
  - destruct (ps !! i) as [[j| | |]|] eqn:Ei; cbn in He'; try congruence.
    destruct (with_server _ _ _) as [a [w' r']] eqn:E.
    apply with_server_inv in E as [(_ & _ & _ & ->)|(x & srv & _ & _ & ->)]; cbn in He'; congruence.
  - destruct (ps !! i) as [[|j base x| |]|] eqn:Ei; cbn in He'; try congruence.
    destruct (verifiers r !! j_verifier j) as [bc|] eqn:Ebc; [|cbn in He'; congruence].
    destruct (submit_finish _ _ _ _ _) as [a w']; cbn in He'; congruence.
  - destruct (ps !! i) as [[| |j outcome|]|] eqn:Ei; cbn in He'; try congruence.
    destruct (dispatch_finish j outcome (w, r)) as [a [w' r']] eqn:E. cbn in He'.
    destruct (X1 i _ j Ei eq_refl) as (ej & Hej & Hh).
    eapply finish_moves in E as [Hh'|(e2 & (e1 & Hj & _ & Hal) & Hh')]; [rewrite Hh' in He'; congruence| |exact Hej].
    rewrite Hh' in He'. apply list_lookup_insert_Some in He' as [(Hl & -> & _)|[_ ?]]; [|congruence].
    destruct (Hal Ha) as (res & reply & -> & -> & Hd). exists i, j, res.
    rewrite Hl, He in Hej. injection Hej as <-.
    assert (e_state e = VERIFYING) as Hv by (by destruct Hj).
    split_and!; try done. destruct Hh as [[_ ?]|[?|[? _]]]; congruence.
Qed.
End runs.
