(* ===== verification/AdmissionService.v ===== *)
(** * The admission service ([AdmissionService], [load_registry], [exchange])

    One request per TLS connection, at most eight handlers and four
    verifications at a time: the handler, the service's counters as a state
    machine, the operator's configuration and the client's exchange. *)

From S2P Require Import Prelude Bytes Sha256 Json JsonCanon Stream Env Dict Connection Attestation Admission.
Import Json Stream Attestation Admission.

Module AdmissionService.

(** ** Counters *)

Record counters := Counters { tasks : Z; closing : bool; verifications : Z }.

(** The first lines of [handle]: whether the connection is served. *)
Definition admit_task (s : counters) : bool * counters :=
  let accepted := negb (closing s) && (tasks s <? 8) in
  (accepted, if accepted then Counters (tasks s + 1) (closing s) (verifications s) else s).
Definition discard_task (s : counters) : counters := Counters (tasks s - 1) (closing s) (verifications s).
Definition reserve : st counters unit := λ s,
  if 4 <=? verifications s then (Raise (ValueError "VERIFIER_BUSY"), s)
  else (Ok tt, Counters (tasks s) (closing s) (verifications s + 1)).
Definition release (s : counters) : counters := Counters (tasks s) (closing s) (verifications s - 1).
(** [close()], before it waits for the handlers. *)
Definition start_closing (s : counters) : counters := Counters (tasks s) true (verifications s).

(** ** The handler *)

Record AdmissionService (V : Type) := Service { registry : AdmissionRegistry V; counts : counters }.
Arguments Service {V}.
Arguments registry {V}.
Arguments counts {V}.

(** The reply to a request refused with [ValueError]. *)
Definition refusal (reason : string) : dict :=
  [(u "protocol_version", VStr PROTOCOL); (u "allow", VBool false); (u "error", VStr (u reason))].

Definition refuse (e : exn) : option dict :=
  match e with ValueError reason => Some (refusal reason) | _ => None end.

Section handler.
Context `{Env} `{Peer} {V : Type} `{Verifier V} `{Interference (AdmissionService V)}.
Abbreviation handler := (st (conn (AdmissionService V))).

Definition with_registry {A} (m : st (world * AdmissionRegistry V) A) : handler A :=
  shared (λ s, let '(r, (w, x)) := m (s.1, registry s.2) in (r, (w, Service x (counts s.2)))).
Definition with_counts {A} (m : st counters A) : handler A :=
  shared (λ s, let '(r, x) := m (counts s.2) in (r, (s.1, Service (registry s.2) x))).

(** [await asyncio.to_thread(self.registry.dispatch, identity, message)]: the
    thread's locked parts, the others running in between. *)
Definition dispatch_in_thread (identity : pystr) (message : value) : handler dict :=
  _ ← resumed;
  start ← with_registry (dispatch_begin identity message);
  match start with
  | inl reply => mret reply
  | inr j =>
      _ ← resumed;
      outcome ← with_registry (run_job j);
      _ ← resumed;
      with_registry (dispatch_finish j outcome)
  end.

(** The inner [try]: the reply to a message, or the refusal. *)
Definition answer (identity : pystr) (message : dict) : handler dict :=
  try_except
    (if match d_get message (u "operation") with Some v => py_eq v (status "submit") | None => false end
     then _ ← with_counts reserve;
          try_finally (dispatch_in_thread identity (VDict message))
            (with_counts (modify release))
     else with_registry (dispatch identity (VDict message)))
    (λ e, mret <$> refuse e).

Definition handle_body : handler unit :=
  let identity := sha256_hex certificate in
  message ← await_read (receive (4 * ns_per_s));
  result ← answer identity message;
  frame ← lift (encode result);
  _ ← write frame;
  drain.

(** [handle(reader, writer)] *)
Definition handle : handler unit :=
  accepted ← with_counts (λ s, let '(a, s) := admit_task s in (Ok a, s));
  if accepted : bool then try_finally (swallow handle_body) (with_counts (modify discard_task))
  else mret tt.

(** ** The client ([exchange]), on an open connection *)
Definition exchange (message : dict) : handler dict :=
  frame ← lift (encode message);
  _ ← write frame;
  _ ← drain;
  await_read (receive (12 * ns_per_s)).
End handler.

(** ** The operator's configuration ([load_registry]) *)

Section config.
Context `{Env}.
(** The contents of the files the configuration names. *)
Context (read_file : pystr → result bytes).

Definition file_name (v : value) : result pystr :=
  match v with
  | VStr s => if bool_decide (s = []) then Raise (ValueError "INVALID_CONFIG") else Ok s
  | _ => Raise (ValueError "INVALID_CONFIG")
  end.

Definition load_attestor (config : value) : result QuoteVerifier :=
  match config with
  | VDict d =>
      raise_if! negb (same_keys d [u "ak_public"] || same_keys d [u "ak_public"; u "pcr_policy"])
        then ValueError "INVALID_CONFIG";
      _ ← foldr (λ v r, _ ← file_name v; r) (Ok tt) d.*2;
      v ← d_item d (u "ak_public");
      name ← file_name v;
      key ← read_file name;
      policy ← match d_get d (u "pcr_policy") with
               | Some v => name ← file_name v; Some <$> read_file name
               | None => Ok None
               end;
      new_quote_verifier key policy (u "sha256:0,7")
  | _ => Raise (ValueError "INVALID_CONFIG")
  end.

Fixpoint load_attestors (l : dict) : result (list (pystr * QuoteVerifier)) :=
  match l with
  | [] => Ok []
  | (identity, config) :: l =>
      v ← load_attestor config; vs ← load_attestors l; Ok ((identity, v) :: vs)
  end.

Definition load_registry (config : bytes) : st world (AdmissionRegistry QuoteVerifier) :=
  value ← lift (decode (take (Z.to_nat (MAX_FRAME + 1)) config));
  _ ← raise_when (negb (same_keys value [u "controllers"; u "attestors"])) (ValueError "INVALID_CONFIG");
  controllers ← lift (d_item value (u "controllers"));
  attestors ← lift (d_item value (u "attestors"));
  match controllers, attestors with
  | VList controllers, VDict attestors =>
      verifiers ← lift (load_attestors attestors);
      new_registry controllers verifiers 256 300000 10000 30000
  | _, _ => raise (ValueError "INVALID_CONFIG")
  end.
End config.

(** ** Runs of the counters *)

(** What a handler holds. *)
Inductive holder := Serving | Verification | Left.

Inductive event :=
| Arrive            (* a connection *)
| Begin (i : nat)   (* handler [i] asks for a verification *)
| End (i : nat)     (* its verification ends *)
| Leave (i : nat)   (* it leaves, from its [finally] *)
| Close.

Definition service_step (ev : event) (x : counters * list holder) : counters * list holder :=
  let '(s, hs) := x in
  match ev with
  | Arrive => let '(a, s) := admit_task s in (s, if a then hs ++ [Serving] else hs)
  | Begin i =>
      match hs !! i, reserve s with
      | Some Serving, (Ok _, s) => (s, <[i := Verification]> hs)
      | _, _ => (s, hs)
      end
  | End i => match hs !! i with
             | Some Verification => (release s, <[i := Serving]> hs)
             | _ => (s, hs)
             end
  | Leave i => match hs !! i with
               | Some Serving => (discard_task s, <[i := Left]> hs)
               | _ => (s, hs)
               end
  | Close => (start_closing s, hs)
  end.

Definition service_run (evs : list event) (x : counters * list holder) :=
  foldl (λ x ev, service_step ev x) x evs.

Definition here (h : holder) : bool := match h with Left => false | _ => true end.
Definition verifying (h : holder) : bool := match h with Verification => true | _ => false end.
Fixpoint count {A} (f : A → bool) (l : list A) : Z :=
  match l with [] => 0 | x :: l => Z.b2z (f x) + count f l end.

Lemma count_app {A} (f : A → bool) l k : count f (l ++ k) = count f l + count f k.
Proof. induction l as [|x l IH]; cbn; [done|]. rewrite IH. lia. Qed.

Lemma count_insert {A} (f : A → bool) l i x y :
  l !! i = Some y → count f (<[i := x]> l) = count f l - Z.b2z (f y) + Z.b2z (f x).
Proof.
  revert i. induction l as [|z l IH]; intros [|i]; cbn; [done..| |].
  - intros [= ->]. lia.
  - intros Hi. specialize (IH _ Hi).
    change (Z.b2z (f z) + count f (<[i:=x]> l) = Z.b2z (f z) + count f l - Z.b2z (f y) + Z.b2z (f x)).
    lia.
Qed.

Definition service_inv (x : counters * list holder) : Prop :=
  tasks x.1 = count here x.2 ∧ verifications x.1 = count verifying x.2 ∧
  tasks x.1 <= 8 ∧ verifications x.1 <= 4.

Lemma service_step_inv ev x : service_inv x → service_inv (service_step ev x).
Proof.
  destruct x as [[t c v] hs]. intros (H1 & H2 & H3 & H4). cbn in *.
  unfold service_inv, service_step. destruct ev as [|i|i|i|].
  - unfold admit_task. cbn. destruct (negb c && (t <? 8)) eqn:E; cbn; [|lia].
    bools. rewrite !count_app. cbn. lia.
  - destruct (hs !! i) as [[]|] eqn:E; cbn; try lia.
    unfold reserve. cbn. destruct (Z.leb_spec 4 v); cbn; [lia|].
    rewrite !(count_insert _ _ _ _ _ E). cbn. lia.
  - destruct (hs !! i) as [[]|] eqn:E; cbn; try lia.
    rewrite !(count_insert _ _ _ _ _ E). cbn. lia.
  - destruct (hs !! i) as [[]|] eqn:E; cbn; try lia.
    rewrite !(count_insert _ _ _ _ _ E). cbn. lia.
  - cbn. lia.
Qed.

Lemma service_run_inv evs x : service_inv x → service_inv (service_run evs x).
Proof.
  revert x. induction evs as [|ev evs IH]; intros x Hx; [done|]. apply IH. by apply service_step_inv.
Qed.

Lemma closing_step ev x :
  closing x.1 = true → closing (service_step ev x).1 = true ∧ length (service_step ev x).2 = length x.2.
Proof.
  destruct x as [[t c v] hs]. cbn. intros ->. destruct ev as [|i|i|i|]; cbn; try done;
    try (destruct (hs !! i) as [[]|]; cbn; rewrite ?length_insert; done).
  destruct (hs !! i) as [[]|]; try done. unfold reserve. cbn.
  destruct (4 <=? v); cbn; rewrite ?length_insert; done.
Qed.

(** However connections arrive, verify and leave: at most eight handlers
    and four verifications at a time, the two counters count them exactly (no
    slot is lost or freed twice), and once the service is closing no new
    handler is ever admitted. *)
Theorem service_capacity evs1 evs2 :
  let x := service_run evs1 (Counters 0 false 0, []) in
  let y := service_run evs2 (service_step Close x) in
  (tasks x.1 = count here x.2 ∧ tasks x.1 <= 8) ∧
  (verifications x.1 = count verifying x.2 ∧ verifications x.1 <= 4) ∧
  length y.2 = length x.2 ∧ tasks y.1 <= tasks x.1.
Proof.
  intros x y.
  assert (Hx : service_inv x) by (by apply service_run_inv).
  assert (Hgen : ∀ z, closing z.1 = true → length (service_run evs2 z).2 = length z.2 ∧
    tasks (service_run evs2 z).1 <= tasks z.1).
  { clear. induction evs2 as [|ev evs IH]; intros z Hz; [done|]. cbn.
    destruct (closing_step ev z Hz) as [Hc Hl]. destruct (IH _ Hc) as [Hl' Ht].
    split; [unfold service_run in *; congruence|]. etrans; [exact Ht|].
    destruct z as [[t c v] hs]. cbn in Hz |- *. subst c. destruct ev as [|i|i|i|]; cbn; try done;
      try (destruct (hs !! i) as [[]|]; cbn; lia).
    destruct (hs !! i) as [[]|]; try done. unfold reserve. cbn. destruct (4 <=? v); cbn; lia. }
  destruct Hx as (H1 & H2 & H3 & H4). destruct (Hgen (service_step Close x)) as [Hl Ht].
  { by destruct x as [[] ]. }
  split_and!; try done.
  - unfold y. etrans; [exact Hl|]. by destruct x as [[] ].
  - unfold y. etrans; [exact Ht|]. by destruct x as [[] ].
Qed.

(** ** What a handler sends *)

Section sends.
Context `{Env} `{Peer} {V : Type} `{Verifier V} `{Interference (AdmissionService V)}.

Lemma quiet_registry {A} (m : st (world * AdmissionRegistry V) A) : quiet (X := AdmissionService V) (with_registry m).
Proof. apply quiet_shared. Qed.
Lemma quiet_counts {A} (m : st counters A) : quiet (X := AdmissionService V) (with_counts m).
Proof. apply quiet_shared. Qed.

Lemma quiet_dispatch identity message : quiet (dispatch_in_thread identity message).
Proof.
  apply quiet_bind; [apply quiet_resumed|intros _].
  apply quiet_bind; [apply quiet_registry|intros [reply|j]]; [apply quiet_ret|].
  apply quiet_bind; [apply quiet_resumed|intros _].
  apply quiet_bind; [apply quiet_registry|intros outcome].
  apply quiet_bind; [apply quiet_resumed|intros _]. apply quiet_registry.
Qed.

(** The refusals, and the replies of the registry itself. *)
Definition from_registry (identity : pystr) (message reply : dict) : Prop :=
  ∃ c c', (with_registry (dispatch identity (VDict message)) c = (Ok reply, c') ∨
           dispatch_in_thread identity (VDict message) c = (Ok reply, c')).

Lemma answer_spec identity message c r c' :
  answer identity message c = (r, c') →
  c_out c' = c_out c ∧
  ∀ reply, r = Ok reply → (∃ reason, reply = refusal reason) ∨ from_registry identity message reply.
Proof.
  intros Ha. split.
  { revert Ha. apply quiet_except.
    - destruct (match d_get message _ with Some _ => _ | None => _ end).
      + apply quiet_bind; [apply quiet_counts|intros _].
        apply quiet_finally; [apply quiet_dispatch|apply quiet_counts].
      + apply quiet_registry.
    - intros e k. destruct e; try done. intros [= <-]. apply quiet_ret. }
  intros reply ->. unfold answer, try_except in Ha.
  match type of Ha with (match ?m with _ => _ end = _) => destruct m as [[a|e] c1] eqn:E end.
  - injection Ha as <- <-. right.
    destruct (match d_get message _ with Some _ => _ | None => _ end).
    + apply st_bind_Ok in E as (u0 & c2 & _ & E). unfold try_finally in E.
      destruct (dispatch_in_thread _ _ _) as [r3 c3] eqn:E3.
      destruct (with_counts _ c3) as [[?|?] c4]; [|done]. injection E as -> _. by exists c2, c3; right.
    + exists c, c1. by left.
  - destruct e; try done. injection Ha as <- _. left. by eexists.
Qed.

(** A connection is sent at most one frame, the encoding of one reply:
    a refusal, whose [allow] is false, or the registry's own reply to the
    message of this very connection, under the identity of its certificate. *)
Theorem handle_one_reply c r c' :
  handle c = (r, c') →
  c_out c' = c_out c ∨
  ∃ reply frame, c_out c' = c_out c ++ [frame] ∧ encode reply = Ok frame ∧
    ((∃ reason, reply = refusal reason ∧ d_get reply (u "allow") = Some (VBool false)) ∨
     ∃ message, from_registry (sha256_hex certificate) message reply).
Proof.
  unfold handle. intros Hh. apply st_bind_inv in Hh as (a & c1 & E & Hh).
  apply quiet_counts in E. destruct a as [[]|]; [|by injection Hh as _ <-; left|by destruct Hh as [_ ->]; left].
  unfold try_finally in Hh. destruct (swallow handle_body c1) as [r2 c2] eqn:E2.
  destruct (with_counts (modify discard_task) c2) as [r3 c3] eqn:E3. apply quiet_counts in E3.
  assert (c_out c' = c_out c2) as -> by (destruct r3; injection Hh as _ <-; congruence).
  clear Hh E3. rewrite <-E. clear E. unfold swallow, try_except in E2.
  destruct (handle_body c1) as [r4 c4] eqn:E4.
  assert (c2 = c4) as -> by (repeat case_match; simplify_eq; try done; by injection E2 as _ <-).
  clear E2. unfold handle_body in E4.
  apply st_bind_inv in E4 as ([message|e] & c5 & E & E4); apply quiet_await_read in E as <-;
    [|by destruct E4 as [_ ->]; left].
  apply st_bind_inv in E4 as (a & c6 & E & E4). apply answer_spec in E as [<- Ha].
  destruct a as [reply|e]; [|by destruct E4 as [_ ->]; left].
  apply st_bind_inv in E4 as (a & c7 & E & E4). apply lift_inv in E as [Ee ->].
  destruct a as [frame|e]; [|by destruct E4 as [_ ->]; left].
  apply st_bind_inv in E4 as (a & c8 & [= <- <-] & E4). apply quiet_drain in E4. right.
  exists reply, frame. split; [by rewrite E4|]. split; [done|].
  destruct (Ha reply eq_refl) as [[reason ->]|Hd]; [left; by exists reason|right; by exists message].
Qed.
End sends.

End AdmissionService.
