(* ===== verification/Witnesses.v ===== *)
(** * Witnesses of the attestation and admission theorems

    Each theorem applied to a concrete run of the test bed, where its
    hypotheses hold by evaluation. *)

From S2P Require Import Prelude Bytes Sha256 Json JsonFacts JsonCanon Stream Env Dict Connection.
From S2P Require Import Attestation AttestationFacts AttestationServer ImaQuote Admission AdmissionFacts.
From S2P Require Import AdmissionSafety AdmissionRun AdmissionSpec AdmissionLifecycle AdmissionService.
Import Json Stream Attestation ImaQuote Admission.

(** * A concrete environment for the witnesses

    TPM tools that accept one challenge, a replay program, a verifier that
    passes everything, and the messages of a small session. *)

#[export] Existing Instance test_env.

(** ** A quote for [sample_challenge] *)

Definition quote_text (field : string) : pystr :=
  dumps (VDict [(u "qualification", VStr (sha256_hex (qualification_data sample_challenge)));
                (u field, VBool true)]).

Definition test_tools (field : string) : TpmTools := {|
  inspect_quote := λ _ _, Ok (0, quote_text field);
  checkquote := λ _ _ _ _ _ _ _, Ok 0 |}.

Definition test_replayer : Replayer := {|
  replay_log := λ _, Ok (0, dumps (VDict [(u "parsed", VBool true);
    (u "replayed_pcr_sha256", VStr (replicate 64 48)); (u "records", VInt 3)])) |}.

(** Base64 of 64 and of 32 zero bytes. *)
Definition pcrs64 : pystr := replicate 86 65 ++ [61; 61].
Definition pcrs32 : pystr := replicate 43 65 ++ [61].

Definition test_evidence (sid pcrs : pystr) : dict :=
  [(u "protocol_version", VStr Attestation.PROTOCOL); (u "session_id", VStr sid);
   (u "quote", VStr (u "QUJD")); (u "signature", VStr (u "QQ==")); (u "pcrs", VStr pcrs)].

Definition test_quote_verifier : QuoteVerifier :=
  MkQuoteVerifier (u "sha256:0,7") 64 (u "pcr_selection_matches") [x01] (replicate 64 99) None POLICY.
Definition test_ima_verifier : ImaQuoteVerifier :=
  Ima (MkQuoteVerifier (u "sha256:10") 32 (u "pcr10_selection_matches") [x01] (replicate 64 99) None ima_policy).

(** ** A verifier that passes everything *)

Inductive Accepting := accepting.

#[export] Instance accepting_verifier : Verifier Accepting := {|
  v_policy_id := λ _, POLICY;
  v_pcr_selection := λ _, u "sha256:0,7";
  v_ak_sha256 := λ _, replicate 64 99;
  v_verify := λ _ _ _, mret (judge None true true true true 5) |}.

#[export] Instance accepting_laws : VerifierLaws Accepting.
Proof.
  split.
  - intros. apply time_ret.
  - intros v ev c w d w' [= <- <-]. dec_now.
  - by intros v ev c w d w' [= <- <-].
Qed.

(** ** A session of the admission protocol *)

Definition ctl : pystr := replicate 64 49.
Definition att : pystr := replicate 64 50.
Definition limits : Z * Z * Z * Z := (256, 300000, 10000, 30000).
Definition world0 : world := World 0 0.

Definition cfg0 : cfg (V := Accepting) :=
  match new_registry [VStr ctl] [(att, accepting)] 256 300000 10000 30000 world0 with
  | (Ok r, w) => Cfg w r [] []
  | (Raise _, w) => Cfg w (MkRegistry [] ∅ 0 0 0 0 [] ∅ [] []) [] []
  end.

Definition request (operation : string) (rest : dict) : value :=
  VDict ((u "protocol_version", VStr PROTOCOL) :: (u "operation", VStr (u operation)) :: rest).

Definition register_request : value :=
  request "register" [(u "game_session_id", VStr (replicate 32 51)); (u "peer_id", VInt 2);
                      (u "attestor", VStr att)].

(** The identifier [cfg0] gives its first admission: the entropy of event 2. *)
Definition first_id : pystr := hex_of (replicate 16 x02).
Definition status_request : value := request "status" [(u "admission_id", VStr first_id)].
Definition revoke_request : value := request "revoke" [(u "admission_id", VStr first_id)].
Definition challenge_request : value := request "challenge" [(u "admission_id", VStr first_id)].
Definition submit_request (sid : pystr) : value :=
  request "submit" [(u "admission_id", VStr first_id);
                    (u "evidence", VDict (test_evidence sid pcrs64))].

(** ** The codec *)

Definition hello : dict := [(u "message_type", status "session"); (u "n", VInt 7)].
Definition hello_wire : bytes :=
  match encode hello with Ok wire => wire | Raise _ => [] end.

Lemma receive_sound_witness :
  ∃ raw, (pending (Reader (buffered hello_wire 3) None 3)).*2 =
      be_encode 4 (len raw) ++ raw ++ (pending (Reader [] None 3)).*2 ∧
    0 < len raw <= MAX_FRAME ∧ decode raw = Ok hello ∧
    JsonScan.unique_keys (VDict hello) = true ∧ JsonScan.no_float (VDict hello) = true ∧
    3 <= 3 < 3 + 5.
Proof.
  apply (receive_sound 5 (Reader (buffered hello_wire 3) None 3) hello (Reader [] None 3)).
  vm_compute. reflexivity.
Defined.

Lemma encode_receive_roundtrip_witness :
  receive 5 (Reader (buffered hello_wire 3 ++ [(8, x01)]) None 3) = (Ok hello, Reader [(8, x01)] None 3).
Proof.
  apply encode_receive_roundtrip; [vm_compute; reflexivity..| |lia].
  apply Nat.leb_le. vm_compute. reflexivity.
Defined.

(** ** The verifiers *)

Definition good_evidence : dict := test_evidence (session_id sample_challenge) pcrs64.
Definition ima_evidence : dict := test_evidence (session_id sample_challenge) pcrs32.

Definition quote_run : result dict * world :=
  @quote_verify test_env (test_tools "pcr_selection_matches") test_quote_verifier good_evidence
    sample_challenge world0.
Definition ima_run : result dict * world :=
  @ima_verify test_env (test_tools "pcr10_selection_matches") test_replayer test_ima_verifier
    ima_evidence sample_challenge world0.

Definition value_of {A} (d : A) (r : result A) : A := match r with Ok x => x | Raise _ => d end.

Lemma quote_pass_sound_witness :
  d_get (value_of [] quote_run.1) (u "cryptographic_validity") = Some (status "verified").
Proof.
  pose proof (@quote_pass_sound test_env (test_tools "pcr_selection_matches") test_quote_verifier
    good_evidence sample_challenge world0 (value_of [] quote_run.1) quote_run.2) as Hq.
  apply Hq; vm_compute; reflexivity.
Defined.

Lemma ima_pass_sound_witness :
  ∃ s signed, d_get ima_evidence (u "pcrs") = Some (VStr s) ∧ b64decode s = Ok signed ∧
    d_get (value_of [] ima_run.1) (u "ima_validity") = Some (status "quote_bound").
Proof.
  destruct (@ima_pass_sound test_env (test_tools "pcr10_selection_matches") test_replayer test_ima_verifier
    ima_evidence sample_challenge world0 (value_of [] ima_run.1) ima_run.2)
    as (_ & _ & _ & _ & _ & s & signed & _ & _ & _ & _ & _ & _ & Hs & Hd & Hq);
    [vm_compute; reflexivity..|]. exists s, signed. auto.
Defined.

(** ** The challenge server *)

Definition server0 : AttestationServer Accepting := Server POLICY accepting 10000 4 ∅.
Definition issued : result challenge * (world * AttestationServer Accepting) :=
  issue ctl (world0, server0).
Definition issued_id : pystr := hex_of (replicate 16 x01).
Definition submitted : result dict * (world * AttestationServer Accepting) :=
  submit ctl (test_evidence issued_id pcrs64) issued.2.

Lemma submit_allow_sound_witness :
  ∃ x, sessions issued.2.2 !! issued_id = Some x ∧ used x = false ∧
    mono submitted.2.1 < s_deadline x.
Proof.
  destruct (submit_allow_sound ctl (test_evidence issued_id pcrs64) issued.2.1 issued.2.2
    (value_of [] submitted.1) submitted.2.1 submitted.2.2)
    as (sid & x & Hsid & Hx & _ & Hu & Ht & _); [vm_compute; reflexivity..|].
  vm_compute in Hsid. injection Hsid as <-. exists x. split; [exact Hx|]. split; [exact Hu|]. exact (proj2 Ht).
Defined.

Definition server_ops : list (pystr + pystr * dict) :=
  [inl ctl; inr (ctl, test_evidence issued_id pcrs64); inr (ctl, test_evidence issued_id pcrs64)].

Lemma one_attempt_witness :
  length (server_run server_ops ((world0, server0), ([], []))).2.2 = 1%nat ∧
  (server_run server_ops ((world0, server0), ([], []))).2.2 ⊆+
  (server_run server_ops ((world0, server0), ([], []))).2.1.
Proof.
  split; [vm_compute; reflexivity|].
  apply (one_attempt accepting 10000 4 server0 server_ops world0); [reflexivity|lia].
Defined.

(** ** The admission registry *)

(** A connection registered, challenged and verified. *)
Definition admission_acts : list action :=
  [ABegin ctl register_request; ABegin att challenge_request;
   ABegin att (submit_request (hex_of (replicate 16 x08))); AAttempt 0; AVerify 0].
Definition admitted_reply : dict :=
  match (step (AFinish 0) (run admission_acts cfg0)).2 with Some (Ok d) => d | _ => [] end.

Lemma cfg0_started : started [VStr ctl] [(att, accepting)] limits world0 cfg0.
Proof. do 2 eexists. split; [vm_compute; reflexivity|reflexivity]. Defined.

Lemma allow_is_verified_witness :
  ∃ l e, heap (c_r (step (AFinish 0) (run admission_acts cfg0)).1) !! l = Some e ∧ e_state e = ALLOWED.
Proof.
  destruct (allow_is_verified [VStr ctl] [(att, accepting)] limits world0 cfg0 admission_acts (AFinish 0)
    admitted_reply cfg0_started) as (l & e & _ & He & Hs & _); [vm_compute; reflexivity..|].
  exists l, e. split; [exact He|exact Hs].
Defined.

Definition revoked_entry : Entry :=
  match heap (c_r (run (admission_acts ++ [ABegin ctl revoke_request]) cfg0)) !! 0%nat with
  | Some e => e
  | None => MkEntry sample_binding 0 REGISTERED 0 0 None
  end.

Lemma revoked_forever_witness :
  ∃ e', heap (c_r (run [AFinish 0; ABegin att challenge_request; ABegin ctl status_request]
                     (run (admission_acts ++ [ABegin ctl revoke_request]) cfg0))) !! 0%nat = Some e' ∧
    e_state e' = REVOKED ∧ e_binding e' = e_binding revoked_entry.
Proof.
  apply (revoked_forever [VStr ctl] [(att, accepting)] limits world0 cfg0
    (admission_acts ++ [ABegin ctl revoke_request])
    [AFinish 0; ABegin att challenge_request; ABegin ctl status_request] 0 revoked_entry cfg0_started);
    vm_compute; reflexivity.
Defined.

(** A verification in flight, and a second submission that is refused. *)
Definition busy_acts : list action :=
  [ABegin ctl register_request; ABegin att challenge_request;
   ABegin att (submit_request (hex_of (replicate 16 x08))); AAttempt 0;
   ABegin att (submit_request (hex_of (replicate 16 x08)))].
Definition entry_at (acts : list action) : Entry :=
  match heap (c_r (run acts cfg0)) !! 0%nat with
  | Some e => e
  | None => MkEntry sample_binding 0 REGISTERED 0 0 None
  end.
Definition phase_at (acts : list action) : phase := default Gone (c_phases (run acts cfg0) !! 0%nat).
Definition busy_job : job := default (Job [] [] 0 0 []) (in_flight (phase_at busy_acts)).
Lemma one_verification_witness :
  (∃ e, heap (c_r (run busy_acts cfg0)) !! j_entry busy_job = Some e ∧
    ((e_state e = VERIFYING ∧ e_verifier e = Some (j_verifier busy_job)) ∨ e_state e = REVOKED ∨
     (e_state e = EXPIRED ∧ e_deadline e <= mono (c_w (run busy_acts cfg0))))) ∧
  ∀ k q j', c_phases (run busy_acts cfg0) !! k = Some q → in_flight q = Some j' →
    j_entry j' = j_entry busy_job → k = 0%nat.
Proof.
  apply (one_verification [VStr ctl] [(att, accepting)] limits world0 cfg0 busy_acts 0 (phase_at busy_acts) busy_job cfg0_started);
    vm_compute; reflexivity.
Defined.
Definition allowed_entry : Entry := entry_at (admission_acts ++ [AFinish 0]).
Lemma allowed_by_current_verdict_witness : ∃ i j res,
  AFinish 0 = AFinish i ∧ c_phases (run admission_acts cfg0) !! i = Some (Finishing j (Ok res)) ∧ j_entry j = 0%nat ∧
  e_state (entry_at admission_acts) = VERIFYING ∧ e_verifier (entry_at admission_acts) = Some (j_verifier j) ∧
  decision res = Some (status "ALLOW").
Proof.
  apply (allowed_by_current_verdict [VStr ctl] [(att, accepting)] limits world0 cfg0 admission_acts (AFinish 0) 0
    (entry_at admission_acts) allowed_entry cfg0_started); [vm_compute; reflexivity|by vm_compute|vm_compute; reflexivity..].
Defined.
Lemma entry_automaton_witness : ∃ e',
  heap (c_r (step (AFinish 0) (run admission_acts cfg0)).1) !! 0%nat = Some e' ∧
  (e' = entry_at admission_acts ∨
   life (mono (c_w (run admission_acts cfg0))) (mono (c_w (step (AFinish 0) (run admission_acts cfg0)).1))
     (entry_at admission_acts) e').
Proof.
  apply (entry_automaton [VStr ctl] [(att, accepting)] limits world0 cfg0 admission_acts (AFinish 0) 0
    (entry_at admission_acts) cfg0_started). vm_compute. reflexivity.
Defined.

Lemma registry_bounds_witness :
  map_size (entries (c_r (run admission_acts cfg0))) <= reg_maximum (c_r (run admission_acts cfg0)) <= 4096.
Proof.
  apply (registry_bounds [VStr ctl] [(att, accepting)] limits world0 cfg0 admission_acts cfg0_started).
Defined.

Definition registered : cfg (V := Accepting) := run [ABegin ctl register_request] cfg0.

Lemma foreign_identity_refused_witness :
  ∃ reason, dispatch att status_request (c_w registered, c_r registered) =
    (Raise (ValueError reason), (c_w registered, c_r registered)).
Proof.
  eapply (foreign_identity_refused att status_request (u "status")).
  - do 4 eexists. split; [vm_compute; reflexivity|]. split; [by vm_compute|].
    do 3 (split; [vm_compute; reflexivity|]). vm_compute. reflexivity.
  - by vm_compute.
Defined.

Definition dispatched := dispatch ctl status_request (c_w registered, c_r registered).

Lemma dispatch_is_a_run_witness : ∃ acts act,
  (step act (run acts (Cfg (c_w registered) (c_r registered) [] []))).2 = Some dispatched.1.
Proof.
  destruct (dispatch_is_a_run ctl status_request (c_w registered) (c_r registered) dispatched.1
    dispatched.2.1 dispatched.2.2 [] []) as (acts & act & _ & Ha); [vm_compute; reflexivity|].
  exists acts, act. destruct (step act (run acts _)) as [c out]. exact (proj1 Ha).
Defined.

(** ** The service *)

Definition test_peer : Peer := {| certificate := b "certificate"; drain_outcome := λ _, Ok tt |}.
Definition alone : Interference (AdmissionService.AdmissionService Accepting) := λ _ x, x.

Definition status_wire : bytes :=
  match status_request with
  | VDict d => match encode d with Ok wire => wire | Raise _ => [] end
  | _ => []
  end.
Definition served_conn : conn (AdmissionService.AdmissionService Accepting) :=
  Conn (Reader (buffered status_wire 0) None 0) [] (c_w registered)
    (AdmissionService.Service (c_r registered) (AdmissionService.Counters 0 false 0)).
Definition served :=
  @AdmissionService.handle test_env test_peer Accepting accepting_verifier alone served_conn.

Lemma handle_one_reply_witness :
  length (c_out served.2) = 1%nat ∧
  (c_out served.2 = [] ∨
   ∃ reply frame, c_out served.2 = [] ++ [frame] ∧ encode reply = Ok frame ∧
     ((∃ reason, reply = AdmissionService.refusal reason ∧ d_get reply (u "allow") = Some (VBool false)) ∨
      ∃ message, @AdmissionService.from_registry test_env Accepting accepting_verifier alone
                   (sha256_hex (@certificate test_peer)) message reply)).
Proof.
  split; [vm_compute; reflexivity|].
  apply (@AdmissionService.handle_one_reply test_env test_peer Accepting accepting_verifier alone
    served_conn served.1 served.2).
  unfold served. destruct (AdmissionService.handle served_conn). reflexivity.
Defined.
