(* ===== verification/Lab.v ===== *)
(** * The laboratory client ([src/scripts/lab.py])

    The datagrams of lab-udp/2, a session with the policy server, the decoding of
    observations and the whole of one job, local or with a remote worker.  The
    policy server and the workers are parameters: what they answer. *)

From stdpp Require Import pretty.
From S2P Require Import Prelude Bytes Sha256 Stream Bridge.
Import Stream.

Module Lab.

(** ** Datagrams *)

(** [struct.pack] of unsigned fields of [n] bytes. *)
Definition pack (n : nat) (z : Z) : result bytes :=
  raise_if! negb ((0 <=? z) && (z <? 256 ^ Z.of_nat n)) then StructError; Ok (le_encode n z).
(** [struct.pack('16s', s)]: cut or filled with zeros; not a bytes object raises. *)
Definition pack16 (s : option bytes) : result bytes :=
  match s with Some s => Ok (take 16 (s ++ zeros 16)) | None => Raise StructError end.

Definition filler : bytes := replicate 4 xaa.

(** [packet(kind, payload, sequence)] *)
Definition packet (kind : Z) (payload : bytes) (sequence : Z) : result bytes :=
  k ← pack 1 kind; s ← pack 4 sequence; l ← pack 4 (len payload);
  Ok ([x4c; x02] ++ k ++ [x00] ++ s ++ l ++ filler ++ payload).

(** [struct.unpack_from('<I', data, i)]: too short a buffer raises. *)
Definition u32 (data : bytes) (i : nat) : result Z :=
  raise_if! (length data <? i + 4)%nat then StructError; Ok (le_decode (slice data i (i + 4))).
Definition u64 (data : bytes) (i : nat) : result Z :=
  raise_if! (length data <? i + 8)%nat then StructError; Ok (le_decode (slice data i (i + 8))).
Definition byte_at (data : bytes) (i : nat) : Z := match data !! i with Some x => b2z x | None => 0 end.

(** [parse(data, kind, length)] *)
Definition parse (data : bytes) (kind : Z) (length : Z) : result bytes :=
  raise_if! negb (len data =? 16 + length) ||
            negb (bool_decide (take 4 data = [x4c; x02; z2b kind; x00])) ||
            negb (bool_decide (slice data 12 16 = filler)) then ValueError "invalid_response";
  size ← u32 data 8;
  raise_if! negb (size =? length) then ValueError "invalid_response";
  Ok (drop 16 data).

(** ** A session with the policy server *)

(** The socket of a session: what has been sent on it, and what each exchange
    still to come gives (a datagram, a timeout, a partial send, ...). *)
Record Session := MkSession {
  hello : bytes;
  session : option bytes;
  sent : list bytes;
  replies : list (result bytes);
  shut : bool }.

Definition new_session (hello : bytes) (script : list (result bytes)) : Session :=
  MkSession hello None [] script false.

Definition exchange (data : bytes) : st Session bytes := λ s,
  match replies s with
  | [] => (Raise TimeoutError, MkSession (hello s) (session s) (sent s ++ [data]) [] (shut s))
  | r :: rs => (r, MkSession (hello s) (session s) (sent s ++ [data]) rs (shut s))
  end.

Definition open : st Session unit :=
  h ← gets hello;
  response ← exchange h;
  payload ← lift (parse response 2 56);
  res ← lift (u32 payload 0);
  reason ← lift (u32 payload 4);
  _ ← raise_when (negb (res =? 1) || negb (reason =? 0) ||
                  negb (bool_decide (drop 40 payload = slice h 60 76))) (ValueError "hello_rejected");
  modify (λ s, MkSession (hello s) (Some (slice payload 8 24)) (sent s) (replies s) (shut s)).

Definition check_decision (response : bytes) (status sequence : Z) : st Session unit :=
  res ← lift (parse response 66 28);
  request_id ← lift (u32 res 16);
  actual ← lift (u32 res 20);
  reason ← lift (u32 res 24);
  seq ← lift (u32 response 4);
  own ← gets session;
  raise_when (negb (bool_decide (Some (take 16 res) = own)) || negb (request_id =? 1) || negb (actual =? status) ||
              negb (reason =? 0) || negb (seq =? sequence)) (ValueError ("policy_rejected:" ++ pretty reason)%string).

Definition request_payload (s : Session) (capability origin seed : Z) : result bytes :=
  sid ← pack16 (session s);
  one ← pack 4 1;
  subject ← pack16 (Some (slice (hello s) 60 76));
  o ← pack 1 origin; c ← pack 1 capability; sd ← pack 4 seed;
  Ok (sid ++ one ++ subject ++ o ++ c ++ [x01; x00] ++ sd).
Definition request (capability origin seed : Z) : st Session bytes :=
  p ← gets (λ s, request_payload s capability origin seed);
  payload ← lift p;
  req ← lift (packet 64 payload 1);
  response ← exchange req;
  _ ← check_decision response 1 1;
  mret req.

Definition submit (data : bytes) : st Session unit :=
  response ← exchange data;
  check_decision response 2 2.

Definition shutdown : st Session unit :=
  modify (λ s, MkSession (hello s) (session s) (sent s) (replies s) true).
Definition close_body : st Session unit :=
  o ← gets session;
  match o with
  | None => mret tt
  | Some [] => mret tt
  | Some sid =>
      sid16 ← lift (pack16 (Some sid));
      data ← lift (packet 48 (sid16 ++ zeros 8) 3);
      response ← exchange data;
      res ← lift (parse response 32 60);
      z ← lift (u32 res 16);
      t ← lift (u32 res 20);
      raise_when (negb (bool_decide (take 16 res = sid)) || negb ((z =? 0) && (t =? 3)) ||
                  negb (bool_decide (slice res 24 27 = b "bye"))) (ValueError "close_rejected")
  end.
Definition close : st Session unit := try_finally close_body shutdown.

(** ** Observations *)

Inductive detail :=
| File (size : Z) (sha256 : bytes)
| Proc (process_id generation : Z)
| Sync.

Record observation := Observation {
  session_id : bytes;
  request_id : Z;
  sequence : Z;
  origin : Z;                (* 1 linux, 2 windows *)
  origin_instance : bytes;
  subject_id : bytes;
  ok : bool;
  seed : Z;
  elapsed_ms : Z;
  error : Z;
  payload : detail }.

(** The 4096 bytes of the file capability. *)
Definition file_content (seed : Z) : bytes := (λ i, z2b (Z.land (Z.of_nat i * 7 + seed) 255)) <$> seq 0 4096.

Definition decode_detail (cap seed : Z) (payload : bytes) : result detail :=
  if cap =? 1 then
    size ← u32 payload 0;
    raise_if! negb (bool_decide (drop 4 payload = sha256 (file_content seed))) then ValueError "digest_mismatch";
    Ok (File size (drop 4 payload))
  else if cap =? 2 then
    pid ← u64 payload 0; generation ← u64 payload 8; Ok (Proc pid generation)
  else Ok Sync.

(** [decode_observation(data)] *)
Definition decode_observation (data : bytes) : result observation :=
  p ← parse data 65 104;
  request_id ← u32 p 16;
  let org := byte_at p 52 in
  let cap := byte_at p 53 in
  sd ← u32 p 56; elapsed ← u32 p 60; err ← u32 p 64;
  raise_if! negb ((org =? 1) || (org =? 2)) || negb ((cap =? 1) || (cap =? 2) || (cap =? 3)) ||
            negb (byte_at p 54 =? 1) then ValueError "invalid_observation";
  sequence ← u32 data 4;
  d ← decode_detail cap sd (drop 68 p);
  Ok (Observation (take 16 p) request_id sequence org (slice p 20 36) (slice p 36 52)
        (negb (byte_at p 55 =? 0)) sd elapsed err d).

(** ** One job *)

(** What the job meets outside: whether the worker starts, whether the remote
    connection opens, how its [drain] ends, and for each session whether its
    socket connects and what its exchanges give. *)
Class World := {
  spawned : result unit;
  connected : result unit;
  remote_drain : result unit;
  remote_closed : result unit;       (* [wait_closed], for one second *)
  policy : nat → result (list (result bytes)) }.

Record job := Job {
  proc : Bridge.process;            (* the local worker *)
  remote : reader;                  (* what the remote worker sends *)
  remote_sent : list bytes;
  sessions : list Session;
  writer : option bool }.           (* to the remote worker; whether it has been closed *)

Section run_job.
Context `{World}.

Definition on_proc {A} : st Bridge.process A → st job A :=
  zoom proc (λ p j, Job p (remote j) (remote_sent j) (sessions j) (writer j)).
Definition on_remote {A} : st reader A → st job A :=
  zoom remote (λ r j, Job (proc j) r (remote_sent j) (sessions j) (writer j)).
Definition on_session {A} (i : nat) (m : st Session A) : st job A := λ j,
  match sessions j !! i with
  | Some s => let '(r, s') := m s in (r, Job (proc j) (remote j) (remote_sent j) (<[i := s']> (sessions j)) (writer j))
  | None => (Raise AssertionError, j)
  end.
(** [Session(peer, hello)], appended to [sessions]; its socket may not connect. *)
Definition add_session (h : bytes) : st job nat := λ j,
  let i := length (sessions j) in
  match policy i with
  | Ok script => (Ok i, Job (proc j) (remote j) (remote_sent j) (sessions j ++ [new_session h script]) (writer j))
  | Raise e => (Raise e, j)
  end.
Definition set_writer (closed : bool) (j : job) : job :=
  Job (proc j) (remote j) (remote_sent j) (sessions j) (Some closed).
Definition send_remote (data : bytes) : st job unit :=
  wire ← lift (Bridge.encode_frame data);
  modify (λ j, Job (proc j) (remote j) (remote_sent j ++ [wire]) (sessions j) (writer j)).

(** The block under [async with worker(binary)]. *)
Definition local_part (capability seed : Z) : st job bytes :=
  h ← on_proc Bridge.worker_hello;
  i ← add_session h;
  _ ← on_session i open;
  req ← on_session i (request capability 1 seed);
  observations ← on_proc (Bridge.execute req);
  lift (match observations with o :: _ => Ok o | [] => Raise IndexError end).
Definition with_worker {A} (m : st job A) : st job A :=
  _ ← lift spawned; try_finally m (on_proc Bridge.worker_stop).

(** The part with a remote worker: the preserved record and the new one. *)
Definition remote_part (capability origin seed : Z) (source : bytes) : st job (list bytes) :=
  _ ← lift connected;
  _ ← modify (set_writer false);
  h ← on_remote (Bridge.read_frame Bridge.FRAME_TIMEOUT);
  i ← add_session h;
  _ ← on_session i open;
  command ← on_session i (request capability origin seed);
  _ ← send_remote (command ++ source);
  _ ← lift remote_drain;
  preserved ← on_remote (Bridge.read_frame Bridge.FRAME_TIMEOUT);
  observed ← on_remote (Bridge.read_frame Bridge.FRAME_TIMEOUT);
  _ ← raise_when (negb (bool_decide (preserved = source))) (ValueError "origin_evidence_changed");
  mret [preserved; observed].

Fixpoint decode_all (records : list bytes) : result (list observation) :=
  match records with
  | [] => Ok []
  | r :: rs => o ← decode_observation r; os ← decode_all rs; Ok (o :: os)
  end.
(** [for session, record in zip(sessions, records): await session.submit(record)] *)
Fixpoint submit_all (i : nat) (records : list bytes) : st job unit :=
  match records with
  | [] => mret tt
  | r :: rs => n ← gets (λ j, length (sessions j));
               if (i <? n)%nat then _ ← on_session i (submit r); submit_all (S i) rs else mret tt
  end.

Definition job_body (capability seed : Z) (remote_origin : option Z) : st job (list observation) :=
  source ← with_worker (local_part capability seed);
  records ← match remote_origin with
            | Some origin => remote_part capability origin seed source
            | None => mret [source]
            end;
  observations ← lift (decode_all records);
  _ ← submit_all 0 records;
  mret observations.

(** The [finally] of [run_job]: the writer is closed, then every session is, and
    the first error of an expected class is raised at the end. *)
Definition close_writer : st job unit :=
  w ← gets writer;
  match w with
  | None => mret tt
  | Some _ =>
      _ ← modify (set_writer true);
      try_except (lift remote_closed) (λ e, if is_OSError e then Some (mret tt) else None)
  end.
Definition expected (e : exn) : bool := is_OSError e || is_ValueError e.
Fixpoint close_all (i n : nat) (errors : list exn) : st job (list exn) :=
  match n with
  | O => mret errors
  | S n =>
      e ← try_except (_ ← on_session i close; mret []) (λ e, if expected e then Some (mret [e]) else None);
      close_all (S i) n (errors ++ e)
  end.
Definition finish : st job unit :=
  _ ← close_writer;
  n ← gets (λ j, length (sessions j));
  errors ← close_all 0 n [];
  match errors with e :: _ => raise e | [] => mret tt end.

Definition run_job (capability seed : Z) (remote_origin : option Z) : st job (list observation) :=
  try_finally (job_body capability seed remote_origin) finish.
End run_job.

End Lab.
