(* ===== verification/LabFacts.v ===== *)
(** * The laboratory client: datagrams, sessions and accepted jobs

    The facts of [Lab.v]: which byte strings are datagrams, what a session sends
    in order, that no socket is left open, and what an accepted job means. *)

From S2P Require Import Prelude Bytes Sha256 Stream Bridge Lab.
Import Stream Lab.

(** ** Datagrams *)

Lemma pack_Ok n z d : pack n z = Ok d ↔ 0 <= z < 256 ^ Z.of_nat n ∧ d = le_encode n z.
Proof.
  unfold pack. split.
  - intros E. py_inv. bools. auto.
  - intros [Hz ->]. destruct (Z.leb_spec 0 z), (Z.ltb_spec z (256 ^ Z.of_nat n)); try lia. done.
Qed.

Lemma pack_small n z : 0 <= z < 256 ^ Z.of_nat n → pack n z = Ok (le_encode n z).
Proof. intros Hz. by apply pack_Ok. Qed.

Lemma pack_length n z d : pack n z = Ok d → length d = n.
Proof. intros [_ ->]%pack_Ok. apply length_le_encode. Qed.

Lemma u32_Ok d i z : u32 d i = Ok z ↔ (i + 4 <= length d)%nat ∧ z = le_decode (slice d i (i + 4)).
Proof.
  unfold u32. split.
  - intros E. py_inv. apply Nat.ltb_ge in H. auto.
  - intros [Hl ->]. destruct (Nat.ltb_spec (length d) (i + 4)); [lia|done].
Qed.

Lemma u32_bound d i z : u32 d i = Ok z → 0 <= z < 256 ^ 4.
Proof.
  intros [Hl ->]%u32_Ok. pose proof (le_decode_bound (slice d i (i + 4))) as Hb.
  unfold len in Hb. rewrite length_slice in Hb by lia. replace (Z.of_nat _) with 4 in Hb by lia. done.
Qed.

Lemma slice_encode (d : bytes) i n : (i + n <= length d)%nat →
  slice d i (i + n) = le_encode n (le_decode (slice d i (i + n))).
Proof.
  intros Hl. rewrite <-(le_encode_decode (slice d i (i + n))) at 1. f_equal. rewrite length_slice; lia.
Qed.

(** A list cut at increasing positions. *)
Lemma cut_at (d : bytes) i j : (i <= j)%nat → drop i d = slice d i j ++ drop j d.
Proof. intros Hij. unfold slice. rewrite <-(take_drop (j - i) (drop i d)) at 1. rewrite drop_drop. do 2 f_equal. lia. Qed.

Lemma packet_Ok k p s d :
  packet k p s = Ok d ↔
  0 <= k < 256 ∧ 0 <= s < 256 ^ 4 ∧ len p < 256 ^ 4 ∧
  d = [x4c; x02; z2b k; x00] ++ le_encode 4 s ++ le_encode 4 (len p) ++ filler ++ p.
Proof.
  unfold packet. split.
  - intros E. py_inv. repeat match goal with H : pack _ _ = Ok _ |- _ => apply pack_Ok in H as [? ->] end.
    split_and!; try lia. done.
  - intros (Hk & Hs & Hl & ->). pose proof (len_nonneg p).
    change (256 ^ 4) with (256 ^ Z.of_nat 4) in *.
    rewrite (pack_small 1 k), (pack_small 4 s), (pack_small 4 (len p)) by (done || split; assumption). done.
Qed.

Lemma parse_Ok d k n p :
  parse d k n = Ok p →
  len d = 16 + n ∧ take 4 d = [x4c; x02; z2b k; x00] ∧ slice d 12 16 = filler ∧
  le_decode (slice d 8 12) = n ∧ p = drop 16 d.
Proof.
  unfold parse. intros E. py_inv. bools. subst. repeat split; try done.
  match goal with H : u32 _ _ = Ok _ |- _ => by apply u32_Ok in H as [_ ->] end.
Qed.

Lemma packet_fields k p s d : packet k p s = Ok d →
  len d = 16 + len p ∧ take 4 d = [x4c; x02; z2b k; x00] ∧ slice d 12 16 = filler ∧
  slice d 4 8 = le_encode 4 s ∧ slice d 8 12 = le_encode 4 (len p) ∧ drop 16 d = p.
Proof.
  intros (_ & _ & _ & ->)%packet_Ok. unfold slice.
  pose proof (length_le_encode 4 s) as Hs. pose proof (length_le_encode 4 (len p)) as Hn.
  destruct (le_encode 4 s) as [|? [|? [|? [|? [|]]]]]; try done.
  destruct (le_encode 4 (len p)) as [|? [|? [|? [|? [|]]]]]; try done.
  split_and!; try done.
  unfold len. cbn [app length filler replicate]. lia.
Qed.

Lemma parse_is_packet k n p d : 0 <= k < 256 → parse d k n = Ok p →
  n = len p ∧ ∃ s, u32 d 4 = Ok s ∧ packet k p s = Ok d.
Proof.
  intros Hk.
  intros (Hl & Ht & Hf & Hn & ->)%parse_Ok.
  assert (Hd : (16 <= length d)%nat).
  { pose proof (le_decode_bound (slice d 8 12)). unfold len in Hl. lia. }
  assert (Hnl : n = len (drop 16 d)) by (unfold len in *; rewrite length_drop; lia).
  split; [done|]. exists (le_decode (slice d 4 8)). split; [apply u32_Ok; split; [lia|done]|].
  apply packet_Ok. rewrite <-Hnl.
  assert (Hb : ∀ i, (i + 4 <= 16)%nat → 0 <= le_decode (slice d i (i + 4)) < 256 ^ 4).
  { intros i Hi. apply (u32_bound d i). apply u32_Ok. split; [lia|done]. }
  pose proof (Hb 4%nat ltac:(lia)). pose proof (Hb 8%nat ltac:(lia)). cbn [Nat.add] in *.
  split_and!; try lia.
  rewrite <-(take_drop 4 d) at 1. rewrite (cut_at d 4 8), (cut_at d 8 12), (cut_at d 12 16) by lia.
  rewrite Ht, Hf. rewrite (slice_encode d 4 4) at 1 by lia. rewrite (slice_encode d 8 4) at 1 by lia.
  cbn [Nat.add]. by rewrite Hn.
Qed.

Lemma packet_parses k p s d : packet k p s = Ok d → parse d k (len p) = Ok p ∧ u32 d 4 = Ok s.
Proof.
  intros Hp. split.
  2:{ destruct (packet_fields _ _ _ _ Hp) as (Hl & _ & _ & Hs & _). apply packet_Ok in Hp as (_ & Hb & _ & _).
      apply u32_Ok. cbn [Nat.add]. rewrite Hs, le_decode_encode, Z.mod_small by done.
      split; [|done]. pose proof (len_nonneg p). unfold len in *. lia. }
  destruct (packet_fields _ _ _ _ Hp) as (Hl & Ht & Hf & _ & Hn & Hd).
  apply packet_Ok in Hp as (_ & _ & Hlp & _). unfold parse.
  rewrite (proj2 (Z.eqb_eq _ _) Hl), Ht, Hf. rewrite !bool_decide_true by done. cbn [negb orb raise_if mbind result_bind].
  rewrite (proj2 (u32_Ok d 8 (len p))).
  + cbn [mbind result_bind]. by rewrite Z.eqb_refl, Hd.
  + cbn [Nat.add]. rewrite Hn, le_decode_encode, Z.mod_small by (pose proof (len_nonneg p); lia).
    split; [|done]. unfold len in Hl. lia.
Qed.

(** The datagram codec: [parse] accepts for a kind and a payload length exactly
    the byte strings [packet] builds for that kind with a payload of that length,
    and gives the payload back; the number read at offset 4 is the sequence
    number [packet] was given. *)
Theorem parse_packet_iff k n p s d : 0 <= k < 256 →
  (parse d k n = Ok p ∧ u32 d 4 = Ok s) ↔ (n = len p ∧ packet k p s = Ok d).
Proof.
  intros Hk. split.
  - intros [E Es]. apply parse_is_packet in E as (-> & s' & Es' & E); [|done]. rewrite Es in Es'. by injection Es' as ->.
  - intros [-> E]. by apply packet_parses.
Qed.

Lemma parse_packet_iff_witness :
  packet 48 (zeros 24) 3 = Ok ([x4c; x02; x30; x00] ++ le_encode 4 3 ++ le_encode 4 24 ++ filler ++ zeros 24) ∧
  parse ([x4c; x02; x30; x00] ++ le_encode 4 3 ++ le_encode 4 24 ++ filler ++ zeros 24) 48 24 = Ok (zeros 24).
Proof.
  assert (E : packet 48 (zeros 24) 3 = Ok ([x4c; x02; x30; x00] ++ le_encode 4 3 ++ le_encode 4 24 ++ filler ++ zeros 24))
    by (vm_compute; reflexivity).
  split; [exact E|].
  exact (proj1 (proj2 (parse_packet_iff 48 24 (zeros 24) 3 _ ltac:(lia)) (conj eq_refl E))).
Defined.

(** ** What a session sends, and the answers it accepts *)

(** The answer to a hello that opens the session [sid]. *)
Definition welcome (h r sid : bytes) : Prop := ∃ p,
  parse r 2 56 = Ok p ∧ u32 p 0 = Ok 1 ∧ u32 p 4 = Ok 0 ∧ drop 40 p = slice h 60 76 ∧ sid = slice p 8 24.
(** A decision of the session [sid], positive, for this status and sequence. *)
Definition decision (sid r : bytes) (status sequence : Z) : Prop := ∃ p,
  parse r 66 28 = Ok p ∧ take 16 p = sid ∧ u32 p 16 = Ok 1 ∧ u32 p 20 = Ok status ∧ u32 p 24 = Ok 0 ∧
  u32 r 4 = Ok sequence.
Definition goodbye (sid r : bytes) : Prop := ∃ p,
  parse r 32 60 = Ok p ∧ take 16 p = sid ∧ u32 p 16 = Ok 0 ∧ u32 p 20 = Ok 3 ∧ slice p 24 27 = b "bye".

Lemma exchange_Ok data s r s' : exchange data s = (Ok r, s') →
  ∃ rs, replies s = Ok r :: rs ∧ s' = MkSession (hello s) (session s) (sent s ++ [data]) rs (shut s).
Proof. unfold exchange. destruct (replies s) as [|x rs]; intros E; [done|]. injection E as -> <-. by exists rs. Qed.

Lemma welcome_length h r sid : welcome h r sid → length sid = 16%nat.
Proof.
  intros (p & (Hl & _ & _ & _ & ->)%parse_Ok & _ & _ & _ & ->). unfold len in Hl.
  rewrite length_slice; rewrite ?length_drop; lia.
Qed.

Lemma open_Ok s x s' : open s = (Ok x, s') →
  ∃ r rs sid, replies s = Ok r :: rs ∧ welcome (hello s) r sid ∧
    s' = MkSession (hello s) (Some sid) (sent s ++ [hello s]) rs (shut s).
Proof.
  intros E. unfold open in E. py_inv_step. py_inv. bools.
  match goal with H : exchange _ _ = _ |- _ => apply exchange_Ok in H as (rs & Hr & ->) end.
  eexists _, rs, _. split; [exact Hr|]. split; [|reflexivity]. eexists. split_and!; try done; congruence.
Qed.

Lemma check_decision_Ok r status sequence s sid x s' : session s = Some sid →
  check_decision r status sequence s = (Ok x, s') → decision sid r status sequence ∧ s' = s.
Proof.
  intros Hs E. unfold check_decision in E. py_inv. bools. split; [|done].
  eexists. split_and!; try done; congruence.
Qed.

Lemma request_Ok c o seed s sid req s' : session s = Some sid →
  request c o seed s = (Ok req, s') →
  ∃ r rs p, replies s = Ok r :: rs ∧ decision sid r 1 1 ∧ request_payload s c o seed = Ok p ∧
    packet 64 p 1 = Ok req ∧ s' = MkSession (hello s) (Some sid) (sent s ++ [req]) rs (shut s).
Proof.
  intros Hs E. unfold request in E. py_inv.
  match goal with H : exchange _ _ = _ |- _ => apply exchange_Ok in H as (rs & Hr & ->) end.
  match goal with H : check_decision _ _ _ _ = _ |- _ =>
    apply (check_decision_Ok _ _ _ _ sid) in H as [Hd ->]; [|exact Hs] end.
  rewrite <-Hs. eauto 10.
Qed.

Lemma submit_Ok data s sid x s' : session s = Some sid → submit data s = (Ok x, s') →
  ∃ r rs, replies s = Ok r :: rs ∧ decision sid r 2 2 ∧
    s' = MkSession (hello s) (Some sid) (sent s ++ [data]) rs (shut s).
Proof.
  intros Hs E. unfold submit in E. apply st_bind_Ok in E as (r & s1 & E1 & E).
  apply exchange_Ok in E1 as (rs & Hr & ->). apply (check_decision_Ok _ _ _ _ sid) in E as [Hd ->]; [|exact Hs].
  rewrite <-Hs. eauto.
Qed.

Lemma pack16_small s : length s = 16%nat → pack16 (Some s) = Ok s.
Proof. intros Hl. unfold pack16. by rewrite <-Hl, take_app_length. Qed.

Definition bye (sid : bytes) : bytes :=
  [x4c; x02; x30; x00] ++ le_encode 4 3 ++ le_encode 4 24 ++ filler ++ sid ++ zeros 8.
Lemma bye_packet sid : length sid = 16%nat → packet 48 (sid ++ zeros 8) 3 = Ok (bye sid).
Proof.
  intros Hl. apply packet_Ok. unfold bye. replace (len (sid ++ zeros 8)) with 24; [split_and!; try lia; done|].
  unfold len. rewrite length_app, Hl. done.
Qed.

Lemma close_Ok s sid x s' : session s = Some sid → length sid = 16%nat → close s = (Ok x, s') →
  ∃ r rs, replies s = Ok r :: rs ∧ goodbye sid r ∧
    s' = MkSession (hello s) (Some sid) (sent s ++ [bye sid]) rs true.
Proof.
  intros Hs Hl E. unfold close, try_finally, shutdown, modify in E.
  destruct (close_body s) as [r1 s1] eqn:Eb. injection E as -> <-.
  unfold close_body in Eb. apply st_bind_Ok in Eb as (o & s2 & E1 & Eb). injection E1 as <- <-. rewrite Hs in Eb.
  destruct sid as [|y sid]; [done|].
  apply st_bind_Ok in Eb as (sid16 & s2 & E1 & Eb). apply lift_inv in E1 as [E1 ->].
  rewrite pack16_small in E1 by done. assert (sid16 = y :: sid) as -> by congruence. clear E1. py_inv.
  match goal with H : packet _ _ _ = _ |- _ =>
    rewrite (bye_packet (y :: sid) Hl : packet 48 (y :: sid ++ zeros 8) 3 = _) in H; injection H as <- end. bools.
  match goal with H : exchange _ _ = _ |- _ => apply exchange_Ok in H as (rs & Hr & ->) end. cbn in *.
  rewrite <-Hs. eexists _, rs. split; [done|]. split; [|done]. eexists. split_and!; try done; congruence.
Qed.

(** However it ends, [close] closes the socket. *)
Lemma close_shuts s r s' : close s = (r, s') → shut s' = true.
Proof.
  unfold close, try_finally, shutdown, modify. destruct (close_body s). intros E. by injection E as _ <-.
Qed.
