(* ===== verification/LabRecords.v ===== *)
(** * The laboratory client: observations on the wire

    The layout of an observation ([<16sI16s16sBBBBIII36s] after the header), and
    that [decode_observation] accepts exactly the layouts of sound observations. *)

From S2P Require Import Prelude Bytes Sha256 Lab LabFacts.
Import Lab.

#[local] Opaque sha256 file_content.

Definition fits (n : nat) (z : Z) : Prop := 0 <= z < 256 ^ Z.of_nat n.

(** The 36 bytes of the capability, and its number. *)
Inductive body : detail → Z → Z → bytes → Prop :=
| BodyFile size seed :
    fits 4 size → body (File size (sha256 (file_content seed))) 1 seed (le_encode 4 size ++ sha256 (file_content seed))
| BodyProc pid generation unused seed :
    fits 8 pid → fits 8 generation → length unused = 20%nat →
    body (Proc pid generation) 2 seed (le_encode 8 pid ++ le_encode 8 generation ++ unused)
| BodySync unused seed : length unused = 36%nat → body Sync 3 seed unused.

(** The datagram of an observation. *)
Inductive wire_of (o : observation) : bytes → Prop :=
| WireOf cap okb rest p data :
    length (session_id o) = 16%nat → length (origin_instance o) = 16%nat → length (subject_id o) = 16%nat →
    fits 4 (request_id o) → fits 4 (seed o) → fits 4 (elapsed_ms o) → fits 4 (error o) →
    origin o = 1 ∨ origin o = 2 → ok o = negb (b2z okb =? 0) →
    body (payload o) cap (seed o) rest →
    p = session_id o ++ le_encode 4 (request_id o) ++ origin_instance o ++ subject_id o ++
        [z2b (origin o); z2b cap; x01; okb] ++ le_encode 4 (seed o) ++ le_encode 4 (elapsed_ms o) ++
        le_encode 4 (error o) ++ rest →
    packet 65 p (sequence o) = Ok data → wire_of o data.

Lemma slice_mid {A} (l m r : list A) i j : length l = i → (i + length m)%nat = j → slice (l ++ m ++ r) i j = m.
Proof.
  intros <- <-. unfold slice. rewrite drop_app_length. replace (_ + _ - _)%nat with (length m) by lia.
  apply take_app_length.
Qed.

Lemma field_u32 l z r i : length l = i → fits 4 z → u32 (l ++ le_encode 4 z ++ r) i = Ok z.
Proof.
  intros <- Hz. apply u32_Ok. rewrite !length_app, length_le_encode. split; [lia|].
  rewrite slice_mid by (rewrite ?length_le_encode; lia). by rewrite le_decode_encode, Z.mod_small.
Qed.
Lemma field_u64 l z r i : length l = i → fits 8 z → u64 (l ++ le_encode 8 z ++ r) i = Ok z.
Proof.
  intros <- Hz. unfold u64. rewrite !length_app, length_le_encode.
  destruct (Nat.ltb_spec (length l + (8 + length r)) (length l + 8)); [lia|]. cbn [raise_if mbind result_bind].
  f_equal. rewrite slice_mid by (rewrite ?length_le_encode; lia). by rewrite le_decode_encode, Z.mod_small.
Qed.
Lemma u64_Ok d i z : u64 d i = Ok z → (i + 8 <= length d)%nat ∧ slice d i (i + 8) = le_encode 8 z ∧ fits 8 z.
Proof.
  unfold u64. destruct (Nat.ltb_spec (length d) (i + 8)); [done|]. cbn [raise_if mbind result_bind]. intros [= <-].
  split; [done|]. split; [by apply slice_encode|].
  pose proof (le_decode_bound (slice d i (i + 8))) as Hb. unfold fits. unfold len in Hb.
  rewrite length_slice in Hb by lia. by replace (i + 8 - i)%nat with 8%nat in Hb by lia.
Qed.
Lemma u32_field d i z : u32 d i = Ok z → slice d i (i + 4) = le_encode 4 z ∧ fits 4 z.
Proof.
  intros E. pose proof (u32_bound _ _ _ E). apply u32_Ok in E as [Hl ->]. split; [by apply slice_encode|done].
Qed.


Lemma byte_slice d i n : (i + S n <= length d)%nat → slice d i (i + S n) = z2b (byte_at d i) :: slice d (S i) (S i + n).
Proof.
  intros Hl. unfold byte_at. destruct (lookup_lt_is_Some_2 d i ltac:(lia)) as (x & Hx). rewrite Hx.
  unfold slice. rewrite (drop_S _ _ _ Hx), z2b_b2z. replace (i + S n - i)%nat with (S n) by lia.
  by replace (S i + n - S i)%nat with n by lia.
Qed.

Lemma body_length d cap seed rest : body d cap seed rest → length rest = 36%nat.
Proof.
  destruct 1; rewrite ?length_app, ?length_le_encode, ?length_sha256; lia.
Qed.

(** The three branches of [decode_detail], as equations: a proof about a file never
    computes a digest. *)
Lemma decode_detail_file seed p d : decode_detail 1 seed p = Ok d ↔
  ∃ size, u32 p 0 = Ok size ∧ drop 4 p = sha256 (file_content seed) ∧ d = File size (drop 4 p).
Proof.
  unfold decode_detail. rewrite (Z.eqb_refl 1). split.
  - intros E. apply result_bind_Ok in E as (size & E1 & E). apply result_bind_Ok in E as (x & E2 & E).
    apply raise_if_Ok in E2. bools. exists size. split_and!; [done|done|congruence].
  - intros (size & E1 & E2 & ->). apply result_bind_Ok. exists size. split; [done|].
    apply result_bind_Ok. exists tt. split; [|done]. apply raise_if_Ok, negb_false_iff. by apply bool_decide_eq_true.
Qed.

Lemma decode_detail_proc seed p d : decode_detail 2 seed p = Ok d ↔
  ∃ pid gen, u64 p 0 = Ok pid ∧ u64 p 8 = Ok gen ∧ d = Proc pid gen.
Proof.
  unfold decode_detail. cbn [Z.eqb Pos.eqb]. split.
  - intros E. apply result_bind_Ok in E as (pid & E1 & E). apply result_bind_Ok in E as (gen & E2 & E).
    exists pid, gen. split_and!; [done|done|congruence].
  - intros (pid & gen & E1 & E2 & ->). rewrite E1. cbn. by rewrite E2.
Qed.

Lemma decode_detail_iff cap seed rest d : length rest = 36%nat → cap = 1 ∨ cap = 2 ∨ cap = 3 →
  decode_detail cap seed rest = Ok d ↔ body d cap seed rest.
Proof.
  intros Hl Hcap. split.
  - destruct Hcap as [->|[->| ->]].
    + intros (size & E1 & E2 & ->)%decode_detail_file. apply u32_field in E1 as [E1 Hf].
      unfold slice in E1. rewrite drop_0 in E1. cbn [Nat.sub Nat.add] in E1.
      rewrite <-(take_drop 4 rest) at 2. rewrite E2, E1. by apply BodyFile.
    + intros (pid & gen & E1 & E2 & ->)%decode_detail_proc.
      apply u64_Ok in E1 as (_ & E1 & Hf1). apply u64_Ok in E2 as (_ & E2 & Hf2). cbn [Nat.add] in *.
      replace rest with (le_encode 8 pid ++ le_encode 8 gen ++ drop 16 rest).
      { apply BodyProc; [done..|]. rewrite length_drop. lia. }
      rewrite <-E1, <-E2, <-(cut_at rest 8 16) by lia. unfold slice. by rewrite drop_0, take_drop.
    + intros E. injection E as <-. by constructor.
  - destruct 1 as [size seed Hf|pid gen unused seed Hf1 Hf2 Hu|unused seed Hu].
    + apply decode_detail_file. exists size. split_and!.
      * by apply (field_u32 [] size).
      * by rewrite drop_app_length' by by rewrite length_le_encode.
      * by rewrite drop_app_length' by by rewrite length_le_encode.
    + apply decode_detail_proc. exists pid, gen. split_and!; [by apply (field_u64 [] pid)| |done].
      apply (field_u64 (le_encode 8 pid) gen unused); [by rewrite length_le_encode|done].
    + done.
Qed.

Lemma decode_wire data o : decode_observation data = Ok o → wire_of o data.
Proof.
  intros E. unfold decode_observation in E.
  apply result_bind_Ok in E as (p & Hp & E). apply result_bind_Ok in E as (rid & Hrid & E).
  apply result_bind_Ok in E as (sd & Hsd & E). apply result_bind_Ok in E as (el & Hel & E).
  apply result_bind_Ok in E as (er & Her & E). apply result_bind_Ok in E as (x & Hg & E).
  apply raise_if_Ok in Hg. apply result_bind_Ok in E as (sq & Hsq & E). apply result_bind_Ok in E as (d & Hd & E).
  injection E as <-. apply parse_is_packet in Hp as (Hl & s & Hs & Hp); [|lia]. rewrite Hsq in Hs. injection Hs as <-.
  assert (Hlp : length p = 104%nat) by (unfold len in Hl; lia).
  apply orb_false_iff in Hg as [[Ho Hc]%orb_false_iff He]. apply negb_false_iff in Ho, Hc, He.
  assert (Hcap : byte_at p 53 = 1 ∨ byte_at p 53 = 2 ∨ byte_at p 53 = 3).
  { apply orb_true_iff in Hc as [[Hc|Hc]%orb_true_iff|Hc]; apply Z.eqb_eq in Hc; auto. }
  apply decode_detail_iff in Hd; [|by rewrite length_drop; lia|done]. apply Z.eqb_eq in He.
  apply u32_field in Hrid as [Hrid Hf1], Hsd as [Hsd Hf2], Hel as [Hel Hf3], Her as [Her Hf4]. cbn [Nat.add] in *.
  eapply (WireOf _ (byte_at p 53) (z2b (byte_at p 55)) (drop 68 p) p);
    cbn [session_id origin_instance subject_id request_id seed elapsed_ms error origin ok payload sequence]; try done.
  - rewrite length_take. lia.
  - rewrite length_slice; lia.
  - rewrite length_slice; lia.
  - apply orb_true_iff in Ho as [Ho|Ho]; apply Z.eqb_eq in Ho; auto.
  - unfold byte_at at 2. destruct (p !! 55%nat) eqn:E55; [by rewrite z2b_b2z; unfold byte_at; rewrite E55|].
    apply lookup_ge_None in E55. lia.
  - rewrite <-Hrid, <-Hsd, <-Hel, <-Her. change x01 with (z2b 1). rewrite <-He.
    rewrite <-(take_drop 16 p) at 1. rewrite (cut_at p 16 20), (cut_at p 20 36), (cut_at p 36 52), (cut_at p 52 56),
      (cut_at p 56 60), (cut_at p 60 64), (cut_at p 64 68) by lia.
    pose proof (byte_slice p 52 3 ltac:(lia)) as B1. pose proof (byte_slice p 53 2 ltac:(lia)) as B2.
    pose proof (byte_slice p 54 1 ltac:(lia)) as B3. pose proof (byte_slice p 55 0 ltac:(lia)) as B4.
    cbn [Nat.add] in *. by rewrite B1, B2, B3, B4.
Qed.

(** Fields of a payload given as a concatenation. *)
Lemma field_at l z r p i : p = l ++ le_encode 4 z ++ r → length l = i → fits 4 z → u32 p i = Ok z.
Proof. intros ->. apply field_u32. Qed.
Lemma slice_at (l m r p : bytes) i j : p = l ++ m ++ r → length l = i → (i + length m)%nat = j → slice p i j = m.
Proof. intros ->. apply slice_mid. Qed.
Lemma byte_of (l r p : bytes) x i : p = l ++ x :: r → length l = i → byte_at p i = b2z x.
Proof. intros -> <-. unfold byte_at. by rewrite list_lookup_middle. Qed.

Ltac fields_of Hp :=
  first [rewrite Hp; rewrite <-?app_assoc; reflexivity | rewrite ?length_app, ?length_le_encode; cbn [length]; lia | done].

Lemma wire_decode data o : wire_of o data → decode_observation data = Ok o.
Proof.
  destruct 1 as [cap okb rest p data Hl1 Hl2 Hl3 Hf1 Hf2 Hf3 Hf4 Ho Hok Hb Hp Hd].
  pose proof (body_length _ _ _ _ Hb) as Hr. destruct o as [sid rid sq org inst subj okf sd el er pl].
  cbn [session_id origin_instance subject_id request_id seed elapsed_ms error origin ok payload sequence] in *.
  assert (Hcap : cap = 1 ∨ cap = 2 ∨ cap = 3) by (destruct Hb; auto).
  set (head := sid ++ le_encode 4 rid ++ inst ++ subj) in *.
  assert (Hh : length head = 52%nat) by (unfold head; rewrite !length_app, length_le_encode; lia).
  set (tags := [z2b org; z2b cap; x01; okb]) in *.
  assert (Ht : length tags = 4%nat) by done.
  assert (Hp' : p = head ++ tags ++ le_encode 4 sd ++ le_encode 4 el ++ le_encode 4 er ++ rest)
    by (rewrite Hp; unfold head; by rewrite <-!app_assoc).
  assert (Hlp : len p = 104) by (unfold len; rewrite Hp', !length_app, !length_le_encode; cbn [length tags]; lia).
  apply packet_parses in Hd as [Hd Hsq]. rewrite Hlp in Hd.
  assert (take 16 p = sid) as E0 by (rewrite Hp, <-Hl1; apply take_app_length).
  assert (u32 p 16 = Ok rid) as E1 by (apply (field_at sid rid (inst ++ subj ++ tags ++ le_encode 4 sd ++ le_encode 4 el ++ le_encode 4 er ++ rest)); fields_of Hp).
  assert (slice p 20 36 = inst) as E2 by (apply (slice_at (sid ++ le_encode 4 rid) inst (subj ++ tags ++ le_encode 4 sd ++ le_encode 4 el ++ le_encode 4 er ++ rest)); fields_of Hp).
  assert (slice p 36 52 = subj) as E3 by (apply (slice_at (sid ++ le_encode 4 rid ++ inst) subj (tags ++ le_encode 4 sd ++ le_encode 4 el ++ le_encode 4 er ++ rest)); fields_of Hp).
  assert (u32 p 56 = Ok sd) as E4 by (apply (field_at (head ++ tags) sd (le_encode 4 el ++ le_encode 4 er ++ rest)); fields_of Hp').
  assert (u32 p 60 = Ok el) as E5 by (apply (field_at (head ++ tags ++ le_encode 4 sd) el (le_encode 4 er ++ rest)); fields_of Hp').
  assert (u32 p 64 = Ok er) as E6 by (apply (field_at (head ++ tags ++ le_encode 4 sd ++ le_encode 4 el) er rest); fields_of Hp').
  assert (drop 68 p = rest) as E7.
  { rewrite Hp'. rewrite !app_assoc. apply drop_app_length'. rewrite !length_app, !length_le_encode. cbn [length tags]. lia. }
  assert (byte_at p 52 = org) as E8 by (rewrite (byte_of head ([z2b cap; x01; okb] ++ le_encode 4 sd ++ le_encode 4 el ++ le_encode 4 er ++ rest) p (z2b org)); [apply b2z_z2b_small; lia|done|done]).
  assert (byte_at p 53 = cap) as E9 by (rewrite (byte_of (head ++ [z2b org]) ([x01; okb] ++ le_encode 4 sd ++ le_encode 4 el ++ le_encode 4 er ++ rest) p (z2b cap)); [apply b2z_z2b_small; lia|fields_of Hp'|fields_of Hp']).
  assert (byte_at p 54 = 1) as E10 by (rewrite (byte_of (head ++ [z2b org; z2b cap]) ([okb] ++ le_encode 4 sd ++ le_encode 4 el ++ le_encode 4 er ++ rest) p x01); [done|fields_of Hp'|fields_of Hp']).
  assert (byte_at p 55 = b2z okb) as E11 by (rewrite (byte_of (head ++ [z2b org; z2b cap; x01]) (le_encode 4 sd ++ le_encode 4 el ++ le_encode 4 er ++ rest) p okb); [done|fields_of Hp'|fields_of Hp']).
  apply (decode_detail_iff cap sd rest pl Hr Hcap) in Hb.
  unfold decode_observation. rewrite Hd. cbn [mbind result_bind].
  rewrite E1, E4, E5, E6. cbn [mbind result_bind]. rewrite E8, E9, E10, E11, E7, Hsq, Hb, E0, E2, E3.
  cbn [mbind result_bind]. rewrite <-Hok.
  destruct Ho as [-> | ->], Hcap as [-> |[-> | ->]]; reflexivity.
Qed.

(** C37.  Observations and their wire layout: [decode_observation] accepts exactly
    the 120-byte datagrams that lay out an observation with a known origin, a
    known capability and the evidence class of the laboratory, every integer
    within its field; for the file capability the digest carried is the
    SHA-256 of the content the seed defines. *)
Theorem decode_observation_iff data o : decode_observation data = Ok o ↔ wire_of o data.
Proof. split; [apply decode_wire|apply wire_decode]. Qed.
