(* ===== verification/LabJobs.v ===== *)
(** * The laboratory client: jobs

    What an accepted job means for the workers and the policy server, and that no
    socket survives a job, however it ends. *)

From S2P Require Import Prelude Bytes Sha256 Stream Bridge Lab LabFacts.
Import Stream Lab.

Section jobs.
Context `{World}.

Lemma on_session_inv {A} i (m : st Session A) s j r j' :
  sessions j !! i = Some s → on_session i m j = (r, j') →
  ∃ s', m s = (r, s') ∧ j' = Job (proc j) (remote j) (remote_sent j) (<[i := s']> (sessions j)) (writer j).
Proof.
  intros Hs. unfold on_session. rewrite Hs. destruct (m s) as [r1 s']. intros [= -> <-]. by exists s'.
Qed.

Lemma on_proc_inv {A} (m : st Bridge.process A) j r j' : on_proc m j = (r, j') →
  ∃ p, m (proc j) = (r, p) ∧ j' = Job p (remote j) (remote_sent j) (sessions j) (writer j).
Proof. unfold on_proc, zoom. destruct (m (proc j)) as [r1 p]. intros [= -> <-]. by exists p. Qed.

Lemma on_remote_inv {A} (m : st reader A) j r j' : on_remote m j = (r, j') →
  ∃ d, m (remote j) = (r, d) ∧ j' = Job (proc j) d (remote_sent j) (sessions j) (writer j).
Proof. unfold on_remote, zoom. destruct (m (remote j)) as [r1 d]. intros [= -> <-]. by exists d. Qed.

Lemma add_session_Ok h j i j' : add_session h j = (Ok i, j') →
  i = length (sessions j) ∧ ∃ script, policy i = Ok script ∧
    j' = Job (proc j) (remote j) (remote_sent j) (sessions j ++ [new_session h script]) (writer j).
Proof.
  unfold add_session. destruct (policy _) as [script|] eqn:Ep; [|done]. intros [= <- <-]. eauto.
Qed.

(** A session that has asked for its job: what the policy server answered so far,
    the answers still to come, and the REQUEST. *)
Definition asked (i : nat) (h sid req : bytes) (origin cap seed : Z) (rest : list (result bytes)) : Prop :=
  ∃ r1 r2 p, policy i = Ok (Ok r1 :: Ok r2 :: rest) ∧ welcome h r1 sid ∧ decision sid r2 1 1 ∧
    request_payload (MkSession h (Some sid) [h] (Ok r2 :: rest) false) cap origin seed = Ok p ∧
    packet 64 p 1 = Ok req.
(** ... and one that has submitted a record and been closed. *)
Definition served_record (i : nat) (h sid req record : bytes) (origin cap seed : Z) (s : Session) : Prop :=
  ∃ r3 r4 rest, asked i h sid req origin cap seed (Ok r3 :: Ok r4 :: rest) ∧
    decision sid r3 2 2 ∧ goodbye sid r4 ∧
    s = MkSession h (Some sid) [h; req; record; bye sid] rest true.

(** The opening of a session and its REQUEST, as both halves of a job make them. *)
Lemma ask_Ok i h script cap origin seed j req j' :
  sessions j !! i = Some (new_session h script) → policy i = Ok script →
  (_ ← on_session i open; on_session i (request cap origin seed)) j = (Ok req, j') →
  ∃ sid rest, length sid = 16%nat ∧ asked i h sid req origin cap seed rest ∧
    j' = Job (proc j) (remote j) (remote_sent j) (<[i := MkSession h (Some sid) [h; req] rest false]> (sessions j)) (writer j).
Proof.
  intros Hi Hp E. apply st_bind_Ok in E as (x & j1 & E1 & E).
  apply (on_session_inv _ _ _ _ _ _ Hi) in E1 as (s1 & E1 & ->).
  apply open_Ok in E1 as (r1 & rs1 & sid & Hr1 & Hw & ->). cbn in Hr1, Hw. subst script.
  assert (Hlt : (i < length (sessions j))%nat) by by eapply lookup_lt_Some.
  eapply on_session_inv in E as (s2 & E & ->); [|by apply list_lookup_insert_eq].
  apply (request_Ok _ _ _ _ sid) in E as (r2 & rs2 & p & Hr2 & Hd & Hpl & Hreq & ->); [|done]. cbn in *.
  subst rs1. exists sid, rs2. split_and!.
  - by eapply welcome_length.
  - exists r1, r2, p. done.
  - by rewrite list_insert_insert_eq.
Qed.

Lemma request_length i h sid req origin cap seed rest : length sid = 16%nat →
  asked i h sid req origin cap seed rest → len req = 60.
Proof.
  intros Hl (r1 & r2 & p & _ & _ & _ & Hp & Hreq). apply packet_fields in Hreq as (-> & _).
  unfold request_payload in Hp. cbn [session hello] in Hp. rewrite (pack16_small sid) in Hp by done. cbn [mbind result_bind] in Hp.
  apply result_bind_Ok in Hp as (one & H1 & Hp). apply pack_length in H1.
  apply result_bind_Ok in Hp as (subject & H2 & Hp). unfold pack16 in H2. injection H2 as <-.
  apply result_bind_Ok in Hp as (o & H3 & Hp). apply pack_length in H3.
  apply result_bind_Ok in Hp as (c & H4 & Hp). apply pack_length in H4.
  apply result_bind_Ok in Hp as (sd & H5 & Hp). apply pack_length in H5.
  injection Hp as <-. unfold len. repeat rewrite length_app. rewrite length_take, length_app. cbn [length app].
  change (length (zeros 16)) with 16%nat. lia.
Qed.

(** The local half: the worker is given the REQUEST and prints one record. *)
Lemma local_part_Ok cap seed j src j' : sessions j = [] →
  with_worker (local_part cap seed) j = (Ok src, j') →
  ∃ h sid req rest hw reqw srcw,
    length sid = 16%nat ∧ asked 0 h sid req 1 cap seed rest ∧ len h = 76 ∧ len src = 120 ∧
    sessions j' = [MkSession h (Some sid) [h; req] rest false] ∧
    remote j' = remote j ∧ remote_sent j' = remote_sent j ∧
    Bridge.encode_frame h = Ok hw ∧ Bridge.encode_frame req = Ok reqw ∧ Bridge.encode_frame src = Ok srcw ∧
    Bridge.stdin (proc j') = Bridge.stdin (proc j) ++ [reqw] ∧ Bridge.waited (proc j) = Ok 0 ∧
    (pending (Bridge.stdout (proc j))).*2 = hw ++ srcw.
Proof.
  intros Hnil E. unfold with_worker in E. apply st_bind_Ok in E as (x & j0 & E1 & E). apply lift_inv in E1 as [_ ->].
  unfold try_finally in E. destruct (local_part cap seed j) as [rl jl] eqn:El.
  destruct (on_proc Bridge.worker_stop jl) as [rs js] eqn:Es. apply on_proc_inv in Es as (ps & Es & ->).
  injection Es as _ <-. destruct rs; [|done]. injection E as -> <-. cbn [proc remote remote_sent sessions].
  unfold local_part in El. apply st_bind_Ok in El as (h & j1 & E1 & El).
  apply on_proc_inv in E1 as (p1 & E1 & ->). unfold Bridge.worker_hello in E1.
  apply st_bind_Ok in E1 as (h' & p2 & E2 & E1). apply st_bind_Ok in E1 as (x2 & p3 & E3 & E1).
  apply raise_when_Ok in E3 as [H76 ->]. bools. injection E1 as -> ->. unfold Bridge.on_stdout, zoom in E2.
  destruct (Bridge.read_frame _ _) as [r2 s2] eqn:Er. injection E2 as -> <-.
  apply Bridge.bridge_read_frame_Ok in Er as (hw & Hhw & Hp & _).
  apply st_bind_Ok in El as (i & j2 & E1 & El). apply add_session_Ok in E1 as (-> & script & Hpol & ->). cbn in *.
  rewrite Hnil in *. cbn [length app] in *.
  assert (El' : (req ← (_ ← on_session 0 open; on_session 0 (request cap 1 seed));
                 observations ← on_proc (Bridge.execute req);
                 lift (match observations with o :: _ => Ok o | [] => Raise IndexError end))
                {| proc := Bridge.Process s2 (Bridge.stdin (proc j)) (Bridge.drained (proc j))
                             (Bridge.waited (proc j)) (Bridge.stopped (proc j)) (Bridge.returncode (proc j));
                   remote := remote j; remote_sent := remote_sent j; sessions := [new_session h script]; writer := writer j |} = (Ok src, jl))
    by by apply st_bind_assoc.
  clear El. apply st_bind_Ok in El' as (req & j3 & E1 & El).
  apply (ask_Ok 0 h script) in E1 as (sid & rest & Hsid & Ha & ->); [|done|done].
  apply st_bind_Ok in El as (obs & j4 & E1 & El). apply on_proc_inv in E1 as (p5 & E1 & ->).
  apply Bridge.execute_Ok in E1 as (reqw & wires & Hrw & Hws & Hn & H120 & Hwait & Hin & Hall). cbn in *.
  assert (H60 : len req = 60) by by eapply request_length.
  destruct Hn as [[_ Hn]|[Hn _]]; [|congruence].
  destruct obs as [|o [|]]; try done. apply lift_inv in El as [[= <-] ->]. cbn in *.
  destruct (Bridge.encode_frame o) as [srcw|] eqn:Eo; [|done]. cbn in Hws. injection Hws as <-.
  exists h, sid, req, rest, hw, reqw, srcw. split_and!; try done.
  - by inversion H120.
  - rewrite Hp, Hall. cbn. by rewrite app_nil_r.
Qed.

(** The remote half: the remote worker is sent its REQUEST and the local record,
    and returns that record unchanged with one of its own. *)
Lemma remote_part_Ok cap origin seed src s0 j l j' : sessions j = [s0] →
  remote_part cap origin seed src j = (Ok l, j') →
  ∃ h sid req rest obs hw cmdw srcw obsw,
    length sid = 16%nat ∧ asked 1 h sid req origin cap seed rest ∧ l = [src; obs] ∧
    sessions j' = [s0; MkSession h (Some sid) [h; req] rest false] ∧ proc j' = proc j ∧
    Bridge.encode_frame h = Ok hw ∧ Bridge.encode_frame (req ++ src) = Ok cmdw ∧
    Bridge.encode_frame src = Ok srcw ∧ Bridge.encode_frame obs = Ok obsw ∧
    remote_sent j' = remote_sent j ++ [cmdw] ∧
    (pending (remote j)).*2 = hw ++ srcw ++ obsw ++ (pending (remote j')).*2.
Proof.
  intros Hone E. unfold remote_part in E. apply st_bind_Ok in E as (x & j1 & E1 & E). apply lift_inv in E1 as [_ ->].
  apply st_bind_Ok in E as (x0 & j1 & E1 & E). injection E1 as _ <-.
  apply st_bind_Ok in E as (h & j1 & E1 & E). apply on_remote_inv in E1 as (d1 & E1 & ->).
  apply Bridge.bridge_read_frame_Ok in E1 as (hw & Hhw & Hp1 & _).
  apply st_bind_Ok in E as (i & j2 & E1 & E). apply add_session_Ok in E1 as (-> & script & Hpol & ->). cbn in *.
  rewrite Hone in *. cbn [length app] in *.
  match type of E with _ ?j0 = _ =>
    assert (E' : (command ← (_ ← on_session 1 open; on_session 1 (request cap origin seed));
      _ ← send_remote (command ++ src); _ ← lift remote_drain;
      preserved ← on_remote (Bridge.read_frame Bridge.FRAME_TIMEOUT);
      observed ← on_remote (Bridge.read_frame Bridge.FRAME_TIMEOUT);
      _ ← raise_when (negb (bool_decide (preserved = src))) (ValueError "origin_evidence_changed");
      mret [preserved; observed]) j0 = (Ok l, j')) by by apply st_bind_assoc end.
  clear E. apply st_bind_Ok in E' as (req & j3 & E1 & E).
  apply (ask_Ok 1 h script) in E1 as (sid & rest & Hsid & Ha & ->); [|done|done].
  apply st_bind_Ok in E as (x1 & j4 & E1 & E). unfold send_remote in E1.
  apply st_bind_Ok in E1 as (cmdw & j5 & E2 & E1). apply lift_inv in E2 as [Hcw ->]. injection E1 as _ <-.
  apply st_bind_Ok in E as (x2 & j4 & E1 & E). apply lift_inv in E1 as [_ ->].
  apply st_bind_Ok in E as (pres & j4 & E1 & E). apply on_remote_inv in E1 as (d2 & E1 & ->).
  apply Bridge.bridge_read_frame_Ok in E1 as (srcw & Hsw & Hp2 & _).
  apply st_bind_Ok in E as (obs & j4 & E1 & E). apply on_remote_inv in E1 as (d3 & E1 & ->).
  apply Bridge.bridge_read_frame_Ok in E1 as (obsw & How & Hp3 & _).
  apply st_bind_Ok in E as (x3 & j4 & E1 & E). apply raise_when_Ok in E1 as [Hs ->]. bools. subst pres.
  injection E as <- <-. cbn in *.
  exists h, sid, req, rest, obs, hw, cmdw, srcw, obsw. split_and!; try done.
  by rewrite Hp1, Hp2, Hp3.
Qed.

Lemma submit_step i record records j s sid x j' :
  sessions j !! i = Some s → session s = Some sid →
  submit_all i (record :: records) j = (Ok x, j') →
  ∃ r rest, replies s = Ok r :: rest ∧ decision sid r 2 2 ∧
    submit_all (S i) records
      (Job (proc j) (remote j) (remote_sent j)
         (<[i := MkSession (hello s) (Some sid) (sent s ++ [record]) rest (shut s)]> (sessions j)) (writer j)) = (Ok x, j').
Proof.
  intros Hi Hs E. cbn [submit_all] in E. apply st_bind_Ok in E as (n & j1 & E1 & E). injection E1 as <- <-.
  pose proof (lookup_lt_Some _ _ _ Hi) as Hlt. destruct (Nat.ltb_spec i (length (sessions j))); [|lia].
  apply st_bind_Ok in E as (u1 & j1 & E1 & E). eapply on_session_inv in E1 as (s1 & E1 & ->); [|done].
  apply (submit_Ok _ _ sid) in E1 as (r & rest & Hr & Hd & ->); [|done]. eauto.
Qed.

Lemma close_all_errors i n errors j es j' : close_all i n errors j = (Ok es, j') → ∃ more, es = errors ++ more.
Proof.
  revert i errors j. induction n as [|n IH]; intros i errors j E; cbn [close_all] in E.
  - injection E as <- <-. exists []. by rewrite app_nil_r.
  - apply st_bind_Ok in E as (e & j1 & _ & E). apply IH in E as (more & ->). exists (e ++ more). by rewrite app_assoc.
Qed.

Lemma close_step i n j s sid j' :
  sessions j !! i = Some s → session s = Some sid → length sid = 16%nat →
  close_all i (S n) [] j = (Ok [], j') →
  ∃ r rest, replies s = Ok r :: rest ∧ goodbye sid r ∧
    close_all (S i) n []
      (Job (proc j) (remote j) (remote_sent j)
         (<[i := MkSession (hello s) (Some sid) (sent s ++ [bye sid]) rest true]> (sessions j)) (writer j)) = (Ok [], j').
Proof.
  intros Hi Hs Hl E. cbn [close_all] in E. apply st_bind_Ok in E as (e & j1 & E1 & E).
  pose proof (close_all_errors _ _ _ _ _ _ E) as (more & Hm). destruct e; [|done]. cbn [app] in E.
  unfold try_except in E1. destruct ((_ ← on_session i close; mret []) j) as [r1 j2] eqn:Ec.
  destruct r1 as [es|e]; [|by destruct (expected e)]. injection E1 as _ <-.
  apply st_bind_Ok in Ec as (u1 & j3 & E1 & Ec). injection Ec as _ <-.
  eapply on_session_inv in E1 as (s1 & E1 & ->); [|done].
  apply (close_Ok _ sid) in E1 as (r & rest & Hr & Hg & ->); [|done..]. eauto.
Qed.

Lemma decode_all_Ok records os : decode_all records = Ok os ↔ Forall2 (λ r o, decode_observation r = Ok o) records os.
Proof.
  revert os. induction records as [|r rs IH]; intros os; cbn [decode_all].
  - split; [intros [= <-]; constructor|by inversion 1].
  - split.
    + intros E. apply result_bind_Ok in E as (o & E1 & E). apply result_bind_Ok in E as (ol & E2 & E).
      injection E as <-. constructor; [done|by apply IH].
    + inversion 1 as [|? o ? ol Ho Hol]; subst. rewrite Ho. cbn. by rewrite (proj2 (IH ol) Hol).
Qed.
End jobs.
