(* ===== verification/LabTheorems.v ===== *)
(** * The laboratory client: what an accepted job means, and its clean-up *)

From S2P Require Import Prelude Bytes Sha256 Stream Bridge Lab LabFacts LabJobs.
Import Stream Lab.

#[local] Arguments close_all : simpl never.

Section theorems.
Context `{World}.

(** The worker was given the REQUEST, printed its hello and the record and nothing
    else, and succeeded. *)
Definition worked (j j' : job) (h req record : bytes) : Prop := ∃ hw reqw rw,
  Bridge.encode_frame h = Ok hw ∧ Bridge.encode_frame req = Ok reqw ∧ Bridge.encode_frame record = Ok rw ∧
  Bridge.stdin (proc j') = Bridge.stdin (proc j) ++ [reqw] ∧ Bridge.waited (proc j) = Ok 0 ∧
  (pending (Bridge.stdout (proc j))).*2 = hw ++ rw.
(** The remote worker was given its REQUEST and the local record, and sent its
    hello, the same record and one of its own. *)
Definition relayed (j j' : job) (h req source record : bytes) : Prop := ∃ hw cw sw rw rest,
  Bridge.encode_frame h = Ok hw ∧ Bridge.encode_frame (req ++ source) = Ok cw ∧
  Bridge.encode_frame source = Ok sw ∧ Bridge.encode_frame record = Ok rw ∧
  remote_sent j' = remote_sent j ++ [cw] ∧ (pending (remote j)).*2 = hw ++ sw ++ rw ++ rest.

Inductive accepted (cap seed : Z) (j j' : job) : option Z → list observation → Prop :=
| AcceptedLocal h sid req source o s :
    worked j j' h req source → served_record 0 h sid req source 1 cap seed s →
    decode_observation source = Ok o → sessions j' = [s] → accepted cap seed j j' None [o]
| AcceptedRemote origin h sid req source o s h2 sid2 req2 record o2 s2 :
    worked j j' h req source → served_record 0 h sid req source 1 cap seed s →
    relayed j j' h2 req2 source record → served_record 1 h2 sid2 req2 record origin cap seed s2 →
    decode_observation source = Ok o → decode_observation record = Ok o2 →
    sessions j' = [s; s2] → accepted cap seed j j' (Some origin) [o; o2].

(** The job once its writer has been closed. *)
Definition hung_up (j : job) : job := match writer j with Some _ => set_writer true j | None => j end.
Lemma close_writer_inv j r j' : close_writer j = (r, j') →
  j' = hung_up j ∧ ((∀ e, remote_closed = Raise e → is_OSError e = true) → r = Ok tt).
Proof.
  intros E. unfold close_writer in E. apply st_bind_inv in E as (w & j1 & E1 & E). injection E1 as <- <-.
  unfold hung_up. destruct (writer j) as [c|]; [|by injection E as <- <-].
  apply st_bind_inv in E as (x & j1 & E1 & E). injection E1 as <- <-. unfold try_except, lift in E.
  destruct remote_closed as [[]|e]; [by injection E as <- <-|].
  destruct (is_OSError e) eqn:Ee; injection E as <- <-; split; try done. intros He. specialize (He e eq_refl). congruence.
Qed.
Lemma sessions_hung_up j : sessions (hung_up j) = sessions j.
Proof. unfold hung_up. by destruct (writer j). Qed.

Lemma hung_up_eq j : ∃ w, hung_up j = Job (proc j) (remote j) (remote_sent j) (sessions j) w.
Proof. unfold hung_up. destruct (writer j); [by eexists|]. exists (writer j). by destruct j. Qed.

Lemma finish_Ok j x j' : finish j = (Ok x, j') → close_all 0 (length (sessions j)) [] (hung_up j) = (Ok [], j').
Proof.
  intros E. unfold finish in E. apply st_bind_Ok in E as (u1 & j1 & E1 & E). apply close_writer_inv in E1 as [-> _].
  apply st_bind_Ok in E as (n & j1 & E1 & E). injection E1 as <- <-. rewrite sessions_hung_up in E.
  apply st_bind_Ok in E as (es & j1 & E1 & E). destruct es; [|done]. injection E as _ <-. done.
Qed.

(** C21.  A job that [run_job] accepts.  The local worker was given exactly the
    REQUEST the policy server had approved and printed one record; with a remote
    worker, that one was given its own approved REQUEST and the local record,
    and returned the local record unchanged with a record of its own.  Each
    session of the policy server was opened by the hello of its own worker, was
    asked and then handed, byte for byte, the record of that worker, approved
    both, and was closed with a goodbye; the observations returned are the
    decoded records, in that order. *)
Theorem accepted_job cap seed origin j obs j' : sessions j = [] →
  run_job cap seed origin j = (Ok obs, j') → accepted cap seed j j' origin obs.
Proof.
  intros Hnil E. unfold run_job, try_finally in E. destruct (job_body cap seed origin j) as [rb jb] eqn:Eb.
  destruct (finish jb) as [rf jf] eqn:Ef. destruct rf; [|done]. injection E as -> <-. apply finish_Ok in Ef.
  destruct (hung_up_eq jb) as [w Hw]. rewrite Hw in Ef. clear Hw.
  unfold job_body in Eb. apply st_bind_Ok in Eb as (source & j1 & E1 & Eb).
  apply local_part_Ok in E1 as (h & sid & req & rest & hw & rw & sw & Hsid & Ha & _ & _ & Hss & Hrem & Hrs & Hhw & Hrw & Hsw & Hin & Hwait & Hall);
    [|done].
  apply st_bind_Ok in Eb as (records & j2 & E2 & Eb).
  apply st_bind_Ok in Eb as (os & j3 & E3 & Eb). apply lift_inv in E3 as [Hos ->]. apply decode_all_Ok in Hos.
  apply st_bind_Ok in Eb as (x & j4 & E4 & Eb). injection Eb as -> ->.
  destruct origin as [origin|].
  - eapply remote_part_Ok in E2 as (h2 & sid2 & req2 & rest2 & obs2 & hw2 & cw & sw' & ow & Hsid2 & Ha2 & -> & Hss2 & Hpr & Hhw2 & Hcw & Hsw' & How & Hrs2 & Hall2);
      [|done].
    inversion Hos as [|? o ? ? Ho Hos']; subst. inversion Hos' as [|? o2 ? ? Ho2 Hos'']; subst. inversion Hos''; subst.
    eapply submit_step in E4 as (r3 & t3 & Hr3 & Hd3 & E4); [|by rewrite Hss2|done]. cbn in Hr3, Hd3. subst rest.
    eapply submit_step in E4 as (q3 & u3 & Hq3 & He3 & E4); [|by rewrite Hss2|done]. cbn in Hq3, He3. subst rest2.
    cbn [submit_all] in E4. injection E4 as _ <-. rewrite Hss2 in Ef. cbn in Ef.
    eapply close_step in Ef as (r4 & t4 & Hr4 & Hg4 & Ef); [|done..]. cbn in Hr4, Hg4. subst t3.
    eapply close_step in Ef as (q4 & u4 & Hq4 & Hh4 & Ef); [|done..]. cbn in Hq4, Hh4. subst u3.
    unfold close_all in Ef. injection Ef as <-. rewrite Hpr, Hrem, Hrs in *.
    eapply (AcceptedRemote _ _ _ _ _ h sid req source o _ h2 sid2 req2 obs2); [..|cbn; reflexivity].
    + exists hw, rw, sw. done.
    + by exists r3, r4, t4.
    + exists hw2, cw, sw', ow, (pending (remote j2)).*2. done.
    + by exists q3, q4, u4.
    + done.
    + done.
  - injection E2 as <- <-. inversion Hos as [|? o ? ? Ho Hos']; subst. inversion Hos'; subst.
    eapply submit_step in E4 as (r3 & t3 & Hr3 & Hd3 & E4); [|by rewrite Hss|done]. cbn in Hr3, Hd3. subst rest.
    cbn [submit_all] in E4. injection E4 as _ <-. rewrite Hss in Ef. cbn in Ef.
    eapply close_step in Ef as (r4 & t4 & Hr4 & Hg4 & Ef); [|done..]. cbn in Hr4, Hg4. subst t3.
    unfold close_all in Ef. injection Ef as <-.
    eapply (AcceptedLocal _ _ _ _ h sid req source o); [..|cbn; reflexivity].
    + exists hw, rw, sw. done.
    + by exists r3, r4, t4.
    + done.
Qed.

(** ** No socket survives a job *)

(** What an exchange may fail with: the errors of sockets and of their deadlines. *)
Definition orderly : Prop :=
  (∀ i script e, policy i = Ok script → Raise e ∈ script → expected e = true) ∧
  (∀ e, remote_closed = Raise e → is_OSError e = true).

Definition tidy (s : Session) : Prop :=
  (∀ e, Raise e ∈ replies s → expected e = true) ∧ (∀ sid, session s = Some sid → length sid = 16%nat).
Definition all_tidy (j : job) : Prop := Forall tidy (sessions j).

Lemma tidy_exchange data : preserves tidy (exchange data).
Proof.
  intros s r s' [Hr Hs] E. unfold exchange in E. destruct (replies s) as [|x rs] eqn:Er; injection E as <- <-.
  - split; [by intros ? ?%not_elem_of_nil|done].
  - split; [|done]. cbn. intros e He. apply Hr. by apply list_elem_of_further.
Qed.
Lemma tidy_open : preserves tidy open.
Proof.
  intros s r s' Ht E. destruct r as [x|e].
  - destruct Ht as [Hr Hs]. apply open_Ok in E as (r & rs & sid & Hrs & Hw & ->). split; cbn.
    + intros e He. apply Hr. rewrite Hrs. by apply list_elem_of_further.
    + intros ? [= <-]. by eapply welcome_length.
  - unfold open in E.
    apply st_bind_Raise in E as [E|(h & s1 & E1 & E)]; [done|]. injection E1 as <- <-.
    apply st_bind_Raise in E as [E|(r & s1 & E1 & E)]; [by eapply tidy_exchange|].
    apply tidy_exchange in E1; [|done].
    repeat (apply st_bind_Raise in E as [E|(? & ? & E2 & E)];
      [try (apply lift_inv in E as [_ ->]; exact E1); by apply raise_when_spec in E as [-> _]|
       first [apply lift_inv in E2 as [_ ->] | apply raise_when_Ok in E2 as [_ ->]]]).
    done.
Qed.

#[local] Hint Resolve tidy_exchange tidy_open : py.

Lemma tidy_check r status sequence : preserves tidy (check_decision r status sequence).
Proof. unfold check_decision. auto 20 with py. Qed.
#[local] Hint Resolve tidy_check : py.
Lemma tidy_request c o seed : preserves tidy (request c o seed).
Proof. unfold request. auto 20 with py. Qed.
Lemma tidy_submit data : preserves tidy (submit data).
Proof. unfold submit. auto 20 with py. Qed.
Lemma tidy_close : preserves tidy close.
Proof.
  unfold close. apply preserves_try_finally; [|apply preserves_modify; by intros s []].
  unfold close_body. apply preserves_bind; [auto with py|]. intros [[|y sid]|]; auto 20 with py.
Qed.
#[local] Hint Resolve tidy_request tidy_submit tidy_close : py.

Lemma tidy_on_session {A} i (m : st Session A) : preserves tidy m → preserves all_tidy (on_session i m).
Proof.
  intros Hm j r j' Hj E. unfold on_session in E. destruct (sessions j !! i) as [s|] eqn:Es; [|by injection E as _ <-].
  destruct (m s) as [r1 s'] eqn:Em. injection E as _ <-. apply Forall_insert; [done|].
  eapply Hm, Em. by eapply Forall_lookup_1 in Es.
Qed.
Lemma tidy_on_proc {A} (m : st Bridge.process A) : preserves all_tidy (on_proc m).
Proof. intros j r j' Hj (p & _ & ->)%on_proc_inv. done. Qed.
Lemma tidy_on_remote {A} (m : st reader A) : preserves all_tidy (on_remote m).
Proof. intros j r j' Hj (p & _ & ->)%on_remote_inv. done. Qed.
Lemma tidy_send_remote data : preserves all_tidy (send_remote data).
Proof. unfold send_remote. apply preserves_bind; [auto with py|]. intros. apply preserves_modify. done. Qed.
Lemma tidy_add_session h : orderly → preserves all_tidy (add_session h).
Proof.
  intros Ho j r j' Hj E. unfold add_session in E. destruct (policy _) as [script|] eqn:Ep; injection E as _ <-; [|done].
  apply Forall_app. split; [done|]. constructor; [|done]. split; [|done]. intros e He. by eapply (proj1 Ho).
Qed.
Lemma tidy_set_writer x : preserves all_tidy (modify (set_writer x)).
Proof. by apply preserves_modify. Qed.
#[local] Hint Resolve tidy_set_writer : py.
#[local] Hint Resolve tidy_on_session tidy_on_proc tidy_on_remote tidy_send_remote tidy_add_session : py.

Lemma tidy_submit_all i records : preserves all_tidy (submit_all i records).
Proof.
  revert i. induction records as [|r rs IH]; intros i; cbn [submit_all]; [auto with py|].
  apply preserves_bind; [auto with py|]. intros n. case_match; auto with py.
Qed.
#[local] Hint Resolve tidy_submit_all : py.

Lemma tidy_job_body cap seed origin : orderly → preserves all_tidy (job_body cap seed origin).
Proof.
  intros Ho. unfold job_body, with_worker, local_part.
  apply preserves_bind; [auto 20 with py|]. intros src.
  apply preserves_bind; [destruct origin; unfold remote_part; auto 20 with py|]. auto 20 with py.
Qed.

Lemma parse_u32 d k n p i : parse d k n = Ok p → Z.of_nat i + 4 <= n → ∃ z, u32 p i = Ok z.
Proof.
  intros (Hl & _ & _ & _ & ->)%parse_Ok Hi. eexists. apply u32_Ok. split; [|done].
  unfold len in Hl. rewrite length_drop. lia.
Qed.

(** [close] fails only with the errors [run_job] collects. *)
Lemma close_expected s e s' : tidy s → close s = (Raise e, s') → expected e = true.
Proof.
  intros [Hr Hs] E. unfold close, try_finally, shutdown, modify in E.
  destruct (close_body s) as [r1 s1] eqn:Eb. injection E as -> _. unfold close_body in Eb.
  apply st_bind_Raise in Eb as [Eb|(o & s2 & E1 & Eb)]; [done|]. injection E1 as <- <-.
  destruct (session s) as [[|y sid]|] eqn:Es; [done| |done]. specialize (Hs _ eq_refl).
  apply st_bind_Raise in Eb as [Eb|(z & s2 & E1 & Eb)]; apply lift_inv in Eb || apply lift_inv in E1;
    [destruct Eb as [Eb _]; by rewrite pack16_small in Eb|destruct E1 as [E1 ->]].
  rewrite pack16_small in E1 by done. assert (z = y :: sid) as -> by congruence.
  apply st_bind_Raise in Eb as [Eb|(d & s2 & E2 & Eb)]; apply lift_inv in Eb || apply lift_inv in E2;
    [destruct Eb as [Eb _]; by rewrite bye_packet in Eb|destruct E2 as [_ ->]].
  apply st_bind_Raise in Eb as [Eb|(r & s2 & E2 & Eb)].
  { unfold exchange in Eb. destruct (replies s) as [|x rs] eqn:Er; injection Eb as Eb _; [by rewrite <-Eb|].
    apply Hr. rewrite Eb. apply list_elem_of_here. }
  apply st_bind_Raise in Eb as [Eb|(p & s3 & E3 & Eb)].
  { apply lift_inv in Eb as [Eb _]. unfold parse in Eb. destruct (negb _ || _ || _) eqn:Eg; [by injection Eb as <-|].
    cbn [raise_if mbind result_bind] in Eb. destruct (u32 r 8) as [n|e1] eqn:Eu.
    - cbn [mbind result_bind] in Eb. destruct (n =? 60); [done|]. by injection Eb as <-.
    - unfold u32 in Eu. destruct (Nat.ltb_spec (length r) (8 + 4)); [|done]. bools. unfold len in *. lia. }
  apply lift_inv in E3 as [E3 ->]. destruct (parse_u32 r 32 60 p 16 E3 ltac:(lia)) as (z1 & Hz1).
  destruct (parse_u32 r 32 60 p 20 E3 ltac:(lia)) as (z2 & Hz2). rewrite Hz1, Hz2 in Eb.
  apply st_bind_Raise in Eb as [Eb|(? & ? & E4 & Eb)]; [done|]. injection E4 as <- <-.
  apply st_bind_Raise in Eb as [Eb|(? & ? & E4 & Eb)]; [done|]. injection E4 as <- <-.
  apply raise_when_spec in Eb as [_ [[_ Eb]|[_ Eb]]]; [done|by injection Eb as ->].
Qed.

Lemma close_all_writer i n errors j r j' : close_all i n errors j = (r, j') → writer j' = writer j.
Proof.
  revert i errors j. induction n as [|n IH]; intros i errors j E.
  { unfold close_all in E. by injection E as _ <-. }
  cbn [close_all] in E. apply st_bind_inv in E as (re & j1 & E1 & E).
  assert (H1 : writer j1 = writer j).
  { unfold try_except, mbind, st_bind, on_session in E1. destruct (sessions j !! i) as [s|]; [|by injection E1 as _ <-].
    destruct (close s) as [[x|e] s']; [by injection E1 as _ <-|]. by destruct (expected e); injection E1 as _ <-. }
  destruct re; [|by destruct E as [_ ->]]. rewrite <-H1. by eapply IH.
Qed.

Lemma close_all_shuts i n errors j r j' : all_tidy j →
  (i + n = length (sessions j))%nat → Forall (λ s, shut s = true) (take i (sessions j)) →
  close_all i n errors j = (r, j') → is_Ok r = true ∧ Forall (λ s, shut s = true) (sessions j').
Proof.
  revert i errors j. induction n as [|n IH]; intros i errors j Ht Hn Hi E.
  { unfold close_all in E. injection E as <- <-. rewrite take_ge in Hi by lia. done. }
  cbn [close_all] in E. apply st_bind_inv in E as (re & j1 & E1 & E).
  destruct (lookup_lt_is_Some_2 (sessions j) i ltac:(lia)) as (s & Hs).
  assert (Hc : ∃ es s', re = Ok es ∧ tidy s' ∧ shut s' = true ∧
    j1 = Job (proc j) (remote j) (remote_sent j) (<[i := s']> (sessions j)) (writer j)).
  { unfold try_except, mbind, st_bind, on_session in E1. rewrite Hs in E1.
    pose proof (Forall_lookup_1 _ _ _ _ Ht Hs) as Hts.
    destruct (close s) as [[x|e] s'] eqn:Ec.
    - injection E1 as <- <-. eexists _, s'. split_and!; [done|by eapply tidy_close|by eapply close_shuts|done].
    - rewrite (close_expected _ _ _ Hts Ec) in E1. injection E1 as <- <-.
      eexists _, s'. split_and!; [done|by eapply tidy_close|by eapply close_shuts|done]. }
  destruct Hc as (es & s' & -> & Hs' & Hsh & ->). eapply IH, E; cbn.
  - by apply Forall_insert.
  - rewrite length_insert. lia.
  - rewrite (take_S_r _ _ s') by (apply list_lookup_insert_eq; by eapply lookup_lt_Some).
    apply Forall_app. split; [|by constructor]. by rewrite take_insert_ge.
Qed.

(** Whatever happens to a job - the worker, the remote worker or the policy
    server failing, refusing or lying at any point -, when [run_job] ends every
    session it opened has had its socket closed, and so has its connection to the
    remote worker, provided exchanges fail only with socket errors, deadlines or
    [ValueError] and the closing of that connection only with the first two. *)
Theorem sockets_closed cap seed origin j r j' : orderly → sessions j = [] →
  run_job cap seed origin j = (r, j') → Forall (λ s, shut s = true) (sessions j') ∧ writer j' ≠ Some false.
Proof.
  intros Ho Hnil E. unfold run_job, try_finally in E. destruct (job_body cap seed origin j) as [rb jb] eqn:Eb.
  assert (Ht : all_tidy jb).
  { eapply tidy_job_body, Eb; [done|]. unfold all_tidy. by rewrite Hnil. }
  destruct (finish jb) as [rf jf] eqn:Ef. assert (j' = jf) as -> by (destruct rf; by injection E as _ <-).
  clear E. unfold finish in Ef. apply st_bind_inv in Ef as (rw & jw & Ew & Ef).
  apply close_writer_inv in Ew as [-> Hw]. rewrite (Hw (proj2 Ho)) in Ef. unfold gets, mbind at 1, st_bind at 1 in Ef.
  apply st_bind_inv in Ef as (rc & jc & Ec & Ef). pose proof (close_all_writer _ _ _ _ _ _ Ec) as Hcw.
  assert (jf = jc) as -> by (destruct rc as [[|e es]|e]; [by injection Ef|by injection Ef|by destruct Ef]).
  apply close_all_shuts in Ec as [_ Hs].
  - split; [done|]. rewrite Hcw. unfold hung_up. destruct (writer jb) eqn:Ewr; [done|by rewrite Ewr].
  - unfold all_tidy. by rewrite sessions_hung_up.
  - done.
  - by rewrite take_0.
Qed.
End theorems.

(** ** Concrete jobs: a Linux worker and a remote Windows worker *)

Definition sample_hello (x : byte) : bytes := replicate 60 x10 ++ replicate 16 x.
Definition sample_sid (x : byte) : bytes := replicate 16 x.
Definition ok_of (r : result bytes) : bytes := match r with Ok x => x | Raise _ => [] end.
Definition answer (kind seq : Z) (p : bytes) : result bytes := packet kind p seq.
Definition sample_policy (x : byte) : list (result bytes) :=
  [ answer 2 0 (le_encode 4 1 ++ le_encode 4 0 ++ sample_sid x ++ zeros 16 ++ replicate 16 x);
    answer 66 1 (sample_sid x ++ le_encode 4 1 ++ le_encode 4 1 ++ le_encode 4 0);
    answer 66 2 (sample_sid x ++ le_encode 4 1 ++ le_encode 4 2 ++ le_encode 4 0);
    answer 32 3 (sample_sid x ++ le_encode 4 0 ++ le_encode 4 3 ++ b "bye" ++ zeros 33) ].
(** An observation of the process capability. *)
Definition sample_record (x : byte) (origin : Z) : bytes :=
  ok_of (packet 65 (sample_sid x ++ le_encode 4 1 ++ replicate 16 x ++ replicate 16 x ++
    [z2b origin; x02; x01; x01] ++ le_encode 4 37 ++ le_encode 4 5 ++ le_encode 4 0 ++
    le_encode 8 4242 ++ le_encode 8 7 ++ zeros 20) 2).
Definition framed (data : bytes) : bytes := be_encode 4 (len data) ++ data.
Definition sample_job : job :=
  Job (Bridge.Process (Reader (buffered (framed (sample_hello x01) ++ framed (sample_record x01 1)) 2) (Some 5) 0) []
         (Ok tt) (Ok 0) (Ok tt) None)
      (Reader (buffered (framed (sample_hello x02) ++ framed (sample_record x01 1) ++ framed (sample_record x02 2)) 2) (Some 9) 0)
      [] [] None.
Definition good_world : World := {|
  spawned := Ok tt; connected := Ok tt; remote_drain := Ok tt; remote_closed := Raise TimeoutError;
  policy := λ i, Ok (sample_policy (if (i =? 0)%nat then x01 else x02)) |}.
(** The same, but the policy server goes silent for the second record. *)
Definition silent_world : World := {|
  spawned := Ok tt; connected := Ok tt; remote_drain := Ok tt; remote_closed := Raise TimeoutError;
  policy := λ i, Ok (if (i =? 0)%nat then sample_policy x01 else take 2 (sample_policy x02)) |}.

Definition good_run : result (list observation) * job :=
  Eval vm_compute in @run_job good_world 2 37 (Some 2) sample_job.
Definition good_observations : list observation :=
  Eval vm_compute in match good_run.1 with Ok o => o | Raise _ => [] end.
Lemma good_run_eq : @run_job good_world 2 37 (Some 2) sample_job = (Ok good_observations, good_run.2).
Proof. vm_compute. reflexivity. Qed.

Lemma accepted_job_witness :
  length good_observations = 2%nat ∧ @accepted good_world 2 37 sample_job good_run.2 (Some 2) good_observations.
Proof. split; [reflexivity|]. exact (@accepted_job good_world 2 37 (Some 2) sample_job _ _ eq_refl good_run_eq). Defined.

Definition silent_run : result (list observation) * job :=
  Eval vm_compute in @run_job silent_world 2 37 (Some 2) sample_job.
Lemma silent_run_eq : @run_job silent_world 2 37 (Some 2) sample_job = (Raise TimeoutError, silent_run.2).
Proof. vm_compute. reflexivity. Qed.
Lemma silent_orderly : @orderly silent_world.
Proof.
  split; [|by intros e [= <-]]. intros i script e E He. injection E as <-. apply list_elem_of_In in He.
  destruct (i =? 0)%nat; vm_compute in He; intuition congruence.
Qed.

Lemma sockets_closed_witness :
  length (sessions silent_run.2) = 2%nat ∧ Forall (λ s, shut s = true) (sessions silent_run.2) ∧
  writer silent_run.2 ≠ Some false.
Proof.
  split; [vm_compute; reflexivity|].
  exact (@sockets_closed silent_world 2 37 (Some 2) sample_job _ _ silent_orderly eq_refl silent_run_eq).
Defined.
