(* ===== verification/LabProcesses.v ===== *)
(** * The local processes of the laboratory ([src/scripts/lab_processes.py])

    Start, status and stop of the two local binaries.  The kernel is a parameter
    indexed by the events of a run: which process occupies a pid, what [/proc]
    says of it, what a child has logged.  So every outcome of the races between
    a check and the use of its result is a run of the model. *)

From S2P Require Import Prelude Bytes Json JsonCanon Dict Attestation.
Import Json.

Module LabProcesses.

(** Processes are told apart by a number the program never sees: two processes
    that occupy the same pid one after the other have different numbers. *)
Abbreviation instance := nat.

Class Kernel := {
  tick : nat → N;                                  (* nanoseconds before the n-th event *)
  occupant : nat → Z → option instance;            (* of a pid *)
  start_ticks : nat → instance → option pystr;     (* field 22 of [/proc/pid/stat] *)
  executable : nat → instance → option pystr;      (* [/proc/pid/exe], resolved *)
  popen : nat → pystr → list pystr → result (Z * instance);
  log_line : nat → instance → pystr;               (* the first line of the child's log *)
  ended : nat → instance → bool;                   (* [poll() is not None] *)
  reaped : nat → instance → result unit;           (* [wait(timeout=2)] *)
  written : nat → result unit                      (* [json.dump] and [os.replace] *)
}.

Inductive signo := SIGTERM | SIGKILL.

(** What a run changes: the clock, the signals sent, the children launched, when it
    may have let go of a child (waited for it, seen it ended with [poll], or dropped
    its [Popen]), after which its pid may be another's, the open pidfds, the two
    files of the runtime directory and the output.  A state file is what [json.load]
    makes of it. *)
Record sys := Sys {
  mono : Z;
  events : nat;
  signals : list (instance * signo);
  children : list (Z * instance);
  released : list (nat * instance);
  pidfds : nat;
  state_json : option (result value);
  state_new : bool;
  output : list value }.

Section kernel.
Context `{Kernel}.

Definition event : st sys nat := λ s,
  (Ok (events s), Sys (mono s + Z.of_N (tick (events s))) (S (events s)) (signals s) (children s) (released s) (pidfds s)
                    (state_json s) (state_new s) (output s)).
(** [time.monotonic()] *)
Definition monotonic : st sys Z := _ ← event; gets mono.
(** [time.sleep(0.01)] *)
Definition sleep_10ms : st sys unit :=
  _ ← event;
  modify (λ s, Sys (mono s + 10 * ns_per_ms) (events s) (signals s) (children s) (released s) (pidfds s)
                 (state_json s) (state_new s) (output s)).
Definition signalled (i : instance) (g : signo) : st sys unit :=
  modify (λ s, Sys (mono s) (events s) (signals s ++ [(i, g)]) (children s) (released s) (pidfds s)
                 (state_json s) (state_new s) (output s)).
Definition launched (c : Z * instance) : st sys unit :=
  modify (λ s, Sys (mono s) (events s) (signals s) (children s ++ [c]) (released s) (pidfds s)
                 (state_json s) (state_new s) (output s)).
Definition let_go (i : instance) : st sys unit :=
  modify (λ s, Sys (mono s) (events s) (signals s) (children s) (released s ++ [(events s, i)]) (pidfds s)
                 (state_json s) (state_new s) (output s)).
Definition set_pidfds (f : nat → nat) : st sys unit :=
  modify (λ s, Sys (mono s) (events s) (signals s) (children s) (released s) (f (pidfds s))
                 (state_json s) (state_new s) (output s)).
Definition set_state (v : option (result value)) : st sys unit :=
  modify (λ s, Sys (mono s) (events s) (signals s) (children s) (released s) (pidfds s) v (state_new s) (output s)).
Definition set_new (x : bool) : st sys unit :=
  modify (λ s, Sys (mono s) (events s) (signals s) (children s) (released s) (pidfds s) (state_json s) x (output s)).
Definition print (v : value) : st sys unit :=
  modify (λ s, Sys (mono s) (events s) (signals s) (children s) (released s) (pidfds s) (state_json s) (state_new s) (output s ++ [v])).

(** ** Identity *)

(** [identity(pid)]: two readings, at two moments. *)
Definition identity (pid : Z) : st sys (option dict) :=
  n ← event;
  match (occupant n pid ≫= start_ticks n) with
  | None => mret None
  | Some t =>
      m ← event;
      mret (exe ← occupant m pid ≫= executable m;
            Some [(u "pid", VInt pid); (u "start_ticks", VStr t); (u "executable", VStr exe)])
  end.

(** The pid of a record; [load] admits no other kind of value. *)
Definition pid_of (record : dict) : result Z :=
  v ← d_item record (u "pid");
  match v with VInt z => Ok z | VBool x => Ok (Z.b2z x) | _ => Raise TypeError end.

(** [matches(record)] *)
Definition matches (record : dict) : st sys bool :=
  pid ← lift (pid_of record);
  id ← identity pid;
  p ← lift (d_item record (u "pid"));
  t ← lift (d_item record (u "start_ticks"));
  exe ← lift (d_item record (u "executable"));
  mret (match id with
        | Some d => py_eq (VDict d) (VDict [(u "pid", p); (u "start_ticks", t); (u "executable", exe)])
        | None => false
        end).

(** ** Stopping a process *)

Definition lookup_error : exn := OSError "ProcessLookupError".
Definition out_of_fuel : exn := AssertionError.

(** A pidfd refers to the process that had the pid when it was opened. *)
Definition pidfd_open (pid : Z) : st sys instance :=
  n ← event;
  match occupant n pid with
  | Some i => _ ← set_pidfds S; mret i
  | None => raise lookup_error
  end.
Definition pidfd_send_signal (pid : Z) (fd : instance) (g : signo) : st sys unit :=
  n ← event;
  if decide (occupant n pid = Some fd) then signalled fd g else raise lookup_error.

(** [while matches(record) and time.monotonic()<deadline: time.sleep(0.01)] *)
Fixpoint wait_gone (fuel : nat) (record : dict) (deadline : Z) : st sys unit :=
  match fuel with
  | O => raise out_of_fuel
  | S fuel =>
      m ← matches record;
      if (m : bool) then
        t ← monotonic;
        if t <? deadline then _ ← sleep_10ms; wait_gone fuel record deadline else mret tt
      else mret tt
  end.
(** Two seconds hold at most 200 sleeps. *)
Definition STOP_FUEL : nat := 202.

Definition wait_two_seconds (record : dict) : st sys unit :=
  t ← monotonic; wait_gone STOP_FUEL record (t + 2 * ns_per_s).

(** One signal, the wait, and whether the process is still there. *)
Definition signal_and_wait (record : dict) (pid : Z) (fd : instance) (g : signo) : st sys bool :=
  _ ← pidfd_send_signal pid fd g;
  _ ← wait_two_seconds record;
  matches record.
Definition stop_body (record : dict) (pid : Z) (fd : instance) : st sys unit :=
  m ← matches record;
  if negb m then mret tt else
  m ← signal_and_wait record pid fd SIGTERM;
  if (m : bool) then
    m ← signal_and_wait record pid fd SIGKILL;
    raise_when m (ValueError "process_stop_timeout")
  else mret tt.
Definition stop_process (record : dict) : st sys unit :=
  m ← matches record;
  if negb m then mret tt else
  pid ← lift (pid_of record);
  fd ← pidfd_open pid;
  try_finally
    (try_except (stop_body record pid fd) (λ e, if decide (e = lookup_error) then Some (mret tt) else None))
    (set_pidfds pred).

(** ** The state file *)

Definition known_name (v : option value) : bool :=
  match v with
  | Some v => py_eq v (VStr (u "lab_server")) || py_eq v (VStr (u "lab_adapter"))
  | None => false
  end.
Definition valid_pid (v : option value) : bool :=
  match v with Some (VInt z) => negb (z <=? 1) | Some (VBool x) => negb (Z.b2z x <=? 1) | _ => false end.
Fixpoint load_items (l : list value) : result (list dict) :=
  match l with
  | [] => Ok []
  | VDict d :: l =>
      raise_if! negb (known_name (d_get d (u "name"))) || negb (valid_pid (d_get d (u "pid"))) then ValueError "invalid_state";
      ds ← load_items l; Ok (d :: ds)
  | _ :: _ => Raise AttributeError
  end.
(** [load(directory)] *)
Definition load : st sys (list dict) :=
  f ← gets state_json;
  match f with
  | None => mret []
  | Some r =>
      v ← lift r;
      match v with
      | VList l => _ ← raise_when (2 <? length l)%nat (ValueError "invalid_state"); lift (load_items l)
      | _ => raise (ValueError "invalid_state")
      end
  end.

(** [save(directory, records)]: the new file must not exist, and replaces the old one
    only when it is complete. *)
Definition save (records : list dict) : st sys unit :=
  x ← gets state_new;
  _ ← raise_when x (OSError "FileExistsError");
  _ ← set_new true;
  try_finally
    (n ← event; _ ← lift (written n); _ ← set_state (Some (Ok (VList (VDict <$> records)))); set_new false)
    (set_new false).

(** ** Starting a process *)

Definition newline_ended (line : pystr) : bool :=
  match last line with Some c => c =? 10 | None => false end.
(** The checks on the line a child announces itself with, and its record. *)
Definition announced (line : pystr) (port : Z) : result unit :=
  boot ← loads Attestation.plain_hooks line;
  ev ← v_get boot (u "ev");
  raise_if! negb (match ev with Some v => py_eq v (VStr (u "boot")) | None => false end) then ValueError "invalid_readiness";
  p ← v_get boot (u "port");
  raise_if! negb (match p with Some v => py_eq v (VInt port) | None => false end) then ValueError "invalid_readiness";
  Ok tt.
Definition new_record (name : pystr) (port : Z) (id : dict) : dict :=
  d_update id [(u "name", VStr name); (u "port", VInt port)].

Fixpoint boot_loop (fuel : nat) (name : pystr) (port pid : Z) (i : instance) (deadline : Z) : st sys dict :=
  match fuel with
  | O => raise out_of_fuel
  | S fuel =>
      t ← monotonic;
      if t <? deadline then
        n ← event;
        if newline_ended (log_line n i) then
          _ ← lift (announced (log_line n i) port);
          id ← identity pid;
          match id with
          | None => raise (ValueError "process_exited")
          | Some d => mret (new_record name port d)
          end
        else
          m ← event;
          if ended m i then _ ← let_go i; raise (ValueError "process_start_failed")
          else _ ← sleep_10ms; boot_loop fuel name port pid i deadline
      else raise (ValueError "readiness_timeout")
  end.
(** Three seconds hold at most 300 sleeps. *)
Definition BOOT_FUEL : nat := 302.

(** [process.terminate()], [process.kill()] of a child that has not been waited for. *)
Definition give_up_on (i : instance) : st sys unit :=
  n ← event;
  _ ← (if ended n i then let_go i else signalled i SIGTERM);
  m ← event;
  match reaped m i with
  | Raise SubprocessError => _ ← signalled i SIGKILL; k ← event; _ ← lift (reaped k i); let_go i
  | r => _ ← lift r; let_go i
  end.
(** [except BaseException: ...; raise] *)
Definition on_error {A} (m : st sys A) (cleanup : st sys unit) : st sys A := λ s,
  match m s with
  | (Raise e, s1) => match cleanup s1 with (Ok _, s2) => (Raise e, s2) | (Raise e', s2) => (Raise e', s2) end
  | r => r
  end.
(** The [Popen] is dropped at the end: its destructor, or the next [Popen], waits for
    a child that has ended. *)
Definition spawn (binary name : pystr) (arguments : list pystr) (port : Z) : st sys dict :=
  n ← event;
  c ← lift (popen n binary arguments);
  _ ← launched c;
  try_finally
    (on_error (t ← monotonic; boot_loop BOOT_FUEL name port c.1 c.2 (t + 3 * ns_per_s)) (give_up_on c.2))
    (let_go c.2).

(** ** The three commands *)

(** What [runtime_lock] requires of the directory. *)
Definition runtime_lock (is_dir : bool) (owner uid mode : Z) : result unit :=
  raise_if (negb is_dir || negb (owner =? uid) || negb (Z.land mode 63 =? 0)) (ValueError "runtime directory").

Fixpoint statuses (records : list dict) : st sys (list bool) :=
  match records with
  | [] => mret []
  | r :: rs => x ← matches r; xs ← statuses rs; mret (x :: xs)
  end.
Definition with_status (records : list dict) (running : list bool) : list value :=
  zip_with (λ r x, VDict (d_set r (u "running") (VBool x))) records running.
Definition both_running (running : list bool) : bool :=
  (length running =? 2)%nat && forallb id running.

Fixpoint stop_all (records : list dict) : st sys unit :=
  match records with
  | [] => mret tt
  | r :: rs => _ ← stop_process r; stop_all rs
  end.

(** The command line of the two binaries. *)
Record options := Options {
  server_binary : pystr; adapter_binary : pystr;
  port : Z; adapter_port : Z;
  server_args : list pystr; adapter_args : list pystr }.

Definition status_op (records : list dict) (running : list bool) : st sys unit :=
  print (VDict [(u "running", VBool (both_running running)); (u "processes", VList (with_status records running))]).
Definition stop_op (records : list dict) : st sys unit :=
  _ ← stop_all (rev records);
  _ ← save [];
  print (VDict [(u "stopped", VBool true)]).
Definition start_both (o : options) : st sys (list dict) :=
  server ← spawn (server_binary o) (u "lab_server") (server_args o) (port o);
  adapter ← on_error (spawn (adapter_binary o) (u "lab_adapter") (adapter_args o) (adapter_port o)) (stop_all [server]);
  _ ← on_error (save [server; adapter]) (stop_all [adapter; server]);
  mret [server; adapter].
Definition start_op (o : options) (records : list dict) (running : list bool) : st sys unit :=
  if existsb id running then
    if both_running running then
      print (VDict [(u "running", VBool true); (u "processes", VList (with_status records running))])
    else raise (ValueError "partial service: run stop before start")
  else
    started ← start_both o;
    print (VDict [(u "running", VBool true); (u "processes", VList (VDict <$> started))]).

Inductive command := Start (o : options) | Status | Stop.

(** [manage(args)] with the runtime directory already checked and locked. *)
Definition manage (c : command) : st sys unit :=
  records ← load;
  running ← statuses records;
  match c with
  | Status => status_op records running
  | Stop => stop_op records
  | Start o => start_op o records running
  end.
(** ... and with its two guards. *)
Definition manage_guarded (has_pidfd : bool) (directory : result unit) (c : command) : st sys unit :=
  _ ← raise_when (negb has_pidfd) (ValueError "local process management requires Linux pidfd support");
  _ ← lift directory;
  manage c.
End kernel.

End LabProcesses.
