(* ===== verification/LabProcessesFacts.v ===== *)
(** * The local processes: whom a signal reaches, and what the commands leave

    The facts of [LabProcesses.v], for every kernel that does not give a pid back
    to a process that lost it. *)

From S2P Require Import Prelude Bytes Json JsonCanon Dict Attestation LabProcesses.
Import Json LabProcesses.

(** ** Relations between the states around a step *)

(** [m] relates every state to those it leaves. *)
Definition steps {S A} (R : S → S → Prop) (m : st S A) : Prop := ∀ s r s', m s = (r, s') → R s s'.

Section steps.
Context {S : Type} (R : S → S → Prop) `{!PreOrder R}.

Lemma steps_ret {A} (a : A) : steps R (mret a : st S A).
Proof. intros s r s' [= _ <-]. reflexivity. Qed.
Lemma steps_lift {A} (a : result A) : steps R (lift a : st S A).
Proof. intros s r s' [= _ <-]. reflexivity. Qed.
Lemma steps_gets {A} (f : S → A) : steps R (gets f).
Proof. intros s r s' [= _ <-]. reflexivity. Qed.
Lemma steps_raise {A} e : steps R (raise e : st S A).
Proof. intros s r s' [= _ <-]. reflexivity. Qed.
Lemma steps_raise_when b e : steps R (raise_when b e : st S unit).
Proof. apply steps_lift. Qed.
Lemma steps_modify f : (∀ s, R s (f s)) → steps R (modify f).
Proof. intros Hf s r s' [= _ <-]. apply Hf. Qed.
Lemma steps_bind {A B} (m : st S A) (f : A → st S B) : steps R m → (∀ a, steps R (f a)) → steps R (m ≫= f).
Proof.
  intros Hm Hf s r s' E. apply st_bind_inv in E as (r1 & s1 & E1 & E). apply Hm in E1. destruct r1 as [a|e].
  - etransitivity; [exact E1|]. by eapply Hf.
  - destruct E as [_ ->]. done.
Qed.
Lemma steps_finally {A} (m : st S A) f : steps R m → steps R f → steps R (try_finally m f).
Proof.
  intros Hm Hf s r s' E. unfold try_finally in E. destruct (m s) as [r1 s1] eqn:E1. destruct (f s1) as [r2 s2] eqn:E2.
  apply Hm in E1. apply Hf in E2. destruct r2; injection E as _ <-; by etransitivity.
Qed.
Lemma steps_except {A} (m : st S A) h : steps R m → (∀ e k, h e = Some k → steps R k) → steps R (try_except m h).
Proof.
  intros Hm Hh s r s' E. unfold try_except in E. destruct (m s) as [[a|e] s1] eqn:E1; apply Hm in E1.
  - by injection E as _ <-.
  - destruct (h e) as [k|] eqn:Ek; [|by injection E as _ <-]. etransitivity; [exact E1|]. by eapply Hh.
Qed.
Lemma steps_on_error {A} (m : st S A) c (f : st S A → st S unit → st S A) :
  (∀ s, f m c s = match m s with
     | (Raise e, s1) => match c s1 with (Ok _, s2) => (Raise e, s2) | (Raise e', s2) => (Raise e', s2) end
     | r => r end) → steps R m → steps R c → steps R (f m c).
Proof.
  intros Hf Hm Hc s r s' E. rewrite Hf in E. destruct (m s) as [[a|e] s1] eqn:E1; apply Hm in E1.
  - by injection E as _ <-.
  - destruct (c s1) as [[x|e'] s2] eqn:E2; apply Hc in E2; injection E as _ <-; by etransitivity.
Qed.
End steps.

Create HintDb steps discriminated.
#[export] Hint Resolve steps_ret steps_lift steps_gets steps_raise steps_raise_when steps_bind steps_finally : steps.

Section facts.
Context `{Kernel}.

(** Nothing but time. *)
Definition quiet (s s' : sys) : Prop :=
  (events s <= events s')%nat ∧ mono s <= mono s' ∧ signals s' = signals s ∧ children s' = children s ∧
  pidfds s' = pidfds s ∧ state_json s' = state_json s ∧ state_new s' = state_new s ∧ output s' = output s.
#[export] Instance quiet_preorder : PreOrder quiet.
Proof.
  split; [intros s; unfold quiet; split_and!; try done; lia|]. intros x y z (?&?&?&?&?&?&?&?) (?&?&?&?&?&?&?&?). unfold quiet. split_and!; try lia; congruence.
Qed.

Lemma quiet_event : steps quiet event.
Proof. intros s r s' [= _ <-]. unfold quiet; cbn. split_and!; try done; lia. Qed.
Lemma quiet_sleep : steps quiet sleep_10ms.
Proof.
  apply steps_bind; [tc_solve|apply quiet_event|]. intros n. apply steps_modify. intros s.
  unfold quiet; cbn. split_and!; try done; unfold ns_per_ms; lia.
Qed.
#[local] Hint Resolve quiet_event quiet_sleep : steps.
Lemma quiet_monotonic : steps quiet monotonic.
Proof. unfold monotonic. auto with steps typeclass_instances. Qed.
Lemma quiet_identity pid : steps quiet (identity pid).
Proof.
  apply steps_bind; [tc_solve|apply quiet_event|]. intros n; cbn beta. case_match; auto with steps typeclass_instances.
Qed.
#[local] Hint Resolve quiet_monotonic quiet_identity : steps.
Lemma quiet_matches record : steps quiet (matches record).
Proof. unfold matches. auto 20 with steps typeclass_instances. Qed.
#[local] Hint Resolve quiet_matches : steps.
Lemma quiet_wait_gone fuel record deadline : steps quiet (wait_gone fuel record deadline).
Proof.
  induction fuel as [|fuel IH]; cbn [wait_gone]; [auto with steps typeclass_instances|].
  apply steps_bind; [tc_solve|apply quiet_matches|]. intros [|]; [|auto with steps typeclass_instances].
  apply steps_bind; [tc_solve|apply quiet_monotonic|]. intros t; cbn beta. case_match; auto with steps typeclass_instances.
Qed.
Lemma quiet_wait record : steps quiet (wait_two_seconds record).
Proof. apply steps_bind; [tc_solve|apply quiet_monotonic|]. intros t. apply quiet_wait_gone. Qed.

(** ** What [matches] says *)

(** The readings of [identity] at the events [n] and [S n] agree with the record. *)
Definition match_at (n : nat) (record : dict) : bool :=
  match pid_of record, d_get record (u "start_ticks"), d_get record (u "executable") with
  | Ok pid, Some t, Some exe =>
      match occupant n pid ≫= start_ticks n, occupant (S n) pid ≫= executable (S n) with
      | Some t', Some exe' => py_eq (VStr t') t && py_eq (VStr exe') exe
      | _, _ => false
      end
  | _, _, _ => false
  end.

Lemma pid_eq record z : pid_of record = Ok z → ∃ v, d_get record (u "pid") = Some v ∧ py_eq (VInt z) v = true.
Proof.
  unfold pid_of, d_item. destruct (d_get record (u "pid")) as [v|]; [|done]. cbn [mbind result_bind].
  destruct v; try done; intros [= <-]; eexists; (split; [reflexivity|]); apply Z.eqb_refl.
Qed.

Lemma identity_eq a b c x y z :
  py_eq (VDict [(u "pid", a); (u "start_ticks", b); (u "executable", c)])
        (VDict [(u "pid", x); (u "start_ticks", y); (u "executable", z)]) = py_eq a x && (py_eq b y && py_eq c z).
Proof.
  unfold py_eq at 1. cbn [length Nat.eqb andb d_get].
  rewrite (decide_False (P := u "start_ticks" = u "pid")) by (vm_compute; congruence).
  rewrite (decide_False (P := u "executable" = u "pid")) by (vm_compute; congruence).
  rewrite (decide_False (P := u "executable" = u "start_ticks")) by (vm_compute; congruence).
  rewrite !decide_True by done.
  by rewrite andb_true_r.
Qed.

(** The errors of a record without the keys it needs. *)
Definition ill_formed (e : exn) : Prop := e = KeyError ∨ e = TypeError.

Lemma matches_spec record s r s' : matches record s = (r, s') →
  quiet s s' ∧ (∀ e, r = Raise e → ill_formed e) ∧
  (∀ x, r = Ok x → x = match_at (events s) record ∧ (events s < events s')%nat).
Proof.
  intros E. split; [by eapply quiet_matches|]. unfold matches in E.
  apply st_bind_inv in E as ([pid|e] & s1 & E1 & E); apply lift_inv in E1 as [Ep ->].
  2:{ destruct E as [-> ->]. split; [|done]. intros e' [= <-]. unfold pid_of, d_item in Ep. unfold ill_formed.
      destruct (d_get record (u "pid")) as [v|]; [|injection Ep as <-; auto]. cbn in Ep. destruct v; simplify_eq; auto. }
  pose proof (pid_eq _ _ Ep) as (v & Hv & Hveq).
  apply st_bind_inv in E as ([id|e] & s1 & E1 & E); unfold identity in E1;
    [|unfold mbind, st_bind in E1; cbn [event] in E1; by case_match].
  unfold mbind at 1, st_bind at 1, d_item in E. rewrite Hv in E. cbn [lift] in E.
  unfold match_at. rewrite Ep.
  unfold mbind at 1, st_bind at 1, d_item in E. destruct (d_get record (u "start_ticks")) as [t|]; [|injection E as <- <-; split; [intros ? [= <-]; by left|done]].
  cbn [lift] in E. unfold mbind at 1, st_bind at 1, d_item in E.
  destruct (d_get record (u "executable")) as [exe|]; [|injection E as <- <-; split; [intros ? [= <-]; by left|done]]. cbn [lift] in E. injection E as <- <-.
  split; [done|]. intros x [= <-].
  apply st_bind_Ok in E1 as (n & s2 & E2 & E1). injection E2 as <- <-.
  destruct (occupant (events s) pid ≫= start_ticks (events s)) as [t'|].
  - apply st_bind_Ok in E1 as (m & s2 & E2 & E1). injection E2 as <- <-. injection E1 as <- <-. cbn [events].
    split; [|cbn; lia]. destruct (occupant (S (events s)) pid ≫= executable (S (events s))) as [exe'|]; cbn [mbind option_bind]; [|done].
    etransitivity; [exact (identity_eq (VInt pid) (VStr t') (VStr exe') v t exe)|]. by rewrite Hveq.
  - injection E1 as <- <-. cbn. split; [done|lia].
Qed.

(** ** Waiting ends *)

Lemma monotonic_spec s r s' : monotonic s = (r, s') → r = Ok (mono s') ∧ quiet s s' ∧ (events s < events s')%nat.
Proof.
  intros E. split_and!; [|by eapply quiet_monotonic|]; unfold monotonic, event, mbind, st_bind, gets in E;
    injection E as <- <-; cbn; [done|lia].
Qed.
Lemma sleep_spec s r s' : sleep_10ms s = (r, s') → r = Ok tt ∧ quiet s s' ∧ mono s + 10 * ns_per_ms <= mono s'.
Proof.
  intros E. split_and!; [|by eapply quiet_sleep|]; unfold sleep_10ms, event, mbind, st_bind, modify in E;
    injection E as <- <-; cbn; [done|lia].
Qed.

(** A wait of [fuel - 1] sleeps reaches its deadline. *)
Lemma wait_gone_ends fuel record deadline s r s' :
  deadline <= mono s + (Z.of_nat fuel - 1) * (10 * ns_per_ms) → (0 < fuel)%nat →
  wait_gone fuel record deadline s = (r, s') → ∀ e, r = Raise e → ill_formed e.
Proof.
  revert s. induction fuel as [|fuel IH]; intros s Hd Hf E; [lia|]. cbn [wait_gone] in E.
  apply st_bind_inv in E as (r1 & s1 & E1 & E). apply matches_spec in E1 as (Hq1 & Hr & _).
  destruct r1 as [[|]|e]; [| |destruct E as [-> _]; intros ? [= <-]; by apply Hr].
  2:{ by injection E as <- _. }
  apply st_bind_inv in E as (r2 & s2 & E2 & E). apply monotonic_spec in E2 as (-> & Hq2 & _).
  destruct (Z.ltb_spec (mono s2) deadline) as [Hlt|]; [|by injection E as <- _].
  apply st_bind_inv in E as (r3 & s3 & E3 & E). apply sleep_spec in E3 as (-> & Hq3 & Hs).
  destruct Hq1 as (_ & Hm1 & _), Hq2 as (_ & Hm2 & _). unfold ns_per_ms in *.
  destruct fuel as [|fuel]; [lia|]. eapply IH, E; lia.
Qed.

Lemma wait_ends record s r s' : wait_two_seconds record s = (r, s') → quiet s s' ∧ (∀ e, r = Raise e → ill_formed e).
Proof.
  intros E. split; [by eapply quiet_wait|]. unfold wait_two_seconds in E.
  apply st_bind_inv in E as (r1 & s1 & E1 & E). apply monotonic_spec in E1 as (-> & Hq & _).
  eapply wait_gone_ends, E; unfold STOP_FUEL, ns_per_s, ns_per_ms; lia.
Qed.

(** ** Whom a stop signals *)

(** A process keeps its pid until it ends, and no two processes that had the same
    pid started at the same tick. *)
Record pid_laws : Prop := {
  held : ∀ n1 n2 n3 pid i, (n1 <= n2 <= n3)%nat → occupant n1 pid = Some i → occupant n3 pid = Some i →
    occupant n2 pid = Some i;
  told_apart : ∀ n m pid i j t, occupant n pid = Some i → start_ticks n i = Some t →
    occupant m pid = Some j → start_ticks m j = Some t → i = j }.

(** [i] is the process a record identifies. *)
Definition recorded (record : dict) (i : instance) : Prop := ∃ n pid t,
  pid_of record = Ok pid ∧ d_get record (u "start_ticks") = Some (VStr t) ∧
  occupant n pid = Some i ∧ start_ticks n i = Some t.

Lemma match_at_recorded n record : match_at n record = true → ∃ pid t v i,
  pid_of record = Ok pid ∧ d_get record (u "start_ticks") = Some v ∧ v = VStr t ∧
  occupant n pid = Some i ∧ start_ticks n i = Some t.
Proof.
  unfold match_at. destruct (pid_of record) as [pid|]; [|done]. destruct (d_get record (u "start_ticks")) as [v|]; [|done].
  destruct (d_get record (u "executable")) as [exe|]; [|done].
  destruct (occupant n pid) as [i|] eqn:Ho; cbn [mbind option_bind]; [|done].
  destruct (start_ticks n i) as [t|] eqn:Et; [|done].
  destruct (occupant (S n) pid ≫= executable (S n)) as [exe'|]; [|done]. intros [Ht _]%andb_true_iff.
  exists pid, t, v, i. split_and!; try done. by destruct v; cbn in Ht; try done; apply bool_decide_eq_true in Ht as ->.
Qed.

(** A pidfd opened between two matches refers to the recorded process. *)
Lemma pidfd_is_recorded n1 n2 n3 record pid fd : pid_laws → (n1 <= n2 <= n3)%nat →
  match_at n1 record = true → match_at n3 record = true → pid_of record = Ok pid → occupant n2 pid = Some fd →
  ∃ t, d_get record (u "start_ticks") = Some (VStr t) ∧ occupant n1 pid = Some fd ∧ start_ticks n1 fd = Some t.
Proof.
  intros Hk Hn H1 H3 Hp H2.
  apply match_at_recorded in H1 as (p1 & t1 & v1 & i1 & Hp1 & Hv1 & -> & Ho1 & Ht1).
  apply match_at_recorded in H3 as (p3 & t3 & v3 & i3 & Hp3 & Hv3 & -> & Ho3 & Ht3).
  assert (p1 = pid) as -> by congruence. assert (p3 = pid) as -> by congruence. assert (t3 = t1) as -> by congruence.
  assert (i3 = i1) as -> by (symmetry; by eapply (told_apart Hk)).
  assert (occupant n2 pid = Some i1) by by eapply (held Hk n1 n2 n3). assert (fd = i1) as -> by congruence. eauto.
Qed.

(** A run that signals only processes satisfying [P], and touches no file. *)
Definition signalling (P : instance → Prop) (s s' : sys) : Prop :=
  (events s <= events s')%nat ∧ mono s <= mono s' ∧
  (∃ l, signals s' = signals s ++ l ∧ Forall (λ x, P x.1) l) ∧ children s' = children s ∧
  state_json s' = state_json s ∧ state_new s' = state_new s ∧ output s' = output s.
#[export] Instance signalling_preorder P : PreOrder (signalling P).
Proof.
  split.
  - intros s. unfold signalling. split_and!; try done; try lia. exists []. by rewrite app_nil_r.
  - intros x y z (?&?&(l&Hl&Hp)&?&?&?&?) (?&?&(k&Hk&Hq)&?&?&?&?). unfold signalling. split_and!; try lia; try congruence.
    exists (l ++ k). split; [by rewrite Hk, Hl, app_assoc|]. by apply Forall_app.
Qed.
Lemma quiet_signalling P s s' : quiet s s' → signalling P s s'.
Proof.
  intros (?&?&?&?&?&?&?&?). unfold signalling. split_and!; try done. exists []. by rewrite app_nil_r.
Qed.

Lemma send_spec pid fd g s r s' : pidfd_send_signal pid fd g s = (r, s') →
  (events s < events s')%nat ∧ mono s <= mono s' ∧ pidfds s' = pidfds s ∧
  (∀ P : instance → Prop, P fd → signalling P s s') ∧
  (r = Ok tt ∨ r = Raise lookup_error ∧ occupant (events s) pid ≠ Some fd).
Proof.
  intros E. unfold pidfd_send_signal in E. apply st_bind_Ok in E || apply st_bind_inv in E.
  destruct E as (r1 & s1 & E1 & E). injection E1 as <- <-. cbn [events] in E.
  destruct (decide (occupant (events s) pid = Some fd)); injection E as <- <-; cbn;
    (split_and!; [lia|lia|done| |by auto]); intros P HP; unfold signalling; cbn; split_and!; try done; try lia.
  - exists [(fd, g)]. split; [done|]. by constructor.
  - exists []. by rewrite app_nil_r.
Qed.

Definition gone_between (record : dict) (s s' : sys) : Prop :=
  ∃ n, (events s <= n < events s')%nat ∧ match_at n record = false.
Lemma gone_widen record s s1 s2 s' : (events s <= events s1)%nat → (events s2 <= events s')%nat →
  gone_between record s1 s2 → gone_between record s s'.
Proof. intros H1 H2 (n & Hn & Hm). exists n. split; [lia|done]. Qed.


(** A process that has lost its pid no longer matches. *)
Lemma lost_pid n1 n record pid fd t : pid_laws → pid_of record = Ok pid →
  d_get record (u "start_ticks") = Some (VStr t) → occupant n1 pid = Some fd → start_ticks n1 fd = Some t →
  occupant n pid ≠ Some fd → match_at n record = false.
Proof.
  intros Hk Hp Ht Ho Hst Hne. destruct (match_at n record) eqn:En; [|done]. exfalso.
  apply match_at_recorded in En as (p & t' & v & i & Hp' & Hv & -> & Ho' & Ht').
  assert (p = pid) as -> by congruence. assert (t' = t) as -> by congruence. apply Hne.
  by rewrite (told_apart Hk n1 n pid fd i t).
Qed.

(** How a part of [stop_process] may end. *)
Definition stop_end (record : dict) (s s' : sys) (lookup : bool) (e : exn) : Prop :=
  ill_formed e ∨ (lookup = true ∧ e = lookup_error ∧ gone_between record s s') ∨ e = ValueError "process_stop_timeout".

Lemma ill_formed_not_lookup : ¬ ill_formed lookup_error.
Proof. by intros []. Qed.

Lemma signal_and_wait_spec n1 record pid fd g t s r s' : pid_laws → pid_of record = Ok pid →
  d_get record (u "start_ticks") = Some (VStr t) → occupant n1 pid = Some fd → start_ticks n1 fd = Some t →
  signal_and_wait record pid fd g s = (r, s') →
  signalling (recorded record) s s' ∧ pidfds s' = pidfds s ∧
  (∀ e, r = Raise e → ill_formed e ∨ e = lookup_error ∧ gone_between record s s') ∧
  (r = Ok false → gone_between record s s').
Proof.
  intros Hk Hp Ht Ho Hst E. unfold signal_and_wait in E.
  apply st_bind_inv in E as (r2 & s2 & E2 & E). apply send_spec in E2 as (Hev2 & _ & Hfd2 & Hs2 & Hr2).
  specialize (Hs2 (recorded record) ltac:(by exists n1, pid, t)).
  destruct Hr2 as [->|[-> Hne]].
  2:{ destruct E as [-> ->]. split_and!; [done|done|intros ? [= <-]; right; split; [done|]|done].
      exists (events s). split; [lia|by eapply lost_pid]. }
  apply st_bind_inv in E as (r3 & s3 & E3 & E). apply wait_ends in E3 as [Hq3 Hill3].
  pose proof Hq3 as (Hev3 & _ & _ & _ & Hfd3 & _). pose proof (transitivity Hs2 (quiet_signalling (recorded record) _ _ Hq3)) as Hs3.
  destruct r3 as [x|e].
  2:{ destruct E as [-> ->]. split_and!; [done|congruence|intros ? [= <-]; left; by apply Hill3|done]. }
  apply matches_spec in E as (Hq4 & Hill4 & Hm4).
  pose proof Hq4 as (Hev4 & _ & _ & _ & Hfd4 & _). pose proof (transitivity Hs3 (quiet_signalling (recorded record) _ _ Hq4)) as Hs4.
  split_and!; [done|congruence|intros e He; left; by apply Hill4|].
  intros ->. destruct (Hm4 _ eq_refl) as [Hf Hlt]. exists (events s3). split; [lia|done].
Qed.

Lemma stop_body_spec record pid fd n1 n2 s r s' : pid_laws → (n1 <= n2 < events s)%nat →
  match_at n1 record = true → pid_of record = Ok pid → occupant n2 pid = Some fd →
  stop_body record pid fd s = (r, s') →
  signalling (recorded record) s s' ∧ pidfds s' = pidfds s ∧
  (∀ e, r = Raise e → stop_end record s s' true e) ∧ (r = Ok tt → gone_between record s s').
Proof.
  intros Hk Hn H1 Hp H2 E. unfold stop_body in E.
  apply st_bind_inv in E as (r1 & s1 & E1 & E). apply matches_spec in E1 as (Hq1 & Hill1 & Hm1).
  pose proof Hq1 as (Hev1 & _ & _ & _ & Hfd1 & _). pose proof (quiet_signalling (recorded record) _ _ Hq1) as Hs1.
  destruct r1 as [x|e].
  2:{ destruct E as [-> ->]. split_and!; [done|done|intros ? [= <-]; left; by apply Hill1|done]. }
  destruct (Hm1 _ eq_refl) as [-> Hlt1]. destruct (match_at (events s) record) eqn:Em; cbn [negb] in E.
  2:{ injection E as <- <-. split_and!; try done. intros _. exists (events s). split; [lia|done]. }
  destruct (pidfd_is_recorded n1 n2 (events s) record pid fd Hk ltac:(lia) H1 Em Hp H2) as (t & Ht & Ho & Hst).
  apply st_bind_inv in E as (r2 & s2 & E2 & E).
  eapply signal_and_wait_spec in E2 as (Hs2 & Hfd2 & Hr2 & Hg2); [|done..].
  pose proof (transitivity Hs1 Hs2) as Hs12.
  pose proof (proj1 Hs2) as Hev2.
  destruct r2 as [[|]|e].
  - apply st_bind_inv in E as (r3 & s3 & E3 & E).
    eapply signal_and_wait_spec in E3 as (Hs3 & Hfd3 & Hr3 & Hg3); [|done..]. pose proof (proj1 Hs3) as Hev3.
    destruct r3 as [[|]|e].
    + injection E as <- <-. split_and!; [by etransitivity|congruence|intros ? [= <-]; by right; right|done].
    + injection E as <- <-. split_and!; [by etransitivity|congruence|done|intros _].
      eapply gone_widen, Hg3; done || lia.
    + destruct E as [-> ->]. split_and!; [by etransitivity|congruence| |done]. intros ? [= <-].
      destruct (Hr3 _ eq_refl) as [?|[-> ?]]; [by left|right; left; split_and!; [done..|]]. eapply gone_widen; [| |done]; lia.
  - injection E as <- <-. split_and!; [done|congruence|done|intros _]. eapply gone_widen; [| |by apply Hg2]; lia.
  - destruct E as [-> ->]. split_and!; [done|congruence| |done]. intros ? [= <-].
    destruct (Hr2 _ eq_refl) as [?|[-> ?]]; [by left|right; left; split_and!; [done..|]]. eapply gone_widen; [| |done]; lia.
Qed.

(** [stop_process]: it signals nothing but the recorded process, closes its pidfd,
    and returns only when that process was seen gone. *)
Lemma stop_process_spec record s r s' : pid_laws → stop_process record s = (r, s') →
  signalling (recorded record) s s' ∧ pidfds s' = pidfds s ∧ r ≠ Raise out_of_fuel ∧
  (r = Ok tt → gone_between record s s').
Proof.
  intros Hk E. unfold stop_process in E.
  apply st_bind_inv in E as (r1 & s1 & E1 & E). apply matches_spec in E1 as (Hq1 & Hill1 & Hm1).
  pose proof Hq1 as (Hev1 & _ & _ & _ & Hfd1 & _). pose proof (quiet_signalling (recorded record) _ _ Hq1) as Hs1.
  destruct r1 as [x|e].
  2:{ destruct E as [-> ->]. split_and!; [done|done| |done]. intros [= ->]. by destruct (Hill1 _ eq_refl). }
  destruct (Hm1 _ eq_refl) as [-> Hlt1]. destruct (match_at (events s) record) eqn:Em; cbn [negb] in E.
  2:{ injection E as <- <-. split_and!; try done. intros _. exists (events s). split; [lia|done]. }
  destruct (match_at_recorded _ _ Em) as (pid & t & v & i & Hp & _). rewrite Hp in E.
  apply st_bind_Ok in E || apply st_bind_inv in E. destruct E as (r2 & s2 & E2 & E). apply lift_inv in E2 as [<- ->].
  apply st_bind_inv in E as (r3 & s3 & E3 & E). unfold pidfd_open in E3.
  apply st_bind_inv in E3 as (r4 & s4 & E4 & E3). injection E4 as <- <-. cbn [events] in E3.
  destruct (occupant (events s1) pid) as [fd|] eqn:Ho.
  2:{ injection E3 as <- <-. destruct E as [-> ->]. split_and!; try done.
      etransitivity; [exact Hs1|]. apply quiet_signalling. by eapply quiet_event. }
  injection E3 as <- <-. cbn in E.
  match type of E with try_finally (try_except ?b ?h) ?f ?s0 = _ => set (s2 := s0) in E end.
  assert (Hs2 : signalling (recorded record) s s2).
  { etransitivity; [exact Hs1|]. unfold signalling; cbn. split_and!; try done; try lia. exists []. by rewrite app_nil_r. }
  unfold try_finally, try_except in E. destruct (stop_body record pid fd s2) as [rb sb] eqn:Eb.
  eapply (stop_body_spec record pid fd (events s) (events s1)) in Eb as (Hsb & Hfdb & Hend & Hg); [|done|cbn; lia|done..].
  pose proof (proj1 Hsb) as Hevb. cbn in Hevb, Hfdb.
  assert (Hfin : ∀ r0, signalling (recorded record) s (set_pidfds pred sb).2 ∧ pidfds (set_pidfds pred sb).2 = pidfds s ∧
    (gone_between record s2 sb → r0 = Ok tt → gone_between record s (set_pidfds pred sb).2)).
  { intros r0. cbn. split_and!.
    - etransitivity; [exact Hs2|]. destruct Hsb as (?&?&?&?&?&?&?). unfold signalling; cbn. done.
    - rewrite Hfdb. cbn. done.
    - intros Hgo _. eapply gone_widen; [| |exact Hgo]; cbn; lia. }
  destruct rb as [[]|e].
  - cbn in E. injection E as <- <-. destruct (Hfin (Ok tt)) as (H1 & H2 & H3). split_and!; [exact H1|exact H2|done|].
    intros _. apply H3; [by apply Hg|done].
  - specialize (Hend _ eq_refl). destruct (decide (e = lookup_error)) as [->|Hne]; cbn in E; injection E as <- <-.
    + destruct (Hfin (Ok tt)) as (H1 & H2 & H3). split_and!; [exact H1|exact H2|done|]. intros _.
      apply H3; [|done]. destruct Hend as [?|[(_ & _ & ?)|?]]; [by destruct ill_formed_not_lookup|done|done].
    + destruct (Hfin (Ok tt)) as (H1 & H2 & _). split_and!; [exact H1|exact H2| |done].
      intros [= ->]. destruct Hend as [[?|?]|[(_ & ? & _)|?]]; done.
Qed.
End facts.
