(* ===== verification/LabProcessesTheorems.v ===== *)
(** * The local processes: the commands

    What [start], [status] and [stop] leave behind when they succeed and when they
    fail, whom they signal, and that they end. *)

From S2P Require Import Prelude Bytes Json JsonCanon Dict Attestation LabProcesses LabProcessesFacts.
Import Json LabProcesses.

Section commands.
Context `{Kernel}.

Lemma on_error_inv {A} (m : st sys A) c s r s' : on_error m c s = (r, s') →
  (∃ a, m s = (Ok a, s') ∧ r = Ok a) ∨
  ∃ e s1 rc, m s = (Raise e, s1) ∧ c s1 = (rc, s') ∧ r = Raise (match rc with Ok _ => e | Raise e' => e' end).
Proof.
  unfold on_error. destruct (m s) as [[a|e] s1].
  - intros [= <- <-]. left. by exists a.
  - destruct (c s1) as [[x|e'] s2] eqn:Ec; intros [= <- <-]; right; by eexists _, _, _.
Qed.

(** ** When a child is let go of *)

(** The releases of a part of a run are dated within it. *)
Definition later (s s' : sys) : Prop :=
  (events s <= events s')%nat ∧
  ∃ l, released s' = released s ++ l ∧ Forall (λ x, events s <= x.1 <= events s')%nat l.
#[export] Instance later_preorder : PreOrder later.
Proof.
  split.
  - intros s. split; [done|]. exists []. by rewrite app_nil_r.
  - intros x y z (? & l & Hl & Hd) (? & k & Hk & Hd'). split; [lia|]. exists (l ++ k). split; [by rewrite Hk, Hl, app_assoc|].
    apply Forall_app. split; (eapply Forall_impl; [eassumption|]; cbn; lia).
Qed.
Lemma later_same s s' : (events s <= events s')%nat → released s' = released s → later s s'.
Proof. intros ? E. split; [done|]. exists []. by rewrite app_nil_r. Qed.
Lemma later_event : steps later event.
Proof. intros s r s' [= _ <-]. by apply later_same; [cbn; lia|]. Qed.
Lemma later_modify f : (∀ s, events (f s) = events s) → (∀ s, released (f s) = released s) → steps later (modify f).
Proof. intros He Hr. apply steps_modify. intros s. apply later_same; [by rewrite He|done]. Qed.
Lemma later_let_go i : steps later (let_go i).
Proof. apply steps_modify. intros s. split; [done|]. eexists. split; [done|]. constructor; [cbn; lia|done]. Qed.
Lemma later_signalled i g : steps later (signalled i g).
Proof. by apply later_modify. Qed.
Lemma later_launched c : steps later (launched c).
Proof. by apply later_modify. Qed.
Lemma later_set_pidfds f : steps later (set_pidfds f).
Proof. by apply later_modify. Qed.
Lemma later_set_state v : steps later (set_state v).
Proof. by apply later_modify. Qed.
Lemma later_set_new x : steps later (set_new x).
Proof. by apply later_modify. Qed.
Lemma later_sleep : steps later sleep_10ms.
Proof. apply steps_bind; [tc_solve|apply later_event|]. intros n. by apply later_modify. Qed.
Lemma later_monotonic : steps later monotonic.
Proof. apply steps_bind; [tc_solve|apply later_event|]. intros n. apply steps_gets; tc_solve. Qed.
#[local] Hint Resolve later_event later_let_go later_signalled later_launched later_set_pidfds later_set_state later_set_new
  later_sleep later_monotonic : steps.
Ltac later := repeat (auto with steps typeclass_instances; cbn beta iota; first [apply steps_bind; [tc_solve| |intros ?]|apply steps_finally; [tc_solve|..]|case_match]).
Lemma later_identity pid : steps later (identity pid).
Proof. unfold identity. later. Qed.
#[local] Hint Resolve later_identity : steps.
Lemma later_matches record : steps later (matches record).
Proof. unfold matches. later. Qed.
#[local] Hint Resolve later_matches : steps.
Lemma later_wait record : steps later (wait_two_seconds record).
Proof.
  unfold wait_two_seconds. apply steps_bind; [tc_solve|later|]. intros t. generalize (t + 2 * ns_per_s). intros deadline.
  generalize STOP_FUEL. intros fuel. induction fuel as [|fuel IH]; cbn [wait_gone]; later.
Qed.
#[local] Hint Resolve later_wait : steps.
Lemma later_stop_process record : steps later (stop_process record).
Proof.
  unfold stop_process, pidfd_open, stop_body, signal_and_wait, pidfd_send_signal. apply steps_bind; [tc_solve|later|]. intros x. case_match; [later|].
  apply steps_bind; [tc_solve|later|]. intros pid. apply steps_bind; [tc_solve|later|]. intros fd. apply steps_finally; [tc_solve| |later].
  apply steps_except; [tc_solve|later|]. intros e k. case_match; intros [= <-]. later.
Qed.
#[local] Hint Resolve later_stop_process : steps.
Lemma later_stop_all l : steps later (stop_all l).
Proof. induction l as [|record l IH]; cbn [stop_all]; later. Qed.
Lemma later_statuses l : steps later (statuses l).
Proof. induction l as [|record l IH]; cbn [statuses]; later. Qed.
Lemma later_save records : steps later (save records).
Proof. unfold save. later. Qed.
#[local] Hint Resolve later_stop_all later_statuses later_save : steps.
Lemma later_on_error {A} (m : st sys A) c : steps later m → steps later c → steps later (on_error m c).
Proof. intros. apply (steps_on_error later m c on_error); [done|done|done]. Qed.
Lemma later_spawn binary name args port : steps later (spawn binary name args port).
Proof.
  unfold spawn. apply steps_bind; [tc_solve|later|]. intros n. apply steps_bind; [tc_solve|later|]. intros c.
  apply steps_bind; [tc_solve|later|]. intros []. apply steps_finally; [tc_solve| |later]. apply later_on_error; [|unfold give_up_on; later].
  apply steps_bind; [tc_solve|later|]. intros t. generalize (t + 3 * ns_per_s). intros deadline.
  generalize BOOT_FUEL. intros fuel. induction fuel as [|fuel IH]; cbn [boot_loop]; later.
Qed.

(** ** Runs that signal only their own processes *)

(** A process a run launched. *)
Definition own (s : sys) (i : instance) : Prop := i ∈ (children s).*2.
Definition allowed (records : list dict) (s : sys) (i : instance) : Prop :=
  (∃ record, record ∈ records ∧ recorded record i) ∨ own s i.

(** The kernel gives the pid of a child to no other process until the child is let
    go of. *)
Definition pid_kept (s : sys) : Prop := ∀ n b a pid i m j,
  popen n b a = Ok (pid, i) → (pid, i) ∈ children s → (n < m < events s)%nat → occupant m pid = Some j → j ≠ i →
  ∃ k, (n < k <= m)%nat ∧ (k, i) ∈ released s.
(** A record of a child, made before the child was let go of. *)
Definition own_record (s : sys) (c : Z * instance) (d : dict) : Prop := ∃ n b a m t,
  popen n b a = Ok c ∧ (n < m < events s)%nat ∧ (∀ k, (k, c.2) ∈ released s → (n < k)%nat → (m < k)%nat) ∧
  pid_of d = Ok c.1 ∧ d_get d (u "start_ticks") = Some (VStr t) ∧ occupant m c.1 ≫= start_ticks m = Some t.
Lemma own_record_later s s' c d : later s s' → own_record s c d → own_record s' c d.
Proof.
  intros (He & l & Hl & Hd) (n & b & a & m & t & Hp & Hm & Hk & ? & ? & ?). exists n, b, a, m, t. split_and!; [done|lia|lia| |done..].
  intros k Hin Hn. rewrite Hl in Hin. apply elem_of_app in Hin as [Hin|Hin]; [by apply Hk|].
  rewrite Forall_forall in Hd. apply Hd in Hin. cbn in Hin. lia.
Qed.
(** It identifies no other process. *)
Lemma own_recorded s c d i : pid_laws → pid_kept s → own_record s c d → c ∈ children s → recorded d i → i = c.2.
Proof.
  intros Hk Hkept (n & b & a & m & t & Hp & Hm & Hrel & Hpid & Ht & Ho) Hin (n' & pid & t' & Hpid' & Ht' & Ho' & Hst).
  destruct (occupant m c.1) as [j|] eqn:Ej; [|done]. cbn in Ho. assert (pid = c.1) as -> by congruence. assert (t' = t) as -> by congruence.
  assert (j = c.2) as <-.
  { destruct (decide (j = c.2)) as [|Hne]; [done|]. exfalso. destruct c as [pid i0]. cbn in *.
    destruct (Hkept n b a pid i0 m j Hp Hin Hm Ej Hne) as (k & Hkm & Hkin). specialize (Hrel k Hkin). lia. }
  by eapply (told_apart Hk n' m c.1 i j t).
Qed.

(** What is claimed of the signals of a run may rest on that law. *)
Section moves.
Context (law : Prop).

(** A run that leaves the files and the output alone and signals allowed processes. *)
Definition moves (records : list dict) (s s' : sys) : Prop :=
  (events s <= events s')%nat ∧ mono s <= mono s' ∧ (∃ k, children s' = children s ++ k) ∧
  (∃ l, signals s' = signals s ++ l ∧ Forall (λ x, law → allowed records s' x.1) l) ∧
  pidfds s' = pidfds s ∧ state_json s' = state_json s ∧ state_new s' = state_new s ∧ output s' = output s.

Lemma allowed_later records s s' i : (∃ k, children s' = children s ++ k) → allowed records s i → allowed records s' i.
Proof.
  intros (k & Hk) [Hr|Hc]; [by left|right]. unfold own. rewrite Hk, fmap_app. apply elem_of_app. by left.
Qed.
#[export] Instance moves_preorder records : PreOrder (moves records).
Proof.
  split.
  - intros s. unfold moves. split_and!; try done; try lia; exists []; by rewrite app_nil_r.
  - intros x y z (?&?&(k1&Hk1)&(l1&Hl1&Hp1)&?&?&?&?) (?&?&(k2&Hk2)&(l2&Hl2&Hp2)&?&?&?&?).
    unfold moves. split_and!; try lia; try congruence.
    + exists (k1 ++ k2). by rewrite Hk2, Hk1, app_assoc.
    + exists (l1 ++ l2). split; [by rewrite Hl2, Hl1, app_assoc|]. apply Forall_app. split; [|done].
      eapply Forall_impl; [exact Hp1|]. intros [i g] Hi L. eapply allowed_later; [by eexists|exact (Hi L)].
Qed.
Lemma quiet_moves records s s' : quiet s s' → moves records s s'.
Proof.
  intros (?&?&?&?&?&?&?&?). unfold moves. split_and!; try done; exists []; by rewrite app_nil_r.
Qed.
Lemma signalling_moves records record s s' : signalling (recorded record) s s' → pidfds s' = pidfds s →
  (law → ∀ i, recorded record i → allowed records s' i) → moves records s s'.
Proof.
  intros (?&?&(l&Hl&Hp)&?&?&?&?) ? Ha. unfold moves. split_and!; try done.
  - exists []. by rewrite app_nil_r.
  - exists l. split; [done|]. eapply Forall_impl; [exact Hp|]. intros [i g] Hi L. by apply Ha.
Qed.

(** ** [stop_process] for several records *)

Lemma stop_all_spec records l s r s' : pid_laws → 
  (law → ∀ record s1 i, record ∈ l → (∃ k, children s1 = children s ++ k) → recorded record i → allowed records s1 i) →
  stop_all l s = (r, s') →
  moves records s s' ∧ children s' = children s ∧ r ≠ Raise out_of_fuel ∧
  (r = Ok tt → Forall (λ record, gone_between record s s') l).
Proof.
  intros Hk. revert s. induction l as [|record l IH]; intros s Ha E; cbn [stop_all] in E.
  { injection E as <- <-. split_and!; done. }
  apply st_bind_inv in E as (r1 & s1 & E1 & E). apply stop_process_spec in E1 as (Hs1 & Hfd & Hf & Hg); [|done].
  pose proof Hs1 as (Hev & _ & _ & Hch & _).
  assert (Hm1 : moves records s s1).
  { eapply signalling_moves; [done..|]. intros L i. apply Ha; [done|apply list_elem_of_here|].
    exists []. by rewrite app_nil_r. }
  destruct r1 as [[]|e]; [|destruct E as [-> ->]; split_and!; try done; congruence].
  apply IH in E as (Hm2 & Hch2 & Hf2 & Hg2).
  2:{ intros L rec s2 i Hin Hc. apply Ha; [done|by apply list_elem_of_further|]. by rewrite <-Hch. }
  pose proof (proj1 Hm2) as Hev2. split_and!; [by etransitivity|congruence|done|]. intros Hr. constructor.
  - eapply gone_widen, Hg; done || lia.
  - eapply Forall_impl; [by apply Hg2|]. intros rec Hgo. eapply gone_widen, Hgo; lia.
Qed.

Lemma statuses_spec l s r s' : statuses l s = (r, s') →
  quiet s s' ∧ (∀ e, r = Raise e → ill_formed e) ∧
  (∀ xs, r = Ok xs → Forall2 (λ record x, ∃ n, (events s <= n < events s')%nat ∧ match_at n record = x) l xs).
Proof.
  revert s r s'. induction l as [|record l IH]; intros s r s' E; cbn [statuses] in E.
  { injection E as <- <-. split_and!; [done|done|]. intros xs [= <-]. constructor. }
  apply st_bind_inv in E as (r1 & s1 & E1 & E). apply matches_spec in E1 as (Hq1 & Hill1 & Hm1).
  destruct r1 as [x|e]; [|destruct E as [-> ->]; split_and!; [done|intros ? [= <-]; by apply Hill1|done]].
  destruct (Hm1 _ eq_refl) as [-> Hlt].
  apply st_bind_inv in E as (r2 & s2 & E2 & E). apply IH in E2 as (Hq2 & Hill2 & Hm2).
  destruct r2 as [xs|e]; [|destruct E as [-> ->]; split_and!; [by etransitivity|intros ? [= <-]; by apply Hill2|done]].
  injection E as <- <-. split_and!; [by etransitivity|done|]. intros ys [= <-].
  pose proof (proj1 Hq1). pose proof (proj1 Hq2). constructor; [exists (events s); split; [lia|done]|].
  eapply Forall2_impl; [by apply Hm2|]. intros rec y (n & Hn & Hx). exists n. split; [lia|done].
Qed.

(** ** The state file *)

Lemma save_spec records s r s' : save records s = (r, s') →
  (events s <= events s')%nat ∧ mono s <= mono s' ∧ signals s' = signals s ∧ children s' = children s ∧
  pidfds s' = pidfds s ∧ output s' = output s ∧ state_new s' = state_new s ∧
  match r with
  | Ok _ => state_new s = false ∧ state_json s' = Some (Ok (VList (VDict <$> records)))
  | Raise e => state_json s' = state_json s ∧ (e = OSError "FileExistsError" ∨ ∃ n, written n = Raise e)
  end.
Proof.
  intros E. unfold save in E. apply st_bind_inv in E as (r1 & s1 & E1 & E). injection E1 as <- <-.
  destruct (state_new s) eqn:En.
  { injection E as <- <-. split_and!; try done; try lia. by left. }
  unfold mbind at 1, st_bind at 1, raise_when, raise_if, lift in E. unfold mbind at 1, st_bind at 1, set_new, modify in E.
  unfold try_finally in E. 
  unfold mbind, st_bind, event, lift, set_state, set_new, modify in E. cbn in E.
  destruct (written (events s)) as [[]|e] eqn:Ew; cbn in E; injection E as <- <-; cbn; split_and!; try done; try lia.
  right. by exists (events s).
Qed.

Lemma load_spec s r s' : load s = (r, s') → s' = s.
Proof.
  unfold load. intros E. apply st_bind_inv in E as (r1 & s1 & E1 & E). injection E1 as <- <-.
  destruct (state_json s) as [f|]; [|by injection E as _ <-].
  apply st_bind_inv in E as (r1 & s1 & E1 & E). apply lift_inv in E1 as [_ ->].
  destruct r1 as [v|]; [|by destruct E as [_ ->]]. destruct v; try by injection E as _ <-.
  apply st_bind_inv in E as (r1 & s1 & E1 & E). apply raise_when_spec in E1 as [-> _].
  destruct r1; [by injection E as _ <-|by destruct E as [_ ->]].
Qed.

(** ** Starting one process *)

(** What [/proc] says of a live process, at the [n]th event. *)
Definition identified (pid : Z) (n : nat) (d : dict) : Prop := ∃ t exe,
  occupant n pid ≫= start_ticks n = Some t ∧ occupant (S n) pid ≫= executable (S n) = Some exe ∧
  d = [(u "pid", VInt pid); (u "start_ticks", VStr t); (u "executable", VStr exe)].

Lemma identity_spec pid s r s' : identity pid s = (r, s') →
  quiet s s' ∧ released s' = released s ∧
  ∃ o, r = Ok o ∧ ∀ d, o = Some d → identified pid (events s) d ∧ (events s < events s')%nat.
Proof.
  intros E. split; [by eapply quiet_identity|]. unfold identity in E.
  apply st_bind_inv in E as (r1 & s1 & E1 & E). injection E1 as <- <-.
  destruct (occupant (events s) pid ≫= start_ticks (events s)) as [t|] eqn:Et; [|injection E as <- <-; split; [done|by exists None]].
  apply st_bind_inv in E as (r1 & s1 & E1 & E). injection E1 as <- <-. injection E as <- <-. split; [done|].
  eexists. split; [done|]. intros d Hd. cbn [events] in Hd.
  destruct (occupant (S (events s)) pid ≫= executable (S (events s))) as [exe|] eqn:Ee; [|done].
  injection Hd as <-. split; [by exists t, exe|cbn; lia].
Qed.

Lemma announced_fuel line port : announced line port ≠ Raise out_of_fuel.
Proof.
  unfold announced. destruct (loads Attestation.plain_hooks line) as [v|e] eqn:El; cbn [mbind result_bind].
  - destruct v as [| | | | | |d]; try done. cbn [v_get mbind result_bind].
    destruct (match d_get d (u "ev") with Some v => _ | None => _ end); [|done]. cbn [negb raise_if mbind result_bind].
    by destruct (match d_get d (u "port") with Some v => _ | None => _ end).
  - intros [= ->]. revert El. by apply loads_fuel.
Qed.

(** Between two rounds of the wait for a child nothing is let go of. *)
Definition keeping (s s' : sys) : Prop := (events s <= events s')%nat ∧ released s' = released s.
#[export] Instance keeping_preorder : PreOrder keeping.
Proof. split; [done|]. intros x y z [] []. split; [lia|congruence]. Qed.
Lemma keeping_event : steps keeping event.
Proof. intros s r s' [= _ <-]. split; [cbn; lia|done]. Qed.
Lemma keeping_monotonic : steps keeping monotonic.
Proof. apply steps_bind; [tc_solve|apply keeping_event|]. intros n. apply steps_gets; tc_solve. Qed.
Lemma keeping_sleep : steps keeping sleep_10ms.
Proof. apply steps_bind; [tc_solve|apply keeping_event|]. intros n. by apply steps_modify. Qed.

(** The record of a child that announced itself, and the moment it was made. *)
Definition announced_at (name : pystr) (port : Z) (c : Z * instance) (m : nat) (d : dict) : Prop :=
  ∃ n id, announced (log_line n c.2) port = Ok tt ∧ identified c.1 m id ∧ d = new_record name port id.
Lemma boot_loop_spec fuel name port pid i deadline s r s' :
  boot_loop fuel name port pid i deadline s = (r, s') →
  quiet s s' ∧
  ((0 < fuel)%nat → deadline <= mono s + (Z.of_nat fuel - 1) * (10 * ns_per_ms) → r ≠ Raise out_of_fuel) ∧
  (∀ d, r = Ok d → released s' = released s ∧ ∃ m, (events s <= m < events s')%nat ∧ announced_at name port (pid, i) m d).
Proof.
  revert s. induction fuel as [|fuel IH]; intros s E; cbn [boot_loop] in E.
  { injection E as <- <-. split_and!; [done|lia|done]. }
  apply st_bind_inv in E as (r1 & s1 & E1 & E). pose proof (keeping_monotonic _ _ _ E1) as K1. apply monotonic_spec in E1 as (-> & Hq1 & _).
  destruct (Z.ltb_spec (mono s1) deadline) as [Hlt|].
  2:{ injection E as <- <-. split_and!; done. }
  apply st_bind_inv in E as (r2 & s2 & E2 & E). pose proof (quiet_event _ _ _ E2) as Hq2. pose proof (keeping_event _ _ _ E2) as K2. injection E2 as <- _.
  pose proof (transitivity Hq1 Hq2) as Hq12. pose proof (transitivity K1 K2) as K12.
  destruct (newline_ended (log_line (events s1) i)).
  - apply st_bind_inv in E as (r3 & s3 & E3 & E). apply lift_inv in E3 as [Ha ->].
    destruct r3 as [[]|e]; [|destruct E as [-> ->]; split_and!; [done| |done]].
    2:{ intros _ _ [= ->]. by apply announced_fuel in Ha. }
    apply st_bind_inv in E as (r4 & s4 & E4 & E). apply identity_spec in E4 as (Hq4 & Hr4 & o & -> & Ho).
    pose proof (transitivity Hq12 Hq4). destruct o as [id|]; injection E as <- <-; split_and!; try done.
    intros d [= <-]. destruct (Ho _ eq_refl) as [Hid Hev], K12 as [Hev12 Hr12]. split; [congruence|].
    exists (events s2). split; [lia|]. by exists (events s1), id.
  - apply st_bind_inv in E as (r3 & s3 & E3 & E). pose proof (quiet_event _ _ _ E3) as Hq3. pose proof (keeping_event _ _ _ E3) as K3. injection E3 as <- _.
    pose proof (transitivity Hq12 Hq3) as Hq123. pose proof (transitivity K12 K3) as K123. destruct (ended (events s2) i).
    { injection E as <- <-. split_and!; done. }
    apply st_bind_inv in E as (r4 & s4 & E4 & E). pose proof (transitivity K123 (keeping_sleep _ _ _ E4)) as [Hev Hrel]. apply sleep_spec in E4 as (-> & Hq4 & Hs).
    apply IH in E as (Hq5 & Hf & Hd). split_and!; [by etransitivity; [|etransitivity]| |].
    + intros _ Hdl. destruct Hq123 as (_ & Hm & _). pose proof Hq1 as (_ & Hm1 & _).
      pose proof Hq2 as (_ & Hm2 & _). pose proof Hq3 as (_ & Hm3 & _). unfold ns_per_ms in *.
      destruct fuel as [|fuel]; [lia|]. apply Hf; lia.
    + intros d ->. destruct (Hd _ eq_refl) as (Hr & m & Hm & Ha). split; [congruence|]. exists m. split; [lia|done].
Qed.

(** What an operator relies on outside: failures of system calls are [OSError]s or
    time-outs of [wait], never assertions. *)
Definition orderly_calls : Prop :=
  (∀ n b a, popen n b a ≠ Raise out_of_fuel) ∧ (∀ n i, reaped n i ≠ Raise out_of_fuel) ∧
  (∀ n, written n ≠ Raise out_of_fuel).

Lemma moves_let_go records i : steps (moves records) (let_go i).
Proof. intros s r s' [= _ <-]. unfold moves; cbn. split_and!; try done; exists []; by rewrite app_nil_r. Qed.
Lemma moves_event records : steps (moves records) event.
Proof. intros s r s' E. by eapply quiet_moves, quiet_event. Qed.
Lemma moves_signalled records s0 i g s r s' : i ∈ (children s0).*2 → moves records s0 s → signalled i g s = (r, s') → moves records s0 s'.
Proof.
  intros Hi Hm [= _ <-]. etransitivity; [exact Hm|]. destruct Hm as (_ & _ & (k & Hk) & _). unfold moves; cbn.
  split_and!; try done; try lia; [exists []; by rewrite app_nil_r|].
  exists [(i, g)]. split; [done|]. constructor; [|done]. intros _. right. unfold own. cbn. rewrite Hk, fmap_app. apply elem_of_app. by left.
Qed.
Lemma waited records i s0 (a : result unit) s r s' : moves records s0 s → (lift a ≫= λ _, let_go i) s = (r, s') →
  moves records s0 s' ∧ (a ≠ Raise out_of_fuel → r ≠ Raise out_of_fuel).
Proof.
  intros Hm E. apply st_bind_inv in E as (r1 & s1 & E1 & E). apply lift_inv in E1 as [<- ->]. destruct a as [[]|e].
  - split; [etransitivity; [exact Hm|by eapply moves_let_go]|]. by injection E as <- <-.
  - by destruct E as [-> ->].
Qed.
Lemma give_up_spec records i s r s' : i ∈ (children s).*2 → give_up_on i s = (r, s') →
  moves records s s' ∧ (orderly_calls → r ≠ Raise out_of_fuel).
Proof.
  intros Hi E. unfold give_up_on in E.
  apply st_bind_inv in E as (r1 & s1 & E1 & E). pose proof (moves_event records _ _ _ E1) as Hm1. injection E1 as <- _.
  apply st_bind_inv in E as (r2 & s2 & E2 & E).
  assert (Hm2 : r2 = Ok tt ∧ moves records s s2).
  { destruct (ended (events s) i).
    - split; [by injection E2 as <- <-|]. etransitivity; [exact Hm1|by eapply moves_let_go].
    - split; [by injection E2 as <- <-|by eapply moves_signalled]. }
  destruct Hm2 as [-> Hm2].
  apply st_bind_inv in E as (r3 & s3 & E3 & E). pose proof (transitivity Hm2 (moves_event records _ _ _ E3)) as Hm23. injection E3 as <- _.
  destruct (decide (reaped (events s2) i = Raise SubprocessError)) as [Er|Hne].
  - rewrite Er in E. apply st_bind_inv in E as (r4 & s4 & E4 & E). pose proof (moves_signalled _ _ _ _ _ _ _ Hi Hm23 E4) as Hm4. injection E4 as <- _.
    apply st_bind_inv in E as (r5 & s5 & E5 & E). pose proof (transitivity Hm4 (moves_event records _ _ _ E5)) as Hm5. injection E5 as <- _.
    apply (waited records i s) in E as [Hm Hf]; [|done]. split; [done|]. intros (_ & Hre & _). by apply Hf.
  - assert (E' : (lift (reaped (events s2) i) ≫= λ _, let_go i) s3 = (r, s')).
    { destruct (reaped (events s2) i) as [|[]]; done. }
    apply (waited records i s) in E' as [Hm Hf]; [|done]. split; [done|]. intros (_ & Hre & _). by apply Hf.
Qed.

Lemma spawn_spec records binary name args port s r s' : spawn binary name args port s = (r, s') →
  moves records s s' ∧ (orderly_calls → r ≠ Raise out_of_fuel) ∧
  (∀ d, r = Ok d → signals s' = signals s ∧ ∃ n c m, children s' = children s ++ [c] ∧ popen n binary args = Ok c ∧
     (events s <= n < m)%nat ∧ (m < events s')%nat ∧ announced_at name port c m d ∧ released s' = released s ++ [(events s', c.2)]).
Proof.
  intros E. unfold spawn in E.
  apply st_bind_inv in E as (r1 & s1 & E1 & E). pose proof (quiet_event _ _ _ E1) as Hq1. pose proof (keeping_event _ _ _ E1) as [_ K1].
  assert (He1 : events s1 = S (events s)) by by injection E1 as _ <-.
  pose proof (quiet_moves records _ _ Hq1) as Hm1. injection E1 as <- _.
  apply st_bind_inv in E as (r2 & s2 & E2 & E). apply lift_inv in E2 as [Hp ->].
  destruct r2 as [c|e].
  2:{ destruct E as [-> ->]. split_and!; [done| |done]. intros (Hpo & _) [= ->]. by eapply Hpo. }
  apply st_bind_inv in E as (r3 & s3 & E3 & E). unfold launched, modify in E3. injection E3 as <- <-.
  match type of E with try_finally _ _ ?x = _ => set (s3 := x) in E end.
  assert (Hm3 : moves records s s3).
  { etransitivity; [exact Hm1|]. unfold moves; cbn. split_and!; try done; try lia; [by eexists|].
    exists []. by rewrite app_nil_r. }
  assert (Hch : children s3 = children s ++ [c]).
  { cbn. destruct Hq1 as (_ & _ & _ & -> & _). done. }
  unfold try_finally in E. destruct (on_error _ _ s3) as [r4 s4] eqn:E4.
  assert (Hgo : moves records s4 s' ∧ r = r4 ∧ events s' = events s4 ∧ signals s' = signals s4 ∧ children s' = children s4 ∧
    released s' = released s4 ++ [(events s4, c.2)]).
  { pose proof (moves_let_go records c.2 s4 (Ok tt) _ eq_refl). cbn in E. injection E as <- <-. done. }
  destruct Hgo as (Hm4 & -> & Hev & Hsg & Hc4 & Hr4). clear E.
  apply on_error_inv in E4 as [(d & E & ->)|(e & s5 & rc & E & Ec & ->)];
    apply st_bind_inv in E as (r6 & s6 & E6 & E); pose proof (keeping_monotonic _ _ _ E6) as [Hev6 K6]; apply monotonic_spec in E6 as (-> & Hq6 & _);
    apply boot_loop_spec in E as (Hq5 & Hf & Hd); pose proof (transitivity Hq6 Hq5) as Hq65;
    pose proof (transitivity Hm3 (quiet_moves records _ _ Hq65)) as Hm5.
  - split_and!; [by etransitivity|done|]. intros d' [= ->]. destruct (Hd _ eq_refl) as (Hrel & m & Hm & Ha).
    destruct Hq65 as (_ & _ & Hsg6 & Hc6 & _). destruct Hq1 as (_ & _ & Hsg1 & _). split; [by rewrite Hsg, Hsg6; cbn|].
    cbn in Hev6. exists (events s), c, m. split_and!; [congruence|done|lia|lia|lia|by destruct c|]. rewrite Hr4, Hev, Hrel, K6. cbn. by rewrite K1.
  - apply (give_up_spec records) in Ec as [Hmc Hfc].
    2:{ destruct Hq65 as (_ & _ & _ & -> & _). rewrite Hch, fmap_app. apply elem_of_app. right. cbn.
        by apply list_elem_of_singleton. }
    split_and!; [by etransitivity; [|etransitivity]| |done]. intros Ho. destruct rc as [x|e']; [|intros [= ->]; by apply (Hfc Ho)].
    intros [= ->]. apply Hf; [unfold BOOT_FUEL; lia|unfold BOOT_FUEL, ns_per_s, ns_per_ms; lia|done].
Qed.

(** ** Starting both *)

(** A child that announced itself on the port, and the record made of it. *)
Definition announced_child (name : pystr) (port : Z) (c : Z * instance) (d : dict) : Prop := ∃ m, announced_at name port c m d.

Lemma announced_keys name port c m d : announced_at name port c m d →
  pid_of d = Ok c.1 ∧ ∃ t, d_get d (u "start_ticks") = Some (VStr t) ∧ occupant m c.1 ≫= start_ticks m = Some t.
Proof.
  intros (n & id & _ & (t & exe & Ht & _ & ->) & ->). unfold pid_of, d_item, new_record, d_update.
  cbn [foldl fst snd]. rewrite !d_get_set_ne by (vm_compute; congruence). cbn [d_get]. rewrite decide_True by done.
  split; [done|]. exists t. rewrite decide_False by (vm_compute; congruence). by rewrite decide_True.
Qed.
(** No release is dated in the future. *)
Definition dated (s : sys) : Prop := Forall (λ x, (x.1 <= events s)%nat) (released s).
Lemma dated_later s s' : later s s' → dated s → dated s'.
Proof.
  intros (He & l & Hl & Hd) D. unfold dated. rewrite Hl. apply Forall_app.
  split; (eapply Forall_impl; [eassumption|]; cbn; lia).
Qed.

Lemma spawn_announced records binary name args port s r s' : spawn binary name args port s = (r, s') →
  moves records s s' ∧ (orderly_calls → r ≠ Raise out_of_fuel) ∧ later s s' ∧
  (∀ d, r = Ok d → signals s' = signals s ∧
     ∃ c, children s' = children s ++ [c] ∧ announced_child name port c d ∧ (dated s → own_record s' c d)).
Proof.
  intros E. pose proof (later_spawn _ _ _ _ _ _ _ E) as Hlater. apply (spawn_spec records) in E as (Hm & Hf & Hd). split_and!; [done..|].
  intros d Hr. destruct (Hd _ Hr) as (Hsg & n & c & m & Hc & Hp & Hn & Hev & Ha & Hrel). split; [done|].
  exists c. split_and!; [done|by exists m|]. intros D. destruct (announced_keys _ _ _ _ _ Ha) as (Hpid & t & Ht & Ho).
  exists n, binary, args, m, t. split_and!; [done|lia|lia| |done..]. intros k Hk Hnk. rewrite Hrel in Hk.
  apply elem_of_app in Hk as [Hk|Hk%list_elem_of_singleton].
  - unfold dated in D. rewrite Forall_forall in D. apply D in Hk. cbn in Hk. lia.
  - injection Hk as ->. lia.
Qed.

Lemma stop_all_children l s r s' : pid_laws → stop_all l s = (r, s') → children s' = children s.
Proof.
  intros Hk. revert s. induction l as [|record l IH]; intros s E; cbn [stop_all] in E; [by injection E as _ <-|].
  apply st_bind_inv in E as (r1 & s1 & E1 & E). apply stop_process_spec in E1 as ((_ & _ & _ & Hc & _) & _); [|done].
  destruct r1; [|by destruct E as [_ ->]]. apply IH in E. congruence.
Qed.
(** A clean-up of children, under the law of pids in the state it leaves. *)
Lemma stop_started records l cs s r s' : pid_laws → (law → pid_kept s') →
  (law → Forall2 (own_record s) cs l) → (∀ c, c ∈ cs → c ∈ children s) →
  stop_all l s = (r, s') → moves records s s' ∧ r ≠ Raise out_of_fuel.
Proof.
  intros Hk Hkept Hl Hcs E. pose proof (later_stop_all _ _ _ _ E) as Hlater.
  pose proof (stop_all_children _ _ _ _ Hk E) as Hch.
  apply (stop_all_spec records) in E as (Hm & _ & Hf & _); [done|done|].
  intros L d s1 i Hd (k & Hk1) Hr. apply list_elem_of_lookup in Hd as (j & Hd).
  destruct (Forall2_lookup_r _ _ _ _ _ (Hl L) Hd) as (c & Hc & Ho). apply list_elem_of_lookup_2, Hcs in Hc.
  right. unfold own. rewrite Hk1, fmap_app. apply elem_of_app. left.
  rewrite (own_recorded s' c d i Hk (Hkept L)); [by apply list_elem_of_fmap_2|by eapply own_record_later|by rewrite Hch|done].
Qed.

Lemma start_both_spec records o s r s' : pid_laws → (law → pid_kept s' ∧ dated s) → start_both o s = (r, s') →
  (orderly_calls → r ≠ Raise out_of_fuel) ∧
  match r with
  | Ok started => (events s <= events s')%nat ∧ state_new s = false ∧ signals s' = signals s ∧ pidfds s' = pidfds s ∧
      state_new s' = state_new s ∧ output s' = output s ∧
      state_json s' = Some (Ok (VList (VDict <$> started))) ∧
      ∃ c1 c2 d1 d2, started = [d1; d2] ∧ children s' = children s ++ [c1; c2] ∧
        announced_child (u "lab_server") (port o) c1 d1 ∧ announced_child (u "lab_adapter") (adapter_port o) c2 d2
  | Raise _ => moves records s s'
  end.
Proof.
  intros Hk Hlaw E. unfold start_both in E.
  apply st_bind_inv in E as (r1 & s1 & E1 & E). apply (spawn_announced records) in E1 as (Hm1 & Hf1 & Hl1 & Hd1).
  destruct r1 as [d1|e]; [|destruct E as [-> ->]; split; [|done]; intros Ho [= ->]; by apply (Hf1 Ho)].
  destruct (Hd1 _ eq_refl) as (Hsg1 & c1 & Hc1 & Ha1 & Ho1).
  apply st_bind_inv in E as (r2 & s2 & E2 & E).
  apply on_error_inv in E2 as [(d2 & E2 & ->)|(e & s2' & rc & E2 & Ec & ->)];
    apply (spawn_announced records) in E2 as (Hm2 & Hf2 & Hl2 & Hd2); pose proof (transitivity Hm1 Hm2) as Hm12.
  2:{ destruct E as [-> ->]. apply (stop_started records _ [c1]) in Ec as [Hmc Hfc]; [|done|by intros L; apply Hlaw| |].
      - split; [|by etransitivity]. intros Ho. destruct rc; [|congruence]. intros [= ->]. by apply (Hf2 Ho).
      - intros L. constructor; [|constructor]. eapply own_record_later; [exact Hl2|]. by apply Ho1, Hlaw.
      - intros c ->%list_elem_of_singleton. destruct Hm2 as (_ & _ & (k & ->) & _). rewrite Hc1.
        apply elem_of_app. left. apply elem_of_app. right. by apply list_elem_of_singleton. }
  destruct (Hd2 _ eq_refl) as (Hsg2 & c2 & Hc2 & Ha2 & Ho2).
  assert (Hch : children s2 = children s ++ [c1; c2]) by by rewrite Hc2, Hc1, <-app_assoc.
  apply st_bind_inv in E as (r3 & s3 & E3 & E).
  apply on_error_inv in E3 as [(x & E3 & ->)|(e & s3' & rc & E3 & Ec & ->)];
    pose proof (later_save _ _ _ _ E3) as Hl3; apply save_spec in E3 as (Hev & Hmo & Hsg & Hcs & Hpf & Hou & Hne & Hres); destruct Hm12 as (?&?&?&?&Hpf0&Hjs&Hne0&Hou0).
  - injection E as <- <-. destruct Hres as [Hfalse Hjson]. split; [done|]. split_and!; try congruence; [lia|].
    exists c1, c2, d1, d2. split_and!; try done. congruence.
  - destruct E as [-> ->]. destruct Hres as [Hj He].
    assert (Hm3 : moves records s s3').
    { unfold moves. rewrite Hsg, Hcs, Hpf, Hou, Hne, Hj. split_and!; try done; try lia.
      exists []. by rewrite Hsg2, Hsg1, app_nil_r. }
    apply (stop_started records _ [c2; c1]) in Ec as [Hmc Hfc]; [|done|by intros L; apply Hlaw| |].
    + split; [|by etransitivity]. intros (_ & _ & Hw). destruct rc; [|congruence]. intros [= ->].
      destruct He as [?|(n & ?)]; [done|by eapply Hw].
    + intros L. assert (D : dated s) by by apply Hlaw. constructor; [|constructor; [|constructor]]; (eapply own_record_later; [exact Hl3|]).
      * by apply Ho2; eapply dated_later.
      * eapply own_record_later; [exact Hl2|]. by apply Ho1.
    + intros c Hc. rewrite Hcs, Hch. set_solver.
Qed.

(** ** The commands *)

(** How a command that succeeds ends. *)
Inductive outcome (s s' : sys) (records : list dict) : command → Prop :=
| StatusDone : state_json s' = state_json s → signals s' = signals s → children s' = children s →
    outcome s s' records Status
| StopDone : Forall (λ record, gone_between record s s') records →
    state_json s' = Some (Ok (VList [])) → children s' = children s → outcome s s' records Stop
| AlreadyRunning o : length records = 2%nat →
    Forall (λ record, ∃ n, (events s <= n < events s')%nat ∧ match_at n record = true) records →
    state_json s' = state_json s → signals s' = signals s → children s' = children s → outcome s s' records (Start o)
| Started o c1 c2 d1 d2 :
    Forall (λ record, ∃ n, (events s <= n < events s')%nat ∧ match_at n record = false) records →
    announced_child (u "lab_server") (port o) c1 d1 → announced_child (u "lab_adapter") (adapter_port o) c2 d2 →
    state_json s' = Some (Ok (VList [VDict d1; VDict d2])) → signals s' = signals s →
    children s' = children s ++ [c1; c2] → outcome s s' records (Start o).

Lemma running_false records xs s s' : 
  Forall2 (λ record x, ∃ n, (events s <= n < events s')%nat ∧ match_at n record = x) records xs → existsb id xs = false →
  Forall (λ record, ∃ n, (events s <= n < events s')%nat ∧ match_at n record = false) records.
Proof.
  induction 1 as [|record x records xs Hx _ IH]; cbn; [by constructor|]. destruct x; [done|]. intros Hf. constructor; auto.
Qed.
Lemma running_true records xs s s' : 
  Forall2 (λ record x, ∃ n, (events s <= n < events s')%nat ∧ match_at n record = x) records xs → forallb id xs = true →
  Forall (λ record, ∃ n, (events s <= n < events s')%nat ∧ match_at n record = true) records.
Proof.
  induction 1 as [|record x records xs Hx _ IH]; cbn; [by constructor|]. destruct x; [|done]. intros Hf. constructor; auto.
Qed.
Lemma between_later (P : nat → dict → Prop) s s1 s' l : (events s1 <= events s')%nat →
  Forall (λ record, ∃ n, (events s <= n < events s1)%nat ∧ P n record) l →
  Forall (λ record, ∃ n, (events s <= n < events s')%nat ∧ P n record) l.
Proof. intros Hle Hl. eapply Forall_impl; [exact Hl|]. intros record (n & Hn & HP). exists n. split; [lia|done]. Qed.

(** What a printed line adds. *)
Lemma moves_print records s s1 v s' r : moves records s s1 → print v s1 = (r, s') →
  r = Ok tt ∧ (events s' = events s1) ∧ signals s' = signals s1 ∧ children s' = children s1 ∧
  pidfds s' = pidfds s1 ∧ state_json s' = state_json s1 ∧ state_new s' = state_new s1.
Proof. intros _ [= <- <-]. done. Qed.

Definition owned_signals (records : list dict) (s s' : sys) : Prop :=
  ∃ l, signals s' = signals s ++ l ∧ Forall (λ x, law → allowed records s' x.1) l.
Lemma owned_same records s s' : signals s' = signals s → owned_signals records s s'.
Proof. intros E. exists []. by rewrite app_nil_r. Qed.
Lemma owned_print records s s1 s' : moves records s s1 → signals s' = signals s1 → children s' = children s1 →
  owned_signals records s s'.
Proof.
  intros (_ & _ & _ & (l & Hl & Hp) & _) Hs Hc. exists l. split; [by rewrite Hs|].
  eapply Forall_impl; [exact Hp|]. intros x. unfold allowed, own. by rewrite Hc.
Qed.

Definition command_result (c : command) (records : list dict) (s : sys) (r : result unit) (s' : sys) : Prop :=
  pidfds s' = pidfds s ∧ state_new s' = state_new s ∧ owned_signals records s s' ∧
  (orderly_calls → r ≠ Raise out_of_fuel) ∧
  match r with Ok _ => outcome s s' records c | Raise _ => state_json s' = state_json s end.

(** A command that fails, or fails to go on, after a run of its own processes. *)
Lemma failed_result c records s e s' : moves records s s' → (orderly_calls → Raise e ≠ @Raise unit out_of_fuel) →
  command_result c records s (Raise e) s'.
Proof. intros (?&?&?&?&?&?&?&?) He. done. Qed.

Lemma load_fuel s : state_json s ≠ Some (Raise out_of_fuel) → (load s).1 ≠ Raise out_of_fuel.
Proof.
  intros Hj. unfold load, mbind, st_bind, gets. destruct (state_json s) as [[v|e]|]; [|cbn; congruence|done].
  cbn [lift]. destruct v as [| | | | |l|]; try done. unfold raise_when, raise_if, lift. destruct (2 <? length l)%nat; [done|].
  cbn [fst]. induction l as [|v l IH]; [done|]. cbn [load_items]. destruct v as [| | | | | |d]; try done.
  destruct (negb _ || negb _); [done|]. cbn [raise_if mbind result_bind]. destruct (load_items l); [done|].
  intros [= ->]. by apply IH.
Qed.

Section after_status.
Context (s s1 : sys) (records : list dict) (running : list bool) (Hk : pid_laws) (Hq : quiet s s1) (Hdated : law → dated s1).
Context (Hr : Forall2 (λ record x, ∃ n, (events s <= n < events s1)%nat ∧ match_at n record = x) records running).

Lemma status_result r s' : status_op records running s1 = (r, s') → command_result Status records s r s'.
Proof.
  intros E. unfold status_op, print, modify in E. injection E as <- <-. destruct Hq as (?&?&?&?&?&?&?&?).
  unfold command_result; cbn. split_and!; try done; [by apply owned_same|]. by constructor.
Qed.

Lemma stop_result r s' : stop_op records s1 = (r, s') → command_result Stop records s r s'.
Proof.
  intros E. unfold stop_op in E. apply st_bind_inv in E as (r2 & s2 & E2 & E).
  apply (stop_all_spec records) in E2 as (Hm2 & Hch2 & Hf2 & Hg2); [|done|].
  2:{ intros _ record s3 i Hi _ Hrec. left. exists record. split; [|done]. apply list_elem_of_In, in_rev. by apply list_elem_of_In. }
  pose proof (transitivity (quiet_moves records _ _ Hq) Hm2) as Hm.
  destruct r2 as [[]|e]; [|destruct E as [-> ->]; apply failed_result; [done|congruence]].
  apply st_bind_inv in E as (r3 & s3 & E3 & E).
  apply save_spec in E3 as (Hev & Hmo & Hsg & Hcs & Hpf & Hou & Hne & Hres). pose proof Hm as (_&_&_&_&Hpf0&Hjs&Hne0&_).
  destruct r3 as [[]|e].
  - unfold print, modify in E. injection E as <- <-. unfold command_result; cbn. split_and!; try congruence.
    + by eapply owned_print.
    + destruct Hres as [_ Hj]. destruct Hq as (Hev0&_&_&Hc0&_). destruct Hm2 as (Hev2&_).
      pose proof (Hg2 eq_refl) as Hg. apply StopDone; [|exact Hj|].
      * rewrite <-(rev_involutive records). apply Forall_rev. eapply Forall_impl; [exact Hg|].
        intros record Hgo. eapply gone_widen, Hgo; cbn; lia.
      * cbn. congruence.
  - destruct E as [-> ->]. destruct Hres as [Hj He]. unfold command_result. split_and!; try congruence.
    + by eapply owned_print.
    + intros (_ & _ & Hw) [= ->]. destruct He as [?|(n & ?)]; [done|by eapply Hw].
Qed.

Lemma start_result o r s' : (law → pid_kept s') → start_op o records running s1 = (r, s') → command_result (Start o) records s r s'.
Proof.
  intros Hkept E. unfold start_op in E. pose proof (quiet_moves records _ _ Hq) as Hm.
  destruct (existsb id running) eqn:Hany.
  - destruct (both_running running) eqn:Hb.
    + unfold print, modify in E. injection E as <- <-. destruct Hq as (?&?&?&?&?&?&?&?).
      apply andb_true_iff in Hb as [Hl Hall]. apply Nat.eqb_eq in Hl.
      unfold command_result; cbn. split_and!; try done; [by apply owned_same|]. apply AlreadyRunning; try done.
      * by rewrite (Forall2_length _ _ _ Hr).
      * eapply (between_later (λ n record, match_at n record = true)); [|by eapply running_true]. done.
    + injection E as <- <-. by apply failed_result.
  - apply st_bind_inv in E as (r2 & s2 & E2 & E).
    assert (Hkept2 : law → pid_kept s2 ∧ dated s1).
    { intros L. split; [|auto]. specialize (Hkept L). destruct r2; [|by destruct E as [_ ->]]. unfold print, modify in E. by injection E as _ <-. }
    apply (start_both_spec records) in E2 as [Hf Hres]; [|done..].
    destruct r2 as [started|e].
    + destruct Hres as (Hev & Hnew & Hsg & Hpf & Hne & Hou & Hj & c1 & c2 & d1 & d2 & -> & Hch & Ha1 & Ha2).
      unfold print, modify in E. injection E as <- <-. destruct Hq as (?&?&?&Hch0&?&?&?&?).
      unfold command_result; cbn. split_and!; try congruence.
      * apply owned_same. cbn. congruence.
      * eapply (Started _ _ _ o c1 c2 d1 d2); try done; cbn; [|congruence|congruence].
        eapply (between_later (λ n record, match_at n record = false)); [|by eapply running_false]. cbn. exact Hev.
    + destruct E as [-> ->]. apply failed_result; [by etransitivity|]. intros Ho [= ->]. by apply (Hf Ho).
Qed.
End after_status.

Lemma manage_spec c s r s' : pid_laws → (law → pid_kept s' ∧ dated s) → state_json s ≠ Some (Raise out_of_fuel) → manage c s = (r, s') →
  (∃ records, (load s).1 = Ok records ∧ command_result c records s r s') ∨
  (∃ e, (load s).1 = Raise e ∧ r = Raise e ∧ s' = s ∧ e ≠ out_of_fuel).
Proof.
  intros Hk Hlaw Hj E. apply load_fuel in Hj. unfold manage in E. apply st_bind_inv in E as (r1 & s1 & E1 & E).
  pose proof (load_spec _ _ _ E1) as ->. rewrite E1 in Hj |- *. cbn [fst] in *.
  destruct r1 as [records|e]; [|destruct E as [-> ->]; right; exists e; split_and!; congruence].
  left. exists records. split; [done|].
  apply st_bind_inv in E as (r2 & s2 & E2 & E). pose proof (later_statuses _ _ _ _ E2) as Hlater. apply statuses_spec in E2 as (Hq & Hill & Hrun).
  destruct r2 as [running|e].
  - specialize (Hrun _ eq_refl). destruct c; [|by eapply status_result|by eapply stop_result].
    eapply start_result; [done|done| |done| |done]; intros L; [eapply dated_later; [done|]|]; by apply Hlaw.
  - destruct E as [-> ->]. apply failed_result; [by apply quiet_moves|]. intros _ [= ->]. by destruct (Hill _ eq_refl).
Qed.

End moves.

(** A command that succeeds does what it says.  [stop]: every process of the
    state file was seen gone during the command, and the state file is empty.
    [start]: either the two recorded processes were both seen running and
    nothing changed, or none was, and two new children announced themselves on
    their ports and are, with the identity the kernel gave them, the two records
    of the state file.  [status]: nothing changed. *)
Theorem manage_outcome c s s' : pid_laws → state_json s ≠ Some (Raise out_of_fuel) →
  manage c s = (Ok tt, s') → ∃ records, (load s).1 = Ok records ∧ outcome s s' records c.
Proof.
  intros Hk Hj E. apply (manage_spec False) in E as [(records & Hl & _ & _ & _ & _ & Ho)|(e & _ & [=] & _)]; [|done..].
  by exists records.
Qed.

(** C38.  A command that fails - a state file that does not decode, a service running
    in part, a child that never announces itself or ends, a process that does not
    stop, a disk that refuses to write - leaves the state file as it was, no
    half-written [state.new] of its own, and no pidfd open.  (Printing the result, the
    last step of a command, is taken not to fail.) *)
Theorem failed_command_keeps_state c s e s' : pid_laws → state_json s ≠ Some (Raise out_of_fuel) →
  manage c s = (Raise e, s') → state_json s' = state_json s ∧ state_new s' = state_new s ∧ pidfds s' = pidfds s.
Proof.
  intros Hk Hj E. apply (manage_spec False) in E as [(records & _ & ? & ? & _ & _ & ?)|(e' & _ & _ & -> & _)]; done.
Qed.

(** C20.  Every signal reaches a process the command may stop: one that a record of
    the state file identifies by pid and start time, or a child that the command
    itself launched; in the clean-up of a failed start too, where a child may have
    ended and its pid be another process's.  This holds for every interleaving of
    the checks and signals with processes ending and pids being reused.  The laws
    are the kernel's: a process keeps its pid until it ends, two processes that had
    one pid did not start at the same tick, and the pid of a child goes to no other
    process before the command has waited for the child or dropped its handle. *)
Theorem only_own_processes c s r s' records : pid_laws → pid_kept s' → children s = [] → released s = [] →
  state_json s ≠ Some (Raise out_of_fuel) → (load s).1 = Ok records → manage c s = (r, s') →
  ∃ sent, signals s' = signals s ++ sent ∧ Forall (λ x, allowed records s' x.1) sent.
Proof.
  intros Hk Hkept _ Hrel Hj Hl E. apply (manage_spec True) in E as [(records' & Hl' & _ & _ & (l & Hsig & Hown) & _)|(e & Hl' & _)]; [|congruence|done| |done].
  - assert (records' = records) as -> by congruence. exists l. split; [done|]. eapply Forall_impl; [exact Hown|]. auto.
  - intros _. split; [done|]. unfold dated. by rewrite Hrel.
Qed.

(** Every command ends: the waits for a process to go (two seconds, twice per
    process) and for a child to announce itself (three seconds) never need more
    rounds than their fuel, whatever the processes do. *)
Theorem manage_ends c s r s' : pid_laws → orderly_calls → state_json s ≠ Some (Raise out_of_fuel) →
  manage c s = (r, s') → r ≠ Raise out_of_fuel.
Proof.
  intros Hk Ho Hj E. apply (manage_spec False) in E as [(records & _ & _ & _ & _ & Hf & _)|(e & _ & -> & _ & He)]; [|congruence|done..].
  by apply Hf.
Qed.
End commands.

(** ** Concrete runs: two children, pids 100 and 101, that go at the 60th event *)

Definition boot_line (p : Z) : pystr := u "{" ++ [34] ++ u "ev" ++ [34] ++ u ":" ++ [34] ++ u "boot" ++ [34] ++ u ","
  ++ [34] ++ u "port" ++ [34] ++ u ":" ++ dump_int p ++ u "}" ++ [10].
Definition sample_kernel : Kernel := {|
  tick := λ _, 1000000%N;
  occupant := λ n pid, if (n <? 60)%nat then
    (if pid =? 100 then Some 0%nat else if pid =? 101 then Some 1%nat else None) else None;
  start_ticks := λ _ i, Some (dump_int (5000 + Z.of_nat i));
  executable := λ _ i, Some (u "/opt/lab");
  popen := λ _ name _, Ok (if decide (name = u "lab_server") then (100, 0%nat) else (101, 1%nat));
  log_line := λ _ i, boot_line (7777 + Z.of_nat i);
  ended := λ n _, (60 <=? n)%nat;
  reaped := λ _ _, Ok tt;
  written := λ _, Ok tt |}.

Lemma sample_pid_laws : @pid_laws sample_kernel.
Proof.
  split; cbn [occupant start_ticks sample_kernel].
  - intros n1 n2 n3 pid i Hn. destruct (Nat.ltb_spec n1 60), (Nat.ltb_spec n2 60), (Nat.ltb_spec n3 60); intros Ho1 Ho3; try discriminate; try assumption; try lia.
  - intros n m pid i j t. destruct (n <? 60)%nat, (m <? 60)%nat; try done. intros Hi _ Hj _. congruence.
Qed.
Lemma sample_orderly : @orderly_calls sample_kernel.
Proof. split_and!; cbn; intros; done. Qed.

Definition sample_options : options := Options (u "lab_server") (u "lab_adapter") 7777 7778 [] [].
Definition sample_empty (leftover : bool) : sys := Sys 0 0 [] [] [] 0 None leftover [].
(** The next command, in a process of its own. *)
Definition next_command (s : sys) : sys := Sys (mono s) (events s) [] [] [] 0 (state_json s) (state_new s) [].
Definition sample_started : sys := Eval vm_compute in (@manage sample_kernel (Start sample_options) (sample_empty false)).2.
Definition sample_stopped : sys := Eval vm_compute in (@manage sample_kernel Stop (next_command sample_started)).2.
Definition sample_blocked : sys := Eval vm_compute in (@manage sample_kernel (Start sample_options) (sample_empty true)).2.
Lemma sample_start_eq : @manage sample_kernel (Start sample_options) (sample_empty false) = (Ok tt, sample_started).
Proof. vm_compute. reflexivity. Qed.
Lemma sample_stop_eq : @manage sample_kernel Stop (next_command sample_started) = (Ok tt, sample_stopped).
Proof. vm_compute. reflexivity. Qed.
Lemma sample_blocked_eq : @manage sample_kernel (Start sample_options) (sample_empty true)
  = (Raise (OSError "FileExistsError"), sample_blocked).
Proof. vm_compute. reflexivity. Qed.
Definition sample_records : list dict := Eval vm_compute in
  match (load sample_started).1 with Ok l => l | Raise _ => [] end.
Lemma sample_records_eq : (load (next_command sample_started)).1 = Ok sample_records.
Proof. vm_compute. reflexivity. Qed.
Lemma sample_readable : state_json (next_command sample_started) ≠ Some (Raise out_of_fuel).
Proof. by vm_compute. Qed.

Lemma manage_outcome_witness :
  children sample_started = [(100, 0%nat); (101, 1%nat)] ∧
  ∃ records, (load (sample_empty false)).1 = Ok records ∧
    @outcome sample_kernel (sample_empty false) sample_started records (Start sample_options).
Proof.
  split; [vm_compute; reflexivity|].
  refine (@manage_outcome sample_kernel (Start sample_options) (sample_empty false) sample_started sample_pid_laws _ sample_start_eq).
  discriminate.
Defined.

Lemma failed_command_keeps_state_witness :
  signals sample_blocked = [(1%nat, SIGTERM)] ∧
  state_json sample_blocked = None ∧ state_new sample_blocked = true ∧ pidfds sample_blocked = 0%nat.
Proof.
  split; [vm_compute; reflexivity|].
  refine (@failed_command_keeps_state sample_kernel (Start sample_options) (sample_empty true) _ sample_blocked sample_pid_laws _ sample_blocked_eq).
  discriminate.
Defined.

(** A stop, and a start whose state file is refused: the second child is stopped by
    its record, with the law of pids in force. *)
Lemma sample_kept s : (∀ c, c ∈ children s → c = (100, 0%nat) ∨ c = (101, 1%nat)) → @pid_kept sample_kernel s.
Proof.
  intros Hc n b a pid i m j _ Hin _ Hj Hne. exfalso. cbn [occupant sample_kernel] in Hj.
  destruct (m <? 60)%nat; [|done]. apply Hc in Hin as [[= -> ->]|[= -> ->]]; cbn in Hj; congruence.
Qed.
Lemma only_own_processes_witness :
  (signals sample_stopped = [(1%nat, SIGTERM)] ∧
   ∃ sent, signals sample_stopped = [] ++ sent ∧ Forall (λ x, @allowed sample_kernel sample_records sample_stopped x.1) sent) ∧
  signals sample_blocked = [(1%nat, SIGTERM)] ∧
  ∃ sent, signals sample_blocked = [] ++ sent ∧ Forall (λ x, @allowed sample_kernel [] sample_blocked x.1) sent.
Proof.
  split; (split; [vm_compute; reflexivity|]).
  - refine (@only_own_processes sample_kernel Stop (next_command sample_started) (Ok tt) sample_stopped sample_records
             sample_pid_laws _ eq_refl eq_refl sample_readable sample_records_eq sample_stop_eq).
    intros n b a pid i m j _ Hin. vm_compute in Hin. by apply elem_of_nil in Hin.
  - refine (@only_own_processes sample_kernel (Start sample_options) (sample_empty true) _ sample_blocked []
             sample_pid_laws _ eq_refl eq_refl _ eq_refl sample_blocked_eq); [|discriminate].
    apply sample_kept. intros c Hc. vm_compute in Hc. set_solver.
Defined.

Lemma manage_ends_witness : (Ok tt : result unit) ≠ Raise out_of_fuel.
Proof.
  exact (@manage_ends sample_kernel Stop (next_command sample_started) (Ok tt) sample_stopped
           sample_pid_laws sample_orderly sample_readable sample_stop_eq).
Defined.
