(* ===== verification/GameClient.v ===== *)
(** * The game clients ([src/scripts/game.py], [src/scripts/game_graphics.py])

    The command-line client and the adapter between the TLS session and the
    renderer.  The service, the renderer and the connection are parameters: what
    they send, and how each wait on them ends. *)

From S2P Require Import Prelude Bytes Json Dict Attestation Stream Bridge GameService.
Import Stream Json.

Module GameClient.

Definition inactive : bytes := b "LGRE" ++ [z2b 7].

(** ** Exchanges with the service *)

Inductive event :=
| Joined (v : GameService.snapshot)
| Decision (v : GameService.snapshot)
| Inactive.

(** A connection: what the service sends, what has been sent to it, the output. *)
Record link := Link {
  server : reader;
  sent : list bytes;
  printed : list event }.

(** How the connection opens, and how the [drain] after the n-th command ends. *)
Class Peer := {
  connected : result unit;
  drained : nat → result unit }.

(** The answer to the command [sequence]: nothing while the match is inactive,
    otherwise a state of the session of the hello. *)
Definition associated (hello : bytes) (sequence : Z) (packet : bytes) : result (option GameService.snapshot) :=
  if decide (packet = inactive) then Ok None
  else
    value ← GameService.state packet;
    raise_if! negb (bool_decide (slice packet 20 52 = slice hello 20 52)) ||
              negb (GameService.s_player value =? GameService.at_ hello 6) ||
              negb (GameService.s_sequence value =? sequence) then ValueError "RESPONSE_ASSOCIATION";
    Ok (Some value).

Section link.
Context `{Peer}.

Definition on_server {A} : st reader A → st link A := zoom server (λ r l, Link r (sent l) (printed l)).
Definition print (e : event) : st link unit := modify (λ l, Link (server l) (sent l) (printed l ++ [e])).
(** [asyncio.sleep] *)
Definition pause (t : Z) : st link unit :=
  modify (λ l, let r := server l in Link (Reader (pending r) (eof r) (now r + t)) (sent l) (printed l)).
Definition send_command (hello : bytes) (sequence : Z) (action : string) : st link unit :=
  data ← lift (GameService.command hello sequence action);
  wire ← lift (Bridge.encode_frame data);
  _ ← modify (λ l, Link (server l) (sent l ++ [wire]) (printed l));
  n ← gets (λ l, length (sent l));
  lift (drained n).
(** One command and its answer. *)
Definition ask (hello : bytes) (sequence : Z) (action : string) (timeout : Z) : st link (bytes * option GameService.snapshot) :=
  _ ← send_command hello sequence action;
  packet ← on_server (Bridge.read_frame timeout);
  value ← lift (associated hello sequence packet);
  mret (packet, value).
Definition read_hello : st link (bytes * GameService.snapshot) :=
  hello ← on_server (Bridge.read_frame Bridge.FRAME_TIMEOUT);
  value ← lift (GameService.state hello);
  mret (hello, value).

(** ** The command-line client *)

(** [port(value)]: decimal ASCII digits, a port. *)
Definition port (value : pystr) : result Z :=
  raise_if! negb (forallb is_digit value && negb (bool_decide (value = []))) ||
            negb ((1 <=? digits_value 0 value) && (digits_value 0 value <=? 65535))
    then ValueError "port must be 1..65535";
  Ok (digits_value 0 value).

(** [s.split(',')] *)
Fixpoint split_comma (s : string) : list string :=
  match s with
  | EmptyString => [EmptyString]
  | String c s =>
      if Ascii.eqb c (Ascii.ascii_of_nat 44) then EmptyString :: split_comma s
      else match split_comma s with w :: ws => String c w :: ws | [] => [String c EmptyString] end
  end.

Definition known_action (a : string) : bool :=
  existsb (String.eqb a) ["east"; "west"; "north"; "south"; "fire"; "wait"]%string.

Fixpoint client_loop (hello : bytes) (sequence : Z) (actions : list string) : st link unit :=
  match actions with
  | [] => mret tt
  | action :: actions =>
      _ ← pause (250 * ns_per_ms);
      answer ← ask hello sequence action Bridge.FRAME_TIMEOUT;
      _ ← print (match answer.2 with Some value => Decision value | None => Inactive end);
      client_loop hello (sequence + 1) actions
  end.
Definition client (argument : string) : st link unit :=
  let actions := split_comma argument in
  _ ← raise_when (negb ((1 <=? length actions)%nat && (length actions <=? 64)%nat) ||
                  existsb (λ a, negb (known_action a)) actions) (ValueError "ACTIONS_INVALID");
  _ ← lift connected;
  hello ← read_hello;
  _ ← print (Joined hello.2);
  client_loop hello.1 1 actions.
End link.

(** ** The adapter of the renderer *)

(** The keys of the renderer. *)
Definition ACTIONS (x : byte) : option string :=
  if decide (x = x6e) then Some "north"%string else if decide (x = x73) then Some "south"%string
  else if decide (x = x65) then Some "east"%string else if decide (x = x77) then Some "west"%string
  else if decide (x = x66) then Some "fire"%string else if decide (x = x2e) then Some "wait"%string else None.

(** The task [inputs()]: running, with the last key not yet taken, or over. *)
Inductive pump := Running (latest : option byte) | Done (r : result unit).

Class Renderer := {
  spawned : result unit;
  typed : nat → list byte;             (* on its output since the last moment *)
  closed : nat → bool;                 (* end of its output *)
  exited : nat → bool;                 (* [returncode is not None] *)
  shown : nat → result unit;           (* the n-th frame written and drained *)
  exit_code : result Z;                (* [wait()] within its time *)
  stderr_lines : result (list pystr);  (* its standard error, decoded and split *)
  reaped : nat → result unit           (* the waits of the clean-up *)
}.

Record decision := MkDecision { d_action : string; d_reason : string; d_tick : Z }.
Record outcome := Outcome { o_state : GameService.snapshot; o_renderer : dict; o_actions : list decision }.

Record view := View {
  wire : link;
  moments : nat;
  inputs : pump;
  history : list (Z * GameService.snapshot);
  decisions : list decision;
  drawn : list bytes;                  (* frames written to the renderer *)
  signals : list string;               (* terminate and kill *)
  results : list outcome }.

Section view.
Context `{Peer, Renderer}.

Definition on_wire {A} : st link A → st view A :=
  zoom wire (λ l v, View l (moments v) (inputs v) (history v) (decisions v) (drawn v) (signals v) (results v)).
Definition set_inputs (p : pump) : st view unit :=
  modify (λ v, View (wire v) (moments v) p (history v) (decisions v) (drawn v) (signals v) (results v)).

(** [inputs()] over the bytes read so far. *)
Fixpoint read_keys (latest : option byte) (keys : list byte) : result (option byte) :=
  match keys with
  | [] => Ok latest
  | x :: keys =>
      match ACTIONS x with
      | None => Raise (ValueError "RENDERER_ACTION_INVALID")
      | Some _ => read_keys (Some x) keys
      end
  end.
Definition pump_step (n : nat) (p : pump) : pump :=
  match p with
  | Done r => Done r
  | Running latest =>
      match read_keys latest (typed n) with
      | Raise e => Done (Raise e)
      | Ok latest => if closed n then Done (Ok tt) else Running latest
      end
  end.
(** Another moment at which the pump has run. *)
Definition moment : st view nat := λ v,
  (Ok (moments v), View (wire v) (S (moments v)) (pump_step (moments v) (inputs v)) (history v) (decisions v)
                     (drawn v) (signals v) (results v)).

Definition note_answer (sequence : Z) (action : string) (value : option GameService.snapshot) : st view unit :=
  match value with
  | None => mret tt
  | Some value => modify (λ v,
      View (wire v) (moments v) (inputs v) ((sequence, value) :: history v)
        (if decide (action = "wait"%string) then decisions v
         else decisions v ++ [MkDecision action (GameService.s_reason value) (GameService.s_tick value)])
        (drawn v) (signals v) (results v))
  end.
Definition pipe_error (e : exn) : bool :=
  bool_decide (e = OSError "BrokenPipeError") || bool_decide (e = OSError "ConnectionResetError").
(** Write a frame to the renderer: whether to go on. *)
Definition show (packet : bytes) : st view bool :=
  wire_frame ← lift (Bridge.encode_frame packet);
  _ ← modify (λ v, View (wire v) (moments v) (inputs v) (history v) (decisions v) (drawn v ++ [wire_frame]) (signals v) (results v));
  n ← gets (λ v, length (drawn v));
  match shown n with
  | Ok _ => mret true
  | Raise e =>
      if pipe_error e then
        code ← lift exit_code;
        if code =? 0 then mret false else raise e
      else raise e
  end.

(** One turn of the loop of [graphics]: whether there is another. *)
Definition turn (hello : bytes) (sequence : Z) : st view bool :=
  _ ← on_wire (pause (100 * ns_per_ms));
  _ ← moment;
  p ← gets inputs;
  match p with
  | Done r => _ ← lift r; mret false
  | Running latest =>
      _ ← set_inputs (Running None);
      let action := match latest ≫= ACTIONS with Some a => a | None => "wait"%string end in
      let sequence := sequence + 1 in
      _ ← raise_when (256 <? sequence) (RuntimeError "GRAPHICS_SESSION_LIMIT");
      answer ← on_wire (ask hello sequence action (2 * ns_per_s));
      _ ← note_answer sequence action answer.2;
      n ← moment;
      p ← gets inputs;
      if exited n || match p with Done _ => true | Running _ => false end then mret false
      else show answer.1
  end.
Fixpoint turns (fuel : nat) (hello : bytes) (sequence : Z) : st view unit :=
  match fuel with
  | O => raise AssertionError
  | S fuel =>
      go ← turn hello sequence;
      if (go : bool) then turns fuel hello (sequence + 1) else mret tt
  end.

(** The record the renderer leaves when it exits. *)
Definition numeric : list pystr :=
  [u "frames"; u "updates"; u "player"; u "x_mm"; u "y_mm"; u "health"; u "ammo"; u "tick"; u "sequence"].
Definition is_int (v : option value) : bool := match v with Some (VInt _) => true | _ => false end.
Definition int_at (d : dict) (k : pystr) : Z := match d_get d k with Some (VInt z) => z | _ => 0 end.
Fixpoint parse_records (lines : list pystr) : result (list value) :=
  match lines with
  | [] => Ok []
  | line :: lines =>
      if bool_decide (head line = Some 123) then
        v ← loads Attestation.plain_hooks line; vs ← parse_records lines; Ok (v :: vs)
      else parse_records lines
  end.
Definition renderer_record (lines : list pystr) : result dict :=
  records ← parse_records lines;
  match records with
  | [VDict d] =>
      raise_if! negb (match d_get d (u "event") with Some v => py_eq v (VStr (u "renderer_exit")) | None => false end)
        then RuntimeError "RENDERER_RESULT_MISSING";
      raise_if! negb (same_keys d (numeric ++ [u "event"])) || existsb (λ k, negb (is_int (d_get d k))) numeric
        then RuntimeError "RENDERER_RESULT_SCHEMA";
      Ok d
  | [_] => Raise AttributeError
  | _ => Raise (RuntimeError "RENDERER_RESULT_MISSING")
  end.
Fixpoint history_get (h : list (Z * GameService.snapshot)) (k : Z) : option GameService.snapshot :=
  match h with
  | [] => None
  | (k', v) :: h => if k =? k' then Some v else history_get h k
  end.
Definition displayed (h : list (Z * GameService.snapshot)) (d : dict) : result GameService.snapshot :=
  match history_get h (int_at d (u "sequence")) with
  | Some v =>
      raise_if! negb (GameService.s_tick v =? int_at d (u "tick")) || negb (GameService.s_player v =? int_at d (u "player"))
        then RuntimeError "RENDERER_STATE_NOT_RECEIVED";
      Ok v
  | None => Raise (RuntimeError "RENDERER_STATE_NOT_RECEIVED")
  end.
Definition conclude : st view outcome :=
  code ← lift exit_code;
  lines ← lift stderr_lines;
  _ ← raise_when (negb (code =? 0)) (RuntimeError "RENDERER_EXIT");
  rendered ← lift (renderer_record lines);
  h ← gets history;
  state ← lift (displayed h rendered);
  ds ← gets decisions;
  let result := Outcome state rendered ds in
  _ ← modify (λ v, View (wire v) (moments v) (inputs v) (history v) (decisions v) (drawn v) (signals v) (results v ++ [result]));
  mret result.

(** The clean-up of the renderer. *)
Definition signal (name : string) : st view unit :=
  modify (λ v, View (wire v) (moments v) (inputs v) (history v) (decisions v) (drawn v) (signals v ++ [name]) (results v)).
Definition stop_renderer : st view unit :=
  n ← gets moments;
  if exited n then mret tt
  else
    _ ← signal "terminate"%string;
    match reaped 0 with
    | Raise TimeoutError => _ ← signal "kill"%string; lift (reaped 1)
    | r => lift r
    end.

Definition start_drawing (hello : bytes * GameService.snapshot) : st view unit :=
  wire_frame ← lift (Bridge.encode_frame hello.1);
  _ ← modify (λ v, View (wire v) (moments v) (Running None) [(0, hello.2)] [] (drawn v ++ [wire_frame]) (signals v) (results v));
  lift (shown 1).
Definition graphics : st view outcome :=
  _ ← lift connected;
  hello ← on_wire read_hello;
  _ ← lift spawned;
  try_finally (_ ← start_drawing hello; _ ← turns 257 hello.1 0; conclude) stop_renderer.
End view.

End GameClient.
