(* ===== verification/GameClientFacts.v ===== *)
(** * The game clients: what they print and what they accept

    Every line of the command-line client and the result of the adapter are tied
    to the frames of the session they came from. *)

From S2P Require Import Prelude Bytes Json JsonCanon Dict Attestation Stream Bridge GameService GameClient.
Import Stream Json GameClient.

(** ** The dialogue with the service *)

(** Commands 1, 2, ... for these actions, on the wire, each with its answer. *)
Inductive exchanged (hello : bytes) : list string → list bytes → list (bytes * option GameService.snapshot) → Prop :=
| ExchangedNone : exchanged hello [] [] []
| ExchangedMore acts cmds answers action cmd w packet value :
    exchanged hello acts cmds answers →
    GameService.command hello (Z.of_nat (length acts) + 1) action = Ok cmd → Bridge.encode_frame cmd = Ok w →
    associated hello (Z.of_nat (length acts) + 1) packet = Ok value →
    exchanged hello (acts ++ [action]) (cmds ++ [w]) (answers ++ [(packet, value)]).

(** The bytes of these frames, and then the rest. *)
Definition framing (frames : list bytes) (stream rest : bytes) : Prop :=
  ∃ wires, mapM Bridge.encode_frame frames = Ok wires ∧ stream = concat wires ++ rest.

Lemma framing_more frames packet w stream rest :
  framing frames stream (w ++ rest) → Bridge.encode_frame packet = Ok w → framing (frames ++ [packet]) stream rest.
Proof.
  intros (wires & Hw & ->) Hp. exists (wires ++ [w]). split.
  - clear -Hw Hp. revert wires Hw. induction frames as [|f frames IH]; intros wires Hw.
    + injection Hw as <-. cbn. by rewrite Hp.
    + cbn in Hw |- *. destruct (Bridge.encode_frame f) as [x|]; [|done]. cbn in Hw |- *.
      apply result_bind_Ok in Hw as (ws & Hws & [= <-]). by rewrite (IH _ Hws).
  - rewrite concat_app. cbn. by rewrite app_nil_r, <-app_assoc.
Qed.

Lemma exchanged_length hello acts cmds answers :
  exchanged hello acts cmds answers → length cmds = length acts ∧ length answers = length acts.
Proof. induction 1 as [|???????? _ [IH1 IH2]]; [done|]. rewrite !length_app. cbn. lia. Qed.

Section link.
Context `{Peer}.

Lemma send_command_spec hello sequence action l r l' : send_command hello sequence action l = (r, l') →
  server l' = server l ∧ printed l' = printed l ∧
  (sent l' = sent l ∧ r ≠ Ok tt ∨
   ∃ cmd w, GameService.command hello sequence action = Ok cmd ∧ Bridge.encode_frame cmd = Ok w ∧ sent l' = sent l ++ [w]).
Proof.
  intros E. unfold send_command in E.
  apply st_bind_inv in E as ([cmd|e] & l1 & E1 & E); apply lift_inv in E1 as [Hc ->];
    [|destruct E as [-> ->]; split_and!; try done; by left].
  apply st_bind_inv in E as ([w|e] & l1 & E1 & E); apply lift_inv in E1 as [Hw ->];
    [|destruct E as [-> ->]; split_and!; try done; by left].
  apply st_bind_inv in E as (r1 & l1 & E1 & E). injection E1 as <- <-.
  apply st_bind_inv in E as (r1 & l1 & E1 & E). injection E1 as <- <-. apply lift_inv in E as [_ ->].
  split_and!; try done. right. by exists cmd, w.
Qed.

Lemma ask_spec hello sequence action timeout l r l' : ask hello sequence action timeout l = (r, l') →
  printed l' = printed l ∧
  (sent l' = sent l ∨ ∃ w, sent l' = sent l ++ [w]) ∧
  (∀ packet value, r = Ok (packet, value) → ∃ cmd w pw, GameService.command hello sequence action = Ok cmd ∧
     Bridge.encode_frame cmd = Ok w ∧ sent l' = sent l ++ [w] ∧ Bridge.encode_frame packet = Ok pw ∧
     (pending (server l)).*2 = pw ++ (pending (server l')).*2 ∧ associated hello sequence packet = Ok value).
Proof.
  intros E. unfold ask in E.
  apply st_bind_inv in E as (r1 & l1 & E1 & E). apply send_command_spec in E1 as (Hs1 & Hp1 & Hsent).
  assert (Hone : sent l1 = sent l ∨ ∃ w, sent l1 = sent l ++ [w]).
  { destruct Hsent as [[? _]|(? & w & _ & _ & ?)]; [by left|right; by exists w]. }
  destruct r1 as [[]|e]; [|destruct E as [-> ->]; by split_and!].
  destruct Hsent as [[_ ?]|(cmd & w & Hc & Hw & Hs)]; [done|].
  apply st_bind_inv in E as (r2 & l2 & E2 & E). unfold on_server, zoom in E2.
  destruct (Bridge.read_frame timeout (server l1)) as [rf rd] eqn:Er. injection E2 as <- <-.
  destruct rf as [packet|e]; [|destruct E as [-> ->]; by split_and!].
  apply Bridge.bridge_read_frame_Ok in Er as (pw & Hpw & Hb & _).
  apply st_bind_inv in E as (r3 & l3 & E3 & E). apply lift_inv in E3 as [Ha ->].
  destruct r3 as [value|e]; [|destruct E as [-> ->]; by split_and!]. injection E as <- <-. cbn.
  split_and!; [done|done|]. intros p' v' [= <- <-]. exists cmd, w, pw. split_and!; try done. by rewrite <-Hs1.
Qed.

Lemma read_hello_spec l r l' : read_hello l = (r, l') → sent l' = sent l ∧ printed l' = printed l ∧
  ∀ hello v, r = Ok (hello, v) → GameService.state hello = Ok v ∧
    framing [hello] (pending (server l)).*2 (pending (server l')).*2.
Proof.
  intros E. unfold read_hello in E. apply st_bind_inv in E as (r2 & l2 & E2 & E). unfold on_server, zoom in E2.
  destruct (Bridge.read_frame _ (server l)) as [rf rd] eqn:Er. injection E2 as <- <-.
  destruct rf as [packet|e]; [|destruct E as [-> ->]; by split_and!].
  apply Bridge.bridge_read_frame_Ok in Er as (pw & Hpw & Hb & _).
  apply st_bind_inv in E as (r3 & l3 & E3 & E). apply lift_inv in E3 as [Ha ->].
  destruct r3 as [value|e]; [|destruct E as [-> ->]; by split_and!]. injection E as <- <-. cbn.
  split_and!; [done|done|]. intros h v [= <- <-]. split; [done|]. exists [pw]. cbn. rewrite Hpw. cbn.
  by rewrite app_nil_r.
Qed.

(** What the client prints for an answer. *)
Definition report (answer : bytes * option GameService.snapshot) : event :=
  match answer.2 with Some v => Decision v | None => Inactive end.

(** The state of a session after some exchanges. *)
Definition so_far (hello : bytes) (v : GameService.snapshot) (stream : bytes) (l : link)
    (acts : list string) (cmds : list bytes) (answers : list (bytes * option GameService.snapshot)) : Prop :=
  exchanged hello acts cmds answers ∧ sent l = cmds ∧
  framing (hello :: answers.*1) stream (pending (server l)).*2.

Lemma so_far_ask hello v stream l acts cmds answers action timeout packet value l' :
  so_far hello v stream l acts cmds answers →
  ask hello (Z.of_nat (length acts) + 1) action timeout l = (Ok (packet, value), l') →
  ∃ w, so_far hello v stream l' (acts ++ [action]) (cmds ++ [w]) (answers ++ [(packet, value)]).
Proof.
  intros (Hex & Hs & Hf) E. apply ask_spec in E as (_ & _ & Hok).
  destruct (Hok _ _ eq_refl) as (cmd & w & pw & Hc & Hw & Hs' & Hpw & Hb & Ha). exists w. split_and!.
  - by econstructor.
  - by rewrite Hs', Hs.
  - rewrite fmap_app. cbn. rewrite app_comm_cons. eapply framing_more, Hpw. by rewrite <-Hb.
Qed.

Lemma client_loop_spec hello v stream l acts cmds answers actions r l' :
  so_far hello v stream l acts cmds answers →
  client_loop hello (Z.of_nat (length acts) + 1) actions l = (r, l') →
  ∃ more cmds' answers' extra rest,
    exchanged hello (acts ++ more) cmds' (answers ++ answers') ∧ more `prefix_of` actions ∧
    printed l' = printed l ++ (report <$> answers') ∧ sent l' = cmds' ++ extra ∧ (length extra <= 1)%nat ∧
    framing (hello :: (answers ++ answers').*1) stream rest ∧ (r = Ok tt → more = actions ∧ extra = []).
Proof.
  revert l acts cmds answers. induction actions as [|action actions IH]; intros l acts cmds answers Hso E; cbn [client_loop] in E.
  { injection E as <- <-. destruct Hso as (Hex & Hs & Hf). exists [], cmds, [], [], (pending (server l)).*2.
    rewrite !app_nil_r. split_and!; try done. cbn. lia. }
  apply st_bind_inv in E as (r1 & l1 & E1 & E). unfold pause, modify in E1. injection E1 as <- <-.
  set (l1 := {| server := _; sent := sent l; printed := printed l |}) in E.
  assert (Hso1 : so_far hello v stream l1 acts cmds answers) by exact Hso.
  apply st_bind_inv in E as ([[packet value]|e] & l2 & E2 & E).
  - pose proof E2 as E2'. apply ask_spec in E2' as (Hp2 & _ & _).
    eapply so_far_ask in E2 as (w & Hso2); [|exact Hso1].
    apply st_bind_inv in E as (r3 & l3 & E3 & E). unfold print, modify in E3. injection E3 as <- <-. cbn [snd] in E.
    replace (Z.of_nat (length acts) + 1 + 1) with (Z.of_nat (length (acts ++ [action])) + 1) in E
      by (rewrite length_app; cbn; lia).
    eapply IH in E as (more & cmds' & answers' & extra & rest & Hex & Hm & Hpr & Hs & Hx & Hf & Hr); [|exact Hso2].
    rewrite <-!app_assoc in *. exists (action :: more), cmds', ((packet, value) :: answers'), extra, rest.
    split_and!; try done.
    + by apply prefix_cons.
    + rewrite Hpr. cbn [printed]. rewrite Hp2, <-app_assoc. done.
    + intros Hok. destruct (Hr Hok) as [-> ->]. done.
  - destruct E as [-> ->]. apply ask_spec in E2 as (Hp2 & Hs2 & _). destruct Hso as (Hex & Hs & Hf).
    assert (∃ extra, sent l2 = cmds ++ extra ∧ (length extra <= 1)%nat) as (extra & Hextra & Hx).
    { cbn in Hs2. rewrite Hs in Hs2. destruct Hs2 as [->|(w & ->)]; [exists []; split; [by rewrite app_nil_r|cbn; lia]|by exists [w]]. }
    exists [], cmds, [], extra, (pending (server l)).*2. rewrite !app_nil_r. split_and!; try done. apply prefix_nil.
Qed.

(** Everything the command-line client prints comes from the session.  Its first
    line is the state of the hello; the others report, in order and one per
    command, the answers to the commands 1, 2, ... built from the hello for its
    actions, each answer a frame of the service that either says the match is
    inactive or is a state of the same match, session, player and sequence
    number.  At most one command more was sent than is reported; and a client
    that succeeds has sent all its actions and reported all their answers. *)
Theorem client_transcript argument l r l' : sent l = [] → printed l = [] → client argument l = (r, l') →
  printed l' = [] ∧ sent l' = [] ∧ r ≠ Ok tt ∨
  ∃ hello v acts cmds answers extra rest,
    GameService.state hello = Ok v ∧ exchanged hello acts cmds answers ∧ acts `prefix_of` split_comma argument ∧
    printed l' = Joined v :: (report <$> answers) ∧ sent l' = cmds ++ extra ∧ (length extra <= 1)%nat ∧
    framing (hello :: answers.*1) (pending (server l)).*2 rest ∧
    (r = Ok tt → acts = split_comma argument ∧ extra = []).
Proof.
  intros Hs Hp E. unfold client in E.
  apply st_bind_inv in E as (r1 & l1 & E1 & E). apply raise_when_spec in E1 as [-> _].
  destruct r1 as [x|e]; [|destruct E as [-> ->]; by left].
  apply st_bind_inv in E as (r2 & l2 & E2 & E). apply lift_inv in E2 as [_ ->].
  destruct r2 as [y|e]; [|destruct E as [-> ->]; by left].
  apply st_bind_inv in E as (r3 & l3 & E3 & E). apply read_hello_spec in E3 as (Hs3 & Hp3 & Hh).
  destruct r3 as [[hello v]|e]; [|destruct E as [-> ->]; left; split_and!; congruence].
  destruct (Hh _ _ eq_refl) as [Hv Hf]. right.
  apply st_bind_inv in E as (r4 & l4 & E4 & E). unfold print, modify in E4. injection E4 as <- <-. cbn [fst snd] in E.
  change 1 with (Z.of_nat (@length string []) + 1) in E.
  eapply (client_loop_spec hello v (pending (server l)).*2 _ [] [] []) in E as (more & cmds & answers & extra & rest & Hex & Hm & Hpr & Hse & Hx & Hfr & Hok).
  2:{ split_and!; [constructor|cbn; congruence|done]. }
  cbn [app] in *. exists hello, v, more, cmds, answers, extra, rest. split_and!; try done.
  rewrite Hpr. cbn [printed]. by rewrite Hp3, Hp.
Qed.
End link.
