(* ===== verification/GameClientTheorems.v ===== *)
(** * The adapter of the renderer: what it reports was received *)

From S2P Require Import Prelude Bytes Json JsonCanon Dict Attestation Stream Bridge GameService GameClient GameClientFacts.
Import Stream Json GameClient.

(** The decisions of a session: the answers to the actions that are not [wait]. *)
Definition decision_of (x : string * (bytes * option GameService.snapshot)) : list decision :=
  match x.2.2 with
  | Some v => if decide (x.1 = "wait"%string) then [] else [MkDecision x.1 (GameService.s_reason v) (GameService.s_tick v)]
  | None => []
  end.
Definition decisions_of (acts : list string) (answers : list (bytes * option GameService.snapshot)) : list decision :=
  zip acts answers ≫= decision_of.

(** The state the session gave for a sequence number: the hello for 0. *)
Definition received (v : GameService.snapshot) (answers : list (bytes * option GameService.snapshot)) (k : Z)
    (x : GameService.snapshot) : Prop :=
  k = 0 ∧ x = v ∨ ∃ packet, 1 <= k ∧ answers !! Z.to_nat (k - 1) = Some (packet, Some x).

Section graphics.
Context `{Peer, Renderer}.

Lemma on_wire_inv {A} (m : st link A) v r v' : on_wire m v = (r, v') →
  ∃ l, m (wire v) = (r, l) ∧
    v' = View l (moments v) (inputs v) (history v) (decisions v) (drawn v) (signals v) (results v).
Proof. unfold on_wire, zoom. destruct (m (wire v)) as [r1 l]. intros [= -> <-]. by exists l. Qed.

Definition progress (hello : bytes) (first : GameService.snapshot) (stream : bytes) (v : view)
    (acts : list string) (answers : list (bytes * option GameService.snapshot)) : Prop :=
  (∃ cmds, so_far hello first stream (wire v) acts cmds answers) ∧ (length acts <= 256)%nat ∧
  decisions v = decisions_of acts answers ∧
  (∀ k x, history_get (history v) k = Some x → received first answers k x).

(** Steps that leave the session alone. *)
Definition aside (v v' : view) : Prop :=
  pending (server (wire v')) = pending (server (wire v)) ∧ sent (wire v') = sent (wire v) ∧ history v' = history v ∧
  decisions v' = decisions v ∧ results v' = results v.
Lemma progress_aside hello first stream v v' acts answers :
  progress hello first stream v acts answers → aside v v' → progress hello first stream v' acts answers.
Proof.
  intros ((cmds & Hex & Hs & Hf) & Hl & Hd & Hh) (Es & Et & Eh & Ed & _). unfold progress.
  rewrite Ed, Eh. split_and!; try done. exists cmds. split_and!; [done|congruence|by rewrite Es].
Qed.

Lemma decisions_snoc acts answers a x : length answers = length acts →
  decisions_of (acts ++ [a]) (answers ++ [x]) = decisions_of acts answers ++ decision_of (a, x).
Proof.
  intros Hl. unfold decisions_of. rewrite zip_with_app by done. rewrite bind_app. cbn. by rewrite app_nil_r.
Qed.

Lemma received_later first answers more k x : received first answers k x → received first (answers ++ more) k x.
Proof.
  intros [?|(p & ? & Hx)]; [by left|right]. exists p. split; [done|]. by apply lookup_app_l_Some.
Qed.

(** The note of an answer. *)
Lemma note_progress hello first stream v acts answers a w packet value r v' l n p :
  progress hello first stream v acts answers → (length acts < 256)%nat →
  (∃ cmds, so_far hello first stream l (acts ++ [a]) (cmds ++ [w]) (answers ++ [(packet, value)])) →
  note_answer (Z.of_nat (length acts) + 1) a value
    (View l n p (history v) (decisions v) (drawn v) (signals v) (results v)) = (r, v') →
  r = Ok tt ∧ progress hello first stream v' (acts ++ [a]) (answers ++ [(packet, value)]) ∧ results v' = results v.
Proof.
  intros ((cmds0 & Hex0 & _) & Hl & Hd & Hh) Hlt (cmds & Hso) E.
  apply exchanged_length in Hex0 as [_ Hla].
  assert (Hlen : (length (acts ++ [a]) <= 256)%nat) by (rewrite length_app; cbn; lia).
  unfold note_answer in E. destruct value as [value|].
  - unfold modify in E. injection E as <- <-. split; [done|]. split; [|done]. split_and!; [by eexists|done| |].
    + cbn. rewrite decisions_snoc by done. cbn. rewrite Hd. unfold decision_of. cbn.
      case_decide; [by rewrite app_nil_r|done].
    + cbn. intros k x. destruct (Z.eqb_spec k (Z.of_nat (length acts) + 1)) as [->|].
      * intros [= <-]. right. exists packet. split; [lia|].
        replace (Z.to_nat (Z.of_nat (length acts) + 1 - 1)) with (length answers) by lia. by apply list_lookup_middle.
      * intros Hx. by apply received_later, Hh.
  - injection E as <- <-. split; [done|]. split; [|done]. split_and!; [by eexists|done| |].
    + rewrite decisions_snoc by done. cbn. by rewrite app_nil_r.
    + cbn. intros k x Hx. by apply received_later, Hh.
Qed.

Lemma show_aside packet v r v' : show packet v = (r, v') → aside v v'.
Proof.
  intros E. unfold show in E.
  apply st_bind_inv in E as ([w|e] & v1 & E1 & E); apply lift_inv in E1 as [_ ->]; [|by destruct E as [_ ->]].
  apply st_bind_inv in E as (r1 & v1 & E1 & E). injection E1 as <- <-.
  apply st_bind_inv in E as (r1 & v1 & E1 & E). injection E1 as <- <-. cbn in E.
  destruct (shown _) as [|e]; [by injection E as _ <-|]. destruct (pipe_error e); [|by injection E as _ <-].
  apply st_bind_inv in E as ([c|e'] & v1 & E1 & E); apply lift_inv in E1 as [_ ->]; [|by destruct E as [_ ->]].
  by destruct (c =? 0); injection E as _ <-.
Qed.

Lemma turn_spec hello first stream v acts answers go v' :
  progress hello first stream v acts answers → turn hello (Z.of_nat (length acts)) v = (Ok go, v') →
  (go = false ∧ progress hello first stream v' acts answers ∨
   ∃ a x, progress hello first stream v' (acts ++ [a]) (answers ++ [x])) ∧ results v' = results v.
Proof.
  intros Hp E. unfold turn in E.
  apply st_bind_Ok in E as (x1 & v1 & E1 & E). apply on_wire_inv in E1 as (l1 & E1 & ->).
  unfold pause, modify in E1. injection E1 as <- <-.
  apply st_bind_Ok in E as (n1 & v2 & E2 & E). injection E2 as <- <-.
  apply st_bind_Ok in E as (p & v2 & E2 & E). injection E2 as <- <-. cbn [inputs moments wire history decisions drawn signals results] in E.
  destruct (pump_step (moments v) (inputs v)) as [latest|res].
  2:{ apply st_bind_Ok in E as (y & v2 & E2 & E). apply lift_inv in E2 as [_ ->]. injection E as <- <-.
      split; [left; split; [done|]|done]. eapply progress_aside; [exact Hp|]. done. }
  apply st_bind_Ok in E as (x2 & v2 & E2 & E). unfold set_inputs, modify in E2. injection E2 as <- <-.
  apply st_bind_Ok in E as (x3 & v2 & E2 & E). apply raise_when_Ok in E2 as [Hlim ->]. bools.
  set (action := match latest ≫= ACTIONS with Some a => a | None => _ end) in E.
  apply st_bind_Ok in E as ([packet value] & v2 & E2 & E). apply on_wire_inv in E2 as (l2 & E2 & ->). cbn [wire] in E2.
  destruct Hp as ((cmds & Hso) & Hl & Hd & Hh).
  eapply so_far_ask in E2 as (w & Hso2); [|exact Hso].
  apply st_bind_Ok in E as (x4 & v3 & E3 & E). cbn [snd wire moments inputs history decisions drawn signals results] in E3.
  eapply (note_progress hello first stream v acts answers action w packet value) in E3 as (_ & Hp3 & Hr3);
    [|split_and!; [by exists cmds|done..]|lia|by exists cmds].
  apply st_bind_Ok in E as (n2 & v4 & E4 & E). injection E4 as <- <-.
  apply st_bind_Ok in E as (p2 & v4 & E4 & E). injection E4 as <- <-.
  match type of E with (if _ then _ else _) ?v0 = _ =>
    assert (progress hello first stream v0 (acts ++ [action]) (answers ++ [(packet, value)])) as Hp4
      by (eapply progress_aside; [exact Hp3|done]) end.
  destruct (exited _ || _).
  - injection E as <- <-. split; [right; by eexists _, _|]. cbn. by rewrite Hr3.
  - apply show_aside in E. split; [right; eexists _, _; by eapply progress_aside|].
    destruct E as (_ & _ & _ & _ & ->). cbn. by rewrite Hr3.
Qed.

Lemma turns_spec fuel hello first stream v acts answers x v' :
  progress hello first stream v acts answers → turns fuel hello (Z.of_nat (length acts)) v = (Ok x, v') →
  (∃ acts' answers', progress hello first stream v' acts' answers') ∧ results v' = results v.
Proof.
  revert v acts answers. induction fuel as [|fuel IH]; intros v acts answers Hp E; cbn [turns] in E; [done|].
  apply st_bind_Ok in E as (go & v1 & E1 & E). eapply turn_spec in E1 as [Hcase Hr]; [|exact Hp].
  destruct go.
  - destruct Hcase as [[? _]|(a & y & Hp1)]; [done|].
    replace (Z.of_nat (length acts) + 1) with (Z.of_nat (length (acts ++ [a]))) in E by (rewrite length_app; cbn; lia).
    eapply IH in E as [Hp2 Hr2]; [|exact Hp1]. split; [done|congruence].
  - injection E as _ <-. split; [|done]. destruct Hcase as [[_ ?]|(a & y & ?)]; by eexists _, _.
Qed.

Lemma renderer_record_Ok lines d : renderer_record lines = Ok d →
  same_keys d (numeric ++ [u "event"]) = true ∧ ∀ k, k ∈ numeric → ∃ z, d_get d k = Some (VInt z).
Proof.
  unfold renderer_record. intros E. apply result_bind_Ok in E as (records & _ & E).
  destruct records as [|[| | | | | |d0] [|]]; try done.
  apply result_bind_Ok in E as (x1 & _ & E). apply result_bind_Ok in E as (x2 & E2 & E). injection E as ->.
  apply raise_if_Ok in E2. bools. split; [done|]. intros k Hk.
  destruct (is_int (d_get d k)) eqn:Ei.
  - unfold is_int in Ei. destruct (d_get d k) as [[]|]; try done. by eexists.
  - exfalso. assert (existsb (λ k, negb (is_int (d_get d k))) numeric = true); [|congruence].
    apply existsb_exists. exists k. split; [by apply list_elem_of_In|]. by rewrite Ei.
Qed.

Lemma int_at_Some d k z : d_get d k = Some (VInt z) → int_at d k = z.
Proof. unfold int_at. by intros ->. Qed.

(** What the adapter may report at the end of a session. *)
Definition authoritative (first : GameService.snapshot) (acts : list string)
    (answers : list (bytes * option GameService.snapshot)) (out : outcome) : Prop :=
  ∃ k, d_get (o_renderer out) (u "sequence") = Some (VInt k) ∧ received first answers k (o_state out) ∧
    d_get (o_renderer out) (u "tick") = Some (VInt (GameService.s_tick (o_state out))) ∧
    d_get (o_renderer out) (u "player") = Some (VInt (GameService.s_player (o_state out))) ∧
    o_actions out = decisions_of acts answers.

Lemma conclude_spec hello first stream v acts answers out v' :
  progress hello first stream v acts answers → conclude v = (Ok out, v') →
  authoritative first acts answers out ∧ results v' = results v ++ [out] ∧ wire v' = wire v.
Proof.
  intros (_ & _ & Hd & Hh) E. unfold conclude in E.
  apply st_bind_Ok in E as (code & v1 & E1 & E). apply lift_inv in E1 as [_ ->].
  apply st_bind_Ok in E as (lines & v1 & E1 & E). apply lift_inv in E1 as [_ ->].
  apply st_bind_Ok in E as (x & v1 & E1 & E). apply raise_when_Ok in E1 as [_ ->].
  apply st_bind_Ok in E as (d & v1 & E1 & E). apply lift_inv in E1 as [Hrec ->].
  apply st_bind_Ok in E as (h & v1 & E1 & E). injection E1 as <- <-.
  apply st_bind_Ok in E as (shown_state & v1 & E1 & E). apply lift_inv in E1 as [Hdisp ->].
  apply st_bind_Ok in E as (ds & v1 & E1 & E). injection E1 as <- <-.
  apply st_bind_Ok in E as (y & v1 & E1 & E). injection E1 as _ <-. injection E as <- <-. cbn.
  split; [|done]. apply renderer_record_Ok in Hrec as [_ Hints]. unfold displayed in Hdisp.
  destruct (Hints (u "sequence") ltac:(by repeat constructor)) as (k & Hk).
  destruct (Hints (u "tick") ltac:(by repeat constructor)) as (t & Ht).
  destruct (Hints (u "player") ltac:(by repeat constructor)) as (p & Hp).
  rewrite (int_at_Some _ _ _ Hk), (int_at_Some _ _ _ Ht), (int_at_Some _ _ _ Hp) in Hdisp.
  destruct (history_get (history v) k) as [x0|] eqn:Ex; [|done].
  apply result_bind_Ok in Hdisp as (z & Hg & Hx). apply raise_if_Ok in Hg. bools. injection Hx as ->.
  exists k. cbn. split_and!; [done|by apply Hh|congruence|congruence|done].
Qed.

(** C27.  What the adapter of the renderer reports is authoritative.  A session that
    succeeds sent at most 256 commands, numbered from 1, each built from the
    hello and answered; the state it reports is the one the service answered to
    the very sequence number the renderer says it displayed (the hello for 0),
    the renderer's tick and player are those of that state, and the decisions
    reported are, in order, the reasons the service gave for every action that
    was not a wait. *)
Theorem graphics_reports_authority v out v' : sent (wire v) = [] → results v = [] →
  graphics v = (Ok out, v') → ∃ hello first acts cmds answers rest,
    GameService.state hello = Ok first ∧ exchanged hello acts cmds answers ∧ (length acts <= 256)%nat ∧
    framing (hello :: answers.*1) (pending (server (wire v))).*2 rest ∧ sent (wire v') = cmds ∧
    authoritative first acts answers out ∧ results v' = [out].
Proof.
  intros Hs Hr E. unfold graphics in E.
  apply st_bind_Ok in E as (x & v1 & E1 & E). apply lift_inv in E1 as [_ ->].
  apply st_bind_Ok in E as ([hello first] & v1 & E1 & E). apply on_wire_inv in E1 as (l1 & E1 & ->).
  apply read_hello_spec in E1 as (Hs1 & _ & Hh). destruct (Hh _ _ eq_refl) as [Hv Hf].
  apply st_bind_Ok in E as (x2 & v1 & E1 & E). apply lift_inv in E1 as [_ ->].
  unfold try_finally in E.
  match type of E with match ?m ?v0 with _ => _ end = _ => destruct (m v0) as [rb vb] eqn:Eb end.
  destruct (stop_renderer vb) as [rs vs] eqn:Es.
  assert (Hstop : wire vs = wire vb ∧ results vs = results vb).
  { unfold stop_renderer in Es. apply st_bind_inv in Es as (r3 & v3 & E3 & Es). injection E3 as <- <-.
    destruct (exited _); [by injection Es as _ <-|].
    apply st_bind_inv in Es as (r4 & v4 & E4 & Es). injection E4 as <- <-.
    destruct (reaped 0) as [y|[]]; by apply lift_inv in Es as [_ ->]. }
  destruct rs; [|done]. injection E as -> <-. destruct Hstop as [-> ->].
  apply st_bind_Ok in Eb as (y & v2 & E2 & Eb). unfold start_drawing in E2.
  apply st_bind_Ok in E2 as (w & v3 & E3 & E2). apply lift_inv in E3 as [_ ->].
  apply st_bind_Ok in E2 as (y2 & v3 & E3 & E2). injection E3 as _ <-. apply lift_inv in E2 as [_ ->]. cbn [fst snd] in Eb.
  apply st_bind_Ok in Eb as (y3 & v3 & E3 & Eb). change (turns 257 hello 0) with (turns 257 hello (Z.of_nat (@length string []))) in E3.
  eapply (turns_spec _ hello first (pending (server (wire v))).*2 _ [] []) in E3 as [(acts & answers & Hp) Hr3].
  - pose proof Hp as ((cmds & Hex & Hsent & Hfr) & Hl & _). eapply conclude_spec in Eb as (Ha & Hres & Hw); [|exact Hp].
    exists hello, first, acts, cmds, answers, (pending (server (wire v3))).*2. split_and!; try done.
    + by rewrite Hw.
    + rewrite Hres, Hr3. cbn. by rewrite Hr.
  - split_and!; [exists []; split_and!; [constructor|cbn; congruence|done]|cbn; lia|done|].
    intros k x0 Hk. cbn [history history_get] in Hk. destruct (Z.eqb_spec k 0) as [->|]; [|discriminate]. injection Hk as <-. by left.
Qed.

(** ** The loop ends *)

(** The waits and writes outside never fail with an assertion. *)
Definition orderly_peers : Prop :=
  (∀ n, drained n ≠ Raise AssertionError) ∧ (∀ n, shown n ≠ Raise AssertionError) ∧ exit_code ≠ Raise AssertionError.

Definition sane {S A} (m : st S A) : Prop := ∀ s r s', m s = (r, s') → r ≠ Raise AssertionError.
Lemma sane_bind {S A B} (m : st S A) (f : A → st S B) : sane m → (∀ a, sane (f a)) → sane (m ≫= f).
Proof.
  intros Hm Hf s r s' E. apply st_bind_inv in E as (r1 & s1 & E1 & E). apply Hm in E1. destruct r1 as [a|e].
  - by eapply Hf.
  - destruct E as [-> _]. congruence.
Qed.
Lemma sane_lift {S A} (x : result A) : x ≠ Raise AssertionError → sane (lift x : st S A).
Proof. intros Hx s r s' [<- _]%lift_inv. done. Qed.
Lemma sane_ret {S A} (a : A) : sane (mret a : st S A).
Proof. by intros s r s' [= <- _]. Qed.
Lemma sane_gets {S A} (f : S → A) : sane (gets f).
Proof. by intros s r s' [= <- _]. Qed.
Lemma sane_modify {S} (f : S → S) : sane (modify f).
Proof. by intros s r s' [= <- _]. Qed.
Lemma sane_on_wire {A} (m : st link A) : sane m → sane (on_wire m).
Proof. intros Hm v r v' (l & E & _)%on_wire_inv. by eapply Hm. Qed.

Lemma sane_readexactly n deadline : sane (readexactly n deadline).
Proof. intros r x r' E. unfold readexactly in E. repeat case_match; by injection E as <- _. Qed.
Lemma sane_read_frame timeout : sane (Bridge.read_frame timeout).
Proof.
  unfold Bridge.read_frame. apply sane_bind; [apply sane_gets|]. intros t.
  apply sane_bind; [apply sane_readexactly|]. intros size. apply sane_bind; [|intros; apply sane_readexactly].
  apply sane_lift. by destruct (negb _).
Qed.
Lemma encode_frame_sane data : Bridge.encode_frame data ≠ Raise AssertionError.
Proof. unfold Bridge.encode_frame. by destruct (negb _). Qed.
Lemma state_sane data : GameService.state data ≠ Raise AssertionError.
Proof.
  unfold GameService.state. destruct (GameService.error_of data); [done|].
  destruct (negb (GameService.schema_ok data)); [done|]. cbn [raise_if mbind result_bind].
  destruct (negb (GameService.in_range (GameService.read_player data 0))); [done|]. cbn [raise_if mbind result_bind].
  destruct (negb (GameService.in_range (GameService.read_player data 1))); [done|]. cbn [raise_if mbind result_bind].
  by destruct (negb _ || negb _).
Qed.
Lemma command_sane hello sequence action : GameService.command hello sequence action ≠ Raise AssertionError.
Proof.
  unfold GameService.command. destruct (GameService.state hello) as [v|e] eqn:E; cbn [mbind result_bind].
  - destruct (GameService.direction action) as [[[??]?]|]; [|done]. by destruct (negb _).
  - intros [= ->]. by apply state_sane in E.
Qed.
Lemma associated_sane hello sequence packet : associated hello sequence packet ≠ Raise AssertionError.
Proof.
  unfold associated. destruct (decide _); [done|]. destruct (GameService.state packet) as [v|e] eqn:E; cbn [mbind result_bind].
  - by destruct (negb _ || _ || _).
  - intros [= ->]. by apply state_sane in E.
Qed.
Lemma sane_ask hello sequence action timeout : orderly_peers → sane (ask hello sequence action timeout).
Proof.
  intros (Hd & _). apply sane_bind.
  - repeat (apply sane_bind; [first [apply sane_lift; auto using command_sane, encode_frame_sane|apply sane_modify|apply sane_gets]|intros]).
    apply sane_lift. apply Hd.
  - intros _. apply sane_bind.
    + intros l r l' E. unfold on_server, zoom in E. destruct (Bridge.read_frame _ _) as [r1 s1] eqn:Er.
      injection E as <- _. by eapply sane_read_frame.
    + intros packet. apply sane_bind; [apply sane_lift, associated_sane|intros; apply sane_ret].
Qed.
Lemma sane_show packet : orderly_peers → sane (show packet).
Proof.
  intros (_ & Hs & Hc). unfold show. apply sane_bind; [apply sane_lift, encode_frame_sane|]. intros w.
  apply sane_bind; [apply sane_modify|]. intros _. apply sane_bind; [apply sane_gets|]. intros n.
  pose proof (Hs n) as Hn. destruct (shown n) as [|e]; [apply sane_ret|].
  assert (sane (raise e : st view bool)) as Hraise by (intros v r v' [= <- _]; congruence).
  destruct (pipe_error e); [|done]. apply sane_bind; [by apply sane_lift|]. intros c. by destruct (c =? 0); [apply sane_ret|].
Qed.

(** A turn whose pump was not already broken, and that allows another, is not the last. *)
Lemma turn_limit hello sequence v v' : turn hello sequence v = (Ok true, v') → sequence + 1 <= 256.
Proof.
  unfold turn. intros E. apply st_bind_Ok in E as (? & ? & _ & E). apply st_bind_Ok in E as (? & ? & _ & E).
  apply st_bind_Ok in E as (p & v1 & _ & E). destruct p.
  - apply st_bind_Ok in E as (? & ? & _ & E). apply st_bind_Ok in E as (? & ? & E1 & _).
    apply raise_when_Ok in E1 as [E1 _]. by apply Z.ltb_ge in E1.
  - by apply st_bind_Ok in E as (? & ? & _ & [=]).
Qed.

Definition pump_sane (v : view) : Prop := inputs v ≠ Done (Raise AssertionError).
Lemma read_keys_sane keys latest : read_keys latest keys ≠ Raise AssertionError.
Proof. revert latest. induction keys as [|x keys IH]; intros latest; [done|]. cbn. destruct (ACTIONS x); [apply IH|done]. Qed.
Lemma pump_step_sane n p : p ≠ Done (Raise AssertionError) → pump_step n p ≠ Done (Raise AssertionError).
Proof.
  destruct p as [latest|r]; [|done]. intros _. cbn. pose proof (read_keys_sane (typed n) latest) as Hk. destruct (read_keys latest (typed n)); [by destruct (closed n)|congruence].
Qed.

Lemma turn_sane hello sequence v r v' : orderly_peers → pump_sane v → turn hello sequence v = (r, v') →
  r ≠ Raise AssertionError ∧ (r = Ok true → pump_sane v').
Proof.
  intros Ho Hp E. unfold turn in E.
  apply st_bind_inv in E as (r1 & v1 & E1 & E). apply on_wire_inv in E1 as (l1 & [= <- <-] & ->).
  apply st_bind_inv in E as (r2 & v2 & E2 & E). injection E2 as <- <-.
  apply st_bind_inv in E as (r2 & v2 & E2 & E). injection E2 as <- <-. cbn [inputs moments] in E.
  pose proof (pump_step_sane (moments v) _ Hp) as Hq.
  destruct (pump_step (moments v) (inputs v)) as [latest|res].
  2:{ apply st_bind_inv in E as (r2 & v2 & E2 & E). apply lift_inv in E2 as [-> ->].
      destruct r2; [by injection E as <- _|]. destruct E as [-> _]. split; [congruence|done]. }
  apply st_bind_inv in E as (r2 & v2 & E2 & E). injection E2 as <- <-.
  apply st_bind_inv in E as (r2 & v2 & E2 & E). apply raise_when_spec in E2 as [-> [[_ ->]|[_ ->]]];
    [|by destruct E as [-> _]].
  apply st_bind_inv in E as (r2 & v2 & E2 & E). apply on_wire_inv in E2 as (l2 & E2 & ->). apply sane_ask in E2; [|done].
  destruct r2 as [[packet value]|e]; [|destruct E as [-> _]; split; [congruence|done]].
  apply st_bind_inv in E as (r3 & v3 & E3 & E).
  assert (r3 = Ok tt ∧ inputs v3 = Running None) as [-> Hi].
  { unfold note_answer in E3. cbn [snd] in E3. destruct value; [unfold modify in E3|]; by injection E3 as <- <-. }
  apply st_bind_inv in E as (r4 & v4 & E4 & E). injection E4 as <- <-.
  apply st_bind_inv in E as (r4 & v4 & E4 & E). injection E4 as <- <-. cbn [inputs] in E. rewrite Hi in E.
  assert (pump_step (moments v3) (Running None) ≠ Done (Raise AssertionError)) as Hs by by apply pump_step_sane.
  destruct (exited _ || _); [by injection E as <- _|].
  split; [by eapply sane_show|]. intros ->.
  assert (∀ w x, show packet w = (Ok true, x) → inputs x = inputs w) as Hshow.
  { clear. intros w x E. unfold show in E. apply st_bind_Ok in E as (? & ? & E1 & E). apply lift_inv in E1 as [_ ->].
    apply st_bind_Ok in E as (? & ? & E1 & E). injection E1 as _ <-. apply st_bind_Ok in E as (? & ? & E1 & E).
    injection E1 as <- <-. destruct (shown _); [by injection E as <-|]. destruct (pipe_error _); [|done].
    apply st_bind_Ok in E as (c & ? & E1 & E). apply lift_inv in E1 as [_ ->]. by destruct (c =? 0). }
  unfold pump_sane. rewrite (Hshow _ _ E). cbn. done.
Qed.

(** Two hundred and fifty-seven turns are enough: [graphics] never runs out of fuel. *)
Lemma turns_enough fuel hello sequence v r v' : orderly_peers → pump_sane v →
  257 - sequence <= Z.of_nat fuel → sequence <= 256 → turns fuel hello sequence v = (r, v') → r ≠ Raise AssertionError.
Proof.
  intros Ho. revert sequence v. induction fuel as [|fuel IH]; intros sequence v Hp Hf Hs E; [lia|]. cbn [turns] in E.
  apply st_bind_inv in E as (r1 & v1 & E1 & E). pose proof E1 as E1'. apply turn_sane in E1 as [Hr Hp1]; [|done..].
  destruct r1 as [[|]|e]; [|by injection E as <- _|destruct E as [-> _]; congruence].
  apply turn_limit in E1'. eapply IH, E; [by apply Hp1|lia|lia].
Qed.
End graphics.

(** ** Concrete sessions *)

Definition sample_hello : bytes :=
  b "LGST" ++ [x01; x00; x00; x01] ++ le_encode 8 5 ++ le_encode 4 0 ++ replicate 16 x0a ++ replicate 16 x0b ++
  le_encode 4 100 ++ le_encode 4 200 ++ [x64; x04; x00; x00] ++ le_encode 4 300 ++ le_encode 4 400 ++ [x64; x04; x00; x00] ++
  [x03; x00; x00; x00].
Definition sample_state (sequence tick : Z) : bytes :=
  take 8 sample_hello ++ le_encode 8 tick ++ le_encode 4 sequence ++ drop 20 sample_hello.
Definition framed (data : bytes) : bytes := be_encode 4 (len data) ++ data.
Definition sample_stream (frames : list bytes) : reader := Reader (buffered (concat (framed <$> frames)) 1) None 0.

Definition sample_peer : Peer := {| connected := Ok tt; drained := λ _, Ok tt |}.
Definition sample_link : link :=
  Link (sample_stream [sample_hello; sample_state 1 6; inactive]) [] [].
Definition client_run : link := Eval vm_compute in (@client sample_peer "east,fire" sample_link).2.
Lemma client_run_eq : @client sample_peer "east,fire" sample_link = (Ok tt, client_run).
Proof. vm_compute. reflexivity. Qed.

Lemma client_transcript_witness :
  length (printed client_run) = 3%nat ∧ length (sent client_run) = 2%nat ∧
  (printed client_run = [] ∧ sent client_run = [] ∧ Ok tt ≠ @Ok unit tt ∨
   ∃ hello v acts cmds answers extra rest,
    GameService.state hello = Ok v ∧ exchanged hello acts cmds answers ∧ acts `prefix_of` split_comma "east,fire" ∧
    printed client_run = Joined v :: (report <$> answers) ∧ sent client_run = cmds ++ extra ∧ (length extra <= 1)%nat ∧
    framing (hello :: answers.*1) (pending (server sample_link)).*2 rest ∧
    (@Ok unit tt = Ok tt → acts = split_comma "east,fire" ∧ extra = [])).
Proof.
  split; [vm_compute; reflexivity|]. split; [vm_compute; reflexivity|].
  exact (@client_transcript sample_peer "east,fire" sample_link (Ok tt) client_run eq_refl eq_refl client_run_eq).
Defined.

(** A renderer that shoots, shows two frames and exits. *)
Definition record_field (k : string) (z : Z) : pystr := [34] ++ u k ++ [34; 58] ++ dump_int z ++ [44].
Definition exit_line : pystr :=
  [123] ++ record_field "frames" 9 ++ record_field "updates" 2 ++ record_field "player" 0 ++ record_field "x_mm" 100 ++
  record_field "y_mm" 200 ++ record_field "health" 100 ++ record_field "ammo" 4 ++ record_field "tick" 6 ++
  record_field "sequence" 1 ++ [34] ++ u "event" ++ [34; 58; 34] ++ u "renderer_exit" ++ [34; 125].
Definition sample_renderer (last_key : byte) : Renderer := {|
  spawned := Ok tt; typed := λ n, if (n =? 0)%nat then [x66] else if (n =? 3)%nat then [last_key] else [];
  closed := λ n, (3 <=? n)%nat; exited := λ n, (3 <=? n)%nat; shown := λ _, Ok tt;
  exit_code := Ok 0; stderr_lines := Ok [u "INFO"; exit_line]; reaped := λ _, Ok tt |}.
Definition sample_view : view :=
  View (Link (sample_stream [sample_hello; sample_state 1 6; sample_state 2 7]) [] []) 0 (Running None) [] [] [] [] [].
Definition graphics_run : result outcome * view :=
  Eval vm_compute in @graphics sample_peer (sample_renderer x2e) sample_view.
Definition graphics_out : outcome := Eval vm_compute in
  match graphics_run.1 with Ok o => o | Raise _ => Outcome (GameService.Snapshot 0 0 0 EmptyString []) [] [] end.
Lemma graphics_run_eq : @graphics sample_peer (sample_renderer x2e) sample_view = (Ok graphics_out, graphics_run.2).
Proof. vm_compute. reflexivity. Qed.

Lemma graphics_reports_authority_witness :
  GameService.s_sequence (o_state graphics_out) = 1 ∧ ∃ hello first acts cmds answers rest,
    GameService.state hello = Ok first ∧ exchanged hello acts cmds answers ∧ (length acts <= 256)%nat ∧
    framing (hello :: answers.*1) (pending (server (wire sample_view))).*2 rest ∧ sent (wire graphics_run.2) = cmds ∧
    authoritative first acts answers graphics_out ∧ results graphics_run.2 = [graphics_out].
Proof.
  split; [vm_compute; reflexivity|].
  exact (@graphics_reports_authority sample_peer (sample_renderer x2e) sample_view graphics_out graphics_run.2 eq_refl eq_refl graphics_run_eq).
Defined.

(** A key the renderer may not send, read while an answer is awaited just before
    the renderer exits, is not reported: the session still succeeds. *)
Example late_invalid_key : is_Ok (@graphics sample_peer (sample_renderer x00) sample_view).1 = true.
Proof. vm_compute. reflexivity. Qed.
