(* ===== verification/GameSession.v ===== *)
(** * A player's session, from the worker to the screen

    The command-line client of [GameClient] at the other end of a handler of
    [GameService]: what it prints against what the worker answered. *)

From S2P Require Import Prelude Bytes Sha256 Json JsonCanon Dict Attestation Stream Bridge GameService GameRun GameFacts GameTheorems.
From S2P Require Import GameClient GameClientFacts.
Import Stream GameService.

(** ** What a handler sends over a run *)

(** The frame handler [i] begins to send between two states. *)
Definition now_sends (i : nat) (s s' : sys) : list bytes :=
  match h_phase <$> s_hs s' !! i with
  | Some (Sending data k) =>
      if bool_decide (h_phase <$> s_hs s !! i = Some (Sending data k)) then [] else [data]
  | _ => []
  end.
Fixpoint wrote_to (i : nat) (acts : list action) (s : sys) : list bytes :=
  match acts with
  | [] => []
  | act :: acts => now_sends i s (step act s) ++ wrote_to i acts (step act s)
  end.

(** *** A connection keeps its slot, and the worker's pipes their history *)

Definition same_player (h h' : handler) : Prop := h_slot h' = h_slot h ∧ h_owned h' = h_owned h.

(** More has gone through the pipes, and every frame answered was [Q]. *)
Definition extends (Q : bytes → Prop) (l l' : list worker_event) : Prop :=
  ∃ more, l' = l ++ more ∧ ∀ i slot data, Answered i slot (Ok data) ∈ more → Q data.
#[export] Instance extends_preorder Q : PreOrder (extends Q).
Proof.
  split.
  - intros l. exists []. split; [by rewrite app_nil_r|]. by intros ??? ?%elem_of_nil.
  - intros l1 l2 l3 (m1 & -> & H1) (m2 & -> & H2). exists (m1 ++ m2). split; [by rewrite app_assoc|].
    intros i slot data [?|?]%elem_of_app; eauto.
Qed.
Lemma extends_prefix Q l l' : extends Q l l' → l `prefix_of` l'.
Proof. intros (more & -> & _). by eexists. Qed.
Lemma extends_wrote Q l i op slot payload : extends Q l (l ++ [Wrote i op slot payload]).
Proof. eexists. split; [done|]. by intros ??? ?%list_elem_of_singleton. Qed.

Section carried.
Variable Q : bytes → Prop.

Definition carries (h : handler) (m : st service handler) : Prop :=
  ∀ s r s', m s = (r, s') → extends Q (pipe s) (pipe s') ∧ ∀ h', r = Ok h' → same_player h h'.

Lemma carries_ret h h' : same_player h h' → carries h (mret h').
Proof. intros Hh s r s' [= <- <-]. split; [done|]. by intros ? [= <-]. Qed.
Lemma carries_leave h h0 : same_player h0 h → carries h0 (leave h).
Proof.
  intros [Hs Ho] s r s' E. unfold leave in E. destruct (h_owned h) eqn:Eo; injection E as <- <-; (split; [done|]);
    intros ? [= <-]; by split; cbn; congruence.
Qed.
Lemma carries_next now h h0 n : same_player h0 h → carries h0 (next now h n).
Proof.
  intros Hh. unfold next. destruct n; [by apply carries_ret|]. destruct (_ <=? 0); [by apply carries_leave|by apply carries_ret].
Qed.
Lemma carries_sent now h k : carries h (sent now h k).
Proof. unfold sent. destruct k; [by apply carries_leave|by apply carries_next|by apply carries_next]. Qed.
Lemma carries_received h n data : carries h (received h n data).
Proof.
  intros s r s' E. unfold received in E. destruct (negb _); [|destruct (negb _)]; injection E as <- <-;
    (split; [done|]); by intros ? [= <-].
Qed.
Lemma carries_failed h p : carries h (failed h p).
Proof.
  intros s r s' E. unfold failed in E. destruct p; try by eapply (carries_leave h h).
  injection E as <- <-. split; [done|]. by intros ? [= <-].
Qed.
Lemma exchange_begin_pipe i op slot payload s r s' :
  exchange_begin i op slot payload s = (r, s') → extends Q (pipe s) (pipe s').
Proof.
  unfold exchange_begin. intros E. apply st_bind_inv in E as (r1 & s1 & E1 & E). injection E1 as <- <-.
  apply st_bind_inv in E as (r1 & s1 & E1 & E). apply raise_when_spec in E1 as [-> Hr].
  destruct Hr as [[_ ->]|[_ ->]]; [|by destruct E as [-> ->]].
  apply st_bind_inv in E as (r1 & s1 & E1 & E). apply raise_when_spec in E1 as [-> Hr].
  destruct Hr as [[_ ->]|[_ ->]]; [|by destruct E as [-> ->]]. injection E as _ <-. apply extends_wrote.
Qed.
Lemma carries_locked i now h p : carries h (locked i now h p).
Proof.
  intros s r s' E. unfold locked in E.
  match type of E with match ?m s with _ => _ end = _ => destruct (m s) as [r1 s1] eqn:E1 end.
  assert (Hp : extends Q (pipe s) (pipe s1)).
  { apply st_bind_inv in E1 as (r2 & s2 & E2 & E1). apply lift_inv in E2 as [_ ->].
    destruct r2; [by eapply exchange_begin_pipe|by destruct E1 as [-> ->]]. }
  destruct r1; [injection E as <- <-; split; [done|by intros ? [= <-]]|].
  apply carries_failed in E as [Hp2 Hh]. split; [|done]. by etrans.
Qed.
Lemma carries_exchange_end i slot reply s : (∀ data, reply = Ok data → Q data) →
  extends Q (pipe s) (pipe (exchange_end i slot reply s).2).
Proof.
  intros Hq. assert (extends Q (pipe s) (pipe s ++ [Answered i slot (data ← reply; reply_check slot data)])).
  { eexists. split; [done|]. intros j k data Ha. apply list_elem_of_singleton in Ha. injection Ha as _ _ E. symmetry in E.
    apply result_bind_Ok in E as (d & Hd & E). unfold reply_check in E.
    apply result_bind_Ok in E as (? & _ & E). apply result_bind_Ok in E as (? & _ & [= <-]). by apply Hq. }
  unfold exchange_end. cbn. by destruct (is_Ok _).
Qed.
Lemma carries_answered i now h p reply : (∀ data, reply = Ok data → Q data) → carries h (answered i now h p reply).
Proof.
  intros Hq.
  intros s r s' E. unfold answered in E. pose proof (carries_exchange_end i (slot_of h) reply s Hq) as Hp.
  destruct (exchange_end _ _ _ _) as [r1 s1]. cbn in Hp.
  assert (Hgo : ∀ m s2, carries h m → pipe s2 = pipe s1 → m s2 = (r, s') →
    extends Q (pipe s) (pipe s') ∧ ∀ h', r = Ok h' → same_player h h').
  { intros m s2 Hm Hs Em. apply Hm in Em as [H1 H2]. split; [|done]. rewrite Hs in H1. by etrans. }
  destruct r1 as [data|e]; [|eapply Hgo; [apply carries_failed| |exact E]; done].
  destruct p; try (injection E as <- <-; split; [done|by intros ? [= <-]]).
  - destruct (state data); [injection E as <- <-; split; [done|by intros ? [= <-]]|].
    eapply Hgo; [by apply carries_leave| |exact E]. done.
  - eapply Hgo; [apply carries_locked| |exact E]. done.
Qed.
Lemma carries_cancelled i h : carries h (cancelled i h).
Proof.
  intros s r s' E. unfold cancelled in E.
  pose proof (carries_exchange_end i (slot_of h) (Raise CancelledError) s ltac:(done)) as Hp.
  destruct (h_phase h) as [| [] | [] | | |]; try (injection E as <- <-; split; [done|by intros ? [= <-]]);
    apply (carries_leave h h) in E as [H1 H2]; try done; split; try done; by etrans.
Qed.

Lemma resume_carries i j h m s : carries h m → s_hs s !! i = Some h →
  extends Q (pipe (s_svc s)) (pipe (s_svc (resume i m s))) ∧
  ∀ k, s_hs s !! j = Some k → ∃ k', s_hs (resume i m s) !! j = Some k' ∧ same_player k k'.
Proof.
  intros Hm Hi. unfold resume. destruct (m (s_svc s)) as [r s'] eqn:E. apply Hm in E as [Hp Hh].
  destruct r as [h'|e]; cbn; (split; [done|]); intros k Hk; [|by exists k].
  destruct (decide (j = i)) as [->|Hne].
  - rewrite Hi in Hk. injection Hk as <-. exists h'. rewrite list_lookup_insert_eq by (by eapply lookup_lt_Some).
    split; [done|by apply Hh].
  - exists k. by rewrite list_lookup_insert_ne.
Qed.

End carried.

(** The frame a step brings from the worker. *)
Definition brings (act : action) (data : bytes) : Prop := ∃ i now, act = EReply i now (Ok data).

Lemma step_carries act j s :
  extends (brings act) (pipe (s_svc s)) (pipe (s_svc (step act s))) ∧
  ∀ k, s_hs s !! j = Some k → ∃ k', s_hs (step act s) !! j = Some k' ∧ same_player k k'.
Proof.
  assert (Hsame : ∀ s', extends (brings act) (pipe (s_svc s)) (pipe (s_svc s')) → s_hs s' = s_hs s →
    extends (brings act) (pipe (s_svc s)) (pipe (s_svc s')) ∧
    ∀ k, s_hs s !! j = Some k → ∃ k', s_hs s' !! j = Some k' ∧ same_player k k').
  { intros s' Hp Hh. split; [done|]. intros k Hk. exists k. by rewrite Hh. }
  destruct act; cbn [step]; try (by apply Hsame);
    try (destruct (s_hs s !! i) as [h|] eqn:Hi; [|by apply Hsame]; unfold step_handler;
         destruct (h_phase h) eqn:Hph; try (by apply Hsame)).
  - apply Hsame; [|done]. cbn. unfold start. destruct (running _); [done|]. by destruct (x ← hello; _).
  - destruct (4 <=? _); [by apply Hsame|]. unfold handle_begin.
    assert (Hadd : ∀ h svc, pipe svc = pipe (s_svc s) → extends (brings (EConnect cert)) (pipe (s_svc s)) (pipe svc) ∧
      ∀ k, s_hs s !! j = Some k → ∃ k', (s_hs s ++ [h]) !! j = Some k' ∧ same_player k k').
    { intros h svc ->. split; [done|]. intros k Hk. exists k. rewrite lookup_app_l by (by eapply lookup_lt_Some). done. }
    destruct (slot_for _ _); [|by apply Hadd]. destruct (broken _); [by apply Hadd|].
    destruct (default _ _); by apply Hadd.
  - destruct (lock _); [by apply Hsame|]. eapply resume_carries; [apply carries_locked|done].
  - eapply resume_carries; [|done]. apply carries_answered. intros data ->. by do 2 eexists.
  - eapply resume_carries; [|done]. destruct r; [apply carries_sent|by apply carries_leave].
  - eapply resume_carries; [|done]. destruct r; [apply carries_received|by apply carries_leave].
  - eapply resume_carries; [|done]. by apply carries_ret.
  - eapply resume_carries; [apply carries_cancelled|done].
  - eapply resume_carries; [apply carries_cancelled|done].
  - eapply resume_carries; [apply carries_cancelled|done].
  - eapply resume_carries; [apply carries_cancelled|done].
  - eapply resume_carries; [apply carries_cancelled|done].
  - eapply resume_carries; [apply carries_cancelled|done].
Qed.
Lemma run_carries acts j s :
  pipe (s_svc s) `prefix_of` pipe (s_svc (run acts s)) ∧
  ∀ k, s_hs s !! j = Some k → ∃ k', s_hs (run acts s) !! j = Some k' ∧ same_player k k'.
Proof.
  revert s. induction acts as [|act acts IH]; intros s; [split; [done|intros k Hk; by exists k]|].
  destruct (step_carries act j s) as [P1 H1], (IH (step act s)) as [P2 H2]. split; [apply extends_prefix in P1; by etrans|].
  intros k Hk. destruct (H1 k Hk) as (k1 & Hk1 & ? & ?). destruct (H2 k1 Hk1) as (k2 & ? & ? & ?).
  exists k2. split; [done|]. split; congruence.
Qed.

(** Every frame sent over a run is one the handler may send. *)
Lemma wrote_sendable i acts s data : sys_ok s → data ∈ wrote_to i acts s →
  ∃ h, s_hs (run acts s) !! i = Some h ∧ sendable (pipe (s_svc (run acts s))) i h data.
Proof.
  revert s. induction acts as [|act acts IH]; intros s O Hd; [by apply elem_of_nil in Hd|].
  cbn in Hd. pose proof (game_step_ok act s O) as O1. apply elem_of_app in Hd as [Hd|Hd]; [|by apply IH].
  unfold now_sends in Hd. destruct (s_hs (step act s) !! i) as [h|] eqn:Hi; [|by apply elem_of_nil in Hd]. cbn in Hd.
  destruct (h_phase h) as [d k| | | | |] eqn:Hp; try by apply elem_of_nil in Hd.
  case_bool_decide; [by apply elem_of_nil in Hd|]. apply list_elem_of_singleton in Hd as ->.
  pose proof (ho_sends _ _ _ (so_handlers _ O1 _ _ Hi) _ _ Hp) as Hs.
  destruct (run_carries acts i (step act s)) as [Hpre Hh]. destruct (Hh h Hi) as (h' & Hi' & Hsl & Ho).
  exists h'. split; [exact Hi'|]. destruct Hs as [?|(Ha & Hr & Hw)]; [by left|right].
  assert (slot_of h' = slot_of h) as -> by (by apply slot_of_eq). split_and!; [|done|congruence].
  change (run (act :: acts) s) with (run acts (step act s)). destruct Hpre as [more ->]. apply elem_of_app. by left.
Qed.

(** ** The client's side *)

Definition wire_of (data : bytes) : bytes := be_encode 4 (len data) ++ data.

(** What the client prints for a frame. *)
Definition shown (data : bytes) (e : GameClient.event) : Prop :=
  match e with
  | GameClient.Joined v | GameClient.Decision v => state data = Ok v
  | GameClient.Inactive => data = error_frame 7
  end.

Lemma exchanged_shown hello acts cmds answers :
  exchanged hello acts cmds answers → Forall2 shown answers.*1 (report <$> answers).
Proof.
  induction 1 as [|acts cmds answers action cmd w packet value _ IH _ _ Ha]; [constructor|].
  rewrite !fmap_app. apply Forall2_app; [done|]. constructor; [|constructor]. unfold GameClient.associated in Ha.
  destruct (decide (packet = GameClient.inactive)) as [->|]; [by injection Ha as <-|].
  apply result_bind_Ok in Ha as (v & Hv & Ha). apply result_bind_Ok in Ha as (? & _ & Ha). by injection Ha as <-.
Qed.

Lemma short_state data v : state data = Ok v → len data = 80.
Proof.
  intros E. unfold state in E. destruct (error_of data); [done|]. apply result_bind_Ok in E as (x & Hx & _).
  apply raise_if_Ok in Hx. unfold schema_ok in Hx. by bools.
Qed.
Lemma state_not_error code v : 1 <= code <= 7 → state (error_frame code) ≠ Ok v.
Proof.
  intros Hc. assert (code = 1 ∨ code = 2 ∨ code = 3 ∨ code = 4 ∨ code = 5 ∨ code = 6 ∨ code = 7) as Hcs by lia.
  destruct Hcs as [->|[->|[->|[->|[->|[->| ->]]]]]]; by vm_compute.
Qed.
Lemma sendable_short pp i h data : sendable pp i h data → len data <= 80.
Proof.
  intros [(code & _ & ->)|(_ & Hr & _)].
  - unfold error_frame. rewrite len_app. change (len (b "LGRE")) with 4. change (len [z2b code]) with 1. lia.
  - unfold reply_check in Hr. apply result_bind_Ok in Hr as (v & Hv & _). apply short_state in Hv. lia.
Qed.

(** Frames read from a stream of frames are the first of them. *)
Lemma framing_prefix frames sent stream rest :
  framing frames stream rest → stream `prefix_of` concat (wire_of <$> sent) →
  Forall (λ data, len data <= 80) sent → frames `prefix_of` sent.
Proof.
  intros (wires & Hw & ->) [tail Hp] Hs. rewrite <-app_assoc in Hp.
  revert sent wires Hw Hp Hs. generalize (rest ++ tail) as after. clear rest tail.
  induction frames as [|f frames IH]; intros after sent wires Hw Hp Hs; [apply prefix_nil|].
  cbn in Hw. apply result_bind_Ok in Hw as (w & Hf & Hw). apply result_bind_Ok in Hw as (ws & Hws & [= <-]).
  apply Bridge.encode_frame_Ok in Hf as [Hlen ->]. unfold Bridge.MAX_FRAME in Hlen.
  destruct Hs as [|x sent Hx Hs].
  { apply (f_equal length) in Hp. cbn [concat] in Hp. rewrite !length_app, length_be_encode in Hp. cbn in Hp. lia. }
  cbn [fmap list_fmap concat] in Hp. unfold wire_of at 1 in Hp. rewrite <-!app_assoc in Hp. apply app_inj_1 in Hp as [E Hp]; [|by rewrite !length_be_encode].
  pose proof (len_nonneg x). apply be_encode_inj in E; [|change (256 ^ Z.of_nat 4) with 4294967296; lia..].
  apply app_inj_1 in Hp as [-> Hp]; [|unfold len in *; lia].
  apply prefix_cons. by eapply IH.
Qed.

Section session.
Context `{GameClient.Peer}.

(** C19.  From the worker to the player's screen: when the bytes a client reads are
    (a beginning of) what its connection's handler wrote, whatever the other
    connections do, the client prints one line per frame, in order: a
    match-inactive line for the service's error 7, and otherwise a state that
    the worker answered to this very handler for the player of its slot. *)
Theorem player_sees_the_worker ids s acts i argument l x l' :
  new_service ids = Ok s → GameClient.sent l = [] → GameClient.printed l = [] →
  (pending (GameClient.server l)).*2 `prefix_of` concat (wire_of <$> wrote_to i acts (Sys s [])) →
  GameClient.client argument l = (x, l') →
  let r := run acts (Sys s []) in
  ∃ frames, frames `prefix_of` wrote_to i acts (Sys s []) ∧ Forall2 shown frames (GameClient.printed l') ∧
    ∀ data v, data ∈ frames → state data = Ok v →
      ∃ h, s_hs r !! i = Some h ∧ h_owned h = true ∧ Answered i (slot_of h) (Ok data) ∈ pipe (s_svc r) ∧
        s_player v = Z.of_nat (slot_of h).
Proof.
  intros E%new_service_ok Hs Hp Hpre Ec r.
  assert (Hw : ∀ data, data ∈ wrote_to i acts (Sys s []) → ∃ h, s_hs r !! i = Some h ∧ sendable (pipe (s_svc r)) i h data)
    by (intros data Hd; by eapply wrote_sendable).
  assert (Hgen : ∀ frames, frames `prefix_of` wrote_to i acts (Sys s []) → ∀ data v, data ∈ frames → state data = Ok v →
    ∃ h, s_hs r !! i = Some h ∧ h_owned h = true ∧ Answered i (slot_of h) (Ok data) ∈ pipe (s_svc r) ∧
      s_player v = Z.of_nat (slot_of h)).
  { intros frames [more Hf] data v Hd Hv. destruct (Hw data) as (h & Hi & Hsend); [rewrite Hf; set_solver|].
    exists h. destruct Hsend as [(code & Hc & ->)|(Ha & Hr & Ho)]; [by apply state_not_error in Hv|].
    split_and!; [done|done|done|]. unfold reply_check in Hr. apply result_bind_Ok in Hr as (v' & Hv' & Hr).
    apply result_bind_Ok in Hr as (? & Hr & _). apply raise_if_Ok in Hr. bools. congruence. }
  destruct (client_transcript argument l x l' Hs Hp Ec)
    as [(Hnone & _)|(hello & v & acts' & cmds & answers & extra & rest & Hv & Hex & _ & Hpr & _ & _ & Hf & _)].
  - exists []. split; [apply prefix_nil|]. rewrite Hnone. split; [constructor|]. by intros data v Hd%elem_of_nil.
  - assert (hello :: answers.*1 `prefix_of` wrote_to i acts (Sys s [])) as Hfr.
    { eapply framing_prefix; [exact Hf|exact Hpre|]. apply Forall_forall. intros data Hd.
      destruct (Hw data Hd) as (h & _ & Hsend). by eapply sendable_short. }
    exists (hello :: answers.*1). split; [done|]. split; [|by apply Hgen]. rewrite Hpr.
    constructor; [done|]. by eapply exchanged_shown.
Qed.
End session.

(** The first player of a match, and the client at the other end of its connection. *)
Definition watching : GameClient.Peer := {| GameClient.connected := Ok tt; GameClient.drained := λ _, Ok tt |}.
Definition watched : GameClient.link :=
  GameClient.Link (Reader (buffered (concat (wire_of <$> wrote_to 0 test_match (Sys test_service []))) 1) None 0) [] [].
Definition watched_end : result unit * GameClient.link := Eval vm_compute in @GameClient.client watching "east" watched.
Lemma watched_ends : @GameClient.client watching "east" watched = watched_end.
Proof. vm_compute. reflexivity. Qed.
Lemma player_sees_the_worker_witness :
  length (GameClient.printed watched_end.2) = 1%nat ∧
  let r := run test_match (Sys test_service []) in
  ∃ frames, frames `prefix_of` wrote_to 0 test_match (Sys test_service []) ∧
    Forall2 shown frames (GameClient.printed watched_end.2) ∧
    ∀ data v, data ∈ frames → state data = Ok v →
      ∃ h, s_hs r !! 0%nat = Some h ∧ h_owned h = true ∧ Answered 0 (slot_of h) (Ok data) ∈ pipe (s_svc r) ∧
        s_player v = Z.of_nat (slot_of h).
Proof.
  split; [vm_compute; reflexivity|].
  refine (@player_sees_the_worker watching two_players test_service test_match 0 "east" watched watched_end.1 watched_end.2
    test_service_made eq_refl eq_refl _ watched_ends).
  apply reflexive_eq. vm_compute. reflexivity.
Defined.
