(* ===== verification/GameCoreFacts.v ===== *)
(** * The rules of the match: codec, invariant and accepted intents *)

From S2P Require Import Prelude Bytes GameService GameTheorems GameCore.
Import GameCore.

(** ** The input codec *)

Lemma lor_fold_zero (id : bytes) a : 0 <= a →
  foldl (λ c x, Z.lor c (b2z x)) a id = 0 ↔ a = 0 ∧ Forall (λ x, b2z x = 0) id.
Proof.
  revert a. induction id as [|x id IH]; intros a Ha; cbn.
  - split; [by intros ->|by intros [-> _]].
  - rewrite IH by (apply Z.lor_nonneg; pose proof (b2z_range x); lia).
    rewrite Z.lor_eq_0_iff, Forall_cons. naive_solver.
Qed.
Lemma nonzero_some_set id : nonzero id = GameService.some_set id.
Proof.
  unfold nonzero, GameService.some_set. apply eq_bool_prop_intro. rewrite !Is_true_true, negb_true_iff, Z.eqb_neq.
  rewrite (lor_fold_zero id 0) by lia. rewrite existsb_exists. split.
  - intros Hn. destruct (decide (Exists (λ x, b2z x ≠ 0) id)) as [He|He].
    + apply Exists_exists in He as (x & Hx & Hb). exists x. split; [by apply list_elem_of_In|]. lia.
    + destruct Hn. split; [done|]. apply Forall_forall. intros x Hx. destruct (decide (b2z x = 0)) as [|Hb]; [done|].
      destruct He. apply Exists_exists. by exists x.
  - intros (x & Hx & Hb) [_ Hf]. rewrite Forall_forall in Hf. rewrite (Hf x) in Hb by (by apply list_elem_of_In). done.
Qed.

(** The fields of [game_input_t] at their widths. *)
Record input_wf (i : game_input_t) : Prop := {
  iw_match : len (in_match i) = 16;
  iw_session : len (in_session i) = 16;
  iw_sequence : 0 <= in_sequence i < 2 ^ 32;
  iw_action : 0 <= in_action i < 256;
  iw_x : 0 <= axis_x i < 256;
  iw_y : 0 <= axis_y i < 256 }.

Lemma slice_app_1 {A} (l k : list A) n : length l = n → slice (l ++ k) 0 n = l.
Proof. intros <-. unfold slice. rewrite drop_0, Nat.sub_0_r. apply take_app_length. Qed.
Lemma slice_skip {A} (l k : list A) i j n : length l = n → (n <= i)%nat → slice (l ++ k) i j = slice k (i - n) (j - n).
Proof.
  intros <- Hi. unfold slice. rewrite drop_app_ge by done. f_equal. lia.
Qed.
Lemma at_app (l k : bytes) i : (length l <= i)%nat → at_ (l ++ k) i = at_ k (i - length l).
Proof. intros Hi. unfold GameService.at_. by rewrite lookup_app_r. Qed.

(** A valid input survives its wire format... *)
Lemma input_roundtrip i : input_wf i → valid_input i = true →
  ∃ data, game_input_encode i = Some data ∧ len data = 48 ∧ game_input_decode data = Some i.
Proof.
  intros [W1 W2 W3 W4 W5 W6] Hv. unfold game_input_encode. rewrite Hv. eexists. split; [done|].
  set (head := b "LGIN" ++ [z2b 1; z2b (in_action i); z2b (axis_x i); z2b (axis_y i)]).
  set (data := b "LGIN" ++ _). assert (Hd : data = head ++ in_match i ++ in_session i ++ le_encode 4 (in_sequence i) ++ zeros 4) by done.
  assert (Hh : length head = 8%nat) by done. assert (Hm : length (in_match i) = 16%nat) by (unfold len in *; lia).
  assert (Hs : length (in_session i) = 16%nat) by (unfold len in *; lia).
  pose proof (length_le_encode 4 (in_sequence i)) as Hq.
  assert (Hlen : len data = 48).
  { rewrite Hd. unfold len. rewrite !length_app, Hh, Hm, Hs, Hq. done. }
  split; [done|]. unfold game_input_decode, GAME_INPUT_SIZE. rewrite Hlen.
  assert (Htail : ∀ k, (44 <= k < 48)%nat → at_ data k = 0).
  { intros k Hk. rewrite Hd, !app_assoc. rewrite at_app by (rewrite !length_app; lia).
    rewrite !length_app, Hh, Hm, Hs, Hq. assert (k = 44 ∨ k = 45 ∨ k = 46 ∨ k = 47)%nat as [-> |[-> |[-> | ->]]] by lia; done. }
  rewrite (Htail 44%nat), (Htail 45%nat), (Htail 46%nat), (Htail 47%nat) by lia.
  change (take 4 data) with (b "LGIN"). change (at_ data 4) with 1.
  change (at_ data 5) with (b2z (z2b (in_action i))). change (at_ data 6) with (b2z (z2b (axis_x i))).
  change (at_ data 7) with (b2z (z2b (axis_y i))). rewrite !b2z_z2b_small by done.
  rewrite (bool_decide_eq_true_2 (_ = _)) by done. cbn [negb orb Z.eqb].
  assert (slice data 8 24 = in_match i) as ->.
  { rewrite Hd, (slice_skip head) with (n := 8%nat) by (done || lia). by apply slice_app_1. }
  assert (slice data 24 40 = in_session i) as ->.
  { rewrite Hd, app_assoc, (slice_skip (head ++ in_match i)) with (n := 24%nat) by (rewrite ?length_app; lia).
    by apply slice_app_1. }
  assert (slice data 40 44 = le_encode 4 (in_sequence i)) as ->.
  { rewrite Hd, 2!app_assoc, (slice_skip ((head ++ in_match i) ++ in_session i)) with (n := 40%nat) by (rewrite ?length_app; lia).
    by apply slice_app_1. }
  rewrite le_decode_encode, Z.mod_small by done. change (48 =? 48) with true. cbn [negb orb].
  assert (Input (in_match i) (in_session i) (in_sequence i) (in_action i) (axis_x i) (axis_y i) = i) as -> by (by destruct i).
  by rewrite Hv.
Qed.

Lemma at_byte data i : (i < length data)%nat → ∃ x, data !! i = Some x ∧ at_ data i = b2z x.
Proof. intros Hi. destruct (lookup_lt_is_Some_2 data i Hi) as [x Hx]. exists x. unfold GameService.at_. by rewrite Hx. Qed.

(** ... and what is decoded is well formed. *)
Lemma decoded_wf data i : game_input_decode data = Some i →
  input_wf i ∧ valid_input i = true ∧ len data = 48 ∧ in_match i = slice data 8 24 ∧ in_session i = slice data 24 40 ∧
  in_sequence i = le_decode (slice data 40 44).
Proof.
  unfold game_input_decode. intros E. destruct (_ || _) eqn:G in E; [done|]. destruct (valid_input _) eqn:Hv in E; [|done].
  injection E as <-. unfold GAME_INPUT_SIZE in G. bools. rewrite Hv. cbn [in_match in_session in_sequence].
  assert (Hl : length data = 48%nat) by (unfold len in *; lia).
  assert (H16 : ∀ a e, (a <= e)%nat → (e <= 48)%nat → len (slice data a e) = Z.of_nat (e - a)).
  { intros a e ??. unfold len. rewrite length_slice by lia. done. }
  split_and!; try done. split; cbn [in_match in_session in_sequence in_action axis_x axis_y]; try (by rewrite H16 by lia); try apply GameTheorems.at_range.
  - pose proof (le_decode_bound (slice data 40 44)) as Hb. rewrite H16 in Hb by lia. exact Hb.
Qed.

(** ** The invariant of a match *)

Record player_ok (tick : Z) (p other : game_player_t) : Prop := {
  po_x : - GAME_EDGE_MM <= x_mm p <= GAME_EDGE_MM;
  po_y : - GAME_EDGE_MM <= y_mm p <= GAME_EDGE_MM;
  po_facing : facing_x p = 0 ∧ (facing_y p = 1 ∨ facing_y p = -1) ∨ facing_y p = 0 ∧ (facing_x p = 1 ∨ facing_x p = -1);
  po_sequence : 0 <= last_sequence p < UINT32_MAX;
  po_tick : 0 <= last_input_tick p <= tick;
  po_fire : 0 <= next_fire_tick p <= tick + GAME_FIRE_TICKS;
  po_ammo : 0 <= ammo p <= GAME_AMMO;
  po_hits : 0 <= hits p <= GAME_AMMO - ammo p;
  po_health : health other = GAME_HEALTH - GAME_DAMAGE * hits p;
  po_kills : kills p = if health other =? 0 then 1 else 0 }.

Definition apart (p q : game_player_t) : Prop :=
  present p = true → present q = true → ¬ (x_mm p = x_mm q ∧ y_mm p = y_mm q).

Record world_ok (w : game_world_t) : Prop := {
  wo_player0 : player_ok (w_tick w) (player0 w) (player1 w);
  wo_player1 : player_ok (w_tick w) (player1 w) (player0 w);
  wo_tick : 0 <= w_tick w <= UINT64_MAX;
  wo_apart : apart (player0 w) (player1 w);
  wo_lengths : len (w_match w) = 16 ∧ len (session (player0 w)) = 16 ∧ len (session (player1 w)) = 16;
  wo_ids : nonzero (w_match w) = true ∧ nonzero (session (player0 w)) = true ∧ nonzero (session (player1 w)) = true ∧
    session (player0 w) ≠ session (player1 w) }.

Ltac rules := unfold GAME_EDGE_MM, GAME_AMMO, GAME_HEALTH, GAME_DAMAGE, GAME_FIRE_TICKS, GAME_STEP_MM, UINT32_MAX, UINT64_MAX in *.

Lemma apart_sym p q : apart p q → apart q p.
Proof. unfold apart. intros Ha Hq Hp [E1 E2]. by apply Ha. Qed.

(** What an accepted action does to its player. *)
Record same_person (p p' : game_player_t) : Prop := {
  sp_session : session p' = session p;
  sp_open : is_open p' = is_open p;
  sp_health : health p' = health p }.

Lemma valid_move i : input_wf i → valid_input i = true → in_action i = GAME_MOVE →
  (direction (axis_x i) = 0 ∧ (direction (axis_y i) = 1 ∨ direction (axis_y i) = -1)) ∨
  (direction (axis_y i) = 0 ∧ (direction (axis_x i) = 1 ∨ direction (axis_x i) = -1)).
Proof.
  intros [_ _ _ _ Wx Wy] Hv Ha. unfold valid_input in Hv. destruct (_ || _) eqn:G in Hv; [done|].
  rewrite Ha, Z.eqb_refl in Hv. unfold GAME_AXIS_POS, GAME_AXIS_NONE in *. bools.
  assert (axis_x i = 0 ∨ axis_x i = 1 ∨ axis_x i = 2) as Hx by lia.
  assert (axis_y i = 0 ∨ axis_y i = 1 ∨ axis_y i = 2) as Hy by lia.
  destruct Hx as [Ex|[Ex|Ex]], Hy as [Ey|[Ey|Ey]]; rewrite Ex, Ey in *; cbn in Hv |- *; try done; auto.
Qed.

(** An accepted action: the players stay within the rules. *)
Lemma act_ok w p other i next damage sequence :
  act w p other i = inl (next, damage) → input_wf i → valid_input i = true →
  0 <= w_tick w <= UINT64_MAX → 0 <= sequence < UINT32_MAX →
  player_ok (w_tick w) p other → player_ok (w_tick w) other p → apart p other →
  let p' := recorded (w_tick w) sequence next in
  let other' := if damage then wounded other else other in
  player_ok (w_tick w) p' other' ∧ player_ok (w_tick w) other' p' ∧ apart p' other' ∧ same_person p p'.
Proof.
  intros E Hi Hv Ht Hq [A1 A2 A3 A4 A5 A6 A7 A8 A9 A10] Ho Hap p' other'. unfold act in E. rules.
  destruct (Z.eqb_spec (in_action i) GAME_MOVE) as [Hm|_].
  - destruct (outside (moved i p)) eqn:Hout; [done|]. destruct (present other && _ && _) eqn:Hocc; [done|].
    injection E as <- <-. unfold outside in Hout. rules. bools. subst p' other'.
    destruct Ho as [B1 B2 B3 B4 B5 B6 B7 B8 B9 B10]. rules.
    split_and!; [split; cbn; rules; try lia; try done| | |by split].
    + destruct (valid_move i Hi Hv Hm) as [[-> ?]|[-> ?]]; auto.
    + by split.
    + intros _ Hpo [Ex Ey]. cbn in Ex, Ey, Hocc. rewrite Ex, Ey, Hpo, !Z.eqb_refl in Hocc. done.
  - destruct (Z.eqb_spec (in_action i) GAME_FIRE) as [Hf|_].
    + destruct (Z.eqb_spec (ammo p) 0) as [|Hammo]; [done|]. destruct (Z.ltb_spec (w_tick w) (next_fire_tick p)); [done|].
      destruct (Z.ltb_spec (2 ^ 64 - 1 - 4) (w_tick w)); [done|]. injection E as <- <-.
      assert (Hfire : u64 (w_tick w + GAME_FIRE_TICKS) = w_tick w + 4) by (unfold u64; rules; apply Z.mod_small; lia).
      assert (Hammo' : u32 (ammo p - 1) = ammo p - 1) by (unfold u32; apply Z.mod_small; lia).
      assert (Hhits : u32 (hits p + 1) = hits p + 1) by (unfold u32; apply Z.mod_small; lia).
      destruct Ho as [B1 B2 B3 B4 B5 B6 B7 B8 B9 B10].
      subst p' other'. destruct (present other && hit _ other) eqn:Hd.
      * assert (Hhealth : health other ≠ 0 ∧ is_open other = true) by (unfold present in Hd; bools; done).
        assert (Hw : health (wounded other) = health other - 25).
        { cbn. rules. destruct (Z.ltb_spec 25 (health other)); [unfold u32; apply Z.mod_small; lia|lia]. }
        assert (Hk : (if health other <=? 25 then u32 (kills p + 1) else kills p) = if health (wounded other) =? 0 then 1 else 0).
        { rewrite Hw. destruct (Z.eqb_spec (health other) 0); [lia|]. rewrite A10.
          destruct (Z.leb_spec (health other) 25), (Z.eqb_spec (health other - 25) 0); try lia; done. }
        split_and!; [split; cbn; rules; rewrite ?Hfire, ?Hammo', ?Hhits; try lia; try done|split; cbn; rules; try lia; try done| |by split].
        -- cbn in Hw. rules. rewrite Hw. lia.
        -- intros Hp _. cbn. apply Hap; [exact Hp|]. destruct Hhealth as [Hh Hop].
           unfold present. rewrite Hop. by destruct (Z.eqb_spec (health other) 0).
      * split_and!; [split; cbn; rules; rewrite ?Hfire, ?Hammo'; try lia; try done|by split| |by split].
        intros Hp Hpo. cbn. apply Hap; done.
    + injection E as <- <-. subst p' other'. destruct Ho as [B1 B2 B3 B4 B5 B6 B7 B8 B9 B10].
      split_and!; [split; cbn; rules; try lia; done|by split|exact Hap|by split].
Qed.

(** ** The operations *)

(** A request to the match; the supervisor sets the tick directly. *)
Inductive op := Apply (slot : nat) (i : game_input_t) | Advance | Tick (t : Z) | Close (slot : nat).
Definition run_op (o : op) (w : game_world_t) : game_world_t * game_result_t :=
  match o with
  | Apply slot i => game_apply w slot i
  | Advance => game_advance w
  | Tick t => if t <? w_tick w then (w, GAME_BAD_INPUT) else (set_tick t w, GAME_OK)
  | Close slot => game_close w slot
  end.
Definition run_ops (ops : list op) (w : game_world_t) : game_world_t := foldl (λ w o, (run_op o w).1) w ops.
Definition op_wf (o : op) : Prop :=
  match o with Apply _ i => input_wf i | Tick t => 0 <= t <= UINT64_MAX | _ => True end.

Lemma refused_None w p i : refused w p i = None →
  w_match w = in_match i ∧ session p = in_session i ∧ is_open p = true ∧ health p ≠ 0 ∧
  last_sequence p < in_sequence i ∧ in_sequence i ≠ UINT32_MAX ∧ (has_input p = true → last_input_tick p ≠ w_tick w).
Proof.
  unfold refused. intros E. repeat (case_match; [done|]). bools.
  split_and!; try done; try lia. intros Hh Ht. by rewrite Hh, Ht, Z.eqb_refl in *.
Qed.
Lemma refused_error w p i r : refused w p i = Some r → r ≠ GAME_OK.
Proof. unfold refused. intros E. repeat (case_match; [by injection E as <-|]). done. Qed.
Lemma act_error w p other i r : act w p other i = inr r → r ≠ GAME_OK.
Proof. unfold act. intros E. repeat (case_match; try done); by injection E as <-. Qed.

Lemma apply_cases w slot i w' r : game_apply w slot i = (w', r) →
  (w' = w ∧ r ≠ GAME_OK) ∨
  (r = GAME_OK ∧ (slot < 2)%nat ∧ valid_input i = true ∧ refused w (player_at w slot) i = None ∧ ∃ next damage,
    act w (player_at w slot) (player_at w (1 - slot)) i = inl (next, damage) ∧
    player_at w' slot = recorded (w_tick w) (in_sequence i) next ∧
    player_at w' (1 - slot) = (if damage then wounded (player_at w (1 - slot)) else player_at w (1 - slot)) ∧
    w_match w' = w_match w ∧ w_tick w' = w_tick w).
Proof.
  unfold game_apply. intros E. destruct (_ || _) eqn:G; [injection E as <- <-; by left|].
  apply orb_false_iff in G as [Hs G]. apply Nat.leb_gt in Hs. bools.
  destruct (refused _ _ _) as [r0|] eqn:Hr; [injection E as <- <-; left; split; [done|by eapply refused_error]|].
  destruct (act _ _ _ _) as [[next damage]|r0] eqn:Ha; [|injection E as <- <-; left; split; [done|by eapply act_error]].
  injection E as <- <-. right. split_and!; try done. exists next, damage.
  assert (slot = 0 ∨ slot = 1)%nat as [-> | ->] by lia; by destruct damage.
Qed.

(** The worlds, by slot. *)
Lemma world_at w slot : world_ok w → (slot < 2)%nat →
  player_ok (w_tick w) (player_at w slot) (player_at w (1 - slot)) ∧
  player_ok (w_tick w) (player_at w (1 - slot)) (player_at w slot) ∧ apart (player_at w slot) (player_at w (1 - slot)).
Proof.
  intros [W0 W1 _ Wa _ _] Hs. assert (slot = 0 ∨ slot = 1)%nat as [-> | ->] by lia; [done|].
  split_and!; [done|done|by apply apart_sym].
Qed.
Lemma world_from w w' slot : world_ok w → (slot < 2)%nat →
  player_ok (w_tick w') (player_at w' slot) (player_at w' (1 - slot)) →
  player_ok (w_tick w') (player_at w' (1 - slot)) (player_at w' slot) → apart (player_at w' slot) (player_at w' (1 - slot)) →
  0 <= w_tick w' <= UINT64_MAX → w_match w' = w_match w →
  session (player_at w' slot) = session (player_at w slot) →
  session (player_at w' (1 - slot)) = session (player_at w (1 - slot)) → world_ok w'.
Proof.
  intros [_ _ _ _ Wl Wi] Hs H1 H2 H3 Ht Hm E1 E2.
  assert (slot = 0 ∨ slot = 1)%nat as [-> | ->] by lia; cbn in *; split; try done; try (by apply apart_sym);
    by rewrite Hm, E1, E2.
Qed.

Lemma apply_ok w slot i : world_ok w → input_wf i → world_ok (game_apply w slot i).1.
Proof.
  intros W Hi. destruct (game_apply w slot i) as [w' r] eqn:E. cbn.
  apply apply_cases in E as [[-> _]|(_ & Hs & Hv & Hr & next & damage & Ha & Hp & Ho & Hm & Ht)]; [done|].
  destruct (world_at w slot W Hs) as (H1 & H2 & H3). apply refused_None in Hr as (_ & _ & _ & _ & Hq & Hmax & _).
  pose proof (iw_sequence _ Hi). pose proof (po_sequence _ _ _ H1).
  destruct (act_ok w _ _ i next damage (in_sequence i) Ha Hi Hv (wo_tick _ W)) as (K1 & K2 & K3 & [Ks _ _]); try done.
  { rules. lia. }
  rewrite <-Ho, <-Hp in *. eapply (world_from w w' slot); rewrite ?Ht; try done; [apply W|].
  rewrite Ho. by destruct damage.
Qed.
Lemma set_tick_ok t w : world_ok w → w_tick w <= t <= UINT64_MAX → world_ok (set_tick t w).
Proof.
  intros [W0 W1 Wt Wa Wl Wi] Ht.
  assert (Hlater : ∀ p q, player_ok (w_tick w) p q → player_ok t p q).
  { intros p q [A1 A2 A3 A4 A5 A6 A7 A8 A9 A10]. split; try done; lia. }
  split; cbn; auto. lia.
Qed.
Lemma close_ok slot w : world_ok w → world_ok (game_close w slot).1.
Proof.
  intros W. unfold game_close. destruct (Nat.leb_spec 2 slot) as [|Hs]; [done|]. cbn.
  destruct (world_at w slot W Hs) as ([A1 A2 A3 A4 A5 A6 A7 A8 A9 A10] & [B1 B2 B3 B4 B5 B6 B7 B8 B9 B10] & _).
  assert (slot = 0 ∨ slot = 1)%nat as [-> | ->] by lia; cbn in *;
    (eapply (world_from w _ _ W Hs); cbn; [by split|by split|by intros ?|apply (wo_tick _ W)|done..]).
Qed.
Lemma run_op_ok o w : world_ok w → op_wf o → world_ok (run_op o w).1.
Proof.
  intros W Ho. destruct o; cbn in *.
  - by apply apply_ok.
  - unfold game_advance. destruct (Z.eqb_spec (w_tick w) UINT64_MAX); [done|]. cbn.
    apply set_tick_ok; [done|]. pose proof (wo_tick _ W). lia.
  - destruct (Z.ltb_spec t (w_tick w)); [done|]. cbn. apply set_tick_ok; [done|]. lia.
  - by apply close_ok.
Qed.
Lemma run_ops_ok ops w : world_ok w → Forall op_wf ops → world_ok (run_ops ops w).
Proof. intros W Ho. revert w W. induction Ho as [|o ops Ho _ IH]; intros w W; [done|]. apply IH. by apply run_op_ok. Qed.

(** Match and sessions are fixed. *)
Lemma run_op_ids o w : world_ok w → op_wf o →
  w_match (run_op o w).1 = w_match w ∧ session (player0 (run_op o w).1) = session (player0 w) ∧
  session (player1 (run_op o w).1) = session (player1 w).
Proof.
  intros W Ho. destruct o as [slot i| |t|slot]; cbn in *.
  - destruct (game_apply w slot i) as [w' r] eqn:E. cbn.
    apply apply_cases in E as [[-> _]|(_ & Hs & Hv & Hr & next & damage & Ha & Hp & Hother & Hm & _)]; [done|].
    destruct (world_at w slot W Hs) as (H1 & H2 & H3). apply refused_None in Hr as (_ & _ & _ & _ & Hq & Hmax & _).
    pose proof (iw_sequence _ Ho). pose proof (po_sequence _ _ _ H1).
    destruct (act_ok w _ _ i next damage (in_sequence i) Ha Ho Hv (wo_tick _ W)) as (_ & _ & _ & [Ks _ _]); try done.
    { rules. lia. }
    rewrite <-Hp in Ks. apply (f_equal session) in Hother.
    assert (session (player_at w' (1 - slot)) = session (player_at w (1 - slot))) as Ko by (rewrite Hother; by destruct damage).
    assert (slot = 0 ∨ slot = 1)%nat as [-> | ->] by lia; cbn in *; by split_and!.
  - unfold game_advance. by destruct (_ =? _).
  - by destruct (_ <? _).
  - unfold game_close. destruct (Nat.leb_spec 2 slot) as [|Hs]; [done|]. cbn.
    by assert (slot = 0 ∨ slot = 1)%nat as [-> | ->] by lia.
Qed.

Lemma run_ops_ids ops w : world_ok w → Forall op_wf ops →
  w_match (run_ops ops w) = w_match w ∧ session (player0 (run_ops ops w)) = session (player0 w) ∧
  session (player1 (run_ops ops w)) = session (player1 w).
Proof.
  intros W Ho. revert w W. induction Ho as [|o ops Ho _ IH]; intros w W; [done|].
  destruct (IH _ (run_op_ok o w W Ho)) as (I1 & I2 & I3). cbn [run_ops foldl].
  fold (run_ops ops (run_op o w).1). rewrite I1, I2, I3. by apply run_op_ids.
Qed.

Lemma init_ok m a c w : game_init m a c = Some w → len m = 16 → len a = 16 → len c = 16 → world_ok w.
Proof.
  unfold game_init. intros E Hm Ha Hc. destruct (_ || _) eqn:G; [done|]. injection E as <-. bools.
  split; cbn; try done.
  - split; cbn; rules; try lia; auto.
  - split; cbn; rules; try lia; auto.
  - by intros _ _ [? _].
Qed.

(** C14.  The rules hold whatever the inputs, their order and the clock: from the
    start of a match, both players stay in the arena; nobody has more than four
    shots or hits more often than it shot; a player's health is what the other's
    hits leave of it and a kill is counted exactly for the dead; while both players
    are alive and their sessions open, they are never in the same place; and match
    and sessions never change.  The place of a player whose session is closed is
    free, alive or not. *)
Theorem match_invariant m a c w ops :
  game_init m a c = Some w → len m = 16 → len a = 16 → len c = 16 → Forall op_wf ops →
  let w' := run_ops ops w in
  w_match w' = m ∧ session (player0 w') = a ∧ session (player1 w') = c ∧
  (∀ slot, (slot < 2)%nat →
     let p := player_at w' slot in let other := player_at w' (1 - slot) in
     -10000 <= x_mm p <= 10000 ∧ -10000 <= y_mm p <= 10000 ∧ 0 <= ammo p <= 4 ∧ 0 <= hits p <= 4 - ammo p ∧
     health other = 100 - 25 * hits p ∧ kills p = (if health other =? 0 then 1 else 0) ∧
     0 <= next_fire_tick p <= w_tick w' + 4) ∧
  (present (player0 w') = true → present (player1 w') = true →
     ¬ (x_mm (player0 w') = x_mm (player1 w') ∧ y_mm (player0 w') = y_mm (player1 w'))).
Proof.
  intros E Hm Ha Hc Ho w'. pose proof (init_ok _ _ _ _ E Hm Ha Hc) as W.
  pose proof (run_ops_ok ops w W Ho) as W'. fold w' in W'.
  pose proof (run_ops_ids ops w W Ho) as Hids. fold w' in Hids.
  destruct Hids as (I1 & I2 & I3). unfold game_init in E. destruct (_ || _) in E; [done|]. injection E as <-. cbn in I1, I2, I3.
  split_and!; try done; [|apply (wo_apart _ W')]. intros slot Hs p other.
  destruct (world_at w' slot W' Hs) as ([A1 A2 A3 A4 A5 A6 A7 A8 A9 A10] & _ & _).
  fold p other in A1, A2, A3, A4, A5, A6, A7, A8, A9, A10. rules. by split_and!; try lia.
Qed.

(** ** The accepted intents *)

Definition is_fire (i : game_input_t) : bool := in_action i =? GAME_FIRE.

(** The intents of a player the match accepted, with the tick of each. *)
Fixpoint accepted (slot : nat) (ops : list op) (w : game_world_t) : list (game_input_t * Z) :=
  match ops with
  | [] => []
  | o :: ops =>
      let rest := accepted slot ops (run_op o w).1 in
      match o with
      | Apply s i => if decide (s = slot ∧ (run_op o w).2 = GAME_OK) then (i, w_tick w) :: rest else rest
      | _ => rest
      end
  end.
Definition shots (log : list (game_input_t * Z)) : Z := len (filter (λ x, is_fire x.1 = true) log).

(** The order of two accepted intents of a player. *)
Definition spaced (x y : game_input_t * Z) : Prop :=
  in_sequence x.1 < in_sequence y.1 ∧ x.2 < y.2 ∧
  (is_fire x.1 = true → is_fire y.1 = true → x.2 + GAME_FIRE_TICKS <= y.2).

(** What a later intent must exceed. *)
Record beyond (slot : nat) (w : game_world_t) (x : game_input_t * Z) : Prop := {
  by_sequence : last_sequence (player_at w slot) < in_sequence x.1;
  by_input : has_input (player_at w slot) = true → last_input_tick (player_at w slot) < x.2;
  by_tick : w_tick w <= x.2;
  by_fire : is_fire x.1 = true → next_fire_tick (player_at w slot) <= x.2 }.

(** What an operation leaves of a player who did not act. *)
Record bystander (p p' : game_player_t) : Prop := {
  bs_sequence : last_sequence p' = last_sequence p;
  bs_input : has_input p' = has_input p;
  bs_tick : last_input_tick p' = last_input_tick p;
  bs_fire : next_fire_tick p' = next_fire_tick p;
  bs_ammo : ammo p' = ammo p }.
Lemma bystander_refl p : bystander p p. Proof. done. Qed.

Lemma beyond_bystander slot w w' x : bystander (player_at w slot) (player_at w' slot) → w_tick w <= w_tick w' →
  beyond slot w' x → beyond slot w x.
Proof. intros [B1 B2 B3 B4 _] Ht [H1 H2 H3 H4]. rewrite B1, B2, B3, B4 in *. split; try done. lia. Qed.

Lemma act_acts w p other i next damage :
  act w p other i = inl (next, damage) → valid_input i = true → 0 <= w_tick w → 0 <= ammo p <= GAME_AMMO →
  (is_fire i = true → next_fire_tick p <= w_tick w ∧ next_fire_tick next = w_tick w + GAME_FIRE_TICKS ∧ ammo next = ammo p - 1) ∧
  (is_fire i = false → next_fire_tick next = next_fire_tick p ∧ ammo next = ammo p).
Proof.
  unfold act, is_fire. intros E Hv Ht Ha. rules.
  destruct (Z.eqb_spec (in_action i) GAME_MOVE) as [Hm|_].
  - destruct (outside _); [done|]. destruct (_ && _ && _); [done|]. injection E as <- <-. by rewrite Hm.
  - destruct (Z.eqb_spec (in_action i) GAME_FIRE) as [Hf|_].
    + destruct (Z.eqb_spec (ammo p) 0); [done|]. destruct (Z.ltb_spec (w_tick w) (next_fire_tick p)); [done|].
      destruct (Z.ltb_spec (2 ^ 64 - 1 - 4) (w_tick w)); [done|]. injection E as <- <-. split; [|done]. intros _.
      split; [done|]. destruct (_ && _); cbn; unfold u64, u32; rules; rewrite !Z.mod_small by lia; done.
    + by injection E as <- <-.
Qed.

(** One operation, seen from a player: it acts, or it does not. *)
Lemma op_cases slot o w : world_ok w → op_wf o → (slot < 2)%nat →
  let w' := (run_op o w).1 in
  w_tick w <= w_tick w' ∧
  ((bystander (player_at w slot) (player_at w' slot) ∧ ∀ ops, accepted slot (o :: ops) w = accepted slot ops w') ∨
   ∃ i, o = Apply slot i ∧ (∀ ops, accepted slot (o :: ops) w = (i, w_tick w) :: accepted slot ops w') ∧
     beyond slot w (i, w_tick w) ∧ w_tick w' = w_tick w ∧
     last_sequence (player_at w' slot) = in_sequence i ∧ has_input (player_at w' slot) = true ∧
     last_input_tick (player_at w' slot) = w_tick w ∧ next_fire_tick (player_at w slot) <= next_fire_tick (player_at w' slot) ∧
     (is_fire i = true → next_fire_tick (player_at w' slot) = w_tick w + GAME_FIRE_TICKS) ∧
     ammo (player_at w' slot) = ammo (player_at w slot) - (if is_fire i then 1 else 0)).
Proof.
  intros W Ho Hs w'. destruct o as [s i| |t|s].
  - destruct (run_op (Apply s i) w) as [w1 r] eqn:E. subst w'. cbn [fst]. pose proof E as E1. cbn [run_op] in E.
    apply apply_cases in E as [[-> Hr]|(-> & Hs' & Hv & Hr & next & damage & Ha & Hp & Hother & Hm & Ht)].
    { split; [done|]. left. split; [apply bystander_refl|]. intros ops. cbn [accepted]. rewrite E1. cbn [fst snd].
      rewrite decide_False by naive_solver. done. }
    split; [lia|]. destruct (decide (s = slot)) as [->|Hne].
    + right. exists i. split; [done|]. split.
      { intros ops. cbn [accepted]. rewrite E1. cbn [fst snd]. by rewrite decide_True. }
      destruct (world_at w slot W Hs) as (H1 & _ & _). apply refused_None in Hr as (_ & _ & _ & _ & Hq & _ & Hused).
      destruct (act_acts w _ _ i next damage Ha Hv (proj1 (wo_tick _ W)) (po_ammo _ _ _ H1)) as [F1 F2].
      destruct H1 as [_ _ _ _ A5 A6 _ _ _ _]. rewrite Hp. cbn [last_sequence has_input last_input_tick next_fire_tick ammo recorded].
      split; [split; cbn [fst snd]; [done|intros Hh; specialize (Hused Hh); lia|lia|intros Hf; by apply F1]|].
      split; [done|]. split; [done|]. split; [done|]. split; [done|]. rules.
      destruct (is_fire i); [destruct F1 as (? & ? & ?); [done|]|destruct F2 as (? & ?); [done|]]; split_and!; try lia; done.
    + left. assert (slot = 1 - s)%nat as -> by lia. rewrite Hother. split; [by destruct damage|].
      intros ops. cbn [accepted]. rewrite E1. cbn [fst snd]. by rewrite decide_False by naive_solver.
  - subst w'. cbn. unfold game_advance. destruct (_ =? _); cbn; (split; [lia|]); left; by destruct slot.
  - subst w'. cbn. destruct (Z.ltb_spec t (w_tick w)); cbn; (split; [lia|]); left; by destruct slot.
  - subst w'. cbn. unfold game_close. destruct (2 <=? s)%nat; cbn; (split; [by destruct s|]); left; by destruct s, slot.
Qed.

Lemma accepted_beyond slot ops w : world_ok w → Forall op_wf ops → (slot < 2)%nat →
  Forall (beyond slot w) (accepted slot ops w).
Proof.
  intros W Ho Hs. revert w W. induction Ho as [|o ops Ho _ IH]; intros w W; [constructor|].
  specialize (IH _ (run_op_ok o w W Ho)).
  destruct (op_cases slot o w W Ho Hs) as [Ht [[B Hl]|(i & _ & Hl & B & Ht' & Hq & Hh & Hin & Hf & _)]]; rewrite Hl.
  - eapply Forall_impl; [exact IH|]. intros x. by apply beyond_bystander.
  - constructor; [done|]. eapply Forall_impl; [exact IH|]. intros x [X1 X2 X3 X4]. destruct B as [B1 B2 _ _]. cbn in B1, B2.
    split; [lia|intros H'; specialize (B2 H'); lia|lia|intros H'; specialize (X4 H'); lia].
Qed.

(** C23.  An intent counts once: the accepted intents of a player have strictly
    increasing sequence numbers, no two share a tick, its shots are at least four
    ticks apart, and its ammunition is exactly what it did not shoot, whatever is
    requested in between and in any order. *)
Theorem accepted_once m a c w ops slot :
  game_init m a c = Some w → len m = 16 → len a = 16 → len c = 16 → Forall op_wf ops → (slot < 2)%nat →
  StronglySorted spaced (accepted slot ops w) ∧
  shots (accepted slot ops w) = GAME_AMMO - ammo (player_at (run_ops ops w) slot) ∧
  shots (accepted slot ops w) <= GAME_AMMO.
Proof.
  intros E Hm Ha Hc Ho Hs. pose proof (init_ok _ _ _ _ E Hm Ha Hc) as W.
  assert (Hstart : ammo (player_at w slot) = GAME_AMMO).
  { unfold game_init in E. destruct (_ || _) in E; [done|]. injection E as <-. by destruct slot. }
  assert (Hcount : StronglySorted spaced (accepted slot ops w) ∧
    ammo (player_at (run_ops ops w) slot) = ammo (player_at w slot) - shots (accepted slot ops w)).
  { clear E Hstart. revert w W. induction Ho as [|o ops Ho Hops IH]; intros w W.
    { split; [constructor|]. change (shots (accepted slot [] w)) with 0. cbn [run_ops foldl]. lia. }
    pose proof (run_op_ok o w W Ho) as W1. specialize (IH _ W1) as [IH1 IH2]. cbn [run_ops foldl]. fold (run_ops ops (run_op o w).1).
    destruct (op_cases slot o w W Ho Hs) as [Ht [[B Hl]|(i & _ & Hl & _ & Ht' & Hq & Hh & Hin & _ & Hf & Ham)]]; rewrite Hl.
    { split; [done|]. rewrite IH2. by rewrite (bs_ammo _ _ B). }
    split.
    - constructor; [done|]. pose proof (accepted_beyond slot ops _ W1 Hops Hs) as Hb. eapply Forall_impl; [exact Hb|].
      intros x [X1 X2 X3 X4]. split; cbn [fst snd]; [lia|]. specialize (X2 Hh). split; [lia|]. intros F1 F2.
      specialize (Hf F1). specialize (X4 F2). lia.
    - rewrite IH2, Ham. unfold shots. rewrite filter_cons. cbn [fst].
      destruct (is_fire i); [rewrite decide_True by done; rewrite len_cons|rewrite decide_False by done]; lia. }
  destruct Hcount as [H1 H2]. rewrite Hstart in H2. split; [done|]. split; [lia|].
  pose proof (wo_player0 _ (run_ops_ok ops w W Ho)) as P0. pose proof (wo_player1 _ (run_ops_ok ops w W Ho)) as P1.
  pose proof (po_ammo _ _ _ P0). pose proof (po_ammo _ _ _ P1). destruct slot as [|[|]]; cbn in *; lia.
Qed.

(** ** A match, for the witnesses *)

Definition match_id : bytes := replicate 16 x0a.
Definition session_a : bytes := replicate 16 x0b.
Definition session_b : bytes := replicate 16 x0c.
Definition test_world : game_world_t := Eval vm_compute in
  match game_init match_id session_a session_b with Some w => w | None => World [] 0 (new_player [] 0 0) (new_player [] 0 0) end.
Definition asks (session : bytes) (sequence action x y : Z) : game_input_t := Input match_id session sequence action x y.
(** A shoots B, once replayed, walks towards it, and shoots again. *)
Definition test_ops : list op :=
  [Apply 0 (asks session_a 1 GAME_FIRE 0 0); Apply 0 (asks session_a 1 GAME_FIRE 0 0); Tick 3;
   Apply 0 (asks session_a 2 GAME_MOVE 2 0); Advance; Apply 0 (asks session_a 3 GAME_FIRE 0 0);
   Apply 1 (asks session_b 1 GAME_MOVE 1 0); Close 1; Advance; Apply 0 (asks session_a 4 GAME_WAIT 0 0)].
Lemma test_ops_wf : Forall op_wf test_ops.
Proof. repeat (apply Forall_cons; split); try apply Forall_nil_2; cbn; split_and?; try done; by split. Qed.

Lemma match_invariant_witness :
  let w' := run_ops test_ops test_world in
  w_match w' = match_id ∧ session (player0 w') = session_a ∧ session (player1 w') = session_b ∧
  (∀ slot, (slot < 2)%nat →
     let p := player_at w' slot in let other := player_at w' (1 - slot) in
     -10000 <= x_mm p <= 10000 ∧ -10000 <= y_mm p <= 10000 ∧ 0 <= ammo p <= 4 ∧ 0 <= hits p <= 4 - ammo p ∧
     health other = 100 - 25 * hits p ∧ kills p = (if health other =? 0 then 1 else 0) ∧
     0 <= next_fire_tick p <= w_tick w' + 4) ∧
  (present (player0 w') = true → present (player1 w') = true →
     ¬ (x_mm (player0 w') = x_mm (player1 w') ∧ y_mm (player0 w') = y_mm (player1 w'))).
Proof. apply (match_invariant match_id session_a session_b test_world test_ops); [reflexivity..|exact test_ops_wf]. Defined.

(** A player alive whose session is closed does not keep its place: A walks into B. *)
Definition walk_in : list op :=
  Close 1 :: concat ((λ k, [Apply 0 (asks session_a (Z.of_nat k) GAME_MOVE 2 0); Advance]) <$> seq 1 5).
Theorem closed_player_overlapped :
  let w := run_ops walk_in test_world in
  Forall op_wf walk_in ∧ health (player1 w) = 100 ∧ present (player1 w) = false ∧ present (player0 w) = true ∧
  x_mm (player0 w) = x_mm (player1 w) ∧ y_mm (player0 w) = y_mm (player1 w).
Proof.
  split; [|vm_compute; done]. repeat (apply Forall_cons; split); try apply Forall_nil_2; cbn; split_and?; try done; by split.
Qed.

Lemma accepted_once_witness :
  accepted 0 test_ops test_world =
    [(asks session_a 1 GAME_FIRE 0 0, 0); (asks session_a 2 GAME_MOVE 2 0, 3); (asks session_a 3 GAME_FIRE 0 0, 4);
     (asks session_a 4 GAME_WAIT 0 0, 5)] ∧
  StronglySorted spaced (accepted 0 test_ops test_world) ∧
  shots (accepted 0 test_ops test_world) = GAME_AMMO - ammo (player_at (run_ops test_ops test_world) 0) ∧
  shots (accepted 0 test_ops test_world) <= GAME_AMMO.
Proof.
  split; [vm_compute; reflexivity|].
  apply (accepted_once match_id session_a session_b test_world test_ops 0); [reflexivity..|exact test_ops_wf|lia].
Defined.
