(* ===== verification/GameHost.v ===== *)
(** * The worker of the match ([src/lab/app/game_host.c])

    The process behind [game_service.py]: the private commands on its standard
    input, each answered by a state frame on its standard output.  The random
    identifiers, the input, the signals that interrupt its reads and how many
    frames can be written are the environment. *)

From S2P Require Import Prelude Bytes GameService GameCore GameTheorems GameCoreFacts.
Import GameCore.

Module GameHost.

(** ** The state frame *)

Definition player_record (p : game_player_t) : bytes :=
  le_encode 4 (u32 (x_mm p)) ++ le_encode 4 (u32 (y_mm p)) ++
  [z2b (health p); z2b (ammo p); z2b (hits p); z2b (kills p)].
Definition open_mask (w : game_world_t) : Z :=
  Z.lor (if is_open (player0 w) then 1 else 0) (if is_open (player1 w) then Z.shiftl 1 1 else 0).
(** [reply(world, slot, sequence, status)]: the 80 bytes. *)
Definition reply (w : game_world_t) (slot : nat) (sequence : Z) (status : game_result_t) : bytes :=
  b "LGST" ++ [z2b 1; z2b (result_code status); z2b (Z.of_nat slot); z2b 1] ++
  le_encode 8 (w_tick w) ++ le_encode 4 sequence ++ w_match w ++ session (player_at w slot) ++
  player_record (player0 w) ++ player_record (player1 w) ++ [z2b (open_mask w)] ++ zeros 3.

(** ** A command *)

(** The body of the loop on the 50 bytes of a command: the new world with the
    sequence and the status of the reply, or [None] when the process exits with 1. *)
Definition execute (w : game_world_t) (command : bytes) : option (game_world_t * nat * Z * game_result_t) :=
  let op := at_ command 0 in
  let slot := Z.to_nat (at_ command 1) in
  let payload := drop 2 command in
  if (2 <=? slot)%nat then None
  else if op =? 1 then
    match game_input_decode payload with
    | Some i => let (w', status) := game_apply w slot i in Some (w', slot, in_sequence i, status)
    | None => Some (w, slot, 0, GAME_BAD_INPUT)
    end
  else if nonzero (drop (if op =? 2 then 8 else 0) payload) then None
  else if op =? 2 then
    let tick := le_decode (take 8 payload) in
    if tick <? w_tick w then None else Some (set_tick tick w, slot, 0, GAME_OK)
  else if op =? 3 then let (w', status) := game_close w slot in Some (w', slot, 0, status)
  else if op =? 4 then Some (w, slot, 0, if is_open (player_at w slot) then GAME_OK else GAME_CLOSED)
  else None.
Definition serve (w : game_world_t) (command : bytes) : option (game_world_t * bytes) :=
  '(w', slot, sequence, status) ← execute w command; Some (w', reply w' slot sequence status).

(** ** The process *)

(** How the standard input ends. *)
Inductive input_end := EndOfFile | ReadError.
#[global] Instance input_end_eq_dec : EqDecision input_end.
Proof. solve_decision. Defined.
Inductive read_status := Command (data : bytes) | Ended | ReadFailed.

(** [read_command]: [stdin] is what is left of the input; each of the [signals]
    interrupts an [fread] after that many bytes, if it has not already returned.
    The result comes with what is left of both. *)
Fixpoint read_command (ending : input_end) (signals : list nat) (data stdin : bytes) : read_status * bytes * list nat :=
  let want := (50 - length data)%nat in
  let finish signals :=
    let chunk := take want stdin in
    let data := data ++ chunk in
    (if len data =? 50 then Command data
     else match ending with
          | EndOfFile => if len data =? 0 then Ended else ReadFailed
          | ReadError => ReadFailed
          end, drop want stdin, signals) in
  match signals with
  | [] => finish []
  | n :: signals =>
      if (n <? want)%nat && (n <=? length stdin)%nat
      then read_command ending signals (data ++ take n stdin) (drop n stdin)
      else finish signals
  end.

(** The loop: the frames written and the exit code.  [room] is the number of
    frames that can be written. *)
Fixpoint loop (fuel room : nat) (w : game_world_t) (ending : input_end) (signals : list nat) (stdin : bytes) : list bytes * option Z :=
  match fuel with
  | O => ([], None)
  | S fuel =>
      match read_command ending signals [] stdin with
      | (Ended, _, _) => ([], Some 0)
      | (ReadFailed, _, _) => ([], Some 1)
      | (Command data, stdin, signals) =>
          match serve w data with
          | None => ([], Some 1)
          | Some (w, frame) =>
              match room with
              | O => ([], Some 1)
              | S room => let (frames, code) := loop fuel room w ending signals stdin in (frame :: frames, code)
              end
          end
      end
  end.

(** [main], given what [lab_random_bytes] gives for the three identifiers. *)
Definition main (argc : Z) (match_id a c : option bytes) (room : nat)
    (ending : input_end) (signals : list nat) (stdin : bytes) : list bytes * option Z :=
  if negb (argc =? 1) then ([], Some 2)
  else
    match match_id, a, c with
    | Some match_id, Some a, Some c =>
        match game_init match_id a c with
        | None => ([], Some 1)
        | Some w =>
            let hello := [reply w 0 0 GAME_OK; reply w 1 0 GAME_OK] in
            if (room <? 2)%nat then (take room hello, Some 1)
            else let (frames, code) := loop (S (length stdin)) (room - 2) w ending signals stdin in (hello ++ frames, code)
        end
    | _, _, _ => ([], Some 1)
    end.

End GameHost.

(** * The worker against the service and its clients

    What the frames of [GameHost] mean for the codec of [game_service.py], and
    what the commands of that codec mean for the worker. *)

Import GameCore.
Abbreviation state := GameService.state.

(** ** The frame of a world *)

(** A player and a world, as [game_service.state] reports them. *)
Definition player_view (p : game_player_t) : GameService.player :=
  GameService.Player (x_mm p) (y_mm p) (health p) (ammo p) (hits p) (kills p) (is_open p).
Definition world_view (w : game_world_t) (slot : nat) (sequence : Z) (r : game_result_t) : GameService.snapshot :=
  GameService.Snapshot (w_tick w) sequence (Z.of_nat slot) (game_result_name r) [player_view (player0 w); player_view (player1 w)].

Lemma length_16 (l : bytes) : len l = 16 → length l = 16%nat.
Proof. unfold len. lia. Qed.
Lemma ids_len w slot : world_ok w → len (w_match w) = 16 ∧ len (session (player_at w slot)) = 16.
Proof. intros [_ _ _ _ (? & ? & ?) _]. by destruct slot. Qed.
Lemma reply_length w slot sequence r : world_ok w → len (GameHost.reply w slot sequence r) = 80.
Proof.
  intros W. destruct (ids_len w slot W) as [Hm Hs]. unfold GameHost.reply. rewrite !len_app, Hm, Hs.
  rewrite !len_le_encode. done.
Qed.

Lemma signed_u32 z : - 2 ^ 31 <= z < 2 ^ 31 → le_decode_signed (le_encode 4 (u32 z)) = z.
Proof.
  intros Hz. unfold le_decode_signed. rewrite le_decode_encode, len_le_encode. unfold u32.
  change (256 ^ Z.of_nat 4) with 4294967296. change (2 ^ 32) with 4294967296. change (2 ^ 31) with 2147483648 in Hz.
  change (4294967296 / 2) with 2147483648. rewrite Zmod_mod.
  destruct (Z.lt_ge_cases z 0).
  - replace (z mod 4294967296) with (z + 4294967296) by (apply Z.mod_unique with (-1); lia).
    destruct (Z.ltb_spec (z + 4294967296) 2147483648); lia.
  - rewrite Z.mod_small by lia. destruct (Z.ltb_spec z 2147483648); lia.
Qed.

(** A 16-byte identifier, byte by byte. *)
Ltac sixteen l H := apply length_16 in H; do 16 (destruct l as [|? l]; [discriminate H|]); destruct l; [|discriminate H].

Lemma result_code_range r : 0 <= result_code r < 14.
Proof. destruct r; cbn; lia. Qed.
Lemma result_name_code r : nth (Z.to_nat (result_code r)) GameService.RESULTS EmptyString = game_result_name r.
Proof. by destruct r. Qed.

(** The fields of a frame. *)
Record frame_fields (w : game_world_t) (slot : nat) (sequence : Z) (r : game_result_t) (data : bytes) : Prop := {
  ff_header : take 5 data = b "LGST" ++ [z2b 1];
  ff_status : at_ data 5 = result_code r;
  ff_slot : at_ data 6 = Z.of_nat slot;
  ff_profile : at_ data 7 = 1;
  ff_tick : slice data 8 16 = le_encode 8 (w_tick w);
  ff_sequence : slice data 16 20 = le_encode 4 sequence;
  ff_match : slice data 20 36 = w_match w;
  ff_session : slice data 36 52 = session (player_at w slot);
  ff_player0 : GameService.read_player data 0 = player_view (player0 w);
  ff_player1 : GameService.read_player data 1 = player_view (player1 w);
  ff_mask : at_ data 76 <= 3;
  ff_zeros : drop 77 data = zeros 3 }.

Lemma player_bytes tick p other : player_ok tick p other → player_ok tick other p →
  le_decode_signed (le_encode 4 (u32 (x_mm p))) = x_mm p ∧ le_decode_signed (le_encode 4 (u32 (y_mm p))) = y_mm p ∧
  b2z (z2b (health p)) = health p ∧ b2z (z2b (ammo p)) = ammo p ∧ b2z (z2b (hits p)) = hits p ∧ b2z (z2b (kills p)) = kills p.
Proof.
  intros [A1 A2 _ _ _ _ A7 A8 A9 A10] [_ _ _ _ _ _ B7 B8 B9 _]. rules.
  assert (0 <= kills p < 256) by (rewrite A10; case_match; lia).
  split_and!; try (apply signed_u32; lia); by apply b2z_z2b_small; try lia.
Qed.

Lemma reply_fields w slot sequence r : world_ok w → (slot < 2)%nat →
  frame_fields w slot sequence r (GameHost.reply w slot sequence r).
Proof.
  intros W Hs. destruct (ids_len w slot W) as [Hm Hse].
  destruct (player_bytes _ _ _ (wo_player0 _ W) (wo_player1 _ W)) as (X0 & Y0 & H0 & A0 & I0 & K0).
  destruct (player_bytes _ _ _ (wo_player1 _ W) (wo_player0 _ W)) as (X1 & Y1 & H1 & A1 & I1 & K1).
  assert (Hmask : b2z (z2b (GameHost.open_mask w)) = GameHost.open_mask w ∧ GameHost.open_mask w <= 3 ∧
    Z.testbit (GameHost.open_mask w) 0 = is_open (player0 w) ∧ Z.testbit (GameHost.open_mask w) 1 = is_open (player1 w))
    by (unfold GameHost.open_mask; destruct (is_open (player0 w)), (is_open (player1 w)); done).
  destruct Hmask as (M1 & M2 & M3 & M4). pose proof (result_code_range r).
  unfold GameHost.reply, GameHost.player_record, player_view. set (mask := GameHost.open_mask w) in *. clearbody mask.
  remember (w_match w) as mt eqn:Em. remember (session (player_at w slot)) as se eqn:Es.
  sixteen mt Hm. sixteen se Hse.
  split.
  - reflexivity.
  - change (b2z (z2b (result_code r)) = result_code r). apply b2z_z2b_small. lia.
  - change (b2z (z2b (Z.of_nat slot)) = Z.of_nat slot). apply b2z_z2b_small. lia.
  - reflexivity.
  - reflexivity.
  - reflexivity.
  - etrans; [|exact Em]. reflexivity.
  - etrans; [|exact Es]. reflexivity.
  - change (GameService.Player (le_decode_signed (le_encode 4 (u32 (x_mm (player0 w))))) (le_decode_signed (le_encode 4 (u32 (y_mm (player0 w)))))
      (b2z (z2b (health (player0 w)))) (b2z (z2b (ammo (player0 w)))) (b2z (z2b (hits (player0 w)))) (b2z (z2b (kills (player0 w))))
      (Z.testbit (b2z (z2b mask)) 0) = player_view (player0 w)). by rewrite X0, Y0, H0, A0, I0, K0, M1, M3.
  - change (GameService.Player (le_decode_signed (le_encode 4 (u32 (x_mm (player1 w))))) (le_decode_signed (le_encode 4 (u32 (y_mm (player1 w)))))
      (b2z (z2b (health (player1 w)))) (b2z (z2b (ammo (player1 w)))) (b2z (z2b (hits (player1 w)))) (b2z (z2b (kills (player1 w))))
      (Z.testbit (b2z (z2b mask)) 1) = player_view (player1 w)). by rewrite X1, Y1, H1, A1, I1, K1, M1, M4.
  - change (b2z (z2b mask) <= 3). lia.
  - reflexivity.
Qed.

Lemma view_in_range tick p other : player_ok tick p other → player_ok tick other p → GameService.in_range (player_view p) = true.
Proof.
  intros [A1 A2 _ _ _ _ A7 A8 A9 A10] [_ _ _ _ _ _ B7 B8 B9 _]. unfold GameService.in_range, player_view. cbn. rules.
  assert (0 <= kills p <= 1) by (rewrite A10; case_match; lia).
  rewrite !andb_true_iff, !Z.leb_le. lia.
Qed.

(** The service reads a frame of the worker as the world it was written from. *)
Lemma reply_state w slot sequence r : world_ok w → (slot < 2)%nat → 0 <= sequence < 2 ^ 32 →
  state (GameHost.reply w slot sequence r) = Ok (world_view w slot sequence r).
Proof.
  intros W Hs Hq. pose proof (reply_length w slot sequence r W) as Hlen.
  destruct (reply_fields w slot sequence r W Hs) as [F1 F2 F3 F4 F5 F6 F7 F8 F9 F10 F11 F12].
  set (data := GameHost.reply w slot sequence r) in *. clearbody data. pose proof (result_code_range r).
  unfold state, GameService.state, GameService.error_of. rewrite Hlen. cbn [andb Z.eqb Pos.eqb].
  assert (GameService.schema_ok data = true) as ->.
  { unfold GameService.schema_ok. rewrite Hlen, F1, F2, F3, F4, F12, (bool_decide_eq_true_2 (_ = _)) by done.
    change (Z.of_nat (length GameService.RESULTS)) with 14. rewrite !andb_true_iff, !Z.leb_le, Z.ltb_lt. split_and!; try done; lia. }
  destruct (wo_ids _ W) as (I1 & I2 & I3 & _). rewrite nonzero_some_set in I1, I2, I3.
  assert (GameService.some_set (session (player_at w slot)) = true) as I4 by (destruct slot; done).
  rewrite F7, F8, I1, I4, F9, F10, F2, F3, F5, F6, (view_in_range _ _ _ (wo_player0 _ W) (wo_player1 _ W)),
    (view_in_range _ _ _ (wo_player1 _ W) (wo_player0 _ W)). cbn [negb orb raise_if mbind result_bind].
  rewrite result_name_code, !le_decode_encode. pose proof (wo_tick _ W). rules. rewrite !Z.mod_small by (cbn; lia). done.
Qed.
Lemma reply_accepted w slot sequence r : world_ok w → (slot < 2)%nat → 0 <= sequence < 2 ^ 32 →
  GameService.reply_check slot (GameHost.reply w slot sequence r) = Ok (GameHost.reply w slot sequence r).
Proof. intros W Hs Hq. unfold GameService.reply_check. rewrite reply_state by done. cbn. by rewrite Z.eqb_refl. Qed.

(** The greeting of the worker passes the checks of [start]. *)
Lemma hello_accepted w : world_ok w →
  GameService.check_hello (GameHost.reply w 0 0 GAME_OK ++ GameHost.reply w 1 0 GAME_OK) = Ok tt.
Proof.
  intros W. pose proof (reply_length w 0 0 GAME_OK W) as L0. pose proof (reply_length w 1 0 GAME_OK W) as L1.
  pose proof (reply_state w 0 0 GAME_OK W ltac:(lia) ltac:(lia)) as S0.
  pose proof (reply_state w 1 0 GAME_OK W ltac:(lia) ltac:(lia)) as S1.
  destruct (reply_fields w 0 0 GAME_OK W ltac:(lia)) as [_ _ _ _ _ _ M0 E0 _ _ _ _].
  destruct (reply_fields w 1 0 GAME_OK W ltac:(lia)) as [_ _ _ _ _ _ M1 E1 _ _ _ _].
  set (d0 := GameHost.reply w 0 0 GAME_OK) in *. set (d1 := GameHost.reply w 1 0 GAME_OK) in *. clearbody d0 d1.
  assert (N0 : length d0 = 80%nat) by (unfold len in L0; lia).
  assert (take 80 (d0 ++ d1) = d0 ∧ drop 80 (d0 ++ d1) = d1) as [Ht Hd]
    by (split; [by apply take_app_length'|by apply drop_app_length']).
  unfold GameService.check_hello. rewrite Ht, Hd. clear Ht Hd.
  change GameService.state with state. rewrite S0, S1. cbn [mbind result_bind].
  assert (Hin : ∀ i j, (j <= 80)%nat → slice (d0 ++ d1) i j = slice d0 i j).
  { intros i j Hj. unfold slice. destruct (Nat.le_gt_cases j i).
    - replace (j - i)%nat with 0%nat by lia. done.
    - rewrite drop_app_le by lia. by rewrite take_app_le by (rewrite length_drop; lia). }
  rewrite (Hin 20%nat 36%nat), (Hin 36%nat 52%nat) by lia.
  rewrite (slice_skip d0 d1 100 116 80), (slice_skip d0 d1 116 132 80) by lia.
  change (100 - 80)%nat with 20%nat. change (116 - 80)%nat with 36%nat. change (132 - 80)%nat with 52%nat.
  rewrite M0, M1, E0, E1. destruct (wo_ids _ W) as (_ & _ & _ & Hne). cbn in Hne |- *.
  rewrite (bool_decide_eq_true_2 (w_match w = _)) by done. by rewrite (bool_decide_eq_false_2 (session (player0 w) = _)) by done.
Qed.

(** ** The commands *)

Lemma serve_some w command w' frame : GameHost.serve w command = Some (w', frame) →
  ∃ slot sequence r, GameHost.execute w command = Some (w', slot, sequence, r) ∧ frame = GameHost.reply w' slot sequence r.
Proof.
  unfold GameHost.serve. destruct (GameHost.execute w command) as [[[[w1 slot] sequence] r]|]; [|done]. cbn.
  intros [= <- <-]. by exists slot, sequence, r.
Qed.

(** A command that is answered is an operation of the match, or nothing. *)
Lemma execute_rules w command w' slot sequence r :
  GameHost.execute w command = Some (w', slot, sequence, r) →
  (slot < 2)%nat ∧ 0 <= sequence < 2 ^ 32 ∧ ∃ ops, Forall op_wf ops ∧ w' = run_ops ops w.
Proof.
  unfold GameHost.execute. intros E. destruct (Nat.leb_spec 2 (Z.to_nat (at_ command 1))) as [|Hs]; [done|].
  assert (Hnone : ∃ ops, Forall op_wf ops ∧ w = run_ops ops w) by (by exists []).
  destruct (at_ command 0 =? 1).
  - destruct (game_input_decode _) as [i|] eqn:Hd.
    + apply decoded_wf in Hd as (Hi & _). destruct (game_apply _ _ _) as [w1 r1] eqn:Ha. injection E as <- <- <- <-.
      split; [done|]. split; [apply Hi|]. exists [Apply (Z.to_nat (at_ command 1)) i]. split; [by apply Forall_singleton|].
      cbn. by rewrite Ha.
    + injection E as <- <- <- <-. by split_and!.
  - destruct (nonzero _); [done|]. destruct (at_ command 0 =? 2).
    + destruct (Z.ltb_spec (le_decode (take 8 (drop 2 command))) (w_tick w)) as [|Ht]; [done|]. injection E as <- <- <- <-.
      split_and!; try done. exists [Tick (le_decode (take 8 (drop 2 command)))]. split.
      * apply Forall_singleton. cbn. pose proof (le_decode_bound (take 8 (drop 2 command))) as Hb. unfold UINT64_MAX.
        assert (len (take 8 (drop 2 command)) <= 8) as Hl by (unfold len; rewrite length_take; lia).
        apply (Z.pow_le_mono_r 256) in Hl; [|lia]. change (256 ^ 8) with (2 ^ 64) in Hl. lia.
      * cbn. destruct (Z.ltb_spec (le_decode (take 8 (drop 2 command))) (w_tick w)); [lia|done].
    + destruct (at_ command 0 =? 3).
      * destruct (game_close _ _) as [w1 r1] eqn:Hc. injection E as <- <- <- <-. split_and!; try done.
        exists [Close (Z.to_nat (at_ command 1))]. split; [by apply Forall_singleton|]. cbn. by rewrite Hc.
      * destruct (at_ command 0 =? 4); [|done]. injection E as <- <- <- <-. by split_and!.
Qed.
Lemma run_ops_app ops1 ops2 w : run_ops (ops1 ++ ops2) w = run_ops ops2 (run_ops ops1 w).
Proof. unfold run_ops. apply foldl_app. Qed.

(** ** The process against its specification *)

(** A sequence of commands, served one by one: the frames, and the world unless
    the process has exited. *)
Fixpoint serve_all (w : game_world_t) (commands : list bytes) : list bytes * option game_world_t :=
  match commands with
  | [] => ([], Some w)
  | command :: commands =>
      match GameHost.serve w command with
      | None => ([], None)
      | Some (w, frame) => let (frames, o) := serve_all w commands in (frame :: frames, o)
      end
  end.

Lemma read_command_whole ending signals data stdin :
  (length data < 50)%nat → ∃ signals',
  GameHost.read_command ending signals data stdin =
    (if (50 <=? length (data ++ stdin))%nat then GameHost.Command (take 50 (data ++ stdin))
     else match ending with
          | GameHost.EndOfFile => if len (data ++ stdin) =? 0 then GameHost.Ended else GameHost.ReadFailed
          | GameHost.ReadError => GameHost.ReadFailed
          end, drop (50 - length data) stdin, signals').
Proof.
  assert (Hfin : ∀ (data stdin : bytes) (signals' : list nat), (length data < 50)%nat →
    let chunk := take (50 - length data) stdin in
    (if len (data ++ chunk) =? 50 then GameHost.Command (data ++ chunk)
     else match ending with
          | GameHost.EndOfFile => if len (data ++ chunk) =? 0 then GameHost.Ended else GameHost.ReadFailed
          | GameHost.ReadError => GameHost.ReadFailed
          end, drop (50 - length data) stdin, signals') =
    (if (50 <=? length (data ++ stdin))%nat then GameHost.Command (take 50 (data ++ stdin))
     else match ending with
          | GameHost.EndOfFile => if len (data ++ stdin) =? 0 then GameHost.Ended else GameHost.ReadFailed
          | GameHost.ReadError => GameHost.ReadFailed
          end, drop (50 - length data) stdin, signals')).
  { clear. intros data stdin signals' Hd chunk. subst chunk. f_equal. f_equal. rewrite take_app_ge by lia.
    unfold len. rewrite !length_app, length_take.
    destruct (Nat.leb_spec 50 (length data + length stdin)).
    - rewrite Nat.min_l by lia. replace (length data + (50 - length data))%nat with 50%nat by lia. done.
    - rewrite Nat.min_r by lia. destruct (Z.eqb_spec (Z.of_nat (length data + length stdin)) 50); [lia|done]. }
  revert data stdin. induction signals as [|n signals IH]; intros data stdin Hd; cbn [GameHost.read_command].
  { exists []. by apply Hfin. }
  destruct ((n <? 50 - length data)%nat && (n <=? length stdin)%nat) eqn:Hn; [|exists signals; by apply Hfin].
  apply andb_true_iff in Hn as [H1%Nat.ltb_lt H2%Nat.leb_le].
  assert (length (take n stdin) = n) as Hl by (rewrite length_take; lia).
  destruct (IH (data ++ take n stdin) (drop n stdin)) as [signals' ->]; [rewrite length_app; lia|]. exists signals'.
  rewrite (length_app data (take n stdin)), Hl, <-!app_assoc, !take_drop, drop_drop. replace (n + (50 - (length data + n)))%nat with (50 - length data)%nat by lia. done.
Qed.

Lemma loop_serves fuel room w ending signals commands rest :
  Forall (λ c, length c = 50%nat) commands → (length rest < 50)%nat →
  (length commands < fuel)%nat → (length commands <= room)%nat →
  GameHost.loop fuel room w ending signals (concat commands ++ rest) =
    ((serve_all w commands).1,
     Some (if bool_decide (rest = [] ∧ ending = GameHost.EndOfFile ∧ is_Some (serve_all w commands).2) then 0 else 1)).
Proof.
  intros Hc Hr. revert fuel room w signals. induction Hc as [|c cs Hc Hcs IH]; intros [|fuel] room w signals Hf Hroom; cbn in Hf; try lia.
  - cbn [concat app GameHost.loop serve_all fst snd].
    destruct (read_command_whole ending signals [] rest) as [s' ->]; [cbn; lia|]. cbn [app].
    destruct (Nat.leb_spec 50 (length rest)); [lia|]. unfold len.
    destruct rest as [|x rest]; destruct ending; cbn [length Z.of_nat Z.eqb];
      repeat first [rewrite bool_decide_eq_true_2 by (split_and!; done || by eexists)|rewrite bool_decide_eq_false_2 by naive_solver]; done.
  - cbn [concat GameHost.loop serve_all]. rewrite <-app_assoc.
    destruct (read_command_whole ending signals [] (c ++ concat cs ++ rest)) as [s' ->]; [cbn; lia|]. cbn [app length].
    rewrite length_app, Hc. destruct (Nat.leb_spec 50 (50 + length (concat cs ++ rest))); [|lia].
    rewrite take_app_length' by done. change (50 - 0)%nat with 50%nat. rewrite drop_app_length' by done.
    destruct (GameHost.serve w c) as [[w1 frame]|].
    2:{ cbn [fst snd]. rewrite bool_decide_eq_false_2; [done|]. by intros (_ & _ & [? ?]). }
    destruct room as [|room]; [cbn in Hroom; lia|]. rewrite IH by (cbn in Hroom; lia). by destruct (serve_all w1 cs).
Qed.

(** C26.  The worker is its specification: however its reads are cut by signals, a
    process that starts greets with both slots, answers each complete command in
    order by one frame of the world the rules reach, and exits; with 0 exactly
    when the input ended between two commands and it accepted all of them. *)
Theorem worker_serves m a c w room ending signals commands rest :
  game_init m a c = Some w → Forall (λ c, length c = 50%nat) commands → (length rest < 50)%nat →
  (2 + length commands <= room)%nat →
  GameHost.main 1 (Some m) (Some a) (Some c) room ending signals (concat commands ++ rest) =
    (GameHost.reply w 0 0 GAME_OK :: GameHost.reply w 1 0 GAME_OK :: (serve_all w commands).1,
     Some (if bool_decide (rest = [] ∧ ending = GameHost.EndOfFile ∧ is_Some (serve_all w commands).2) then 0 else 1)).
Proof.
  intros E Hc Hr Hroom. unfold GameHost.main. cbn [Z.eqb Pos.eqb negb]. rewrite E.
  destruct (Nat.ltb_spec room 2); [lia|]. rewrite loop_serves; try done; [|lia].
  assert (length commands <= length (concat commands))%nat; [|rewrite length_app; lia].
  clear -Hc. induction Hc as [|c cs Hc _ IH]; [done|]. cbn [concat length]. rewrite length_app. lia.
Qed.

(** ** A player's intent *)

Lemma slice_split {A} (l : list A) i j k : (i <= j)%nat → (j <= k)%nat → slice l i k = slice l i j ++ slice l j k.
Proof.
  intros Hi Hj. unfold slice. rewrite <-(take_drop (j - i) (take (k - i) (drop i l))). f_equal.
  - rewrite take_take. f_equal. lia.
  - rewrite skipn_firstn_comm, drop_drop. f_equal; [lia|f_equal; lia].
Qed.

(** What a player asks is what the worker is asked: the input a client builds
    from the state of its slot is decoded by the worker as that action of that
    player in that match with that sequence number; in every later world of the
    match it is accepted or refused by the rules of the game, never as malformed,
    of another match, of another player or out of sequence numbers. *)
Theorem intent_understood w slot sequence0 r0 sequence action payload :
  world_ok w → (slot < 2)%nat → 0 <= sequence0 < 2 ^ 32 →
  GameService.command (GameHost.reply w slot sequence0 r0) sequence action = Ok payload →
  ∃ i, game_input_decode payload = Some i ∧ input_wf i ∧
    in_match i = w_match w ∧ in_session i = session (player_at w slot) ∧ in_sequence i = sequence ∧
    Some (in_action i, axis_x i, axis_y i) = GameService.direction action ∧
    ∀ ops, Forall op_wf ops →
      (game_apply (run_ops ops w) slot i).2 ∉ [GAME_BAD_INPUT; GAME_WRONG_MATCH; GAME_WRONG_SESSION; GAME_SEQUENCE_EXHAUSTED].
Proof.
  intros W Hs Hq0 E. destruct (reply_fields w slot sequence0 r0 W Hs) as [_ _ _ _ _ _ Fm Fs _ _ _ _].
  unfold GameService.command in E. change GameService.state with state in E. rewrite reply_state in E by done.
  cbn [mbind result_bind] in E. rewrite (slice_split _ 20 36 52), Fm, Fs in E by lia.
  destruct (ids_len w slot W) as [Hm Hse]. destruct (wo_ids _ W) as (N1 & N2 & N3 & _).
  assert (N4 : nonzero (session (player_at w slot)) = true) by (by destruct slot).
  destruct (GameService.direction action) as [[[kind x] y]|] eqn:Hd; [|done].
  apply result_bind_Ok in E as (? & G & [= <-]). apply raise_if_Ok in G. apply negb_false_iff, andb_true_iff in G as [G1%Z.ltb_lt G2%Z.ltb_lt].
  set (i := Input (w_match w) (session (player_at w slot)) sequence kind x y).
  assert (Hdir : 0 <= kind < 256 ∧ 0 <= x < 256 ∧ 0 <= y < 256 ∧ valid_input i = true).
  { unfold valid_input, i. cbn [in_match in_session in_sequence in_action axis_x axis_y]. rewrite N1, N4.
    destruct (Z.eqb_spec sequence 0); [lia|]. unfold GameService.direction in Hd.
    repeat (case_decide; [injection Hd as <- <- <-; by split_and!|]). done. }
  destruct Hdir as (K1 & K2 & K3 & Hv).
  assert (Hi : input_wf i) by (split; cbn; done || lia).
  exists i. split_and!; try done.
  - destruct (input_roundtrip i Hi Hv) as (data & He & _ & Hdec). unfold game_input_encode in He. rewrite Hv in He.
    injection He as <-. cbn [in_match in_session in_sequence in_action axis_x axis_y i] in Hdec.
    rewrite <-app_assoc. exact Hdec.
  - intros ops Ho. destruct (run_ops_ids ops w W Ho) as (J1 & J2 & J3). set (w' := run_ops ops w) in *.
    assert (J4 : session (player_at w' slot) = session (player_at w slot)) by (by destruct slot).
    unfold game_apply. rewrite Hv. destruct (Nat.leb_spec 2 slot); [lia|]. cbn [orb negb].
    destruct (refused w' (player_at w' slot) i) as [r|] eqn:Hr.
    + unfold refused in Hr. cbn [in_match in_session in_sequence i] in Hr.
      rewrite J1, J4, !(bool_decide_eq_true_2 (_ = _)) in Hr by done. cbn [negb] in Hr. unfold UINT32_MAX in Hr.
      destruct (Z.eqb_spec sequence (2 ^ 32 - 1)); [lia|].
      repeat (case_match; [injection Hr as <-; cbn; set_solver|]). done.
    + destruct (act w' (player_at w' slot) (player_at w' (1 - slot)) i) as [[next damage]|r] eqn:Ha; [cbn; set_solver|].
      cbn. unfold act in Ha. repeat (case_match; try done); injection Ha as <-; set_solver.
Qed.

(** ** Witnesses *)

Definition fire_bytes : bytes := Eval vm_compute in
  match game_input_encode (asks session_a 1 GAME_FIRE 0 0) with Some d => d | None => [] end.
Definition test_commands : list bytes := Eval vm_compute in
  [[x02; x00] ++ le_encode 8 5 ++ zeros 40; [x01; x00] ++ fire_bytes; [x03; x01] ++ zeros 48].

(** Three commands, read through two signals, and a partial fourth. *)
Lemma worker_serves_witness :
  GameHost.main 1 (Some match_id) (Some session_a) (Some session_b) 5 GameHost.EndOfFile [7; 49]%nat (concat test_commands ++ [x04]) =
    (GameHost.reply test_world 0 0 GAME_OK :: GameHost.reply test_world 1 0 GAME_OK :: (serve_all test_world test_commands).1,
     Some (if bool_decide ([x04] = [] ∧ GameHost.EndOfFile = GameHost.EndOfFile ∧ is_Some (serve_all test_world test_commands).2) then 0 else 1)).
Proof.
  apply (worker_serves match_id session_a session_b test_world 5 GameHost.EndOfFile [7; 49]%nat test_commands [x04]); try reflexivity.
  - repeat (apply Forall_cons; split; [reflexivity|]). apply Forall_nil_2.
  - cbn. lia.
Defined.

Lemma test_world_ok : world_ok test_world.
Proof. by apply (init_ok match_id session_a session_b). Qed.
Definition fire_command : bytes := Eval vm_compute in
  match GameService.command (GameHost.reply test_world 0 0 GAME_OK) 1 "fire" with Ok d => d | Raise _ => [] end.
Lemma intent_understood_witness :
  ∃ i, game_input_decode fire_command = Some i ∧ input_wf i ∧
    in_match i = w_match test_world ∧ in_session i = session (player_at test_world 0) ∧ in_sequence i = 1 ∧
    Some (in_action i, axis_x i, axis_y i) = GameService.direction "fire" ∧
    ∀ ops, Forall op_wf ops →
      (game_apply (run_ops ops test_world) 0 i).2 ∉ [GAME_BAD_INPUT; GAME_WRONG_MATCH; GAME_WRONG_SESSION; GAME_SEQUENCE_EXHAUSTED].
Proof.
  apply (intent_understood test_world 0 0 GAME_OK 1 "fire" fire_command); [exact test_world_ok|lia|lia|].
  vm_compute. reflexivity.
Defined.
