(* ===== verification/GameAuthority.v ===== *)
(** * The match behind the service

    [GameService] with the worker of [GameHost] at the other end of its pipes:
    what the players are sent are worlds the rules reach, and the service never
    has to give its worker up on account of the match. *)

From S2P Require Import Prelude Bytes Sha256 GameService GameRun GameFacts GameTheorems GameClient GameSession.
From S2P Require Import GameCore GameCoreFacts GameHost.
Import GameService.
Abbreviation game_world_t := GameCore.game_world_t.

(** The bytes of a command on the worker's input. *)
Definition command_of (e : worker_event) : option bytes :=
  match e with Wrote _ op slot payload => Some ([z2b op; z2b (Z.of_nat slot)] ++ payload) | Answered _ _ _ => None end.
Definition commands (l : list worker_event) : list bytes := omap command_of l.
(** The frame the worker has for the last command. *)
Definition answer (w0 : game_world_t) (l : list worker_event) : option bytes :=
  match serve_all w0 (commands l) with (frames, Some _) => last frames | _ => None end.

(** ** Serving more commands *)

Lemma serve_all_app w cs ds :
  serve_all w (cs ++ ds) =
    match serve_all w cs with
    | (frames, Some w') => let (more, o) := serve_all w' ds in (frames ++ more, o)
    | (frames, None) => (frames, None)
    end.
Proof.
  revert w. induction cs as [|c cs IH]; intros w; cbn [app serve_all].
  - by destruct (serve_all w ds).
  - destruct (GameHost.serve w c) as [[w1 frame]|]; [|done]. rewrite IH.
    destruct (serve_all w1 cs) as [frames [w2|]]; [|done]. by destruct (serve_all w2 ds).
Qed.
Lemma commands_app l k : commands (l ++ k) = commands l ++ commands k.
Proof. apply omap_app. Qed.

Lemma serve_rules w c w' frame : world_ok w → GameHost.serve w c = Some (w', frame) →
  ∃ ops slot sequence r, Forall op_wf ops ∧ w' = run_ops ops w ∧ (slot < 2)%nat ∧ 0 <= sequence < 2 ^ 32 ∧
    frame = GameHost.reply w' slot sequence r.
Proof.
  intros W (slot & sequence & r & He & Hf)%serve_some. apply execute_rules in He as (Hs & Hq & ops & Ho & Hw).
  by exists ops, slot, sequence, r.
Qed.

(** Every frame of the worker is a world of the match. *)
Definition of_the_match (w0 : game_world_t) (data : bytes) : Prop :=
  ∃ ops slot sequence r, Forall op_wf ops ∧ (slot < 2)%nat ∧ 0 <= sequence < 2 ^ 32 ∧
    data = GameHost.reply (run_ops ops w0) slot sequence r.
Lemma serve_all_rules w cs : world_ok w →
  Forall (of_the_match w) (serve_all w cs).1 ∧
  ∀ w', (serve_all w cs).2 = Some w' → ∃ ops, Forall op_wf ops ∧ w' = run_ops ops w.
Proof.
  revert w. induction cs as [|c cs IH]; intros w W; cbn [serve_all].
  { split; [constructor|]. intros w' [= <-]. by exists []. }
  destruct (GameHost.serve w c) as [[w1 frame]|] eqn:E; [|by split; [constructor|]].
  destruct (serve_rules w c w1 frame W E) as (ops & slot & q & r & Ho & Hw & Hs & Hq & Hf).
  assert (W1 : world_ok w1) by (rewrite Hw; by apply run_ops_ok). destruct (IH w1 W1) as [IH1 IH2].
  destruct (serve_all w1 cs) as [frames o]. cbn [fst snd] in *. split.
  - constructor; [exists ops, slot, q, r; by rewrite <-Hw|]. eapply Forall_impl; [exact IH1|].
    intros d (ops' & slot' & q' & r' & ? & ? & ? & ->). exists (ops ++ ops'), slot', q', r'. rewrite run_ops_app, <-Hw.
    split_and!; try done; try lia. by apply Forall_app.
  - intros w' Hw'. destruct (IH2 w' Hw') as (ops' & ? & ->). exists (ops ++ ops').
    rewrite run_ops_app, <-Hw. split; [by apply Forall_app|done].
Qed.

(** ** What the players are sent *)

(** The answers of a run are the worker's; it may also fail to answer. *)
Fixpoint played_by (w0 : game_world_t) (acts : list action) (s : sys) : Prop :=
  match acts with
  | [] => True
  | act :: acts => (∀ data, brings act data → answer w0 (pipe (s_svc s)) = Some data) ∧ played_by w0 acts (step act s)
  end.

Definition answered_by (w0 : game_world_t) (l : list worker_event) : Prop :=
  ∀ i slot data, Answered i slot (Ok data) ∈ l → data ∈ (serve_all w0 (commands l)).1.
Lemma frames_more w0 l k data : data ∈ (serve_all w0 (commands l)).1 → data ∈ (serve_all w0 (commands (l ++ k))).1.
Proof.
  intros Hd. rewrite commands_app, serve_all_app. destruct (serve_all w0 (commands l)) as [frames [w'|]]; [|done].
  destruct (serve_all w' _). apply elem_of_app. by left.
Qed.
Lemma answer_frame w0 l data : answer w0 l = Some data → data ∈ (serve_all w0 (commands l)).1.
Proof.
  unfold answer. destruct (serve_all _ _) as [frames [w'|]]; [|done]. cbn. intros Hl.
  apply last_Some in Hl as [k ->]. apply elem_of_app. right. by apply list_elem_of_singleton.
Qed.
Lemma run_answered_by w0 acts s : played_by w0 acts s → answered_by w0 (pipe (s_svc s)) → answered_by w0 (pipe (s_svc (run acts s))).
Proof.
  revert s. induction acts as [|act acts IH]; intros s; [done|]. intros [Hb Hp] Ha. apply IH; [done|].
  destruct (step_carries act 0 s) as [(more & Hm & Hq) _]. rewrite Hm. intros i slot data Hin.
  apply frames_more. apply elem_of_app in Hin as [Hin|Hin]; [by eapply Ha|].
  apply answer_frame, Hb. by eapply Hq.
Qed.

(** C12.  What a player is shown is the match: in any run of the service whose
    worker's answers are those of the worker process, every frame a connection
    is sent is an error frame or the state, read back field for field, of a world
    that the rules reach from the start of the match, for the connection's own
    player. *)
Theorem players_see_the_rules ids s m a c w0 acts i data :
  new_service ids = Ok s → GameCore.game_init m a c = Some w0 → len m = 16 → len a = 16 → len c = 16 →
  played_by w0 acts (Sys s []) → data ∈ wrote_to i acts (Sys s []) →
  (∃ code, 1 <= code <= 7 ∧ data = error_frame code) ∨
  ∃ h ops sequence r, s_hs (run acts (Sys s [])) !! i = Some h ∧ Forall op_wf ops ∧
    state data = Ok (world_view (run_ops ops w0) (slot_of h) sequence r).
Proof.
  intros E Ei Hm Ha Hc Hp Hd. pose proof (init_ok _ _ _ _ Ei Hm Ha Hc) as W0.
  assert (Hpipe : pipe s = []) by (unfold new_service in E; apply result_bind_Ok in E as (? & _ & [= <-]); done).
  destruct (wrote_sendable i acts (Sys s []) data (new_service_ok _ _ E) Hd) as (h & Hi & [?|(Hans & Hr & _)]); [by left|right].
  pose proof (run_answered_by w0 acts (Sys s []) Hp) as Hby. cbn in Hby. rewrite Hpipe in Hby.
  apply Hby in Hans; [|by intros ??? ?%elem_of_nil].
  destruct (serve_all_rules w0 (commands (pipe (s_svc (run acts (Sys s []))))) W0) as [Hf _].
  rewrite Forall_forall in Hf. destruct (Hf data Hans) as (ops & slot & sequence & r & Ho & Hs & Hq & ->).
  pose proof (reply_state (run_ops ops w0) slot sequence r (run_ops_ok ops w0 W0 Ho) Hs Hq) as Hst.
  exists h, ops, sequence, r. split; [done|]. split; [done|]. change GameService.state with GameHost.state. rewrite Hst. f_equal.
  unfold reply_check in Hr. change GameService.state with GameHost.state in Hr. rewrite Hst in Hr.
  cbn [mbind result_bind] in Hr. apply result_bind_Ok in Hr as (? & Hr & _). apply raise_if_Ok in Hr.
  apply negb_false_iff, Z.eqb_eq in Hr. cbn in Hr. apply Nat2Z.inj in Hr. by rewrite Hr.
Qed.

(** ** The worker is never given up *)

(** The ticks the service has sent never exceed the clock; the worker is alive. *)
Record fine (w0 : game_world_t) (t0 clock : Z) (s : service) : Prop := {
  fi_running : running s = true;
  fi_healthy : broken s = false;
  fi_started : started s = t0;
  fi_slots : ∀ i op slot payload, Wrote i op slot payload ∈ pipe s → (slot < 2)%nat;
  fi_alive : ∃ w, (serve_all w0 (commands (pipe s))).2 = Some w ∧
    GameCore.w_tick w <= Z.quot (clock - t0) (50 * ns_per_ms) }.

Lemma fine_later w0 t0 clock clock' s : fine w0 t0 clock s → clock <= clock' → fine w0 t0 clock' s.
Proof.
  intros [F1 F2 F3 F4 (w & Hw & Ht)] Hc. split; try done. exists w. split; [done|].
  etrans; [exact Ht|]. apply Z.quot_le_mono; [done|lia].
Qed.
Lemma fine_leave w0 t0 clock h s r s' : fine w0 t0 clock s → leave h s = (r, s') → fine w0 t0 clock s'.
Proof. intros [F1 F2 F3 F4 F5] E. unfold leave in E. destruct (h_owned h); injection E as _ <-; split; assumption. Qed.
Lemma fine_set_lock w0 t0 clock o s : fine w0 t0 clock s → fine w0 t0 clock (set_lock o s).
Proof. intros [F1 F2 F3 F4 F5]. split; assumption. Qed.

(** What the service writes, the worker answers. *)
Definition well_formed (tick : Z) (op : Z) (payload : bytes) : Prop :=
  len payload = 48 ∧
  (op = 1 ∨ (op = 2 ∧ payload = le_encode 8 tick ++ zeros 40 ∧ 0 <= tick < 2 ^ 64) ∨ ((op = 3 ∨ op = 4) ∧ payload = zeros 48)).

Lemma command_bytes op slot payload : 0 <= op < 256 → (slot < 2)%nat →
  at_ ([z2b op; z2b (Z.of_nat slot)] ++ payload) 0 = op ∧
  Z.to_nat (at_ ([z2b op; z2b (Z.of_nat slot)] ++ payload) 1) = slot ∧
  drop 2 ([z2b op; z2b (Z.of_nat slot)] ++ payload) = payload.
Proof.
  intros Ho Hs. split_and!; [|  |done].
  - change (b2z (z2b op) = op). by apply b2z_z2b_small.
  - change (Z.to_nat (b2z (z2b (Z.of_nat slot))) = slot). rewrite b2z_z2b_small by lia. lia.
Qed.
Lemma serve_total w tick op slot payload : well_formed tick op payload → (slot < 2)%nat → 0 <= GameCore.w_tick w <= tick →
  ∃ w' frame, GameHost.serve w ([z2b op; z2b (Z.of_nat slot)] ++ payload) = Some (w', frame) ∧ GameCore.w_tick w' <= tick.
Proof.
  intros [_ Hwf] Hs Ht. assert (Hop : 0 <= op < 256) by lia.
  destruct (command_bytes op slot payload Hop Hs) as (C1 & C2 & C3).
  unfold GameHost.serve, GameHost.execute. rewrite C1, C2, C3. destruct (Nat.leb_spec 2 slot); [lia|].
  destruct Hwf as [-> |[(-> & -> & Hr)|([-> | ->] & ->)]]; cbn [Z.eqb Pos.eqb].
  - destruct (GameCore.game_input_decode payload) as [i|]; cbn [mbind option_bind]; [|do 2 eexists; split; [done|lia]].
    destruct (GameCore.game_apply w slot i) as [w' r] eqn:E. cbn [mbind option_bind]. do 2 eexists. split; [done|].
    apply apply_cases in E as [[-> _]|(_ & _ & _ & _ & ? & ? & _ & _ & _ & _ & ->)]; lia.
  - assert (drop 8 (le_encode 8 tick ++ zeros 40) = zeros 40) as -> by (by apply drop_app_length').
    change (GameCore.nonzero (zeros 40)) with false. cbv iota.
    assert (take 8 (le_encode 8 tick ++ zeros 40) = le_encode 8 tick) as -> by (by apply take_app_length').
    rewrite le_decode_encode, Z.mod_small by done. cbv zeta.
    destruct (Z.ltb_spec tick (GameCore.w_tick w)); [lia|]. do 2 eexists. split; [done|]. cbn. lia.
  - change (GameCore.nonzero (drop 0 (zeros 48))) with false. cbv iota.
    unfold GameCore.game_close. destruct (Nat.leb_spec 2 slot); [lia|]. do 2 eexists. split; [done|]. destruct slot; cbn; lia.
  - change (GameCore.nonzero (drop 0 (zeros 48))) with false. cbv iota. do 2 eexists. split; [done|lia].
Qed.
Lemma serve_slot w op slot payload w' frame : 0 <= op < 256 → (slot < 2)%nat → world_ok w →
  GameHost.serve w ([z2b op; z2b (Z.of_nat slot)] ++ payload) = Some (w', frame) → reply_check slot frame = Ok frame.
Proof.
  intros Ho Hs W E. pose proof E as E1. apply serve_some in E as (slot' & sequence & r & He & ->).
  destruct (command_bytes op slot payload Ho Hs) as (C1 & C2 & C3).
  assert (slot' = slot) as ->.
  { unfold GameHost.execute in He. rewrite C1, C2, C3 in He.
    repeat (case_match; try done); by injection He as _ <- _ _. }
  destruct (serve_rules _ _ _ _ W E1) as (ops & _ & _ & _ & Hops & -> & _).
  apply execute_rules in He as (_ & Hq & _). by apply reply_accepted; [apply run_ops_ok|..].
Qed.

Section authority.
Variables (w0 : game_world_t) (t0 : Z).
Hypothesis start_ok : world_ok w0.

Lemma alive_ok l w : (serve_all w0 (commands l)).2 = Some w → world_ok w.
Proof. intros E. destruct (serve_all_rules w0 (commands l) start_ok) as [_ Hr]. destruct (Hr w E) as (ops & ? & ->). by apply run_ops_ok. Qed.

Lemma fine_write clock i op slot payload s : fine w0 t0 clock s →
  well_formed (Z.quot (clock - t0) (50 * ns_per_ms)) op payload → (slot < 2)%nat → fine w0 t0 clock (log (Wrote i op slot payload) s).
Proof.
  intros [F1 F2 F3 F4 (w & Hw & Ht)] Hwf Hs. pose proof (wo_tick _ (alive_ok _ _ Hw)) as Hwt.
  destruct (serve_total w _ op slot payload Hwf Hs ltac:(split; [apply Hwt|exact Ht])) as (w' & frame & E & Ht').
  split; try assumption.
  - intros j op' slot' payload' [Hin|Hin]%elem_of_app; [by eapply F4|]. apply list_elem_of_singleton in Hin. by injection Hin as -> -> -> ->.
  - exists w'. split; [|done]. cbn [log pipe]. rewrite commands_app, serve_all_app.
    destruct (serve_all w0 (commands (pipe s))) as [frames o]. cbn in Hw. subst o.
    change (commands [Wrote i op slot payload]) with [[z2b op; z2b (Z.of_nat slot)] ++ payload]. cbn [serve_all]. by rewrite E.
Qed.
Lemma fine_answer clock i slot r s : fine w0 t0 clock s → fine w0 t0 clock (log (Answered i slot r) s).
Proof.
  intros [F1 F2 F3 F4 F5]. split; try assumption.
  - intros j op' slot' payload' [Hin|Hin]%elem_of_app; [by eapply F4|]. by apply list_elem_of_singleton in Hin.
  - cbn [log pipe]. by rewrite commands_app, app_nil_r.
Qed.

Lemma fine_locked clock i h p s r s' :
  fine w0 t0 clock s → (p = Close → (slot_of h < 2)%nat) → locked i clock h p s = (r, s') → fine w0 t0 clock s'.
Proof.
  intros F Hc E. unfold locked in E.
  match type of E with match ?m s with _ => _ end = _ => destruct (m s) as [r1 s1] eqn:E1 end.
  assert (Hfail : ∀ s1, fine w0 t0 clock s1 → p ≠ Close → failed h p (set_lock None s1) = (r, s') → fine w0 t0 clock s').
  { intros s2 F2 Hp Ef. unfold failed in Ef. destruct p; try done; by eapply fine_leave, Ef; apply fine_set_lock. }
  apply st_bind_inv in E1 as (r2 & s2 & E2 & E1). apply lift_inv in E2 as [Hr2 Hs2]. subst r2 s2.
  destruct (payload_of clock s p) as [payload|e] eqn:Hp.
  2:{ destruct E1 as [-> ->]. eapply (Hfail s); [done| |exact E]. intros ->. done. }
  unfold exchange_begin in E1. apply st_bind_inv in E1 as (r3 & s3 & E3 & E1). injection E3 as <- <-.
  apply st_bind_inv in E1 as (r3 & s3 & E3 & E1). apply raise_when_spec in E3 as [-> Hr].
  destruct F as [F1 F2 F3 F4 F5]. rewrite F1, F2 in Hr. destruct Hr as [[_ ->]|[? _]]; [|done].
  assert (F : fine w0 t0 clock s) by by split.
  apply st_bind_inv in E1 as (r3 & s3 & E3 & E1). apply raise_when_spec in E3 as [-> Hr].
  assert (Hshape : len payload = 48 → well_formed (Z.quot (clock - t0) (50 * ns_per_ms)) (op_of p) payload).
  { intros Hl. split; [done|]. destruct p; cbn in Hp |- *; try (injection Hp as <-); auto.
    right. left. split; [done|]. unfold tick_payload in Hp. apply result_bind_Ok in Hp as (? & G & [= <-]).
    apply raise_if_Ok in G. rewrite F3 in G |- *. split; [done|]. apply negb_false_iff, andb_true_iff in G as [G1%Z.leb_le G2%Z.leb_le]. lia. }
  destruct Hr as [[G ->]|[G ->]].
  - injection E1 as <- <-. injection E as _ <-. apply fine_set_lock, fine_write; [done| |].
    + apply Hshape. bools. done.
    + apply orb_false_iff in G as [G _]. apply orb_false_iff in G as [_ G]. apply negb_false_iff, bool_decide_eq_true in G.
      apply elem_of_cons in G as [E0|E0%list_elem_of_singleton]; lia.
  - destruct E1 as [-> ->]. eapply (Hfail s); [done| |exact E]. intros ->. specialize (Hc eq_refl).
    injection Hp as <-. cbn [op_of] in G. rewrite !(bool_decide_eq_true_2 (_ ∈ _)) in G; [done| |set_solver].
    destruct (slot_of h) as [|[|]]; [set_solver..|lia].
Qed.

Lemma pending_answer clock s l i op slot payload :
  fine w0 t0 clock s → pipe s = l ++ [Wrote i op slot payload] → 0 <= op < 256 →
  ∃ data, answer w0 (pipe s) = Some data ∧ reply_check slot data = Ok data.
Proof.
  intros [_ _ _ F4 (w & Hw & _)] Hp Ho. assert (Hs : (slot < 2)%nat).
  { apply (F4 i op slot payload). rewrite Hp. apply elem_of_app. right. by apply list_elem_of_singleton. }
  unfold answer. rewrite Hp, commands_app, serve_all_app in Hw |- *.
  destruct (serve_all w0 (commands l)) as [frames [w1|]] eqn:El; [|done].
  change (commands [Wrote i op slot payload]) with [[z2b op; z2b (Z.of_nat slot)] ++ payload] in Hw |- *. cbn [serve_all] in Hw |- *.
  assert (W1 : world_ok w1) by (apply (alive_ok l); by rewrite El).
  destruct (GameHost.serve w1 _) as [[w2 frame]|] eqn:E; [|done]. exists frame.
  rewrite last_snoc. split; [done|]. by eapply serve_slot.
Qed.

Lemma fine_answered clock i h p s r s' l payload reply :
  fine w0 t0 clock s → pipe s = l ++ [Wrote i (op_of p) (slot_of h) payload] →
  (∀ data, answer w0 (pipe s) = Some data → reply = Ok data) →
  answered i clock h p reply s = (r, s') → fine w0 t0 clock s'.
Proof.
  intros F Hp Hr E. destruct (pending_answer _ _ _ _ _ _ _ F Hp) as (data & Ha & Hc); [by destruct p|].
  specialize (Hr data Ha) as ->. unfold answered, exchange_end in E. cbn [mbind result_bind] in E. rewrite Hc in E. cbn [is_Ok] in E.
  pose proof (fine_answer clock i (slot_of h) (Ok data) s F) as Fa. destruct p.
  - destruct (state data); [injection E as _ <-; by apply fine_set_lock|]. eapply fine_leave, E. by apply fine_set_lock.
  - injection E as _ <-. by apply fine_set_lock.
  - by eapply fine_locked, E.
  - injection E as _ <-. by apply fine_set_lock.
  - injection E as _ <-. by apply fine_set_lock.
Qed.
End authority.

(** A run in which the clock does not go back, the worker answers, it neither
    exits nor is closed, and nobody is cancelled while it talks to the worker. *)
Definition time_of (clock : Z) (act : action) : Z :=
  match act with ELock _ now | EReply _ now _ => now | _ => clock end.
Definition orderly_step (w0 : game_world_t) (clock : Z) (act : action) (s : sys) : Prop :=
  clock <= time_of clock act ∧
  match act with
  | EReply _ _ reply => ∀ data, answer w0 (pipe (s_svc s)) = Some data → reply = Ok data
  | ECancel i => lock (s_svc s) ≠ Some i
  | EExit | EClose => False
  | _ => True
  end.
Fixpoint orderly (w0 : game_world_t) (clock : Z) (acts : list action) (s : sys) : Prop :=
  match acts with
  | [] => True
  | act :: acts => orderly_step w0 clock act s ∧ orderly w0 (time_of clock act) acts (step act s)
  end.

Lemma owner_slot s hs i h : sys_ok (Sys s hs) → hs !! i = Some h → h_owned h = true → (slot_of h < 2)%nat.
Proof.
  intros O Hi Ho. destruct (ho_owned _ _ _ (so_handlers _ O i h Hi) Ho) as (slot & Hs & Hc).
  pose proof (sh_len _ _ (so_shared _ O)) as (_ & L & _). cbn in L, Hc. apply lookup_lt_Some in Hc.
  unfold slot_of. rewrite Hs. cbn. lia.
Qed.
Lemma resume_fine w0 t0 clock i (m : st service handler) s :
  (∀ r s', m (s_svc s) = (r, s') → fine w0 t0 clock s') → fine w0 t0 clock (s_svc (resume i m s)).
Proof. intros Hm. unfold resume. destruct (m (s_svc s)) as [[h|e] s'] eqn:E; cbn; by eapply Hm. Qed.

Lemma step_fine w0 t0 clock act s : world_ok w0 → sys_ok s → fine w0 t0 clock (s_svc s) →
  orderly_step w0 clock act s → fine w0 t0 (time_of clock act) (s_svc (step act s)).
Proof.
  intros W0 O F [Ht Hs]. destruct s as [s hs]. cbn [s_svc] in *.
  destruct act as [hello now|cert|i now|i now reply|i now x|i x|i|i| |]; try done; cbn [step time_of] in *;
    try (destruct (hs !! i) as [h|] eqn:Hi; cbn [s_hs]; rewrite ?Hi; [|by eapply fine_later]; unfold step_handler;
         pose proof (so_handlers _ O i h Hi) as Hh; cbn in Hh).
  - unfold start. cbn [s_svc]. by rewrite (fi_running _ _ _ _ F).
  - destruct (4 <=? _); [done|]. unfold handle_begin. cbn [s_svc].
    destruct (slot_for _ _); [|done]. destruct (broken s); [done|]. destruct (default _ _); [done|]. cbn.
    destruct F as [F1 F2 F3 F4 F5]. split; assumption.
  - apply (fine_later _ _ _ now) in F; [|done]. destruct (h_phase h) as [|p| | | |] eqn:Hp; try done. cbn [s_svc].
    destruct (lock s); [done|]. apply resume_fine. intros r s' E. eapply fine_locked; [done|exact F| |exact E].
    intros ->. eapply owner_slot; [done|exact Hi|]. apply (ho_phase _ _ _ Hh). by rewrite Hp.
  - apply (fine_later _ _ _ now) in F; [|done]. destruct (h_phase h) as [| |p| | |] eqn:Hp; try done.
    pose proof (sh_talk _ _ (so_shared _ O)) as Htalk. cbn in Htalk.
    rewrite (ho_lock _ _ _ Hh) in Htalk by (by rewrite Hp). destruct Htalk as (h' & p' & payload & Hi' & Hp' & Hd).
    rewrite Hi in Hi'. injection Hi' as <-. rewrite Hp in Hp'. injection Hp' as <-.
    inversion Hd as [|l i0 op slot payload0 Hl Hmay Hlen Epipe|]; subst.
    apply resume_fine. intros r s' E. eapply fine_answered; [done|exact F| |exact Hs|exact E]. cbn. by rewrite <-Epipe.
  - destruct (h_phase h) as [d k| | | | |] eqn:Hp; try done. apply resume_fine. intros r s' E. cbn [s_svc] in E.
    destruct x; [|by eapply fine_leave, E]. unfold sent, next in E.
    repeat (case_match; try (by eapply fine_leave, E); try (by injection E as _ <-)).
  - destruct (h_phase h) as [| | |n| |] eqn:Hp; try done. apply resume_fine. intros r s' E. cbn [s_svc] in E.
    destruct x; [|by eapply fine_leave, E]. unfold received in E. by repeat (case_match; try (by injection E as _ <-)).
  - by destruct (h_phase h).
  - apply resume_fine. intros r s' E. cbn [s_svc] in E. unfold cancelled in E.
    destruct (h_phase h) as [|[]|p| | |] eqn:Hp; try (by eapply fine_leave, E); try (by injection E as _ <-).
    destruct Hs. apply (ho_lock _ _ _ Hh). by rewrite Hp.
Qed.

(** C3.  A healthy worker is never given up: from a start with its greeting, as
    long as the clock does not go back, the worker answers what the rules say and
    no connection is cancelled while it talks to it, no exchange ever fails,
    whatever the players send and however their connections interleave: the
    ticks the service sends never go back, no command makes the worker exit, and
    every answer is associated with the right player. *)
Theorem match_never_poisoned ids s m a c w0 t0 acts :
  new_service ids = Ok s → GameCore.game_init m a c = Some w0 → len m = 16 → len a = 16 → len c = 16 →
  let hello := GameHost.reply w0 0 0 GameCore.GAME_OK ++ GameHost.reply w0 1 0 GameCore.GAME_OK in
  let s0 := step (EStart (Ok hello) t0) (Sys s []) in
  orderly w0 t0 acts s0 →
  let r := run acts s0 in
  running (s_svc r) = true ∧ broken (s_svc r) = false ∧ (∀ e, e ∈ pipe (s_svc r) → ¬ failure e) ∧
  is_Some (serve_all w0 (commands (pipe (s_svc r)))).2.
Proof.
  intros E Ei Hm Ha Hc hello s0 Ho r. pose proof (init_ok _ _ _ _ Ei Hm Ha Hc) as W0.
  pose proof (new_service_ok _ _ E) as O. pose proof (game_step_ok (EStart (Ok hello) t0) _ O) as O0. fold s0 in O0.
  assert (F0 : fine w0 t0 t0 (s_svc s0)).
  { unfold new_service in E. apply result_bind_Ok in E as (? & _ & [= <-]). subst s0. cbn [step s_svc].
    unfold start. cbn [running]. unfold hello. cbn [mbind result_bind]. rewrite hello_accepted by done.
    cbn [snd]. split; try done; [by intros ???? ?%elem_of_nil|]. exists w0. split; [done|].
    rewrite Z.sub_diag. cbn. unfold GameCore.game_init in Ei. destruct (_ || _) in Ei; [done|]. by injection Ei as <-. }
  assert (Hrun : sys_ok r ∧ ∃ clock, fine w0 t0 clock (s_svc r)).
  { subst r. clearbody s0. clear -W0 O0 F0 Ho. revert s0 O0 F0 Ho. generalize t0 at 2 3. induction acts as [|act acts IH]; intros clock s0 O F.
    - split; [done|by exists clock].
    - intros [H1 H2]. apply (IH (time_of clock act) _ (game_step_ok act s0 O)); [|done]. by apply step_fine. }
  destruct Hrun as (Or & clock & [F1 F2 _ _ (w & Hw & _)]). split_and!; try done.
  by apply (sh_broken _ _ (so_shared _ Or)).
Qed.

(** ** A match of two connections, for the witnesses *)

(** The actions of a run, with the worker's answers filled in. *)
Fixpoint answering (acts : list action) (s : sys) : list action :=
  match acts with
  | [] => []
  | act :: acts =>
      let act := match act with
                 | EReply i now _ =>
                     match answer test_world (pipe (s_svc s)) with Some data => EReply i now (Ok data) | None => act end
                 | _ => act
                 end in
      act :: answering acts (step act s)
  end.
Definition greeting : bytes := Eval vm_compute in
  GameHost.reply test_world 0 0 GameCore.GAME_OK ++ GameHost.reply test_world 1 0 GameCore.GAME_OK.
Definition started_match : sys := Eval vm_compute in step (EStart (Ok greeting) 0) (Sys test_service []).
Definition pending : result bytes := Raise TimeoutError.
Definition shooting : list action := Eval vm_compute in
  answering [EConnect (Some cert0); ELock 0 10; EReply 0 20 pending; ESent 0 30 (Ok tt);
     EConnect (Some cert1); ELock 1 40; EReply 1 50 pending; ESent 1 60 (Ok tt);
     ERead 0 (Ok fire_command); ELock 0 100000000; EReply 0 100000000 pending; EReply 0 100000010 pending; ECancel 1]
    started_match.
Definition shot_frame : bytes := Eval vm_compute in default [] (last (wrote_to 0 shooting started_match)).

Lemma players_see_the_rules_witness :
  (∃ code, 1 <= code <= 7 ∧ shot_frame = error_frame code) ∨
  ∃ h ops sequence r, s_hs (run (EStart (Ok greeting) 0 :: shooting) (Sys test_service [])) !! 0%nat = Some h ∧ Forall op_wf ops ∧
    state shot_frame = Ok (world_view (run_ops ops test_world) (slot_of h) sequence r).
Proof.
  apply (players_see_the_rules two_players test_service match_id session_a session_b test_world
    (EStart (Ok greeting) 0 :: shooting) 0 shot_frame test_service_made); [reflexivity..| |].
  - vm_compute. repeat (split; [intros d (i & now & E); first [discriminate E|injection E as _ _ <-; reflexivity]|]). exact I.
  - vm_compute. repeat (first [apply list_elem_of_here|apply list_elem_of_further]).
Defined.

Lemma match_never_poisoned_witness :
  let s0 := step (EStart (Ok (GameHost.reply test_world 0 0 GameCore.GAME_OK ++ GameHost.reply test_world 1 0 GameCore.GAME_OK)) 0) (Sys test_service []) in
  let r := run shooting s0 in
  running (s_svc r) = true ∧ broken (s_svc r) = false ∧ (∀ e, e ∈ pipe (s_svc r) → ¬ failure e) ∧
  is_Some (serve_all test_world (commands (pipe (s_svc r)))).2.
Proof.
  apply (match_never_poisoned two_players test_service match_id session_a session_b test_world 0 shooting test_service_made);
    [reflexivity..|].
  vm_compute. split_and!; try done; intros d [= <-]; reflexivity.
Defined.
