(* ===== verification/GameClose.v ===== *)
(** * The end of the game service

    [GameService.close] in [src/scripts/game_service.py]: the service is marked
    broken, its connections are cancelled and waited for, and the worker is
    stopped; and the same stop of a child in [src/scripts/bridge_transport.py]. *)

From S2P Require Import Prelude Bytes Sha256 GameService GameRun GameFacts GameTheorems GameSession.
From S2P Require Import GameCoreFacts GameHost GameAuthority.
Import GameService.

(** ** A child process *)

Module Child.

Inductive call := Terminate | Kill | Wait (seconds : Z) | ReadStderr.

(** The child as its parent meets it: whether it has been reaped, whether a
    signal still finds it, how the two waits and the last read end; and what has
    been done to it. *)
Record child := Child {
  returncode : option Z;
  missing : bool;
  first_wait : result Z;
  second_wait : result Z;
  stderr : result unit;
  calls : list call }.

Definition act (c : call) : st child unit :=
  modify (λ p, Child (returncode p) (missing p) (first_wait p) (second_wait p) (stderr p) (calls p ++ [c])).
Definition reaped (code : Z) : st child unit :=
  modify (λ p, Child (Some code) (missing p) (first_wait p) (second_wait p) (stderr p) (calls p)).
(** [process.terminate()], with its [except ProcessLookupError: pass] *)
Definition terminate : st child unit := act Terminate.
(** [await asyncio.wait_for(process.wait(), 2)] *)
Definition wait_for (outcome : child → result Z) : st child unit :=
  _ ← act (Wait 2); r ← gets outcome; code ← lift r; reaped code.

(** The [finally] of [worker] and the part of [GameService.close] on the process. *)
Definition stop : st child unit :=
  code ← gets returncode;
  match code with
  | Some _ => mret tt
  | None =>
      _ ← terminate;
      try_except (wait_for first_wait)
        (λ e, if decide (e = TimeoutError) then Some (_ ← act Kill; wait_for second_wait) else None)
  end.
(** The end of [GameService.close], for a service that had a process. *)
Definition close_process : st child unit :=
  _ ← stop; _ ← act ReadStderr; r ← gets stderr; lift r.

End Child.

(** ** Stopping the child *)

(** A stop that returns has reaped the child, which was asked to terminate before it
    was killed and killed only when it did not end in time; it fails only as a wait
    on the child failed. *)
Theorem child_stopped p r p' :
  Child.stop p = (r, p') →
  match r with
  | Ok _ => is_Some (Child.returncode p')
  | Raise e => Child.first_wait p = Raise e ∧ e ≠ TimeoutError ∨
               Child.first_wait p = Raise TimeoutError ∧ Child.second_wait p = Raise e
  end ∧
  ∃ done, Child.calls p' = Child.calls p ++ done ∧
    (done = [] ∧ is_Some (Child.returncode p) ∨
     done = [Child.Terminate; Child.Wait 2] ∧ Child.first_wait p ≠ Raise TimeoutError ∨
     done = [Child.Terminate; Child.Wait 2; Child.Kill; Child.Wait 2] ∧ Child.first_wait p = Raise TimeoutError).
Proof.
  destruct p as [code missing w1 w2 err calls]. unfold Child.stop, try_except, Child.wait_for, mbind, st_bind. cbn -[decide]. intros E.
  destruct code as [code|]; [injection E as <- <-; cbn; split; [by eexists|]; exists []; rewrite app_nil_r; eauto|].
  destruct w1 as [z|e]; cbn -[decide] in E.
  { injection E as <- <-. cbn. split; [by eexists|]. exists [Child.Terminate; Child.Wait 2]. rewrite <-app_assoc. eauto. }
  destruct (decide (e = TimeoutError)) as [->|Hne]; cbn -[decide] in E.
  - assert (∃ done, Child.calls p' = calls ++ done ∧ done = [Child.Terminate; Child.Wait 2; Child.Kill; Child.Wait 2]) as (d & Hd & ->).
    { destruct w2; injection E as _ <-; cbn; eexists; by rewrite <-!app_assoc. }
    split; [|by eexists; split; [exact Hd|auto]]. destruct w2; injection E as <- <-; cbn; [by eexists|auto].
  - injection E as <- <-. cbn. split; [auto|]. exists [Child.Terminate; Child.Wait 2]. rewrite <-app_assoc.
    split; [done|]. right. left. split; [done|congruence].
Qed.

(** ** Closing the connections *)

(** [close] up to its [gather]: every connection is cancelled. *)
Definition cancel_all (s : sys) : sys := run (EClose :: (ECancel <$> seq 0 (length (s_hs s)))) s.

Definition leaving (p : phase) : Prop := match p with Closing | Gone => True | _ => False end.

(** What never comes back. *)
Record shut (cmds : list bytes) (n : nat) (s : sys) : Prop := {
  st_broken : broken (s_svc s) = true;
  st_silent : commands (pipe (s_svc s)) = cmds;
  st_known : (n <= length (s_hs s))%nat;
  st_leaving : ∀ i h, (i < n)%nat → s_hs s !! i = Some h → leaving (h_phase h) }.

(** A broken service writes no command. *)
Definition quiet (h : handler) (m : st service handler) : Prop :=
  ∀ s r s', broken s = true → m s = (r, s') → broken s' = true ∧ commands (pipe s') = commands (pipe s) ∧
    ∀ h', r = Ok h' → leaving (h_phase h) → leaving (h_phase h').

Lemma quiet_leave h : quiet h (leave h).
Proof.
  intros s r s' Hb E. unfold leave in E. destruct (h_owned h); cbn in E; [rewrite Hb in E|]; injection E as <- <-;
    (split_and!; try done); by intros h' [= <-].
Qed.
Lemma quiet_failed h p : ¬ leaving (h_phase h) → quiet h (failed h p).
Proof.
  intros Hl s r s' Hb E. destruct p; try (by eapply quiet_leave). injection E as <- <-. split_and!; try done.
Qed.
Lemma quiet_sent now h k : ¬ leaving (h_phase h) → quiet h (sent now h k).
Proof.
  intros Hl s r s' Hb E. assert (broken s' = true ∧ commands (pipe s') = commands (pipe s)) as [? ?]; [|by split_and!].
  unfold sent, next in E. repeat case_match; try (by apply quiet_leave in E as (? & ? & _)); by injection E as _ <-.
Qed.
Lemma quiet_locked i now h p : ¬ leaving (h_phase h) → quiet h (locked i now h p).
Proof.
  intros Hl s r s' Hb E. unfold locked in E.
  match type of E with match ?m s with _ => _ end = _ => assert (∃ e, m s = (Raise e, s)) as [e Em] end.
  { unfold exchange_begin, mbind, st_bind, lift, get. destruct (payload_of now s p); [|by eexists].
    unfold raise_when. rewrite Hb. by eexists. }
  rewrite Em in E. by apply (quiet_failed h p Hl (set_lock None s)) in E.
Qed.
Lemma quiet_answered i now h p reply : ¬ leaving (h_phase h) → quiet h (answered i now h p reply).
Proof.
  intros Hl s r s' Hb E. unfold answered, exchange_end in E.
  set (x := data ← reply; reply_check (slot_of h) data) in *.
  assert (H1 : ∀ s1, s1 = (if is_Ok x then s else set_broken s) → broken s1 = true ∧ pipe s1 = pipe s)
    by (intros s1 ->; by destruct (is_Ok x)).
  destruct (H1 _ eq_refl) as [B1 P1]. set (s1 := if is_Ok x then s else set_broken s) in *. clearbody s1.
  assert (C1 : commands (pipe (log (Answered i (slot_of h) x) s1)) = commands (pipe s))
    by (cbn [log pipe]; by rewrite commands_app, app_nil_r, P1).
  assert (Hgo : ∀ m, quiet h m → m (set_lock None (log (Answered i (slot_of h) x) s1)) = (r, s') →
    broken s' = true ∧ commands (pipe s') = commands (pipe s) ∧ ∀ h', r = Ok h' → leaving (h_phase h) → leaving (h_phase h')).
  { intros m Hm Hr. apply Hm in Hr as (? & Hc & ?); [|done]. split_and!; try done. by rewrite Hc. }
  clearbody x. destruct x as [data|e]; [|apply (Hgo (failed h p)); [by apply quiet_failed|done]].
  destruct p; try (injection E as <- <-; by split_and!).
  - destruct (state data); [injection E as <- <-; by split_and!|]. by apply (Hgo (leave h)); [apply quiet_leave|].
  - apply (quiet_locked i now h (Input payload) Hl) in E as (? & Hc & ?); [|done]. split_and!; try done. by rewrite Hc.
Qed.

Lemma quiet_cancelled i h : ∀ s r s', broken s = true → cancelled i h s = (r, s') →
  broken s' = true ∧ commands (pipe s') = commands (pipe s) ∧ ∀ h', r = Ok h' → leaving (h_phase h').
Proof.
  intros s r s' Hb E. unfold cancelled in E.
  assert (Hleave : ∀ s1, broken s1 = true → commands (pipe s1) = commands (pipe s) → leave h s1 = (r, s') →
    broken s' = true ∧ commands (pipe s') = commands (pipe s) ∧ ∀ h', r = Ok h' → leaving (h_phase h')).
  { intros s1 Hb1 Hc1 El. unfold leave in El. destruct (h_owned h); cbn in El; [rewrite Hb1 in El|]; injection El as <- <-;
      (split_and!; try done); by intros h' [= <-]. }
  assert (Hx : broken (set_lock None (exchange_end i (slot_of h) (Raise CancelledError) s).2) = true ∧
    commands (pipe (set_lock None (exchange_end i (slot_of h) (Raise CancelledError) s).2)) = commands (pipe s))
    by (cbn; by rewrite commands_app, app_nil_r).
  destruct Hx as [Hb1 Hc1].
  destruct (h_phase h) as [|[]|[]| | |]; try (by apply (Hleave s)); try (by eapply Hleave; [exact Hb1|exact Hc1|exact E]);
    injection E as <- <-; (split_and!; try done); by intros h' [= <-].
Qed.

Lemma resume_shut cmds n i h (m : st service handler) s :
  shut cmds n s → s_hs s !! i = Some h →
  (∀ r s', m (s_svc s) = (r, s') → broken s' = true ∧ commands (pipe s') = commands (pipe (s_svc s)) ∧
    ∀ h', r = Ok h' → leaving (h_phase h) → leaving (h_phase h')) → shut cmds n (resume i m s).
Proof.
  intros [S1 S2 S3 S4] Hi Hm. unfold resume. destruct (m (s_svc s)) as [r s'] eqn:E.
  destruct (Hm _ _ eq_refl) as (B & C & L). destruct r as [h'|e]; (split; cbn; [done|congruence|by rewrite ?length_insert|]); [|done].
  intros j k Hj Hk. destruct (decide (j = i)) as [->|]; [|rewrite list_lookup_insert_ne in Hk by done; by eapply S4].
  rewrite list_lookup_insert_eq in Hk by (by eapply lookup_lt_Some). injection Hk as <-. apply L; [done|]. by eapply S4.
Qed.

Lemma step_shut cmds n act s : shut cmds n s → shut cmds n (step act s).
Proof.
  intros S. pose proof S as [S1 S2 S3 S4].
  assert (Hgo : ∀ i h m, s_hs s !! i = Some h → quiet h m → shut cmds n (resume i m s)).
  { intros i h m Hi Hm. eapply resume_shut; [done|exact Hi|]. intros r s' E. by eapply Hm. }
  destruct act as [hello now|cert|i now|i now reply|i now x|i x|i|i| |]; cbn [step];
    try (destruct (s_hs s !! i) as [h|] eqn:Hi; [|done]; unfold step_handler; destruct (h_phase h) eqn:Hp; try done).
  - unfold start. destruct (running (s_svc s)); [by split|]. destruct (x ← hello; _); by split.
  - destruct (4 <=? _); [done|]. unfold handle_begin.
    assert (Hadd : ∀ h, shut cmds n (Sys (s_svc s) (s_hs s ++ [h]))).
    { intros h. split; cbn; [done|done|rewrite length_app; lia|]. intros j k Hj Hk.
      rewrite lookup_app_l in Hk by lia. by eapply S4. }
    destruct (slot_for _ _) as [slot|]; [rewrite S1|]; apply Hadd.
  - destruct (lock _); [done|]. eapply Hgo; [done|]. apply quiet_locked. rewrite Hp. by intros [].
  - eapply Hgo; [done|]. apply quiet_answered. rewrite Hp. by intros [].
  - eapply Hgo; [done|]. destruct x; [|apply quiet_leave]. apply quiet_sent. rewrite Hp. by intros [].
  - eapply Hgo; [done|]. destruct x; [|apply quiet_leave]. intros s0 r s' Hb E. unfold received in E.
    repeat (case_match; [injection E as <- <-; split_and!; try done; by rewrite Hp|]). injection E as <- <-. split_and!; try done. by rewrite Hp.
  - eapply Hgo; [done|]. intros s0 r s' Hb [= <- <-]. split_and!; try done. by intros h' [= <-].
  - eapply resume_shut; [done|exact Hi|]. intros r s' E. apply quiet_cancelled in E as (? & ? & L); [|done]. split_and!; auto.
  - eapply resume_shut; [done|exact Hi|]. intros r s' E. apply quiet_cancelled in E as (? & ? & L); [|done]. split_and!; auto.
  - eapply resume_shut; [done|exact Hi|]. intros r s' E. apply quiet_cancelled in E as (? & ? & L); [|done]. split_and!; auto.
  - eapply resume_shut; [done|exact Hi|]. intros r s' E. apply quiet_cancelled in E as (? & ? & L); [|done]. split_and!; auto.
  - eapply resume_shut; [done|exact Hi|]. intros r s' E. apply quiet_cancelled in E as (? & ? & L); [|done]. split_and!; auto.
  - eapply resume_shut; [done|exact Hi|]. intros r s' E. apply quiet_cancelled in E as (? & ? & L); [|done]. split_and!; auto.
  - by split.
  - by split.
Qed.
Lemma run_shut cmds n acts s : shut cmds n s → shut cmds n (run acts s).
Proof. revert s. induction acts as [|act acts IH]; intros s S; [done|]. apply IH. by apply step_shut. Qed.

(** A cancelled connection is in its [finally]. *)
Lemma cancel_shut cmds k s : shut cmds k s → (k < length (s_hs s))%nat →
  shut cmds (S k) (step (ECancel k) s) ∧ length (s_hs (step (ECancel k) s)) = length (s_hs s).
Proof.
  intros S Hk. pose proof (step_shut cmds k (ECancel k) s S) as [T1 T2 T3 T4].
  destruct (lookup_lt_is_Some_2 (s_hs s) k Hk) as [h Hi].
  assert (Hstep : step (ECancel k) s = resume k (cancelled k h) s) by (cbn [step]; rewrite Hi; unfold step_handler; by destruct (h_phase h)).
  assert (Hlen : length (s_hs (step (ECancel k) s)) = length (s_hs s)).
  { rewrite Hstep. unfold resume. destruct (cancelled _ _ _) as [[]]; cbn; by rewrite ?length_insert. }
  split; [|done]. split; [done|done|lia|]. intros j h' Hj Hh'. destruct (decide (j = k)) as [->|]; [|apply (T4 j); [lia|done]].
  rewrite Hstep in Hh'. destruct (cancelled_total k h (s_svc s)) as (h1 & s1 & E).
  unfold resume in Hh'. rewrite E in Hh'. cbn in Hh'. rewrite list_lookup_insert_eq in Hh' by done. injection Hh' as <-.
  apply quiet_cancelled in E as (_ & _ & L); [by apply L|apply S].
Qed.
Lemma cancel_all_shut s : shut (commands (pipe (s_svc s))) (length (s_hs s)) (cancel_all s) ∧
  length (s_hs (cancel_all s)) = length (s_hs s).
Proof.
  assert (Hgo : ∀ m k t, shut (commands (pipe (s_svc s))) k t → (k + m)%nat = length (s_hs t) →
    let t' := run (ECancel <$> seq k m) t in
    shut (commands (pipe (s_svc s))) (k + m)%nat t' ∧ length (s_hs t') = length (s_hs t)).
  { intros m. induction m as [|m IH]; intros k t Ht Hl; [by rewrite Nat.add_0_r|].
    destruct (cancel_shut _ k t Ht ltac:(lia)) as [H1 H2]. destruct (IH (S k) (step (ECancel k) t) H1 ltac:(lia)) as [H3 H4].
    cbn [seq fmap list_fmap run foldl]. replace (k + S m)%nat with (S k + m)%nat by lia. split; [exact H3|]. etrans; [exact H4|done]. }
  apply (Hgo _ 0%nat (Sys (set_broken (s_svc s)) (s_hs s))); [|done]. split; cbn; [done|done|lia|lia].
Qed.

(** The connections whose writers are closed have ended. *)
Lemma closed_gone cmds n s m : shut cmds n s → n = length (s_hs s) → (m <= n)%nat →
  let t := run (EClosed <$> seq 0 m) s in
  length (s_hs t) = n ∧ ∀ i h, (i < m)%nat → s_hs t !! i = Some h → h_phase h = Gone.
Proof.
  intros S Hn. induction m as [|m IH]; intros Hm; [split; [done|lia]|]. destruct (IH ltac:(lia)) as [L G].
  rewrite seq_S, fmap_app. unfold run. rewrite foldl_app. fold (run (EClosed <$> seq 0 m) s). cbn [fmap list_fmap foldl Nat.add].
  set (u := run (EClosed <$> seq 0 m) s) in *. assert (U : shut cmds n u) by by apply run_shut.
  clearbody u. cbn [step]. destruct (s_hs u !! m) as [h0|] eqn:Hi; [|apply lookup_ge_None in Hi; lia].
  pose proof (st_leaving _ _ _ U m h0 ltac:(lia) Hi) as Hl. unfold step_handler.
  destruct (h_phase h0) eqn:Hp; try done; cbn.
  - rewrite length_insert. split; [done|]. intros i h Hlt Hh. destruct (decide (i = m)) as [->|].
    + rewrite list_lookup_insert_eq in Hh by lia. by injection Hh as <-.
    + rewrite list_lookup_insert_ne in Hh by done. eapply G; [|done]. lia.
  - split; [done|]. intros i h Hlt Hh. destruct (decide (i = m)) as [->|]; [congruence|]. eapply G; [|done]. lia.
Qed.

(** C30.  The service ends: whatever it was doing, once [close] has cancelled its
    connections no command is ever written to the worker again, whatever happens
    later and however it is interleaved; the connections it had are all in their
    last step, and end with their writers; and anyone who still connects gets an
    error frame and leaves. *)
Theorem service_closes s later :
  let c := cancel_all s in
  let e := run later c in
  broken (s_svc e) = true ∧
  commands (pipe (s_svc e)) = commands (pipe (s_svc s)) ∧
  (∀ i h, (i < length (s_hs s))%nat → s_hs e !! i = Some h → leaving (h_phase h)) ∧
  (∀ i h, s_hs (run (EClosed <$> seq 0 (length (s_hs s))) c) !! i = Some h → h_phase h = Gone) ∧
  (∀ cert h svc, handle_begin cert (s_svc e) = (Ok h, svc) →
     h_owned h = false ∧ ∃ code, (code = 1 ∨ code = 4) ∧ h_phase h = Sending (error_frame code) ToLeave).
Proof.
  intros c e. destruct (cancel_all_shut s) as [S L]. fold c in S, L. pose proof (run_shut _ _ later _ S) as E. fold e in E.
  split_and!; try apply E.
  - destruct (closed_gone _ _ c (length (s_hs s)) S ltac:(done) ltac:(lia)) as [Hlen Hg].
    intros i h Hi. eapply Hg, Hi. apply lookup_lt_Some in Hi. by rewrite Hlen in Hi.
  - intros cert h svc. unfold handle_begin. destruct (slot_for _ _); [rewrite (st_broken _ _ _ E)|]; intros [= <- <-]; (split; [done|]); eauto.
Qed.
