(* ===== verification/ServerLife.v ===== *)
(** * The lifetimes of the servers

    The entry points that own a server: [serve] of [src/scripts/game.py],
    [src/scripts/lab.py] and [src/scripts/tpm_attestation.py], [run] of
    [src/scripts/session_admission.py], and the two wrappers that own a signal
    handler.  Each is the sequence of calls it makes; how a call ends is the
    environment's, and what is acquired is released on every path. *)

From S2P Require Import Prelude.

Module ServerLife.

Inductive signal := SIGINT | SIGTERM.
#[global] Instance signal_eq_dec : EqDecision signal.
Proof. solve_decision. Defined.

Inductive call :=
| LoadTls                      (* [tls_context] *)
| MakeService                  (* the constructor of the service, with its configuration *)
| StartService                 (* [service.start()] *)
| Listen                       (* [asyncio.start_server] *)
| Announce                     (* the line on the standard output *)
| AddHandler (s : signal)
| RemoveHandler (s : signal)
| Watch                        (* the two watchers of [game.py] *)
| StopWatchers
| WaitStop                     (* until a signal, the worker's exit or a cancellation *)
| CloseServer
| WaitServer
| CloseService
| Body.                        (* what a wrapper wraps *)
#[global] Instance call_eq_dec : EqDecision call.
Proof. solve_decision. Defined.

(** How the [n]th call of a run ends. *)
Class Host := outcome : nat → call → result unit.

(** The calls made, each with whether it returned. *)
Definition trace := list (call * bool).
Definition made (c : call) (t : trace) : bool := bool_decide ((c, true) ∈ t).

Section life.
Context `{Host}.

Definition do (c : call) : st trace unit := λ t,
  let r := outcome (length t) c in (r, t ++ [(c, is_Ok r)]).
Fixpoint each {A} (f : A → st trace unit) (l : list A) : st trace unit :=
  match l with [] => mret tt | x :: l => _ ← f x; each f l end.
Definition handlers : list signal := [SIGINT; SIGTERM].
Definition when (b : bool) (m : st trace unit) : st trace unit := if b then m else mret tt.

(** [async with server: await stop.wait()] *)
Definition with_server : st trace unit :=
  try_finally (do WaitStop) (_ ← do CloseServer; do WaitServer).

(** [game.py serve]; [worker_exited] tells which watcher is done. *)
Definition serve_game (worker_exited : bool) : st trace unit :=
  _ ← do LoadTls;
  _ ← do MakeService;
  _ ← do StartService;
  try_finally
    (_ ← do Listen;
     _ ← each (λ s, do (AddHandler s)) handlers;
     _ ← do Announce;
     _ ← do Watch;
     _ ← do WaitStop;
     raise_when worker_exited (RuntimeError "GAME_WORKER_EXITED"))
    (watchers ← gets (made Watch);
     _ ← when watchers (do StopWatchers);
     signals ← gets (λ t, filter (λ s, made (AddHandler s) t = true) handlers);
     _ ← each (λ s, do (RemoveHandler s)) signals;
     server ← gets (made Listen);
     _ ← when server (_ ← do CloseServer; do WaitServer);
     do CloseService).

(** [lab.py serve]; a platform without signal handlers raises
    [NotImplementedError], which is ignored. *)
Definition serve_lab (has_handlers : bool) : st trace unit :=
  _ ← do MakeService;
  _ ← do LoadTls;
  _ ← each (λ s, when has_handlers (do (AddHandler s))) handlers;
  _ ← do Listen;
  _ ← do Announce;
  try_finally with_server (do CloseService).

(** [tpm_attestation.py serve] *)
Definition serve_attestation : st trace unit :=
  _ ← do MakeService;
  _ ← do LoadTls;
  _ ← do Listen;
  _ ← do Announce;
  _ ← each (λ s, do (AddHandler s)) handlers;
  try_finally with_server
    (_ ← do CloseService; each (λ s, do (RemoveHandler s)) handlers).

(** [session_admission.py run]: a request, by the answer it gets, or the server. *)
Definition run_admission (request : option (result bool)) : st trace Z :=
  _ ← do LoadTls;
  match request with
  | Some answer => error ← lift answer; mret (if (error : bool) then 1 else 0)
  | None =>
      _ ← do MakeService;
      _ ← do Listen;
      _ ← do Announce;
      _ ← each (λ s, do (AddHandler s)) handlers;
      _ ← try_finally with_server
            (_ ← do CloseService; each (λ s, do (RemoveHandler s)) handlers);
      mret 0
  end.

(** [graphical_run] of [game.py] and [supervised_match] of [jugar.py]. *)
Definition with_sigterm : st trace unit :=
  _ ← do (AddHandler SIGTERM);
  try_finally (do Body) (do (RemoveHandler SIGTERM)).

End life.

(** ** What has been acquired is released *)

Definition is_release (c : call) : bool :=
  match c with RemoveHandler _ | StopWatchers | CloseServer | WaitServer | CloseService => true | _ => false end.

Section release.
Context (host : Host).
(** Releasing does not fail. *)
Hypothesis releases : ∀ n c, is_release c = true → host n c = Ok tt.

(** Run the code, one outcome at a time. *)
Ltac go E :=
  vm_compute in E;
  repeat (match type of E with
          | context [host ?n ?c] => first [rewrite (releases n c eq_refl) in E|destruct (host n c) as [[]|?]]
          end; vm_compute in E).
Ltac holds := repeat split; vm_compute; reflexivity.
Ltac implied := let h := fresh in intros h; vm_compute in h; first [discriminate h|holds].
Ltac both := split; [intros h; first [discriminate h|holds]|intros [h1 h2]; first [holds|vm_compute in h1, h2; discriminate]].

(** The game server, on every path: when its service has started, the service is
    closed last of all; a server that listens is closed first and waited for, the
    handlers installed are removed and the watchers stopped; and it returns only
    if every call did and the worker had not exited. *)
Theorem game_released worker_exited r t :
  serve_game worker_exited [] = (r, t) →
  (made StartService t = true → last t = Some (CloseService, true)) ∧
  (made Listen t = true → made CloseServer t = true ∧ made WaitServer t = true) ∧
  (∀ s, made (AddHandler s) t = made (RemoveHandler s) t) ∧
  made Watch t = made StopWatchers t ∧
  (r = Ok tt ↔ forallb snd t = true ∧ worker_exited = false).
Proof.
  destruct worker_exited; intros E; go E; injection E as <- <-;
    (split; [implied|]; split; [implied|]; split; [intros []; holds|]; split; [holds|both]).
Qed.

(** The laboratory's server, the attestation server and the admission service:
    when it comes to waiting for a signal, the server is closed, waited for, and
    the service closed, and the latter two remove their handlers; each returns
    only if it came to that and its wait returned. *)
Theorem servers_released :
  (∀ has_handlers r t, serve_lab has_handlers [] = (r, t) →
     (existsb (λ e, bool_decide (e.1 = WaitStop)) t = true → drop (length t - 3) t = [(CloseServer, true); (WaitServer, true); (CloseService, true)]) ∧
     (r = Ok tt ↔ made WaitStop t = true)) ∧
  (∀ r t, serve_attestation [] = (r, t) →
     (existsb (λ e, bool_decide (e.1 = WaitStop)) t = true →
        drop (length t - 5) t = [(CloseServer, true); (WaitServer, true); (CloseService, true);
                                 (RemoveHandler SIGINT, true); (RemoveHandler SIGTERM, true)]) ∧
     (r = Ok tt ↔ made WaitStop t = true)) ∧
  (∀ r t, run_admission None [] = (r, t) →
     (existsb (λ e, bool_decide (e.1 = WaitStop)) t = true →
        drop (length t - 5) t = [(CloseServer, true); (WaitServer, true); (CloseService, true);
                                 (RemoveHandler SIGINT, true); (RemoveHandler SIGTERM, true)]) ∧
     (r = Ok 0 ↔ made WaitStop t = true)) ∧
  (∀ r t, with_sigterm [] = (r, t) → made (AddHandler SIGTERM) t = made (RemoveHandler SIGTERM) t).
Proof.
  split; [intros []|split; [|split]]; intros r t E; go E;
    (injection E as <- <-; first [holds|split; [implied|split; intros h; first [holds|discriminate h|vm_compute in h; discriminate h]]]).
Qed.
End release.
End ServerLife.
