(* ===== verification/AttestationSuite.v ===== *)
(** * The offline attestation cases ([src/scripts/verificar-atestacion.py])

    The repository's own checks of the attestation protocol, run against the
    model of [Attestation] with a software TPM: quotes in the format of the
    fixtures, signed by a keyed digest, and the two programs that read them.  The
    refusal of TLS without a certificate and the cases on the C decoder's memory
    are not here; those on the hardware workspace are in [TpmHardware]. *)

From S2P Require Import Prelude Bytes Sha256 Json JsonCanon Stream Env Dict Connection Attestation.
Import Json Stream Attestation.

(** ** [base64.b64encode] *)

Definition b64_char (x : Z) : Z :=
  if x <? 26 then 65 + x else if x <? 52 then 71 + x else if x <? 62 then x - 4 else if x =? 62 then 43 else 47.
Fixpoint b64encode (l : bytes) : pystr :=
  match l with
  | [] => []
  | [x] => [b64_char (b2z x / 4); b64_char (b2z x mod 4 * 16); 61; 61]
  | [x; y] => [b64_char (b2z x / 4); b64_char (b2z x mod 4 * 16 + b2z y / 16); b64_char (b2z y mod 16 * 4); 61]
  | x :: y :: z :: l =>
      [b64_char (b2z x / 4); b64_char (b2z x mod 4 * 16 + b2z y / 16);
       b64_char (b2z y mod 16 * 4 + b2z z / 64); b64_char (b2z z mod 64)] ++ b64encode l
  end.

(** ** The fixtures *)

Module AttestationSuite.

(** [openssl dgst -sha256 -sign private.pem] *)
Class Signer := sign : bytes → bytes.

(** [fixture(challenge, directory, pcrs, nonce, selection)] *)
Definition fixture `{Signer} (c : challenge) (pcrs : option bytes) (nonce : option pystr) (selection : bytes) : result dict :=
  let pcrs := default (z2b ∘ Z.of_nat <$> seq 0 64) pcrs in
  q ← match nonce with Some n => Ok n | None => qualification c end;
  let extra := from_hex q in
  let quote := be_encode 4 0xff544347 ++ be_encode 2 0x8018 ++ be_encode 2 0 ++ be_encode 2 (len extra) ++ extra ++
    be_encode 8 0 ++ be_encode 4 0 ++ be_encode 4 0 ++ [x01] ++ be_encode 8 0 ++
    be_encode 4 1 ++ be_encode 2 0x000b ++ [x03] ++ selection ++ be_encode 2 32 ++ sha256 pcrs in
  let raw := sign quote in
  let signature := be_encode 2 0x0014 ++ be_encode 2 0x000b ++ be_encode 2 (len raw) ++ raw in
  Ok [(u "protocol_version", VStr PROTOCOL); (u "session_id", VStr (session_id c));
      (u "quote", VStr (b64encode quote)); (u "signature", VStr (b64encode signature)); (u "pcrs", VStr (b64encode pcrs))].
Definition pcr_0_7 : bytes := [x81; x00; x00].

(** *** The software TPM *)

Definition ak : bytes := b "-----BEGIN PUBLIC KEY-----".
#[export] Instance software_key : Signer := λ quote, sha256 (ak ++ quote).
(** The quote's fields, at the places [fixture] puts them. *)
Definition q_extra (quote : bytes) : bytes := slice quote 10 42.
Definition q_selection (quote : bytes) : bytes := slice quote 74 77.
Definition q_digest (quote : bytes) : bytes := slice quote 79 111.
Definition well_formed (quote : bytes) : bool :=
  (len quote =? 111) && bool_decide (take 10 quote = be_encode 4 0xff544347 ++ be_encode 2 0x8018 ++ be_encode 2 0 ++ be_encode 2 32).
#[export] Instance software_tpm : TpmTools := {|
  inspect_quote := λ _ quote,
    if well_formed quote then
      Ok (0, dumps (VDict [(u "cryptographic_validity", status "not_verified"); (u "qualification", VStr (hex_of (q_extra quote)));
                           (u "pcr_selection_matches", VBool (bool_decide (q_selection quote = pcr_0_7)))]))
    else Ok (1, []);
  checkquote := λ _ key quote signature pcrs _ qualification,
    Ok (if bool_decide (signature = be_encode 2 0x0014 ++ be_encode 2 0x000b ++ be_encode 2 32 ++ sha256 (key ++ quote)) &&
           bool_decide (hex_of (q_extra quote) = qualification) && bool_decide (sha256 pcrs = q_digest quote)
        then 0 else 1) |}.

(** No time passes but what a case makes pass; every draw is new. *)
#[export] Instance suite_env : Env := {|
  tick := λ _, 0%N;
  wall := λ _, 1000000%N;
  entropy := λ n i, z2b (match i with O => Z.of_nat n | S O => Z.of_nat n / 256 | _ => 7 end) |}.

(** ** The cases *)

Definition check {S} (b : bool) : st S unit := raise_when (negb b) AssertionError.
Definition field_is (d : dict) (k : string) (v : value) : bool :=
  match d_get d (u k) with Some x => py_eq x v | None => false end.
Definition decided (d : dict) (s : string) : bool := field_is d "decision" (status s).
Definition because (d : dict) (s : string) : bool := field_is d "reasons" (VList [status s]).
(** The call must raise [ValueError(reason)], or any [ValueError]. *)
Definition raises {S A} (reason : option string) (m : st S A) : st S unit := λ s,
  match m s with
  | (Raise (ValueError r), s') => if bool_decide (reason = None) || bool_decide (reason = Some r) then (Ok tt, s') else (Raise AssertionError, s')
  | (_, s') => (Raise AssertionError, s')
  end.
Definition at_time {X} (t : Z) : st (world * X) unit := modify (λ s, (World t (events s.1), s.2)).
Definition made `{Signer} {X} (c : challenge) : st (world * X) dict := lift (fixture c None None pcr_0_7).
Definition ms (z : Z) : Z := z * ns_per_ms.
Definition client : pystr := u "client".

Section server_cases.
Context {V : Type} `{Verifier V}.
Abbreviation server_st := (st (world * AttestationServer V)).

(** The first cases of [main], at [now[0] = 1.0] with [ttl_ms=100]. *)
Definition one_use : server_st unit :=
  c ← issue client; e ← made c; r ← submit client e;
  _ ← check (decided r "ALLOW" && field_is r "cryptographic_validity" (status "verified") &&
             field_is r "freshness_validity" (status "verified") && field_is r "tpm_identity_validity" (status "not_proven"));
  r ← submit client e; check (because r "CHALLENGE_REUSED").

(** [raw[-1] ^= 1] of a base64 field *)
Definition flip_last (l : bytes) : bytes :=
  take (length l - 1) l ++ ((λ x, z2b (Z.lxor (b2z x) 1)) <$> drop (length l - 1) l).
Definition damaged (e : dict) (kind : string) : result dict :=
  v ← d_item e (u kind);
  match v with
  | VStr s => raw ← b64decode s; Ok (d_set e (u kind) (VStr (b64encode (flip_last raw))))
  | _ => Raise TypeError
  end.
Definition modified (kind reason : string) : server_st unit :=
  c ← issue client;
  e ← lift (fixture c None (if decide (kind = "nonce") then Some (replicate 64 48) else None)%string pcr_0_7);
  e ← (if decide (kind = "nonce")%string then mret e else lift (damaged e kind));
  r ← submit client e; check (decided r "DENY" && because r reason).
Definition modifications : server_st unit :=
  _ ← modified "nonce" "NONCE_MISMATCH";
  _ ← modified "signature" "SIGNATURE_OR_PCR_DIGEST_INVALID";
  modified "pcrs" "SIGNATURE_OR_PCR_DIGEST_INVALID".

Definition binding_and_expiry : server_st unit :=
  c ← issue client; e ← made c;
  r ← submit (u "other") e; _ ← check (because r "UNKNOWN_SESSION");
  now ← gets (λ s, mono s.1); _ ← at_time (now + ms 100);
  r ← submit client e; check (because r "CHALLENGE_EXPIRED").

Definition no_moving : server_st unit :=
  c ← issue client; other ← issue client; e ← made c;
  let e := d_set e (u "session_id") (VStr (session_id other)) in
  r ← submit client e; _ ← check (because r "NONCE_MISMATCH");
  raises None (submit client (d_set e (u "ak_public") (status "untrusted"))).

(** Two submissions at once: both arrive before the first is verified. *)
Definition concurrent : server_st unit :=
  _ ← at_time (ms 2000);
  c ← issue client; e ← made c;
  first ← submit_begin client e;
  second ← submit_begin client e;
  match first, second with
  | inr (base, session), inl r2 =>
      self ← gets snd;
      r1 ← on_world (submit_finish (srv_verifier self) e base session);
      check (decided r1 "ALLOW" && decided r2 "DENY" && because r2 "CHALLENGE_REUSED")
  | _, _ => raise AssertionError
  end.
End server_cases.

(** [a.decode] of malformed frames, written with single quotation marks. *)
Definition quoted (s : string) : bytes := (λ x, if decide (x = x27) then x22 else x) <$> b s.
Definition malformed : list bytes :=
  [quoted "{'x':1,'x':2}"; quoted "{'x':NaN}"; quoted "{'x':1.5}"; quoted "{'x':'\ud800'}";
   quoted "{'x':" ++ replicate 1000 x5b ++ b "0" ++ replicate 1000 x5d ++ b "}"; b "{}x"; quoted "'string'";
   quoted "{'x':'" ++ [xff] ++ quoted "'}"].
Definition rejected {A} (r : result A) : bool := match r with Raise (ValueError _) => true | _ => false end.

(** The cases of [main] on one server, in their order. *)
Definition main_cases {V : Type} `{Verifier V} : st (world * AttestationServer V) unit :=
  _ ← one_use; _ ← modifications; _ ← binding_and_expiry; _ ← no_moving;
  _ ← check (forallb (λ raw, rejected (decode raw)) malformed);
  concurrent.

(** *** [state_cases] *)

(** Verification that takes a second, and a verifier that is not there. *)
Inductive DelayedVerifier := Delayed (v : QuoteVerifier).
#[export] Instance delayed_verifier : Verifier DelayedVerifier := {|
  v_policy_id := λ _, POLICY;
  v_pcr_selection := λ _, u "sha256:0,7";
  v_ak_sha256 := λ '(Delayed v), ak_sha256 v;
  v_verify := λ '(Delayed v) evidence c,
    result ← quote_verify v evidence c;
    _ ← modify (λ w, World (mono w + 1 * ns_per_s) (events w));
    mret result |}.
Inductive UnavailableVerifier := Unavailable (v : QuoteVerifier).
#[export] Instance unavailable_verifier : Verifier UnavailableVerifier := {|
  v_policy_id := λ _, POLICY;
  v_pcr_selection := λ _, u "sha256:0,7";
  v_ak_sha256 := λ '(Unavailable v), ak_sha256 v;
  v_verify := λ _ _ _, raise (OSError "test verifier unavailable") |}.

(** A server of its own for a case. *)
Definition on_server {V : Type} `{Verifier V} (v : V) (ttl maximum : Z) (m : st (world * AttestationServer V) unit) : st world unit := λ w,
  match new_server v ttl maximum with
  | Ok srv => let '(r, (w, _)) := m (w, srv) in (r, w)
  | Raise e => (Raise e, w)
  end.

Definition capacity_case : st (world * AttestationServer QuoteVerifier) unit :=
  c ← issue client; e ← made c;
  _ ← raises (Some "SESSION_LIMIT"%string) (issue client);
  r ← submit client (d_set e (u "quote") (status "not base64")); _ ← check (because r "INVALID_PAYLOAD");
  r ← submit client e; _ ← check (because r "CHALLENGE_REUSED");
  _ ← at_time (ms 61000);
  fresh ← issue client;
  n ← gets (λ s, map_size (sessions s.2));
  _ ← check ((n =? 1) && negb (bool_decide (session_id fresh = session_id c)));
  r ← submit client e; check (because r "UNKNOWN_SESSION").
Definition delayed_case : st (world * AttestationServer DelayedVerifier) unit :=
  c ← issue client; e ← made c; r ← submit client e;
  check (decided r "DENY" && because r "CHALLENGE_EXPIRED" &&
         field_is r "cryptographic_validity" (status "verified") && field_is r "freshness_validity" (status "failed")).
Definition unavailable_case : st (world * AttestationServer UnavailableVerifier) unit :=
  c ← issue client; e ← made c; r ← submit client e;
  check (decided r "INDETERMINATE" && because r "VERIFIER_ERROR").
Definition state_cases (v : QuoteVerifier) : st world unit :=
  _ ← modify (λ w, World 0 (events w));
  _ ← on_server v 100 1 capacity_case;
  _ ← on_server (Delayed v) 100 64 delayed_case;
  on_server (Unavailable v) 10000 64 unavailable_case.

(** *** [reference_cases] *)

Definition hex_range (a n : nat) : pystr := hex_of (z2b ∘ Z.of_nat <$> seq a n).
Definition reference_value (zero seven : pystr) : value :=
  VDict [(u "policy_version", status "pcr-reference/1");
         (u "sha256", VDict [(u "0", VStr zero); (u "7", VStr seven)])].
Definition written (v : value) : bytes := ascii_bytes (dumps v).
Definition zeros_64 : pystr := replicate 64 48.
Definition invalid_references : list value :=
  [VDict [];
   VDict [(u "policy_version", status "pcr-reference/1"); (u "sha256", VDict [(u "0", VStr (replicate 64 102)); (u "7", VStr (hex_range 32 32))]); (u "extra", VBool true)];
   VDict [(u "policy_version", status "pcr-reference/1"); (u "sha256", VDict [(u "0", VStr zeros_64)])];
   VDict [(u "policy_version", status "pcr-reference/1"); (u "sha256", VDict [(u "0", VBool true); (u "7", VStr zeros_64)])];
   VDict [(u "policy_version", status "pcr-reference/1"); (u "sha256", VDict [(u "0", VStr (replicate 64 103)); (u "7", VStr zeros_64)])]].
Definition reference_server (replacement : QuoteVerifier) : st (world * AttestationServer QuoteVerifier) unit :=
  c ← issue client; e ← made c; r ← submit client e;
  _ ← check (decided r "ALLOW" && field_is r "pcr_reference_validity" (status "matched") &&
             bool_decide (take 17 (c_policy_id c) = u "pcr-reference-v1:"));
  c ← issue client; e ← lift (fixture c (Some (replicate 64 (z2b 99))) None pcr_0_7); r ← submit client e;
  _ ← check (decided r "DENY" && because r "PCR_REFERENCE_MISMATCH" &&
             field_is r "cryptographic_validity" (status "verified") && field_is r "freshness_validity" (status "verified") &&
             field_is r "policy_validity" (status "failed") && field_is r "pcr_reference_validity" (status "mismatch"));
  self ← gets snd;
  _ ← check (negb (bool_decide (policy_id replacement = policy_id (srv_verifier self))));
  c ← issue client; e ← made c; r ← submit client e;
  _ ← check (decided r "ALLOW");
  check (forallb (λ bad, rejected (load_reference (written bad))) invalid_references).
Definition reference_cases : st world unit :=
  v ← lift (new_quote_verifier ak (Some (written (reference_value (hex_range 0 32) (hex_range 32 32)))) (u "sha256:0,7"));
  replacement ← lift (new_quote_verifier ak (Some (written (reference_value (replicate 64 102) (hex_range 32 32)))) (u "sha256:0,7"));
  on_server v 10000 64 (reference_server replacement).

(** *** [tls_case] *)

(** The other side of a connection: the certificate of the client; nobody else is
    connected.  The client reads what the handler writes once it has been sent
    [input]; what the handler does later does not change what it has written. *)
#[local] Instance only_client : Peer := {| certificate := b "client"; drain_outcome := λ _, Ok tt |}.
Definition heard `{Env} {V : Type} `{Verifier V} (input : bytes) (x : world * AttestationServer V) :
    list bytes * (world * AttestationServer V) :=
  let start := Conn (Reader (buffered input (mono x.1)) None (mono x.1)) [] x.1 x.2 in
  let c := (handle (H2 := λ _ s, s) 0 start).2 in (c_out c, (c_world c, c_obj c)).
(** [a.receive(reader)] of the [i]th message of the server. *)
Definition received (frames : list bytes) (i : nat) : result dict :=
  match frames !! i with
  | Some frame => (receive (4 * ns_per_s) (Reader (buffered frame 0) None 0)).1
  | None => Raise IncompleteReadError
  end.
Definition request_frame : result bytes := match session_request with VDict d => encode d | _ => Raise TypeError end.

(** The fields of a challenge that [qualification] reads. *)
Definition str_item (d : dict) (k : string) : result pystr :=
  v ← d_item d (u k); match v with VStr s => Ok s | _ => Raise TypeError end.
Definition int_item (d : dict) (k : string) : result Z :=
  v ← d_item d (u k); match v with VInt z => Ok z | _ => Raise StructError end.
Definition read_challenge (d : dict) : result challenge :=
  sid ← str_item d "session_id"; n ← str_item d "nonce";
  created ← int_item d "created_at"; expires ← int_item d "expires_at";
  policy ← str_item d "policy_id"; ak ← str_item d "ak_sha256";
  Ok (Challenge sid n created expires policy [] ak).

Section tls.
Context {V : Type} `{Verifier V}.
Abbreviation server_st := (st (world * AttestationServer V)).
(** [exchange(replayed)]: the evidence is made of the challenge received. *)
Definition exchange (replayed : option dict) : server_st (dict * dict) :=
  request ← lift request_frame;
  frames ← gets (λ x, (heard request x).1);
  challenge ← lift (received frames 0);
  evidence ← match replayed with
             | Some evidence => mret evidence
             | None => c ← lift (read_challenge challenge); lift (fixture c None None pcr_0_7)
             end;
  message ← lift (encode evidence);
  frames ← (λ x, let '(frames, x) := heard (request ++ message) x in (Ok frames, x));
  decision ← lift (received frames 1);
  mret (decision, evidence).
Definition tls_case : server_st unit :=
  '(r, evidence) ← exchange None; _ ← check (decided r "ALLOW");
  '(r, _) ← exchange (Some evidence); check (because r "CHALLENGE_REUSED").
End tls.

(** *** [framing_cases] *)

Definition read_back (v : value) (r : reader) : result reader :=
  match receive (4 * ns_per_s) r with
  | (Ok d, r) => raise_if! negb (py_eq (VDict d) v) then AssertionError; Ok r
  | (Raise e, _) => Raise e
  end.
Definition invalid_frame (raw : bytes) : bool :=
  match (receive (4 * ns_per_s) (Reader (buffered raw 0) (Some 0) 0)).1 with
  | Raise (ValueError _) | Raise IncompleteReadError => true
  | _ => false
  end.
Definition framing_cases : result unit :=
  let value := session_request in
  frame ← request_frame;
  r ← read_back value (Reader (imap (λ i x, (Z.of_nat i, x)) frame) None 0);
  r ← read_back value (Reader (buffered (frame ++ frame) (now r)) None (now r));
  _ ← read_back value r;
  raise_if! negb (forallb invalid_frame
    [be_encode 4 0; be_encode 4 (MAX_FRAME + 1); take 2 frame; take (length frame - 1) frame]) then AssertionError;
  match (receive (ms 20) (Reader [] None 0)).1 with Raise TimeoutError => Ok tt | _ => Raise AssertionError end.

(** [main], for the cases in the process. *)
Definition main : st world unit :=
  v ← lift (new_quote_verifier ak None (u "sha256:0,7"));
  _ ← modify (λ w, World (1 * ns_per_s) (events w));
  _ ← on_server v 100 64 main_cases;
  _ ← on_server v 10000 64 tls_case;
  _ ← lift framing_cases;
  _ ← state_cases v;
  reference_cases.
End AttestationSuite.

(** ** The codec of the fixtures *)

Lemma b64_char_val x : 0 <= x < 64 → b64_val (b64_char x) = Some x ∧ b64_char x <> 61.
Proof.
  intros Hx. unfold b64_char, b64_val.
  destruct (Z.ltb_spec x 26); [|destruct (Z.ltb_spec x 52); [|destruct (Z.ltb_spec x 62); [|destruct (Z.eqb_spec x 62)]]];
    repeat match goal with
    | |- context [(?p <=? ?q) && (?r <=? ?s)] => destruct (Z.leb_spec p q), (Z.leb_spec r s); cbn [andb]; try lia
    | |- context [?p =? ?q] => destruct (Z.eqb_spec p q); try lia
    end; (split; [f_equal; lia|lia]).
Qed.
Lemma a2b_char x s quad left : 0 <= x < 64 →
  a2b (b64_char x :: s) quad 0 left false =
    match quad with
    | 0%nat => a2b s 1 0 x false
    | 1%nat => cons (z2b (left * 4 + x / 16)) <$> a2b s 2 0 (x mod 16) false
    | 2%nat => cons (z2b (left * 16 + x / 4)) <$> a2b s 3 0 (x mod 4) false
    | _ => cons (z2b (left * 64 + x)) <$> a2b s 0 0 0 false
    end.
Proof.
  intros Hx. destruct (b64_char_val x Hx) as [Hv Hne]. cbn [a2b].
  destruct (Z.eqb_spec (b64_char x) 61); [done|]. by rewrite Hv.
Qed.
Lemma z2b_of x z : z = b2z x → z2b z = x.
Proof. intros ->. apply z2b_b2z. Qed.
Lemma a2b_b64encode l : a2b (b64encode l) 0 0 0 false = Ok l.
Proof.
  assert (Hgo : ∀ n (l : bytes), (length l <= n)%nat → a2b (b64encode l) 0 0 0 false = Ok l); [|by apply (Hgo (length l))].
  clear l. intros n. induction n as [|n IH]; intros l Hl; [destruct l; [done|cbn in Hl; lia]|].
  destruct l as [|x [|y [|z l]]]; cbn [b64encode app]; [done|..].
  all: pose proof (b2z_range x); try pose proof (b2z_range y); try pose proof (b2z_range z).
  all: repeat (rewrite a2b_char by (Z.div_mod_to_equations; lia)).
  - cbn. do 2 f_equal. apply z2b_of. Z.div_mod_to_equations. lia.
  - cbn. do 2 f_equal; [|f_equal]; apply z2b_of; Z.div_mod_to_equations; lia.
  - rewrite IH by (cbn in Hl; lia). cbn. f_equal. f_equal; [|f_equal; [|f_equal]]; apply z2b_of; Z.div_mod_to_equations; lia.
Qed.
(** The strict base64 decoder of the protocol accepts what the encoder of the
    evidence produces, and gives back its bytes. *)
Theorem b64_roundtrip l : b64decode (b64encode l) = Ok l.
Proof.
  unfold b64decode. assert (Hc : JsonCanon.ascii (b64encode l) = true ∧ head (b64encode l) ≠ Some 61).
  { assert (Hb : ∀ x, 0 <= x < 64 → ((0 <=? b64_char x) && (b64_char x <? 128)) = true).
    { intros x Hx. destruct (b64_char_val x Hx) as [Hv _]. unfold b64_val in Hv.
      rewrite andb_true_iff, Z.leb_le, Z.ltb_lt. repeat (case_match; bools; [lia|]). done. }
    split.
    - assert (Hgo : ∀ n (l : bytes), (length l <= n)%nat → JsonCanon.ascii (b64encode l) = true); [|by apply (Hgo (length l))].
      clear l. unfold JsonCanon.ascii. intros n. induction n as [|n IH]; intros l Hl; [destruct l; [done|cbn in Hl; lia]|].
      destruct l as [|x [|y [|z l]]]; cbn [b64encode app forallb]; [done|..].
      all: pose proof (b2z_range x); try pose proof (b2z_range y); try pose proof (b2z_range z).
      all: rewrite ?Hb by (Z.div_mod_to_equations; lia); try done. apply IH. cbn in Hl. lia.
    - destruct l as [|x [|y [|z l]]]; cbn [b64encode app head]; [done|..]; intros [= E];
        pose proof (b2z_range x); by destruct (b64_char_val (b2z x / 4)) as [_ ?]; [Z.div_mod_to_equations; lia|]. }
  destruct Hc as [-> Hh]. cbn [negb raise_if mbind result_bind]. rewrite bool_decide_eq_false_2 by done. apply a2b_b64encode.
Qed.

(** The repository's own cases hold of the model. *)
Theorem attestation_suite_passes : (AttestationSuite.main (World 0 0)).1 = Ok tt.
Proof. vm_compute. reflexivity. Qed.
