(* ===== verification/TpmHardware.v ===== *)
(** * The TPM experiment ([src/scripts/verificar-tpm-hardware.py])

    The client of the challenge server that quotes with a TPM, its seven kinds of
    exchange with the server of [Attestation], the workspace that owns the saved
    contexts, and the report.  The [tpm2] programs, openssl, the listening sockets
    and the removal of the workspace are parameters; the times that the report
    quotes are not modelled.  A connection is the handler of the server on what
    the client writes: the client reads the challenge of the handler that has been
    sent the request, and the decision of the same handler once it has also been
    sent the evidence. *)

From S2P Require Import Prelude Bytes Sha256 Json JsonFacts JsonCanon JsonScan Stream Env Dict.
From S2P Require Import Connection Attestation AttestationFacts AttestationServer AttestationSuite.
Import Json Stream Attestation.

Module TpmHardware.

(** ** The programs *)

(** How [subprocess.run] ends: the exit code, or an exception. *)
Class Tpm := {
  getcap : result Z;
  createek : result Z;
  createak : result Z;
  ak_pem : bytes;                                               (* the public key [tpm2_createak] writes *)
  tpm2_quote : nat → pystr → result Z;                          (* the [n]th quote, of a qualification *)
  quoted_files : nat → pystr → bytes * bytes * bytes }.         (* quote, signature and PCR values *)
(** The machine around the experiment. *)
Class Machine := {
  certificates : result unit;
  listen : nat → result unit;                 (* the [n]th [asyncio.start_server] *)
  folder_made : result unit;
  folder_removed : result unit;               (* the exit of [TemporaryDirectory] *)
  folder_gone : bool }.

Definition run (ended : result Z) : result unit :=
  code ← ended; raise_if (negb (code =? 0)) (RuntimeError "exit").

(** ** The client *)

(** The evidence: the three files, with the last bit of one of them flipped when
    [kind] names it. *)
Definition tampered (kind key : string) (data : bytes) : result bytes :=
  if decide (kind = key) then
    raise_if! len data =? 0 then IndexError; Ok (AttestationSuite.flip_last data)
  else Ok data.
Definition make_evidence (kind : string) (sid : value) (files : bytes * bytes * bytes) : result dict :=
  let '(quote, signature, pcrs) := files in
  quote ← tampered kind "quote" quote;
  signature ← tampered kind "signature" signature;
  pcrs ← tampered kind "pcrs" pcrs;
  Ok [(u "protocol_version", VStr PROTOCOL); (u "session_id", sid);
      (u "quote", VStr (b64encode quote)); (u "signature", VStr (b64encode signature)); (u "pcrs", VStr (b64encode pcrs))].

(** An entry of the report. *)
Record case := Case { c_kind : string; quote_size : Z; decision : dict; test_reference : bool }.
Record experiment_state := Experiment {
  e_world : world;
  service : AttestationServer QuoteVerifier;
  cases : list case }.
Abbreviation exp := (st experiment_state).

Section experiment.
Context `{Env} `{TpmTools} `{Tpm} `{Machine}.

(** What the handler writes back, once the client has sent it [input]. *)
Definition connection (input : bytes) : exp (list bytes) := λ x,
  let '(frames, (w, s)) := AttestationSuite.heard input (e_world x, service x) in (Ok frames, Experiment w s (cases x)).
(** The same, while the client may still send more. *)
Definition so_far (input : bytes) : exp (list bytes) := λ x, ((connection input x).1, x).

Definition zeros_hex : pystr := replicate 64 48.
Definition evidence_for (kind : string) (previous : option dict) (challenge : dict) : exp dict :=
  match previous with
  | Some evidence => mret evidence
  | None =>
      binding ← lift (if decide (kind = "nonce"%string) then Ok zeros_hex
                      else c ← AttestationSuite.read_challenge challenge; qualification c);
      n ← gets (λ x, length (cases x));
      _ ← lift (run (tpm2_quote n binding));
      sid ← lift (d_item challenge (u "session_id"));
      lift (make_evidence kind sid (quoted_files n binding))
  end.
Definition exchange (kind : string) (previous : option dict) : exp (dict * dict) :=
  request ← lift AttestationSuite.request_frame;
  frames ← so_far request;
  challenge ← lift (AttestationSuite.received frames 0);
  evidence ← evidence_for kind previous challenge;
  message ← lift (encode evidence);
  frames ← connection (request ++ message);
  decision ← lift (AttestationSuite.received frames 1);
  size ← lift (q ← AttestationSuite.str_item evidence "quote"; raw ← b64decode q; Ok (len raw));
  _ ← modify (λ x, Experiment (e_world x) (service x) (cases x ++ [Case kind size decision false]));
  mret (decision, evidence).

(** [assert decision[key] == value] *)
Definition expect (d : dict) (key : string) (v : value) : exp unit :=
  x ← lift (d_item d (u key)); raise_when (negb (py_eq x v)) AssertionError.
Definition denied (d : dict) (reason : string) : exp unit := expect d "reasons" (VList [status reason]).

(** A server for the enrolled key, the [i]th. *)
Definition start_service (i : nat) (reference : option bytes) (ttl : Z) : exp unit :=
  v ← lift (new_quote_verifier ak_pem reference (u "sha256:0,7"));
  s ← lift (new_server v ttl 64);
  _ ← lift (listen i);
  modify (λ x, Experiment (e_world x) s (cases x)).

(** [test-reference.json], of the PCR values observed. *)
Definition reference_file (values : bytes) : bytes :=
  AttestationSuite.quoted "{'policy_version': 'pcr-reference/1', 'sha256': {'0': '" ++ ascii_bytes (hex_of (take 32 values)) ++
  AttestationSuite.quoted "', '7': '" ++ ascii_bytes (hex_of (drop 32 values)) ++ AttestationSuite.quoted "'}}".
Definition flip_first (values : bytes) : result bytes :=
  match values with x :: l => Ok (z2b (Z.lxor (b2z x) 1) :: l) | [] => Raise IndexError end.
(** [results['cases'][-1]['reference_source'] = ...] *)
Definition mark_last (l : list case) : list case :=
  match last l with
  | Some x => take (length l - 1) l ++ [Case (c_kind x) (quote_size x) (decision x) true]
  | None => l
  end.
Definition reference_case (matched : bool) (observed : bytes) (evidence : dict) : exp unit :=
  values ← lift (if matched then Ok observed else flip_first observed);
  _ ← start_service (if matched then 1 else 2) (Some (reference_file values)) 10000;
  _ ← (if matched then '(d, _) ← exchange "restart_replay" (Some evidence); denied d "UNKNOWN_SESSION" else mret tt);
  '(d, _) ← exchange (if matched then "reference_match" else "reference_mismatch") None;
  _ ← modify (λ x, Experiment (e_world x) (service x) (mark_last (cases x)));
  _ ← expect d "decision" (status (if matched then "ALLOW" else "DENY"));
  _ ← expect d "cryptographic_validity" (status "verified"); _ ← expect d "freshness_validity" (status "verified");
  _ ← expect d "pcr_reference_validity" (status (if matched then "matched" else "mismatch"));
  if matched then mret tt else denied d "PCR_REFERENCE_MISMATCH".
Definition tampering (kind reason : string) : exp unit := '(d, _) ← exchange kind None; denied d reason.
Definition experiment : exp unit :=
  _ ← lift certificates;
  _ ← start_service 0 None 10000;
  '(d, evidence) ← exchange "valid" None; _ ← expect d "decision" (status "ALLOW");
  '(d, _) ← exchange "replay" (Some evidence); _ ← denied d "CHALLENGE_REUSED";
  _ ← tampering "signature" "SIGNATURE_OR_PCR_DIGEST_INVALID";
  _ ← tampering "pcrs" "SIGNATURE_OR_PCR_DIGEST_INVALID";
  _ ← tampering "nonce" "NONCE_MISMATCH";
  observed ← lift (s ← AttestationSuite.str_item evidence "pcrs"; b64decode s);
  _ ← reference_case true observed evidence;
  reference_case false observed evidence.

(** ** The workspace and the report *)

(** [with hardware_workspace(result)]: what [cleanup] records, and the outcome. *)
Definition hardware_workspace (body : exp unit) : st (experiment_state * list bool) unit := λ '(x, cleanup),
  match folder_made with
  | Raise e => (Raise e, (x, cleanup))
  | Ok _ =>
      let '(r, x) := try_finally body (lift folder_removed) x in
      let cleanup := cleanup ++ [folder_gone] in
      (if folder_gone then r else Raise (RuntimeError "CONTEXT_FILES_CLEANUP_UNCONFIRMED"), (x, cleanup))
  end.
Inductive outcome := DONE | BLOCKED (error : exn).
Record report := Report { r_status : outcome; r_cases : list case; r_cleanup : list bool }.
Definition blocking (e : exn) : bool :=
  is_OSError e || is_RuntimeError e || bool_decide (e = AssertionError) || is_ValueError e || bool_decide (e = SubprocessError) ||
  bool_decide (e = IncompleteReadError).
Definition main_body : st (experiment_state * list bool) unit :=
  _ ← lift (run getcap);
  hardware_workspace (_ ← lift (run createek); _ ← lift (run createak); experiment).
Definition main (x : experiment_state) : result (report * Z) :=
  let '(r, (x, cleanup)) := main_body (x, []) in
  match r with
  | Ok _ => Ok (Report DONE (cases x) cleanup, 0)
  | Raise e => if blocking e then Ok (Report (BLOCKED e) (cases x) cleanup, 2) else Raise e
  end.
End experiment.

(** *** The software TPM of the fixtures *)

Definition pcr_values : bytes := z2b ∘ Z.of_nat <$> seq 0 64.
Definition quote_of (binding : pystr) : bytes :=
  let extra := from_hex binding in
  be_encode 4 0xff544347 ++ be_encode 2 0x8018 ++ be_encode 2 0 ++ be_encode 2 (len extra) ++ extra ++
  be_encode 8 0 ++ be_encode 4 0 ++ be_encode 4 0 ++ [x01] ++ be_encode 8 0 ++
  be_encode 4 1 ++ be_encode 2 0x000b ++ [x03] ++ AttestationSuite.pcr_0_7 ++ be_encode 2 32 ++ sha256 pcr_values.
Definition signature_of (quote : bytes) : bytes :=
  let raw := AttestationSuite.software_key quote in be_encode 2 0x0014 ++ be_encode 2 0x000b ++ be_encode 2 (len raw) ++ raw.
#[export] Instance fixture_tpm : Tpm := {|
  getcap := Ok 0; createek := Ok 0; createak := Ok 0;
  ak_pem := AttestationSuite.ak;
  tpm2_quote := λ _ _, Ok 0;
  quoted_files := λ _ binding, (quote_of binding, signature_of (quote_of binding), pcr_values) |}.
#[export] Instance good_machine : Machine := {|
  certificates := Ok tt; listen := λ _, Ok tt; folder_made := Ok tt; folder_removed := Ok tt; folder_gone := true |}.
Definition blank : experiment_state :=
  Experiment (World 0 0) (Server POLICY (MkQuoteVerifier [] 0 [] [] [] None POLICY) 1 0 ∅) [].
End TpmHardware.
Import TpmHardware.

(** ** What a finished experiment shows *)

(** The exchanges of the report, with the field of the decision each is judged by. *)
Definition verdicts : list (string * string * value * bool) :=
  [("valid", "decision", status "ALLOW", false);
   ("replay", "reasons", VList [status "CHALLENGE_REUSED"], false);
   ("signature", "reasons", VList [status "SIGNATURE_OR_PCR_DIGEST_INVALID"], false);
   ("pcrs", "reasons", VList [status "SIGNATURE_OR_PCR_DIGEST_INVALID"], false);
   ("nonce", "reasons", VList [status "NONCE_MISMATCH"], false);
   ("restart_replay", "reasons", VList [status "UNKNOWN_SESSION"], false);
   ("reference_match", "decision", status "ALLOW", true);
   ("reference_mismatch", "reasons", VList [status "PCR_REFERENCE_MISMATCH"], true)]%string.
Definition judged (c : case) (v : string * string * value * bool) : Prop :=
  let '(kind, field, x, reference) := v in
  c_kind c = kind ∧ test_reference c = reference ∧
  ∃ y, d_get (decision c) (u field) = Some y ∧ py_eq y x = true.

Section report.
Context `{Env} `{TpmTools} `{Tpm} `{Machine}.

Lemma evidence_for_stays kind previous challenge x r x' : evidence_for kind previous challenge x = (r, x') → x' = x.
Proof.
  unfold evidence_for. destruct previous; [by intros [= <- <-]|]. intros E.
  repeat (apply st_bind_inv in E as ([?|?] & ? & E1 & E); [|apply lift_inv in E1 as [_ ->]; naive_solver];
    first [apply lift_inv in E1 as [_ ->]|injection E1 as _ <-]).
  by apply lift_inv in E as [_ ->].
Qed.
Lemma connection_keeps input x r x' : connection input x = (r, x') → cases x' = cases x.
Proof. unfold connection. destruct (AttestationSuite.heard _ _) as [frames [w s]]. by intros [= _ <-]. Qed.
Lemma exchange_adds kind previous x d e x' : exchange kind previous x = (Ok (d, e), x') →
  ∃ n, cases x' = cases x ++ [Case kind n d false].
Proof.
  unfold exchange. intros E.
  apply st_bind_Ok in E as (request & x1 & [_ ->]%lift_inv & E). apply st_bind_Ok in E as (frames & x2 & E2 & E).
  apply st_bind_Ok in E as (challenge & x3 & [_ ->]%lift_inv & E). apply st_bind_Ok in E as (evidence & x4 & E4 & E).
  apply st_bind_Ok in E as (message & x5 & [_ ->]%lift_inv & E). apply st_bind_Ok in E as (frames' & x6 & E6 & E).
  apply st_bind_Ok in E as (decision & x7 & [_ ->]%lift_inv & E). apply st_bind_Ok in E as (size & x8 & [_ ->]%lift_inv & E).
  apply evidence_for_stays in E4 as ->. apply connection_keeps in E6. injection E2 as _ <-.
  apply st_bind_Ok in E as ([] & x9 & E9 & E). injection E9 as <-. injection E as <- _ <-.
  exists size. cbn [cases]. by rewrite E6.
Qed.

(** A computation that, if it returns, has added the exchanges of [vs] to the report. *)
Definition adds {A} (m : exp A) (vs : list (string * string * value * bool)) : Prop := ∀ x a x',
  m x = (Ok a, x') → ∃ l, cases x' = cases x ++ l ∧ Forall2 judged l vs.
Lemma adds_bind {A B} (m : exp A) (f : A → exp B) vs ws : adds m vs → (∀ a, adds (f a) ws) → adds (m ≫= f) (vs ++ ws).
Proof.
  intros Hm Hf x b x' E. apply st_bind_Ok in E as (a & x1 & E1 & E). apply Hm in E1 as (l & E1 & Hl). apply Hf in E as (k & E & Hk).
  exists (l ++ k). split; [by rewrite E, E1, app_assoc|by apply Forall2_app].
Qed.
Lemma adds_ret {A} (a : A) : adds (mret a) [].
Proof. intros x ? x' [= _ <-]. exists []. by rewrite app_nil_r. Qed.
Lemma adds_lift {A} (r : result A) : adds (lift r) [].
Proof. intros x ? x' [_ ->]%lift_inv. exists []. by rewrite app_nil_r. Qed.
Lemma adds_start i reference ttl : adds (start_service i reference ttl) [].
Proof.
  unfold start_service. repeat (apply (adds_bind _ _ [] []); [apply adds_lift|intros]).
  intros x ? x' [= _ <-]. exists []. by rewrite app_nil_r.
Qed.
(** What an [assert] on a decision shows. *)
Definition shows (d : dict) (key : string) (v : value) : Prop := ∃ y, d_get d (u key) = Some y ∧ py_eq y v = true.
Lemma expect_inv d key v x a x' : expect d key v x = (Ok a, x') → x' = x ∧ shows d key v.
Proof.
  unfold expect. intros E. apply st_bind_Ok in E as (y & x1 & [Ey ->]%lift_inv & E). apply raise_when_Ok in E as [E ->].
  bools. split; [done|]. exists y. split; [|done]. by apply d_item_Ok in Ey.
Qed.
Definition adds_seeing (P : Prop) (m : exp unit) (vs : list (string * string * value * bool)) : Prop := ∀ x a x',
  m x = (Ok a, x') → P ∧ ∃ l, cases x' = cases x ++ l ∧ Forall2 judged l vs.
Lemma seeing_expect d key v : adds_seeing (shows d key v) (expect d key v) [].
Proof. intros x a x' [-> Hd]%expect_inv. split; [done|]. exists []. by rewrite app_nil_r. Qed.
Lemma seeing_first d key v m vs : adds m vs → adds_seeing (shows d key v) (_ ← expect d key v; m) vs.
Proof. intros Hm x a x' E. apply st_bind_Ok in E as ([] & x1 & [-> Hd]%expect_inv & E). split; [done|by apply Hm in E]. Qed.
Lemma seeing_later P d key v m vs : adds_seeing P m vs → adds_seeing P (_ ← expect d key v; m) vs.
Proof. intros Hm x a x' E. apply st_bind_Ok in E as ([] & x1 & [-> _]%expect_inv & E). by apply Hm in E. Qed.
(** An exchange whose decision is looked at. *)
Lemma adds_exchange kind previous key v (k : dict → dict → exp unit) vs :
  (∀ d e, adds_seeing (shows d key v) (k d e) vs) →
  adds ('(d, e) ← exchange kind previous; k d e) ((kind, key, v, false) :: vs).
Proof.
  intros Hk x a x' E. apply st_bind_Ok in E as ([d e] & x1 & E1 & E). apply exchange_adds in E1 as [n E1].
  apply Hk in E as (Hd & l & E & Hl).
  exists (Case kind n d false :: l). split; [by rewrite E, E1, <-app_assoc|]. constructor; [|done]. by split_and!.
Qed.
Lemma mark_last_app l c : mark_last (l ++ [c]) = l ++ [Case (c_kind c) (quote_size c) (decision c) true].
Proof. unfold mark_last. rewrite last_snoc, length_app. cbn [length]. by rewrite Nat.add_sub, take_app_length. Qed.
(** The same with the reference of the test. *)
Lemma adds_marked kind previous key v (k : dict → exp unit) :
  (∀ d, adds_seeing (shows d key v) (k d) []) →
  adds ('(d, _) ← exchange kind previous; _ ← modify (λ x, Experiment (e_world x) (service x) (mark_last (cases x))); k d)
    [(kind, key, v, true)].
Proof.
  intros Hk x a x' E. apply st_bind_Ok in E as ([d e] & x1 & E1 & E). apply exchange_adds in E1 as [n E1].
  apply st_bind_Ok in E as ([] & x2 & E2 & E). apply Hk in E as (Hd & l & E & Hl). apply Forall2_nil_inv_r in Hl as ->.
  injection E2 as <-. exists [Case kind n d true]. split; [by rewrite E, app_nil_r; cbn [cases]; rewrite E1, mark_last_app|].
  constructor; [|constructor]. by split_and!.
Qed.
Lemma adds_reference matched observed evidence : adds (reference_case matched observed evidence)
  (if matched then [("restart_replay", "reasons", VList [status "UNKNOWN_SESSION"], false); ("reference_match", "decision", status "ALLOW", true)]
   else [("reference_mismatch", "reasons", VList [status "PCR_REFERENCE_MISMATCH"], true)])%string.
Proof.
  unfold reference_case. destruct matched.
  all: apply (adds_bind _ _ []); [apply adds_lift|intros values]; apply (adds_bind _ _ []); [apply adds_start|intros _].
  - apply (adds_bind _ _ [_] [_]); [apply (adds_exchange _ _ _ _ (λ d _, denied d _)); intros; apply seeing_expect|intros _].
    apply adds_marked. intros d. apply seeing_first. repeat (apply (adds_bind _ _ [] []); [|intros _]); try apply adds_ret.
    all: intros x a x' [-> _]%expect_inv; exists []; by rewrite app_nil_r.
  - apply (adds_bind _ _ [] [_]); [apply adds_ret|intros _]. apply adds_marked. intros d. repeat apply seeing_later. apply seeing_expect.
Qed.
Lemma adds_tampering kind reason : adds (tampering kind reason) [(kind, "reasons"%string, VList [status reason], false)].
Proof. apply (adds_exchange _ _ _ _ (λ d _, denied d _)). intros. apply seeing_expect. Qed.
Lemma experiment_adds : adds experiment verdicts.
Proof.
  unfold experiment, verdicts. apply (adds_bind _ _ []); [apply adds_lift|intros _]. apply (adds_bind _ _ []); [apply adds_start|intros _].
  apply (adds_exchange _ _ _ _ (λ d evidence, _ ← expect d "decision" _; _)). intros d evidence. apply seeing_first.
  apply (adds_exchange _ _ _ _ (λ d _, _ ← denied d _; _)). intros d' _. apply seeing_first.
  do 3 (apply (adds_bind _ _ [_]); [apply adds_tampering|intros _]).
  apply (adds_bind _ _ []); [apply adds_lift|intros observed].
  apply (adds_bind _ _ [_; _] [_]); [apply (adds_reference true)|intros _; apply (adds_reference false)].
Qed.
Lemma finally_lift {S} (m : st S unit) r x x' : try_finally m (lift r) x = (Ok tt, x') → m x = (Ok tt, x').
Proof. unfold try_finally, lift. destruct (m x), r; congruence. Qed.
Lemma run_Ok r a : run r = Ok a → r = Ok 0.
Proof. unfold run. intros E. apply result_bind_Ok in E as (code & -> & E). apply raise_if_Ok in E. bools. by subst. Qed.

(** The report of the experiment is DONE, with exit code 0, only if the TPM
    answered and made its keys, the folder of the saved contexts is gone, and the
    eight exchanges ended as they must: the fresh quote allowed, its replay, the
    changed signature, the changed registers, the foreign nonce and the replay after a
    restart each refused for its reason, and the decision following the reference. *)
Theorem done_report x r : cases x = [] → main x = Ok (r, 0) →
  r_status r = DONE ∧ getcap = Ok 0 ∧ createek = Ok 0 ∧ createak = Ok 0 ∧ r_cleanup r = [true] ∧ Forall2 judged (r_cases r) verdicts.
Proof.
  intros Hx. unfold main. destruct (main_body (x, [])) as [[[]|e] [x' cleanup]] eqn:E; [|by case_match].
  intros [= <-]. cbn [r_status r_cleanup r_cases].
  unfold main_body in E. apply st_bind_Ok in E as ([] & s1 & [H3 ->]%lift_inv & E). apply run_Ok in H3.
  unfold hardware_workspace in E. destruct folder_made; [|done].
  destruct (try_finally _ _ x) as [r1 x1] eqn:E1. destruct folder_gone; [|done]. injection E as -> <- <-.
  apply finally_lift in E1.
  apply st_bind_Ok in E1 as ([] & x3 & [H4 ->]%lift_inv & E1). apply run_Ok in H4.
  apply st_bind_Ok in E1 as ([] & x4 & [H5 ->]%lift_inv & E1). apply run_Ok in H5.
  apply experiment_adds in E1 as (l & E1 & Hl). rewrite Hx in E1. by rewrite E1.
Qed.
End report.

(** ** An enrolled TPM is allowed *)

Section server_time.
Context `{Env} {V : Type} `{VerifierLaws V}.
Implicit Types s : AttestationServer V.

(** What the challenges issued in a run have in common. *)
Definition same_server s s' : Prop := srv_policy_id s' = srv_policy_id s ∧ srv_verifier s' = srv_verifier s.
(** The operations of others: nothing submitted by [who] for this session. *)
Definition foreign (who sid : pystr) (op : pystr + pystr * dict) : Prop :=
  match op with inl _ => True | inr (w, message) => w = who → d_get message (u "session_id") ≠ Some (VStr sid) end.

Lemma server_step_keeps op w s log w' s' log' : server_step op ((w, s), log) = ((w', s'), log') →
  mono w <= mono w' ∧ same_server s s' ∧
  ∀ who sid c d, foreign who sid op → mono w' < d → sessions s !! sid = Some (Session who c d false) →
    sessions s' !! sid = Some (Session who c d false).
Proof.
  destruct log as [issued taken], op as [who|[who message]]; cbn [server_step].
  - destruct (issue who (w, s)) as [r [w1 s1]] eqn:E. apply issue_spec in E as (t & Ht & Hp & Hv & _ & _ & Hr).
    intros Ex. assert (w1 = w' ∧ s1 = s') as [-> ->] by (destruct r; by injection Ex). split; [lia|]. split; [done|].
    intros who' sid c d _ Hd Hs.
    assert (Hl : live t s !! sid = Some (Session who' c d false)).
    { unfold live. apply map_lookup_filter_Some. split; [done|]. cbn [snd s_deadline]. unfold ns_per_s. lia. }
    destruct Hr as [(e & _ & ->)|(c' & _ & Hn & -> & _)]; [done|]. rewrite lookup_insert_ne; [done|]. intros Es. congruence.
  - destruct (submit_begin who message (w, s)) as [r [w1 s1]] eqn:E.
    apply submit_begin_spec in E as (Ht & Hr). intros Ex.
    assert (w1 = w' ∧ s1 = s') as [-> ->] by (destruct r as [[?|[??]]|]; by injection Ex). split; [lia|].
    destruct Hr as [(e & _ & -> & _)|[(sid & reason & _ & ->)|(sid & x & _ & Hm & Hx & Ho & _ & _ & ->)]]; [done..|].
    split; [done|]. intros who' sid' c d Hf _ Hs. cbn [sessions set_sessions]. rewrite lookup_insert_ne; [done|].
    intros <-. rewrite Hs in Hx. injection Hx as <-. by apply (Hf (eq_sym Ho)).
Qed.
Lemma server_run_keeps ops w s log w' s' log' : server_run ops ((w, s), log) = ((w', s'), log') →
  mono w <= mono w' ∧ same_server s s' ∧
  ∀ who sid c d, Forall (foreign who sid) ops → mono w' < d → sessions s !! sid = Some (Session who c d false) →
    sessions s' !! sid = Some (Session who c d false).
Proof.
  revert w s log. induction ops as [|op ops IH]; intros w s log E.
  { injection E as <- <- <-. split; [lia|]. split; [done|]. auto. }
  change (server_run ops (server_step op (w, s, log)) = (w', s', log')) in E.
  destruct (server_step op (w, s, log)) as [[w1 s1] log1] eqn:E1. apply server_step_keeps in E1 as (Hm & [Hp Hv] & Hk).
  apply IH in E as (Hm' & [Hp' Hv'] & Hk'). split; [lia|]. split; [split; congruence|].
  intros who sid c d [Hf Hfs]%Forall_cons Hd Hs. apply Hk'; [done..|]. apply Hk; [done|lia|done].
Qed.
Lemma submit_time who message w s r w' s' : submit who message (w, s) = (r, (w', s')) → mono w <= mono w'.
Proof.
  unfold submit. intros E. apply st_bind_inv in E as (r1 & [w1 s1] & E1 & E).
  apply submit_begin_spec in E1 as (Ht & [(e & -> & _)|[(sid & reason & -> & _)|(sid & x & -> & _)]]).
  - destruct E as [_ [= -> _]]. done.
  - by injection E as _ <- _.
  - apply st_bind_inv in E as (r2 & [w2 s2] & E2 & E). injection E2 as <- <- <-. cbn [snd] in E.
    apply on_world_inv in E as [E _]. apply submit_finish_spec in E as [? _]; [lia|apply base_reply_deny].
Qed.
End server_time.

Section honest.
Context `{Env} `{TpmTools} `{Tpm}.

(** What [tpm2_quote], the inspector and [tpm2_checkquote] do on the [n]th quote by an
    enrolled key: the files are within the limits, the inspector reports the
    qualification that was quoted and the selection of PCR 0 and 7, and the
    signature over it checks; the registers are those of the reference, if any. *)
Definition enrolled (v : QuoteVerifier) (n : nat) (binding : pystr) : Prop :=
  tpm2_quote n binding = Ok 0 ∧
  let '(quote, signature, pcrs) := quoted_files n binding in
  0 < len quote <= 4096 ∧ 0 < len signature <= 1024 ∧ len pcrs = 64 ∧ (∀ r, reference v = Some r → expected r = pcrs) ∧
  ∀ k, checkquote k ak_pem quote signature pcrs (u "sha256:0,7") binding = Ok 0 ∧
  ∃ out structure selection, inspect_quote k quote = Ok (0, out) ∧ loads plain_hooks out = Ok structure ∧
    v_item structure (u "qualification") = Ok (VStr binding) ∧
    v_item structure (u "pcr_selection_matches") = Ok selection ∧ truthy selection = true.

Lemma ascii_hex s : forallb is_hex s = true → JsonCanon.ascii s = true.
Proof.
  intros Hs. unfold JsonCanon.ascii. rewrite forallb_Forall in *. eapply Forall_impl; [exact Hs|]. intros c Hc. unfold is_hex in Hc.
  apply andb_true_iff. rewrite Z.leb_le, Z.ltb_lt. apply orb_true_iff in Hc as [?|?]; bools; lia.
Qed.
Lemma new_verifier_Ok key policy v : new_quote_verifier key policy (u "sha256:0,7") = Ok v →
  public_key v = key ∧ pcr_selection v = u "sha256:0,7" ∧ pcr_size v = 64 ∧ selection_field v = u "pcr_selection_matches" ∧
  JsonCanon.ascii (policy_id v) = true.
Proof.
  unfold new_quote_verifier. intros E. apply result_bind_Ok in E as (x1 & _ & E). apply result_bind_Ok in E as (x2 & _ & E).
  apply result_bind_Ok in E as (x3 & _ & E). apply result_bind_Ok in E as (r & Er & E).
  destruct (decide (u "sha256:0,7" = u "sha256:0,7")) as [_|]; [|done]. injection E as <-.
  split_and!; try done. cbn [policy_id]. destruct r as [r|]; [|done].
  destruct policy as [file|]; [|done]. destruct (load_reference file) as [r'|] eqn:El; [|done]. injection Er as ->.
  unfold load_reference in El. py_inv. case_match; try done.
  apply result_bind_Ok in El as (y1 & _ & El). apply result_bind_Ok in El as (e0 & _ & El). apply result_bind_Ok in El as (p0 & _ & El).
  apply result_bind_Ok in El as (e7 & _ & El). apply result_bind_Ok in El as (p7 & _ & El).
  assert (Hid : ref_policy_id r = u "pcr-reference-v1:" ++ sha256_hex (p0 ++ p7)) by (by injection El as <-). rewrite Hid.
  rewrite ascii_app. apply andb_true_iff. split; [done|]. apply ascii_hex, hex_of_is_hex.
Qed.
(** The evidence of the client for a challenge. *)
Lemma valid_evidence c q x : qualification c = Ok q → tpm2_quote (length (cases x)) q = Ok 0 →
  let '(quote, signature, pcrs) := quoted_files (length (cases x)) q in
  evidence_for "valid" None (challenge_dict c) x =
    (Ok [(u "protocol_version", VStr PROTOCOL); (u "session_id", VStr (session_id c));
         (u "quote", VStr (b64encode quote)); (u "signature", VStr (b64encode signature)); (u "pcrs", VStr (b64encode pcrs))], x).
Proof.
  intros Hq Ht. destruct (quoted_files _ _) as [[quote signature] pcrs] eqn:Ef.
  assert (Hr : AttestationSuite.read_challenge (challenge_dict c) =
    Ok (Challenge (session_id c) (nonce c) (created_at c) (expires_at c) (c_policy_id c) [] (c_ak_sha256 c))) by done.
  unfold evidence_for. destruct (decide ("valid" = "nonce")%string) as [|_]; [done|]. rewrite Hr.
  assert (Hq' : qualification (Challenge (session_id c) (nonce c) (created_at c) (expires_at c) (c_policy_id c) [] (c_ak_sha256 c)) = Ok q) by exact Hq.
  cbn [mbind result_bind]. rewrite Hq'. unfold lift, gets, mbind, st_bind. rewrite Ht, Ef. reflexivity.
Qed.

Lemma decode_b64 d k (data : bytes) limit : d_get d k = Some (VStr (b64encode data)) → 0 < len data <= limit →
  decode_field d k limit = Ok data.
Proof.
  intros Hd [Hl1 Hl2]. unfold decode_field, d_item. rewrite Hd. cbn [mbind result_bind]. rewrite b64_roundtrip. cbn [mbind result_bind].
  apply Z.ltb_lt in Hl1. apply Z.leb_le in Hl2. by rewrite Hl1, Hl2.
Qed.
(** One step of a computation that returns. *)
Tactic Notation "runs" tactic3(t) := apply st_bind_Ok; do 2 eexists; split; [unfold lift; t|].
(** The verifier on the evidence of an enrolled TPM. *)
Lemma verify_enrolled policy v c q x evidence w : new_quote_verifier ak_pem policy (u "sha256:0,7") = Ok v →
  enrolled v (length (cases x)) q → qualification c = Ok q → evidence_for "valid" None (challenge_dict c) x = (Ok evidence, x) →
  ∃ ms w', quote_verify v evidence c w = (Ok (judge (reference v) true true true true ms), w').
Proof.
  intros Hv He Hq Hev. apply new_verifier_Ok in Hv as (Hk & Hsel & Hsize & Hfield & _).
  destruct He as [Ht Hf]. pose proof (valid_evidence c q x Hq Ht) as Hev'.
  destruct (quoted_files (length (cases x)) q) as [[quote signature] pcrs]. destruct Hf as (Hl1 & Hl2 & Hl3 & Href & Htools).
  rewrite Hev in Hev'. injection Hev' as ->.
  assert (Hcmp : compare_digest (VStr q) q = Ok true).
  { apply qualification_Ok in Hq as (_ & _ & ->). unfold compare_digest, sha256_hex. rewrite ascii_hex by apply hex_of_is_hex.
    cbn [negb raise_if mbind result_bind]. by rewrite bool_decide_eq_true_2. }
  assert (Href' : match reference v with None => true | Some r => bool_decide (pcrs = expected r) end = true).
  { destruct (reference v) as [r|]; [|done]. rewrite (Href r eq_refl). by apply bool_decide_eq_true_2. }
  eexists _, _. unfold quote_verify. runs reflexivity.
  runs (by rewrite (decode_b64 _ _ quote)). runs (by rewrite (decode_b64 _ _ signature)).
  runs (rewrite Hsize, (decode_b64 _ _ pcrs); [reflexivity|done|lia]). runs (by rewrite Hsize, Hl3).
  runs reflexivity.
  match goal with |- context [inspect_quote ?k _] => destruct (Htools k) as (_ & out & structure & selection & Hi & Hld & Hst & Hs & Htr) end.
  runs (by rewrite Hi). cbn [fst snd]. change (negb (0 =? 0)) with false. cbv iota. runs (by rewrite Hld).
  runs reflexivity. runs (by rewrite Hst).
  match goal with |- context [checkquote ?k] => destruct (Htools k) as [Hc _] end.
  runs (by rewrite Hk, Hsel, Hc). runs (by rewrite Hq). runs (by rewrite Hcmp). runs (by rewrite Hfield, Hs). runs reflexivity.
  rewrite Htr, Href'. reflexivity.
Qed.


(** What [submit] does first with a complete message for an unused session of its owner. *)
Lemma submit_begin_owner (who : pystr) (message : dict) w (s : AttestationServer QuoteVerifier) sid c d :
  same_keys message submit_fields = true → d_get message (u "protocol_version") = Some (VStr PROTOCOL) →
  d_get message (u "session_id") = Some (VStr sid) → length sid = 32%nat → sessions s !! sid = Some (Session who c d false) →
  let t := mono w + Z.of_N (tick (events w)) in
  ∃ s', submit_begin who message (w, s) =
    (Ok (if d <=? t then inl (with_reasons (base_reply s sid) (status "CHALLENGE_EXPIRED"))
         else inr (base_reply s sid, Session who c d true)), (World t (S (events w)), s')) ∧ srv_verifier s' = srv_verifier s.
Proof.
  intros Hk Hp Hsid Hl Hs t.
  destruct (d <=? t) eqn:Et; eexists; (split; [unfold submit_begin|]).
  1, 3: runs (by rewrite Hk); runs (unfold d_item; by rewrite Hp); runs reflexivity; runs (unfold d_item; by rewrite Hsid);
    cbv iota; runs (unfold len; by rewrite Hl); runs reflexivity; cbn [snd]; rewrite Hs; cbn [owner used];
    rewrite bool_decide_eq_true_2 by done; cbn [negb]; runs reflexivity; cbn [s_deadline];
    match goal with |- context [_ <=? ?x] => change x with t end; rewrite Et.
  all: first [reflexivity|runs reflexivity; reflexivity].
Qed.
Lemma submit_enrolled policy v c q x evidence who w s d r w' s' : new_quote_verifier ak_pem policy (u "sha256:0,7") = Ok v → enrolled v (length (cases x)) q →
  qualification c = Ok q → evidence_for "valid" None (challenge_dict c) x = (Ok evidence, x) →
  length (session_id c) = 32%nat → srv_verifier s = v → sessions s !! session_id c = Some (Session who c d false) →
  submit who evidence (w, s) = (r, (w', s')) → mono w' < d →
  ∃ reply, r = Ok reply ∧ d_get reply (u "decision") = Some (status "ALLOW").
Proof.
  intros Hv He Hq Hev Hl Hsv Hs E Hd.
  pose proof He as [Ht _]. pose proof (valid_evidence c q x Hq Ht) as Hev'.
  destruct (quoted_files _ _) as [[quote signature] pcrs]. rewrite Hev in Hev'. injection Hev' as Hev'.
  edestruct (submit_begin_owner who evidence w s) as (s1 & Hb & Hs1); [by rewrite Hev'..|exact Hl|exact Hs|].
  unfold submit in E. apply st_bind_inv in E as (r1 & [w1 s2] & E1 & E). rewrite Hb in E1. injection E1 as <- <- <-. cbn [mono] in E.
  destruct (Z.leb_spec d (mono w + Z.of_N (tick (events w)))) as [Hlate|Hin].
  { injection E as _ <- _. cbn [mono] in Hd. lia. }
  apply st_bind_inv in E as (r2 & [w2 s2] & E2 & E). injection E2 as <- <- <-. cbn [snd] in E.
  apply on_world_inv in E as [E _]. rewrite Hs1, Hsv in E. unfold submit_finish in E. cbn [v_verify quote_verifier s_challenge] in E.
  destruct (verify_enrolled policy v c q x evidence (World (mono w + Z.of_N (tick (events w))) (S (events w))) Hv He Hq Hev)
    as (ms & w3 & Ev). rewrite Ev in E.
  apply st_bind_inv in E as ([[reason rest]|] & w4 & E3 & E); apply lift_inv in E3 as [E3 ->]; [|done].
  assert (reason = status "SCOPED_POLICY_PASS") as -> by (by injection E3 as <- _).
  apply st_bind_inv in E as (r5 & w5 & E5 & E). apply clock_spec in E5 as [-> _]. cbn [s_deadline] in E.
  destruct (Z.leb_spec d (mono w5)) as [Hlate|_]; injection E as <- <-; [lia|].
  eexists. split; [reflexivity|apply d_get_set_eq].
Qed.

(** C9.  An enrolled TPM is allowed: whatever the server did before and whatever others
    do meanwhile, the evidence its client makes of a challenge is answered with ALLOW
    if it is the first submitted for that session and the answer comes before the
    deadline. *)
Theorem enrolled_tpm_allowed policy v ttl maximum s0 w0 before during log who c ws d x :
  new_quote_verifier ak_pem policy (u "sha256:0,7") = Ok v → new_server v ttl maximum = Ok s0 →
  (∀ q, qualification c = Ok q → enrolled v (length (cases x)) q) →
  issue who (server_run before ((w0, s0), ([], []))).1 = (Ok c, ws) →
  fits_u64 (created_at c) && fits_u64 (expires_at c) = true →
  sessions ws.2 !! session_id c = Some (Session who c d false) → Forall (foreign who (session_id c)) during →
  ∃ evidence, evidence_for "valid" None (challenge_dict c) x = (Ok evidence, x) ∧
    ∀ r w' s', submit who evidence (server_run during (ws, log)).1 = (r, (w', s')) → mono w' < d →
      ∃ reply, r = Ok reply ∧ d_get reply (u "decision") = Some (status "ALLOW").
Proof.
  intros Hv Hs0 He Hi Hfits Hs Hf.
  destruct (server_run before _) as [[w1 s1] log1] eqn:E1. cbn [fst] in Hi. destruct ws as [w2 s2].
  apply server_run_keeps in E1 as (_ & [Hp1 Hv1] & _).
  apply issue_spec in Hi as (t & _ & Hp2 & Hv2 & _ & _ & [(e & He' & _)|(c' & Ec & _ & _ & _ & [Hsid _] & _ & _ & Hpol & _)]); [done|].
  injection Ec as <-.
  assert (Hsrv : srv_verifier s0 = v ∧ srv_policy_id s0 = policy_id v).
  { unfold new_server in Hs0. apply result_bind_Ok in Hs0 as (y & _ & Hs0). by injection Hs0 as <-. }
  destruct Hsrv as [Hsv Hsp]. pose proof (new_verifier_Ok _ _ _ Hv) as (_ & _ & _ & _ & Hasc).
  assert (Hq : qualification c = Ok (sha256_hex (qualification_data c))).
  { unfold qualification. rewrite Hfits, Hpol, Hp1, Hsp, Hasc. reflexivity. }
  pose proof (He _ Hq) as [Ht _].
  pose proof (valid_evidence c _ x Hq Ht) as Hev. destruct (quoted_files _ _) as [[quote signature] pcrs].
  eexists. split; [exact Hev|]. intros r w' s' Es Hd.
  destruct (server_run during _) as [[w3 s3] log3] eqn:E3. cbn [fst] in Es.
  pose proof E3 as E4. apply server_run_keeps in E4 as (_ & [_ Hv3] & Hk).
  pose proof (submit_time _ _ _ _ _ _ _ Es) as Hmono.
  eapply (submit_enrolled policy v c _ x _ who w3 s3 d); [exact Hv|exact (He _ Hq)|exact Hq|exact Hev| | |by apply Hk; [|lia|]|exact Es|done].
  - unfold len in Hsid. lia.
  - congruence.
Qed.
End honest.

(** *** The experiment on the software TPM *)

#[local] Existing Instance AttestationSuite.software_tpm.
#[local] Existing Instance AttestationSuite.suite_env.

(** With a software TPM the experiment is DONE: every exchange and both references
    end as the script expects. *)
Theorem experiment_passes :
  match main blank with
  | Ok (r, code) => (code, r_cleanup r, (λ c, (c_kind c, test_reference c)) <$> r_cases r)
  | Raise _ => (1, [], [])
  end = (0, [true], (λ v, (v.1.1.1, v.2)) <$> verdicts).
Proof. vm_compute. reflexivity. Qed.
Definition blank_report : report := match main blank with Ok (r, _) => r | Raise _ => Report DONE [] [] end.
Lemma done_report_witness : main blank = Ok (blank_report, 0) ∧ r_cleanup blank_report = [true] ∧ Forall2 judged (r_cases blank_report) verdicts.
Proof.
  assert (Hm : main blank = Ok (blank_report, 0)) by (vm_compute; reflexivity).
  split; [exact Hm|]. destruct (done_report blank blank_report eq_refl Hm) as (_ & _ & _ & _ & H1 & H2). split; [exact H1|exact H2].
Defined.

(** The workspace, on success and on an exception: [verificar-atestacion.py]. *)
Definition workspace_case (fail : bool) : bool :=
  match hardware_workspace (raise_when fail (RuntimeError "injected failure")) (blank, []) with
  | (r, (_, cleanup)) =>
      (match r with Ok _ => true | Raise e => fail && bool_decide (e = RuntimeError "injected failure") end) &&
      folder_gone && bool_decide (head cleanup = Some true)
  end.
Lemma workspace_cases_pass : workspace_case false && workspace_case true = true.
Proof. vm_compute. reflexivity. Qed.

(** A server that has issued other challenges, another client that is active
    meanwhile, and a quote by the software TPM. *)
Definition wit_verifier : QuoteVerifier :=
  MkQuoteVerifier (u "sha256:0,7") 64 (u "pcr_selection_matches") AttestationSuite.ak (sha256_hex AttestationSuite.ak) None POLICY.
Definition wit_server : AttestationServer QuoteVerifier := Server POLICY wit_verifier 10000 64 ∅.
Definition wit_others : list (pystr + pystr * dict) := [inl (u "other"); inr (u "other", []); inl (u "client")].
Definition wit_issued := issue (u "client") (server_run wit_others ((World 0 0, wit_server), ([], []))).1.
Definition wit_challenge : challenge := match wit_issued.1 with Ok c => c | Raise _ => sample_challenge end.
Definition wit_q : pystr := match qualification wit_challenge with Ok q => q | Raise _ => [] end.
Definition wit_out : pystr := match inspect_quote 0 (quote_of wit_q) with Ok (_, out) => out | Raise _ => [] end.
Lemma wit_enrolled q : qualification wit_challenge = Ok q → enrolled wit_verifier 0 q.
Proof.
  intros Hq. assert (q = wit_q) as -> by (unfold wit_q; by rewrite Hq). clear Hq. split; [reflexivity|].
  unfold quoted_files, fixture_tpm. split; [by vm_compute|]. split; [by vm_compute|]. split; [by vm_compute|].
  split; [by intros r|]. intros k. split; [vm_compute; reflexivity|].
  exists wit_out, (match loads plain_hooks wit_out with Ok v => v | Raise _ => VNone end), (VBool true).
  split_and!; vm_compute; reflexivity.
Qed.
Lemma enrolled_tpm_allowed_witness : ∃ evidence,
  evidence_for "valid" None (challenge_dict wit_challenge) blank = (Ok evidence, blank) ∧
  let '(r, (w', _)) := submit (u "client") evidence (server_run wit_others (wit_issued.2, ([], []))).1 in
  mono w' = 0 ∧ ∃ reply, r = Ok reply ∧ d_get reply (u "decision") = Some (status "ALLOW").
Proof.
  destruct (enrolled_tpm_allowed None wit_verifier 10000 64 wit_server (World 0 0) wit_others wit_others ([], []) (u "client")
    wit_challenge wit_issued.2 (10000 * ns_per_ms) blank) as (evidence & He & Ha).
  - vm_compute. reflexivity.
  - vm_compute. reflexivity.
  - exact wit_enrolled.
  - vm_compute. reflexivity.
  - vm_compute. reflexivity.
  - vm_compute. reflexivity.
  - repeat (apply Forall_cons; split); try apply Forall_nil; cbn [foreign]; try exact I. intros E. vm_compute in E. discriminate E.
  - exists evidence. split; [exact He|].
    assert (Hev : evidence = match (evidence_for "valid" None (challenge_dict wit_challenge) blank).1 with Ok e => e | Raise _ => [] end) by (by rewrite He).
    destruct (submit _ _ _) as [r [w' s']] eqn:Es.
    assert (Hm : mono (r, (w', s')).2.1 = 0) by (rewrite <-Es, Hev; vm_compute; reflexivity). cbn [fst snd] in Hm.
    split; [exact Hm|]. apply (Ha r w' s' eq_refl). rewrite Hm. vm_compute. reflexivity.
Defined.
