(* ===== verification/AdmissionSuite.v ===== *)
(** * The admission cases ([src/scripts/verificar-admision.py])

    The unit tests of the admission registry, run against the model of
    [Admission] with the software-signed quotes of [AttestationSuite].  The
    verifications of other threads are the two halves of [dispatch] with the
    calls of the test in between.  A connection over TLS is the handler of the
    service for the certificate of the client.  The refusals of TLS itself and the
    case that starts the service in a process are not here. *)

From S2P Require Import Prelude Bytes Sha256 Json JsonCanon Stream Env Dict Connection Attestation AttestationSuite.
From S2P Require Import Admission AdmissionService.
Import Json Attestation AttestationSuite Admission AdmissionService.

Module AdmissionSuite.

(** The verifiers of the tests: the quote verifier, or one that is late. *)
Inductive SuiteVerifier := Plain (v : QuoteVerifier) | LateVerifier (original : QuoteVerifier).
Definition original (v : SuiteVerifier) : QuoteVerifier := match v with Plain v | LateVerifier v => v end.
#[export] Instance suite_verifier : Verifier SuiteVerifier := {|
  v_policy_id := λ v, policy_id (original v);
  v_pcr_selection := λ v, pcr_selection (original v);
  v_ak_sha256 := λ v, ak_sha256 (original v);
  v_verify := λ v message c,
    result ← quote_verify (original v) message c;
    _ ← modify (λ w, match v with Plain _ => w | LateVerifier _ => World (mono w + 11 * ns_per_s) (events w) end);
    mret result |}.
Abbreviation registry := (AdmissionRegistry SuiteVerifier).
Abbreviation test := (st (world * registry)).

(** *** [setUpClass], [setUp] and the helpers *)

Definition controller : pystr := replicate 64 97.
Definition attestor : pystr := replicate 64 98.
Definition unknown : pystr := replicate 64 101.
Definition other_controller : pystr := replicate 64 99.
Definition other_attestor : pystr := replicate 64 100.

Definition request (operation : value) (fields : dict) : value :=
  VDict ((u "protocol_version", VStr PROTOCOL) :: (u "operation", operation) :: fields).
Definition setUp : st world registry :=
  v ← lift (new_quote_verifier ak None (u "sha256:0,7"));
  new_registry [VStr controller; VStr other_controller] [(attestor, Plain v); (other_attestor, Plain v)] 256 300000 10000 30000.

Definition as_dict (v : value) : result dict := match v with VDict d => Ok d | _ => Raise TypeError end.
Definition as_str (v : value) : result pystr := match v with VStr s => Ok s | _ => Raise TypeError end.
Definition as_int (v : value) : result Z := match v with VInt z => Ok z | _ => Raise TypeError end.
Definition sub (d : dict) (k : string) : result dict := v ← d_item d (u k); as_dict v.
Definition text (d : dict) (k : string) : result pystr := v ← d_item d (u k); as_str v.
Definition number (d : dict) (k : string) : result Z := v ← d_item d (u k); as_int v.

Definition register_value (peer : value) : test dict :=
  r ← dispatch controller (request (status "register")
        [(u "game_session_id", VStr (replicate 32 97)); (u "peer_id", peer); (u "attestor", VStr attestor)]);
  lift (sub r "binding").
Definition register (peer : Z) : test dict := register_value (VInt peer).
Definition message (operation : string) (binding fields : dict) : result value :=
  aid ← d_item binding (u "admission_id");
  Ok (request (status operation) ((u "admission_id", aid) :: fields)).
Definition default_identity (operation : string) : pystr :=
  if decide (operation = "status" ∨ operation = "revoke")%string then controller else attestor.
Definition call_as (identity : pystr) (operation : string) (binding fields : dict) : test dict :=
  m ← lift (message operation binding fields); dispatch identity m.
Definition call (operation : string) (binding fields : dict) : test dict :=
  call_as (default_identity operation) operation binding fields.

(** The challenge of a reply, as the attestor reads it. *)
Definition challenge_of (d : dict) : result challenge :=
  sid ← text d "session_id"; n ← text d "nonce"; created ← number d "created_at"; expires ← number d "expires_at";
  policy ← text d "policy_id"; ak ← text d "ak_sha256";
  Ok (Challenge sid n created expires policy (u "sha256:0,7") ak).
(** The binding of a reply. *)
Definition binding_of (d : dict) : result binding :=
  i ← text d "instance_id"; a ← text d "admission_id"; g ← text d "game_session_id"; p ← number d "peer_id";
  c ← text d "connection_id"; k ← text d "controller"; t ← text d "attestor";
  Ok (Binding i a g p c k t).
Definition evidence (binding : dict) : test dict :=
  r ← call "challenge" binding [];
  b ← lift (sub r "binding"); _ ← check (py_eq (VDict b) (VDict binding));
  c ← lift (sub r "challenge"); c ← lift (challenge_of c);
  salt ← lift (text r "salt"); x ← lift (binding_of b); n ← lift (bound_nonce x salt);
  _ ← check (bool_decide (nonce c = n));
  made c.
Definition submit_evidence (binding e : dict) : test dict := call "submit" binding [(u "evidence", VDict e)].
Definition allowed (d : dict) : bool := field_is d "allow" (VBool true).
Definition denied (d : dict) : bool := field_is d "allow" (VBool false).
Definition in_state (d : dict) (s : string) : bool := field_is d "state" (status s).
Definition attested (d : dict) (k : string) (v : value) : bool :=
  match sub d "attestation" with Ok a => field_is a k v | Raise _ => false end.
Fixpoint all_of {S} (l : list (st S unit)) : st S unit :=
  match l with [] => mret tt | m :: l => _ ← m; all_of l end.
Definition expect (m : test dict) (good : dict → bool) : test unit := d ← m; check (good d).

(** *** The tests *)

Definition test_allow_expiry_and_renewal : test unit :=
  binding ← register 2;
  _ ← expect (call "status" binding []) denied;
  e ← evidence binding;
  _ ← expect (submit_evidence binding e) (λ r, allowed r && field_is r "remaining_ms" (VInt 30000) &&
        attested r "tpm_identity_validity" (status "not_proven"));
  _ ← at_time (30 * ns_per_s);
  _ ← expect (call "status" binding []) (λ r, in_state r "EXPIRED");
  e ← evidence binding;
  _ ← expect (submit_evidence binding e) allowed;
  _ ← evidence binding;
  expect (call "status" binding []) denied.

Definition test_roles_and_owner_isolation : test unit :=
  binding ← register 2;
  _ ← all_of ((λ '(operation, identity, reason), raises (Some reason) (call_as identity operation binding [])) <$>
        [("status", attestor, "UNAUTHORIZED_ROLE"); ("challenge", controller, "UNAUTHORIZED_ROLE");
         ("status", other_controller, "UNKNOWN_ADMISSION"); ("revoke", other_controller, "UNKNOWN_ADMISSION");
         ("challenge", other_attestor, "UNKNOWN_ADMISSION"); ("challenge", unknown, "UNAUTHORIZED_ROLE")]%string);
  expect (call "status" binding []) (λ r, in_state r "REGISTERED").

Definition test_one_use_and_connection_isolation : test unit :=
  first ← register 2; second ← register 3;
  e ← evidence first;
  _ ← evidence second;
  _ ← expect (submit_evidence second e) denied;
  _ ← expect (submit_evidence first e) allowed;
  _ ← raises (Some "NO_PENDING_CHALLENGE"%string) (submit_evidence first e);
  _ ← expect (call "status" first []) allowed;
  _ ← call "revoke" first [];
  replacement ← register 2;
  c1 ← lift (text first "connection_id"); c2 ← lift (text replacement "connection_id");
  _ ← check (negb (bool_decide (c1 = c2)));
  _ ← evidence replacement;
  expect (submit_evidence replacement e) denied.

Definition test_relabelled_signed_evidence_cannot_move_connections : test unit :=
  first ← register 2; second ← register 3;
  e ← evidence first;
  target ← call "challenge" second [];
  c ← lift (sub target "challenge"); sid ← lift (text c "session_id");
  expect (submit_evidence second (d_set e (u "session_id") (VStr sid)))
    (λ r, denied r && attested r "cryptographic_validity" (status "verified") &&
          attested r "reasons" (VList [status "NONCE_MISMATCH"])).

(** The binding with one field changed. *)
Definition changed (binding : dict) (field : pystr) : result dict :=
  v ← d_item binding field;
  Ok (d_set binding field (match v with VStr s => VStr (replicate (length s) 48) | _ => VInt 7 end)).
Definition test_binding_changes_nonce : test unit :=
  binding ← register 2;
  response ← call "challenge" binding [];
  salt ← lift (text response "salt"); c ← lift (sub response "challenge"); n ← lift (text c "nonce");
  all_of ((λ field, d ← lift (changed binding field); y ← lift (binding_of d); m ← lift (bound_nonce y salt);
                    check (negb (bool_decide (m = n)))) <$> keys binding).

(** [entries[...].verifier.verifier = LateVerifier()] *)
Definition late (b : BoundChallenge SuiteVerifier) : BoundChallenge SuiteVerifier :=
  MkBound (Server (srv_policy_id (bc_server b)) (LateVerifier (original (srv_verifier (bc_server b)))) (ttl_ms (bc_server b))
             (maximum (bc_server b)) (sessions (bc_server b))) (bc_binding b) (salt b).
Definition make_late (binding : dict) : test unit :=
  aid ← lift (text binding "admission_id");
  self ← gets snd;
  entry ← lift (match entries self !! aid ≫= λ l, heap self !! l with Some e => Ok e | None => Raise KeyError end);
  match e_verifier entry with
  | Some vl => modify (λ s, (s.1, set_verifiers (alter late vl (verifiers s.2)) s.2))
  | None => raise AttributeError
  end.
Definition test_timeout_and_late_verification : test unit :=
  binding ← register 2;
  e ← evidence binding;
  _ ← at_time (10 * ns_per_s);
  _ ← expect (submit_evidence binding e) (λ r, denied r && attested r "reasons" (VList [status "CHALLENGE_EXPIRED"]));
  e ← evidence binding;
  _ ← make_late binding;
  _ ← expect (submit_evidence binding e) denied;
  _ ← at_time (300 * ns_per_s);
  raises (Some "ADMISSION_CLOSED"%string) (evidence binding).

Definition test_bad_signature_and_invalid_schema : test unit :=
  binding ← register 2;
  e ← evidence binding;
  _ ← expect (submit_evidence binding (d_set e (u "signature") (status "AA=="))) denied;
  aid ← lift (d_item binding (u "admission_id"));
  _ ← all_of ((λ payload, raises None (dispatch controller payload)) <$>
        [VNone; VList []; VDict []; request (status "status") [(u "admission_id", VList [])];
         request (status "status") [(u "admission_id", aid); (u "allow", VBool true)];
         request (VList [status "status"]) []; VDict [(u "protocol_version", status "arena-admission/2")]]);
  all_of ((λ peer, raises (Some "INVALID_PEER"%string) (register_value peer)) <$>
        [VBool true; VInt 1; VInt (-1); VInt 2147483648; status "2"]).

(** The verification is in another thread from [dispatch_begin] on. *)
Definition test_revocation_wins_over_inflight_verification : test unit :=
  binding ← register 2;
  e ← evidence binding;
  m ← lift (message "submit" binding [(u "evidence", VDict e)]);
  started ← dispatch_begin attestor m;
  match started with
  | inl _ => raise AssertionError
  | inr job =>
      _ ← expect (call "status" binding []) denied;
      _ ← raises (Some "CHALLENGE_PENDING"%string) (evidence binding);
      _ ← raises (Some "NO_PENDING_CHALLENGE"%string) (submit_evidence binding e);
      _ ← expect (call "revoke" binding []) (λ r, in_state r "REVOKED");
      replacement ← register 2;
      outcome ← run_job job;
      _ ← raises (Some "ADMISSION_CLOSED"%string) (dispatch_finish job outcome);
      expect (call "status" replacement []) denied
  end.

Definition set_maximum (n : Z) (r : registry) : registry :=
  MkRegistry (controllers r) (attestors r) n (binding_ms r) (challenge_ms r) (lease_ms r) (reg_instance r) (entries r) (heap r) (verifiers r).
Definition test_limits_restart_and_response_mutation : test unit :=
  _ ← modify (λ s, (s.1, set_maximum 1 s.2));
  binding ← register 2;
  _ ← raises (Some "PEER_ALREADY_REGISTERED"%string) (register 2);
  _ ← raises (Some "ADMISSION_LIMIT"%string) (register 3);
  _ ← expect (call "status" binding []) (λ r, match sub r "binding" with Ok b => field_is b "peer_id" (VInt 2) | Raise _ => false end);
  _ ← at_time (300 * ns_per_s);
  replacement ← register 2;
  _ ← raises (Some "UNKNOWN_ADMISSION"%string) (call "status" binding []);
  v ← lift (new_quote_verifier ak None (u "sha256:0,7"));
  restart ← on_world (new_registry [VStr controller] [(attestor, Plain v)] 256 300000 10000 30000);
  i ← lift (text replacement "instance_id");
  _ ← check (negb (bool_decide (reg_instance restart = i)));
  m ← lift (message "status" replacement []);
  w ← gets fst;
  match (dispatch controller m) (w, restart) with
  | (Raise e, _) => check (bool_decide (e = ValueError "UNKNOWN_ADMISSION"))
  | _ => raise AssertionError
  end.

(** The files of [test_config] and [test_pinned_pcr_policy]. *)
Definition public_file (name : pystr) : result bytes :=
  if decide (name = u "public.pem") then Ok ak else Raise (OSError "ENOENT").
Definition config (controllers : list value) (ak_public : value) (extra : dict) : bytes :=
  written (VDict ([(u "controllers", VList controllers);
                   (u "attestors", VDict [(attestor, VDict [(u "ak_public", ak_public)])])] ++ extra)).
Definition loads_config (file : bytes) : st world registry :=
  r ← load_registry public_file file;
  mret (MkRegistry (controllers r) (Plain <$> attestors r) (reg_maximum r) (binding_ms r) (challenge_ms r) (lease_ms r)
          (reg_instance r) (entries r) (heap r) []).
Definition test_config : test unit :=
  r ← on_world (loads_config (config [VStr controller] (status "public.pem") []));
  _ ← check (bool_decide (is_Some (attestors r !! attestor)));
  all_of ((λ bad, raises None (on_world (loads_config bad))) <$>
    [config [VStr controller] (status "public.pem") [(u "extra", VBool true)]; config [VStr attestor] (status "public.pem") [];
     config [VList []] (status "public.pem") []; config [VStr controller] (VInt 123) []]).

Definition test_pinned_pcr_policy : test unit :=
  v ← lift (new_quote_verifier ak (Some (written (reference_value zeros_64 zeros_64))) (u "sha256:0,7"));
  _ ← modify (λ s, (s.1, MkRegistry (controllers s.2) (<[attestor := Plain v]> (attestors s.2)) (reg_maximum s.2) (binding_ms s.2)
                           (challenge_ms s.2) (lease_ms s.2) (reg_instance s.2) (entries s.2) (heap s.2) (verifiers s.2)));
  binding ← register 2;
  e ← evidence binding;
  expect (submit_evidence binding e) (λ r, denied r && attested r "cryptographic_validity" (status "verified") &&
    attested r "reasons" (VList [status "PCR_REFERENCE_MISMATCH"])).

(** *** The cases over connections *)

Abbreviation service := (AdmissionService SuiteVerifier).
Abbreviation serving := (st (world * service)).
(** [send(name, message)]: a connection with the certificate of [name], served by
    [handle] on its own, and the client's [exchange]. *)
Definition client_of (name : bytes) : Peer := {| certificate := name; drain_outcome := λ _, Ok tt |}.
Definition send (name : bytes) (message : value) : serving dict :=
  message ← lift (as_dict message);
  frame ← lift (encode message);
  frames ← (λ x, let start := Conn (Stream.Reader (Stream.buffered frame (mono x.1)) None (mono x.1)) [] x.1 x.2 in
    let c := (AdmissionService.handle (H0 := client_of name) (H2 := λ _ s, s) start).2 in (Ok (c_out c), (c_world c, c_obj c)));
  lift (match frames !! 0%nat with
        | Some frame => (receive (12 * ns_per_s) (Stream.Reader (Stream.buffered frame 0) None 0)).1
        | None => Raise IncompleteReadError
        end).
(** [fingerprint] of the certificates of the case. *)
Definition fingerprint (name : bytes) : pystr := sha256_hex name.
Definition client_crt : bytes := b "client".
Definition client2_crt : bytes := b "client2".
Definition service_setUp : st world service :=
  v ← lift (new_quote_verifier ak None (u "sha256:0,7"));
  r ← new_registry [VStr (fingerprint client_crt)] [(fingerprint client2_crt, Plain v)] 256 300000 10000 30000;
  mret (Service r (Counters 0 false 0)).
Definition about (operation : string) (binding fields : dict) : serving value := lift (message operation binding fields).
Definition register_message (peer : Z) : value :=
  request (status "register") [(u "game_session_id", VStr (replicate 32 97)); (u "peer_id", VInt peer); (u "attestor", VStr (fingerprint client2_crt))].
Definition field_of (d : dict) (k : string) (v : value) : serving unit := check (field_is d k v).
(** The challenge of a binding, and the evidence made of it. *)
Definition evidence_over (binding : dict) : serving dict :=
  m ← about "challenge" binding [];
  challenge ← send client2_crt m;
  c ← lift (sub challenge "challenge"); c ← lift (challenge_of c);
  lift (fixture c None None pcr_0_7).

Definition tls_case : serving unit :=
  let message := register_message 2 in
  r ← send (b "unknown") message; _ ← field_of r "error" (status "UNAUTHORIZED_ROLE");
  r ← send client2_crt message; _ ← field_of r "error" (status "UNAUTHORIZED_ROLE");
  entries ← gets (λ s, map_size (entries (AdmissionService.registry s.2)));
  _ ← check (entries =? 0);
  r ← send client_crt message; binding ← lift (sub r "binding");
  e ← evidence_over binding;
  m ← about "submit" binding [(u "evidence", VDict e)];
  r ← send client2_crt m; _ ← check (allowed r);
  m ← about "status" binding [];
  r ← send client_crt m; _ ← check (allowed r);
  revoke ← about "revoke" binding [];
  r ← send client_crt revoke; _ ← check (in_state r "REVOKED");
  r ← send client_crt m; _ ← check (denied r);
  s ← gets snd;
  check ((AdmissionService.tasks (counts s) =? 0) && (verifications (counts s) =? 0)).

(** [worker_case]: the verifications wait before [dispatch], the others are served. *)
Definition on_counts {A} (m : st counters A) : serving A := λ s,
  let '(r, x) := m (counts s.2) in (r, (s.1, Service (AdmissionService.registry s.2) x)).
Definition on_registry {A} (m : test A) : serving A := λ s,
  let '(r, (w, x)) := m (s.1, AdmissionService.registry s.2) in (r, (w, Service x (counts s.2))).
Definition arrives : serving unit :=
  accepted ← on_counts (λ s, let '(a, s) := admit_task s in (Ok a, s));
  _ ← check accepted; on_counts reserve.
Definition completes (message : value) : serving dict :=
  reply ← try_except (on_registry (dispatch (fingerprint client2_crt) message)) (λ e, mret <$> refuse e);
  _ ← on_counts (modify AdmissionService.release); _ ← on_counts (modify discard_task); mret reply.
Fixpoint registered (peers : list Z) : serving (list dict) :=
  match peers with
  | [] => mret []
  | peer :: peers => r ← send client_crt (register_message peer); x ← lift (sub r "binding"); l ← registered peers; mret (x :: l)
  end.
Fixpoint submissions (bindings : list dict) : serving (list value) :=
  match bindings with
  | [] => mret []
  | x :: bindings => e ← evidence_over x; m ← about "submit" x [(u "evidence", VDict e)]; l ← submissions bindings; mret (m :: l)
  end.
Fixpoint complete_all (messages : list value) : serving (list dict) :=
  match messages with [] => mret [] | m :: l => r ← completes m; rs ← complete_all l; mret (r :: rs) end.
Definition worker_case : serving unit :=
  bindings ← registered [2; 3; 4; 5; 6];
  messages ← submissions bindings;
  _ ← arrives; _ ← arrives; _ ← arrives; _ ← arrives;
  fifth ← lift (match messages !! 4%nat with Some m => Ok m | None => Raise IndexError end);
  r ← send client2_crt fifth; _ ← field_of r "error" (status "VERIFIER_BUSY");
  first ← lift (match bindings with x :: _ => Ok x | [] => Raise IndexError end);
  m ← about "revoke" first [];
  r ← send client_crt m; _ ← check (in_state r "REVOKED");
  _ ← on_counts (modify start_closing);
  running ← gets (λ s, AdmissionService.tasks (counts s.2)); _ ← check (running =? 4);
  results ← complete_all (take 4 messages);
  _ ← match results with
      | r :: rs => _ ← field_of r "error" (status "ADMISSION_CLOSED"); check (forallb allowed rs && (length rs =? 3)%nat)
      | [] => raise IndexError
      end;
  s ← gets snd;
  check ((AdmissionService.tasks (counts s) =? 0) && (verifications (counts s) =? 0)).
Definition run_service (m : serving unit) : result unit :=
  match service_setUp (World 0 0) with
  | (Ok s, w) => (m (w, s)).1
  | (Raise e, _) => Raise e
  end.

Definition suite : list (test unit) :=
  [test_allow_expiry_and_renewal; test_roles_and_owner_isolation; test_one_use_and_connection_isolation;
   test_relabelled_signed_evidence_cannot_move_connections; test_binding_changes_nonce; test_timeout_and_late_verification;
   test_bad_signature_and_invalid_schema; test_revocation_wins_over_inflight_verification;
   test_limits_restart_and_response_mutation; test_config; test_pinned_pcr_policy].
(** Each test on a registry of its own. *)
Definition run_test (m : test unit) : result unit :=
  match setUp (World 0 0) with
  | (Ok r, w) => (m (w, r)).1
  | (Raise e, _) => Raise e
  end.
End AdmissionSuite.

(** The repository's own tests hold of the model. *)
Theorem admission_suite_passes : AdmissionSuite.run_test <$> AdmissionSuite.suite = replicate 11 (Ok tt).
Proof. vm_compute. reflexivity. Qed.
Theorem admission_connections_pass : AdmissionSuite.run_service <$> [AdmissionSuite.tls_case; AdmissionSuite.worker_case] = [Ok tt; Ok tt].
Proof. vm_compute. reflexivity. Qed.
