(* ===== verification/GameSuite.v ===== *)
(** * The network cases of the game ([src/scripts/verificar-juego-red.py])

    The repository's own checks of the game service, run against the models of
    the service, of its worker and of the rules together: the test drives the
    connections of [GameRun], and the worker of [GameHost] answers.  TLS, sockets
    and processes are not here: a connection is its certificate, a dead worker is
    one that has exited. *)

From S2P Require Import Prelude Bytes Sha256 GameService GameRun GameTheorems.
From S2P Require Import GameCore GameCoreFacts GameHost GameAuthority.
Import GameService.

Module GameSuite.

(** A running service, the time, the worker's match, and how many events of the
    pipes the worker has seen. *)
Record setting := Setting { sys_of : sys; now : Z; match_of : game_world_t; seen : nat }.
Abbreviation test := (st setting).

Definition check (b : bool) : test unit := raise_when (negb b) AssertionError.
Definition do (act : action) : test unit := modify (λ t, Setting (step act (sys_of t)) (now t) (match_of t) (seen t)).
Definition set_now (n : Z) : test unit := modify (λ t, Setting (sys_of t) n (match_of t) (seen t)).

(** The worker reads what is new in its pipe; its last answer. *)
Fixpoint serve_new (w : game_world_t) (l : list worker_event) (last : option bytes) : option (game_world_t * option bytes) :=
  match l with
  | [] => Some (w, last)
  | e :: l =>
      match command_of e with
      | None => serve_new w l last
      | Some c => '(w, frame) ← GameHost.serve w c; serve_new w l (Some frame)
      end
  end.
Definition worker_answer : test bytes := λ t,
  let l := pipe (s_svc (sys_of t)) in
  match serve_new (match_of t) (drop (seen t) l) None with
  | Some (w, Some frame) => (Ok frame, Setting (sys_of t) (now t) w (length l))
  | _ => (Raise (RuntimeError "no answer"), t)
  end.

Definition phase_of (i : nat) : test phase := λ t,
  match s_hs (sys_of t) !! i with Some h => (Ok (h_phase h), t) | None => (Raise KeyError, t) end.
(** Connection [i] until it sends, reads or leaves. *)
Fixpoint drive (fuel : nat) (i : nat) : test unit :=
  match fuel with
  | O => raise AssertionError
  | S fuel =>
      p ← phase_of i; t ← gets now;
      match p with
      | Locking _ => _ ← do (ELock i t); drive fuel i
      | Exchanging _ => frame ← worker_answer; _ ← do (EReply i t (Ok frame)); drive fuel i
      | Closing => _ ← do (EClosed i); mret tt
      | _ => mret tt
      end
  end.
(** The frame it sends, once it is sent. *)
Definition receive (i : nat) : test bytes :=
  _ ← drive 10 i;
  p ← phase_of i; t ← gets now;
  match p with
  | Sending data _ => _ ← do (ESent i t (Ok tt)); _ ← drive 10 i; mret data
  | _ => raise IncompleteReadError
  end.

(** *** The helpers of the script *)

Definition client : bytes := cert0.
Definition client2 : bytes := cert1.
Definition unknown : bytes := b "stranger".

(** [connect]: the connection and its hello. *)
Definition connect (cert : bytes) : test (nat * bytes) :=
  i ← gets (λ t, length (s_hs (sys_of t)));
  _ ← do (EConnect (Some cert)); hello ← receive i; mret (i, hello).
Definition write_frame (pair : nat * bytes) (data : bytes) : test unit := do (ERead pair.1 (Ok data)).
Definition exchange (pair : nat * bytes) (data : bytes) : test bytes := _ ← write_frame pair data; receive pair.1.
(** The client goes away: the service reads its end, and closes the slot. *)
Definition close_writer (pair : nat * bytes) : test unit :=
  _ ← do (ERead pair.1 (Raise IncompleteReadError)); drive 10 pair.1.
Definition disconnected (slot : nat) : test unit :=
  c ← gets (λ t, default true (connected (s_svc (sys_of t)) !! slot)); check (negb c).
(** [service.snapshot(slot)] *)
Definition on_service {A} (m : st service A) : test A := λ t,
  let '(r, s) := m (s_svc (sys_of t)) in (r, Setting (Sys s (s_hs (sys_of t))) (now t) (match_of t) (seen t)).
Definition snapshot (slot : nat) : test bytes :=
  _ ← on_service (exchange_begin 99 4 slot (zeros 48)); frame ← worker_answer; on_service (exchange_end 99 slot (Ok frame)).
(** [next_tick]: until a tick after the given one. *)
Definition next_tick (after : Z) : test unit :=
  t ← gets now; start ← gets (λ t, started (s_svc (sys_of t)));
  set_now (Z.max t (start + (after + 1) * 50 * ns_per_ms)).
Definition the_state (data : bytes) : test GameService.snapshot := lift (state data).
Definition the_command (hello : bytes) (sequence : Z) (action : string) : test bytes := lift (command hello sequence action).
Definition reason_is (v : GameService.snapshot) (r : string) : bool := String.eqb (s_reason v) r.
Definition player_of (v : GameService.snapshot) (slot : nat) : player := nth slot (s_players v) (Player 0 0 0 0 0 0 false).
#[global] Instance player_eq_dec : EqDecision player.
Proof. solve_decision. Defined.

(** [running]: a service with a worker of this match. *)
Definition running_at (w : game_world_t) : setting :=
  Setting (step (EStart (Ok (GameHost.reply w 0 0 GameCore.GAME_OK ++ GameHost.reply w 1 0 GameCore.GAME_OK)) 0) (Sys test_service []))
    0 w 0.

(** *** [checks] *)

(** The first block; the match identifier and the command it saves. *)
Definition two_players_case : test (bytes * bytes) :=
  stranger ← connect unknown; _ ← check (bool_decide (stranger.2 = error_frame 1));
  a ← connect client;
  v ← the_state a.2; _ ← check (s_player v =? 0);
  c ← the_command a.2 1 "fire"; r ← exchange a c; _ ← check (bool_decide (r = error_frame 7));
  duplicate ← connect client; _ ← check (bool_decide (duplicate.2 = error_frame 2));
  b ← connect client2;
  v ← the_state b.2; _ ← check (s_player v =? 1);
  c ← the_command b.2 1 "fire"; wrong ← exchange a c; v ← the_state wrong;
  _ ← check (reason_is v "WRONG_SESSION" && forallb (λ p, (health p =? 100) && (ammo p =? 4)) (s_players v));
  saved ← the_command a.2 1 "east"; r ← exchange a saved; result ← the_state r;
  _ ← check (reason_is result "ACCEPTED" && (x_mm (player_of result 0) =? 100));
  r ← exchange a saved; repeat ← the_state r;
  _ ← check (reason_is repeat "SEQUENCE_REPLAY" && bool_decide (s_players repeat = s_players result));
  _ ← next_tick (s_tick result);
  c ← the_command a.2 2 "fire"; r ← exchange a c; result ← the_state r;
  _ ← check (reason_is result "ACCEPTED" && (health (player_of result 1) =? 75) && (ammo (player_of result 0) =? 3));
  c ← the_command b.2 1 "north"; r ← exchange b c; moved ← the_state r;
  _ ← check (reason_is moved "ACCEPTED" && (y_mm (player_of moved 1) =? 100));
  r ← exchange b c; repeated ← the_state r;
  _ ← check (reason_is repeated "SEQUENCE_REPLAY" && bool_decide (s_players repeated = s_players moved));
  r ← exchange b c; repeated ← the_state r;
  _ ← check (reason_is repeated "SEQUENCE_REPLAY" && bool_decide (s_players repeated = s_players moved));
  _ ← close_writer a;
  _ ← disconnected 0;
  r ← snapshot 0; v ← the_state r; _ ← check (negb (open (player_of v 0)));
  c ← the_command b.2 2 "fire"; r ← exchange b c; _ ← check (bool_decide (r = error_frame 7));
  again ← connect client; _ ← check (bool_decide (again.2 = error_frame 3));
  _ ← close_writer b;
  mret (slice a.2 20 36, saved).

Definition restart_case (old_match saved : bytes) : test unit :=
  a ← connect client; b ← connect client2;
  _ ← check (negb (bool_decide (slice a.2 20 36 = old_match)));
  r ← exchange a saved; v ← the_state r; _ ← check (reason_is v "WRONG_MATCH");
  r ← exchange a (zeros 50); _ ← check (bool_decide (r = error_frame 5));
  _ ← disconnected 0;
  r ← snapshot 0; v ← the_state r; check (negb (open (player_of v 0))).

Fixpoint waits (a : nat * bytes) (sequence : Z) (n : nat) : test unit :=
  match n with
  | O => mret tt
  | S n =>
      c ← the_command a.2 sequence "wait"; r ← exchange a c; v ← the_state r;
      _ ← check (reason_is v "ACCEPTED" || reason_is v "TICK_ALREADY_USED");
      waits a (sequence + 1) n
  end.
Definition limit_case : test unit :=
  a ← connect client; b ← connect client2;
  _ ← waits a 1 256;
  r ← receive a.1; _ ← check (bool_decide (r = error_frame 6));
  disconnected 0.

(** A partial header: the read of the frame times out. *)
Definition partial_frame_case : test unit :=
  a ← connect client;
  _ ← do (ERead a.1 (Raise TimeoutError)); _ ← drive 10 a.1;
  disconnected 0.

(** The exchange must end without a frame. *)
Definition incomplete {A} (m : test A) : test unit := λ t,
  match m t with
  | (Raise IncompleteReadError, t) => (Ok tt, t)
  | (_, t) => (Raise AssertionError, t)
  end.
Definition worker_death_case : test unit :=
  a ← connect client; b ← connect client2;
  _ ← do EExit;
  c ← the_command a.2 1 "fire"; incomplete (exchange a c).

(** The second match has identifiers of its own. *)
Definition other_world : game_world_t := Eval vm_compute in
  match GameCore.game_init (replicate 16 x1a) (replicate 16 x1b) (replicate 16 x1c) with
  | Some w => w | None => test_world end.
Definition checks : result unit :=
  '(old_match, saved) ← (two_players_case (running_at test_world)).1;
  _ ← (restart_case old_match saved (running_at other_world)).1;
  _ ← (limit_case (running_at other_world)).1;
  _ ← (partial_frame_case (running_at other_world)).1;
  (worker_death_case (running_at other_world)).1.

(** *** [private_worker] *)

Definition private_inputs : list (bytes * Z * Z) :=
  [([], 0, 160); ([x01], 1, 160); ([x04; x02] ++ zeros 48, 1, 160); ([x04; x00] ++ zeros 48, 0, 240);
   ([x02; x00] ++ le_encode 8 10 ++ zeros 40 ++ [x02; x00] ++ zeros 48, 1, 240)].
Definition private_worker : bool :=
  forallb (λ '(data, code, length),
    match GameHost.main 1 (Some match_id) (Some session_a) (Some session_b) 100 GameHost.EndOfFile [] data with
    | (frames, Some c) => (c =? code) && (len (concat frames) =? length)
    | _ => false
    end) private_inputs.
End GameSuite.

(** The repository's own checks hold of the models. *)
Theorem game_suite_passes : GameSuite.checks = Ok tt ∧ GameSuite.private_worker = true.
Proof. vm_compute. split; reflexivity. Qed.
