(* ===== verification/Sources.v ===== *)
(** * The inventories of the sources

    [src/tools/release_files.py], [src/tools/package_game.py] and
    [src/tools/client_manifest.py]: which files are public, the package made of
    them, and the comparison of a client with an operator's manifest.  The file
    system is a parameter: every path below the root, with what [stat] and
    [read_bytes] give. *)

From S2P Require Import Prelude Bytes Sha256 Json JsonCanon Dict.
Import Json.

Module Sources.

(** ** Paths and files *)

Abbreviation parts := (list pystr).
Abbreviation contents := (list (pystr * bytes)).
Record file := File {
  path : parts;        (* relative to the root *)
  link : bool;         (* [is_symlink()] *)
  regular : bool;      (* [is_file()] *)
  size : Z;
  content : bytes }.

(** [str(path.relative_to(root))] *)
Definition name_of (p : parts) : pystr := join [47] p.
(** [path.suffix]: from the last dot of the name, if it is neither first nor last. *)
Fixpoint until_dot (l : pystr) : pystr * pystr :=
  match l with
  | [] => ([], [])
  | c :: l => if c =? 46 then ([], c :: l) else let '(a, r) := until_dot l in (c :: a, r)
  end.
Definition suffix (p : parts) : pystr :=
  match until_dot (rev (default [] (last p))) with
  | ([], _) => []
  | (_, []) => []
  | (_, [_]) => []
  | (e, _) => 46 :: rev e
  end.
(** [p in folder.rglob('*')] *)
Definition under (folder p : parts) : bool :=
  bool_decide (take (length folder) p = folder) && (length folder <? length p)%nat.

(** Paths compare part by part. *)
Fixpoint parts_leb (p q : parts) : bool :=
  match p, q with
  | [], _ => true
  | _, [] => false
  | x :: p, y :: q => if decide (x = y) then parts_leb p q else str_leb x y
  end.
Definition parts_le (p q : parts) : Prop := parts_leb p q = true.
#[export] Instance parts_le_dec : RelDecision parts_le := λ p q, bool_eq_dec _ _.
(** [sorted(set(l))] *)
Definition sorted_set (l : list parts) : list parts := merge_sort parts_le (remove_dups l).

Section tree.
Context (root : parts) (tree : list file).

Definition stat (p : parts) : option file := list_find (λ f, path f = p) tree ≫= λ x, Some x.2.

(** ** [release_files.py] *)

Definition FILES : list parts :=
  [[u ".gitignore"]; [u "README.md"]; [u "VERSION"]; [u "THIRD_PARTY_NOTICES.md"]; [u "CMakeLists.txt"];
   [u "game-client"]; [u "game-server"]; [u "AGENTS.md"]; [u ".github"; u "pull_request_template.md"]].
Definition FORMATS : list (parts * list pystr) :=
  [([u "game"], [u ".gd"; u ".uid"; u ".tscn"; u ".cfg"; u ".godot"]);
   ([u "tools"], [u ".py"]); ([u "scripts"], [u ".py"]); ([u "lab"], [u ".c"; u ".h"]);
   ([u "tests"], [u ".py"; u ".c"; u ".md"]); ([u "cmake"], [u ".cmake"]);
   ([u "docs"], [u ".md"; u ".json"; u ".png"]); ([u "datasets"], [u ".md"; u ".jsonl"]);
   ([u ".github"; u "workflows"], [u ".yml"; u ".yaml"])].
Definition LIMIT : Z := 5 * 1024 * 1024.

(** A part of the whole path names a cache. *)
Definition cached (p : parts) : bool :=
  existsb (λ x, bool_decide (x = u ".godot") || bool_decide (x = u "__pycache__")) (root ++ p).
Definition selected (folder : parts) (extensions : list pystr) (f : file) : bool :=
  under folder (path f) && regular f && existsb (λ e, bool_decide (suffix (path f) = e)) extensions &&
  negb (cached (path f)).
Definition candidates : list parts :=
  FILES ++ (FORMATS ≫= λ x, path <$> filter (λ f, selected x.1 x.2 f = true) tree).
Definition check_source (p : parts) : result unit :=
  match stat p with
  | None => Raise (ValueError "Source missing or symlink")
  | Some f =>
      raise_if! link f || negb (regular f) then ValueError "Source missing or symlink";
      raise_if! LIMIT <? size f then ValueError "Unexpectedly large source";
      Ok tt
  end.
Fixpoint check_all (l : list parts) : result unit :=
  match l with [] => Ok tt | p :: l => _ ← check_source p; check_all l end.
(** [public_files(root)] *)
Definition public_files : result (list parts) :=
  _ ← check_all candidates; Ok (sorted_set candidates).

(** ** [package_game.py] *)

(** [json.dumps(v, indent=2)] *)
Definition newline_at (level : nat) : pystr := 10 :: replicate (2 * level) 32.
Fixpoint dumps_indent (level : nat) (v : value) : pystr :=
  match v with
  | VList [] => u "[]"
  | VDict [] => u "{}"
  | VList l => 91 :: newline_at (S level) ++ join (44 :: newline_at (S level)) (dumps_indent (S level) <$> l)
                 ++ newline_at level ++ [93]
  | VDict d => 123 :: newline_at (S level)
                 ++ join (44 :: newline_at (S level)) ((λ '(k, v), dump_str k ++ u ": " ++ dumps_indent (S level) v) <$> d)
                 ++ newline_at level ++ [125]
  | v => dumps v
  end.

Fixpoint put (d : contents) (k : pystr) (v : bytes) : contents :=
  match d with
  | [] => [(k, v)]
  | (k', v') :: d => if decide (k = k') then (k', v) :: d else (k', v') :: put d k v
  end.

Definition private_suffix (p : parts) : bool :=
  bool_decide (suffix p = u ".key") || bool_decide (suffix p = u ".pem") || bool_decide (suffix p = u ".pyc").
Definition refusal : exn := SystemExit 1.
Fixpoint read_entries (entries : contents) (paths : list parts) : result contents :=
  match paths with
  | [] => Ok entries
  | p :: paths =>
      match stat p with
      | None => Raise (OSError "FileNotFoundError")
      | Some f =>
          raise_if! link f || private_suffix p then refusal;
          read_entries (put entries (name_of p) (content f)) paths
      end
  end.
Definition digests (entries : contents) : dict := (λ x, (x.1, VStr (sha256_hex x.2))) <$> entries.
(** [VERSION] with the white space around it removed is a parameter. *)
Definition metadata (version : pystr) (entries : contents) : value :=
  VDict [(u "version", VStr version); (u "profile", VStr (u "development_unattested"));
         (u "protected_game_complete", VBool false); (u "godot", VStr (u "4.7.2"));
         (u "sha256", VDict (digests entries))].
Definition package_json (version : pystr) (entries : contents) : bytes :=
  ascii_bytes (dumps_indent 0 (metadata version entries) ++ [10]).

(** A member of the archive; [tarfile] and [gzip] encode them in this order. *)
Record member := Member { m_name : pystr; m_mode : Z; m_data : bytes }.
Definition entry_le (x y : pystr * bytes) : Prop := str_leb x.1 y.1 = true.
#[export] Instance entry_le_dec : RelDecision entry_le := λ x y, bool_eq_dec _ _.
Definition mode_of (name : pystr) : Z :=
  if decide (name = u "game-client") then 493 else if decide (name = u "game-server") then 493 else 420.
Definition member_of (x : pystr * bytes) : member :=
  Member (u "MiddlewareAnticheatv2/" ++ x.1) (mode_of x.1) x.2.
Definition package (version : pystr) : result (list member) :=
  paths ← public_files;
  entries ← read_entries [] (sorted_set paths);
  Ok (member_of <$> merge_sort entry_le (put entries (u "PACKAGE.json") (package_json version entries))).

(** ** [client_manifest.py] *)

Definition client_file (f : file) : bool :=
  under [u "game"] (path f) && regular f && negb (existsb (λ x, bool_decide (x = u ".godot")) (root ++ path f)) &&
  negb (bool_decide (suffix (path f) = u ".uid")).
Definition client_files : list parts :=
  merge_sort parts_le (path <$> filter (λ f, client_file f = true) tree) ++
  [[u "game-client"]; [u "game-server"]; [u "tools"; u "run_game.py"]].
Definition is_link (p : parts) : bool := match stat p with Some f => link f | None => false end.
Fixpoint hash_files (acc : dict) (l : list parts) : result dict :=
  match l with
  | [] => Ok acc
  | p :: l =>
      match stat p with
      | None => Raise (OSError "FileNotFoundError")
      | Some f => hash_files (d_set acc (name_of p) (VStr (sha256_hex (content f)))) l
      end
  end.
Definition inventory : result dict :=
  raise_if! existsb is_link client_files then ValueError "Symlink not allowed";
  hash_files [] client_files.

Definition SCHEMA : pystr := u "arena-client-manifest/1".
(** What [create] writes. *)
Definition manifest (actual : dict) : value := VDict [(u "schema", VStr SCHEMA); (u "files", VDict actual)].

(** [actual.get(key) == expected.get(key)]: an absent key is [None], which a [null]
    equals. *)
Definition same_at (actual expected : dict) (k : pystr) : bool :=
  match d_get actual k, d_get expected k with
  | None, None | None, Some VNone | Some VNone, None => true
  | Some x, Some y => py_eq x y
  | _, _ => false
  end.
Definition key_le (x y : pystr) : Prop := str_leb x y = true.
#[export] Instance key_le_dec : RelDecision key_le := λ x y, bool_eq_dec _ _.
Definition changes (actual expected : dict) : list pystr :=
  merge_sort key_le (filter (λ k, same_at actual expected k = false) (remove_dups (keys actual ++ keys expected))).
(** [verify]: the keys that changed, and the exit code. *)
Definition verify (actual : dict) (expected : value) : result (list pystr * Z) :=
  schema ← v_get expected (u "schema");
  files ← v_get expected (u "files");
  match files with
  | Some (VDict files) =>
      raise_if! negb (match schema with Some v => py_eq v (VStr SCHEMA) | None => false end) then SystemExit 1;
      let changed := changes actual files in
      Ok (changed, match changed with [] => 0 | _ => 1 end)
  | _ => Raise (SystemExit 1)
  end.
End tree.

End Sources.

(** * The inventories: what is published, and what a manifest detects *)

Import Json Sources.

(** ** Orders *)

Lemma parts_leb_total p q : parts_leb p q = true ∨ parts_leb q p = true.
Proof.
  revert q. induction p as [|x p IH]; intros [|y q]; cbn; auto.
  destruct (decide (x = y)) as [->|Hn]; [rewrite decide_True by done; apply IH|].
  rewrite decide_False by congruence. apply str_leb_total.
Qed.
#[export] Instance parts_le_total : Total parts_le.
Proof. intros p q. apply parts_leb_total. Qed.
#[export] Instance entry_le_total : Total entry_le.
Proof. intros p q. apply str_leb_total. Qed.
#[export] Instance key_le_total : Total key_le.
Proof. intros p q. apply str_leb_total. Qed.

Lemma elem_of_sorted_set p l : p ∈ sorted_set l ↔ p ∈ l.
Proof. unfold sorted_set. rewrite merge_sort_Permutation. apply elem_of_remove_dups. Qed.
Lemma NoDup_sorted_set l : NoDup (sorted_set l).
Proof. unfold sorted_set. rewrite merge_sort_Permutation. apply NoDup_remove_dups. Qed.
Lemma Sorted_sorted_set l : Sorted parts_le (sorted_set l).
Proof. apply Sorted_merge_sort, _. Qed.

Section tree.
Context (root : parts) (tree : list file).

Lemma check_all_Ok l : check_all tree l = Ok tt ↔ Forall (λ p, check_source tree p = Ok tt) l.
Proof.
  induction l as [|p l IH]; cbn [check_all]; [by split|]. rewrite Forall_cons, <-IH.
  rewrite result_bind_Ok. split; [intros ([] & ? & ?); by split|intros [? ?]; by exists tt].
Qed.

(** A file the inventory accepts. *)
Definition plain_file (p : parts) : Prop :=
  ∃ f, stat tree p = Some f ∧ link f = false ∧ regular f = true ∧ size f <= LIMIT.
Lemma check_source_Ok p : check_source tree p = Ok tt ↔ plain_file p.
Proof.
  unfold check_source, plain_file. destruct (stat tree p) as [f|]; [|split; [done|by intros (? & ? & _)]].
  split.
  - intros E. apply result_bind_Ok in E as (x & E1 & E). apply result_bind_Ok in E as (y & E2 & _).
    apply raise_if_Ok in E1, E2. bools. exists f. split_and!; done || lia.
  - intros (f' & [= <-] & -> & -> & Hs). cbn. destruct (Z.ltb_spec LIMIT (size f)); [lia|done].
Qed.

(** ** No credential is published *)

Lemma candidates_public p : p ∈ candidates root tree → private_suffix p = false.
Proof.
  unfold candidates. rewrite elem_of_app. intros [Hp|Hp].
  - revert p Hp. apply Forall_forall. repeat (constructor; [vm_compute; reflexivity|]). constructor.
  - apply list_elem_of_bind in Hp as ([folder exts] & Hp & Hf). apply list_elem_of_fmap in Hp as (f & -> & Hf').
    apply list_elem_of_filter in Hf' as [Hsel _]. cbn [fst snd] in Hsel. unfold selected in Hsel.
    apply andb_true_iff in Hsel as [[_ Hext]%andb_true_iff _].
    apply existsb_exists in Hext as (e & He & Hs). apply bool_decide_eq_true in Hs. apply list_elem_of_In in He.
    unfold private_suffix. rewrite Hs.
    assert (Forall (λ x : parts * list pystr, Forall (λ e, bool_decide (e = u ".key") || bool_decide (e = u ".pem") ||
        bool_decide (e = u ".pyc") = false) x.2) FORMATS) as Hall.
    { repeat (constructor; [cbn [snd]; repeat (constructor; [vm_compute; reflexivity|]); constructor|]). constructor. }
    rewrite Forall_forall in Hall. specialize (Hall _ Hf). cbn [snd] in Hall. rewrite Forall_forall in Hall. by apply Hall.
Qed.

Lemma public_files_Ok l : public_files root tree = Ok l ↔
  Forall plain_file (candidates root tree) ∧ l = sorted_set (candidates root tree).
Proof.
  unfold public_files. rewrite result_bind_Ok. split.
  - intros ([] & Hc & [= <-]). apply check_all_Ok in Hc. split; [|done].
    eapply Forall_impl; [exact Hc|]. intros p. apply check_source_Ok.
  - intros [Hp ->]. exists tt. split; [|done]. apply check_all_Ok. eapply Forall_impl; [exact Hp|].
    intros p. apply check_source_Ok.
Qed.

(** ** The entries of a package *)

Fixpoint get (d : contents) (k : pystr) : option bytes :=
  match d with [] => None | (k', v) :: d => if decide (k = k') then Some v else get d k end.

Lemma get_put d k v k' : get (put d k v) k' = if decide (k' = k) then Some v else get d k'.
Proof.
  induction d as [|[k1 v1] d IH]; cbn; [done|].
  repeat (case_decide; cbn; subst); try done; rewrite ?IH; by repeat case_decide.
Qed.
Lemma keys_put d k v : (put d k v).*1 = if decide (k ∈ d.*1) then d.*1 else d.*1 ++ [k].
Proof.
  induction d as [|[k1 v1] d IH]; cbn.
  - rewrite decide_False by apply not_elem_of_nil. done.
  - destruct (decide (k = k1)) as [->|Hk]; cbn.
    + rewrite decide_True by by apply list_elem_of_here. done.
    + rewrite IH. destruct (decide (k ∈ d.*1)) as [Hd|Hd].
      * rewrite decide_True by by apply list_elem_of_further. done.
      * rewrite decide_False by (rewrite elem_of_cons; naive_solver). done.
Qed.
Lemma NoDup_put d k v : NoDup d.*1 → NoDup (put d k v).*1.
Proof.
  intros Hd. rewrite keys_put. case_decide; [done|]. apply NoDup_app. split_and!; [done| |apply NoDup_singleton].
  intros x Hx ->%list_elem_of_singleton. done.
Qed.
Lemma elem_of_get d k v : NoDup d.*1 → (k, v) ∈ d ↔ get d k = Some v.
Proof.
  induction d as [|[k1 v1] d IH]; cbn; intros Hd; [split; [by intros ?%not_elem_of_nil|done]|].
  apply NoDup_cons in Hd as [Hn Hd]. rewrite elem_of_cons. case_decide as Hk; subst.
  - split; [|intros [= ->]; by left]. intros [[= ->]|Hin]; [done|]. destruct Hn. apply list_elem_of_fmap. by exists (k1, v).
  - rewrite <-IH by done. split; [intros [[= ? ?]|?]; done|by right].
Qed.
Lemma get_None d k : get d k = None ↔ k ∉ d.*1.
Proof.
  induction d as [|[k1 v1] d IH]; cbn; [split; [intros _; apply not_elem_of_nil|done]|].
  rewrite not_elem_of_cons. case_decide as Hk; subst; [split; [done|by intros []]|]. rewrite IH. naive_solver.
Qed.

Lemma read_entries_spec acc paths entries : NoDup acc.*1 → read_entries tree acc paths = Ok entries →
  NoDup entries.*1 ∧ (∀ n, n ∈ entries.*1 ↔ n ∈ acc.*1 ∨ ∃ p, p ∈ paths ∧ n = name_of p) ∧
  (∀ n d, get entries n = Some d → get acc n = Some d ∨
     ∃ p f, p ∈ paths ∧ stat tree p = Some f ∧ n = name_of p ∧ d = content f).
Proof.
  revert acc. induction paths as [|p paths IH]; intros acc Hacc E; cbn [read_entries] in E.
  { injection E as <-. split_and!; [done| |auto]. intros n. split; [by left|]. intros [?|(p & ?%not_elem_of_nil & _)]; done. }
  destruct (stat tree p) as [f|] eqn:Ef; [|done]. apply result_bind_Ok in E as (x & _ & E).
  apply IH in E as (Hnd & Hkeys & Hget); [|by apply NoDup_put]. split_and!; [done| |].
  - intros n. rewrite Hkeys, keys_put. setoid_rewrite elem_of_cons. case_decide as Hd.
    + split; [naive_solver|]. intros [?|(q & [->|?] & ->)]; [by left|by left|right; eauto].
    + rewrite elem_of_app, list_elem_of_singleton. naive_solver.
  - intros n d Hn. apply Hget in Hn as [Hn|(q & g & Hq & ?)]; [|right; exists q, g; split; [by apply list_elem_of_further|done]].
    rewrite get_put in Hn. case_decide as Hk; [|by left]. injection Hn as <-. right. exists p, f.
    split_and!; [by apply list_elem_of_here|done..].
Qed.

Lemma read_entries_total acc paths : Forall (λ p, plain_file p ∧ private_suffix p = false) paths →
  ∃ entries, read_entries tree acc paths = Ok entries.
Proof.
  intros Hp. revert acc. induction Hp as [|p paths [(f & Hf & Hl & _) Hs] _ IH]; intros acc; cbn [read_entries]; [by eexists|].
  rewrite Hf, Hl, Hs. cbn. apply IH.
Qed.

Definition package_name : pystr := u "PACKAGE.json".
Lemma join_slash x y l : 47 ∈ join [47] (x :: y :: l).
Proof. cbn [join]. rewrite !elem_of_app, list_elem_of_singleton. auto. Qed.
Lemma candidates_named p : p ∈ candidates root tree → name_of p ≠ package_name.
Proof.
  unfold candidates. rewrite elem_of_app. intros [Hp|Hp].
  - revert p Hp. apply Forall_forall. repeat (constructor; [vm_compute; discriminate|]). constructor.
  - apply list_elem_of_bind in Hp as ([folder exts] & Hp & Hf). apply list_elem_of_fmap in Hp as (f & -> & Hf').
    apply list_elem_of_filter in Hf' as [Hsel _]. cbn [fst snd] in Hsel. unfold selected in Hsel.
    apply andb_true_iff in Hsel as [[[Hun _]%andb_true_iff _]%andb_true_iff _].
    apply andb_true_iff in Hun as [_ Hlen]. apply Nat.ltb_lt in Hlen.
    assert (Forall (λ x : parts * list pystr, 1 <= length x.1)%nat FORMATS) as Hall
      by (repeat (constructor; [cbn; lia|]); constructor).
    rewrite Forall_forall in Hall. specialize (Hall _ Hf). cbn [fst] in Hall.
    destruct (path f) as [|x [|y l]]; cbn in Hlen; [lia|lia|]. intros E.
    pose proof (join_slash x y l) as Hin. unfold name_of in E. rewrite E in Hin.
    assert (existsb (Z.eqb 47) package_name = false) as Hno by (vm_compute; reflexivity).
    assert (existsb (Z.eqb 47) package_name = true); [|congruence].
    apply existsb_exists. exists 47. split; [by apply list_elem_of_In|done].
Qed.

(** What a package holds. *)
Record faithful (version : pystr) (l : list parts) (members : list member) : Prop := {
  in_order : Sorted (λ x y, str_leb (m_name x) (m_name y) = true) members;
  each_once : NoDup (m_name <$> members);
  every_file : ∀ p, p ∈ l → ∃ f, stat tree p = Some f ∧ link f = false ∧ regular f = true ∧ size f <= LIMIT ∧
    private_suffix p = false ∧ ∃ d, member_of (name_of p, d) ∈ members;
  nothing_else : ∃ entries,
    member_of (package_name, package_json version entries) ∈ members ∧
    (∀ m, m ∈ members → m = member_of (package_name, package_json version entries) ∨
       ∃ p f, p ∈ l ∧ stat tree p = Some f ∧ m = member_of (name_of p, content f) ∧
         d_get (digests entries) (name_of p) = Some (VStr (sha256_hex (content f)))) ∧
    (∀ n, is_Some (d_get (digests entries) n) ↔ ∃ p, p ∈ l ∧ n = name_of p) }.

Lemma get_digests entries n : d_get (digests entries) n = (λ d, VStr (sha256_hex d)) <$> get entries n.
Proof. induction entries as [|[k d] entries IH]; [done|]. cbn. by case_decide. Qed.

Lemma str_leb_prefix p x y : str_leb (p ++ x) (p ++ y) = str_leb x y.
Proof. induction p as [|c p IH]; [done|]. cbn. by rewrite Z.ltb_irrefl. Qed.

Lemma sorted_members l : Sorted entry_le l → Sorted (λ x y, str_leb (m_name x) (m_name y) = true) (member_of <$> l).
Proof.
  induction 1 as [|x l Hl IH Hhd]; cbn; [constructor|]. constructor; [done|].
  destruct Hhd as [|y l Hxy]; cbn; constructor. cbn. rewrite str_leb_prefix. exact Hxy.
Qed.

(** The package of the game.  Whenever the inventory of public files is
    accepted, so is the package: every public file is an ordinary file, not a
    link, of at most five megabytes, and never a key, a certificate store or a
    compiled file, so the refusals of the packaging are never met.  The archive
    holds, in the order of their names and each once, exactly those files with
    their contents and [PACKAGE.json], whose digests are those of every other
    member and of nothing else. *)
Theorem package_is_faithful version l : public_files root tree = Ok l →
  ∃ members, package root tree version = Ok members ∧ faithful version l members.
Proof.
  intros Hpub. pose proof Hpub as Hp. apply public_files_Ok in Hp as [Hplain ->].
  set (l := sorted_set (candidates root tree)) in *.
  assert (Hl : ∀ p, p ∈ sorted_set l ↔ p ∈ candidates root tree).
  { intros p. unfold l. by rewrite !elem_of_sorted_set. }
  assert (Hgood : Forall (λ p, plain_file p ∧ private_suffix p = false) (sorted_set l)).
  { apply Forall_forall. intros p Hp. apply Hl in Hp. rewrite Forall_forall in Hplain.
    split; [by apply Hplain|by apply candidates_public]. }
  destruct (read_entries_total [] _ Hgood) as (entries & He).
  pose proof (read_entries_spec [] _ _ ltac:(constructor) He) as (Hnd & Hkeys & Hget).
  unfold package. rewrite Hpub. cbn [mbind result_bind]. rewrite He. cbn [mbind result_bind].
  set (all := put entries package_name (package_json version entries)).
  assert (Hall : NoDup all.*1) by by apply NoDup_put.
  assert (Hnot : package_name ∉ entries.*1).
  { rewrite Hkeys. intros [?%not_elem_of_nil|(p & Hp & Hn)]; [done|]. apply Hl in Hp. by apply candidates_named in Hp. }
  eexists. split; [reflexivity|]. fold package_name. fold all.
  assert (Hin : ∀ n d, member_of (n, d) ∈ member_of <$> merge_sort entry_le all ↔ get all n = Some d).
  { intros n d. rewrite <-elem_of_get by done. rewrite list_elem_of_fmap. setoid_rewrite merge_sort_Permutation. split.
    - intros ([n' d'] & Hm & Hx). injection Hm as Hn _ Hd. simplify_eq. done.
    - intros Hx. by exists (n, d). }
  split.
  - apply sorted_members, Sorted_merge_sort, _.
  - rewrite <-list_fmap_compose. rewrite merge_sort_Permutation.
    assert (m_name ∘ member_of <$> all = app (u "MiddlewareAnticheatv2/") <$> all.*1) as ->
      by by rewrite <-list_fmap_compose.
    apply NoDup_fmap_2, Hall. intros x y Hxy. by apply app_inv_head in Hxy.
  - intros p Hp. unfold l in Hp. rewrite elem_of_sorted_set in Hp. rewrite Forall_forall in Hplain.
    destruct (Hplain _ Hp) as (f & Hf & Hlk & Hr & Hs). exists f. split_and!; try done; [by apply candidates_public|].
    assert (name_of p ∈ entries.*1) as Hk by (apply Hkeys; right; exists p; split; [by apply Hl|done]).
    destruct (get entries (name_of p)) as [d|] eqn:Ed; [|by apply get_None in Ed].
    exists d. apply Hin. unfold all. rewrite get_put, decide_False; [done|]. by apply candidates_named.
  - exists entries. split_and!.
    + apply Hin. unfold all. rewrite get_put. by rewrite decide_True.
    + intros m Hm. apply list_elem_of_fmap in Hm as ([n d] & -> & Hx). rewrite merge_sort_Permutation in Hx.
      apply elem_of_get in Hx; [|done]. unfold all in Hx. rewrite get_put in Hx. case_decide as Hn; [left; congruence|right].
      pose proof Hx as Hx'. apply Hget in Hx as [?|(p & f & Hp & Hf & -> & ->)]; [done|]. exists p, f. split_and!; try done.
      * unfold l. rewrite elem_of_sorted_set. by apply Hl.
      * by rewrite get_digests, Hx'.
    + intros n. rewrite get_digests. destruct (get entries n) as [d|] eqn:Ed.
      * split; [intros _|intros _; by eexists]. apply Hget in Ed as [?|(p & f & Hp & _ & -> & _)]; [done|].
        exists p. split; [|done]. unfold l. rewrite elem_of_sorted_set. by apply Hl.
      * split; [by intros []|]. intros (p & Hp & ->). apply get_None in Ed. destruct Ed. apply Hkeys. right.
        exists p. split; [|done]. apply Hl. unfold l in Hp. by rewrite elem_of_sorted_set in Hp.
Qed.
End tree.

(** ** The manifest of a client *)

(** The digest the files of a tree give for a name. *)
Definition hashed (d : dict) : Prop := ∀ k v, d_get d k = Some v → ∃ f : file, v = VStr (sha256_hex (content f)).

Lemma hash_files_spec tree acc l d : hash_files tree acc l = Ok d → hashed acc →
  hashed d ∧ (∀ k, is_Some (d_get d k) ↔ is_Some (d_get acc k) ∨ ∃ p, p ∈ l ∧ k = name_of p).
Proof.
  revert acc. induction l as [|p l IH]; intros acc E Hacc; cbn [hash_files] in E.
  { injection E as <-. split; [done|]. intros k. split; [by left|]. intros [?|(p & ?%not_elem_of_nil & _)]; done. }
  destruct (stat tree p) as [f|]; [|done]. apply IH in E as [Hd Hk].
  - split; [done|]. intros k. rewrite Hk, d_get_set. setoid_rewrite elem_of_cons. case_decide as Hn.
    + subst. split; [intros _; right; by exists p; split; [left|]|]. intros _. left. by eexists.
    + naive_solver.
  - intros k v. rewrite d_get_set. case_decide; [|by apply Hacc]. intros [= <-]. by exists f.
Qed.

Lemma changes_spec actual expected :
  Sorted key_le (changes actual expected) ∧ NoDup (changes actual expected) ∧
  ∀ k, k ∈ changes actual expected ↔ same_at actual expected k = false.
Proof.
  unfold changes. split_and!.
  - apply Sorted_merge_sort, _.
  - rewrite merge_sort_Permutation. apply NoDup_filter, NoDup_remove_dups.
  - intros k. rewrite merge_sort_Permutation, list_elem_of_filter, elem_of_remove_dups, elem_of_app.
    split; [by intros []|]. intros Hs. split; [done|]. unfold same_at in Hs.
    destruct (decide (k ∈ keys actual)) as [|Ha]; [by left|]. destruct (decide (k ∈ keys expected)) as [|He]; [by right|].
    apply d_get_None in Ha, He. by rewrite Ha, He in Hs.
Qed.

Lemma same_at_hashed a e k : hashed a → hashed e → same_at a e k = true ↔ d_get a k = d_get e k.
Proof.
  intros Ha He. unfold same_at. destruct (d_get a k) as [x|] eqn:Ex, (d_get e k) as [y|] eqn:Ey; try done.
  - apply Ha in Ex as (f & ->). apply He in Ey as (g & ->). cbn. rewrite bool_decide_eq_true. split; congruence.
  - apply Ha in Ex as (f & ->). done.
  - apply He in Ey as (g & ->). done.
Qed.

(** The comparison of a client with the manifest of another tree.  A manifest
    written by [create] is accepted by [verify]; the files it reports, sorted and
    each once, are exactly those whose SHA-256 differs between the two trees or
    that only one of them has; so the exit code is 0 exactly when the digests
    agree on every name. *)
Theorem manifest_detects_changes root tree tree' a a' :
  inventory root tree = Ok a → inventory root tree' = Ok a' →
  ∃ changed code, verify a' (manifest a) = Ok (changed, code) ∧
    Sorted key_le changed ∧ NoDup changed ∧ (∀ k, k ∈ changed ↔ d_get a k ≠ d_get a' k) ∧
    (code = 0 ↔ ∀ k, d_get a k = d_get a' k).
Proof.
  intros E E'. unfold inventory in E, E'. apply result_bind_Ok in E as (x & _ & E). apply result_bind_Ok in E' as (x' & _ & E').
  apply hash_files_spec in E as [Ha _]; [|by intros k v]. apply hash_files_spec in E' as [Ha' _]; [|by intros k v].
  destruct (changes_spec a' a) as (Hs & Hn & Hc).
  assert (Hc' : ∀ k, k ∈ changes a' a ↔ d_get a k ≠ d_get a' k).
  { intros k. rewrite Hc, <-not_true_iff_false, same_at_hashed by done. naive_solver. }
  eexists _, _. split; [reflexivity|]. split_and!; [done..|].
  destruct (changes a' a) as [|k l] eqn:El; split; try done.
  - intros _ k. destruct (same_at a' a k) eqn:Es; [by apply same_at_hashed in Es|]. apply Hc in Es. by apply not_elem_of_nil in Es.
  - intros Hall. assert (k ∈ k :: l) as Hk by apply list_elem_of_here. apply Hc' in Hk. by destruct Hk.
Qed.

(** ** A small tree *)

Definition plain (p : parts) (data : bytes) : file := File p false true (len data) data.
Definition sample_tree (script : bytes) : list file :=
  ((λ p, plain p (b "x")) <$> FILES) ++
  [plain [u "game"; u "main.gd"] script; plain [u "game"; u ".godot"; u "cache.gd"] (b "cache");
   plain [u "tools"; u "run_game.py"] (b "run"); plain [u "docs"; u "secret.key"] (b "key")].
Definition sample_public : list parts := Eval vm_compute in
  match public_files [u "srv"] (sample_tree (b "play")) with Ok l => l | Raise _ => [] end.
Lemma sample_public_eq : public_files [u "srv"] (sample_tree (b "play")) = Ok sample_public.
Proof. vm_compute. reflexivity. Qed.

Lemma package_is_faithful_witness :
  length sample_public = 11%nat ∧
  ∃ members, package [u "srv"] (sample_tree (b "play")) (u "0.1.0") = Ok members ∧
    faithful (sample_tree (b "play")) (u "0.1.0") sample_public members.
Proof.
  split; [vm_compute; reflexivity|].
  exact (package_is_faithful [u "srv"] (sample_tree (b "play")) (u "0.1.0") sample_public sample_public_eq).
Defined.

Definition sample_inventory (script : bytes) : dict :=
  match inventory [u "srv"] (sample_tree script) with Ok d => d | Raise _ => [] end.
Lemma sample_inventory_eq script : (∃ d, inventory [u "srv"] (sample_tree script) = Ok d) →
  inventory [u "srv"] (sample_tree script) = Ok (sample_inventory script).
Proof. unfold sample_inventory. by intros (d & ->). Qed.

Lemma manifest_detects_changes_witness :
  ∃ changed code, verify (sample_inventory (b "cheat")) (manifest (sample_inventory (b "play"))) = Ok (changed, code) ∧
    Sorted key_le changed ∧ NoDup changed ∧
    (∀ k, k ∈ changed ↔ d_get (sample_inventory (b "play")) k ≠ d_get (sample_inventory (b "cheat")) k) ∧
    (code = 0 ↔ ∀ k, d_get (sample_inventory (b "play")) k = d_get (sample_inventory (b "cheat")) k).
Proof.
  apply (manifest_detects_changes [u "srv"] (sample_tree (b "play")) (sample_tree (b "cheat")));
    apply sample_inventory_eq; eexists; vm_compute; reflexivity.
Defined.
