(* ===== verification/Analyze.v ===== *)
(** * The offline analysis of a match ([src/tools/analyze_match.py])

    The join of a replayed detector with the ground truth, and the report.  The
    detector is a parameter: its rows.  Scores and the threshold are the rational
    numbers their doubles are; a ratio is the quotient whose nearest double the
    report prints. *)

From Stdlib Require Import QArith Qabs.
From S2P Require Import Prelude Bytes.
Open Scope Z_scope.

Module Analyze.

(** A row of the detector and a line of the ground truth, decoded. *)
Record row := Row { r_session : pystr; r_player : Z; score : Q; tick : Z }.
Record truth := Truth {
  schema : option pystr;
  enabled : option bool;         (* [None]: not a [bool] *)
  t_session : option pystr;
  t_player : option Z;
  observed : Z }.

Abbreviation key := (pystr * Z)%type.
Definition key_of (r : row) : key := (r_session r, r_player r).

(** The complete lines of a session file, and the bytes of an incomplete one. *)
Definition newline : byte := x0a.
Fixpoint until_newline (l : bytes) : bytes * bytes :=
  match l with
  | [] => ([], [])
  | c :: l => if decide (c = newline) then ([], c :: l) else let '(a, r) := until_newline l in (c :: a, r)
  end.
Definition complete_lines (raw : bytes) : bytes * Z :=
  let '(tail, lines) := until_newline (rev raw) in (rev lines, len tail).

(** ** The ground truth *)

Definition player_of (e : truth) : Z := default 0 (t_player e).
(** [event.get('session') and event.get('player', 0) > 0] *)
Definition keyed (e : truth) : option key :=
  match t_session e with
  | Some (c :: s) => if 0 <? player_of e then Some (c :: s, player_of e) else None
  | _ => None
  end.
Definition valid (e : truth) : bool :=
  bool_decide (schema e = Some (u "arena-ground-truth/1")) && bool_decide (is_Some (enabled e)).
(** The loop over the lines: all must be valid. *)
Fixpoint load_truth (lines : list truth) : result (list truth) :=
  match lines with
  | [] => Ok []
  | e :: lines => raise_if! negb (valid e) then SystemExit 1; es ← load_truth lines; Ok (e :: es)
  end.

(** [events.sort(key=observed_server_tick)]: stable. *)
Fixpoint insert (e : truth) (l : list truth) : list truth :=
  match l with
  | [] => [e]
  | x :: l => if observed e <? observed x then e :: x :: l else x :: insert e l
  end.
Definition sort (l : list truth) : list truth := foldl (λ acc e, insert e acc) [] l.
(** [truth.get(key, [])] *)
Definition events_of (all : list truth) (k : key) : list truth := sort (filter (λ e, keyed e = Some k) all).

(** ** The join *)

Inductive class := TP | TN | FP | FN.
#[export] Instance class_eq_dec : EqDecision class.
Proof. solve_decision. Defined.

Definition eligible (r : row) (e : truth) : bool := observed e + 12 <=? tick r.
Definition near (r : row) (e : truth) : bool := Z.abs (observed e - tick r) <? 12.
(** The label of a row: [None] when it is unknown. *)
Definition label (all : list truth) (r : row) : option bool :=
  let events := events_of all (key_of r) in
  let chosen := filter (λ e, eligible r e = true) events in
  match last chosen with
  | None => None
  | Some e => if existsb (near r) events then None else enabled e
  end.
(** The observed tick of the transition a row is labelled by. *)
Definition labelled_at (all : list truth) (r : row) : Z :=
  match last (filter (λ e, eligible r e = true) (events_of all (key_of r))) with Some e => observed e | None => 0 end.
Definition detected (threshold : Q) (r : row) : bool := Qle_bool threshold (score r).
Definition class_of (l d : bool) : class := if l then (if d then TP else FN) else if d then FP else TN.

Record tally := Tally {
  tp : Z; tn : Z; fp : Z; fn : Z;
  unknown : Z;
  max_score : list (key * Q);
  first_detected : list (key * Z) }.
Definition zero : tally := Tally 0 0 0 0 0 [] [].

Definition count (c : class) (t : tally) : tally :=
  match c with
  | TP => Tally (tp t + 1) (tn t) (fp t) (fn t) (unknown t) (max_score t) (first_detected t)
  | TN => Tally (tp t) (tn t + 1) (fp t) (fn t) (unknown t) (max_score t) (first_detected t)
  | FP => Tally (tp t) (tn t) (fp t + 1) (fn t) (unknown t) (max_score t) (first_detected t)
  | FN => Tally (tp t) (tn t) (fp t) (fn t + 1) (unknown t) (max_score t) (first_detected t)
  end.
Fixpoint lookup_key {A} (d : list (key * A)) (k : key) : option A :=
  match d with [] => None | (k', x) :: d => if decide (k = k') then Some x else lookup_key d k end.
Fixpoint set_key {A} (d : list (key * A)) (k : key) (x : A) : list (key * A) :=
  match d with [] => [(k, x)] | (k', y) :: d => if decide (k = k') then (k', x) :: d else (k', y) :: set_key d k x end.
(** [max(max_score.get(key, 0), row['score'])] *)
Definition raise_max (r : row) (t : tally) : tally :=
  let old := default 0%Q (lookup_key (max_score t) (key_of r)) in
  Tally (tp t) (tn t) (fp t) (fn t) (unknown t)
    (set_key (max_score t) (key_of r) (if Qle_bool (score r) old then old else score r)) (first_detected t).
Definition add_unknown (t : tally) : tally :=
  Tally (tp t) (tn t) (fp t) (fn t) (unknown t + 1) (max_score t) (first_detected t).
(** [first_detected.setdefault(key, latency)] *)
Definition note_detection (k : key) (latency : Z) (t : tally) : tally :=
  match lookup_key (first_detected t) k with
  | Some _ => t
  | None => Tally (tp t) (tn t) (fp t) (fn t) (unknown t) (max_score t) (set_key (first_detected t) k latency)
  end.

Definition step (all : list truth) (threshold : Q) (t : tally) (r : row) : tally :=
  let t := raise_max r t in
  match label all r with
  | None => add_unknown t
  | Some l =>
      let d := detected threshold r in
      let t := count (class_of l d) t in
      if l && d then note_detection (key_of r) (tick r - labelled_at all r) t else t
  end.
Definition join_rows (all : list truth) (threshold : Q) (rows : list row) : tally := foldl (step all threshold) zero rows.

(** ** The report *)

Definition ratio (a b : Z) : option Q := if b =? 0 then None else Some (a # Z.to_pos b).
Record report := Report {
  samples : Z; truncated_tail_bytes : Z; tallied : tally;
  precision : option Q; recall : option Q; false_positive_rate : option Q; false_negative_rate : option Q }.
Definition analyze (threshold : Q) (size_limit_ok : bool) (raw : bytes) (detector : bytes → result (list row))
    (lines : list truth) : result report :=
  raise_if! negb (negb (Qle_bool threshold 0) && Qle_bool threshold 100) then SystemExit 2;
  raise_if! negb size_limit_ok then SystemExit 2;
  let '(complete, tail) := complete_lines raw in
  rows ← detector complete;
  all ← load_truth lines;
  let t := join_rows all threshold rows in
  Ok (Report (len rows) tail t (ratio (tp t) (tp t + fp t)) (ratio (tp t) (tp t + fn t))
        (ratio (fp t) (fp t + tn t)) (ratio (fn t) (fn t + tp t))).

End Analyze.

(** * The offline analysis: the counters against a reference classification *)

Import Analyze.

(** ** The reference: one pass over the unsorted ground truth *)

Definition of_key (k : key) (e : truth) : bool := bool_decide (keyed e = Some k).
(** The later of two events; of two at the same tick, the one further in the file. *)
Definition later (acc : option truth) (e : truth) : option truth :=
  match acc with
  | Some a => if observed e <? observed a then Some a else Some e
  | None => Some e
  end.
Definition latest (all : list truth) (r : row) : option truth :=
  foldl (λ acc e, if of_key (key_of r) e && eligible r e then later acc e else acc) None all.
(** A row is labelled by the latest transition of its player at least twelve ticks
    before it, unless a transition of that player is less than twelve ticks away. *)
Definition reference (threshold : Q) (all : list truth) (r : row) : option class :=
  match latest all r with
  | None => None
  | Some e =>
      if existsb (λ e, of_key (key_of r) e && near r e) all then None
      else (λ l, class_of l (detected threshold r)) <$> enabled e
  end.

(** ** Sorting *)

Definition in_order (l : list truth) : Prop := StronglySorted (λ x y, observed x <= observed y) l.

Lemma elem_of_insert e l x : x ∈ insert e l ↔ x = e ∨ x ∈ l.
Proof.
  induction l as [|y l IH]; cbn; [by rewrite list_elem_of_singleton; set_solver|].
  case_match; rewrite !elem_of_cons; rewrite ?IH; naive_solver.
Qed.

Lemma insert_in_order e l : in_order l → in_order (insert e l).
Proof.
  intros Hl. induction Hl as [|x l Hl IH Hx]; cbn; [by repeat constructor|].
  destruct (Z.ltb_spec (observed e) (observed x)).
  - constructor; [by constructor|]. constructor; [lia|]. eapply Forall_impl; [exact Hx|]. cbn. intros. lia.
  - constructor; [done|]. apply Forall_forall. intros y [->|Hy]%elem_of_insert; [lia|].
    rewrite Forall_forall in Hx. by apply Hx.
Qed.

Lemma insert_front e m : Forall (λ x, observed e < observed x) m → insert e m = e :: m.
Proof. destruct 1 as [|x m Hx _]; cbn; [done|]. destruct (Z.ltb_spec (observed e) (observed x)); [done|lia]. Qed.

Lemma filter_insert (P : truth → bool) e l : in_order l →
  filter (λ x, P x = true) (insert e l) =
  if P e then insert e (filter (λ x, P x = true) l) else filter (λ x, P x = true) l.
Proof.
  intros Hl. induction Hl as [|x l Hl IH Hx]; cbn [insert].
  - rewrite filter_cons. case_decide as He; destruct (P e); done.
  - destruct (Z.ltb_spec (observed e) (observed x)).
    + rewrite filter_cons. case_decide as He; destruct (P e) eqn:Ee; try done.
      symmetry. apply insert_front. apply Forall_forall. intros y [_ Hy]%list_elem_of_filter.
      apply elem_of_cons in Hy as [->|Hy]; [done|]. rewrite Forall_forall in Hx. specialize (Hx _ Hy). cbn in Hx. lia.
    + rewrite !filter_cons. rewrite IH. case_decide as Hp; destruct (P e); try done. cbn [insert].
      destruct (Z.ltb_spec (observed e) (observed x)); [lia|done].
Qed.

Lemma last_insert e m : in_order m → last (insert e m) = later (last m) e.
Proof.
  intros Hm. induction Hm as [|x m Hm IH Hx]; [done|]. cbn [insert].
  destruct (Z.ltb_spec (observed e) (observed x)) as [Hlt|Hge].
  - change (e :: x :: m) with ([e] ++ x :: m). rewrite last_app.
    destruct (last (x :: m)) as [y|] eqn:El; [|by apply last_None in El].
    cbn. assert (observed x <= observed y).
    { apply last_Some_elem_of in El. apply elem_of_cons in El as [->|Hy]; [lia|]. rewrite Forall_forall in Hx. by apply Hx. }
    destruct (Z.ltb_spec (observed e) (observed y)); [done|lia].
  - change (x :: insert e m) with ([x] ++ insert e m). rewrite last_app, IH.
    change (x :: m) with ([x] ++ m). rewrite last_app. destruct (last m) as [y|]; cbn.
    + by destruct (observed e <? observed y).
    + destruct (Z.ltb_spec (observed e) (observed x)); [lia|done].
Qed.

Lemma sort_in_order l : in_order (sort l).
Proof.
  unfold sort. assert (∀ acc, in_order acc → in_order (foldl (λ acc e, insert e acc) acc l)) as H; [|apply H; constructor].
  induction l as [|e l IH]; intros acc Hacc; cbn; [done|]. by apply IH, insert_in_order.
Qed.
Lemma elem_of_sort l x : x ∈ sort l ↔ x ∈ l.
Proof.
  unfold sort. assert (∀ acc, x ∈ foldl (λ acc e, insert e acc) acc l ↔ x ∈ acc ∨ x ∈ l) as H; [|rewrite H; set_solver].
  induction l as [|e l IH]; intros acc; cbn; [set_solver|]. rewrite IH, elem_of_insert. set_solver.
Qed.

(** The last eligible event of the sorted list is the latest one of the file. *)
Lemma last_eligible all r :
  last (filter (λ e, eligible r e = true) (events_of all (key_of r))) = latest all r.
Proof.
  unfold events_of, latest, sort.
  assert (∀ acc, in_order acc →
    last (filter (λ e, eligible r e = true) (foldl (λ acc e, insert e acc) acc (filter (λ e, keyed e = Some (key_of r)) all))) =
    foldl (λ acc e, if of_key (key_of r) e && eligible r e then later acc e else acc)
      (last (filter (λ e, eligible r e = true) acc)) all) as H; [|apply (H []); constructor].
  induction all as [|e all IH]; intros acc Hacc; cbn; [done|]. unfold of_key at 2.
  case_decide as Hk; [rewrite bool_decide_true by done|rewrite bool_decide_false by done].
  - cbn. rewrite IH by by apply insert_in_order. rewrite filter_insert by done.
    destruct (eligible r e); [|done]. rewrite last_insert; [done|].
    clear -Hacc. unfold in_order in *. induction Hacc as [|x l Hl IH Hx]; [constructor|]. rewrite filter_cons.
    case_decide; [|done]. constructor; [done|]. apply Forall_forall. intros y [_ Hy]%list_elem_of_filter.
    rewrite Forall_forall in Hx. by apply Hx.
  - cbn. by apply IH.
Qed.

Lemma near_any all r : existsb (near r) (events_of all (key_of r)) = existsb (λ e, of_key (key_of r) e && near r e) all.
Proof.
  apply eq_true_iff_eq. rewrite !existsb_exists. split; intros (e & He & Hn).
  - apply list_elem_of_In, elem_of_sort, list_elem_of_filter in He as [Hk He]. exists e.
    split; [by apply list_elem_of_In|]. unfold of_key. by rewrite bool_decide_true.
  - apply andb_true_iff in Hn as [Hk Hn]. apply bool_decide_eq_true in Hk. exists e. split; [|done].
    apply list_elem_of_In, elem_of_sort, list_elem_of_filter. split; [done|by apply list_elem_of_In].
Qed.

Lemma label_reference threshold all r :
  (λ l, class_of l (detected threshold r)) <$> label all r = reference threshold all r.
Proof.
  unfold label, reference. rewrite near_any, last_eligible. destruct (latest all r) as [e|]; [|done].
  by destruct (existsb _ all).
Qed.

(** ** Counting *)

Definition counter (c : class) (t : tally) : Z :=
  match c with TP => tp t | TN => tn t | FP => fp t | FN => fn t end.
Definition rows_of (threshold : Q) (all : list truth) (rows : list row) (c : option class) : Z :=
  len (filter (λ r, reference threshold all r = c) rows).

Lemma counter_count c c' t : counter c (count c' t) = counter c t + (if decide (c = c') then 1 else 0).
Proof. destruct c, c'; first [rewrite decide_True by done|rewrite decide_False by done]; cbn; lia. Qed.
Lemma counter_other c t r k x :
  counter c (raise_max r t) = counter c t ∧ counter c (add_unknown t) = counter c t ∧
  counter c (note_detection k x t) = counter c t ∧ unknown (note_detection k x t) = unknown t ∧
  (∀ c', unknown (count c' t) = unknown t).
Proof.
  unfold note_detection. split_and!; try (by destruct c); try (by destruct (lookup_key (first_detected t) k); destruct c).
  by intros [].
Qed.

Lemma step_counts all threshold t r :
  (∀ c, counter c (step all threshold t r) = counter c t + (if decide (reference threshold all r = Some c) then 1 else 0)) ∧
  unknown (step all threshold t r) = unknown t + (if decide (reference threshold all r = None) then 1 else 0).
Proof.
  rewrite <-label_reference. unfold step. destruct (label all r) as [l|]; cbn [fmap option_fmap option_map].
  - set (k := class_of l (detected threshold r)).
    assert (∀ b k' x t', (∀ c, counter c (if (b : bool) then note_detection k' x t' else t') = counter c t') ∧
      unknown (if b then note_detection k' x t' else t') = unknown t') as Hnote.
    { intros b k' x t'. destruct b; [|done]. split; [intros c|]; by apply (counter_other c t' r k' x) || by apply (counter_other TP t' r k' x). }
    split; [intros c|].
    + rewrite (proj1 (Hnote _ _ _ _)), counter_count. destruct (counter_other c t r (key_of r) 0) as [-> _]. f_equal.
      destruct (decide (c = k)) as [->|Hne]; [by rewrite decide_True|by rewrite decide_False by congruence].
    + rewrite (proj2 (Hnote _ _ _ _)). destruct (counter_other TP (raise_max r t) r (key_of r) 0) as (_ & _ & _ & _ & ->).
      rewrite decide_False by done. cbn. lia.
  - split; [intros c|].
    + destruct (counter_other c (raise_max r t) r (key_of r) 0) as (_ & -> & _).
      destruct (counter_other c t r (key_of r) 0) as (-> & _). rewrite decide_False by done. lia.
    + rewrite decide_True by done. done.
Qed.

Lemma join_counts_from all threshold rows t :
  (∀ c, counter c (foldl (step all threshold) t rows) = counter c t + rows_of threshold all rows (Some c)) ∧
  unknown (foldl (step all threshold) t rows) = unknown t + rows_of threshold all rows None.
Proof.
  revert t. induction rows as [|r rows IH]; intros t; cbn [foldl].
  { unfold rows_of, len. cbn. split; [intros c|]; lia. }
  destruct (IH (step all threshold t r)) as [IHc IHu]. destruct (step_counts all threshold t r) as [Hc Hu].
  unfold rows_of in *. rewrite IHu, Hu. rewrite filter_cons. split; [intros c; rewrite IHc, Hc, filter_cons|].
  - repeat case_decide; rewrite ?len_cons; first [congruence|lia].
  - repeat case_decide; rewrite ?len_cons; first [congruence|lia].
Qed.

Lemma classes_cover threshold all rows :
  rows_of threshold all rows (Some TP) + rows_of threshold all rows (Some TN) + rows_of threshold all rows (Some FP) +
  rows_of threshold all rows (Some FN) + rows_of threshold all rows None = len rows.
Proof.
  induction rows as [|r rows IH]; [done|]. unfold rows_of in *. rewrite !filter_cons, len_cons.
  destruct (reference threshold all r) as [[]|]; repeat case_decide; rewrite ?len_cons; first [congruence|lia].
Qed.

(** A ratio of the report: between 0 and 1, missing exactly when nothing is counted. *)
Definition unit_ratio (a b : Z) (q : option Q) : Prop :=
  match q with
  | None => b = 0
  | Some q => b <> 0 ∧ (0 <= q)%Q ∧ (q <= 1)%Q ∧ (q * inject_Z b == inject_Z a)%Q
  end.
Lemma ratio_unit a b : 0 <= a <= b → unit_ratio a b (ratio a b).
Proof.
  intros Hab. unfold ratio, unit_ratio. destruct (Z.eqb_spec b 0) as [|Hb]; [done|].
  assert (Z.pos (Z.to_pos b) = b) as Hpos by (apply Z2Pos.id; lia). unfold Qle, Qeq, inject_Z. cbn. rewrite ?Hpos. lia.
Qed.

Lemma load_truth_Ok lines all : load_truth lines = Ok all → all = lines.
Proof.
  revert all. induction lines as [|e lines IH]; intros all E; cbn [load_truth] in E; [by injection E as <-|].
  apply result_bind_Ok in E as (x & _ & E). apply result_bind_Ok in E as (es & E1 & E). injection E as <-.
  by rewrite (IH _ E1).
Qed.

Lemma until_newline_app l : (until_newline l).1 ++ (until_newline l).2 = l.
Proof. induction l as [|c l IH]; [done|]. cbn. case_decide; [done|]. destruct (until_newline l). cbn in *. by rewrite IH. Qed.

(** C39.  The confusion matrix of the report equals a reference count.  Every sample of
    the detector is counted exactly once: as unknown, or in the class given by
    its score against the threshold and by the state of the latest transition of
    its player at least twelve ticks earlier, provided no transition of that
    player is less than twelve ticks away; the ground truth may be in any order.
    The four rates are the exact ratios of the counters, between 0 and 1, and
    missing exactly when there is nothing to divide by; and the bytes analysed
    and the truncated tail make up the session file. *)
Theorem analysis_is_reference threshold size_ok raw detector lines rep :
  analyze threshold size_ok raw detector lines = Ok rep → ∃ rows,
    detector (complete_lines raw).1 = Ok rows ∧ samples rep = len rows ∧
    (∀ c, counter c (tallied rep) = rows_of threshold lines rows (Some c)) ∧
    unknown (tallied rep) = rows_of threshold lines rows None ∧
    tp (tallied rep) + tn (tallied rep) + fp (tallied rep) + fn (tallied rep) + unknown (tallied rep) = samples rep ∧
    unit_ratio (tp (tallied rep)) (tp (tallied rep) + fp (tallied rep)) (precision rep) ∧
    unit_ratio (tp (tallied rep)) (tp (tallied rep) + fn (tallied rep)) (recall rep) ∧
    unit_ratio (fp (tallied rep)) (fp (tallied rep) + tn (tallied rep)) (false_positive_rate rep) ∧
    unit_ratio (fn (tallied rep)) (fn (tallied rep) + tp (tallied rep)) (false_negative_rate rep) ∧
    ∃ tail, raw = (complete_lines raw).1 ++ tail ∧ len tail = truncated_tail_bytes rep.
Proof.
  intros E. unfold analyze in E. apply result_bind_Ok in E as (x1 & _ & E). apply result_bind_Ok in E as (x2 & _ & E).
  unfold complete_lines in *. pose proof (until_newline_app (rev raw)) as Hraw.
  destruct (until_newline (rev raw)) as [tail rest]. cbn [fst snd] in *.
  apply result_bind_Ok in E as (rows & Hdet & E). apply result_bind_Ok in E as (all & Hall & E).
  apply load_truth_Ok in Hall as ->. injection E as <-. cbn. exists rows.
  destruct (join_counts_from lines threshold rows zero) as [Hc Hu]. fold (join_rows lines threshold rows) in *.
  set (t := join_rows lines threshold rows) in *.
  assert (Hc' : ∀ c, counter c t = rows_of threshold lines rows (Some c)) by (intros c; rewrite Hc; by destruct c).
  assert (Hpos : ∀ c, 0 <= counter c t) by (intros c; rewrite Hc'; apply len_nonneg).
  pose proof (Hpos TP). pose proof (Hpos TN). pose proof (Hpos FP). pose proof (Hpos FN). cbn in *.
  split_and!; try done; try (apply ratio_unit; lia).
  - pose proof (classes_cover threshold lines rows) as Hcov. rewrite <-!Hc' in Hcov. cbn in Hcov. rewrite Hu. lia.
  - exists (rev tail). split; [|unfold len; by rewrite length_rev].
    by rewrite <-rev_app_distr, Hraw, rev_involutive.
Qed.

(** ** A small match *)

Definition sample_truth (on : bool) (t : Z) : truth := Truth (Some (u "arena-ground-truth/1")) (Some on) (Some (u "s")) (Some 1) t.
Definition sample_row (s : Z) (t : Z) : row := Row (u "s") 1 (inject_Z s) t.
Definition sample_rows : list row := [sample_row 10 5; sample_row 90 40; sample_row 10 50; sample_row 80 95; sample_row 20 120].
Definition sample_report : report := Eval vm_compute in
  match analyze 75 true (b "rows" ++ [newline] ++ b "cut") (λ _, Ok sample_rows) [sample_truth false 100; sample_truth true 20] with
  | Ok r => r | Raise _ => Report 0 0 zero None None None None end.
Lemma sample_report_eq :
  analyze 75 true (b "rows" ++ [newline] ++ b "cut") (λ _, Ok sample_rows) [sample_truth false 100; sample_truth true 20] = Ok sample_report.
Proof. vm_compute. reflexivity. Qed.

Lemma analysis_is_reference_witness :
  (tp (tallied sample_report), tn (tallied sample_report), fp (tallied sample_report), fn (tallied sample_report), unknown (tallied sample_report)) = (1, 1, 0, 1, 2) ∧
  ∃ rows, Ok sample_rows = Ok rows ∧ samples sample_report = len rows.
Proof.
  split; [vm_compute; reflexivity|].
  destruct (analysis_is_reference _ _ _ _ _ _ sample_report_eq) as (rows & Hr & Hs & _). exists rows. split; [exact Hr|exact Hs].
Defined.
