(* ===== verification/Install.v ===== *)
(** * The installers ([src/tools/prepare_godot.py], [src/scripts/preparar-raylib.py])

    Pinned binaries fetched once and published without replacing anything.  The
    network, the archives and SHA-512 are parameters; the file system is a map
    from paths to what they hold. *)

From stdpp Require Import gmap.
From S2P Require Import Prelude Bytes Sha256.
Module Install.

Inductive node :=
| Regular (data : bytes)
| Symlink (target : pystr) (resolved : option bytes).   (* what it leads to, if anything *)

#[export] Instance node_eq_dec : EqDecision node.
Proof. solve_decision. Defined.

Abbreviation fs := (gmap pystr node).

(** [path.is_symlink()], and [path.read_bytes()] where [path.exists()]. *)
Definition is_symlink (s : fs) (p : pystr) : bool := match s !! p with Some (Symlink _ _) => true | _ => false end.
Definition bytes_at (s : fs) (p : pystr) : option bytes :=
  match s !! p with Some (Regular data) => Some data | Some (Symlink _ resolved) => resolved | None => None end.

Definition MIB : Z := 1024 * 1024.

(** ** [prepare_godot.py] *)

Section godot.
(** What the installer meets: the platform, the chunks of the download, SHA-512, the
    archive (the size declared for the binary and its bytes), and what another
    process has put at the path of the executable before the publication. *)
Context (platform_ok : bool) (download : result (list bytes)) (sha512_hex : bytes → pystr)
  (unzip : bytes → result (Z * bytes)) (meanwhile : option node).

Definition SHA512 : pystr := u "9aa00f7a605200940bce3027a567b782f49bd8e940dd06ae9e987bd65aee1b1467edd56ed84fcdcbdd44354bf613bdbb4e5d2913e925850368e150c59ed54c65".
Definition BINARY_SHA256 : pystr := u "8d106cbe6144c2dc7e881d61d2429c1a8a76e6b22ef48bd5e48dcf934953f71e".
Definition executable : pystr := u "results/toolchain/godot-4.7.2/godot".

(** [while chunk := response.read(...)]: an empty chunk ends the download. *)
Fixpoint receive (total : Z) (acc : bytes) (chunks : list bytes) : result bytes :=
  match chunks with
  | [] => Ok acc
  | [] :: _ => Ok acc
  | chunk :: chunks =>
      let total := total + len chunk in
      raise_if! 150 * MIB <? total then RuntimeError "Download exceeds bound";
      receive total (acc ++ chunk) chunks
  end.
Definition fetch : result bytes :=
  chunks ← download;
  archive ← receive 0 [] chunks;
  raise_if! negb (bool_decide (sha512_hex archive = SHA512)) then RuntimeError "Official archive SHA512 mismatch";
  '(file_size, data) ← unzip archive;
  raise_if! 250 * MIB <? file_size then RuntimeError "Binary exceeds bound";
  raise_if! negb (bool_decide (sha256_hex data = BINARY_SHA256)) then RuntimeError "Godot binary SHA256 mismatch";
  Ok data.
(** [os.link(staged, executable)] *)
Definition publish (data : bytes) : st fs unit := λ s,
  let s := match meanwhile with Some n => if decide (s !! executable = None) then <[executable := n]> s else s | None => s end in
  match s !! executable with
  | Some _ => (Raise (OSError "FileExistsError"), s)
  | None => (Ok tt, <[executable := Regular data]> s)
  end.
Definition prepare_godot : st fs unit :=
  _ ← raise_when (negb platform_ok) (SystemExit 1);
  link ← gets (λ s, is_symlink s executable);
  _ ← raise_when link (SystemExit 1);
  old ← gets (λ s, bytes_at s executable);
  match old with
  | Some data => raise_when (negb (bool_decide (sha256_hex data = BINARY_SHA256))) (SystemExit 1)
  | None => data ← lift fetch; publish data
  end.
End godot.

(** ** [preparar-raylib.py] *)

Section raylib.
(** The platform, what [curl] leaves, and the members of an archive: whether each is
    a plain file, its declared size and its bytes. *)
Context (platform_ok : bool) (curl : result bytes) (member : bytes → pystr → result (bool * Z * option bytes)).

Definition RAYLIB_SHA256 : pystr := u "3d95ef03d5b38dfa55c0a16ca122d382134b078f0e5b270b52fe7eae0549c000".
Definition archive : pystr := u "results/downloads/raylib-5.5_linux_amd64.tar.gz".
Definition RAYLIB_FILES : list pystr := [u "include/raylib.h"; u "lib/libraylib.so.5.5.0"; u "LICENSE"].
Definition target (name : pystr) : pystr := u "results/toolchain/raylib-5.5/" ++ name.
Definition alias : pystr := target (u "lib/libraylib.so.550").
Definition soname : pystr := u "libraylib.so.5.5.0".

Definition mismatch : exn := RuntimeError "RAYLIB_ARCHIVE_HASH_MISMATCH".
Definition download_archive : st fs unit :=
  known ← gets (λ s, bytes_at s archive);
  match known with
  | Some _ => mret tt
  | None =>
      data ← lift curl;
      _ ← raise_when (negb (bool_decide (sha256_hex data = RAYLIB_SHA256))) mismatch;
      modify (λ s, <[archive := Regular data]> s)
  end.
Definition read_archive : st fs bytes :=
  n ← gets (λ s, bytes_at s archive);
  match n with
  | Some data =>
      _ ← raise_when ((8 * MIB <? len data) || negb (bool_decide (sha256_hex data = RAYLIB_SHA256))) mismatch;
      mret data
  | None => raise (OSError "FileNotFoundError")
  end.
Definition extract (data : bytes) (name : pystr) : result bytes :=
  '(is_file, size, content) ← member data name;
  raise_if! negb is_file || negb ((0 <? size) && (size <=? 8 * MIB)) then RuntimeError "RAYLIB_MEMBER_INVALID";
  match content with Some c => Ok c | None => Raise (RuntimeError "RAYLIB_MEMBER_MISSING") end.
Definition install_file (data : bytes) (name : pystr) : st fs unit :=
  content ← lift (extract data name);
  old ← gets (λ s, s !! target name);
  match old with
  | Some (Symlink _ None) => raise (OSError "FileExistsError")
  | Some n => raise_when (negb (bool_decide (n = Regular content))) (RuntimeError "RAYLIB_LOCAL_FILE_DIFFERS")
  | None => modify (λ s, <[target name := Regular content]> s)
  end.
Fixpoint install_all (data : bytes) (names : list pystr) : st fs unit :=
  match names with
  | [] => mret tt
  | name :: names => _ ← install_file data name; install_all data names
  end.
Definition link_alias : st fs unit :=
  old ← gets (λ s, s !! alias);
  match old with
  | Some (Symlink t _) => raise_when (negb (bool_decide (t = soname))) (RuntimeError "RAYLIB_SONAME_LINK_DIFFERS")
  | Some (Regular _) => raise (RuntimeError "RAYLIB_SONAME_PATH_OCCUPIED")
  | None => modify (λ s, <[alias := Symlink soname (bytes_at s (target (u "lib/libraylib.so.5.5.0")))]> s)
  end.
Definition prepare_raylib : st fs unit :=
  _ ← raise_when (negb platform_ok) (RuntimeError "This pinned distribution requires Linux x86_64");
  _ ← download_archive;
  data ← read_archive;
  _ ← install_all data RAYLIB_FILES;
  link_alias.
End raylib.

End Install.

(** * The installers: only pinned contents, nothing replaced *)

Import Install.

(** What was there before is there after. *)
Definition keeps (s s' : fs) : Prop := ∀ p n, s !! p = Some n → s' !! p = Some n.
#[export] Instance keeps_preorder : PreOrder keeps.
Proof. split; [by intros s p n|]. intros x y z H1 H2 p n Hp. by apply H2, H1. Qed.
Lemma keeps_insert (s : fs) p n : s !! p = None → keeps s (<[p := n]> s).
Proof. intros Hp q m Hq. rewrite lookup_insert_ne by congruence. done. Qed.

(** ** Godot *)

Section godot.
Context (platform_ok : bool) (download : result (list bytes)) (sha512_hex : bytes → pystr)
  (unzip : bytes → result (Z * bytes)) (meanwhile : option node).
Notation prepare := (prepare_godot platform_ok download sha512_hex unzip meanwhile).

Lemma receive_bound total acc chunks data : 0 <= total → len acc = total → receive total acc chunks = Ok data →
  len data <= Z.max total (150 * MIB).
Proof.
  revert total acc. induction chunks as [|[|x chunk] chunks IH]; intros total acc Ht Ha E; cbn [receive] in E.
  - injection E as <-. lia.
  - injection E as <-. lia.
  - apply result_bind_Ok in E as (y & Hb & E). apply raise_if_Ok in Hb. bools.
    apply IH in E; [lia| |]; rewrite ?len_app; pose proof (len_nonneg (x :: chunk)); lia.
Qed.

Lemma fetch_Ok data : fetch download sha512_hex unzip = Ok data → sha256_hex data = BINARY_SHA256.
Proof.
  unfold fetch. intros E. py_inv. destruct x2 as [size d]. py_inv. bools. done.
Qed.

(** The installer of the game engine publishes nothing but the pinned binary.
    When it succeeds, the executable is present with the pinned SHA-256, as a
    plain file unless it already was one that verified; when it fails it has
    written nothing; and whatever existed before, or was put there by another
    process while it ran, is never replaced. *)
Theorem godot_is_pinned s r s' : prepare s = (r, s') →
  keeps s s' ∧
  match r with
  | Ok _ => ∃ data, s' !! executable = Some (Regular data) ∧ sha256_hex data = BINARY_SHA256
  | Raise _ => s' = s ∨ ∃ n, meanwhile = Some n ∧ s' = <[executable := n]> s
  end.
Proof.
  intros E. unfold prepare_godot in E.
  apply st_bind_inv in E as (r1 & s1 & E1 & E). apply raise_when_spec in E1 as [-> [[_ ->]|[_ ->]]];
    [|destruct E as [-> ->]; split; [done|by left]].
  apply st_bind_inv in E as (r1 & s1 & E1 & E). injection E1 as <- <-.
  apply st_bind_inv in E as (r1 & s1 & E1 & E). apply raise_when_spec in E1 as [-> [[Hl ->]|[_ ->]]];
    [|destruct E as [-> ->]; split; [done|by left]].
  apply st_bind_inv in E as (r1 & s1 & E1 & E). injection E1 as <- <-.
  unfold is_symlink, bytes_at in *. destruct (s !! executable) as [[data|]|] eqn:Es; [|done|].
  - apply raise_when_spec in E as [-> [[Hh ->]|[_ ->]]]; [|split; [done|by left]]. bools.
    split; [done|]. by exists data.
  - apply st_bind_inv in E as (r1 & s1 & E1 & E). apply lift_inv in E1 as [Hf ->].
    destruct r1 as [data|e]; [|destruct E as [-> ->]; split; [done|by left]]. apply fetch_Ok in Hf.
    unfold publish in E. destruct meanwhile as [n|].
    + rewrite decide_True in E by done. rewrite lookup_insert_eq in E. injection E as <- <-. split; [by apply keeps_insert|]. right. by exists n.
    + rewrite Es in E. injection E as <- <-. split; [by apply keeps_insert|]. exists data. by rewrite lookup_insert_eq.
Qed.
End godot.

(** ** raylib *)

Section raylib.
Context (platform_ok : bool) (curl : result bytes) (member : bytes → pystr → result (bool * Z * option bytes)).

Lemma target_inj a c : target a = target c → a = c.
Proof. unfold target. apply app_inv_head. Qed.

Lemma install_file_spec data name s r s' : install_file member data name s = (r, s') →
  keeps s s' ∧ (∀ p, p ≠ target name → s' !! p = s !! p) ∧
  (∀ x, r = Ok x → ∃ content, extract member data name = Ok content ∧ s' !! target name = Some (Regular content)).
Proof.
  intros E. unfold install_file in E.
  apply st_bind_inv in E as ([content|e] & s1 & E1 & E); apply lift_inv in E1 as [Hc ->];
    [|destruct E as [-> ->]; by split_and!].
  apply st_bind_inv in E as (r1 & s1 & E1 & E). injection E1 as <- <-.
  destruct (s !! target name) as [n|] eqn:En.
  - destruct n as [d|t [d|]]; [| |injection E as <- <-; by split_and!];
      apply raise_when_spec in E as [-> [[Hn ->]|[_ ->]]]; split_and!; try done; intros x _; bools; simplify_eq; by exists content.
  - injection E as <- <-. split_and!.
    + by apply keeps_insert.
    + intros p Hp. by rewrite lookup_insert_ne.
    + intros x _. exists content. by rewrite lookup_insert_eq.
Qed.

Lemma install_all_spec data names s r s' : install_all member data names s = (r, s') →
  keeps s s' ∧ (∀ p, (∀ name, name ∈ names → p ≠ target name) → s' !! p = s !! p) ∧
  (∀ x, r = Ok x → ∀ name, name ∈ names → ∃ content,
     extract member data name = Ok content ∧ s' !! target name = Some (Regular content)).
Proof.
  revert s. induction names as [|name names IH]; intros s E; cbn [install_all] in E.
  { injection E as <- <-. split_and!; try done. by intros x _ name ?%not_elem_of_nil. }
  apply st_bind_inv in E as (r1 & s1 & E1 & E). apply install_file_spec in E1 as (Hk1 & Ho1 & Hc1).
  destruct r1 as [x1|e].
  - apply IH in E as (Hk2 & Ho2 & Hc2). split_and!; [by etransitivity| |].
    + intros p Hp. rewrite Ho2, Ho1; [done| |]; intros; apply Hp; set_solver.
    + intros x Hx nm [->|Hin]%elem_of_cons; [|by eapply Hc2].
      destruct (Hc1 _ eq_refl) as (content & He & Hs). exists content. split; [done|by apply Hk2].
  - destruct E as [-> ->]. split_and!; [done| |done]. intros p Hp. apply Ho1. apply Hp. set_solver.
Qed.

Lemma archive_not_target name : archive ≠ target name.
Proof. intros E. apply (f_equal (take 9)) in E. unfold target in E. vm_compute in E. discriminate. Qed.
Lemma download_spec s r s' : download_archive curl s = (r, s') →
  (∀ p n, s !! p = Some n → s' !! p = Some n ∨ p = archive ∧ bytes_at s archive = None).
Proof.
  intros E. unfold download_archive in E. apply st_bind_inv in E as (r1 & s1 & E1 & E). injection E1 as <- <-.
  destruct (bytes_at s archive) as [d|] eqn:Ea; [injection E as _ <-; by left|].
  apply st_bind_inv in E as ([data|e] & s1 & E1 & E); apply lift_inv in E1 as [_ ->]; [|destruct E as [_ ->]; by left].
  apply st_bind_inv in E as (r1 & s1 & E1 & E). apply raise_when_spec in E1 as [-> [[_ ->]|[_ ->]]];
    [|destruct E as [_ ->]; by left].
  injection E as _ <-. intros p n Hp. destruct (decide (p = archive)) as [->|Hne]; [by right|left].
  by rewrite lookup_insert_ne.
Qed.

Lemma read_archive_spec s r s' : read_archive s = (r, s') → s' = s ∧
  ∀ data, r = Ok data → bytes_at s archive = Some data ∧ sha256_hex data = RAYLIB_SHA256 ∧ len data <= 8 * MIB.
Proof.
  intros E. unfold read_archive in E. apply st_bind_inv in E as (r1 & s1 & E1 & E). injection E1 as <- <-.
  destruct (bytes_at s archive) as [d|] eqn:Ea; [|by injection E as <- <-].
  apply st_bind_inv in E as (r1 & s1 & E1 & E). apply raise_when_spec in E1 as [-> [[Hg ->]|[_ ->]]];
    [|destruct E as [-> ->]; by split].
  injection E as <- <-. bools. split; [done|]. intros data [= <-]. done.
Qed.

Lemma link_alias_spec s r s' : link_alias s = (r, s') →
  keeps s s' ∧ (∀ p, p ≠ alias → s' !! p = s !! p) ∧
  (∀ x, r = Ok x → ∃ resolved, s' !! alias = Some (Symlink soname resolved)).
Proof.
  intros E. unfold link_alias in E. apply st_bind_inv in E as (r1 & s1 & E1 & E). injection E1 as <- <-.
  destruct (s !! alias) as [[d|t d]|] eqn:Ea.
  - by injection E as <- <-.
  - apply raise_when_spec in E as [-> [[Ht ->]|[_ ->]]]; split_and!; try done. bools. subst. intros _ _. by exists d.
  - injection E as <- <-. split_and!; [by apply keeps_insert|intros p Hp; by rewrite lookup_insert_ne|].
    intros x _. eexists. by rewrite lookup_insert_eq.
Qed.

Lemma extract_Ok data name content : extract member data name = Ok content →
  ∃ size, member data name = Ok (true, size, Some content) ∧ 0 < size <= 8 * MIB.
Proof.
  unfold extract. intros E. apply result_bind_Ok in E as ([[is_file size] o] & Hm & E).
  apply result_bind_Ok in E as (x & Hg & E). apply raise_if_Ok in Hg. bools.
  destruct o as [c|]; [|done]. injection E as ->. subst is_file. exists size. split; [done|lia].
Qed.

(** The installer of raylib: only the members of the pinned archive are installed,
    and nothing is replaced.  When it succeeds, an archive with the pinned SHA-256
    of at most eight megabytes is in the cache, each of the three files holds
    exactly its member, of at most eight megabytes, and the alias leads to the
    shared library; whatever existed before is still there, the one exception
    being a cache entry that was a link leading nowhere. *)
Theorem raylib_is_pinned s r s' : prepare_raylib platform_ok curl member s = (r, s') →
  (∀ p n, s !! p = Some n → s' !! p = Some n ∨ p = archive ∧ bytes_at s archive = None) ∧
  (r = Ok tt → ∃ data, bytes_at s' archive = Some data ∧ sha256_hex data = RAYLIB_SHA256 ∧ len data <= 8 * MIB ∧
     (∀ name, name ∈ RAYLIB_FILES → ∃ size content, member data name = Ok (true, size, Some content) ∧
        0 < size <= 8 * MIB ∧ s' !! target name = Some (Regular content)) ∧
     ∃ resolved, s' !! alias = Some (Symlink soname resolved)).
Proof.
  intros E. unfold prepare_raylib in E.
  apply st_bind_inv in E as (r1 & s1 & E1 & E). apply raise_when_spec in E1 as [-> [[_ ->]|[_ ->]]];
    [|destruct E as [-> ->]; split; [by left|done]].
  apply st_bind_inv in E as (r1 & s1 & E0 & E). pose proof (download_spec _ _ _ E0) as E1.
  destruct r1 as [x1|e]; [|destruct E as [-> ->]; split; [done|done]].
  apply st_bind_inv in E as (r2 & s2 & E2 & E). apply read_archive_spec in E2 as [-> Hread].
  destruct r2 as [data|e]; [|destruct E as [-> ->]; split; [done|done]].
  destruct (Hread _ eq_refl) as (Hb & Hsha & Hlen).
  assert (Hlater : ∀ s3, keeps s1 s3 → ∀ p n, s !! p = Some n → s3 !! p = Some n ∨ p = archive ∧ bytes_at s archive = None).
  { intros s3 Hk p n Hp. destruct (E1 p n Hp) as [H1|H1]; [left; by apply Hk|by right]. }
  apply st_bind_inv in E as (r3 & s3 & E3 & E). apply install_all_spec in E3 as (Hk3 & Ho3 & Hc3).
  destruct r3 as [x3|e]; [|destruct E as [-> ->]; split; [by apply Hlater|done]].
  apply link_alias_spec in E as (Hk4 & Ho4 & Ha4).
  split; [apply Hlater; by etransitivity|]. intros ->. exists data. split_and!; [|done|done| |by eapply Ha4].
  - unfold bytes_at in *. rewrite Ho4, Ho3; [done| |].
    + intros name _. apply archive_not_target.
    + apply archive_not_target.
  - intros name Hname. destruct (Hc3 _ eq_refl _ Hname) as (content & He & Hs).
    apply extract_Ok in He as (size & Hm & Hsz). exists size, content. split_and!; try done; try lia.
    by apply Hk4.
Qed.
End raylib.

(** ** Witnesses: a machine where everything is already in place *)

Definition no_godot : fs := ∅.
Lemma godot_is_pinned_witness :
  keeps no_godot no_godot ∧ (no_godot = no_godot ∨ ∃ n, None = Some n ∧ no_godot = <[executable := n]> no_godot).
Proof.
  exact (godot_is_pinned true (Ok [b "PK"; []]) (λ _, u "not the pinned digest") (λ _, Ok (1, b "x")) None
           no_godot (Raise (RuntimeError "Official archive SHA512 mismatch")) no_godot eq_refl).
Defined.
Definition occupied : fs := {[alias := Regular (b "something else")]}.
Lemma raylib_is_pinned_witness :
  occupied !! alias = Some (Regular (b "something else")) ∨ alias = archive ∧ bytes_at occupied archive = None.
Proof.
  refine (proj1 (raylib_is_pinned true (Ok (b "tar")) (λ _ _, Raise KeyError) occupied (Raise mismatch) occupied _)
    alias (Regular (b "something else")) _); vm_compute; reflexivity.
Defined.
