(* ===== verification/Launch.v ===== *)
(** * The launchers and release checks

    [src/scripts/jugar.py], a supervised match of two graphical clients and the
    service, and [src/tools/verify_release.py], the bounded checks of a release.
    The processes they run are parameters. *)

From S2P Require Import Prelude Bytes Json JsonCanon Dict Attestation.
Import Json.

Module Launch.

(** ** Values *)

(** [v[k]] of a list: negative indices count from the end. *)
Definition v_index (v : value) (k : value) : result value :=
  match v, k with
  | VList l, VInt z =>
      let z := if z <? 0 then z + len l else z in
      if (0 <=? z) && (z <? len l) then match l !! Z.to_nat z with Some x => Ok x | None => Raise IndexError end
      else Raise IndexError
  | VList l, VBool x => match l !! Z.to_nat (Z.b2z x) with Some y => Ok y | None => Raise IndexError end
  | VDict d, _ => Raise KeyError
  | _, _ => Raise TypeError
  end.
(** [v < 1] of an integer; other values are not compared. *)
Definition below_one (v : value) : result bool :=
  match v with VInt z => Ok (z <? 1) | VBool x => Ok (Z.b2z x <? 1) | _ => Raise TypeError end.

(** ** [jugar.py]: the result of a client *)

Definition compared : list pystr := [u "x_mm"; u "y_mm"; u "health"; u "ammo"].
(** The four values the renderer showed are those of the service. *)
Fixpoint same_values (view authoritative : value) (names : list pystr) : result unit :=
  match names with
  | [] => Ok tt
  | k :: names =>
      x ← v_item view k; y ← v_item authoritative k;
      raise_if! negb (py_eq x y) then RuntimeError "VIEW_SERVER_DIVERGENCE";
      same_values view authoritative names
  end.
(** [a or b], [b] evaluated only if [a] is false. *)
Definition or_else (a : result bool) (b : result bool) : result bool :=
  x ← a; if (x : bool) then Ok true else b.
Definition check_event (event : value) : result unit :=
  view ← v_item event (u "renderer");
  state ← v_item event (u "state");
  players ← v_item state (u "players");
  player ← v_item state (u "player");
  authoritative ← v_index players player;
  idle ← or_else (x ← v_item view (u "frames"); below_one x)
           (or_else (x ← v_item view (u "updates"); below_one x)
              (x ← v_item view (u "player"); Ok (negb (py_eq x player))));
  raise_if! idle then RuntimeError "NO_RENDERED_AUTHORITY";
  same_values view authoritative compared.
(** The lines of a client's output: one event, its result. *)
Fixpoint parse_lines (lines : list pystr) : result (list value) :=
  match lines with
  | [] => Ok []
  | line :: lines => v ← loads Attestation.plain_hooks line; vs ← parse_lines lines; Ok (v :: vs)
  end.
Definition is_event (v : value) (name : string) : result bool :=
  e ← v_get v (u "event"); Ok (match e with Some x => py_eq x (VStr (u name)) | None => false end).
Definition client_event (code : Z) (lines : list pystr) : result value :=
  raise_if! negb (code =? 0) then RuntimeError "GRAPHICAL_CLIENT_FAILED";
  events ← parse_lines lines;
  match events with
  | [event] =>
      known ← is_event event "graphics_result";
      raise_if! negb known then RuntimeError "GRAPHICAL_RESULT_INVALID";
      _ ← check_event event; Ok event
  | _ => Raise (RuntimeError "GRAPHICAL_RESULT_INVALID")
  end.

(** The final state of a scripted match. *)
Definition field_is_not (event : value) (k : pystr) (z : Z) : result bool :=
  r ← v_item event (u "renderer"); x ← v_item r k; Ok (negb (py_eq x (VInt z))).
Fixpoint any_shot (actions : list value) : result bool :=
  match actions with
  | [] => Ok false
  | x :: actions =>
      a ← v_item x (u "action");
      hit ← (if py_eq a (VStr (u "fire")) then r ← v_item x (u "reason"); Ok (py_eq r (VStr (u "ACCEPTED"))) else Ok false);
      if (hit : bool) then Ok true else any_shot actions
  end.
Definition check_scripted (first second : value) : result unit :=
  wrong ← or_else (field_is_not first (u "x_mm") 100)
            (or_else (field_is_not second (u "x_mm") 400)
               (or_else (field_is_not first (u "ammo") 3) (field_is_not second (u "health") 75)));
  raise_if! wrong then RuntimeError "SCRIPTED_FINAL_STATE";
  actions ← v_item first (u "actions");
  match actions with
  | VList l => shot ← any_shot l; raise_if (negb shot) (RuntimeError "SCRIPTED_SHOT_NOT_ACCEPTED")
  | _ => Raise TypeError
  end.

(** ** The match *)

(** The three processes: the service and the two clients. *)
Inductive child := Server | Client (i : nat).
#[export] Instance child_eq_dec : EqDecision child.
Proof. solve_decision. Defined.

Class Processes := {
  spawned : child → result unit;
  ready_line : result pystr;                       (* the first line of the service, in time *)
  communicated : nat → result (Z * list pystr);    (* exit code and output lines of a client *)
  exited : child → bool;                           (* at the clean-up *)
  first_wait : child → result unit;
  second_wait : child → result unit }.

Record match_state := MatchState {
  running : list child;          (* started, in order *)
  reaped : list child;           (* waited for *)
  terminated : list child;
  killed : list child }.

Section match_.
Context `{Processes}.

Definition start (c : child) : st match_state unit :=
  _ ← lift (spawned c);
  modify (λ s, MatchState (running s ++ [c]) (reaped s) (terminated s) (killed s)).
Definition check_ready : result unit :=
  line ← ready_line;
  ready ← (match line with [] => Ok false | _ => v ← loads Attestation.plain_hooks line; is_event v "ready" end);
  raise_if (negb ready) (RuntimeError "SERVER_NOT_READY").
Definition result_of (i : nat) : result value :=
  '(code, lines) ← communicated i; client_event code lines.
Definition match_body (scripted : bool) : st match_state (list value) :=
  _ ← lift check_ready;
  _ ← start (Client 0); _ ← start (Client 1);
  first ← lift (result_of 0); second ← lift (result_of 1);
  _ ← lift (if scripted then check_scripted first second else Ok tt);
  mret [first; second].

Definition set_reaped (c : child) : st match_state unit :=
  modify (λ s, MatchState (running s) (reaped s ++ [c]) (terminated s) (killed s)).
Definition reap (c : child) : st match_state unit :=
  _ ← (if exited c then mret tt
       else modify (λ s, MatchState (running s) (reaped s) (terminated s ++ [c]) (killed s)));
  match first_wait c with
  | Ok _ => set_reaped c
  | Raise TimeoutError =>
      _ ← modify (λ s, MatchState (running s) (reaped s) (terminated s) (killed s ++ [c]));
      _ ← lift (second_wait c); set_reaped c
  | Raise e => raise e
  end.
Fixpoint reap_all (l : list child) : st match_state unit :=
  match l with [] => mret tt | c :: l => _ ← reap c; reap_all l end.
(** [for child in [*clients, server]] *)
Definition clean_up : st match_state unit := λ s,
  reap_all (filter (λ c, c ≠ Server) (running s) ++ [Server]) s.
Definition match_ (scripted : bool) : st match_state (list value) :=
  _ ← start Server;
  try_finally (match_body scripted) clean_up.

(** [main]: the report, and the exit code. *)
Record report := Report { passed : bool; players : option (list value); error : option exn; credentials_removed : bool }.
Definition reported (e : exn) : bool :=
  is_OSError e || is_ValueError e || is_RuntimeError e || bool_decide (e = SubprocessError) || bool_decide (e = CancelledError).
Definition main (scripted : bool) (seconds : Z) (certificates : result unit) (removed : bool) : st match_state (report * Z) :=
  _ ← raise_when (scripted && (seconds <? 2)) (SystemExit 2);
  try_except
    (_ ← lift certificates; results ← match_ scripted; mret (Report true (Some results) None removed, 0))
    (λ e, if reported e then Some (mret (Report false None (Some e) false, 1)) else None).
End match_.

(** ** [verify_release.py] *)

Record check := Check { c_name : string; c_timeout : Z }.
Definition checks : list check :=
  [Check "launch-help" 10; Check "launch-version" 10; Check "godot-rules" 20; Check "admission-boundary" 15;
   Check "gateway-routes" 15; Check "gateway-negative" 45; Check "gateway-network" 60; Check "tool-behavior" 30;
   Check "fps-network" 60; Check "documentation" 10].

(** [needle in text] *)
Fixpoint contains (needle text : pystr) : bool :=
  bool_decide (take (length needle) text = needle) ||
  match text with [] => false | _ :: text => contains needle text end.
(** What a check printed and how it ended; [None]: it ran out of time. *)
Definition check_passed (r : option (Z * pystr)) : bool :=
  match r with
  | Some (code, output) => (code =? 0) && negb (contains (u "SCRIPT ERROR") output) && negb (contains (u "ERROR:") output)
  | None => false
  end.
Definition check_output (r : option (Z * pystr)) : pystr := match r with Some (_, o) => o | None => u "TIMEOUT" end.

Record release := Release { r_passed : bool; r_checks : list (string * bool); r_logs : list (string * pystr) }.
(** The loop, its [break] and its [else]. *)
Fixpoint run_checks (run : check → option (Z * pystr)) (l : list check) (r : release) : release :=
  match l with
  | [] => Release true (r_checks r) (r_logs r)
  | c :: l =>
      let ok := check_passed (run c) in
      let r := Release (r_passed r) (r_checks r ++ [(c_name c, ok)]) (r_logs r ++ [(c_name c, check_output (run c))]) in
      if ok then run_checks run l r else r
  end.
Definition verify_release (run : check → option (Z * pystr)) : release * Z :=
  let r := run_checks run checks (Release false [] []) in (r, if r_passed r then 0 else 1).

End Launch.

(** * The launchers: what a passed match means, and that no process is left *)

Import Json Launch.

(** ** The result of a client *)

(** An event whose renderer showed what the service holds for its player. *)
Definition agrees (event : value) : Prop := ∃ view state players player authoritative,
  v_item event (u "renderer") = Ok view ∧ v_item event (u "state") = Ok state ∧
  v_item state (u "players") = Ok players ∧ v_item state (u "player") = Ok player ∧
  v_index players player = Ok authoritative ∧
  (∃ x, v_item view (u "frames") = Ok x ∧ below_one x = Ok false) ∧
  (∃ x, v_item view (u "updates") = Ok x ∧ below_one x = Ok false) ∧
  (∃ x, v_item view (u "player") = Ok x ∧ py_eq x player = true) ∧
  ∀ k, k ∈ compared → ∃ x y, v_item view k = Ok x ∧ v_item authoritative k = Ok y ∧ py_eq x y = true.

Lemma same_values_Ok view auth names : same_values view auth names = Ok tt →
  ∀ k, k ∈ names → ∃ x y, v_item view k = Ok x ∧ v_item auth k = Ok y ∧ py_eq x y = true.
Proof.
  induction names as [|n names IH]; intros E k Hk; [by apply not_elem_of_nil in Hk|]. cbn [same_values] in E.
  apply result_bind_Ok in E as (x & E1 & E). apply result_bind_Ok in E as (y & E2 & E).
  apply result_bind_Ok in E as (z & E3 & E). apply raise_if_Ok in E3. bools.
  apply elem_of_cons in Hk as [->|Hk]; [by exists x, y|by apply IH].
Qed.

Lemma or_else_false a c : or_else a c = Ok false → a = Ok false ∧ c = Ok false.
Proof. unfold or_else. destruct a as [[]|]; cbn; [done|auto|done]. Qed.

Lemma check_event_agrees event : check_event event = Ok tt → agrees event.
Proof.
  unfold check_event. intros E.
  apply result_bind_Ok in E as (view & E1 & E). apply result_bind_Ok in E as (state & E2 & E).
  apply result_bind_Ok in E as (players & E3 & E). apply result_bind_Ok in E as (player & E4 & E).
  apply result_bind_Ok in E as (auth & E5 & E). apply result_bind_Ok in E as (idle & E6 & E).
  apply result_bind_Ok in E as (x & E7 & E). apply raise_if_Ok in E7. subst idle.
  apply or_else_false in E6 as [H1 H2]. apply or_else_false in H2 as [H2 H3].
  apply result_bind_Ok in H1 as (x1 & ? & ?). apply result_bind_Ok in H2 as (x2 & ? & ?).
  apply result_bind_Ok in H3 as (x3 & ? & H3). injection H3 as H3. apply negb_false_iff in H3.
  exists view, state, players, player, auth. split_and!; try done; eauto. by apply same_values_Ok.
Qed.

Lemma client_event_agrees code lines event : client_event code lines = Ok event →
  code = 0 ∧ agrees event ∧ is_event event "graphics_result" = Ok true.
Proof.
  unfold client_event. intros E. apply result_bind_Ok in E as (x & E1 & E). apply raise_if_Ok in E1. bools.
  apply result_bind_Ok in E as (events & _ & E). destruct events as [|v [|]]; try done.
  apply result_bind_Ok in E as (known & E2 & E). apply result_bind_Ok in E as (y & E3 & E). apply raise_if_Ok in E3.
  apply result_bind_Ok in E as ([] & E4 & E). injection E as ->. bools. subst. split_and!; [done|by apply check_event_agrees|done].
Qed.

(** The final state of the scripted match. *)
Definition scripted_state (first second : value) : Prop :=
  field_is_not first (u "x_mm") 100 = Ok false ∧ field_is_not second (u "x_mm") 400 = Ok false ∧
  field_is_not first (u "ammo") 3 = Ok false ∧ field_is_not second (u "health") 75 = Ok false ∧
  ∃ actions x, v_item first (u "actions") = Ok (VList actions) ∧ x ∈ actions ∧
    (∃ a, v_item x (u "action") = Ok a ∧ py_eq a (VStr (u "fire")) = true) ∧
    (∃ a, v_item x (u "reason") = Ok a ∧ py_eq a (VStr (u "ACCEPTED")) = true).

Lemma any_shot_true l : any_shot l = Ok true → ∃ x, x ∈ l ∧
  (∃ a, v_item x (u "action") = Ok a ∧ py_eq a (VStr (u "fire")) = true) ∧
  (∃ a, v_item x (u "reason") = Ok a ∧ py_eq a (VStr (u "ACCEPTED")) = true).
Proof.
  induction l as [|x l IH]; [done|]. cbn [any_shot]. intros E. apply result_bind_Ok in E as (a & Ha & E).
  apply result_bind_Ok in E as (hit & Hh & E). destruct hit.
  - exists x. split; [apply list_elem_of_here|]. destruct (py_eq a (VStr (u "fire"))) eqn:Ef; [|done].
    apply result_bind_Ok in Hh as (r & Hr & Hh). injection Hh as Hh. split; [by exists a|by exists r].
  - destruct (IH E) as (y & Hy & ?). exists y. split; [by apply list_elem_of_further|done].
Qed.

Lemma check_scripted_Ok first second : check_scripted first second = Ok tt → scripted_state first second.
Proof.
  unfold check_scripted. intros E. apply result_bind_Ok in E as (wrong & E1 & E).
  apply result_bind_Ok in E as (x & E2 & E). apply raise_if_Ok in E2. subst wrong.
  apply or_else_false in E1 as [H1 E1]. apply or_else_false in E1 as [H2 E1]. apply or_else_false in E1 as [H3 H4].
  apply result_bind_Ok in E as (actions & Ha & E). destruct actions as [| | | | |l|]; try done.
  apply result_bind_Ok in E as (shot & Hs & E). apply raise_if_Ok in E. apply negb_false_iff in E. subst shot.
  apply any_shot_true in Hs as (y & ? & ? & ?). unfold scripted_state. split_and!; try done. by exists l, y.
Qed.

(** ** The processes *)

Section processes.
Context `{Processes}.

Lemma start_spec c s r s' : start c s = (r, s') →
  reaped s' = reaped s ∧ (r = Ok tt ∧ running s' = running s ++ [c] ∨ r ≠ Ok tt ∧ running s' = running s).
Proof.
  intros E. unfold start in E. apply st_bind_inv in E as ([x|e] & s1 & E1 & E); apply lift_inv in E1 as [_ ->].
  - injection E as <- <-. split; [done|by left].
  - destruct E as [-> ->]. split; [done|by right].
Qed.

(** What the kernel lets the clean-up rely on: a killed process can be waited for. *)
Definition killable : Prop := ∀ c,
  (first_wait c = Ok tt ∨ first_wait c = Raise TimeoutError) ∧ second_wait c = Ok tt.

Lemma reap_spec c s r s' : killable → reap c s = (r, s') →
  r = Ok tt ∧ running s' = running s ∧ reaped s' = reaped s ++ [c].
Proof.
  intros Hk E. destruct (Hk c) as [H1 H2]. unfold reap in E. apply st_bind_inv in E as (r1 & s1 & E1 & E).
  assert (r1 = Ok tt ∧ running s1 = running s ∧ reaped s1 = reaped s) as (-> & Hr & Hp).
  { destruct (exited c); [|unfold modify in E1]; by injection E1 as <- <-. }
  destruct H1 as [H1|H1]; rewrite H1 in E.
  - unfold set_reaped, modify in E. injection E as <- <-. cbn. by rewrite Hr, Hp.
  - apply st_bind_inv in E as (r2 & s2 & E2 & E). unfold modify in E2. injection E2 as <- <-.
    apply st_bind_inv in E as (r3 & s3 & E3 & E). apply lift_inv in E3 as [<- ->]. rewrite H2 in E.
    unfold set_reaped, modify in E. injection E as <- <-. cbn. by rewrite Hr, Hp.
Qed.
Lemma reap_all_spec l s r s' : killable → reap_all l s = (r, s') →
  r = Ok tt ∧ running s' = running s ∧ reaped s' = reaped s ++ l.
Proof.
  intros Hk. revert s. induction l as [|c l IH]; intros s E; cbn [reap_all] in E.
  { injection E as <- <-. by rewrite app_nil_r. }
  apply st_bind_inv in E as (r1 & s1 & E1 & E). apply reap_spec in E1 as (-> & Hr & Hp); [|done].
  apply IH in E as (-> & Hr2 & Hp2). split_and!; [done|congruence|]. by rewrite Hp2, Hp, <-app_assoc.
Qed.

(** The body of a match changes no more than the processes it starts. *)
Lemma match_body_reaped scripted : preserves (λ s, reaped s = []) (match_body scripted).
Proof.
  assert (∀ c, preserves (λ s, reaped s = []) (start c)) as Hs.
  { intros c s r s' Hs E. apply start_spec in E as [-> _]. done. }
  unfold match_body. auto 20 with py.
Qed.

Lemma match_body_Ok scripted s results s' : match_body scripted s = (Ok results, s') →
  ∃ first second, results = [first; second] ∧ agrees first ∧ agrees second ∧
    (scripted = true → scripted_state first second).
Proof.
  intros E. unfold match_body in E. apply st_bind_Ok in E as (x1 & s1 & _ & E).
  apply st_bind_Ok in E as (x2 & s2 & _ & E). apply st_bind_Ok in E as (x3 & s3 & _ & E).
  apply st_bind_Ok in E as (first & s4 & E4 & E). apply lift_inv in E4 as [E4 ->].
  apply st_bind_Ok in E as (second & s5 & E5 & E). apply lift_inv in E5 as [E5 ->].
  apply st_bind_Ok in E as ([] & s6 & E6 & E). apply lift_inv in E6 as [E6 ->]. injection E as <- <-.
  unfold result_of in *. apply result_bind_Ok in E4 as ([c0 l0] & _ & E4). apply result_bind_Ok in E5 as ([c1 l1] & _ & E5).
  apply client_event_agrees in E4 as (_ & H4 & _). apply client_event_agrees in E5 as (_ & H5 & _).
  exists first, second. split_and!; try done. intros ->. by apply check_scripted_Ok.
Qed.

(** A supervised match.  Whatever happens to it, every process it started has
    been waited for when it ends, provided a killed process can be.  And when it
    passes, both clients exited with code 0 and reported one event in which the
    position, health and ammunition their renderer showed, after at least one
    frame and one update, are those the service holds for that player; a
    scripted match moreover ended in the scripted state, with an accepted shot. *)
Theorem match_is_sound scripted s r s' : killable → running s = [] → reaped s = [] →
  match_ scripted s = (r, s') →
  (∀ c, c ∈ running s' → c ∈ reaped s') ∧
  (∀ results, r = Ok results → ∃ first second, results = [first; second] ∧ agrees first ∧ agrees second ∧
     (scripted = true → scripted_state first second)).
Proof.
  intros Hk Hr Hp E. unfold match_ in E. apply st_bind_inv in E as (r1 & s1 & E1 & E).
  apply start_spec in E1 as [Hp1 [[-> Hr1]|[Hne Hr1]]].
  2:{ destruct r1 as [[]|e]; [done|]. destruct E as [-> ->]. split; [|done].
      intros c Hc. rewrite Hr1, Hr in Hc. by apply not_elem_of_nil in Hc. }
  unfold try_finally in E. destruct (match_body scripted s1) as [rb sb] eqn:Eb.
  assert (Hb : reaped sb = []) by (eapply match_body_reaped, Eb; congruence).
  destruct (clean_up sb) as [rc sc] eqn:Ec. unfold clean_up in Ec.
  apply reap_all_spec in Ec as (-> & Hrc & Hpc); [|done]. injection E as <- <-. split.
  - intros c Hc. rewrite Hrc in Hc. rewrite Hpc, Hb. cbn. apply elem_of_app.
    destruct (decide (c = Server)) as [->|Hne]; [right; by apply list_elem_of_singleton|left].
    apply list_elem_of_filter. by split.
  - intros results ->. by eapply match_body_Ok.
Qed.
End processes.

(** ** The checks of a release *)

(** How the loop over these checks ends. *)
Definition ended (run : check → option (Z * pystr)) (l : list check) (before : release) (out : release) : Prop :=
  ∃ ran left, l = ran ++ left ∧
    r_checks out = r_checks before ++ ((λ c, (c_name c, check_passed (run c))) <$> ran) ∧
    r_logs out = r_logs before ++ ((λ c, (c_name c, check_output (run c))) <$> ran) ∧
    (r_passed out = true ∧ left = [] ∧ Forall (λ c, check_passed (run c) = true) ran ∨
     r_passed out = r_passed before ∧ ∃ good bad, ran = good ++ [bad] ∧
       Forall (λ c, check_passed (run c) = true) good ∧ check_passed (run bad) = false).

Lemma run_checks_ended run l r : ended run l r (run_checks run l r).
Proof.
  revert r. induction l as [|c l IH]; intros r; cbn [run_checks].
  { exists [], []. cbn. rewrite !app_nil_r. split_and!; try done. left. by split_and!. }
  destruct (check_passed (run c)) eqn:Ec.
  - destruct (IH (Release (r_passed r) (r_checks r ++ [(c_name c, true)]) (r_logs r ++ [(c_name c, check_output (run c))])))
      as (ran & left & -> & Hc & Hl & Hp). cbn [r_checks r_logs r_passed] in Hc, Hl.
    exists (c :: ran), left. split_and!; [done| | |].
    + rewrite Hc, <-app_assoc. cbn. by rewrite Ec.
    + by rewrite Hl, <-app_assoc.
    + destruct Hp as [(? & ? & ?)|(? & good & bad & -> & ? & ?)]; [left; split_and!; try done; by constructor|right].
      split; [done|]. exists (c :: good), bad. split_and!; try done. by constructor.
  - exists [c], l. cbn. rewrite Ec. split_and!; try done. right. split; [done|]. exists [], c. by split_and!.
Qed.

(** The verdict on a release.  The exit code is 0 exactly when every one of the
    ten checks passes - exit code 0 in time, and no error in its output -; the
    checks run in order up to the first that fails, which is the last one
    reported, and the report and the logs hold exactly the checks that ran. *)
Theorem release_verdict run : let '(r, code) := verify_release run in
  (code = 0 ↔ Forall (λ c, check_passed (run c) = true) checks) ∧
  ∃ ran left, checks = ran ++ left ∧
    r_checks r = (λ c, (c_name c, check_passed (run c))) <$> ran ∧
    r_logs r = (λ c, (c_name c, check_output (run c))) <$> ran ∧
    (code <> 0 → ∃ good bad, ran = good ++ [bad] ∧ Forall (λ c, check_passed (run c) = true) good ∧ check_passed (run bad) = false).
Proof.
  unfold verify_release. destruct (run_checks_ended run checks (Release false [] [])) as (ran & left & Hch & Hc & Hl & Hp).
  cbn [r_checks r_logs r_passed app] in *. destruct Hp as [(-> & -> & Hall)|(-> & good & bad & -> & Hg & Hb)]; split.
  - split; [intros _|done]. by rewrite Hch, app_nil_r.
  - exists ran, []. by split_and!.
  - split; [done|]. rewrite Hch. intros [[_ Hbad]%Forall_app _]%Forall_app. inversion Hbad. congruence.
  - exists (good ++ [bad]), left. split_and!; try done. intros _. by exists good, bad.
Qed.

(** ** A scripted match *)

Definition event_text (slot x y health ammo : Z) (actions : list value) : pystr :=
  dumps (VDict [(u "event", VStr (u "graphics_result"));
    (u "state", VDict [(u "player", VInt slot); (u "players", VList
       [VDict [(u "x_mm", VInt 100); (u "y_mm", VInt 0); (u "health", VInt 100); (u "ammo", VInt 3)];
        VDict [(u "x_mm", VInt 400); (u "y_mm", VInt 0); (u "health", VInt 75); (u "ammo", VInt 4)]])]);
    (u "renderer", VDict [(u "frames", VInt 60); (u "updates", VInt 9); (u "player", VInt slot); (u "x_mm", VInt x);
       (u "y_mm", VInt y); (u "health", VInt health); (u "ammo", VInt ammo)]);
    (u "actions", VList actions)]).
Definition shot : value := VDict [(u "action", VStr (u "fire")); (u "reason", VStr (u "ACCEPTED"))].
Definition sample_processes : Processes := {|
  spawned := λ _, Ok tt;
  ready_line := Ok (dumps (VDict [(u "event", VStr (u "ready"))]));
  communicated := λ i, Ok (0, [if (i =? 0)%nat then event_text 0 100 0 100 3 [shot] else event_text 1 400 0 75 4 []]);
  exited := λ c, bool_decide (c ≠ Server);
  first_wait := λ c, if decide (c = Server) then Raise TimeoutError else Ok tt;
  second_wait := λ _, Ok tt |}.
Definition idle_state : match_state := MatchState [] [] [] [].
Definition sample_match : result (list value) * match_state :=
  Eval vm_compute in @match_ sample_processes true idle_state.
Lemma sample_match_eq : @match_ sample_processes true idle_state = (sample_match.1, sample_match.2).
Proof. vm_compute. reflexivity. Qed.
Lemma sample_killable : @killable sample_processes.
Proof. intros c. cbn. split; [|done]. case_decide; auto. Qed.

Lemma match_is_sound_witness :
  killed sample_match.2 = [Server] ∧ is_Ok sample_match.1 = true ∧
  (∀ c, c ∈ running sample_match.2 → c ∈ reaped sample_match.2) ∧
  (∀ results, sample_match.1 = Ok results → ∃ first second, results = [first; second] ∧ agrees first ∧ agrees second ∧
     (true = true → scripted_state first second)).
Proof.
  split; [vm_compute; reflexivity|]. split; [vm_compute; reflexivity|].
  exact (@match_is_sound sample_processes true idle_state sample_match.1 sample_match.2 sample_killable eq_refl eq_refl sample_match_eq).
Defined.
