(* ===== verification/LabContract.v ===== *)
(** * The contract of the laboratory ([src/lab/contracts/])

    [lab.h], [lab_util.c], [evidence.h] and [evidence.c]: the datagrams of
    lab-udp/2, the window of sequence numbers and the policy on requests and
    observations.  The arrays of the C structures are byte lists of their length. *)

From S2P Require Import Prelude Bytes.
Module LabContract.

Definition u32 (z : Z) : Z := z mod 2 ^ 32.
Definition u64 (z : Z) : Z := z mod 2 ^ 64.
Definition UINT32_MAX : Z := 2 ^ 32 - 1.
Definition UINT64_MAX : Z := 2 ^ 64 - 1.

Definition LAB_MAGIC : Z := 0x4c.
Definition LAB_VERSION : Z := 2.
Definition LAB_MAX_DATAGRAM : Z := 128.

(** ** Kinds and reasons *)

Definition LAB_HELLO : Z := 0x01.
Definition LAB_HELLO_ACK : Z := 0x02.
Definition LAB_PING : Z := 0x10.
Definition LAB_PONG : Z := 0x11.
Definition LAB_RST : Z := 0x20.
Definition LAB_BYE : Z := 0x30.
Definition LAB_REQUEST : Z := 0x40.
Definition LAB_OBSERVATION : Z := 0x41.
Definition LAB_DECISION : Z := 0x42.

Definition LAB_OK : Z := 0.
Definition LAB_BAD_MAGIC : Z := 1.
Definition LAB_BAD_VERSION : Z := 2.
Definition LAB_BAD_KIND : Z := 3.
Definition LAB_BAD_LEN : Z := 4.
Definition LAB_BAD_PAYLOAD : Z := 5.
Definition LAB_DUP_SESSION : Z := 6.
Definition LAB_UNKNOWN_SESSION : Z := 7.
Definition LAB_BAD_SESSION : Z := 8.
Definition LAB_BAD_SEQ : Z := 9.
Definition LAB_REPLAY : Z := 10.
Definition LAB_TOO_BIG : Z := 11.
Definition LAB_TRUNCATED : Z := 12.
Definition LAB_STALE : Z := 13.
Definition LAB_BUSY : Z := 14.
Definition LAB_DUP_NONCE : Z := 15.
Definition LAB_CLOSING : Z := 16.
Definition LAB_TIMEOUT : Z := 17.
Definition LAB_ECHO : Z := 18.
Definition LAB_ORIGIN_MISMATCH : Z := 19.
Definition LAB_UNSUPPORTED : Z := 20.
Definition LAB_INSUFFICIENT : Z := 21.
Definition LAB_OLD_INSTANCE : Z := 22.
Definition LAB_EXPIRED : Z := 23.
Definition LAB_UNKNOWN_REQUEST : Z := 24.

Definition LAB_ORIGIN_LINUX : Z := 1.
Definition LAB_ORIGIN_WINDOWS : Z := 2.
Definition LAB_SELF_REPORTED : Z := 1.
Definition LAB_REJECTED : Z := 0.
Definition LAB_PENDING : Z := 1.
Definition LAB_ACCEPTED : Z := 2.

Definition LAB_HELLO_LEN : Z := 60.
Definition LAB_HELLO_ACK_LEN : Z := 56.
Definition LAB_PING_LEN : Z := 40.
Definition LAB_PONG_LEN : Z := 28.
Definition LAB_RST_LEN : Z := 60.
Definition LAB_BYE_LEN : Z := 24.
Definition LAB_REQUEST_LEN : Z := 44.
Definition LAB_OBSERVATION_LEN : Z := 104.
Definition LAB_DECISION_LEN : Z := 28.
Definition LAB_APP_NAME : bytes := b "LabClient".
Definition LAB_APP_ID : Z := 0x4c414201.

(** [reason_names], in the order of the reasons. *)
Definition reason_names : list bytes :=
  b <$> ["OK"; "BAD_MAGIC"; "BAD_VERSION"; "BAD_KIND"; "BAD_LEN"; "BAD_PAYLOAD"; "DUP_SESSION"; "UNKNOWN_SESSION"; "BAD_SESSION";
         "BAD_SEQ"; "REPLAY"; "TOO_BIG"; "TRUNCATED"; "STALE"; "BUSY"; "DUP_NONCE"; "CLOSING"; "TIMEOUT"; "ECHO"; "ORIGIN_MISMATCH";
         "UNSUPPORTED"; "INSUFFICIENT"; "OLD_INSTANCE"; "EXPIRED"; "UNKNOWN_REQUEST"]%string.
Definition lab_reason_name (reason : Z) : bytes :=
  if (0 <=? reason) && (reason <? 25) then match reason_names !! Z.to_nat reason with Some s => s | None => b "?" end else b "?".

(** ** The header *)

Record lab_hdr_t := Hdr {
  h_magic : Z;
  h_version : Z;
  h_kind : Z;
  h_flags : Z;
  h_seq : Z;
  h_len : Z }.

Definition pad : bytes := replicate 4 xaa.
Definition lab_hdr_pack (h : lab_hdr_t) : bytes :=
  [z2b (h_magic h); z2b (h_version h); z2b (h_kind h); z2b (h_flags h)] ++
  le_encode 4 (h_seq h) ++ le_encode 4 (h_len h) ++ pad.

Definition byte_at (data : bytes) (i : nat) : Z := match data !! i with Some x => b2z x | None => 0 end.
Definition get32 (data : bytes) (i : nat) : Z := le_decode (slice data i (i + 4)).
Definition get64 (data : bytes) (i : nat) : Z := le_decode (slice data i (i + 8)).
Definition lab_hdr_parse (data : bytes) : option lab_hdr_t :=
  if len data <? 16 then None
  else if negb (bool_decide (slice data 12 16 = pad)) then None
  else Some (Hdr (byte_at data 0) (byte_at data 1) (byte_at data 2) (byte_at data 3) (get32 data 4) (get32 data 8)).

(** ** The payloads *)

Record lab_hello_t := Hello { app_id : Z; app : bytes; name : bytes; nonce : bytes }.
Record lab_hello_ack_t := HelloAck { a_result : Z; a_reason : Z; a_session : bytes; a_snonce : bytes; a_cnonce : bytes }.
Record lab_ping_t := Ping { p_session : bytes; p_nonce : bytes; p_stamp : Z }.
Record lab_pong_t := Pong { stamp : Z; echo : bytes; pong_pad : Z }.
Record lab_rst_t := Rst { r_session : bytes; r_reason : Z; r_len : Z; r_msg : bytes }.
Record lab_bye_t := Bye { b_session : bytes; b_reason : Z; b_pad : Z }.
Record lab_request_t := Request {
  q_session : bytes; q_id : Z; q_instance : bytes; q_origin : Z; q_capability : Z; q_class : Z; q_reserved : Z; q_seed : Z }.
Record lab_observation_t := Observation {
  o_session : bytes; o_id : Z; o_instance : bytes; o_subject : bytes;
  o_origin : Z; o_capability : Z; o_class : Z; o_ok : Z;
  o_seed : Z; o_elapsed_ms : Z; o_error : Z; o_data : bytes }.
Record lab_decision_t := Decision { d_session : bytes; d_id : Z; d_status : Z; d_reason : Z }.

(** The [void *] of the codec, by its kind. *)
Inductive payload :=
| PHello (p : lab_hello_t)
| PHelloAck (p : lab_hello_ack_t)
| PPing (p : lab_ping_t)
| PPong (p : lab_pong_t)
| PRst (p : lab_rst_t)
| PBye (p : lab_bye_t)
| PRequest (p : lab_request_t)
| PObservation (p : lab_observation_t)
| PDecision (p : lab_decision_t).

Definition lab_payload_len (kind : Z) : Z :=
  if kind =? LAB_HELLO then LAB_HELLO_LEN else if kind =? LAB_HELLO_ACK then LAB_HELLO_ACK_LEN
  else if kind =? LAB_PING then LAB_PING_LEN else if kind =? LAB_PONG then LAB_PONG_LEN
  else if kind =? LAB_RST then LAB_RST_LEN else if kind =? LAB_BYE then LAB_BYE_LEN
  else if kind =? LAB_REQUEST then LAB_REQUEST_LEN else if kind =? LAB_OBSERVATION then LAB_OBSERVATION_LEN
  else if kind =? LAB_DECISION then LAB_DECISION_LEN else 0.

Definition lab_evidence_pack (p : payload) : bytes :=
  match p with
  | PRequest p =>
      q_session p ++ le_encode 4 (q_id p) ++ q_instance p ++
      [z2b (q_origin p); z2b (q_capability p); z2b (q_class p); z2b (q_reserved p)] ++ le_encode 4 (q_seed p)
  | PObservation p =>
      o_session p ++ le_encode 4 (o_id p) ++ o_instance p ++ o_subject p ++
      [z2b (o_origin p); z2b (o_capability p); z2b (o_class p); z2b (o_ok p)] ++
      le_encode 4 (o_seed p) ++ le_encode 4 (o_elapsed_ms p) ++ le_encode 4 (o_error p) ++ o_data p
  | PDecision p => d_session p ++ le_encode 4 (d_id p) ++ le_encode 4 (d_status p) ++ le_encode 4 (d_reason p)
  | _ => []
  end.
(** [lab_payload_pack], into a buffer of the payload's size. *)
Definition lab_payload_pack (p : payload) : bytes :=
  match p with
  | PHello p => le_encode 4 (app_id p) ++ app p ++ name p ++ nonce p
  | PHelloAck p => le_encode 4 (a_result p) ++ le_encode 4 (a_reason p) ++ a_session p ++ a_snonce p ++ a_cnonce p
  | PPing p => p_session p ++ p_nonce p ++ le_encode 8 (p_stamp p)
  | PPong p => le_encode 8 (stamp p) ++ echo p ++ le_encode 4 (pong_pad p)
  | PRst p => r_session p ++ le_encode 4 (r_reason p) ++ le_encode 4 (r_len p) ++ r_msg p
  | PBye p => b_session p ++ le_encode 4 (b_reason p) ++ le_encode 4 (b_pad p)
  | _ => lab_evidence_pack p
  end.

Definition lab_evidence_parse (i : bytes) (kind : Z) : option payload :=
  if negb (len i =? lab_payload_len kind) then None
  else if kind =? LAB_REQUEST then
    Some (PRequest (Request (take 16 i) (get32 i 16) (slice i 20 36) (byte_at i 36) (byte_at i 37) (byte_at i 38) (byte_at i 39) (get32 i 40)))
  else if kind =? LAB_OBSERVATION then
    Some (PObservation (Observation (take 16 i) (get32 i 16) (slice i 20 36) (slice i 36 52)
            (byte_at i 52) (byte_at i 53) (byte_at i 54) (byte_at i 55) (get32 i 56) (get32 i 60) (get32 i 64) (slice i 68 104)))
  else Some (PDecision (Decision (take 16 i) (get32 i 16) (get32 i 20) (get32 i 24))).
Definition lab_payload_parse (i : bytes) (kind : Z) : option payload :=
  if (LAB_REQUEST <=? kind) && (kind <=? LAB_DECISION) then lab_evidence_parse i kind
  else if (len i =? 0) || negb (len i =? lab_payload_len kind) then None
  else if kind =? LAB_HELLO then Some (PHello (Hello (get32 i 0) (slice i 4 20) (slice i 20 44) (slice i 44 60)))
  else if kind =? LAB_HELLO_ACK then Some (PHelloAck (HelloAck (get32 i 0) (get32 i 4) (slice i 8 24) (slice i 24 40) (slice i 40 56)))
  else if kind =? LAB_PING then Some (PPing (Ping (take 16 i) (slice i 16 32) (get64 i 32)))
  else if kind =? LAB_PONG then Some (PPong (Pong (get64 i 0) (slice i 8 24) (get32 i 24)))
  else if kind =? LAB_RST then Some (PRst (Rst (take 16 i) (get32 i 16) (get32 i 20) (slice i 24 60)))
  else if kind =? LAB_BYE then Some (PBye (Bye (take 16 i) (get32 i 16) (get32 i 20)))
  else None.

(** ** The window of sequence numbers *)

Record lab_sequence_t := Sequence { next : Z; seen : list Z }.

(** [lab_sequence_accept(state, seq)]: the state after it and the reason. *)
Definition lab_sequence_accept (s : lab_sequence_t) (seq : Z) : lab_sequence_t * Z :=
  let slot := Z.to_nat (seq mod 16) in
  if seq =? 0 then (s, LAB_BAD_SEQ)
  else if (seq =? UINT32_MAX) || (next s =? UINT32_MAX) then (s, LAB_CLOSING)
  else if next s <=? seq then
    if 8 <? seq - next s then (s, LAB_BAD_SEQ)
    else (Sequence (seq + 1) (<[slot := seq]> (seen s)), LAB_OK)
  else if 16 <? next s - seq then (s, LAB_BAD_SEQ)
  else if bool_decide (seen s !! slot = Some seq) then (s, LAB_REPLAY)
  else (Sequence (next s) (<[slot := seq]> (seen s)), LAB_OK).

(** [lab_parse_u32(text, minimum, maximum)] *)
Fixpoint parse_digits (text : bytes) (value maximum : Z) : option Z :=
  match text with
  | [] => Some value
  | c :: text =>
      let digit := b2z c - 48 in
      if (b2z c <? 48) || (57 <? b2z c) then None
      else if (maximum / 10 <? value) || ((value =? maximum / 10) && (maximum mod 10 <? digit)) then None
      else parse_digits text (u32 (value * 10 + digit)) maximum
  end.
Definition lab_parse_u32 (text : bytes) (minimum maximum : Z) : option Z :=
  match text with
  | [] => None
  | _ => value ← parse_digits text 0 maximum; if value <? minimum then None else Some value
  end.

(** ** The policy on evidence *)

Record lab_policy_t := Policy { origin : Z; capabilities : Z; evidence_class : Z; request_timeout_ms : Z }.
Record lab_evidence_state_t := Evidence {
  open : bool;
  pending : bool;
  session : bytes;
  instance : bytes;
  last_request : Z;
  deadline : Z;
  request : lab_request_t }.

Definition nonzero (data : bytes) : bool := negb (foldl (λ any x, Z.lor any (b2z x)) 0 data =? 0).

Definition common (s : lab_evidence_state_t) (policy : lab_policy_t) (sid inst : bytes) (org capability class : Z) : Z :=
  if negb (open s) then LAB_CLOSING
  else if negb (bool_decide (session s = sid)) then LAB_BAD_SESSION
  else if negb (bool_decide (instance s = inst)) then LAB_OLD_INSTANCE
  else if (negb (org =? LAB_ORIGIN_LINUX) && negb (org =? LAB_ORIGIN_WINDOWS)) ||
          (negb (origin policy =? 0) && negb (origin policy =? org)) then LAB_ORIGIN_MISMATCH
  else if (capability <? 1) || (3 <? capability) || (Z.land (capabilities policy) (Z.shiftl 1 (capability - 1)) =? 0)
       then LAB_UNSUPPORTED
  else if negb (class =? LAB_SELF_REPORTED) || negb (class =? evidence_class policy) then LAB_INSUFFICIENT
  else LAB_OK.

(** [lab_policy_request(s, policy, r, now)]: the state after it and the reason. *)
Definition lab_policy_request (s : lab_evidence_state_t) (policy : lab_policy_t) (r : lab_request_t) (now : Z) :
    lab_evidence_state_t * Z :=
  let reason := common s policy (q_session r) (q_instance r) (q_origin r) (q_capability r) (q_class r) in
  if negb (reason =? LAB_OK) then (s, reason)
  else if negb (q_reserved r =? 0) || (q_id r =? 0) then (s, LAB_BAD_PAYLOAD)
  else if q_id r <=? last_request s then (s, LAB_REPLAY)
  else if pending s && (now <? deadline s) then (s, LAB_BUSY)
  else if UINT64_MAX - now <? request_timeout_ms policy then (s, LAB_BAD_PAYLOAD)
  else (Evidence (open s) true (session s) (instance s) (q_id r) (now + request_timeout_ms policy) r, LAB_OK).

(** The data of an observation by its capability. *)
Definition bad_data (capability : Z) (data : bytes) : bool :=
  if capability =? 1 then negb (get32 data 0 =? 4096) || negb (nonzero (slice data 4 36))
  else if capability =? 2 then
    negb (nonzero (take 8 data)) || negb (nonzero (slice data 8 16)) || nonzero (slice data 16 36)
  else (capability =? 3) && nonzero data.
Definition lab_policy_observation (s : lab_evidence_state_t) (policy : lab_policy_t) (o : lab_observation_t) (now : Z) :
    lab_evidence_state_t * Z :=
  let reason := common s policy (o_session o) (o_instance o) (o_origin o) (o_capability o) (o_class o) in
  if negb (reason =? LAB_OK) then (s, reason)
  else if negb (pending s) || negb (o_id o =? q_id (request s)) then (s, LAB_UNKNOWN_REQUEST)
  else if deadline s <=? now then (s, LAB_EXPIRED)
  else if negb (o_capability o =? q_capability (request s)) || negb (o_origin o =? q_origin (request s)) ||
          negb (o_seed o =? q_seed (request s)) || negb (nonzero (o_subject o)) || negb (o_ok o =? 1) ||
          negb (o_error o =? 0) || (request_timeout_ms policy <? o_elapsed_ms o) then (s, LAB_BAD_PAYLOAD)
  else if bad_data (o_capability o) (o_data o) then (s, LAB_BAD_PAYLOAD)
  else (Evidence (open s) false (session s) (instance s) (last_request s) (deadline s) (request s), LAB_OK).

End LabContract.

(** * The contract of the laboratory: its codecs, its window, its policy *)

Import LabContract.

(** ** Pieces of a datagram *)

Lemma slice_join {A} (l : list A) i j k : (i <= j)%nat → (j <= k)%nat → slice l i j ++ slice l j k = slice l i k.
Proof.
  intros Hi Hj. unfold slice. rewrite <-(take_drop (j - i) (take (k - i) (drop i l))). f_equal.
  - rewrite take_take. f_equal. lia.
  - rewrite skipn_firstn_comm, drop_drop. f_equal; [lia|f_equal; lia].
Qed.
Lemma slice_all {A} (l : list A) n : (length l <= n)%nat → slice l 0 n = l.
Proof. intros. unfold slice. rewrite Nat.sub_0_r, drop_0. by apply take_ge. Qed.
Lemma take_slice {A} (l : list A) n : take n l = slice l 0 n.
Proof. unfold slice. by rewrite Nat.sub_0_r, drop_0. Qed.
Lemma get32_slice l i : (i + 4 <= length l)%nat → le_encode 4 (get32 l i) = slice l i (i + 4).
Proof. intros H. unfold get32. rewrite <-(le_encode_decode (slice l i (i + 4))) at 2. f_equal. rewrite length_slice; lia. Qed.
Lemma get64_slice l i : (i + 8 <= length l)%nat → le_encode 8 (get64 l i) = slice l i (i + 8).
Proof. intros H. unfold get64. rewrite <-(le_encode_decode (slice l i (i + 8))) at 2. f_equal. rewrite length_slice; lia. Qed.
Lemma byte_at_slice l i : (i + 1 <= length l)%nat → [z2b (byte_at l i)] = slice l i (i + 1).
Proof.
  intros H. unfold byte_at, slice. replace (i + 1 - i)%nat with 1%nat by lia.
  destruct (l !! i) as [x|] eqn:E; [|apply lookup_ge_None in E; lia]. rewrite z2b_b2z. by erewrite drop_S.
Qed.
Lemma cons_byte l i k : (i + 1 <= length l)%nat → z2b (byte_at l i) :: k = slice l i (i + 1) ++ k.
Proof. intros. by rewrite <-byte_at_slice. Qed.

(** Put a parsed buffer together again. *)
Ltac rejoin :=
  rewrite ?take_slice, ?get32_slice, ?get64_slice by lia;
  repeat (rewrite cons_byte by lia); rewrite ?app_nil_r; cbn [app];
  repeat (rewrite slice_join by lia || rewrite app_assoc, slice_join by lia; rewrite <-?app_assoc);
  rewrite slice_all by lia.

(** ** The codec of the payloads *)

Definition kind_of (p : payload) : Z :=
  match p with
  | PHello _ => LAB_HELLO | PHelloAck _ => LAB_HELLO_ACK | PPing _ => LAB_PING | PPong _ => LAB_PONG
  | PRst _ => LAB_RST | PBye _ => LAB_BYE | PRequest _ => LAB_REQUEST | PObservation _ => LAB_OBSERVATION
  | PDecision _ => LAB_DECISION
  end.
Definition is_u8 (z : Z) : Prop := 0 <= z < 256.
Definition is_u32 (z : Z) : Prop := 0 <= z < 2 ^ 32.
Definition is_u64 (z : Z) : Prop := 0 <= z < 2 ^ 64.
(** The arrays have their lengths and the integers their widths. *)
Definition payload_wf (p : payload) : Prop :=
  match p with
  | PHello (Hello i a n c) => is_u32 i ∧ length a = 16%nat ∧ length n = 24%nat ∧ length c = 16%nat
  | PHelloAck (HelloAck r n s t c) => is_u32 r ∧ is_u32 n ∧ length s = 16%nat ∧ length t = 16%nat ∧ length c = 16%nat
  | PPing (Ping s n t) => length s = 16%nat ∧ length n = 16%nat ∧ is_u64 t
  | PPong (Pong t e p) => is_u64 t ∧ length e = 16%nat ∧ is_u32 p
  | PRst (Rst s r l m) => length s = 16%nat ∧ is_u32 r ∧ is_u32 l ∧ length m = 36%nat
  | PBye (Bye s r p) => length s = 16%nat ∧ is_u32 r ∧ is_u32 p
  | PRequest (Request s i t o c e r d) =>
      length s = 16%nat ∧ is_u32 i ∧ length t = 16%nat ∧ is_u8 o ∧ is_u8 c ∧ is_u8 e ∧ is_u8 r ∧ is_u32 d
  | PObservation (Observation s i t u o c e k d l r x) =>
      length s = 16%nat ∧ is_u32 i ∧ length t = 16%nat ∧ length u = 16%nat ∧ is_u8 o ∧ is_u8 c ∧ is_u8 e ∧ is_u8 k ∧
      is_u32 d ∧ is_u32 l ∧ is_u32 r ∧ length x = 36%nat
  | PDecision (Decision s i t r) => length s = 16%nat ∧ is_u32 i ∧ is_u32 t ∧ is_u32 r
  end.

Lemma get32_range l i : is_u32 (get32 l i).
Proof.
  unfold get32, is_u32. pose proof (le_decode_bound (slice l i (i + 4))) as H.
  assert (Hl : len (slice l i (i + 4)) <= 4) by (unfold len, slice; rewrite length_take; lia).
  split; [lia|]. eapply Z.lt_le_trans; [apply H|]. change (2 ^ 32) with (256 ^ 4). apply Z.pow_le_mono_r; lia.
Qed.
Lemma get64_range l i : is_u64 (get64 l i).
Proof.
  unfold get64, is_u64. pose proof (le_decode_bound (slice l i (i + 8))) as H.
  assert (Hl : len (slice l i (i + 8)) <= 8) by (unfold len, slice; rewrite length_take; lia).
  split; [lia|]. eapply Z.lt_le_trans; [apply H|]. change (2 ^ 64) with (256 ^ 8). apply Z.pow_le_mono_r; lia.
Qed.
Lemma byte_at_range l i : is_u8 (byte_at l i).
Proof. unfold byte_at, is_u8. case_match; [apply b2z_range|lia]. Qed.

#[local] Arguments le_encode : simpl never.
#[local] Arguments slice : simpl never.
#[local] Arguments get32 : simpl never.
#[local] Arguments get64 : simpl never.
#[local] Arguments byte_at : simpl never.
#[local] Arguments take : simpl never.
#[local] Arguments z2b : simpl never.

(** What is parsed is exactly what is there. *)
Lemma parse_pack i kind p : lab_payload_parse i kind = Some p →
  lab_payload_pack p = i ∧ kind_of p = kind ∧ payload_wf p ∧ len i = lab_payload_len kind.
Proof.
  intros E. assert (Hk : len i = lab_payload_len kind ∧ kind_of p = kind).
  { unfold lab_payload_parse, lab_evidence_parse in E.
    repeat (case_match; try done); bools; injection E as <-; (split; [|cbn [kind_of]]); unfold LAB_REQUEST, LAB_OBSERVATION, LAB_DECISION in *; lia. }
  destruct Hk as [Hl <-]. split; [|split; [done|split; [|done]]].
  all: destruct p; cbn [kind_of] in *; unfold lab_payload_parse, lab_evidence_parse in E; rewrite Hl in E; cbn in E; injection E as <-;
    match type of Hl with _ = ?r => let v := eval vm_compute in r in change r with v in Hl end; unfold len in Hl; cbn.
  10-18: rewrite ?length_slice, ?length_take by lia; split_and!; try apply get32_range; try apply get64_range; try apply byte_at_range; lia.
  all: rejoin; done.
Qed.

Lemma z2b_inj x y : is_u8 x → is_u8 y → z2b x = z2b y → x = y.
Proof. unfold is_u8. intros Hx Hy H. apply (f_equal b2z) in H. by rewrite !b2z_z2b_small in H. Qed.
Lemma length_pack p : payload_wf p → len (lab_payload_pack p) = lab_payload_len (kind_of p).
Proof. destruct p as [[]|[]|[]|[]|[]|[]|[]|[]|[]]; intros W; cbn in W |- *; rewrite ?len_app, ?len_cons, ?len_le_encode; unfold len; destruct_and?; cbn in *; rewrite ?length_app, ?length_le_encode; repeat match goal with H : length _ = _ |- _ => rewrite H; clear H end; done.
Qed.

Lemma cons_eq {A} (x y : A) l k : x :: l = y :: k → x = y ∧ l = k.
Proof. by intros [= -> ->]. Qed.
Ltac peel H :=
  repeat match type of H with
  | _ ++ _ = _ ++ _ => let H1 := fresh in apply app_inj_1 in H as [H1 H]; [|rewrite ?length_le_encode; congruence]
  | z2b _ :: _ = z2b _ :: _ => let H1 := fresh in apply cons_eq in H as [H1 H]; apply z2b_inj in H1; [|assumption..]
  end;
  repeat match goal with E : le_encode _ _ = le_encode _ _ |- _ => apply le_encode_inj in E; [|assumption..] end.
Lemma pack_inj p q : payload_wf p → payload_wf q → kind_of p = kind_of q → lab_payload_pack p = lab_payload_pack q → p = q.
Proof.
  intros Wp Wq K E. destruct p as [[]|[]|[]|[]|[]|[]|[]|[]|[]], q as [[]|[]|[]|[]|[]|[]|[]|[]|[]]; try done; clear K;
    cbn in Wp, Wq, E; destruct_and?; peel E; by subst.
Qed.

(** What is packed is parsed back. *)
Lemma pack_parse p : payload_wf p → lab_payload_parse (lab_payload_pack p) (kind_of p) = Some p.
Proof.
  intros W. pose proof (length_pack p W) as Hl.
  assert (is_Some (lab_payload_parse (lab_payload_pack p) (kind_of p))) as [q E].
  { unfold lab_payload_parse, lab_evidence_parse. rewrite Hl. destruct p; by eexists. }
  rewrite E. f_equal. symmetry. apply parse_pack in E as (E & K & Wq & _). by apply pack_inj.
Qed.

(** The header, put together and read back. *)
Definition hdr_wf (h : lab_hdr_t) : Prop :=
  is_u8 (h_magic h) ∧ is_u8 (h_version h) ∧ is_u8 (h_kind h) ∧ is_u8 (h_flags h) ∧ is_u32 (h_seq h) ∧ is_u32 (h_len h).
Lemma hdr_parse_pack data h : lab_hdr_parse data = Some h → lab_hdr_pack h = take 16 data ∧ hdr_wf h ∧ (16 <= length data)%nat.
Proof.
  unfold lab_hdr_parse. destruct (Z.ltb_spec (len data) 16) as [|Hl]; [done|]. case_bool_decide as Hp; [|done]. intros [= <-].
  unfold len in Hl. split; [|split; [|lia]].
  - unfold lab_hdr_pack. cbn [h_magic h_version h_kind h_flags h_seq h_len app]. rewrite <-Hp, !get32_slice by lia.
    cbn [app]. repeat (rewrite cons_byte by lia). rewrite take_slice. cbn [app]. rewrite app_nil_r. rewrite <-!app_assoc. by rewrite !slice_join by lia.
  - unfold hdr_wf. cbn [h_magic h_version h_kind h_flags h_seq h_len]. split_and!; try apply byte_at_range; apply get32_range.
Qed.
Lemma hdr_pack_parse h rest : hdr_wf h → lab_hdr_parse (lab_hdr_pack h ++ rest) = Some h.
Proof.
  intros W. assert (Hl : length (lab_hdr_pack h) = 16%nat) by (destruct h; cbn; by rewrite !length_app, !length_le_encode).
  assert (is_Some (lab_hdr_parse (lab_hdr_pack h ++ rest))) as [g E].
  { unfold lab_hdr_parse. rewrite len_app. unfold len at 1. rewrite Hl. destruct (Z.ltb_spec (Z.of_nat 16 + len rest) 16); [pose proof (len_nonneg rest); lia|].
    rewrite bool_decide_eq_true_2; [by eexists|]. unfold slice, lab_hdr_pack. rewrite !app_assoc.
    rewrite <-(app_assoc _ pad rest), drop_app_length'; [done|]. by rewrite !length_app, !length_le_encode. }
  rewrite E. f_equal. apply hdr_parse_pack in E as (E & W' & _). rewrite take_app_length' in E by done.
  destruct h as [a b c d e f], g as [a' b' c' d' e' f'], W as (?&?&?&?&?&?), W' as (?&?&?&?&?&?). cbn in *.
  unfold lab_hdr_pack in E. cbn in E. peel E. congruence.
Qed.

(** ** The window *)

(** The specification: only the numbers accepted so far, in any order. *)
Definition after (accepted : list Z) : Z := 1 + foldr Z.max 0 accepted.
Definition admissible (accepted : list Z) (seq : Z) : bool :=
  (0 <? seq) && (seq <? UINT32_MAX) && (after accepted <? UINT32_MAX) &&
  (after accepted - 16 <=? seq) && (seq <=? after accepted + 8) && negb (bool_decide (seq ∈ accepted)).
Fixpoint window (accepted seqs : list Z) : list bool :=
  match seqs with
  | [] => []
  | seq :: seqs =>
      let ok := admissible accepted seq in ok :: window (if ok then seq :: accepted else accepted) seqs
  end.
(** The verdicts of [lab_sequence_accept] over a session. *)
Fixpoint verdicts (s : lab_sequence_t) (seqs : list Z) : list bool :=
  match seqs with
  | [] => []
  | seq :: seqs => let (s', reason) := lab_sequence_accept s seq in (reason =? LAB_OK) :: verdicts s' seqs
  end.
Definition fresh_sequence : lab_sequence_t := Sequence 1 (replicate 16 0).

Lemma after_bound accepted x : x ∈ accepted → x < after accepted.
Proof. unfold after. induction accepted as [|y l IH]; [by intros ?%elem_of_nil|]. intros [->|Hx]%elem_of_cons; cbn; [lia|]. apply IH in Hx. lia. Qed.
Lemma after_cons accepted x : after (x :: accepted) = Z.max (x + 1) (after accepted).
Proof. unfold after. cbn. lia. Qed.

(** What the ring holds: the greatest accepted number of each class modulo 16. *)
Record ring (s : lab_sequence_t) (accepted : list Z) : Prop := {
  ri_next : next s = after accepted;
  ri_size : length (seen s) = 16%nat;
  ri_range : ∀ x, x ∈ accepted → 0 < x < UINT32_MAX;
  ri_slot : ∀ i v, seen s !! i = Some v →
    (v = 0 ∨ v ∈ accepted ∧ v mod 16 = Z.of_nat i) ∧ ∀ x, x ∈ accepted → x mod 16 = Z.of_nat i → x <= v }.

Lemma ring_fresh : ring fresh_sequence [].
Proof.
  split; try done; [by intros x ?%elem_of_nil|]. intros i v H. apply lookup_replicate in H as [-> _].
  split; [by left|by intros x ?%elem_of_nil].
Qed.
Lemma same_class x y : x mod 16 = y mod 16 → x < y → x + 16 <= y.
Proof. intros. Z.div_mod_to_equations. lia. Qed.

Lemma ring_accept s accepted seq : ring s accepted → 0 <= seq <= UINT32_MAX →
  match lab_sequence_accept s seq with
  | (s', reason) =>
      (reason =? LAB_OK) = admissible accepted seq ∧
      ring s' (if admissible accepted seq then seq :: accepted else accepted)
  end.
Proof.
  intros R Hq. pose proof R as [Hn Hs Hr Hv]. unfold lab_sequence_accept.
  set (slot := Z.to_nat (seq mod 16)).
  assert (Hslot : Z.of_nat slot = seq mod 16) by (unfold slot; pose proof (Z.mod_pos_bound seq 16); lia).
  assert (Hlt : (slot < 16)%nat) by (pose proof (Z.mod_pos_bound seq 16); lia).
  destruct (lookup_lt_is_Some_2 (seen s) slot) as [v Ev]; [lia|]. destruct (Hv slot v Ev) as [Hv1 Hv2].
  assert (Hno : ∀ reason, reason ≠ LAB_OK → admissible accepted seq = false →
    (reason =? LAB_OK) = admissible accepted seq ∧ ring s (if admissible accepted seq then seq :: accepted else accepted)).
  { intros reason Hne ->. split; [by apply Z.eqb_neq|done]. }
  assert (Hset : ∀ n, n = Z.max (seq + 1) (after accepted) → 0 < seq < UINT32_MAX → (∀ x, x ∈ accepted → x mod 16 = seq mod 16 → x <= seq) →
    ring (Sequence n (<[slot:=seq]> (seen s))) (seq :: accepted)).
  { intros n Hnn Hqq Hmax. split; cbn [next seen]; [by rewrite after_cons|by rewrite length_insert|..].
    - intros x [->|?]%elem_of_cons; auto.
    - intros i w Hw. destruct (decide (i = slot)) as [->|Hne].
      + rewrite list_lookup_insert_eq in Hw by lia. injection Hw as <-. split; [right; split; [apply list_elem_of_here|lia]|].
        intros x [->|Hx]%elem_of_cons Hm; [lia|]. apply Hmax; [done|lia].
      + rewrite list_lookup_insert_ne in Hw by done. destruct (Hv i w Hw) as [Hw1 Hw2]. split.
        * destruct Hw1 as [?|[? ?]]; [by left|right; split; [by apply list_elem_of_further|done]].
        * intros x [->|Hx]%elem_of_cons Hm; [lia|auto]. }
  assert (Hpos : 1 <= after accepted).
  { unfold after. clear. induction accepted; cbn; lia. }
  destruct (Z.eqb_spec seq 0) as [->|H0]; [by apply Hno|].
  destruct (Z.eqb_spec seq UINT32_MAX) as [->|H1]; cbn [orb].
  { apply Hno; [done|]. unfold admissible. rewrite Z.ltb_irrefl. by rewrite andb_false_r. }
  rewrite Hn. destruct (Z.eqb_spec (after accepted) UINT32_MAX) as [H2|H2].
  { apply Hno; [done|]. unfold admissible. rewrite H2, Z.ltb_irrefl. by rewrite !andb_false_r. }
  assert (Hok : seq ∉ accepted → after accepted - 16 <= seq <= after accepted + 8 → admissible accepted seq = true).
  { intros Hni Hb. unfold admissible. rewrite bool_decide_eq_false_2 by done.
    assert (after accepted < UINT32_MAX).
    { assert (after accepted <= UINT32_MAX); [|lia]. unfold after. clear -Hr. induction accepted as [|y l IH]; [done|]. cbn.
      assert (0 < y < UINT32_MAX) by (apply Hr, list_elem_of_here). assert (1 + foldr Z.max 0 l <= UINT32_MAX); [|lia].
      apply IH. intros x Hx. apply Hr. by apply list_elem_of_further. }
    rewrite !andb_true_iff, !Z.ltb_lt, !Z.leb_le. split_and!; try done; lia. }
  destruct (Z.leb_spec (after accepted) seq) as [Hge|Hl].
  - assert (Hni : seq ∉ accepted) by (intros Hx%after_bound; lia).
    destruct (Z.ltb_spec 8 (seq - after accepted)).
    + apply Hno; [done|]. unfold admissible. destruct (Z.leb_spec seq (after accepted + 8)); [lia|]. by rewrite !andb_false_r.
    + rewrite Hok by (done || lia). split; [done|]. apply Hset; [lia|lia|]. intros x Hx _. apply after_bound in Hx. lia.
  - destruct (Z.ltb_spec 16 (after accepted - seq)).
    + apply Hno; [done|]. unfold admissible. destruct (Z.leb_spec (after accepted - 16) seq); [lia|]. by rewrite !andb_false_r.
    + rewrite Ev. case_bool_decide as Hin.
      * injection Hin as ->. apply Hno; [done|]. destruct Hv1 as [?|[Hin _]]; [done|].
        unfold admissible. rewrite bool_decide_eq_true_2 by done. by rewrite !andb_false_r.
      * assert (Hni : seq ∉ accepted).
        { intros Hx. assert (seq <= v) by (apply Hv2; [done|lia]). destruct Hv1 as [->|[Hva Hvm]]; [lia|].
          assert (seq + 16 <= v); [apply same_class; [lia|]|apply after_bound in Hva; lia].
          assert (seq ≠ v) by congruence. lia. }
        rewrite Hok by (done || lia). split; [done|]. apply Hset; [lia|lia|].
        intros x Hx Hm. destruct (Z.le_gt_cases x seq); [done|]. assert (seq + 16 <= x) by (apply same_class; lia).
        apply after_bound in Hx. lia.
Qed.

(** C18.  The window is its specification: over a session, whatever numbers arrive and in
    whatever order, a number is accepted exactly when it was not accepted
    before and lies at most 16 below and 8 above the first number past all those
    accepted; the ring of 16 numbers forgets nothing that matters. *)
Theorem window_exact seqs : Forall (λ seq, 0 <= seq <= UINT32_MAX) seqs → verdicts fresh_sequence seqs = window [] seqs.
Proof.
  pose proof ring_fresh as R. revert R. generalize fresh_sequence, (@nil Z). induction seqs as [|seq seqs IH]; intros s accepted R Hf; [done|].
  apply Forall_cons in Hf as [Hq Hf]. pose proof (ring_accept s accepted seq R Hq) as H. cbn [verdicts window].
  destruct (lab_sequence_accept s seq) as [s' reason]. destruct H as [-> R']. f_equal. by apply IH.
Qed.
Lemma window_exact_witness :
  Forall (λ seq, 0 <= seq <= UINT32_MAX) [3; 1; 3; 12; 2; 1; 21; 5; 4; 22] ∧
  verdicts fresh_sequence [3; 1; 3; 12; 2; 1; 21; 5; 4; 22] = window [] [3; 1; 3; 12; 2; 1; 21; 5; 4; 22].
Proof.
  assert (H : Forall (λ seq, 0 <= seq <= UINT32_MAX) [3; 1; 3; 12; 2; 1; 21; 5; 4; 22]) by (repeat constructor; done).
  split; [exact H|]. apply (window_exact _ H).
Defined.

(** ** Numbers on the command line *)

Definition is_digit (c : byte) : bool := (48 <=? b2z c) && (b2z c <=? 57).
(** The value of a decimal numeral, after the digits [v]. *)
Definition decimal (v : Z) (text : bytes) : Z := foldl (λ v c, v * 10 + (b2z c - 48)) v text.
Lemma decimal_grows text v : 0 <= v → forallb is_digit text = true → v <= decimal v text.
Proof.
  revert v. induction text as [|c text IH]; intros v Hv Hd; [done|]. cbn in Hd |- *. apply andb_true_iff in Hd as [Hc Hd].
  unfold is_digit in Hc. etrans; [|apply IH; [|done]]; lia.
Qed.
Lemma parse_digits_exact text value maximum v : 0 <= value <= maximum → maximum <= UINT32_MAX →
  parse_digits text value maximum = Some v ↔ forallb is_digit text = true ∧ decimal value text = v ∧ v <= maximum.
Proof.
  intros Hv Hm. revert value Hv. induction text as [|c text IH]; intros value Hv.
  { cbn. split; [intros [= <-]; split_and!; [done..|lia]|by intros (_ & -> & _)]. }
  cbn [parse_digits forallb]. change (decimal value (c :: text)) with (decimal (value * 10 + (b2z c - 48)) text). unfold is_digit at 1.
  destruct ((b2z c <? 48) || (57 <? b2z c)) eqn:Ec.
  { split; [done|]. intros ([Hd _]%andb_true_iff & _). lia. }
  assert (Hc : (48 <=? b2z c) && (b2z c <=? 57) = true) by lia. rewrite Hc. cbn [andb].
  pose proof (Z.div_mod maximum 10 ltac:(lia)) as Hdm. pose proof (Z.mod_pos_bound maximum 10 ltac:(lia)) as Hmod.
  destruct ((maximum / 10 <? value) || ((value =? maximum / 10) && (maximum mod 10 <? b2z c - 48))) eqn:Eo.
  - split; [done|]. intros (Hd & <- & Hle). pose proof (decimal_grows text (value * 10 + (b2z c - 48)) ltac:(lia) Hd). lia.
  - assert (Hle : value * 10 + (b2z c - 48) <= maximum) by lia. unfold u32.
    rewrite Z.mod_small by (unfold UINT32_MAX in *; lia). apply IH. lia.
Qed.
(** An option of the laboratory's programs is accepted exactly when it is a decimal
    numeral whose value lies between the limits: no sign, no blank, no empty text,
    and no numeral, however long, whose value wraps around 32 bits. *)
Theorem parse_u32_exact text minimum maximum v : 0 <= maximum <= UINT32_MAX →
  lab_parse_u32 text minimum maximum = Some v ↔
  text ≠ [] ∧ forallb is_digit text = true ∧ decimal 0 text = v ∧ minimum <= v <= maximum.
Proof.
  intros Hm. unfold lab_parse_u32. destruct text as [|c text]; [by split; [|intros [? _]]|].
  pose proof (parse_digits_exact (c :: text) 0 maximum) as Hd. destruct (parse_digits (c :: text) 0 maximum) as [w|] eqn:E; cbn [mbind option_bind].
  - destruct (Hd w) as [Hd1 _]; [lia..|]. destruct (Hd1 eq_refl) as (H1 & H2 & H3). destruct (Z.ltb_spec w minimum).
    + split; [done|]. intros (_ & _ & H4 & H5). lia.
    + split; [intros [= <-]; split_and!; try done; lia|]. intros (_ & _ & H4 & _). congruence.
  - split; [done|]. intros (_ & H1 & H2 & H3). destruct (Hd v) as [_ Hd2]; [lia..|]. discriminate Hd2. split_and!; [done..|lia].
Qed.
Lemma parse_u32_exact_witness :
  0 <= 65535 <= UINT32_MAX ∧ (lab_parse_u32 (b "7777") 1 65535 = Some 7777 ↔
    b "7777" ≠ [] ∧ forallb is_digit (b "7777") = true ∧ decimal 0 (b "7777") = 7777 ∧ 1 <= 7777 <= 65535).
Proof. assert (H : 0 <= 65535 <= UINT32_MAX) by (by vm_compute). split; [exact H|]. exact (parse_u32_exact (b "7777") 1 65535 7777 H). Defined.
