(* ===== verification/LabServer.v ===== *)
(** * The policy server of the laboratory ([src/lab/server/server.c])

    A table of sessions over one UDP socket on the loopback interface.  The
    clock, the source of randomness and whether a datagram can be sent are the
    environment; the log printed with [-v], the socket and the signals are not
    modelled.  A handler is given the slot of its peer and gives it back. *)

From S2P Require Import Prelude Bytes LabContract.
Import LabContract.

Module LabServer.

Definition MAX_CLIENTS : nat := 32.

Record address := Address { ip : Z; port : Z }.
#[global] Instance address_eq_dec : EqDecision address.
Proof. solve_decision. Defined.

Inductive client_state := ST_NEW | ST_OPEN.
#[global] Instance client_state_eq_dec : EqDecision client_state.
Proof. solve_decision. Defined.

Record client_t := Client {
  used : bool;
  state : client_state;
  session : bytes;
  cnonce : bytes;
  sequence : lab_sequence_t;
  evidence : lab_evidence_state_t;
  snonce : bytes;
  hello : bytes;
  nrst : Z;
  open_t : Z;
  last_rx : Z;
  client_name : bytes;
  addr : address }.

Record server_t := Server {
  timeout_ms : Z;
  max_clients : nat;
  policy : lab_policy_t;
  c : list client_t;
  n_rx : Z;
  n_acks : Z;
  n_rst : Z;
  n_timeout : Z;
  running : bool;
  io_error : bool;
  events : nat;                          (* of the environment, so far *)
  tried : list (address * bytes);        (* the datagrams given to [sendto], in order *)
  sent : list (address * bytes) }.       (* those that it sent *)

(** What the [n]th event of the environment gives. *)
Class Host := {
  now_ms : nat → Z;
  random_bytes : nat → option bytes;     (* 32 bytes, or the failure of [getrandom] *)
  delivered : nat → bool }.

(** ** The monad of the handlers *)

Definition io (A : Type) : Type := server_t → A * server_t.
#[global] Instance io_ret : MRet io := λ A a s, (a, s).
#[global] Instance io_bind : MBind io := λ A B f m s, let (a, s) := m s in f a s.

Definition look {A} (f : server_t → A) : io A := λ s, (f s, s).
Definition change (f : server_t → server_t) : io unit := λ s, (tt, f s).
Definition tick (s : server_t) : server_t :=
  Server (timeout_ms s) (max_clients s) (policy s) (c s) (n_rx s) (n_acks s) (n_rst s) (n_timeout s) (running s) (io_error s) (S (events s)) (tried s) (sent s).
Definition event : io nat := λ s, (events s, tick s).
Definition set_clients (l : list client_t) (s : server_t) : server_t :=
  Server (timeout_ms s) (max_clients s) (policy s) l (n_rx s) (n_acks s) (n_rst s) (n_timeout s) (running s) (io_error s) (events s) (tried s) (sent s).
Definition set_counts (rx acks rst timeouts : Z) (s : server_t) : server_t :=
  Server (timeout_ms s) (max_clients s) (policy s) (c s) rx acks rst timeouts (running s) (io_error s) (events s) (tried s) (sent s).
Definition set_failed (s : server_t) : server_t :=
  Server (timeout_ms s) (max_clients s) (policy s) (c s) (n_rx s) (n_acks s) (n_rst s) (n_timeout s) false true (events s) (tried s) (sent s).
Definition add_tried (a : address) (buf : bytes) (s : server_t) : server_t :=
  Server (timeout_ms s) (max_clients s) (policy s) (c s) (n_rx s) (n_acks s) (n_rst s) (n_timeout s) (running s) (io_error s) (events s) (tried s ++ [(a, buf)]) (sent s).
Definition add_sent (a : address) (buf : bytes) (s : server_t) : server_t :=
  Server (timeout_ms s) (max_clients s) (policy s) (c s) (n_rx s) (n_acks s) (n_rst s) (n_timeout s) (running s) (io_error s) (events s) (tried s) (sent s ++ [(a, buf)]).

Definition zero_request : lab_request_t := Request (zeros 16) 0 (zeros 16) 0 0 0 0 0.
Definition zero_evidence : lab_evidence_state_t := Evidence false false (zeros 16) (zeros 16) 0 0 zero_request.
(** [memset(c, 0, sizeof *c)] *)
Definition zero_client : client_t :=
  Client false ST_NEW (zeros 16) (zeros 16) (Sequence 0 (replicate 16 0)) zero_evidence (zeros 16) (zeros 60) 0 0 0 (zeros 24) (Address 0 0).
Definition release_client (c : client_t) : client_t := zero_client.
Definition set_addr (a : address) (x : client_t) : client_t :=
  Client (used x) (state x) (session x) (cnonce x) (sequence x) (evidence x) (snonce x) (hello x) (nrst x) (open_t x) (last_rx x) (client_name x) a.
Definition set_nrst (n : Z) (x : client_t) : client_t :=
  Client (used x) (state x) (session x) (cnonce x) (sequence x) (evidence x) (snonce x) (hello x) n (open_t x) (last_rx x) (client_name x) (addr x).
Definition set_evidence (q : lab_sequence_t) (e : lab_evidence_state_t) (rx : Z) (x : client_t) : client_t :=
  Client (used x) (state x) (session x) (cnonce x) q e (snonce x) (hello x) (nrst x) (open_t x) rx (client_name x) (addr x).

Section server.
Context `{Host}.

Definition lab_now_ms : io Z := n ← event; mret (now_ms n).

Definition send_datagram (x : client_t) (buf : bytes) : io bool :=
  n ← event;
  _ ← change (add_tried (addr x) buf);
  if delivered n then _ ← change (add_sent (addr x) buf); mret true
  else _ ← change set_failed; mret false.

(** A datagram of the server: header and payload. *)
Definition datagram (kind seq len : Z) (p : payload) : bytes :=
  lab_hdr_pack (Hdr LAB_MAGIC LAB_VERSION kind 0 seq len) ++ lab_payload_pack p.
(** [char msg[36]], filled with zeros. *)
Definition message (msg : bytes) : bytes := take 36 (msg ++ zeros 36).

Definition rst_datagram (x : client_t) (reason : Z) (msg : bytes) : bytes :=
  datagram LAB_RST (nrst x) LAB_RST_LEN (PRst (Rst (session x) reason (Z.min (len msg) 36) (message msg))).
Definition send_rst (x : client_t) (reason : Z) (msg : bytes) : io client_t :=
  let wire := rst_datagram x reason msg in
  let x := set_nrst (u32 (nrst x + 1)) x in
  ok ← send_datagram x wire;
  if (ok : bool) then _ ← change (λ s, set_counts (n_rx s) (n_acks s) (n_rst s + 1) (n_timeout s) s); mret x else mret x.

Definition ack_datagram (x : client_t) : bytes :=
  datagram LAB_HELLO_ACK 0 LAB_HELLO_ACK_LEN (PHelloAck (HelloAck 1 LAB_OK (session x) (snonce x) (cnonce x))).
Definition send_hello_ack (x : client_t) : io bool :=
  ok ← send_datagram x (ack_datagram x);
  if (ok : bool) then _ ← change (λ s, set_counts (n_rx s) (n_acks s + 1) (n_rst s) (n_timeout s) s); mret true else mret false.

Definition valid_nonce (n : bytes) : bool := nonzero n.
(** [strnlen(s, sizeof s)] *)
Fixpoint strnlen (s : bytes) : nat := match s with [] => O | x :: s => if decide (x = x00) then O else S (strnlen s) end.
Definition printable (x : byte) : bool := (0x21 <=? b2z x) && (b2z x <=? 0x7e).

(** The slot of an accepted HELLO, before and after the acknowledgement is sent. *)
Definition greeted (x : client_t) (nonce rnd pay : bytes) : client_t :=
  Client (used x) (state x) (take 16 rnd) nonce (sequence x) (evidence x) (drop 16 rnd) pay (nrst x) (open_t x) (last_rx x) (client_name x) (addr x).
Definition opened (x : client_t) (name : bytes) (now : Z) : client_t :=
  Client true ST_OPEN (session x) (cnonce x) (Sequence 1 (replicate 16 0))
    (Evidence true (pending (evidence x)) (session x) (cnonce x) (last_request (evidence x)) (deadline (evidence x)) (request (evidence x)))
    (snonce x) (hello x) (nrst x) now now name (addr x).

(** [do_hello], on the payload. *)
Definition do_hello (x : client_t) (pay : bytes) : io client_t :=
  let n := len pay in
  if negb (n =? LAB_HELLO_LEN) then
    send_rst x (if 64 <? n then (if n <=? 128 then LAB_TOO_BIG else LAB_BAD_LEN) else LAB_BAD_LEN) (b "hello len")
  else
    match lab_payload_parse pay LAB_HELLO with
    | Some (PHello p) =>
        if negb (app_id p =? LAB_APP_ID) then send_rst x LAB_BAD_PAYLOAD (b "app_id != LAB1")
        else if negb (strnlen (app p) =? 9)%nat || negb (bool_decide (take 9 (app p) = LAB_APP_NAME)) then
          send_rst x LAB_BAD_PAYLOAD (b "app != LabClient")
        else if negb (forallb printable (take (strnlen (name p)) (name p))) then send_rst x LAB_BAD_PAYLOAD (b "name bytes")
        else if negb (valid_nonce (nonce p)) then send_rst x LAB_BAD_PAYLOAD (b "nonce cero")
        else
          taken ← look (λ s, existsb (λ y, used y && bool_decide (cnonce y = nonce p)) (c s));
          if (taken : bool) then send_rst x LAB_DUP_NONCE (b "duplicate nonce")
          else
            k ← event;
            match random_bytes k with
            | None => send_rst x LAB_BUSY (b "entropy unavailable")
            | Some rnd =>
                let x := greeted x (nonce p) rnd pay in
                ok ← send_hello_ack x;
                if negb ok then mret x else now ← lab_now_ms; mret (opened x (name p) now)
            end
    | _ => mret x
    end.

(** [do_evidence]: what the policy says of a copy is kept only with the sequence number. *)
Definition decide_evidence (x : client_t) (p : lab_policy_t) (m : payload) (now : Z) : lab_evidence_state_t * Z * Z :=
  match m with
  | PRequest r => let (e, reason) := lab_policy_request (evidence x) p r now in (e, reason, q_id r)
  | PObservation o => let (e, reason) := lab_policy_observation (evidence x) p o now in (e, reason, o_id o)
  | _ => (evidence x, LAB_OK, 0)
  end.
Definition decision_datagram (x : client_t) (seq id status reason : Z) : bytes :=
  datagram LAB_DECISION seq LAB_DECISION_LEN (PDecision (Decision (session x) id status reason)).
Definition do_evidence (x : client_t) (h : lab_hdr_t) (pay : bytes) : io client_t :=
  match lab_payload_parse pay (h_kind h) with
  | None => mret x
  | Some m =>
      p ← look policy;
      now ← lab_now_ms;
      let '(e, reason, id) := decide_evidence x p m now in
      let (q, reason) := if reason =? LAB_OK then lab_sequence_accept (sequence x) (h_seq h) else (sequence x, reason) in
      result ← (if reason =? LAB_OK then
                  rx ← lab_now_ms;
                  mret (set_evidence q e rx x, if h_kind h =? LAB_REQUEST then LAB_PENDING else LAB_ACCEPTED)
                else mret (x, LAB_REJECTED));
      let '(x, status) := result in
      _ ← send_datagram x (decision_datagram x (h_seq h) id status reason);
      mret (if reason =? LAB_CLOSING then release_client x else x)
  end.

Definition pong_datagram (p : lab_ping_t) : bytes :=
  datagram LAB_PONG 0 LAB_PONG_LEN (PPong (Pong (p_stamp p) (p_nonce p) 0)).
Definition do_ping (x : client_t) (h : lab_hdr_t) (pay : bytes) : io client_t :=
  match lab_payload_parse pay LAB_PING with
  | Some (PPing p) =>
      if negb (bool_decide (p_session p = session x)) then send_rst x LAB_BAD_SESSION (b "session !=")
      else
        let (q, reason) := lab_sequence_accept (sequence x) (h_seq h) in
        if negb (reason =? LAB_OK) then
          x ← send_rst x reason (lab_reason_name reason);
          mret (if reason =? LAB_CLOSING then release_client x else x)
        else
          now ← lab_now_ms;
          let x := set_evidence q (evidence x) now x in
          _ ← send_datagram x (pong_datagram p); mret x
  | _ => mret x
  end.

(** [do_open]: a datagram of an open session. *)
Definition do_open (x : client_t) (dat : bytes) : io client_t :=
  let n := len dat in
  if LAB_MAX_DATAGRAM <? n then send_rst x LAB_TOO_BIG (b ">128 B")
  else
    match lab_hdr_parse dat with
    | None => send_rst x LAB_BAD_MAGIC (b "hdr")
    | Some h =>
        if negb (h_magic h =? LAB_MAGIC) then send_rst x LAB_BAD_MAGIC (b "magic")
        else if negb (h_version h =? LAB_VERSION) then send_rst x LAB_BAD_VERSION (b "version")
        else if negb (h_len h =? n - 16) || negb (lab_payload_len (h_kind h) =? h_len h) then
          send_rst x LAB_BAD_LEN (b (if h_kind h =? LAB_BYE then "bye len" else if h_kind h =? LAB_RST then "rst len" else "len != real"))
        else if negb (h_flags h =? 0) then send_rst x LAB_BAD_PAYLOAD (b "flags")
        else
          let pay := drop 16 dat in
          if h_kind h =? LAB_HELLO then
            if (h_seq h =? 0) && bool_decide (pay = hello x) then _ ← send_hello_ack x; mret x
            else send_rst x LAB_DUP_SESSION (b "otro HELLO")
          else if (h_kind h =? LAB_REQUEST) || (h_kind h =? LAB_OBSERVATION) then do_evidence x h pay
          else if (h_kind h =? LAB_HELLO_ACK) || (h_kind h =? LAB_PONG) || (h_kind h =? LAB_DECISION) then
            send_rst x LAB_BAD_KIND (b "kind c2s")
          else if h_kind h =? LAB_PING then
            if LAB_PING_LEN <? n - 16 then send_rst x LAB_TOO_BIG (b "ping >40")
            else if n - 16 <? LAB_PING_LEN then send_rst x LAB_TRUNCATED (b "ping corto")
            else do_ping x h pay
          else if h_kind h =? LAB_BYE then
            if negb (h_len h =? LAB_BYE_LEN) || negb (n - 16 =? LAB_BYE_LEN) then send_rst x LAB_BAD_LEN (b "bye len")
            else if negb (bool_decide (take 16 pay = session x)) then send_rst x LAB_BAD_SESSION (b "session !=")
            else x ← send_rst x LAB_OK (b "bye"); mret (release_client x)
          else if h_kind h =? LAB_RST then
            if negb (h_len h =? LAB_RST_LEN) || negb (n - 16 =? LAB_RST_LEN) then send_rst x LAB_BAD_LEN (b "rst len")
            else
              match lab_payload_parse pay LAB_RST with
              | Some (PRst r) =>
                  if negb (bool_decide (r_session r = session x)) then send_rst x LAB_BAD_SESSION (b "session !=")
                  else if 36 <? r_len r then send_rst x LAB_BAD_PAYLOAD (b "rst msg len")
                  else x ← send_rst x LAB_OK (b "rst"); mret (release_client x)
              | _ => mret x
              end
          else send_rst x LAB_BAD_KIND (b "kind")
    end.

(** [do_new]: a datagram of a peer without session. *)
Definition do_new (x : client_t) (dat : bytes) : io client_t :=
  let n := len dat in
  if (n <? 16) || (LAB_MAX_DATAGRAM <? n) then
    send_rst x (if n <? 16 then LAB_BAD_MAGIC else if 16 + 64 <? n then LAB_TOO_BIG else LAB_BAD_LEN)
      (b (if n <? 16 then "hdr" else if 16 + 64 <? n then ">64 B" else "hello len"))
  else if negb (byte_at dat 0 =? LAB_MAGIC) then send_rst x LAB_BAD_MAGIC (b "magic")
  else if negb (byte_at dat 1 =? LAB_VERSION) then send_rst x LAB_BAD_VERSION (b "version")
  else if negb (byte_at dat 2 =? LAB_HELLO) then send_rst x LAB_BAD_KIND (b "HELLO primero")
  else
    match lab_hdr_parse dat with
    | None => send_rst x LAB_BAD_MAGIC (b "hdr")
    | Some h =>
        if negb (h_len h =? n - 16) then send_rst x LAB_BAD_LEN (b "len != real")
        else if negb (h_flags h =? 0) || negb (h_seq h =? 0) then send_rst x LAB_BAD_PAYLOAD (b "hello header")
        else do_hello x (drop 16 dat)
    end.

(** [sweep_timeouts] on a slot, and on all. *)
Definition sweep_one (now : Z) (x : client_t) : io client_t :=
  limit ← look timeout_ms;
  if negb (used x) || negb (bool_decide (state x = ST_OPEN)) then mret x
  else if limit <? u64 (now - last_rx x) then
    x ← send_rst x LAB_TIMEOUT (b "timeout");
    _ ← change (λ s, set_counts (n_rx s) (n_acks s) (n_rst s) (n_timeout s + 1) s);
    mret (release_client x)
  else mret x.
Definition on_slot (i : nat) (f : client_t → io client_t) : io unit :=
  l ← look c;
  match l !! i with
  | Some x => x ← f x; change (λ s, set_clients (<[i := x]> (c s)) s)
  | None => mret tt
  end.
Fixpoint for_each (l : list nat) (f : nat → io unit) : io unit :=
  match l with [] => mret tt | i :: l => _ ← f i; for_each l f end.
Definition slots : list nat := seq 0 MAX_CLIENTS.
Definition sweep_timeouts : io unit := now ← lab_now_ms; for_each slots (λ i, on_slot i (sweep_one now)).

Definition is_loopback (a : address) : bool := Z.shiftr (ip a) 24 =? 127.
Definition of_peer (a : address) (x : client_t) : bool := used x && bool_decide (addr x = a).
Fixpoint find_index (f : client_t → bool) (l : list client_t) : option nat :=
  match l with [] => None | x :: l => if f x then Some O else S <$> find_index f l end.
(** The slot of a peer: its own, or the first free one while there is room. *)
Definition slot_for (a : address) (s : server_t) : option nat :=
  match find_index (of_peer a) (c s) with
  | Some i => Some i
  | None =>
      if (max_clients s <=? length (filter (λ x, used x = true) (c s)))%nat then None
      else find_index (λ x, negb (used x)) (c s)
  end.
(** The body of the loop on a received datagram. *)
Definition serve (a : address) (dat : bytes) (x : client_t) : io client_t :=
  let x := set_addr a (if used x then x else zero_client) in
  if LAB_MAX_DATAGRAM <? len dat then send_rst x LAB_TOO_BIG (b ">128 B")
  else match state x with ST_NEW => do_new x dat | ST_OPEN => do_open x dat end.
Definition receive (a : address) (dat : bytes) : io unit :=
  _ ← change (λ s, set_counts (n_rx s + 1) (n_acks s) (n_rst s) (n_timeout s) s);
  if negb (is_loopback a) then _ ← send_rst (set_addr a zero_client) LAB_BAD_MAGIC (b "no loopback"); mret tt
  else
    i ← look (slot_for a);
    match i with
    | None => _ ← send_rst (set_addr a zero_client) LAB_BUSY (b "max alcanzado"); mret tt
    | Some i => on_slot i (serve a dat)
    end.

(** A round of the main loop: what [poll] and [recvfrom] find. *)
Inductive wake :=
| Idle
| Incoming (datagrams : list (address * bytes))   (* at most sixteen *)
| PollFails
| ReceiveFails (datagrams : list (address * bytes))
| HangUp (datagrams : list (address * bytes)).
Fixpoint receive_all (l : list (address * bytes)) : io unit :=
  match l with [] => mret tt | (a, dat) :: l => _ ← receive a dat; receive_all l end.
Definition set_io_error (s : server_t) : server_t :=
  Server (timeout_ms s) (max_clients s) (policy s) (c s) (n_rx s) (n_acks s) (n_rst s) (n_timeout s) (running s) true (events s) (tried s) (sent s).
(** Whether the loop goes on. *)
Definition round (w : wake) : io bool :=
  match w with
  | PollFails => _ ← change set_io_error; mret false
  | _ =>
      _ ← sweep_timeouts;
      go ← look running;
      if negb go then mret false else
      match w with
      | Incoming l => _ ← receive_all (take 16 l); look running
      | ReceiveFails l => _ ← receive_all (take 15 l); _ ← change set_failed; mret false
      | HangUp l => _ ← receive_all (take 16 l); _ ← change set_io_error; mret false
      | _ => mret true
      end
  end.
Fixpoint loop (wakes : list wake) : io unit :=
  match wakes with [] => mret tt | w :: wakes => go ← round w; if (go : bool) then loop wakes else mret tt end.
(** [main] after the socket is bound; the signal that stops it comes after the last
    of [wakes].  The exit code. *)
Definition goodbye (x : client_t) : io client_t := if used x then send_rst x LAB_CLOSING (b "shutdown") else mret x.
Definition main (wakes : list wake) (close_fails : bool) : io Z :=
  _ ← loop wakes;
  _ ← for_each slots (λ i, on_slot i goodbye);
  e ← look io_error;
  mret (if (close_fails : bool) || e then 1 else 0).
Definition boot (timeout : Z) (maximum : nat) (p : lab_policy_t) : server_t :=
  Server timeout (maximum `min` MAX_CLIENTS) p (replicate MAX_CLIENTS zero_client) 0 0 0 0 true false 0 [] [].
End server.

(** ** The options *)

Record options_t := Options {
  host : option bytes;       (* [None]: 127.0.0.1 *)
  o_port : Z;
  o_timeout_ms : Z;
  o_max : Z;
  o_policy : lab_policy_t;
  verbose : bool }.
Definition default_policy : lab_policy_t := Policy 0 7 LAB_SELF_REPORTED 1000.
Definition default_options : options_t := Options None 7777 2000 32 default_policy false.
Definition set_host h o := Options (Some h) (o_port o) (o_timeout_ms o) (o_max o) (o_policy o) (verbose o).
Definition set_port v o := Options (host o) v (o_timeout_ms o) (o_max o) (o_policy o) (verbose o).
Definition set_timeout v o := Options (host o) (o_port o) v (o_max o) (o_policy o) (verbose o).
Definition set_max v o := Options (host o) (o_port o) (o_timeout_ms o) v (o_policy o) (verbose o).
Definition set_policy f o := Options (host o) (o_port o) (o_timeout_ms o) (o_max o) (f (o_policy o)) (verbose o).
Definition set_verbose o := Options (host o) (o_port o) (o_timeout_ms o) (o_max o) (o_policy o) true.
Definition named (s : string) (arg : bytes) : bool := bool_decide (arg = b s).
Definition origin_named (v : bytes) : option Z :=
  if named "linux" v then Some LAB_ORIGIN_LINUX else if named "windows" v then Some LAB_ORIGIN_WINDOWS else if named "any" v then Some 0 else None.
(** An option and the word after it, if there is one; [None] is the exit code 2. *)
Definition one_option (inet_pton : bytes → option Z) (arg : bytes) (value : option bytes) (o : options_t) : option (options_t * bool) :=
  let number minimum maximum set := v ← value; z ← lab_parse_u32 v minimum maximum; Some (set z o, true) in
  if named "--host" arg && bool_decide (value ≠ None) then
    v ← value; if 16 <=? len v then None else ip ← inet_pton v; if Z.shiftr ip 24 =? 127 then Some (set_host v o, true) else None
  else if named "--port" arg && bool_decide (value ≠ None) then number 1 65535 set_port
  else if named "--timeout-ms" arg && bool_decide (value ≠ None) then number 1 60000 set_timeout
  else if named "--max" arg && bool_decide (value ≠ None) then number 1 (Z.of_nat MAX_CLIENTS) set_max
  else if named "--origin" arg && bool_decide (value ≠ None) then
    v ← value; z ← origin_named v; Some (set_policy (λ p, Policy z (capabilities p) (evidence_class p) (request_timeout_ms p)) o, true)
  else if named "--capabilities" arg && bool_decide (value ≠ None) then
    number 0 7 (λ z, set_policy (λ p, Policy (origin p) z (evidence_class p) (request_timeout_ms p)))
  else if named "--request-ms" arg && bool_decide (value ≠ None) then
    number 1 60000 (λ z, set_policy (λ p, Policy (origin p) (capabilities p) (evidence_class p) z))
  else if named "--require-attestation" arg then
    Some (set_policy (λ p, Policy (origin p) (capabilities p) 2 (request_timeout_ms p)) o, false)
  else if named "-v" arg || named "--verbose" arg then Some (set_verbose o, false)
  else None.
Fixpoint parse_options (inet_pton : bytes → option Z) (args : list bytes) (o : options_t) : option options_t :=
  match args with
  | [] => Some o
  | arg :: rest =>
      '(o, taken) ← one_option inet_pton arg (head rest) o;
      match (taken : bool), rest with
      | true, _ :: rest => parse_options inet_pton rest o
      | _, _ => parse_options inet_pton rest o
      end
  end.
End LabServer.

(** * The policy server: its table, the isolation of its peers, its decisions *)

Import LabContract LabServer.

(** ** Reasoning about handlers *)

(** The result and the state a handler leaves. *)
Definition wp {A} (m : io A) (Q : A → server_t → Prop) (s : server_t) : Prop := Q (m s).1 (m s).2.
Lemma wp_bind {A B} (m : io A) (f : A → io B) Q s : wp m (λ a, wp (f a) Q) s → wp (m ≫= f) Q s.
Proof. unfold wp, mbind, io_bind. by destruct (m s). Qed.
Lemma wp_ret {A} (a : A) (Q : A → server_t → Prop) s : Q a s → wp (mret a) Q s.
Proof. done. Qed.
Lemma wp_mono {A} (m : io A) (Q Q' : A → server_t → Prop) s : wp m Q s → (∀ a s', Q a s' → Q' a s') → wp m Q' s.
Proof. unfold wp. auto. Qed.
Lemma wp_look {A} (f : server_t → A) (Q : A → server_t → Prop) s : Q (f s) s → wp (look f) Q s.
Proof. done. Qed.
Lemma wp_run {A} (m : io A) (Q : A → server_t → Prop) s a s' : wp m Q s → m s = (a, s') → Q a s'.
Proof. unfold wp. by intros H E; rewrite E in H. Qed.

(** What a handler of the peer at [a] does to the rest: it changes no slot, and
    the datagrams it sends, all to [a], are [out], or some of them when the server stops. *)
Record framed (a : address) (out : list bytes) (s s' : server_t) : Prop := {
  fr_clients : c s' = c s;
  fr_config : timeout_ms s' = timeout_ms s ∧ max_clients s' = max_clients s ∧ policy s' = policy s;
  fr_events : (events s <= events s')%nat;
  fr_tried : tried s' = tried s ++ ((λ d, (a, d)) <$> out);
  fr_sent : ∃ out', sent s' = sent s ++ ((λ d, (a, d)) <$> out') ∧ sublist out' out ∧ (running s' = true → out' = out);
  fr_running : running s' = true → running s = true }.
Lemma framed_refl a s : framed a [] s s.
Proof. split; try done; cbn; [by rewrite app_nil_r|]. exists []. by rewrite app_nil_r. Qed.
Lemma framed_trans a out1 out2 s1 s2 s3 : framed a out1 s1 s2 → framed a out2 s2 s3 → framed a (out1 ++ out2) s1 s3.
Proof.
  intros [C1 (T1 & M1 & P1) E1 W1 (o1 & S1 & L1 & R1) V1] [C2 (T2 & M2 & P2) E2 W2 (o2 & S2 & L2 & R2) V2].
  split; [congruence|split_and!; congruence|lia|by rewrite W2, W1, fmap_app, app_assoc| |auto]. exists (o1 ++ o2). rewrite S2, S1, fmap_app, app_assoc. split_and!; [done|by apply sublist_app|].
  intros Hr. rewrite R1, R2; auto.
Qed.
Lemma framed_tick a s : framed a [] s (tick s).
Proof. split; try done; cbn; [lia|by rewrite app_nil_r|]. exists []. by rewrite app_nil_r. Qed.

Abbreviation post := (nat → list bytes → client_t → Prop).

Section server.
Context `{Host}.

(** Handlers of a slot, from a state with the slots [l] and at least [n] events of
    the environment: by the events at the end, what they send and the slot they
    leave. *)
Definition handles (a : address) (l : list client_t) (n : nat) (m : io client_t) (Q : post) : Prop :=
  ∀ s, c s = l → (n <= events s)%nat → wp m (λ x s', ∃ out, framed a out s s' ∧ Q (events s') out x) s.

Context (a : address) (l : list client_t).
Lemma handles_mono n m (Q Q' : post) : handles a l n m Q → (∀ n' out x, Q n' out x → Q' n' out x) → handles a l n m Q'.
Proof. intros Hm HQ s Hc Hn. eapply wp_mono; [by apply Hm|]. intros x s' (out & ? & ?). exists out. auto. Qed.
Lemma handles_ret n x (Q : post) : (∀ n', (n <= n')%nat → Q n' [] x) → handles a l n (mret x) Q.
Proof. intros HQ s Hc Hn. apply wp_ret. exists []. split; [apply framed_refl|auto]. Qed.
(** A continuation run after [out] was sent. *)
Lemma handles_after n m s s1 out (Q Q' : post) : c s = l → (n <= events s1)%nat → framed a out s s1 →
  handles a l n m Q → (∀ n' out' y, Q n' out' y → Q' n' (out ++ out') y) →
  wp m (λ y s', ∃ out', framed a out' s s' ∧ Q' (events s') out' y) s1.
Proof.
  intros Hc Hn F Hm HQ. eapply wp_mono; [apply Hm; [|done]|].
  - by rewrite (fr_clients _ _ _ _ F).
  - intros y s2 (out' & F' & Hy). exists (out ++ out'). split; [eapply framed_trans; [exact F|exact F']|auto].
Qed.
Lemma handles_bind n m f (P Q : post) :
  handles a l n m P → (∀ n' out x, P n' out x → handles a l n' (f x) (λ n'' out' y, Q n'' (out ++ out') y)) → handles a l n (m ≫= f) Q.
Proof.
  intros Hm Hf s Hc Hn. apply wp_bind. eapply wp_mono; [by apply Hm|]. intros x s1 (out & F & HP).
  eapply handles_after; [done..|by apply Hf|done].
Qed.
Lemma handles_look {A} n (f : server_t → A) (g : A → io client_t) Q :
  (∀ s, c s = l → handles a l n (g (f s)) Q) → handles a l n (look f ≫= g) Q.
Proof. intros Hg s Hc Hn. apply wp_bind, wp_look. by apply Hg. Qed.
Lemma handles_event n (g : nat → io client_t) Q : (∀ k, (n <= k)%nat → handles a l (S k) (g k) Q) → handles a l n (event ≫= g) Q.
Proof.
  intros Hg s Hc Hn. apply wp_bind. unfold wp at 1. cbn [fst snd event].
  by eapply (handles_after (S (events s)) _ _ _ []); [done|done|apply framed_tick|apply Hg|].
Qed.
Lemma handles_now n (g : Z → io client_t) Q : (∀ t, handles a l n (g t) Q) → handles a l n (lab_now_ms ≫= g) Q.
Proof.
  intros Hg s Hc Hn. apply wp_bind. unfold lab_now_ms. apply wp_bind. unfold wp at 1. cbn [fst snd event]. apply wp_ret.
  by eapply (handles_after n _ _ _ []); [done|cbn; lia|apply framed_tick|apply Hg|].
Qed.
(** Sending: when the server still runs after it, the datagram has gone. *)
Lemma send_framed x wire s : wp (send_datagram x wire) (λ ok s', framed (addr x) [wire] s s') s.
Proof.
  unfold send_datagram, wp, mbind, io_bind, event, change. cbn [fst snd]. destruct (delivered (events s)); cbn.
  - split; try done; cbn; [lia|]. by exists [wire].
  - split; try done; cbn; [lia|]. exists []. rewrite app_nil_r. split_and!; [done|apply sublist_nil_l|done].
Qed.
Lemma handles_send n x wire (g : bool → io client_t) Q : addr x = a →
  (∀ ok, handles a l n (g ok) (λ n' out y, Q n' (wire :: out) y)) → handles a l n (send_datagram x wire ≫= g) Q.
Proof.
  intros Ha Hg s Hc Hn. apply wp_bind. eapply wp_mono; [apply send_framed|]. intros ok s1 F. rewrite Ha in F.
  eapply (handles_after n _ _ _ [wire]); [done| |done|apply Hg|done]. pose proof (fr_events _ _ _ _ F). lia.
Qed.
Lemma framed_counts w x y z s : framed a [] s (set_counts w x y z s).
Proof. split; try done; cbn; [by rewrite app_nil_r|]. exists []. by rewrite app_nil_r. Qed.
Lemma handles_counts n w x y z (g : io client_t) Q : handles a l n g Q →
  handles a l n (_ ← change (λ s, set_counts (w s) (x s) (y s) (z s) s); g) Q.
Proof.
  intros Hg s Hc Hn. apply wp_bind. unfold wp at 1. cbn.
  by eapply (handles_after n _ _ _ []); [done|done|apply framed_counts|exact Hg|].
Qed.
Lemma handles_rst n x reason msg (Q : post) : addr x = a →
  (∀ n', (n <= n')%nat → Q n' [rst_datagram x reason msg] (set_nrst (u32 (nrst x + 1)) x)) → handles a l n (send_rst x reason msg) Q.
Proof.
  intros Ha HQ. unfold send_rst. apply handles_send; [done|]. intros [].
  - apply handles_counts. by apply handles_ret.
  - by apply handles_ret.
Qed.
Lemma handles_ack n x (g : bool → io client_t) Q : addr x = a →
  (∀ ok, handles a l n (g ok) (λ n' out y, Q n' (ack_datagram x :: out) y)) → handles a l n (send_hello_ack x ≫= g) Q.
Proof.
  intros Ha Hg. unfold send_hello_ack. intros s Hc Hn. apply wp_bind, wp_bind. eapply wp_mono; [apply send_framed|].
  intros ok s1 F. rewrite Ha in F. pose proof (fr_events _ _ _ _ F).
  destruct ok; [apply wp_bind; unfold wp at 1; cbn|]; apply wp_ret.
  - eapply (handles_after n _ _ _ [ack_datagram x]); [done|cbn; lia| |apply Hg|done].
    change [ack_datagram x] with ([ack_datagram x] ++ []). eapply framed_trans; [exact F|apply framed_counts].
  - eapply (handles_after n _ _ _ [ack_datagram x]); [done|lia|exact F|apply Hg|done].
Qed.
End server.

(** ** What the datagrams of the server say *)

(** A decision that is not a rejection: its session, its sequence number, its
    status and its request. *)
Definition positive (d : bytes) : option (bytes * (Z * Z * Z)) :=
  h ← lab_hdr_parse d;
  if h_kind h =? LAB_DECISION then
    match lab_payload_parse (drop 16 d) LAB_DECISION with
    | Some (PDecision p) => if d_status p =? LAB_REJECTED then None else Some (d_session p, (h_seq h, d_status p, d_id p))
    | _ => None
    end
  else None.
Definition negative (d : bytes) : Prop := positive d = None.

Lemma positive_other kind seq l p : 0 <= kind < 256 → kind ≠ LAB_DECISION → negative (datagram kind seq l p).
Proof.
  intros Hk Hne. unfold negative, positive, datagram. destruct (lab_hdr_parse _) as [h|] eqn:E; [|done]. cbn.
  assert (h_kind h = kind) as ->; [|by apply Z.eqb_neq in Hne as ->].
  unfold lab_hdr_parse in E. repeat (case_match; [done|]). injection E as <-. cbn. by rewrite b2z_z2b_small.
Qed.
Lemma negative_rst x reason msg : negative (rst_datagram x reason msg).
Proof. by apply positive_other. Qed.
Lemma negative_ack x : negative (ack_datagram x).
Proof. by apply positive_other. Qed.
Lemma negative_pong p : negative (pong_datagram p).
Proof. by apply positive_other. Qed.
Lemma positive_decision x seq id status reason :
  length (session x) = 16%nat → is_u32 seq → is_u32 id → is_u32 status → is_u32 reason →
  positive (decision_datagram x seq id status reason) = if status =? LAB_REJECTED then None else Some (session x, (seq, status, id)).
Proof.
  intros Hs Hq Hi Ht Hr. unfold positive, decision_datagram, datagram.
  rewrite hdr_pack_parse by (unfold hdr_wf; cbn; split_and!; try done; unfold is_u8, is_u32, LAB_DECISION, LAB_DECISION_LEN; lia).
  cbn [mbind option_bind h_kind h_seq]. rewrite Z.eqb_refl. rewrite drop_app_length' by (unfold lab_hdr_pack; by rewrite !length_app, !length_le_encode).
  set (p := Decision (session x) id status reason).
  assert (Hp : lab_payload_parse (lab_payload_pack (PDecision p)) LAB_DECISION = Some (PDecision p)) by (apply (pack_parse (PDecision p)); by split_and!).
  by rewrite Hp.
Qed.

(** ** What a handler makes of a slot *)

(** The policy's answer, seen on the evidence before and after it. *)
Definition decides (e : lab_evidence_state_t) (status id : Z) (e' : lab_evidence_state_t) : Prop :=
  LabContract.session e' = LabContract.session e ∧ instance e' = instance e ∧
  ((status = LAB_PENDING ∧ last_request e < id ∧ last_request e' = id ∧ pending e' = true ∧ q_id (request e') = id) ∨
   (status = LAB_ACCEPTED ∧ pending e = true ∧ q_id (request e) = id ∧ pending e' = false ∧ last_request e' = last_request e)).
(** The slot of a session that goes on. *)
Definition goes_on (x y : client_t) : Prop :=
  used y = true ∧ state y = state x ∧ addr y = addr x ∧ session y = session x ∧ cnonce y = cnonce x.
Definition takes (x y : client_t) (seq : Z) : Prop := is_u32 seq ∧ lab_sequence_accept (sequence x) seq = (sequence y, LAB_OK).

(** From the slot [x] to [y], in the events from [n] to [n']: the positive decisions
    sent. *)
Inductive outcome `{Host} (l : list client_t) (n : nat) (x : client_t) (n' : nat) (y : client_t) : list (bytes * (Z * Z * Z)) → Prop :=
| Idles : used x = false → used y = false → outcome l n x n' y []
| Stays : used x = true → goes_on x y → evidence y = evidence x → sequence y = sequence x ∨ (∃ seq, takes x y seq) → outcome l n x n' y []
| Leaves : used x = true → y = zero_client → outcome l n x n' y []
| Opens k rnd : used x = false → (n <= k < n')%nat → random_bytes k = Some rnd → session y = take 16 rnd →
    used y = true → state y = ST_OPEN → addr y = addr x → sequence y = fresh_sequence → LabContract.session (evidence y) = session y →
    instance (evidence y) = cnonce y → pending (evidence y) = false → last_request (evidence y) = 0 →
    (∀ z, z ∈ l → used z = true → cnonce z ≠ cnonce y) → outcome l n x n' y []
| Decides seq status id : used x = true → goes_on x y → takes x y seq → decides (evidence x) status id (evidence y) →
    outcome l n x n' y [(session x, (seq, status, id))].

(** What the handlers establish: also, that they answer at most once. *)
Definition ends `{Host} (l : list client_t) (n : nat) (x : client_t) : post := λ n' out y,
  (length out <= 1)%nat ∧ outcome l n x n' y (omap positive out).
Lemma positives_nil out : Forall negative out → omap positive out = [].
Proof. induction 1 as [|d out Hd _ IH]; [done|]. cbn. by rewrite Hd. Qed.

Lemma ends_quiet `{Host} l n x n' out y : (length out <= 1)%nat → Forall negative out → outcome l n x n' y [] → ends l n x n' out y.
Proof. intros Hlen Hq O. split; [done|]. by rewrite positives_nil. Qed.
#[local] Hint Constructors Forall : core.
#[local] Hint Resolve negative_rst negative_ack negative_pong : core.

Section slot.
Context `{Host} (a : address) (l : list client_t) (n0 : nat) (x : client_t).
Notation ends := (ends l n0 x).
Hypothesis Ha : addr x = a.

Lemma rejected_used n y reason msg : used x = true → goes_on x y → evidence y = evidence x → sequence y = sequence x →
  handles a l n (send_rst y reason msg) ends.
Proof.
  intros Hu G He Hq. apply handles_rst; [destruct G as (_ & _ & G & _); congruence|]. intros n' _.
  apply ends_quiet; [done|auto|]. apply Stays; [done|exact G|exact He|by left].
Qed.
Lemma rejected_new n reason msg : used x = false → handles a l n (send_rst x reason msg) ends.
Proof.
  intros Hu. apply handles_rst; [done|]. intros n' _.
  apply ends_quiet; [done|auto|]. by apply Idles.
Qed.
(** A reset that ends the session. *)
Lemma reset_leaves n reason msg : used x = true → handles a l n (x ← send_rst x reason msg; mret (release_client x)) ends.
Proof.
  intros Hu. eapply handles_bind; [apply (handles_rst a l n x reason msg (λ n' out y, out = [rst_datagram x reason msg])); auto|].
  intros n' out y ->. apply handles_ret. intros n2 _. rewrite app_nil_r.
  apply ends_quiet; [done|auto|]. by apply Leaves.
Qed.
Lemma goes_on_refl : used x = true → goes_on x x.
Proof. done. Qed.
End slot.

(** ** The policy *)

Lemma common_range e p sid inst org cap class : is_u32 (common e p sid inst org cap class).
Proof. unfold common. repeat case_match; by vm_compute. Qed.
Lemma accept_range q seq : is_u32 (lab_sequence_accept q seq).2.
Proof. unfold lab_sequence_accept. repeat case_match; by vm_compute. Qed.
Lemma policy_request_OK e p r now e' reason : lab_policy_request e p r now = (e', reason) →
  is_u32 reason ∧ (reason = LAB_OK → decides e LAB_PENDING (q_id r) e').
Proof.
  unfold lab_policy_request. pose proof (common_range e p (q_session r) (q_instance r) (q_origin r) (q_capability r) (q_class r)) as Hc.
  intros E. destruct (common _ _ _ _ _ _ _ =? LAB_OK) eqn:E0; cbn in E.
  - destruct (negb _ || _) eqn:?; [by injection E as <- <-|]. destruct (_ <=? _) eqn:El; [by injection E as <- <-|].
    destruct (_ && _) eqn:?; [by injection E as <- <-|]. destruct (UINT64_MAX - now <? _); [by injection E as <- <-|].
    injection E as <- <-. split; [done|]. intros _. split_and!; [done..|]. left. cbn. bools. split_and!; try done.
  - injection E as <- <-. apply Z.eqb_neq in E0. split; [done|]. congruence.
Qed.
Lemma policy_observation_OK e p o now e' reason : lab_policy_observation e p o now = (e', reason) →
  is_u32 reason ∧ (reason = LAB_OK → decides e LAB_ACCEPTED (o_id o) e').
Proof.
  unfold lab_policy_observation. pose proof (common_range e p (o_session o) (o_instance o) (o_origin o) (o_capability o) (o_class o)) as Hc.
  intros E. destruct (common _ _ _ _ _ _ _ =? LAB_OK) eqn:E0; cbn in E.
  - destruct (negb (pending e) || _) eqn:Ep; [by injection E as <- <-|]. destruct (_ <=? _) eqn:El; [by injection E as <- <-|].
    destruct (negb _ || _ || _ || _ || _ || _ || _) eqn:?; [by injection E as <- <-|]. destruct (bad_data _ _) eqn:?; [by injection E as <- <-|].
    injection E as <- <-. split; [done|]. intros _. split_and!; [done..|]. right. cbn. bools. done.
  - injection E as <- <-. apply Z.eqb_neq in E0. split; [done|]. congruence.
Qed.
Definition answers (kind : Z) : Z := if kind =? LAB_REQUEST then LAB_PENDING else LAB_ACCEPTED.
Lemma decide_OK `{Host} x p kind pay m now e reason id : kind = LAB_REQUEST ∨ kind = LAB_OBSERVATION →
  lab_payload_parse pay kind = Some m → decide_evidence x p m now = (e, reason, id) →
  is_u32 reason ∧ is_u32 id ∧ (reason = LAB_OK → decides (evidence x) (answers kind) id e).
Proof.
  intros [-> | ->] Em E; unfold lab_payload_parse, lab_evidence_parse in Em; cbn in Em; (destruct (negb _); [done|]);
    injection Em as <-; cbn [decide_evidence] in E.
  - destruct (lab_policy_request _ _ _ _) as [e1 r1] eqn:Er. injection E as <- <- <-. apply policy_request_OK in Er as [Hr Hd].
    split_and!; [done|apply (get32_range pay 16)|done].
  - destruct (lab_policy_observation _ _ _ _) as [e1 r1] eqn:Er. injection E as <- <- <-. apply policy_observation_OK in Er as [Hr Hd].
    split_and!; [done|apply (get32_range pay 16)|done].
Qed.

(** ** The handlers *)

Section handlers.
Context `{Host} (a : address) (l : list client_t) (n0 : nat) (x : client_t).
Notation ends := (ends l n0 x).
Hypothesis Ha : addr x = a.

Section used.
Hypothesis Hu : used x = true.
Hypothesis Hs : length (session x) = 16%nat.

Lemma rejects n reason msg : handles a l n (send_rst x reason msg) ends.
Proof. by apply rejected_used. Qed.
Lemma stays n : handles a l n (mret x) ends.
Proof. apply handles_ret. intros n' _. apply ends_quiet; [apply Nat.le_0_l|done|]. apply Stays; [done|by apply goes_on_refl|done|by left]. Qed.
Lemma refuses n seq id reason : is_u32 seq → is_u32 id → is_u32 reason →
  handles a l n (_ ← send_datagram x (decision_datagram x seq id LAB_REJECTED reason);
    mret (if reason =? LAB_CLOSING then release_client x else x)) ends.
Proof.
  intros Hq Hi Hr. apply handles_send; [done|]. intros ok. apply handles_ret. intros n' _.
  apply ends_quiet; [done|constructor; [unfold negative; by rewrite positive_decision|done]|].
  case_match; [by apply Leaves|]. apply Stays; [done|by apply goes_on_refl|done|by left].
Qed.
Lemma do_evidence_ends n h pay : hdr_wf h → h_kind h = LAB_REQUEST ∨ h_kind h = LAB_OBSERVATION →
  handles a l n (do_evidence x h pay) ends.
Proof.
  intros (_ & _ & _ & _ & Hq & _) Hk. unfold do_evidence.
  destruct (lab_payload_parse pay (h_kind h)) as [m|] eqn:Em; [|apply stays].
  apply handles_look. intros s _. apply handles_now. intros now.
  destruct (decide_evidence x (policy s) m now) as [[e reason] id] eqn:Ed.
  apply (decide_OK x (policy s) (h_kind h) pay) in Ed as (Hr & Hi & Hd); [|done..].
  pose proof (accept_range (sequence x) (h_seq h)) as Har.
  destruct (reason =? LAB_OK) eqn:E0; [|rewrite E0; by apply refuses].
  apply Z.eqb_eq in E0 as ->. specialize (Hd eq_refl).
  destruct (lab_sequence_accept (sequence x) (h_seq h)) as [q reason] eqn:Eq. cbn [snd] in Har.
  destruct (reason =? LAB_OK) eqn:E1; [|by apply refuses].
  apply Z.eqb_eq in E1 as ->.
  change (handles a l n (rx ← lab_now_ms;
    _ ← send_datagram (set_evidence q e rx x) (decision_datagram (set_evidence q e rx x) (h_seq h) id (answers (h_kind h)) LAB_OK);
    mret (set_evidence q e rx x)) ends).
  apply handles_now. intros rx.
  apply handles_send; [done|]. intros ok. apply handles_ret. intros n' _. split; [done|]. cbn [omap list_omap].
  rewrite positive_decision; [|done..|unfold answers; by case_match|done].
  replace (answers (h_kind h) =? LAB_REJECTED) with false by (unfold answers; by case_match).
  by apply (Decides l n0 x n' (set_evidence q e rx x) (h_seq h) (answers (h_kind h)) id).
Qed.
Lemma do_ping_ends n h pay : hdr_wf h → handles a l n (do_ping x h pay) ends.
Proof.
  intros (_ & _ & _ & _ & Hq & _). unfold do_ping.
  destruct (lab_payload_parse pay LAB_PING) as [[]|]; try apply stays.
  destruct (negb _); [apply rejects|].
  destruct (lab_sequence_accept (sequence x) (h_seq h)) as [q reason] eqn:Eq.
  destruct (reason =? LAB_OK) eqn:E1; cbn [negb].
  - apply Z.eqb_eq in E1 as ->. apply handles_now. intros rx. apply handles_send; [done|]. intros ok. apply handles_ret.
    intros n' _. apply ends_quiet; [done|auto|]. apply Stays; [done|done|done|].
    right. by exists (h_seq h).
  - destruct (reason =? LAB_CLOSING) eqn:E2; [by apply reset_leaves|]. apply Z.eqb_neq in E2.
    eapply handles_bind; [apply (handles_rst a l n x reason _ (λ n' out y, out = [rst_datagram x reason (lab_reason_name reason)] ∧
      y = set_nrst (u32 (nrst x + 1)) x)); auto|].
    intros n' out y [-> ->]. apply handles_ret. intros n2 _. rewrite app_nil_r.
    apply ends_quiet; [done|auto|]. by apply Stays; [|done|done|left].
Qed.
Lemma do_open_ends n dat : handles a l n (do_open x dat) ends.
Proof.
  unfold do_open. destruct (_ <? _); [apply rejects|]. destruct (lab_hdr_parse dat) as [h|] eqn:Eh; [|apply rejects].
  apply hdr_parse_pack in Eh as (_ & Hh & _).
  destruct (negb _); [apply rejects|]. destruct (negb _); [apply rejects|].
  destruct (negb _ || _); [apply rejects|]. destruct (negb _); [apply rejects|].
  destruct (h_kind h =? LAB_HELLO).
  { destruct (_ && _); [|apply rejects]. apply handles_ack; [done|]. intros ok. apply handles_ret. intros n' _.
    apply ends_quiet; [done|auto|]. apply Stays; [done|by apply goes_on_refl|done|by left]. }
  destruct ((h_kind h =? LAB_REQUEST) || (h_kind h =? LAB_OBSERVATION)) eqn:Ek.
  { apply do_evidence_ends; [done|]. apply orb_true_iff in Ek as [?%Z.eqb_eq|?%Z.eqb_eq]; auto. }
  destruct (_ || _ || _); [apply rejects|]. destruct (h_kind h =? LAB_PING).
  { destruct (_ <? _); [apply rejects|]. destruct (_ <? _); [apply rejects|]. by apply do_ping_ends. }
  destruct (h_kind h =? LAB_BYE).
  { destruct (negb _ || _); [apply rejects|]. destruct (negb _); [apply rejects|]. by apply reset_leaves. }
  destruct (h_kind h =? LAB_RST); [|apply rejects].
  destruct (negb _ || _); [apply rejects|]. destruct (lab_payload_parse _ LAB_RST) as [[]|]; try apply stays.
  destruct (negb _); [apply rejects|]. destruct (_ <? _); [apply rejects|]. by apply reset_leaves.
Qed.
End used.

(** A slot without session, as [recvfrom] leaves it. *)
Section unused.
Hypothesis Hx : x = set_addr a zero_client.
Let Hu : used x = false.
Proof. by rewrite Hx. Qed.

Lemma rejects_new n reason msg : handles a l n (send_rst x reason msg) ends.
Proof. by apply rejected_new. Qed.
Lemma idle n : handles a l n (mret x) ends.
Proof. apply handles_ret. intros n' _. apply ends_quiet; [apply Nat.le_0_l|done|]. by apply Idles. Qed.
Lemma do_hello_ends n pay : (n0 <= n)%nat → handles a l n (do_hello x pay) ends.
Proof.
  intros Hn. unfold do_hello. destruct (negb _); [apply rejects_new|].
  destruct (lab_payload_parse pay LAB_HELLO) as [[p| | | | | | | |]|]; try apply idle.
  destruct (negb _); [apply rejects_new|]. destruct (_ || _); [apply rejects_new|].
  destruct (negb _); [apply rejects_new|]. destruct (negb _); [apply rejects_new|].
  apply handles_look. intros s Hl. destruct (existsb _ (c s)) eqn:Et; [apply rejects_new|].
  apply handles_event. intros k Hk. destruct (random_bytes k) as [rnd|] eqn:Er; [|apply rejects_new].
  apply handles_ack; [done|]. intros [].
  - apply handles_now. intros now. apply handles_ret. intros n' Hn'. apply ends_quiet; [done|auto|].
    apply (Opens _ _ _ _ _ k rnd); try done; [lia|by rewrite Hx..|]. intros z Hz Huz Hc. rewrite Hl in Et.
    apply not_true_iff_false in Et. apply Et, existsb_exists. exists z. split; [by apply list_elem_of_In|].
    rewrite Huz. by apply bool_decide_eq_true.
  - apply handles_ret. intros n' Hn'. apply ends_quiet; [done|auto|]. by apply Idles.
Qed.
Lemma do_new_ends n dat : (n0 <= n)%nat → handles a l n (do_new x dat) ends.
Proof.
  intros Hn. unfold do_new. destruct (_ || _); [apply rejects_new|]. do 3 (destruct (negb _); [apply rejects_new|]).
  destruct (lab_hdr_parse dat); [|apply rejects_new]. destruct (negb _); [apply rejects_new|].
  destruct (_ || _); [apply rejects_new|]. by apply do_hello_ends.
Qed.
End unused.
End handlers.
