(* ===== verification/LabServerTheorems.v ===== *)
(** * The policy server: its table, the isolation of its peers, its decisions *)

From S2P Require Import Prelude Bytes LabContract LabServer.
Import LabContract LabServer.

(** ** The dialogue of a session

    What the positive decisions of one session may be: a request is admitted with a
    greater identifier than all those before it; an observation is accepted as the
    answer to the last admitted request, once; no sequence number serves twice. *)
Record dialogue := Dialogue { latest : Z; waiting : bool; numbers : list Z }.
Definition silence : dialogue := Dialogue 0 false [].
Definition say (d : option dialogue) (m : Z * Z * Z) : option dialogue :=
  d ← d;
  let '(seq, status, id) := m in
  if bool_decide (seq ∈ numbers d) then None
  else if status =? LAB_PENDING then if latest d <? id then Some (Dialogue id true (seq :: numbers d)) else None
  else if (status =? LAB_ACCEPTED) && waiting d && (id =? latest d) then Some (Dialogue id false (seq :: numbers d))
  else None.
Definition dialogue_of (l : list (Z * Z * Z)) : option dialogue := foldl say (Some silence) l.
Definition of_session (sid : bytes) (d : bytes * (Z * Z * Z)) : option (Z * Z * Z) := if decide (d.1 = sid) then Some d.2 else None.
(** The positive decisions of a session among the datagrams sent. *)
Definition decisions (sid : bytes) (l : list (address * bytes)) : list (Z * Z * Z) :=
  omap (of_session sid) (omap (λ m, positive m.2) l).

Lemma decisions_app sid l k : decisions sid (l ++ k) = decisions sid l ++ decisions sid k.
Proof. unfold decisions. by rewrite !omap_app. Qed.
Lemma decisions_sent sid a out : decisions sid ((λ d, (a, d)) <$> out) = omap (of_session sid) (omap positive out).
Proof. unfold decisions. f_equal. induction out as [|d out IH]; [done|]. cbn. by rewrite IH. Qed.
Lemma dialogue_app l k : dialogue_of (l ++ k) = foldl say (dialogue_of l) k.
Proof. apply foldl_app. Qed.

Lemma sublist_omap {A B} (f : A → option B) l k : sublist l k → sublist (omap f l) (omap f k).
Proof.
  induction 1 as [|x l k _ IH|x l k _ IH]; cbn; [constructor|destruct (f x); [by constructor|done]..].
Qed.

(** ** Slots in use *)

(** No two slots in use agree on [f]. *)
Definition distinct {A} (f : client_t → A) (l : list client_t) : Prop :=
  ∀ i j x y, l !! i = Some x → l !! j = Some y → used x = true → used y = true → f x = f y → i = j.
Lemma distinct_insert {A} (f : client_t → A) l i y : distinct f l →
  (used y = true → ∀ j z, j ≠ i → l !! j = Some z → used z = true → f z ≠ f y) → distinct f (<[i := y]> l).
Proof.
  intros D Hy j k z w Hj Hk Hz Hw E.
  apply list_lookup_insert_Some in Hj as [(<- & <- & _)|[Hji Hj]], Hk as [(<- & <- & _)|[Hki Hk]]; [done|..|by eapply D].
  - destruct (Hy Hz k w); auto.
  - destruct (Hy Hw j z); auto.
Qed.
Lemma distinct_same {A} (f : client_t → A) l i x y : distinct f l → l !! i = Some x → used x = true → f y = f x → distinct f (<[i := y]> l).
Proof.
  intros D Hx Hu Hf. apply distinct_insert; [done|]. intros _ j z Hji Hj Hz E. apply Hji. by eapply (D j i z x); [..|rewrite E].
Qed.
Lemma distinct_gone {A} (f : client_t → A) l i y : distinct f l → used y = false → distinct f (<[i := y]> l).
Proof. intros D Hy. apply distinct_insert; [done|]. intros Hy2. congruence. Qed.

Definition in_use (l : list client_t) : nat := length (filter (λ x, used x = true) l).
Lemma in_use_insert l i x y : l !! i = Some x →
  (in_use (<[i := y]> l) + Nat.b2n (used x) = in_use l + Nat.b2n (used y))%nat.
Proof.
  unfold in_use. revert i. induction l as [|z l IH]; intros [|i] Hi; try done; cbn [lookup list_lookup] in Hi.
  - injection Hi as ->. cbn [insert list_insert]. rewrite !filter_cons. destruct (used x) eqn:Ex, (used y) eqn:Ey; repeat case_decide; cbn; try done; lia.
  - change (<[S i := y]> (z :: l)) with (z :: <[i := y]> l). rewrite !filter_cons. apply IH in Hi. case_decide; cbn [length]; lia.
Qed.

Section server.
Context `{Host} (N M : nat).

(** [getrandom] fills its buffer; over the first [N] events no session identifier
    comes twice. *)
Definition full_draws : Prop := ∀ k rnd, random_bytes k = Some rnd → length rnd = 32%nat.
Definition fresh_draws : Prop := ∀ i j x y, (i < N)%nat → (j < N)%nat →
  random_bytes i = Some x → random_bytes j = Some y → take 16 x = take 16 y → i = j.
Definition drawn (n : nat) (sid : bytes) : Prop := ∃ k rnd, (k < n)%nat ∧ random_bytes k = Some rnd ∧ sid = take 16 rnd.

(** A session and the dialogue it has had. *)
Record in_session (s : server_t) (x : client_t) : Prop := {
  se_state : state x = ST_OPEN;
  se_drawn : drawn (events s) (session x);
  se_evidence : LabContract.session (evidence x) = session x ∧ instance (evidence x) = cnonce x;
  se_request : pending (evidence x) = true → q_id (request (evidence x)) = last_request (evidence x) }.
Definition relates (x : client_t) (d : dialogue) : Prop :=
  latest d = last_request (evidence x) ∧ waiting d = pending (evidence x) ∧
  ∃ accepted, ring (sequence x) accepted ∧ ∀ q, q ∈ numbers d → q ∈ accepted.

Record table (s : server_t) : Prop := {
  ta_size : length (c s) = MAX_CLIENTS;
  ta_max : (in_use (c s) <= max_clients s)%nat;
  ta_limit : max_clients s = M;
  ta_sessions : ∀ i x, c s !! i = Some x → used x = true → in_session s x;
  ta_addresses : distinct addr (c s);
  ta_nonces : distinct cnonce (c s) }.
Record story (s : server_t) : Prop := {
  st_all : ∀ sid, is_Some (dialogue_of (decisions sid (tried s)));
  st_drawn : ∀ sid, decisions sid (tried s) ≠ [] → drawn (events s) sid;
  st_slots : ∀ i x, c s !! i = Some x → used x = true → ∃ d, dialogue_of (decisions (session x) (tried s)) = Some d ∧ relates x d }.
(** What is sent, of what the server means to send. *)
Definition sends (s : server_t) : Prop := sublist (sent s) (tried s) ∧ (running s = true → sent s = tried s).
Definition sound (s : server_t) : Prop :=
  table s ∧ sends s ∧ ((events s <= N)%nat → distinct session (c s) ∧ story s).

(** ** One slot changes *)

Lemma drawn_mono n n' sid : (n <= n')%nat → drawn n sid → drawn n' sid.
Proof. intros Hn (k & rnd & ? & ?). exists k, rnd. split; [lia|done]. Qed.
Lemma in_session_mono s s' x : (events s <= events s')%nat → in_session s x → in_session s' x.
Proof. intros Hn [? ? ? ?]. split; [done|by eapply drawn_mono|done..]. Qed.

(** The slot [i] that [f] is given: its own, or a free one for a new peer. *)
Definition seat (s : server_t) (i : nat) (a : address) (x x0 : client_t) : Prop :=
  c s !! i = Some x ∧
  ((used x = true ∧ x0 = x ∧ addr x = a) ∨
   (used x = false ∧ used x0 = false ∧ addr x0 = a ∧ (in_use (c s) < max_clients s)%nat ∧
    ∀ z, z ∈ c s → used z = true → addr z ≠ a)).
Lemma seat_used s i a x x0 : seat s i a x x0 → used x0 = true → used x = true ∧ x0 = x ∧ addr x = a.
Proof. intros [_ [?|(_ & ? & _)]] Hu; [done|congruence]. Qed.
Lemma seat_free s i a x x0 : seat s i a x x0 → used x0 = false →
  used x = false ∧ addr x0 = a ∧ (in_use (c s) < max_clients s)%nat ∧ ∀ z, z ∈ c s → used z = true → addr z ≠ a.
Proof. intros [_ [(? & -> & _)|(? & ? & ? & ?)]] Hu; [congruence|done]. Qed.

Section step.
Context (a : address) (out : list bytes) (s s1 : server_t) (i : nat) (x x0 y : client_t).
Hypothesis F : framed a out s s1.
Hypothesis Hseat : seat s i a x x0.
Notation s' := (set_clients (<[i := y]> (c s)) s1).
Let Hi : c s !! i = Some x := proj1 Hseat.

Lemma table_keep : table s → (used y = true → in_session s' y) → used y = used x ∨ used y = false →
  distinct addr (<[i := y]> (c s)) → distinct cnonce (<[i := y]> (c s)) → table s'.
Proof.
  intros [T1 T2 TM T3 _ _] Hy Hu D1 D2. pose proof (in_use_insert _ _ _ y Hi). destruct (fr_config _ _ _ _ F) as (_ & Hm & _).
  split; try done; cbn [c set_clients max_clients]; [| |by rewrite Hm|].
  - by rewrite length_insert.
  - rewrite Hm. destruct Hu as [Hu|Hu]; rewrite Hu in *; cbn [Nat.b2n] in *; lia.
  - intros j z [(<- & <- & _)|[? Hz]]%list_lookup_insert_Some Huz; [auto|].
    eapply in_session_mono; [apply (fr_events _ _ _ _ F)|by eapply T3].
Qed.
Lemma table_leaves : table s → used y = false → table s'.
Proof. intros T Hy. apply table_keep; [done|congruence|by right|..]; apply distinct_gone; auto using ta_addresses, ta_nonces. Qed.
Lemma table_goes_on : table s → used x = true → goes_on x y →
  LabContract.session (evidence y) = LabContract.session (evidence x) ∧ instance (evidence y) = instance (evidence x) →
  (pending (evidence y) = true → q_id (request (evidence y)) = last_request (evidence y)) → table s'.
Proof.
  intros T Hu (Gu & Gs & Ga & Gi & Gc) [He He'] Hq. destruct (ta_sessions s T i x Hi Hu) as [X1 X2 [X3 X3'] _].
  apply table_keep; [done| |left; congruence|..].
  - intros _. split; [congruence| |split; congruence|done]. rewrite Gi. eapply drawn_mono; [|done]. apply (fr_events _ _ _ _ F).
  - by eapply distinct_same; [apply ta_addresses|..].
  - by eapply distinct_same; [apply ta_nonces|..].
Qed.
Lemma table_opens n' k rnd : table s → used x0 = false → (events s <= k < n')%nat → n' = events s1 → random_bytes k = Some rnd →
  session y = take 16 rnd → used y = true → state y = ST_OPEN → addr y = addr x0 → LabContract.session (evidence y) = session y →
  instance (evidence y) = cnonce y → pending (evidence y) = false → (∀ z, z ∈ c s → used z = true → cnonce z ≠ cnonce y) → table s'.
Proof.
  intros T Hu0 Hk -> Er Es Hu Ht Ha He Hc Hp Hfresh. destruct (seat_free _ _ _ _ _ Hseat Hu0) as (Hu1 & Ha0 & Hm & Haddr).
  pose proof (in_use_insert _ _ _ y Hi) as Hcount. rewrite Hu1, Hu in Hcount. cbn [Nat.b2n] in Hcount.
  destruct (fr_config _ _ _ _ F) as (_ & Hmax & _). pose proof T as [T1 T2 TM T3 T4 T5]. split; cbn [c set_clients max_clients].
  - by rewrite length_insert.
  - rewrite Hmax. lia.
  - by rewrite Hmax.
  - intros j z [(<- & <- & _)|[? Hz]]%list_lookup_insert_Some Huz.
    + split; [done| |done|congruence]. exists k, rnd. cbn. split; [lia|done].
    + eapply in_session_mono; [apply (fr_events _ _ _ _ F)|by eapply T3].
  - apply distinct_insert; [done|]. intros _ j z _ Hj Hz. rewrite Ha, Ha0. apply Haddr; [by eapply list_elem_of_lookup_2|done].
  - apply distinct_insert; [done|]. intros _ j z _ Hj Hz. apply Hfresh; [by eapply list_elem_of_lookup_2|done].
Qed.
Lemma table_step : table s → outcome (c s) (events s) x0 (events s1) y (omap positive out) → table s'.
Proof.
  intros T O.
  destruct O as [Hu Hu'|Hu G He Hq|Hu Hy|k rnd Hu Hk Er Es Hu' Ht Ha Hq He Hc Hp Hl Hfresh|seq status id Hu G Hq (He & Hc & Hd)].
  - by apply table_leaves.
  - destruct (seat_used _ _ _ _ _ Hseat Hu) as (Hx & Hx0 & _). rewrite Hx0 in G, He. apply table_goes_on; [done..|by rewrite He|].
    rewrite He. by eapply se_request, ta_sessions.
  - apply table_leaves; [done|by rewrite Hy].
  - by eapply table_opens.
  - destruct (seat_used _ _ _ _ _ Hseat Hu) as (Hx & Hx0 & _). rewrite Hx0 in G, He, Hc, Hd. apply table_goes_on; [done..|].
    intros Hp. destruct Hd as [(_ & _ & Hl & _ & Hid)|(_ & _ & _ & Hn & _)]; congruence.
Qed.
End step.

Lemma ring_takes x y seq accepted : takes x y seq → ring (sequence x) accepted → ring (sequence y) (seq :: accepted) ∧ seq ∉ accepted.
Proof.
  intros [Hq E] R. apply (ring_accept _ _ seq) in R; [|unfold is_u32, UINT32_MAX in *; lia]. rewrite E in R. destruct R as [Hadm R].
  rewrite <- Hadm in R. split; [exact R|]. unfold admissible in Hadm. symmetry in Hadm. cbn in Hadm.
  apply andb_true_iff in Hadm as [_ Hni]. by apply negb_true_iff, bool_decide_eq_false in Hni.
Qed.
Lemma relates_takes x y d : evidence y = evidence x → sequence y = sequence x ∨ (∃ seq, takes x y seq) → relates x d → relates y d.
Proof.
  intros He Hq (Hl & Hw & accepted & R & Hd). split_and!; [congruence..|]. destruct Hq as [->|[seq Hq]]; [by exists accepted|].
  exists (seq :: accepted). split; [by eapply ring_takes|]. intros q Hin. apply list_elem_of_further. auto.
Qed.
Lemma relates_decides x y d seq status id : (pending (evidence x) = true → q_id (request (evidence x)) = last_request (evidence x)) →
  takes x y seq → decides (evidence x) status id (evidence y) → relates x d →
  ∃ d', say (Some d) (seq, status, id) = Some d' ∧ relates y d'.
Proof.
  intros Hp Hq (_ & _ & Hd) (Hl & Hw & accepted & R & Hn). destruct (ring_takes _ _ _ _ Hq R) as [R' Hni].
  assert (Hin : seq ∉ numbers d) by eauto.
  assert (Hsub : ∀ q, q ∈ seq :: numbers d → q ∈ seq :: accepted) by (intros q [->|?]%elem_of_cons; [apply list_elem_of_here|apply list_elem_of_further; auto]).
  cbn [say mbind option_bind]. rewrite (bool_decide_eq_false_2 _ Hin). destruct Hd as [(-> & Hlt & Hid & Hpe & _)|(-> & Hpx & Hid & Hpy & Hla)].
  - cbn. rewrite Hl. destruct (Z.ltb_spec (last_request (evidence x)) id); [|lia].
    exists (Dialogue id true (seq :: numbers d)). split; [done|]. split_and!; [done..|]. by exists (seq :: accepted).
  - cbn. rewrite Hw, Hpx, Hl. rewrite <- Hid, (Hp Hpx), Z.eqb_refl.
    exists (Dialogue (last_request (evidence x)) false (seq :: numbers d)). split; [done|]. split_and!; [done..|]. by exists (seq :: accepted).
Qed.

Section chronicle.
Context (a : address) (out : list bytes) (s s1 : server_t) (i : nat) (x x0 y : client_t).
Hypothesis F : framed a out s s1.
Hypothesis Hseat : seat s i a x x0.
Notation s' := (set_clients (<[i := y]> (c s)) s1).
Hypothesis Hdraws : fresh_draws.
Hypothesis HN : (events s1 <= N)%nat.

Lemma ids_step : table s → distinct session (c s) → outcome (c s) (events s) x0 (events s1) y (omap positive out) → distinct session (<[i := y]> (c s)).
Proof.
  intros T D O. pose proof (proj1 Hseat) as Hi.
  destruct O as [Hu Hu'|Hu G _ _|Hu Hy|k rnd Hu Hk Er Es Hu' _ _ _ _ _ _ _ _|seq status id Hu G _ _];
    [by apply distinct_gone| |apply distinct_gone; [done|by rewrite Hy]| |].
  1, 3: destruct (seat_used _ _ _ _ _ Hseat Hu) as (Hx & Hx0 & _); rewrite Hx0 in G; destruct G as (_ & _ & _ & G & _); by eapply distinct_same.
  apply distinct_insert; [done|]. intros _ j z _ Hj Hz. destruct (se_drawn _ _ (ta_sessions s T j z Hj Hz)) as (k' & rnd' & Hk' & Er' & ->).
  rewrite Es. intros E. assert (k' = k); [|lia]. eapply Hdraws; [| |exact Er'|exact Er|done]; lia.
Qed.
Lemma decisions_after sid : decisions sid (tried s1) = decisions sid (tried s) ++ omap (of_session sid) (omap positive out).
Proof. by rewrite (fr_tried _ _ _ _ F), decisions_app, decisions_sent. Qed.
Lemma sends_step : sends s → sends s1.
Proof.
  intros [Hs Hr]. destruct (fr_sent _ _ _ _ F) as (out' & Es & Hsub & Ho). unfold sends. rewrite (fr_tried _ _ _ _ F), Es. split.
  - apply sublist_app; [done|]. by apply fmap_sublist.
  - intros R. by rewrite (Ho R), (Hr (fr_running _ _ _ _ F R)).
Qed.
(** Nothing positive said: only the slot matters. *)
Lemma story_quiet : story s → omap positive out = [] →
  (used y = true → ∃ d, dialogue_of (decisions (session y) (tried s)) = Some d ∧ relates y d) → story s'.
Proof.
  intros [S1 S2 S3] Hq Hy. assert (Hd : ∀ sid, decisions sid (tried s1) = decisions sid (tried s)) by (intros sid; by rewrite decisions_after, Hq, app_nil_r).
  split; cbn [c set_clients tried events].
  - intros sid. by rewrite Hd.
  - intros sid. rewrite Hd. intros Hne%S2. eapply drawn_mono; [apply (fr_events _ _ _ _ F)|done].
  - intros j z [(<- & <- & _)|[? Hz]]%list_lookup_insert_Some Huz; rewrite Hd; [auto|by eapply S3].
Qed.
Lemma story_step : table s → distinct session (c s) → story s → outcome (c s) (events s) x0 (events s1) y (omap positive out) → story s'.
Proof.
  intros T D Hst O. pose proof Hst as [S1 S2 S3]. pose proof (proj1 Hseat) as Hi. remember (omap positive out) as said eqn:Eo.
  destruct O as [Hu Hu'|Hu G He Hq|Hu Hy|k rnd Hu Hk Er Es Hu' Ht Ha Hq He Hc Hp Hl Hfresh|seq status id Hu G Hq Hd].
  - apply story_quiet; [done..|congruence].
  - destruct (seat_used _ _ _ _ _ Hseat Hu) as (Hx & Hx0 & _). rewrite Hx0 in *. apply story_quiet; [done..|]. intros _.
    destruct (S3 i x Hi Hx) as (d & Ed & Rd). destruct G as (_ & _ & _ & -> & _). exists d. split; [done|by eapply relates_takes].
  - apply story_quiet; [done..|by rewrite Hy].
  - apply story_quiet; [done..|]. intros _. exists silence. split.
    + destruct (decisions (session y) (tried s)) eqn:E; [done|]. destruct (S2 (session y)) as (k' & rnd' & Hk' & Er' & Es'); [by rewrite E|].
      assert (k' = k); [|lia]. eapply Hdraws; [| |exact Er'|exact Er|congruence]; lia.
    + split_and!; [by rewrite Hl|by rewrite Hp|]. exists []. rewrite Hq. split; [apply ring_fresh|done].
  - destruct (seat_used _ _ _ _ _ Hseat Hu) as (Hx & Hx0 & _). rewrite Hx0 in *.
    destruct (S3 i x Hi Hx) as (d & Ed & Rd). pose proof (ta_sessions s T i x Hi Hx) as X.
    destruct (relates_decides x y d seq status id) as (d' & Ed' & Rd'); [by apply (se_request _ _ X)|done..|].
    destruct G as (_ & _ & _ & Gs & _).
    assert (Hx' : dialogue_of (decisions (session x) (tried s1)) = Some d').
    { rewrite decisions_after, <- Eo, dialogue_app, Ed. cbn [omap list_omap of_session fst snd]. unfold of_session. by rewrite decide_True. }
    assert (Hother : ∀ sid, sid ≠ session x → decisions sid (tried s1) = decisions sid (tried s)).
    { intros sid Hne. rewrite decisions_after, <- Eo. cbn. unfold of_session. cbn. rewrite decide_False by congruence. apply app_nil_r. }
    split; cbn [c set_clients tried events].
    + intros sid. destruct (decide (sid = session x)) as [->|Hne]; [by rewrite Hx'|by rewrite Hother].
    + intros sid Hsid. eapply drawn_mono; [apply (fr_events _ _ _ _ F)|]. destruct (decide (sid = session x)) as [->|Hne]; [apply (se_drawn _ _ X)|].
      rewrite Hother in Hsid by done. auto.
    + intros j z [(<- & <- & _)|[Hne Hz]]%list_lookup_insert_Some Huz; [rewrite Gs; eauto|].
      rewrite Hother; [by eapply S3|]. intros E. apply Hne. symmetry. by eapply D.
Qed.
End chronicle.

Lemma sound_step a out s s1 i x x0 y : fresh_draws → framed a out s s1 → seat s i a x x0 →
  outcome (c s) (events s) x0 (events s1) y (omap positive out) → sound s → sound (set_clients (<[i := y]> (c s)) s1).
Proof.
  intros Hd F Hseat O (T & W & Hs). split; [by eapply table_step|]. split; [by eapply (sends_step a out s s1)|].
  cbn [events set_clients c]. intros HN.
  pose proof (fr_events _ _ _ _ F). destruct Hs as [D S]; [lia|]. split; [by eapply ids_step|]. by eapply story_step.
Qed.

(** ** The whole server *)

Section whole.
Hypothesis Hfull : full_draws.
Hypothesis Hfresh : fresh_draws.
Definition grows (s s' : server_t) : Prop := sound s' ∧ (events s <= events s')%nat.
Definition keeps {A} (m : io A) : Prop := ∀ s, sound s → wp m (λ _, grows s) s.

Lemma keeps_ret {A} (v : A) : keeps (mret v).
Proof. by intros s Hs. Qed.
Lemma keeps_bind {A B} (m : io A) (f : A → io B) : keeps m → (∀ v, keeps (f v)) → keeps (m ≫= f).
Proof.
  intros Hm Hf s Hs. apply wp_bind. eapply wp_mono; [by apply Hm|]. intros v s1 [Hs1 E1].
  eapply wp_mono; [by apply Hf|]. intros w s2 [Hs2 E2]. split; [done|lia].
Qed.
Lemma keeps_look {A} (f : server_t → A) : keeps (look f).
Proof. by intros s Hs. Qed.
(** What sends nothing positive and changes no slot. *)
Lemma sound_quiet a out s s1 : framed a out s s1 → omap positive out = [] → sound s → grows s s1.
Proof.
  intros F Hq ([T1 T2 TM T3 T4 T5] & W & Hs). pose proof (fr_clients _ _ _ _ F) as Hc. pose proof (fr_events _ _ _ _ F) as Hev.
  destruct (fr_config _ _ _ _ F) as (_ & Hm & _). split; [|exact Hev]. split.
  - split; rewrite ?Hc, ?Hm; try done. intros i x Hx Hu. eapply in_session_mono; [exact Hev|by eapply T3].
  - split; [by apply (sends_step a out s s1 F)|]. rewrite Hc. intros HN. destruct Hs as [D [S1 S2 S3]]; [lia|]. split; [done|].
    assert (Hd : ∀ sid, decisions sid (tried s1) = decisions sid (tried s)).
    { intros sid. by rewrite (decisions_after a out s s1 F), Hq, app_nil_r. }
    split; setoid_rewrite Hd; [done| |by rewrite Hc]. intros sid Hne%S2. by eapply drawn_mono.
Qed.
Lemma keeps_counts w x y z : keeps (change (λ s, set_counts (w s) (x s) (y s) (z s) s)).
Proof. intros s Hs. apply (sound_quiet (Address 0 0) [] s); [apply framed_counts|done|done]. Qed.
Lemma keeps_now : keeps lab_now_ms.
Proof. intros s Hs. apply (sound_quiet (Address 0 0) [] s); [apply framed_tick|done|done]. Qed.

(** A handler of a slot, given the slot that [seat] says, or leaving it alone. *)
Definition minds (s : server_t) (i : nat) (f : client_t → io client_t) (x : client_t) : Prop :=
  f x s = (x, s) ∨ ∃ a x0, seat s i a x x0 ∧
    handles a (c s) (events s) (f x) (ends (c s) (events s) x0).
Lemma on_slot_sound s i f : sound s → (∀ x, c s !! i = Some x → table s → minds s i f x) → wp (on_slot i f) (λ _, grows s) s.
Proof.
  intros Hs Hf. unfold on_slot. apply wp_bind, wp_look. destruct (c s !! i) as [x|] eqn:Ei; [|by apply wp_ret].
  apply wp_bind. destruct (Hf x eq_refl (proj1 Hs)) as [E|(a & x0 & Hseat & Hh)].
  - unfold wp. rewrite E. cbn. rewrite list_insert_id by done. by destruct s.
  - eapply wp_mono; [by apply Hh|]. intros y s1 (out & F & _ & O). unfold wp. cbn. rewrite (fr_clients _ _ _ _ F).
    split; [by eapply sound_step|exact (fr_events _ _ _ _ F)].
Qed.
Lemma session_length s x : in_session s x → length (session x) = 16%nat.
Proof. intros X. destruct (se_drawn _ _ X) as (k & rnd & _ & Er & ->). apply Hfull in Er. rewrite length_take. lia. Qed.

Lemma keeps_for_each l f : (∀ i, keeps (f i)) → keeps (for_each l f).
Proof. intros Hf. induction l as [|i l IH]; [apply keeps_ret|]. cbn. by apply keeps_bind. Qed.
Lemma sweep_one_minds now s i x : c s !! i = Some x → minds s i (sweep_one now) x.
Proof.
  intros Hx. unfold minds, sweep_one. destruct (used x) eqn:Hu; [right|by left].
  exists (addr x), x. split; [split; [done|by left]|]. apply handles_look. intros s2 Hs2. cbn [negb orb].
  assert (Hstay : handles (addr x) (c s) (events s) (mret x) (ends (c s) (events s) x)) by (apply (stays (addr x)); done).
  destruct (negb _); [done|]. destruct (_ <? _); [|done].
  eapply handles_bind; [apply (handles_rst _ _ _ x LAB_TIMEOUT _ (λ n' out y, out = [rst_datagram x LAB_TIMEOUT (b "timeout")])); auto|].
  intros n' out y ->. apply (handles_counts _ _ _ n_rx n_acks n_rst (λ s, n_timeout s + 1)). apply handles_ret. intros n2 _.
  apply ends_quiet; [done|constructor; [apply negative_rst|done]|]. by apply Leaves.
Qed.
Lemma keeps_sweep_at now : keeps (for_each slots (λ i, on_slot i (sweep_one now))).
Proof. apply keeps_for_each. intros i s Hs. apply on_slot_sound; [done|]. intros x Hx _. by apply sweep_one_minds. Qed.
Lemma keeps_sweep : keeps sweep_timeouts.
Proof. apply keeps_bind; [apply keeps_now|]. apply keeps_sweep_at. Qed.
Lemma goodbye_minds s i x : c s !! i = Some x → minds s i goodbye x.
Proof.
  intros Hx. unfold minds, goodbye. destruct (used x) eqn:Hu; [right|by left].
  exists (addr x), x. split; [split; [done|by left]|]. by apply rejected_used.
Qed.

Lemma find_index_Some f l i : find_index f l = Some i → ∃ x, l !! i = Some x ∧ f x = true.
Proof.
  revert i. induction l as [|x l IH]; intros i; [done|]. cbn. destruct (f x) eqn:Ex; [intros [= <-]; by exists x|].
  destruct (find_index f l) as [j|]; [|done]. intros [= <-]. by apply IH.
Qed.
Lemma find_index_None f l : find_index f l = None → ∀ x, x ∈ l → f x = false.
Proof.
  induction l as [|y l IH]; [by intros _ x ?%elem_of_nil|]. cbn. destruct (f y) eqn:Ey; [done|].
  destruct (find_index f l) as [j|]; [done|]. intros _ x [->|Hx]%elem_of_cons; auto.
Qed.
Lemma slot_for_seat a s i x : slot_for a s = Some i → c s !! i = Some x →
  seat s i a x (set_addr a (if used x then x else zero_client)).
Proof.
  unfold slot_for. intros E Hx. split; [done|]. destruct (find_index (of_peer a) (c s)) as [j|] eqn:Ej.
  - injection E as ->. apply find_index_Some in Ej as (y & Hy & Hp). assert (y = x) as -> by congruence.
    unfold of_peer in Hp. apply andb_true_iff in Hp as [Hu Ha%bool_decide_eq_true]. left. rewrite Hu. split_and!; [done| |done].
    rewrite <- Ha. by destruct x.
  - destruct (Nat.leb_spec (max_clients s) (length (filter (λ x, used x = true) (c s)))) as [|Hlt]; [done|].
    apply find_index_Some in E as (y & Hy & Hu%negb_true_iff). assert (y = x) as -> by congruence. right. rewrite Hu. split_and!; try done.
    intros z Hz Huz Ha. apply (find_index_None _ _ Ej) in Hz. unfold of_peer in Hz. rewrite Huz in Hz. by apply bool_decide_eq_false in Hz.
Qed.
Lemma serve_ends a dat s i x : slot_for a s = Some i → c s !! i = Some x → table s →
  handles a (c s) (events s) (serve a dat x) (ends (c s) (events s) (set_addr a (if used x then x else zero_client))).
Proof.
  intros Hi Hx T. pose proof (slot_for_seat a s i x Hi Hx) as Hseat. unfold serve. destruct (used x) eqn:Hu.
  - destruct (seat_used _ _ _ _ _ Hseat Hu) as (_ & E & Ha). rewrite E. pose proof (ta_sessions s T i x Hx Hu) as X.
    destruct (_ <? _); [by apply rejects|]. rewrite (se_state _ _ X). apply do_open_ends; [done|done|by eapply session_length].
  - destruct (_ <? _); [by apply rejects_new|]. by apply do_new_ends.
Qed.
Lemma serve_minds a dat s i x : slot_for a s = Some i → c s !! i = Some x → table s → minds s i (serve a dat) x.
Proof. intros Hi Hx T. right. eexists a, _. split; [by apply slot_for_seat|by apply (serve_ends a dat s i)]. Qed.
(** Every other peer's slot is as it was, and at most one answer goes to [a]. *)
Definition apart (a : address) (s s' : server_t) : Prop :=
  (∀ i x, c s !! i = Some x → used x = true → addr x ≠ a → c s' !! i = Some x) ∧
  ∃ out, sent s' = sent s ++ ((λ d, (a, d)) <$> out) ∧ (length out <= 1)%nat.
Lemma framed_apart a out s s' : framed a out s s' → (length out <= 1)%nat → apart a s s'.
Proof.
  intros F Hl. split; [by rewrite (fr_clients _ _ _ _ F)|]. destruct (fr_sent _ _ _ _ F) as (out' & E & Hs & _).
  exists out'. split; [done|]. apply sublist_length in Hs. lia.
Qed.
Lemma receive_apart a dat s : table s → wp (receive a dat) (λ _ s', apart a s s') s.
Proof.
  intros T. unfold receive. apply wp_bind. unfold wp at 1. cbn [change fst snd]. set (s0 := set_counts _ _ _ _ s).
  assert (Hstray : ∀ reason msg, wp (_ ← send_rst (set_addr a zero_client) reason msg; mret tt) (λ _ s', apart a s s') s0).
  { intros reason msg. apply wp_bind.
    eapply wp_mono; [apply (handles_rst a (c s) (events s) (set_addr a zero_client) reason msg (λ _ out _, (length out <= 1)%nat)); auto|].
    intros y s1 (out & F & Hl). apply wp_ret. by apply (framed_apart a out s0 s1 F). }
  destruct (negb _); [apply Hstray|]. apply wp_bind, wp_look. change (slot_for a s0) with (slot_for a s).
  destruct (slot_for a s) as [i|] eqn:Ei; [|apply Hstray]. unfold on_slot. apply wp_bind, wp_look. change (c s0) with (c s).
  destruct (c s !! i) as [x|] eqn:Ex; [|apply wp_ret, (framed_apart a [] s s0); [apply framed_counts|cbn; lia]].
  apply wp_bind. eapply wp_mono; [by apply (serve_ends a dat s i x Ei Ex T s0)|].
  intros y s1 (out & F & Hl & _). pose proof (framed_apart a out s0 s1 F Hl) as [_ Hout]. split; [|exact Hout].
  intros j z Hj Hz Ha. cbn [c set_clients snd change]. rewrite (fr_clients _ _ _ _ F). change (c s0) with (c s).
  rewrite list_lookup_insert_ne; [done|]. intros ->. assert (z = x) as -> by congruence.
  destruct (slot_for_seat a s j x Ei Ex) as [_ [(_ & _ & ?)|(? & _)]]; congruence.
Qed.
Lemma keeps_stray a x reason msg : addr x = a → keeps (_ ← send_rst x reason msg; mret tt).
Proof.
  intros Ha s Hs. apply wp_bind. eapply wp_mono; [apply (handles_rst a (c s) (events s) x reason msg (λ _ out _, out = [rst_datagram x reason msg])); auto|].
  intros y s1 (out & F & ->). apply wp_ret. eapply sound_quiet; [exact F| |done]. apply positives_nil. repeat constructor. apply negative_rst.
Qed.
Lemma keeps_receive a dat : keeps (receive a dat).
Proof.
  unfold receive. apply keeps_bind; [apply (keeps_counts (λ s, n_rx s + 1) n_acks n_rst n_timeout)|]. intros _.
  destruct (negb _); [by apply (keeps_stray a)|]. intros s Hs. apply wp_bind, wp_look.
  destruct (slot_for a s) as [i|] eqn:Ei; [|by apply (keeps_stray a)]. apply on_slot_sound; [done|]. intros x Hx T. by apply serve_minds.
Qed.
Lemma keeps_receive_all l : keeps (receive_all l).
Proof. induction l as [|[a dat] l IH]; [apply keeps_ret|]. cbn. apply keeps_bind; [apply keeps_receive|done]. Qed.
Lemma keeps_stops f : f = set_io_error ∨ f = set_failed → keeps (change f).
Proof.
  intros [-> | ->] s Hs; (apply (sound_quiet (Address 0 0) [] s); [|done|done]); split; try done; cbn; rewrite ?app_nil_r; try done; exists []; by rewrite app_nil_r.
Qed.
Lemma keeps_round w : keeps (round w).
Proof.
  destruct w as [|l| |l|l]; unfold round; try (apply keeps_bind; [apply keeps_sweep|]; intros _; apply keeps_bind; [apply keeps_look|]; intros []; cbn [negb]; [|apply keeps_ret]).
  - apply keeps_ret.
  - apply keeps_bind; [apply keeps_receive_all|]. intros _. apply keeps_look.
  - apply keeps_bind; [apply keeps_stops; auto|]. intros _. apply keeps_ret.
  - apply keeps_bind; [apply keeps_receive_all|]. intros _. apply keeps_bind; [apply keeps_stops; auto|]. intros _. apply keeps_ret.
  - apply keeps_bind; [apply keeps_receive_all|]. intros _. apply keeps_bind; [apply keeps_stops; auto|]. intros _. apply keeps_ret.
Qed.
Lemma keeps_loop wakes : keeps (loop wakes).
Proof. induction wakes as [|w wakes IH]; [apply keeps_ret|]. cbn. apply keeps_bind; [apply keeps_round|]. intros []; [done|apply keeps_ret]. Qed.
Lemma keeps_main wakes close_fails : keeps (main wakes close_fails).
Proof.
  apply keeps_bind; [apply keeps_loop|]. intros _. apply keeps_bind.
  - apply keeps_for_each. intros i s Hs. apply on_slot_sound; [done|]. intros x Hx _. by apply goodbye_minds.
  - intros _. apply keeps_bind; [apply keeps_look|]. intros v. apply keeps_ret.
Qed.
Lemma sound_boot timeout maximum p : M = (maximum `min` MAX_CLIENTS)%nat → sound (boot timeout maximum p).
Proof.
  intros HM. assert (Hz : ∀ i x, c (boot timeout maximum p) !! i = Some x → used x = false) by (by intros i x [-> _]%lookup_replicate).
  split; [split|split; [by split|intros _; split; [|split]]].
  - done.
  - cbn [c boot]. change (in_use (replicate MAX_CLIENTS zero_client)) with 0%nat. lia.
  - done.
  - intros i x Hx Hu. apply Hz in Hx. congruence.
  - intros i j x y Hx _ Hu. apply Hz in Hx. congruence.
  - intros i j x y Hx _ Hu. apply Hz in Hx. congruence.
  - intros i j x y Hx _ Hu. apply Hz in Hx. congruence.
  - intros sid. by exists silence.
  - done.
  - intros i x Hx Hu. apply Hz in Hx. congruence.
Qed.
End whole.
End server.

(** ** What the server guarantees *)

(** C15.  The table of sessions: after any rounds of the main loop, whatever the peers
    sent and whatever failed, there are 32 slots and no more sessions than allowed;
    a used slot is an open session whose evidence carries its own session and
    client nonce; no two sessions have the same peer or the same client nonce. *)
Theorem table_kept `{Host} timeout maximum p wakes : full_draws →
  let s := (loop wakes (boot timeout maximum p)).2 in
  length (c s) = 32%nat ∧ (in_use (c s) <= maximum `min` 32)%nat ∧
  (∀ x, x ∈ c s → used x = true → state x = ST_OPEN ∧ length (session x) = 16%nat ∧
     LabContract.session (evidence x) = session x ∧ instance (evidence x) = cnonce x) ∧
  distinct addr (c s) ∧ distinct cnonce (c s).
Proof.
  intros Hfull. assert (Hfresh : fresh_draws 0) by (intros i j x y Hi; lia).
  pose proof (keeps_loop 0 (maximum `min` MAX_CLIENTS) Hfull Hfresh wakes _ (sound_boot 0 _ timeout maximum p eq_refl)) as [[T _] _].
  cbn zeta. pose proof T as [T1 T2 TM T3 T4 T5]. split_and!; [done|by rewrite TM in T2| |done|done].
  intros x [i Hx]%list_elem_of_lookup Hu. pose proof (T3 i x Hx Hu) as X. pose proof X as [? ? [? ?] ?]. split_and!; try done.
  by eapply session_length.
Qed.

(** C10.  Peers are isolated: a datagram from [a] changes no session of another peer, and
    is answered by at most one datagram, to [a]. *)
Theorem peers_isolated `{Host} timeout maximum p wakes a dat : full_draws →
  let s := (loop wakes (boot timeout maximum p)).2 in apart a s (receive a dat s).2.
Proof.
  intros Hfull. assert (Hfresh : fresh_draws 0) by (intros i j x y Hi; lia).
  pose proof (keeps_loop 0 (maximum `min` MAX_CLIENTS) Hfull Hfresh wakes _ (sound_boot 0 _ timeout maximum p eq_refl)) as [[T _] _].
  exact (receive_apart _ Hfull a dat _ T).
Qed.

(** C7.  The decisions of the server: in every run, whatever the datagrams and their
    order and whichever sends fail, the positive decisions it makes in each session
    are a dialogue.  A request is admitted only past all the requests of its session
    before it, an observation is accepted only as the answer to the last admitted
    request, each at most once, and no sequence number is used twice.  What is sent
    of them is the same, in order, less what a failing [sendto] loses (the server then
    ends its round and stops): all of it, when no call on the socket has failed.
    The hypotheses are of [getrandom]: it fills its buffer, and no session identifier
    comes twice in the run. *)
Theorem decisions_are_dialogues `{Host} timeout maximum p wakes close_fails : full_draws →
  let s := (main wakes close_fails (boot timeout maximum p)).2 in
  fresh_draws (events s) →
  (∀ sid, is_Some (dialogue_of (decisions sid (tried s)))) ∧
  (∀ sid, sublist (decisions sid (sent s)) (decisions sid (tried s))) ∧
  (running s = true → sent s = tried s).
Proof.
  intros Hfull s Hfresh.
  pose proof (keeps_main _ (maximum `min` MAX_CLIENTS) Hfull Hfresh wakes close_fails _ (sound_boot _ _ timeout maximum p eq_refl)) as [(_ & [Hsub Hr] & S) _].
  split_and!; [intros sid; by apply S| |exact Hr]. intros sid. unfold decisions. by apply sublist_omap, sublist_omap.
Qed.
