(* ===== verification/LabAdapter.v ===== *)
(** * The adapter of the laboratory ([src/lab/adapter/adapter.c])

    A UDP relay on the loopback interface, before the policy server: one upstream
    socket for each peer, a bounded ring of pending datagrams for each route, and
    the faults it can be asked to make.  What [poll], [recv] and [recvfrom] give
    are the rounds of its loop; whether a datagram is sent and a socket is had is
    the environment.  The log holds the system calls on sockets and datagrams, in
    their order; a socket is named by the event that made it. *)

From S2P Require Import Prelude Bytes LabContract LabServer.
Import LabContract.
Import LabServer(address, Address, ip, port, is_loopback, datagram, message).

Module LabAdapter.

Definition ROUTES : nat := 32.
Definition QUEUE : nat := 32.

Record pending_t := Pending { data : bytes; due : Z }.
Record route_t := Route {
  used : bool;
  fd : nat;
  peer : address;
  activity : Z;
  session : bytes;
  queue : list pending_t;
  head : nat;
  count : nat }.
(** [memset(route, 0, sizeof *route)] *)
Definition zero_route : route_t := Route false 0 (Address 0 0) 0 (zeros 16) (replicate QUEUE (Pending [] 0)) 0 0.

Inductive act :=
| Arrived (a : address) (d : bytes)        (* [recvfrom] on the listening socket *)
| Opened (k : nat) (a : address)           (* an upstream socket, for a peer *)
| Upstream (k : nat) (d : bytes)           (* [lab_send] *)
| Answered (k : nat) (d : bytes)           (* [recv] *)
| Forwarded (a : address) (d : bytes)      (* [sendto] of what was received *)
| Rejected (a : address) (d : bytes)       (* [sendto] in [reject] *)
| Closed (k : nat).
#[global] Instance act_eq_dec : EqDecision act.
Proof. solve_decision. Defined.

Record relay_t := Relay {
  routes : list route_t;
  received : Z;
  forwarded : Z;
  discarded : Z;
  truncate : Z;
  failed : bool;
  events : nat;                            (* of the environment, so far *)
  log : list act }.

Inductive send_result := Sent | WouldBlock | Broken.
(** What the [n]th event of the environment gives. *)
Class Net := {
  delivered : nat → bool;                  (* [sendto] sent all *)
  sends : nat → send_result;               (* [lab_send] *)
  binds : nat → bool;                      (* [lab_udp_bound] *)
  connects : nat → bool }.

(** ** The monad *)

Definition net (A : Type) : Type := relay_t → A * relay_t.
#[global] Instance net_ret : MRet net := λ A a s, (a, s).
#[global] Instance net_bind : MBind net := λ A B f m s, let (a, s) := m s in f a s.

Definition look {A} (f : relay_t → A) : net A := λ s, (f s, s).
Definition change (f : relay_t → relay_t) : net unit := λ s, (tt, f s).
Definition set_routes l s := Relay l (received s) (forwarded s) (discarded s) (truncate s) (failed s) (events s) (log s).
Definition set_received n s := Relay (routes s) n (forwarded s) (discarded s) (truncate s) (failed s) (events s) (log s).
Definition set_forwarded n s := Relay (routes s) (received s) n (discarded s) (truncate s) (failed s) (events s) (log s).
Definition set_discarded n s := Relay (routes s) (received s) (forwarded s) n (truncate s) (failed s) (events s) (log s).
Definition set_truncate n s := Relay (routes s) (received s) (forwarded s) (discarded s) n (failed s) (events s) (log s).
Definition set_failed s := Relay (routes s) (received s) (forwarded s) (discarded s) (truncate s) true (events s) (log s).
Definition set_log l s := Relay (routes s) (received s) (forwarded s) (discarded s) (truncate s) (failed s) (events s) l.
Definition event : net nat := λ s,
  (events s, Relay (routes s) (received s) (forwarded s) (discarded s) (truncate s) (failed s) (S (events s)) (log s)).
Definition note (e : act) : net unit := change (λ s, set_log (log s ++ [e]) s).
Definition discard : net unit := change (λ s, set_discarded (u64 (discarded s + 1)) s).

(** ** A route *)

Definition set_session x r := Route (used r) (fd r) (peer r) (activity r) x (queue r) (head r) (count r).
Definition set_activity t r := Route (used r) (fd r) (peer r) t (session r) (queue r) (head r) (count r).
Definition open_route (k : nat) (a : address) r := Route true k a (activity r) (session r) (queue r) (head r) (count r).
Definition enqueue (r : route_t) (d : bytes) (t : Z) : option route_t :=
  if (count r =? QUEUE)%nat then None
  else Some (Route (used r) (fd r) (peer r) (activity r) (session r)
               (<[((head r + count r) mod QUEUE)%nat := Pending d t]> (queue r)) (head r) (count r + 1)).
Definition pop (r : route_t) : route_t :=
  Route (used r) (fd r) (peer r) (activity r) (session r) (queue r) ((head r + 1) mod QUEUE) (count r - 1).

Section adapter.
Context `{Net}.

(** [reject], and its callers' [failed = 1] *)
Definition rst_datagram (x : option bytes) (reason : Z) (msg : bytes) : bytes :=
  datagram LAB_RST 0 LAB_RST_LEN (PRst (Rst (default (zeros 16) x) reason (len msg) (message msg))).
Definition reject (a : address) (x : option bytes) (reason : Z) (msg : bytes) : net unit :=
  n ← event;
  if delivered n then note (Rejected a (rst_datagram x reason msg)) else change set_failed.
Definition release (r : route_t) : net route_t :=
  _ ← (if used r then note (Closed (fd r)) else mret tt); mret zero_route.
Definition unavailable (r : route_t) : net route_t :=
  _ ← reject (peer r) (Some (session r)) LAB_CLOSING (b "upstream unavailable"); release r.

(** ** Upstream to peer *)

(** What [recv] gives; after the last it would block. *)
Inductive reply := Answer (d : bytes) | NoReply | BrokenReply.
Definition is_ack (d : bytes) : bool :=
  match lab_hdr_parse d with
  | Some h => (h_version h =? LAB_VERSION) && (h_kind h =? LAB_HELLO_ACK) && (h_len h =? LAB_HELLO_ACK_LEN) && (len d =? 16 + LAB_HELLO_ACK_LEN)
  | None => false
  end.
(** The datagram confirms the end of the session. *)
Definition is_end (x : bytes) (d : bytes) : bool :=
  match lab_hdr_parse d with
  | Some h =>
      (h_magic h =? LAB_MAGIC) && (h_version h =? LAB_VERSION) && (h_kind h =? LAB_RST) && (h_len h =? LAB_RST_LEN) &&
      (len d =? 16 + LAB_RST_LEN) &&
      match lab_payload_parse (drop 16 d) LAB_RST with
      | Some (PRst p) =>
          bool_decide (r_session p = x) &&
          ((r_reason p =? LAB_OK) && (r_len p =? 3) &&
             (bool_decide (take 3 (r_msg p) = b "bye") || bool_decide (take 3 (r_msg p) = b "rst")) ||
           (r_reason p =? LAB_TIMEOUT) || (r_reason p =? LAB_CLOSING))
      | _ => false
      end
  | None => false
  end.
Fixpoint read_upstream (work : nat) (l : list reply) (r : route_t) : net route_t :=
  match work, l with
  | S work, Answer d :: l =>
      _ ← note (Answered (fd r) d);
      if LAB_MAX_DATAGRAM <? len d then _ ← discard; read_upstream work l r
      else
        let r := if is_ack d then set_session (slice d 24 40) r else r in
        n ← event;
        if negb (delivered n) then _ ← change set_failed; mret r
        else
          _ ← note (Forwarded (peer r) d);
          _ ← change (λ s, set_forwarded (u64 (forwarded s + 1)) s);
          if is_end (session r) d then release r else read_upstream work l r
  | S _, BrokenReply :: _ => unavailable r
  | _, _ => mret r
  end.

(** ** Peer to upstream *)

Fixpoint send_pending (work : nat) (now : Z) (r : route_t) : net route_t :=
  match work with
  | O => mret r
  | S work =>
      if (count r =? 0)%nat then mret r
      else
        match queue r !! head r with
        | None => mret r
        | Some p =>
            if now <? due p then mret r
            else
              n ← event;
              match sends n with
              | Sent =>
                  _ ← note (Upstream (fd r) (data p));
                  _ ← change (λ s, set_forwarded (u64 (forwarded s + 1)) s);
                  send_pending work now (pop r)
              | WouldBlock => mret r
              | Broken => unavailable r
              end
        end
  end.
(** The body of the loop on routes; [replies] when [poll] marked the socket. *)
Definition serve_route (now idle : Z) (replies : option (list reply)) (r : route_t) : net route_t :=
  if negb (used r) then mret r
  else
    r ← match replies with Some l => read_upstream 16 l r | None => mret r end;
    if negb (used r) then mret r
    else if idle <=? u64 (now - activity r) then release r
    else send_pending 16 now r.
Definition on_route (i : nat) (f : route_t → net route_t) : net unit :=
  l ← look routes;
  match l !! i with
  | Some r => r ← f r; change (λ s, set_routes (<[i := r]> (routes s)) s)
  | None => mret tt
  end.
Fixpoint for_each (l : list nat) (f : nat → net unit) : net unit :=
  match l with [] => mret tt | i :: l => _ ← f i; for_each l f end.
Definition all_routes : list nat := seq 0 ROUTES.

(** ** The options *)

Record options_t := Options {
  listen_address : address;
  upstream : address;
  max_clients : Z;
  idle : Z;
  o_truncate : Z;
  drop_every : Z;
  delay : Z;
  replay : bool;
  verbose : bool }.

(** ** A datagram of a peer *)

(** The route of a peer: the last of the matching ones, and the first free one. *)
Definition of_peer (a : address) (r : route_t) : bool := used r && bool_decide (peer r = a).
Fixpoint find_last (f : route_t → bool) (l : list route_t) : option nat :=
  match l with
  | [] => None
  | r :: l => match find_last f l with Some i => Some (S i) | None => if f r then Some O else None end
  end.
Fixpoint find_first (f : route_t → bool) (l : list route_t) : option nat :=
  match l with [] => None | r :: l => if f r then Some O else S <$> find_first f l end.
Definition active (l : list route_t) : nat := length (filter (λ r, used r = true) l).

(** A datagram that needs a session. *)
Definition needs_session (d : bytes) : bool :=
  match lab_hdr_parse d with
  | Some h => (h_magic h =? LAB_MAGIC) && (h_version h =? LAB_VERSION) &&
      ((h_kind h =? LAB_PING) || (h_kind h =? LAB_BYE) || (h_kind h =? LAB_RST) || (h_kind h =? LAB_REQUEST) || (h_kind h =? LAB_OBSERVATION))
  | None => false
  end.
Definition refuse (a : address) (x : option bytes) (reason : Z) (msg : bytes) : net unit := _ ← reject a x reason msg; discard.
(** The end of the loop on datagrams, with the route of the peer. *)
Definition cut (truncating : Z) (d : bytes) : bytes :=
  if negb (truncating =? 0) && (8 <=? len d) then take (length d - 8) d else d.
Definition accept_into (o : options_t) (now : Z) (a : address) (d : bytes) (r : route_t) : net route_t :=
  let r := set_activity now r in
  n ← look received;
  if negb (drop_every o =? 0) && (u64 (n - 1) mod drop_every o =? 0) then _ ← discard; mret r
  else
    t ← look truncate;
    let d' := cut t d in
    _ ← (if negb (t =? 0) then change (set_truncate (t - 1)) else mret tt);
    match enqueue r d' (u64 (now + delay o)) with
    | None => _ ← refuse a (Some (session r)) LAB_BUSY (b "adapter queue full"); mret r
    | Some r =>
        if replay o && (16 <=? len d) && (byte_at d 2 =? LAB_PING) then
          match enqueue r d' (u64 (now + delay o + 100)) with
          | Some r => mret r
          | None => _ ← discard; mret r
          end
        else mret r
    end.
(** A new route for the peer; [None] when there is none to be had. *)
Definition connect (i : nat) (a : address) : net bool :=
  k ← event;
  if negb (binds k) then _ ← change set_failed; mret false
  else
    _ ← note (Opened k a);
    n ← event;
    if negb (connects n) then _ ← note (Closed k); _ ← change set_failed; mret false
    else _ ← on_route i (λ r, mret (open_route k a r)); mret true.
(** [lab_same_peer] and the fields of [recvfrom]; whether the loop goes on. *)
Definition take_datagram (o : options_t) (now : Z) (a : address) (d : bytes) : net bool :=
  if negb (is_loopback a) then mret true
  else
    _ ← note (Arrived a d);
    _ ← change (λ s, set_received (u64 (received s + 1)) s);
    l ← look routes;
    let route := find_last (of_peer a) l in
    let free := find_first (λ r, negb (used r)) l in
    if LAB_MAX_DATAGRAM <? len d then
      _ ← refuse a (i ← route; r ← l !! i; Some (session r)) LAB_TOO_BIG (b ">128 B"); mret true
    else
      match route with
      | Some i => _ ← on_route i (accept_into o now a d); mret true
      | None =>
          if needs_session d then _ ← refuse a None LAB_BAD_KIND (b "HELLO primero"); mret true
          else
            match free with
            | Some i =>
                if max_clients o <=? Z.of_nat (active l) then _ ← refuse a None LAB_BUSY (b "adapter full"); mret true
                else
                  ok ← connect i a;
                  if (ok : bool) then _ ← on_route i (accept_into o now a d); mret true else mret false
            | None => _ ← refuse a None LAB_BUSY (b "adapter full"); mret true
            end
      end.

(** ** The loop *)

(** What [recvfrom] gives; after the last it would block. *)
Inductive arrival := From (a : address) (d : bytes) | Foreign | Nothing | ReceiveFails.
Fixpoint read_peers (o : options_t) (now : Z) (work : nat) (l : list arrival) : net unit :=
  match work, l with
  | S work, From a d :: l => go ← take_datagram o now a d; if (go : bool) then read_peers o now work l else mret tt
  | S work, Foreign :: l => read_peers o now work l
  | S _, ReceiveFails :: _ => change set_failed
  | _, _ => mret tt
  end.
Inductive listening := Silent | Trouble | Datagrams (l : list arrival).
Inductive wake :=
| Interrupted
| PollFails
| Awake (now : Z) (replies : list (option (list reply))) (listening : listening).
Definition round (o : options_t) (w : wake) : net unit :=
  match w with
  | Interrupted => mret tt
  | PollFails => change set_failed
  | Awake now replies listening =>
      _ ← for_each all_routes (λ i, on_route i (serve_route now (idle o) (default None (replies !! i))));
      match listening with
      | Silent => mret tt
      | Trouble => change set_failed
      | Datagrams l => read_peers o now 16 l
      end
  end.
(** The signal that stops it comes after the last of [wakes]. *)
Fixpoint loop (o : options_t) (wakes : list wake) : net unit :=
  match wakes with
  | [] => mret tt
  | w :: wakes => bad ← look failed; if (bad : bool) then mret tt else _ ← round o w; loop o wakes
  end.
(** [main] once the listening socket is bound; the exit code. *)
Definition main (o : options_t) (wakes : list wake) (close_fails : bool) : net Z :=
  _ ← loop o wakes;
  _ ← for_each all_routes (λ i, on_route i release);
  bad ← look failed;
  mret (if bad || close_fails then 1 else 0).
Definition boot (o : options_t) : relay_t := Relay (replicate ROUTES zero_route) 0 0 0 (o_truncate o) false 0 [].
End adapter.

(** ** The command line *)

Definition set_listen x o := Options x (upstream o) (max_clients o) (idle o) (o_truncate o) (drop_every o) (delay o) (replay o) (verbose o).
Definition set_upstream x o := Options (listen_address o) x (max_clients o) (idle o) (o_truncate o) (drop_every o) (delay o) (replay o) (verbose o).
Definition set_max x o := Options (listen_address o) (upstream o) x (idle o) (o_truncate o) (drop_every o) (delay o) (replay o) (verbose o).
Definition set_idle x o := Options (listen_address o) (upstream o) (max_clients o) x (o_truncate o) (drop_every o) (delay o) (replay o) (verbose o).
Definition set_cut x o := Options (listen_address o) (upstream o) (max_clients o) (idle o) x (drop_every o) (delay o) (replay o) (verbose o).
Definition set_drop x o := Options (listen_address o) (upstream o) (max_clients o) (idle o) (o_truncate o) x (delay o) (replay o) (verbose o).
Definition set_delay x o := Options (listen_address o) (upstream o) (max_clients o) (idle o) (o_truncate o) (drop_every o) x (replay o) (verbose o).
Definition set_replay o := Options (listen_address o) (upstream o) (max_clients o) (idle o) (o_truncate o) (drop_every o) (delay o) true (verbose o).
Definition set_verbose o := Options (listen_address o) (upstream o) (max_clients o) (idle o) (o_truncate o) (drop_every o) (delay o) (replay o) true.

(** [inet_pton(AF_INET, ...)]: the octets so far, the current one and whether it
    has a digit. *)
Fixpoint dotted (text : bytes) (octets : nat) (acc cur : Z) (saw : bool) : option Z :=
  match text with
  | [] => if (octets <? 4)%nat then None else Some (256 * acc + cur)
  | x :: text =>
      let v := b2z x in
      if (48 <=? v) && (v <=? 57) then
        if saw && (cur =? 0) then None
        else
          let new := 10 * cur + (v - 48) in
          if 255 <? new then None
          else if saw then dotted text octets acc new true
          else if (octets =? 4)%nat then None else dotted text (S octets) acc new true
      else if (v =? 46) && saw then
        if (octets =? 4)%nat then None else dotted text octets (256 * acc + cur) 0 false
      else None
  end.
Definition inet_pton (text : bytes) : option Z := dotted text 0 0 0 false.
(** The text before the first colon and after it. *)
Fixpoint at_colon (text : bytes) : option (bytes * bytes) :=
  match text with
  | [] => None
  | x :: text => if decide (x = x3a) then Some ([], text) else (λ r, (x :: r.1, r.2)) <$> at_colon text
  end.
(** [lab_endpoint], of [net.c] *)
Definition lab_endpoint (text : bytes) : option address :=
  '(host, rest) ← at_colon text;
  if (length host =? 0)%nat || (16 <=? length host)%nat then None
  else
    p ← lab_parse_u32 rest 1 65535;
    i ← inet_pton host;
    if negb (Z.shiftr i 24 =? 127) then None else Some (Address i p).

(** An option with its value. *)
Definition named (s : string) (arg : bytes) : bool := bool_decide (arg = b s).
Definition one_option (name value : bytes) (o : options_t) : option options_t :=
  if named "--listen" name then x ← lab_endpoint value; Some (set_listen x o)
  else if named "--upstream" name then x ← lab_endpoint value; Some (set_upstream x o)
  else if named "--max-clients" name then x ← lab_parse_u32 value 1 32; Some (set_max x o)
  else if named "--idle-ms" name then x ← lab_parse_u32 value 1 60000; Some (set_idle x o)
  else if named "--truncate" name then x ← lab_parse_u32 value 0 4096; Some (set_cut x o)
  else if named "--drop-every" name then x ← lab_parse_u32 value 1 4096; Some (set_drop x o)
  else if named "--delay-ms" name then x ← lab_parse_u32 value 0 5000; Some (set_delay x o)
  else None.
Fixpoint parse_options (args : list bytes) (o : options_t) : option options_t :=
  match args with
  | [] => Some o
  | x :: args =>
      if named "-v" x then parse_options args (set_verbose o)
      else if named "--replay-last" x then parse_options args (set_replay o)
      else match args with [] => None | value :: args => o ← one_option x value o; parse_options args o end
  end.
Definition default_options : options_t := Options (Address 0x7f000001 7778) (Address 0x7f000001 7777) 32 10000 0 0 0 false false.
End LabAdapter.

(** * What the adapter guarantees *)

Import LabAdapter.

(** ** The ring of a route is a bounded queue *)

Definition pendings (r : route_t) : list pending_t :=
  omap (λ k, queue r !! ((head r + k) mod QUEUE)%nat) (seq 0 (count r)).
Definition ring_ok (r : route_t) : Prop :=
  length (queue r) = QUEUE ∧ (head r < QUEUE)%nat ∧ (count r <= QUEUE)%nat ∧ (used r = false → count r = O).
Definition waiting (r : route_t) : list bytes := data <$> pendings r.

Lemma slot_of (h k : nat) : ((h + k) mod QUEUE < QUEUE)%nat.
Proof. by apply Nat.mod_upper_bound. Qed.
Lemma omap_ext_in {A B} (f g : A → option B) (l : list A) : (∀ x, x ∈ l → f x = g x) → omap f l = omap g l.
Proof. induction l as [|x l IH]; intros E; [done|]. cbn. rewrite E by set_solver. rewrite IH by set_solver. done. Qed.
Lemma omap_fmap_comp {A B C} (f : B → option C) (g : A → B) (l : list A) : omap f (g <$> l) = omap (λ x, f (g x)) l.
Proof. induction l as [|x l IH]; [done|]. cbn. by rewrite IH. Qed.
Lemma other_slot h k n : (k < n)%nat → (n < QUEUE)%nat → ((h + n) mod QUEUE)%nat ≠ ((h + k) mod QUEUE)%nat.
Proof.
  intros Hk Hn E. unfold QUEUE in *. pose proof (Nat.div_mod_eq (h + n) 32). pose proof (Nat.div_mod_eq (h + k) 32).
  rewrite E in *. nia.
Qed.
Lemma enqueue_fifo r d t r' : ring_ok r → used r = true → enqueue r d t = Some r' →
  ring_ok r' ∧ pendings r' = pendings r ++ [Pending d t] ∧
  used r' = true ∧ fd r' = fd r ∧ peer r' = peer r ∧ session r' = session r ∧ activity r' = activity r.
Proof.
  intros (Hl & Hh & Hc & _) Hu E. unfold enqueue in E. destruct (Nat.eqb_spec (count r) QUEUE) as [|Hn]; [done|]. injection E as <-.
  split_and!; cbn; try done; [split_and!; cbn; [by rewrite length_insert|done|lia|congruence]|].
  unfold pendings; cbn [queue head count]. rewrite Nat.add_1_r, seq_S, omap_app. cbn.
  rewrite list_lookup_insert_eq by (rewrite Hl; apply slot_of). f_equal.
  apply omap_ext_in. intros k Hk%elem_of_seq. apply list_lookup_insert_ne. apply other_slot; lia.
Qed.
Lemma enqueue_full r d t : enqueue r d t = None ↔ count r = QUEUE.
Proof. unfold enqueue. destruct (Nat.eqb_spec (count r) QUEUE); split; congruence. Qed.
Lemma pop_fifo r : ring_ok r → count r ≠ O → ∃ p, queue r !! head r = Some p ∧ pendings r = p :: pendings (pop r) ∧ ring_ok (pop r).
Proof.
  intros (Hl & Hh & Hc & Hu) Hn. destruct (lookup_lt_is_Some_2 (queue r) (head r)) as [p Hp]; [lia|]. exists p.
  split_and!; [done| |].
  - unfold pendings, pop; cbn [queue head count]. destruct (count r) as [|n] eqn:E; [done|]. cbn [seq]. cbn [omap list_omap].
    rewrite Nat.add_0_r, Nat.mod_small, Hp by done. f_equal. rewrite Nat.sub_1_r. cbn [Nat.pred]. rewrite <-(fmap_S_seq 0 n).
    rewrite omap_fmap_comp. apply omap_ext_in. intros k _. f_equal.
    rewrite Nat.Div0.add_mod_idemp_l. f_equal. lia.
  - unfold pop. split_and!; cbn [used queue head count]; [done|by apply Nat.mod_upper_bound|lia|]. intros X. apply Hu in X. lia.
Qed.

(** ** The log *)

Definition opened (l : list act) : list nat := omap (λ e, match e with Opened k _ => Some k | _ => None end) l.
Definition closed (l : list act) : list nat := omap (λ e, match e with Closed k => Some k | _ => None end) l.
Definition arrivals (a : address) (l : list act) : list bytes :=
  omap (λ e, match e with Arrived x d => if decide (x = a) then Some d else None | _ => None end) l.
Definition forwards (a : address) (l : list act) : list bytes :=
  omap (λ e, match e with Forwarded x d => if decide (x = a) then Some d else None | _ => None end) l.
(** What [pick] finds on the sockets opened for [a]; [mine] are those so far. *)
Definition mine_of (a : address) (e : act) (mine : list nat) : list nat :=
  match e with Opened k x => if decide (x = a) then k :: mine else mine | _ => mine end.
Fixpoint on_sockets (pick : act → option (nat * bytes)) (a : address) (mine : list nat) (l : list act) : list bytes :=
  match l with
  | [] => []
  | e :: l =>
      match pick e with Some (k, d) => if decide (k ∈ mine) then [d] else [] | None => [] end ++
      on_sockets pick a (mine_of a e mine) l
  end.
(** What the adapter sends upstream for a peer, and what it hears for it. *)
Definition sent_for (a : address) (l : list act) : list bytes :=
  on_sockets (λ e, match e with Upstream k d => Some (k, d) | _ => None end) a [] l.
Definition heard_for (a : address) (l : list act) : list bytes :=
  on_sockets (λ e, match e with Answered k d => Some (k, d) | _ => None end) a [] l.

Fixpoint sockets (a : address) (mine : list nat) (l : list act) : list nat :=
  match l with [] => mine | e :: l => sockets a (mine_of a e mine) l end.
Lemma on_sockets_app pick a mine l l' :
  on_sockets pick a mine (l ++ l') = on_sockets pick a mine l ++ on_sockets pick a (sockets a mine l) l'.
Proof. revert mine. induction l as [|e l IH]; intros mine; [done|]. cbn. by rewrite IH, app_assoc. Qed.
Lemma elem_sockets a k mine l : k ∈ sockets a mine l ↔ k ∈ mine ∨ Opened k a ∈ l.
Proof.
  revert mine. induction l as [|e l IH]; intros mine; cbn; [set_solver|]. rewrite IH.
  unfold mine_of. destruct e; try set_solver. case_decide; set_solver.
Qed.
Lemma opened_elem k l : k ∈ opened l ↔ ∃ a, Opened k a ∈ l.
Proof.
  unfold opened. rewrite list_elem_of_omap. split.
  - intros (e & He & E). destruct e; try done. injection E as ->. eauto.
  - intros [a Ha]. by exists (Opened k a).
Qed.
Lemma opened_unique k a a' l : NoDup (opened l) → Opened k a ∈ l → Opened k a' ∈ l → a = a'.
Proof.
  induction l as [|e l IH]; intros Hn Ha Ha'; [set_solver|]. cbn in Hn.
  assert (Hno : ∀ x, e = Opened k x → ∀ y, Opened k y ∉ l).
  { intros x -> y Hy. apply NoDup_cons in Hn as [Hn _]. apply Hn, opened_elem. eauto. }
  apply elem_of_cons in Ha as [Ha|Ha], Ha' as [Ha'|Ha'].
  - congruence.
  - by edestruct Hno.
  - by edestruct Hno.
  - apply IH; [|done..]. destruct e; try done. by apply NoDup_cons in Hn as [_ Hn].
Qed.

(** ** The invariant *)

Definition distinct (l : list route_t) : Prop :=
  ∀ i j x y, l !! i = Some x → l !! j = Some y → used x = true → used y = true → peer x = peer y → i = j.
(** The copies of a received datagram that are not yet in a ring. *)
Definition held (h : option (address * list bytes)) (a : address) : list bytes :=
  match h with Some (x, l) => if decide (x = a) then l else [] | None => [] end.
Definition plain (o : options_t) : Prop := o_truncate o = 0 ∧ replay o = false.
(** With [--replay-last], a ping counts twice. *)
Definition copies (o : options_t) (d : bytes) : list bytes :=
  if replay o && (16 <=? len d) && (byte_at d 2 =? LAB_PING) then [d; d] else [d].
(** Some of [l], in order; with [--truncate], possibly eight bytes shorter. *)
Inductive carried (o : options_t) : list bytes → list bytes → Prop :=
| carried_nil : carried o [] []
| carried_skip d x l : carried o x l → carried o x (d :: l)
| carried_keep d' d x l : d' = d ∨ (o_truncate o ≠ 0 ∧ d' = cut 1 d) → carried o x l → carried o (d' :: x) (d :: l).
(** What is to go, or went, of what arrived from [a]. *)
Definition within (o : options_t) (h : option (address * list bytes)) (a : address) (l x : list bytes) : Prop :=
  ∃ A, l ≫= copies o = A ++ held h a ∧ carried o x A.

Record fits (o : options_t) (h : option (address * list bytes)) (lg : list act) (r : route_t) : Prop := {
  fi_opened : Opened (fd r) (peer r) ∈ lg;
  fi_open : fd r ∉ closed lg;
  fi_sent : within o h (peer r) (arrivals (peer r) lg) (sent_for (peer r) lg ++ waiting r) }.
Record sound (o : options_t) (l : list route_t) (h : option (address * list bytes)) (lg : list act) (n : nat) : Prop := {
  so_length : length l = ROUTES;
  so_active : Z.of_nat (active l) <= max_clients o;
  so_fits : ∀ i r, l !! i = Some r → used r = true → fits o h lg r;
  so_ring : ∀ i r, l !! i = Some r → ring_ok r;
  so_peers : distinct l;
  so_opened : NoDup (opened lg);
  so_fresh : ∀ k, k ∈ opened lg → (k < n)%nat;
  so_closed : NoDup (closed lg);
  so_known : ∀ k, k ∈ closed lg → k ∈ opened lg;
  so_open : ∀ k, k ∈ opened lg → k ∉ closed lg → ∃ i r, l !! i = Some r ∧ used r = true ∧ fd r = k;
  so_sent : ∀ a, within o h a (arrivals a lg) (sent_for a lg);
  so_rejected : ∀ a d, Rejected a d ∈ lg → ∃ x reason msg, d = rst_datagram x reason msg;
  so_heard : ∀ a, sublist (forwards a lg) (heard_for a lg) }.

(** *** The invariant and a call added to the log *)

Lemma sublist_app_r {A} (l k k' : list A) : sublist l k → sublist l (k ++ k').
Proof. intros H. rewrite <-(app_nil_r l). by apply sublist_app; [|apply sublist_nil_l]. Qed.
Lemma carried_none o l : carried o [] l.
Proof. induction l; by constructor. Qed.
Lemma carried_app o x l y k : carried o x l → carried o y k → carried o (x ++ y) (l ++ k).
Proof. intros H1 H2. induction H1; cbn; [done|by constructor|by constructor]. Qed.
Lemma carried_more o x l k : carried o x l → carried o x (l ++ k).
Proof. intros H1. rewrite <-(app_nil_r x). apply carried_app; [done|apply carried_none]. Qed.
Lemma carried_first o x y l : carried o (x ++ y) l → carried o x l.
Proof.
  revert x. induction l as [|d l IH]; intros x Hc; inversion Hc as [E|? ? ? Hc1|d' ? x1 ? Hd Hc1 E]; subst.
  - destruct x; [constructor|done].
  - constructor. auto.
  - destruct x as [|d1 x]; [apply carried_none|]. injection E as <- ->. apply carried_keep; auto.
Qed.
Lemma carried_plain o x l : plain o → carried o x l → sublist x l.
Proof. intros [Ht _]. induction 1 as [|d x l _ IH|d' d x l [->|[? _]] _ IH]; [constructor|by constructor..|done]. Qed.
Lemma copies_plain o l : plain o → l ≫= copies o = l.
Proof. intros [_ Hr]. induction l as [|d l IH]; [done|]. cbn. rewrite IH. unfold copies. by rewrite Hr. Qed.
Lemma within_none o h a l x : within o h a l x → within o None a l x.
Proof. intros (A & E & C). exists (A ++ held h a). split; [by rewrite app_nil_r|by apply carried_more]. Qed.
Lemma within_arrived o a y d l x : within o None a l x →
  within o (Some (y, copies o d)) a (l ++ if decide (y = a) then [d] else []) x.
Proof.
  intros (A & E & C). exists A. split; [|done]. cbn [held] in *. rewrite app_nil_r in E. rewrite bind_app, E. f_equal.
  case_decide; [|done]. cbn. apply app_nil_r.
Qed.
(** A copy is taken, whole or cut. *)
Lemma within_taken o a d d' rest l x : d' = d ∨ (o_truncate o ≠ 0 ∧ d' = cut 1 d) →
  within o (Some (a, d :: rest)) a l x → within o (Some (a, rest)) a l (x ++ [d']).
Proof.
  intros Hd (A & E & C). cbn [held] in *. rewrite decide_True in E by done. exists (A ++ [d]). split.
  - cbn [held]. rewrite decide_True by done. by rewrite E, <-app_assoc.
  - apply carried_app; [done|]. constructor; [done|constructor].
Qed.
Lemma within_other o a h h' l x : held h a = held h' a → within o h a l x → within o h' a l x.
Proof. intros Eh (A & E & C). exists A. by rewrite <-Eh. Qed.
Lemma within_first o h a l x y : within o h a l (x ++ y) → within o h a l x.
Proof. intros (A & E & C). exists A. split; [done|by eapply carried_first]. Qed.
Lemma held_release o l h lg n : sound o l h lg n → sound o l None lg n.
Proof.
  intros [? ? Hf ? ? ? ? ? ? ? Hs ? ?]. split; try done.
  - intros i r Hi Hu. destruct (Hf i r Hi Hu) as [? ? Hw]. split; [done..|]. by eapply within_none.
  - intros a. by eapply within_none.
Qed.
Lemma sound_events o l h lg n n' : sound o l h lg n → (n <= n')%nat → sound o l h lg n'.
Proof. intros [? ? ? ? ? ? Hf] ?. split; try done. intros k Hk. specialize (Hf k Hk). lia. Qed.
Section logs.
Context (o : options_t) (l : list route_t) (lg : list act).

Ltac logs := unfold opened, closed, arrivals, forwards, sent_for, heard_for in *;
  rewrite ?omap_app, ?on_sockets_app; cbn; rewrite ?app_nil_r.

Lemma logs_opened e : opened (lg ++ [e]) = opened lg ++ match e with Opened k _ => [k] | _ => [] end.
Proof. logs. by destruct e. Qed.
Lemma logs_closed e : closed (lg ++ [e]) = closed lg ++ match e with Closed k => [k] | _ => [] end.
Proof. logs. by destruct e. Qed.
Lemma logs_arrivals a e : arrivals a (lg ++ [e]) = arrivals a lg ++ match e with Arrived x d => if decide (x = a) then [d] else [] | _ => [] end.
Proof. logs. destruct e; try done. by case_decide. Qed.
Lemma logs_forwards a e : forwards a (lg ++ [e]) = forwards a lg ++ match e with Forwarded x d => if decide (x = a) then [d] else [] | _ => [] end.
Proof. logs. destruct e; try done. by case_decide. Qed.
Lemma logs_sent a e : sent_for a (lg ++ [e]) =
  sent_for a lg ++ match e with Upstream k d => if decide (Opened k a ∈ lg) then [d] else [] | _ => [] end.
Proof.
  logs. f_equal. destruct e; try done. pose proof (elem_sockets a k [] lg). repeat case_decide; try done; set_solver.
Qed.
Lemma logs_heard a e : heard_for a (lg ++ [e]) =
  heard_for a lg ++ match e with Answered k d => if decide (Opened k a ∈ lg) then [d] else [] | _ => [] end.
Proof.
  logs. f_equal. destruct e; try done. pose proof (elem_sockets a k [] lg). repeat case_decide; try done; set_solver.
Qed.
End logs.
#[local] Hint Rewrite logs_opened logs_closed logs_arrivals logs_forwards logs_sent logs_heard @app_nil_r : logs.

Section steps.
Context (o : options_t) (l : list route_t) (h : option (address * list bytes)) (lg : list act) (n : nat).

(** A datagram of a peer. *)
Lemma sound_arrived a d : sound o l None lg n → sound o l (Some (a, copies o d)) (lg ++ [Arrived a d]) n.
Proof.
  intros [? ? Hf ? ? ? ? ? ? ? Hs Hr ?]. split; autorewrite with logs; try done.
  - intros i r Hi Hu. destruct (Hf i r Hi Hu) as [? ? Hw]. split; autorewrite with logs; [set_solver|done|]. by apply within_arrived.
  - intros x. autorewrite with logs. by apply within_arrived.
  - intros x y. rewrite elem_of_app, list_elem_of_singleton. intros [?|?]; [eauto|done].
  - intros x. by autorewrite with logs.
Qed.
(** A datagram of the adapter's own. *)
Lemma sound_rejected a x reason msg : sound o l h lg n → sound o l h (lg ++ [Rejected a (rst_datagram x reason msg)]) n.
Proof.
  intros [? ? Hf ? ? ? ? ? ? ? Hs Hr Hh]. split; autorewrite with logs; try done.
  - intros i r Hi Hu. destruct (Hf i r Hi Hu) as [? ? Hw]. split; autorewrite with logs; [set_solver|done|done].
  - intros y. autorewrite with logs. auto.
  - intros y d. rewrite elem_of_app, list_elem_of_singleton. intros [?|[= -> ->]]; eauto.
  - intros y. autorewrite with logs. auto.
Qed.
Lemma sound_answered k d : sound o l h lg n → sound o l h (lg ++ [Answered k d]) n.
Proof.
  intros [? ? Hf ? ? ? ? ? ? ? Hs Hr Hh]. split; autorewrite with logs; try done.
  - intros i r Hi Hu. destruct (Hf i r Hi Hu) as [? ? Hw]. split; autorewrite with logs; [set_solver|done|done].
  - intros x. autorewrite with logs. auto.
  - intros x y. rewrite elem_of_app, list_elem_of_singleton. intros [?|?]; [eauto|done].
  - intros x. autorewrite with logs. by apply sublist_app_r.
Qed.

Context (i : nat) (r : route_t).
Hypothesis Hi : l !! i = Some r.
Lemma ins r' : <[i:=r']> l !! i = Some r'.
Proof. apply list_lookup_insert_eq. by apply lookup_lt_Some in Hi. Qed.
Lemma ins_ne j r' : j ≠ i → <[i:=r']> l !! j = l !! j.
Proof. intros. by apply list_lookup_insert_ne. Qed.

(** What the upstream socket of a route gives, and its peer is sent. *)
Lemma sound_forwarded d : used r = true → sound o l h lg n →
  sound o l h ((lg ++ [Answered (fd r) d]) ++ [Forwarded (peer r) d]) n.
Proof.
  intros Hu S. pose proof (so_fits _ _ _ _ _ S i r Hi Hu) as [Hop _ _]. pose proof (so_opened _ _ _ _ _ S) as Hn.
  destruct S as [? ? Hf ? ? ? ? ? ? ? Hs Hr Hh]. split; autorewrite with logs; try done.
  - intros j x Hj Hx. destruct (Hf j x Hj Hx) as [? ? Hw]. split; autorewrite with logs; [set_solver|done|done].
  - intros x. autorewrite with logs. auto.
  - intros x y. rewrite !elem_of_app, !list_elem_of_singleton. intros [[?|?]|?]; [eauto|done..].
  - intros x. autorewrite with logs. apply sublist_app; [done|]. destruct (decide (peer r = x)) as [<-|Hx].
    + by rewrite decide_True.
    + apply sublist_nil_l.
Qed.
End steps.

Lemma active_insert l i r r' : l !! i = Some r →
  (active (<[i:=r']> l) + (if used r then 1 else 0) = active l + (if used r' then 1 else 0))%nat.
Proof.
  unfold active. revert i. induction l as [|x l IH]; intros [|i] Hi; [done|done| |].
  - injection Hi as ->. change (<[0%nat:=r']> (r :: l)) with (r' :: l). rewrite !filter_cons. destruct (used r) eqn:E1, (used r') eqn:E2; repeat case_decide; cbn; try congruence; lia.
  - specialize (IH i Hi). change (<[S i:=r']> (x :: l)) with (x :: <[i:=r']> l). rewrite !filter_cons. case_decide; cbn; lia.
Qed.
Section changes.
Context (o : options_t) (l : list route_t) (h : option (address * list bytes)) (lg : list act) (n : nat) (i : nat) (r : route_t).
Hypothesis Hi : l !! i = Some r.
Hypothesis S : sound o l h lg n.

(** A route that stays the peer's. *)
Definition same_route (r' : route_t) : Prop := used r' = used r ∧ fd r' = fd r ∧ peer r' = peer r.
Lemma peers_same r' : same_route r' → distinct (<[i:=r']> l).
Proof.
  intros (Hu & _ & Hp) j k x y Hj Hk Hx Hy E. pose proof (so_peers _ _ _ _ _ S) as Hd.
  destruct (decide (j = i)) as [->|Hji], (decide (k = i)) as [->|Hki]; [done| | |].
  - rewrite (ins _ _ _ Hi) in Hj. rewrite ins_ne in Hk by done. injection Hj as <-. apply (Hd i k r y); congruence.
  - rewrite (ins _ _ _ Hi) in Hk. rewrite ins_ne in Hj by done. injection Hk as <-. apply (Hd j i x r); congruence.
  - rewrite ins_ne in Hj, Hk by done. by apply (Hd j k x y).
Qed.
Lemma other_peer j x : l !! j = Some x → j ≠ i → used x = true → used r = true → peer x ≠ peer r.
Proof. intros Hj Hne Hx Hr E. apply Hne. by apply (so_peers _ _ _ _ _ S j i x r). Qed.

(** The general change of a route that stays the peer's, with what the log gains. *)
Lemma sound_change r' h' lg' : same_route r' → ring_ok r' →
  opened lg' = opened lg → closed lg' = closed lg →
  (∀ k a, Opened k a ∈ lg → Opened k a ∈ lg') →
  (used r = true → within o h' (peer r) (arrivals (peer r) lg') (sent_for (peer r) lg' ++ waiting r')) →
  (∀ j x, l !! j = Some x → used x = true → j ≠ i → within o h' (peer x) (arrivals (peer x) lg') (sent_for (peer x) lg' ++ waiting x)) →
  (∀ a, within o h' a (arrivals a lg') (sent_for a lg')) →
  (∀ a d, Rejected a d ∈ lg' → ∃ x reason msg, d = rst_datagram x reason msg) →
  (∀ a, sublist (forwards a lg') (heard_for a lg')) →
  sound o (<[i:=r']> l) h' lg' n.
Proof.
  intros Hs Hr Ho Hc Hkeep Hsent Hrest Hall Hrej Hheard. pose proof (peers_same r' Hs) as Hd. pose proof (active_insert l i r r' Hi) as Ha.
  destruct Hs as (Hu & Hf & Hp). rewrite Hu in Ha. destruct S as [S1 S2 S3 S4 S5 S6 S7 S8 S9 S10 _ _ _].
  split; rewrite ?Ho, ?Hc; try done.
  - by rewrite length_insert.
  - replace (active (<[i:=r']> l)) with (active l) by (destruct (used r); lia). done.
  - intros j x Hj Hx. destruct (decide (j = i)) as [->|Hne].
    + rewrite (ins _ _ _ Hi) in Hj. injection Hj as <-. destruct (S3 i r Hi) as [F1 F2 F3]; [congruence|].
      split; rewrite ?Hf, ?Hp, ?Hc; [auto|done|]. intros. apply Hsent; congruence.
    + rewrite ins_ne in Hj by done. destruct (S3 j x Hj Hx) as [F1 F2 F3]. split; rewrite ?Hc; [auto|done|]. intros. eauto.
  - intros j x Hj. destruct (decide (j = i)) as [->|Hne]; [rewrite (ins _ _ _ Hi) in Hj; by injection Hj as <-|].
    rewrite ins_ne in Hj by done. eauto.
  - intros k Hk Hk'. destruct (S10 k Hk Hk') as (j & x & Hj & Hx & Ex). destruct (decide (j = i)) as [->|Hne].
    + exists i, r'. rewrite (ins _ _ _ Hi). split_and!; congruence.
    + exists j, x. by rewrite ins_ne.
Qed.
(** Fields that are not the relay's. *)
Lemma sound_same r' : same_route r' → queue r' = queue r → head r' = head r → count r' = count r → sound o (<[i:=r']> l) h lg n.
Proof.
  intros Hs Eq Eh Ec. assert (waiting r' = waiting r) as Hw by (unfold waiting, pendings; by rewrite Eq, Eh, Ec).
  apply sound_change; try done.
  - unfold ring_ok. destruct Hs as (-> & _ & _). rewrite Eq, Eh, Ec. by apply (so_ring _ _ _ _ _ S i r).
  - intros Hu. rewrite Hw. by apply (so_fits _ _ _ _ _ S i r).
  - intros j x Hj Hx _. by apply (so_fits _ _ _ _ _ S j x).
  - apply S.
  - apply S.
  - apply S.
Qed.
(** A free slot is cleared. *)
Lemma sound_idle : used r = false → sound o (<[i:=zero_route]> l) h lg n.
Proof.
  intros Hu. pose proof (active_insert l i r zero_route Hi) as Ha. rewrite Hu in Ha. cbn in Ha.
  destruct S as [S1 S2 S3 S4 S5 S6 S7 S8 S9 S10 S11 SR S12].
  assert (Hother : ∀ j x, <[i:=zero_route]> l !! j = Some x → used x = true → l !! j = Some x).
  { intros j x Hj Hx. destruct (decide (j = i)) as [->|Hne]; [rewrite (ins _ _ _ Hi) in Hj; by injection Hj as <-|].
    by rewrite ins_ne in Hj. }
  split; try done.
  - by rewrite length_insert.
  - lia.
  - eauto.
  - intros j x Hj. destruct (decide (j = i)) as [->|Hne]; [|rewrite ins_ne in Hj by done; eauto].
    rewrite (ins _ _ _ Hi) in Hj. injection Hj as <-. split_and!; cbn; unfold QUEUE; [done|lia|lia|done].
  - intros j k x y Hj Hk Hx Hy. eauto.
  - intros k Hk Hk'. destruct (S10 k Hk Hk') as (j & x & Hj & Hx & E). exists j, x. rewrite ins_ne; [done|]. congruence.
Qed.
(** A copy in hand goes into the ring. *)
Lemma sound_queued d rest d' t r' : used r = true → h = Some (peer r, d :: rest) → d' = d ∨ (o_truncate o ≠ 0 ∧ d' = cut 1 d) →
  enqueue r d' t = Some r' → sound o (<[i:=r']> l) (Some (peer r, rest)) lg n.
Proof.
  intros Hu Hh Hd E. pose proof (so_ring _ _ _ _ _ S i r Hi) as Hr.
  destruct (enqueue_fifo r d' t r' Hr Hu E) as (Hr' & Hpend & U & F & P & _ & _).
  apply sound_change; try done.
  - split_and!; congruence.
  - intros _. unfold waiting. rewrite Hpend, fmap_app, app_assoc. cbn [fmap list_fmap].
    pose proof (fi_sent _ _ _ _ (so_fits _ _ _ _ _ S i r Hi Hu)) as Hs. rewrite Hh in Hs. by eapply within_taken.
  - intros j x Hj Hx Hne. eapply within_other; [|by apply (so_fits _ _ _ _ _ S j x)].
    rewrite Hh. cbn. rewrite !decide_False; [done|..]; apply not_eq_sym; by eapply other_peer.
  - intros a. destruct (decide (a = peer r)) as [->|Ha].
    + pose proof (fi_sent _ _ _ _ (so_fits _ _ _ _ _ S i r Hi Hu)) as Hs. rewrite Hh in Hs.
      apply (within_taken o _ _ _ _ _ _ Hd), within_first in Hs. by apply within_first in Hs.
    + eapply within_other; [|by apply (so_sent _ _ _ _ _ S)]. rewrite Hh. cbn. by rewrite !decide_False by auto.
  - apply S.
  - apply S.
Qed.
End changes.

Section calls.
Context (o : options_t) (l : list route_t) (h : option (address * list bytes)) (lg : list act) (n : nat) (i : nat) (r : route_t).
Hypothesis Hi : l !! i = Some r.
Hypothesis S : sound o l h lg n.

(** The head of the ring is sent. *)
Lemma sound_upstream p : used r = true → pendings r = p :: pendings (pop r) → ring_ok (pop r) →
  sound o (<[i:=pop r]> l) h (lg ++ [Upstream (fd r) (data p)]) n.
Proof.
  intros Hu Hp Hr. pose proof (so_fits _ _ _ _ _ S i r Hi Hu) as [F1 F2 F3].
  assert (Hothers : ∀ a, a ≠ peer r → Opened (fd r) a ∉ lg).
  { intros a Ha Hin. apply Ha. by eapply opened_unique; [apply S| |]. }
  apply (sound_change o l h lg n i r Hi S); try done; autorewrite with logs; try done.
  - set_solver.
  - intros _. autorewrite with logs. rewrite decide_True by done.
    unfold waiting in F3. rewrite Hp in F3. cbn in F3. by rewrite <-app_assoc.
  - intros j x Hj Hx Hne. autorewrite with logs.
    rewrite decide_False, app_nil_r by (apply Hothers; by eapply other_peer). by apply (so_fits _ _ _ _ _ S j x).
  - intros a. autorewrite with logs. destruct (decide (a = peer r)) as [->|Ha].
    + rewrite decide_True by done. unfold waiting in F3. rewrite Hp in F3. cbn in F3.
      apply (within_first _ _ _ _ _ (data <$> pendings (pop r))). by rewrite <-app_assoc.
    + rewrite decide_False, app_nil_r by auto. by apply S.
  - intros a d. rewrite elem_of_app, list_elem_of_singleton. intros [?|?]; [|done]. by eapply (so_rejected _ _ _ _ _ S).
  - intros a. autorewrite with logs. by apply S.
Qed.

(** A route is released. *)
Lemma sound_closed : used r = true → sound o (<[i:=zero_route]> l) h (lg ++ [Closed (fd r)]) n.
Proof.
  intros Hu. pose proof (so_fits _ _ _ _ _ S i r Hi Hu) as [F1 F2 _]. pose proof (active_insert l i r zero_route Hi) as Ha.
  rewrite Hu in Ha. pose proof (other_peer o l h lg n i r Hi S) as Hpeers.
  destruct S as [S1 S2 S3 S4 S5 S6 S7 S8 S9 S10 S11 SR S12].
  split; autorewrite with logs; try done.
  - by rewrite length_insert.
  - cbn in Ha. lia.
  - intros j x Hj Hx. destruct (decide (j = i)) as [->|Hne]; [rewrite (ins _ _ _ Hi) in Hj; by injection Hj as <-|].
    rewrite ins_ne in Hj by done. destruct (S3 j x Hj Hx) as [G1 G2 G3]. split; autorewrite with logs; [set_solver| |].
    + rewrite not_elem_of_app. split; [done|]. intros E%list_elem_of_singleton. apply (Hpeers j x Hj Hne Hx Hu).
      rewrite E in G1. by eapply opened_unique.
    + done.
  - intros j x Hj. destruct (decide (j = i)) as [->|Hne].
    + rewrite (ins _ _ _ Hi) in Hj. injection Hj as <-. split_and!; cbn; unfold QUEUE; [done|lia|lia|done].
    + rewrite ins_ne in Hj by done. eauto.
  - intros j k x y Hj Hk Hx Hy. destruct (decide (j = i)) as [->|Hji]; [rewrite (ins _ _ _ Hi) in Hj; by injection Hj as <-|].
    destruct (decide (k = i)) as [->|Hki]; [rewrite (ins _ _ _ Hi) in Hk; by injection Hk as <-|].
    rewrite ins_ne in Hj, Hk by done. eauto.
  - apply NoDup_app. split_and!; [done|set_solver|apply NoDup_singleton].
  - intros k Hk. apply elem_of_app in Hk as [Hk|Hk%list_elem_of_singleton]; [auto|]. subst. apply opened_elem. eauto.
  - intros k Hk Hk'. apply not_elem_of_app in Hk' as [Hk' Hne]. destruct (S10 k Hk Hk') as (j & x & Hj & Hx & E).
    exists j, x. rewrite ins_ne; [done|]. intros ->. rewrite Hi in Hj. injection Hj as <-. apply Hne. rewrite E. set_solver.
  - intros a. autorewrite with logs. auto.
  - intros a d. rewrite elem_of_app, list_elem_of_singleton. intros [?|?]; [eauto|done].
  - intros a. autorewrite with logs. auto.
Qed.

(** A new socket, on which [connect] fails. *)
Lemma sound_unconnected k a : (n <= k)%nat → sound o l h ((lg ++ [Opened k a]) ++ [Closed k]) (k + 1).
Proof.
  intros Hk. destruct S as [S1 S2 S3 S4 S5 S6 S7 S8 S9 S10 S11 SR S12].
  assert (Hno : k ∉ opened lg) by (intros X%S7; lia).
  split; autorewrite with logs; try done.
  - intros j x Hj Hx. destruct (S3 j x Hj Hx) as [G1 G2 G3]. split; autorewrite with logs; [set_solver| |].
    + rewrite not_elem_of_app. split; [done|]. intros E%list_elem_of_singleton. apply Hno. rewrite <-E. apply opened_elem. eauto.
    + done.
  - apply NoDup_app. split_and!; [done|set_solver|apply NoDup_singleton].
  - intros x Hx. apply elem_of_app in Hx as [Hx|Hx%list_elem_of_singleton]; [apply S7 in Hx|]; lia.
  - apply NoDup_app. split_and!; [done| |apply NoDup_singleton]. intros x Hx Ex%list_elem_of_singleton. subst x. auto.
  - intros x Hx. set_solver.
  - intros x Hx Hx'. apply not_elem_of_app in Hx' as [Hx' Hne]. apply elem_of_app in Hx as [Hx|Hx]; [|done]. auto.
  - intros x. autorewrite with logs. auto.
  - intros x d. rewrite !elem_of_app, !list_elem_of_singleton. intros [[?|?]|?]; [eauto|done..].
  - intros x. autorewrite with logs. auto.
Qed.

(** A new route for a peer that has none. *)
Lemma sound_opened k a : (n <= k)%nat → used r = false → (∀ j x, l !! j = Some x → used x = true → peer x ≠ a) →
  Z.of_nat (active l) < max_clients o → sound o (<[i:=open_route k a r]> l) h (lg ++ [Opened k a]) (k + 1).
Proof.
  intros Hk Hu Hnew Hroom. pose proof (active_insert l i r (open_route k a r) Hi) as Ha. rewrite Hu in Ha. cbn in Ha.
  destruct S as [S1 S2 S3 S4 S5 S6 S7 S8 S9 S10 S11 SR S12]. pose proof (S4 i r Hi) as Hr.
  assert (Hno : k ∉ opened lg) by (intros X%S7; lia).
  split; autorewrite with logs; try done.
  - by rewrite length_insert.
  - lia.
  - intros j x Hj Hx. destruct (decide (j = i)) as [->|Hne].
    + rewrite (ins _ _ _ Hi) in Hj. injection Hj as <-. split; cbn [fd peer open_route]; autorewrite with logs; [set_solver|auto|].
      assert (waiting (open_route k a r) = []) as ->; [|rewrite app_nil_r; by apply S11].
      unfold waiting, pendings. cbn. destruct Hr as (_ & _ & _ & ->); done.
    + rewrite ins_ne in Hj by done. destruct (S3 j x Hj Hx) as [G1 G2 G3]. split; autorewrite with logs; [set_solver|done|done].
  - intros j x Hj. destruct (decide (j = i)) as [->|Hne].
    + rewrite (ins _ _ _ Hi) in Hj. injection Hj as <-. by destruct Hr as (? & ? & ? & _).
    + rewrite ins_ne in Hj by done. eauto.
  - intros j m x y Hj Hm Hx Hy E. destruct (decide (j = i)) as [->|Hji], (decide (m = i)) as [->|Hmi]; [done| | |].
    + rewrite (ins _ _ _ Hi) in Hj. rewrite ins_ne in Hm by done. injection Hj as <-. cbn in E. by destruct (Hnew m y).
    + rewrite (ins _ _ _ Hi) in Hm. rewrite ins_ne in Hj by done. injection Hm as <-. cbn in E. by destruct (Hnew j x).
    + rewrite ins_ne in Hj, Hm by done. eauto.
  - apply NoDup_app. split_and!; [done|set_solver|apply NoDup_singleton].
  - intros x Hx. apply elem_of_app in Hx as [Hx|Hx%list_elem_of_singleton]; [apply S7 in Hx|]; lia.
  - intros x Hx. set_solver.
  - intros x Hx Hx'. apply elem_of_app in Hx as [Hx|Hx%list_elem_of_singleton]; [|subst x].
    + destruct (S10 x Hx Hx') as (j & y & Hj & Hy & E). exists j, y. rewrite ins_ne; [done|]. intros ->. congruence.
    + exists i, (open_route k a r). by rewrite (ins _ _ _ Hi).
  - intros x. autorewrite with logs. auto.
  - intros x d. rewrite elem_of_app, list_elem_of_singleton. intros [?|?]; [eauto|done].
  - intros x. autorewrite with logs. auto.
Qed.
End calls.

(** ** The handlers keep it *)

Definition wp {A} (m : net A) (Q : A → relay_t → Prop) (s : relay_t) : Prop := Q (m s).1 (m s).2.
Lemma net_wp_bind {A B} (m : net A) (f : A → net B) Q s : wp m (λ a, wp (f a) Q) s → wp (m ≫= f) Q s.
Proof. unfold wp, mbind, net_bind. by destruct (m s). Qed.
Lemma net_wp_mono {A} (m : net A) (Q Q' : A → relay_t → Prop) s : wp m Q s → (∀ a s', Q a s' → Q' a s') → wp m Q' s.
Proof. unfold wp. auto. Qed.

Section handlers.
Context `{Net} (o : options_t).

Definition sane (l : list route_t) (h : option (address * list bytes)) (s : relay_t) : Prop :=
  sound o l h (log s) (events s) ∧ (o_truncate o = 0 → truncate s = 0).
(** The slot [i] of [L], outside the table while its handler runs. *)
Definition at_slot (L : list route_t) (i : nat) (h : option (address * list bytes)) (r : route_t) (s : relay_t) : Prop :=
  sane (<[i:=r]> L) h s ∧ routes s = L ∧ (i < length L)%nat.
Definition slot_keeps (h h' : option (address * list bytes)) (f : route_t → net route_t) : Prop :=
  ∀ L i r s, at_slot L i h r s → wp (f r) (at_slot L i h') s.

Lemma at_lookup L i h r s : at_slot L i h r s → <[i:=r]> L !! i = Some r.
Proof. intros (_ & _ & Hi). by apply list_lookup_insert_eq. Qed.
Lemma sane_change l h s lg n : sane l h s → sound o l h lg n → ∀ rs rc fw dc bad,
  sane l h (Relay rs rc fw dc (truncate s) bad n lg).
Proof. intros [_ Ht] S rs rc fw dc bad. by split. Qed.

(** What changes neither the log nor the routes. *)
Lemma at_quiet L i h r s s' : at_slot L i h r s → routes s' = routes s → log s' = log s → truncate s' = truncate s →
  (events s <= events s')%nat → at_slot L i h r s'.
Proof.
  intros ([S Ht] & Hr & Hi) Er El Et En. split_and!; [|congruence|done]. split; rewrite ?El, ?Et; [|done]. by eapply sound_events.
Qed.
Lemma at_route L i h r r' s : at_slot L i h r s → same_route r r' → queue r' = queue r → head r' = head r → count r' = count r →
  at_slot L i h r' s.
Proof.
  intros A ? ? ? ?. pose proof (at_lookup _ _ _ _ _ A) as Hl. destruct A as ([S Ht] & Hr & Hi). split_and!; try done. split; [|done].
  rewrite <-(list_insert_insert_eq L i r' r). by apply (sound_same o _ h _ _ i r).
Qed.
Lemma at_released L i h r s : at_slot L i h r s → wp (release r) (at_slot L i h) s.
Proof.
  intros A. pose proof (at_lookup _ _ _ _ _ A) as Hl. unfold release. destruct (used r) eqn:Hu; unfold wp; cbn.
  - destruct A as ([S Ht] & Hr & Hi). split_and!; [|done|done]. split; [|done].
    change (sound o (<[i:=zero_route]> L) h (log s ++ [Closed (fd r)]) (events s)).
    rewrite <-(list_insert_insert_eq L i zero_route r). by apply sound_closed.
  - destruct A as ([S Ht] & Hr & Hi). split_and!; [|done|done]. split; [|done].
    change (sound o (<[i:=zero_route]> L) h (log s) (events s)).
    rewrite <-(list_insert_insert_eq L i zero_route r). by apply (sound_idle o _ h _ _ i r).
Qed.
Lemma at_rejected L i h r s a x reason msg : at_slot L i h r s → wp (reject a x reason msg) (λ _, at_slot L i h r) s.
Proof.
  intros A. unfold reject, wp, mbind, net_bind, event, note, change. cbn.
  destruct (delivered (events s)); cbn.
  - destruct A as ([S Ht] & Hr & Hi). split_and!; [|done|done]. split; [|done]. cbn. apply sound_rejected. eapply sound_events; [done|lia].
  - by eapply at_quiet; [exact A|..]; cbn; [| | |lia].
Qed.
Lemma at_unavailable L i h r s : at_slot L i h r s → wp (unavailable r) (at_slot L i h) s.
Proof. intros A. apply net_wp_bind. eapply net_wp_mono; [by apply at_rejected|]. intros [] s'. apply at_released. Qed.

Lemma wp_note (e : act) (Q : unit → relay_t → Prop) s : Q tt (set_log (log s ++ [e]) s) → wp (note e) Q s.
Proof. done. Qed.
Lemma wp_event (Q : nat → relay_t → Prop) s :
  Q (events s) (Relay (routes s) (received s) (forwarded s) (discarded s) (truncate s) (failed s) (S (events s)) (log s)) → wp event Q s.
Proof. done. Qed.
Lemma wp_change f (Q : unit → relay_t → Prop) s : Q tt (f s) → wp (change f) Q s.
Proof. done. Qed.
Lemma net_wp_ret {A} (x : A) (Q : A → relay_t → Prop) s : Q x s → wp (mret x) Q s.
Proof. done. Qed.
Lemma net_wp_look {A} (f : relay_t → A) (Q : A → relay_t → Prop) s : Q (f s) s → wp (look f) Q s.
Proof. done. Qed.
Ltac quiet := (eapply at_quiet; [eassumption|done|done|done|cbn; lia]).

Lemma read_upstream_keeps h work : ∀ l L i r s, used r = true → at_slot L i h r s → wp (read_upstream work l r) (at_slot L i h) s.
Proof.
  induction work as [|work IH]; intros l L i r s Hu A; [exact A|]. destruct l as [|[d| |] l]; [exact A| |exact A|by apply at_unavailable].
  cbn [read_upstream]. apply net_wp_bind, wp_note. pose proof (at_lookup _ _ _ _ _ A) as Hl. destruct (_ <? len d).
  { apply net_wp_bind, wp_change. apply IH; [done|].
    assert (A1 : at_slot L i h r (set_log (log s ++ [Answered (fd r) d]) s)); [|quiet].
    destruct A as ([S Ht] & Hr & Hi). split_and!; [|done|done]. split; [|done]. by apply sound_answered. }
  apply net_wp_bind, wp_event. destruct (delivered _); cbn [negb].
  - apply net_wp_bind, wp_note, net_wp_bind, wp_change.
    set (s' := set_forwarded _ _).
    assert (A1 : at_slot L i h r s').
    { destruct A as ([S0 Ht] & Hr & Hi). split_and!; [|done|done]. split; [|done]. cbn.
      replace (peer (if is_ack d then _ else _)) with (peer r) by (by destruct (is_ack d)).
      eapply sound_events; [|apply Nat.le_succ_diag_r]. by apply (sound_forwarded o _ h _ _ i r). }
    set (r' := if is_ack d then _ else _).
    assert (A2 : at_slot L i h r' s') by (eapply at_route; [exact A1|..]; unfold r'; by destruct (is_ack d)).
    destruct (is_end _ d); [by apply at_released|]. apply IH; [unfold r'; by destruct (is_ack d)|exact A2].
  - apply net_wp_bind, wp_change, net_wp_ret.
    assert (A1 : at_slot L i h r (set_log (log s ++ [Answered (fd r) d]) s)).
    { destruct A as ([S0 Ht] & Hr & Hi). split_and!; [|done|done]. split; [|done]. by apply sound_answered. }
    eapply at_route; [quiet|..]; by destruct (is_ack d).
Qed.
Lemma send_pending_keeps h work now : ∀ L i r s, used r = true → at_slot L i h r s → wp (send_pending work now r) (at_slot L i h) s.
Proof.
  induction work as [|work IH]; intros L i r s Hu A; [exact A|]. cbn [send_pending].
  destruct (Nat.eqb_spec (count r) 0) as [|Hc]; [exact A|]. pose proof (at_lookup _ _ _ _ _ A) as Hl.
  assert (Hr : ring_ok r) by (destruct A as ([S _] & _); by apply (so_ring _ _ _ _ _ S i)).
  destruct (pop_fifo r Hr Hc) as (p & Hp & Hpend & Hr'). rewrite Hp. destruct (now <? due p); [exact A|].
  apply net_wp_bind, wp_event. destruct (sends _).
  - apply net_wp_bind, wp_note, net_wp_bind, wp_change. apply IH; [done|].
    destruct A as ([S0 Ht] & Hrt & Hi). split_and!; [|done|done]. split; [|done]. cbn.
    eapply sound_events; [|apply Nat.le_succ_diag_r]. rewrite <-(list_insert_insert_eq L i (pop r) r). by apply sound_upstream.
  - apply net_wp_ret. quiet.
  - apply at_unavailable. quiet.
Qed.
Lemma serve_route_keeps h now idle replies : slot_keeps h h (serve_route now idle replies).
Proof.
  intros L i r s A. unfold serve_route. destruct (used r) eqn:Hu; cbn [negb]; [|exact A].
  apply net_wp_bind. eapply (net_wp_mono _ (at_slot L i h)).
  { destruct replies as [l|]; [by apply read_upstream_keeps|exact A]. }
  clear s A. intros r1 s A. destruct (used r1) eqn:Hu1; cbn [negb]; [|exact A].
  destruct (_ <=? _); [by apply at_released|by apply send_pending_keeps].
Qed.

(** In the table. *)
Definition table (h : option (address * list bytes)) (k : nat) : relay_t → Prop := λ s, sane (routes s) h s ∧ length (routes s) = k.
Lemma on_route_at h h' i r f k s : routes s !! i = Some r → (at_slot (routes s) i h r s → wp (f r) (at_slot (routes s) i h') s) →
  table h k s → wp (on_route i f) (λ _, table h' k) s.
Proof.
  intros E Hf [Hs Hk]. unfold on_route. apply net_wp_bind, net_wp_look. rewrite E.
  apply net_wp_bind. eapply (net_wp_mono _ (at_slot (routes s) i h')).
  { apply Hf. split_and!; [by rewrite list_insert_id|done|by apply lookup_lt_Some in E]. }
  intros r' s' (S & Er & _). apply wp_change. unfold table. cbn [routes set_routes]. rewrite Er, length_insert. split; [exact S|done].
Qed.
Lemma on_route_keeps h h' i f k s : slot_keeps h h' f → (i < k)%nat → table h k s → wp (on_route i f) (λ _, table h' k) s.
Proof.
  intros Hf Hi T. pose proof T as [_ Hk]. destruct (lookup_lt_is_Some_2 (routes s) i) as [r Hr]; [lia|].
  eapply on_route_at; [exact Hr|apply Hf|done].
Qed.
Lemma for_each_keeps h f k l s : (∀ i, slot_keeps h h (f i)) → (∀ i, i ∈ l → (i < k)%nat) → table h k s →
  wp (for_each l (λ i, on_route i (f i))) (λ _, table h k) s.
Proof.
  revert s. induction l as [|i l IH]; intros s Hf Hl T; [done|]. apply net_wp_bind. eapply net_wp_mono; [apply (on_route_keeps h h); [apply Hf|apply Hl; set_solver|done]|].
  intros [] s1 T1. apply IH; [done|set_solver|done].
Qed.

(** A datagram of a peer that has a route. *)
Lemma at_dropped L i h r s : at_slot L i h r s → at_slot L i None r s.
Proof. intros ([S Ht] & Hr & Hi). split_and!; try done. split; [|done]. by eapply held_release. Qed.
Lemma at_discarded L i h r s : at_slot L i h r s → wp discard (λ _, at_slot L i h r) s.
Proof. intros A. apply wp_change. quiet. Qed.
Lemma at_refused L i h r s a x reason msg : at_slot L i h r s → wp (refuse a x reason msg) (λ _, at_slot L i h r) s.
Proof. intros A. apply net_wp_bind. eapply net_wp_mono; [by apply at_rejected|]. intros [] s'. apply at_discarded. Qed.
Lemma at_queued L i a d rest d' t r r' s : used r = true → peer r = a → d' = d ∨ (o_truncate o ≠ 0 ∧ d' = cut 1 d) →
  enqueue r d' t = Some r' → at_slot L i (Some (a, d :: rest)) r s →
  at_slot L i (Some (a, rest)) r' s ∧ used r' = true ∧ peer r' = a.
Proof.
  intros Hu <- Hd E A. pose proof (at_lookup _ _ _ _ _ A) as Hl. destruct A as ([S Ht] & Hr & Hi).
  destruct (enqueue_fifo r d' t r' (so_ring _ _ _ _ _ S i r Hl) Hu E) as (_ & _ & Hu' & _ & Hp' & _).
  split; [|done]. split_and!; [|done|done]. split; [|done]. rewrite <-(list_insert_insert_eq L i r' r).
  by eapply (sound_queued o _ _ _ _ i r Hl S d).
Qed.
Lemma accept_into_keeps now a d L i r s : used r = true → peer r = a → at_slot L i (Some (a, copies o d)) r s →
  wp (accept_into o now a d r) (at_slot L i None) s.
Proof.
  intros Hu Hp A. unfold accept_into. set (r1 := set_activity now r).
  assert (A1 : at_slot L i (Some (a, copies o d)) r1 s) by by eapply at_route.
  assert (H1 : used r1 = true ∧ peer r1 = a) by done. clearbody r1. clear A Hu Hp. destruct H1 as [Hu Hp].
  apply net_wp_bind, net_wp_look. destruct (_ && _).
  { apply net_wp_bind. eapply net_wp_mono; [by apply at_discarded|]. intros [] s' A. by eapply at_dropped. }
  apply net_wp_bind, net_wp_look. set (d' := cut (truncate s) d).
  assert (Hd : d' = d ∨ (o_truncate o ≠ 0 ∧ d' = cut 1 d)).
  { destruct A1 as ([_ Htr] & _). unfold d'. destruct (decide (truncate s = 0)) as [->|Hne]; [by left|right].
    split; [by intros ?%Htr|]. unfold cut. by rewrite (proj2 (Z.eqb_neq _ _) Hne). }
  clearbody d'. apply net_wp_bind. eapply (net_wp_mono _ (λ _, at_slot L i (Some (a, copies o d)) r1)).
  { destruct (negb _) eqn:Etr; [|exact A1]. apply wp_change. destruct A1 as ([S Ht] & Hr & Hi). split_and!; [|done|done]. split; [done|].
    intros E. apply Ht in E. rewrite E in Etr. done. }
  clear s A1. intros [] s A. destruct (enqueue r1 d' _) as [r2|] eqn:E.
  2: { apply net_wp_bind. eapply net_wp_mono; [by apply at_refused|]. intros [] s' A'. by eapply at_dropped. }
  unfold copies in A. destruct (replay o && (16 <=? len d) && (byte_at d 2 =? LAB_PING)).
  - destruct (at_queued _ _ _ _ _ _ _ _ _ _ Hu Hp Hd E A) as (A2 & Hu2 & Hp2). destruct (enqueue r2 d' _) as [r3|] eqn:E3.
    + apply net_wp_ret. destruct (at_queued _ _ _ _ _ _ _ _ _ _ Hu2 Hp2 Hd E3 A2) as (A3 & _). by eapply at_dropped.
    + apply net_wp_bind. eapply net_wp_mono; [by apply at_discarded|]. intros [] s' A'. by eapply at_dropped.
  - apply net_wp_ret. destruct (at_queued _ _ _ _ _ _ _ _ _ _ Hu Hp Hd E A) as (A2 & _). by eapply at_dropped.
Qed.
End handlers.

(** ** The loop keeps it *)

Lemma find_last_Some f l i : find_last f l = Some i → ∃ r, l !! i = Some r ∧ f r = true.
Proof.
  revert i. induction l as [|x l IH]; intros i E; [done|]. cbn in E. destruct (find_last f l) as [j|].
  - injection E as <-. by apply IH.
  - destruct (f x) eqn:Ef; [|done]. injection E as <-. by exists x.
Qed.
Lemma find_last_None f l i r : find_last f l = None → l !! i = Some r → f r = false.
Proof.
  revert i. induction l as [|x l IH]; intros i E Hi; [done|]. cbn in E. destruct (find_last f l) as [j|]; [done|].
  destruct (f x) eqn:Ef; [done|]. destruct i as [|i]; [by injection Hi as <-|by eapply IH].
Qed.
Lemma find_first_Some f l i : find_first f l = Some i → ∃ r, l !! i = Some r ∧ f r = true.
Proof.
  revert i. induction l as [|x l IH]; intros i E; [done|]. cbn in E. destruct (f x) eqn:Ef; [injection E as <-; by exists x|].
  apply fmap_Some in E as (j & Ej & ->). by apply IH.
Qed.
Lemma of_peer_true a r : of_peer a r = true → used r = true ∧ peer r = a.
Proof. unfold of_peer. intros Hr. bools. done. Qed.

Section loops.
Context `{Net} (o : options_t).
Notation table := (table o).

Lemma table_dropped h k s : table h k s → table None k s.
Proof. intros [[S Ht] Hk]. split; [|done]. split; [|done]. by eapply held_release. Qed.
Lemma table_quiet h k s s' : table h k s → routes s' = routes s → log s' = log s → truncate s' = truncate s →
  (events s <= events s')%nat → table h k s'.
Proof.
  intros [[S Ht] Hk] Er El Et En. split; rewrite Er; [|done]. split; rewrite ?El, ?Et; [|done]. by eapply sound_events.
Qed.
Lemma table_refused h k s a x reason msg : table h k s → wp (refuse a x reason msg) (λ _, table h k) s.
Proof.
  intros T. apply net_wp_bind. unfold reject. apply net_wp_bind, wp_event. destruct (delivered _).
  - apply wp_note, wp_change. destruct T as [[S Ht] Hk]. split; [|done]. split; [|done]. cbn. apply sound_rejected.
    eapply sound_events; [done|lia].
  - apply wp_change, wp_change. eapply table_quiet; [done..|cbn; lia].
Qed.
Lemma connect_keeps h k i a r s : routes s !! i = Some r → used r = false →
  (∀ j x, routes s !! j = Some x → used x = true → peer x ≠ a) → Z.of_nat (active (routes s)) < max_clients o → table h k s →
  wp (connect i a) (λ ok s', table h k s' ∧ (ok = true → ∃ r', routes s' !! i = Some r' ∧ used r' = true ∧ peer r' = a)) s.
Proof.
  intros Hi Hu Hnew Hroom T. unfold connect. apply net_wp_bind, wp_event. destruct (binds _); cbn [negb].
  2: { apply net_wp_bind, wp_change, net_wp_ret. split; [|done]. eapply table_quiet; [done..|cbn; lia]. }
  apply net_wp_bind, wp_note, net_wp_bind, wp_event. destruct T as [[S Ht] Hk]. destruct (connects _); cbn [negb].
  - apply net_wp_bind. unfold on_route. apply net_wp_bind, net_wp_look. cbn [routes set_log]. rewrite Hi.
    apply net_wp_bind, net_wp_ret, wp_change, net_wp_ret. unfold set_routes, LabAdapter.set_log. cbn [routes]. split.
    + split; cbn [routes]; [|by rewrite length_insert]. split; [|done]. cbn [log events].
      eapply sound_events; [by eapply sound_opened|lia].
    + intros _. exists (open_route (events s) a r). split_and!; [|done|done]. apply list_lookup_insert_eq. by apply lookup_lt_Some in Hi.
  - apply net_wp_bind, wp_note, net_wp_bind, wp_change, net_wp_ret. split; [|done]. split; [|done]. split; [|done]. cbn.
    eapply sound_events; [by eapply sound_unconnected|lia].
Qed.
Lemma take_datagram_keeps now a d k s : table None k s → wp (take_datagram o now a d) (λ _, table None k) s.
Proof.
  intros T. unfold take_datagram. destruct (is_loopback a); cbn [negb]; [|exact T].
  apply net_wp_bind, wp_note, net_wp_bind, wp_change, net_wp_bind, net_wp_look. set (s1 := set_received _ _).
  assert (T1 : table (Some (a, copies o d)) k s1).
  { destruct T as [[S Ht] Hk]. split; [|done]. split; [|done]. by apply sound_arrived. }
  clearbody s1. clear s T.
  assert (Hrefuse : ∀ x reason msg, wp (_ ← refuse a x reason msg; mret true) (λ _, table None k) s1).
  { intros x reason msg. apply net_wp_bind. eapply net_wp_mono; [by apply table_refused|]. intros [] s'. by apply table_dropped. }
  destruct (_ <? len d); [apply Hrefuse|]. destruct (find_last (of_peer a) (routes s1)) as [i|] eqn:El.
  - apply find_last_Some in El as (r & Hr & [Hu Hp]%of_peer_true). apply net_wp_bind.
    eapply net_wp_mono; [eapply (on_route_at o (Some (a, copies o d)) None); [exact Hr|by apply accept_into_keeps|done]|]. by intros [] s'.
  - destruct (needs_session d); [apply Hrefuse|]. destruct (find_first _ (routes s1)) as [i|] eqn:Ef; [|apply Hrefuse].
    destruct (Z.leb_spec (max_clients o) (Z.of_nat (active (routes s1)))) as [|Hroom]; [apply Hrefuse|].
    apply find_first_Some in Ef as (r & Hr & Hu). apply negb_true_iff in Hu. apply net_wp_bind.
    eapply net_wp_mono; [eapply (connect_keeps (Some (a, copies o d)) k i a r); try done|].
    { intros j x Hj Hx E. pose proof (find_last_None _ _ _ _ El Hj) as Hf. unfold of_peer in Hf. rewrite Hx in Hf. cbn in Hf.
      by apply bool_decide_eq_false in Hf. }
    intros [] s2 [T2 Hnew]; [|by apply table_dropped in T2].
    destruct (Hnew eq_refl) as (r' & Hr' & Hu' & Hp'). apply net_wp_bind.
    eapply net_wp_mono; [eapply (on_route_at o (Some (a, copies o d)) None); [exact Hr'|by apply accept_into_keeps|done]|]. by intros [] s'.
Qed.
Lemma read_peers_keeps now work k : ∀ l s, table None k s → wp (read_peers o now work l) (λ _, table None k) s.
Proof.
  induction work as [|work IH]; intros l s T; [exact T|]. destruct l as [|[a d| | |] l]; [exact T| |by apply IH|exact T|].
  - apply net_wp_bind. eapply net_wp_mono; [by apply take_datagram_keeps|]. intros [] s1 T1; [by apply IH|exact T1].
  - apply wp_change. eapply table_quiet; [done..|cbn; lia].
Qed.
Lemma routes_in i : i ∈ all_routes → (i < ROUTES)%nat.
Proof. intros Hi%elem_of_seq. lia. Qed.
Lemma round_keeps w s : table None ROUTES s → wp (round o w) (λ _, table None ROUTES) s.
Proof.
  intros T. destruct w as [| |now replies listening]; [exact T|by eapply table_quiet|]. apply net_wp_bind.
  eapply net_wp_mono; [apply for_each_keeps; [|apply routes_in|done]|].
  - intros i. apply serve_route_keeps.
  - intros [] s1 T1. destruct listening as [| |l]; [exact T1|by eapply table_quiet|by apply read_peers_keeps].
Qed.
Lemma loop_keeps wakes s : table None ROUTES s → wp (loop o wakes) (λ _, table None ROUTES) s.
Proof.
  revert s. induction wakes as [|w wakes IH]; intros s T; [exact T|]. apply net_wp_bind, net_wp_look. destruct (failed s); [exact T|].
  apply net_wp_bind. eapply net_wp_mono; [by apply round_keeps|]. intros [] s1. apply IH.
Qed.
Lemma table_boot : 0 <= max_clients o → table None ROUTES (boot o).
Proof.
  intros Hmax. split; [|done]. split; [|done]. cbn [routes boot log events].
  assert (Hz : ∀ i r, replicate ROUTES zero_route !! i = Some r → r = zero_route) by (by intros i r [-> _]%lookup_replicate).
  assert (Ha : active (replicate ROUTES zero_route) = O) by reflexivity.
  split.
  - by rewrite length_replicate.
  - by rewrite Ha.
  - by intros i r ->%Hz.
  - intros i r ->%Hz. split_and!; cbn; unfold QUEUE; [done|lia|lia|done].
  - by intros i j x y ->%Hz.
  - apply NoDup_nil_2.
  - by intros k Hk%elem_of_nil.
  - apply NoDup_nil_2.
  - by intros k Hk%elem_of_nil.
  - by intros k Hk%elem_of_nil.
  - intros a. exists []. split; [done|constructor].
  - by intros a d Hd%elem_of_nil.
  - intros a. constructor.
Qed.
End loops.

(** ** The end of the adapter *)

Section ending.
Context `{Net} (o : options_t).

Lemma release_all l s : NoDup l → (∀ i, i ∈ l → (i < ROUTES)%nat) → table o None ROUTES s →
  wp (for_each l (λ i, on_route i release))
    (λ _ s', table o None ROUTES s' ∧ (∀ i, i ∈ l → routes s' !! i = Some zero_route) ∧ ∀ i, i ∉ l → routes s' !! i = routes s !! i) s.
Proof.
  revert s. induction l as [|i l IH]; intros s Hn Hl T.
  { split_and!; [done|by intros i Hi%elem_of_nil|done]. }
  apply NoDup_cons in Hn as [Hi Hn]. pose proof T as [[S _] Hk].
  destruct (lookup_lt_is_Some_2 (routes s) i) as [r Hr]; [rewrite Hk; apply Hl; set_solver|].
  assert (E : wp (on_route i release) (λ _ s', routes s' = <[i:=zero_route]> (routes s)) s).
  { unfold on_route. apply net_wp_bind, net_wp_look. rewrite Hr. unfold release. by destruct (used r). }
  apply net_wp_bind. eapply (net_wp_mono _ (λ _ s', table o None ROUTES s' ∧ routes s' = <[i:=zero_route]> (routes s))).
  { split; [|exact E]. apply (on_route_keeps o None None); [|apply Hl; set_solver|done]. intros L j x s'. apply at_released. }
  intros [] s1 [T1 E1]. eapply net_wp_mono; [apply IH; [done|set_solver|done]|].
  intros [] s2 (T2 & Hin & Hout). split; [done|]. split.
  - intros j Hj. apply elem_of_cons in Hj as [->|Hj]; [|by apply Hin]. rewrite Hout by done. rewrite E1.
    apply list_lookup_insert_eq. by apply lookup_lt_Some in Hr.
  - intros j Hj. apply not_elem_of_cons in Hj as [Hne Hj]. rewrite Hout by done. rewrite E1. by apply list_lookup_insert_ne.
Qed.
Lemma main_ends wakes close_fails : 0 <= max_clients o →
  let s := (main o wakes close_fails (boot o)).2 in
  table o None ROUTES s ∧ ∀ i r, routes s !! i = Some r → r = zero_route.
Proof.
  intros Hmax. apply (table_boot o), (loop_keeps o wakes) in Hmax. cbn zeta.
  assert (W : wp (main o wakes close_fails) (λ _ s, table o None ROUTES s ∧ ∀ i r, routes s !! i = Some r → r = zero_route) (boot o)); [|exact W].
  unfold main. apply net_wp_bind. eapply net_wp_mono; [exact Hmax|]. clear Hmax. intros [] s T. apply net_wp_bind.
  eapply net_wp_mono; [apply release_all; [apply NoDup_seq|apply routes_in|exact T]|].
  intros [] s1 (T1 & Hz & _). apply net_wp_bind, net_wp_look, net_wp_ret. split; [done|]. intros i r Hi.
  rewrite Hz in Hi; [by injection Hi as <-|]. apply elem_of_seq. apply lookup_lt_Some in Hi. destruct T1 as [_ Hk]. rewrite Hk in Hi. lia.
Qed.
End ending.

Lemma parse_options_range args o o' : parse_options args o = Some o' → 1 <= max_clients o <= 32 → 1 <= max_clients o' <= 32.
Proof.
  remember (length args) as n eqn:En. assert (Hn : (length args <= n)%nat) by lia. clear En. revert args o Hn.
  induction n as [|n IH]; intros [|x args] o Hn E Ho; cbn in Hn; [by injection E as <-|lia|by injection E as <-|]. cbn [parse_options] in E.
  destruct (named "-v" x); [eapply IH; [|exact E|exact Ho]; lia|]. destruct (named "--replay-last" x); [eapply IH; [|exact E|exact Ho]; lia|].
  destruct args as [|value args]; [done|]. cbn in Hn. destruct (one_option x value o) as [o1|] eqn:E1; [|done]. cbn in E.
  eapply IH; [|exact E|]; [lia|]. unfold one_option in E1.
  repeat match type of E1 with context [if ?c then _ else _] => destruct c end; try done;
    match type of E1 with context [mbind _ ?m] => destruct m as [z|] eqn:Ez end; try done; injection E1 as <-; cbn; try done.
  by apply parse_u32_exact in Ez as (? & _ & _ & ?).
Qed.
Lemma started_range args o : parse_options args default_options = Some o → 1 <= max_clients o <= 32.
Proof. intros E. eapply parse_options_range; [exact E|]. cbn. lia. Qed.

(** ** The theorems *)

(** The adapter's table: whatever the peers, the policy server and the network did,
    there are 32 slots, no more routes than allowed, no two for one peer, and
    each route has an open socket of its own, opened for its peer; every open
    socket belongs to a route. *)
Theorem routes_kept `{Net} args o wakes : parse_options args default_options = Some o →
  let s := (loop o wakes (boot o)).2 in
  length (routes s) = 32%nat ∧ Z.of_nat (active (routes s)) <= max_clients o <= 32 ∧ distinct (routes s) ∧
  (∀ i r, routes s !! i = Some r → used r = true →
     Opened (fd r) (peer r) ∈ log s ∧ fd r ∉ closed (log s) ∧ (count r <= 32)%nat) ∧
  (∀ k, k ∈ opened (log s) → k ∉ closed (log s) → ∃ i r, routes s !! i = Some r ∧ used r = true ∧ fd r = k).
Proof.
  intros E. apply started_range in E. pose proof (loop_keeps o wakes (boot o) (table_boot o ltac:(lia))) as [[S _] Hk].
  cbn zeta. split_and!; [exact Hk|apply S|lia|apply S| |apply S].
  intros i r Hi Hu. destruct (so_fits _ _ _ _ _ S i r Hi Hu) as [F1 F2 _].
  split_and!; [done|done|]. by apply (so_ring _ _ _ _ _ S i r).
Qed.

(** C16.  The adapter carries the datagrams of each peer faithfully: in every run, with any
    options, whatever arrives and whatever fails, what it sends upstream on the
    sockets of a peer is, in order and each at most once, what it received of that
    peer, where under [--replay-last] a ping counts twice and under [--truncate] a
    datagram may have lost its last eight bytes; without these two faults, it is
    exactly that.  What it sends a peer is, in order and each at most once, what it
    heard on the peer's sockets, and resets of its own.  When it ends, every socket
    it opened is closed, once. *)
Theorem adapter_is_faithful `{Net} args o wakes close_fails : parse_options args default_options = Some o →
  let lg := log (main o wakes close_fails (boot o)).2 in
  (∀ a, carried o (sent_for a lg) (arrivals a lg ≫= copies o)) ∧
  (plain o → ∀ a, sublist (sent_for a lg) (arrivals a lg)) ∧
  (∀ a, sublist (forwards a lg) (heard_for a lg)) ∧
  (∀ a d, Rejected a d ∈ lg → ∃ x reason msg, d = rst_datagram x reason msg) ∧
  NoDup (opened lg) ∧ closed lg ≡ₚ opened lg.
Proof.
  intros E. apply started_range in E. destruct (main_ends o wakes close_fails) as [[[S _] _] Hz]; [lia|]. cbn zeta.
  assert (Hc : ∀ a, carried o (sent_for a (log (main o wakes close_fails (boot o)).2)) (arrivals a (log (main o wakes close_fails (boot o)).2) ≫= copies o)).
  { intros a. destruct (so_sent _ _ _ _ _ S a) as (A & EA & C). cbn in EA. rewrite app_nil_r in EA. by rewrite EA. }
  split_and!; [exact Hc| |apply S|apply S|apply S|].
  - intros Hp a. specialize (Hc a). rewrite copies_plain in Hc by done. by apply carried_plain in Hc.
  - apply NoDup_Permutation; [apply S|apply S|]. intros k. split; [apply S|]. intros Hk. destruct (decide (k ∈ closed (log (main o wakes close_fails (boot o)).2))) as [|Hno]; [done|].
    destruct (so_open _ _ _ _ _ S k Hk Hno) as (i & r & Hi & Hu & _). by rewrite (Hz i r Hi) in Hu.
Qed.

(** ** What arrives is relayed *)

(** The network sends what it is given. *)
Definition healthy `{Net} : Prop := (∀ n, delivered n = true) ∧ ∀ n, sends n = Sent.
(** What a handler under a healthy network leaves as it was, the log growing. *)
Definition calm (s s' : relay_t) : Prop :=
  failed s' = failed s ∧ routes s' = routes s ∧ truncate s' = truncate s ∧ ∃ more, log s' = log s ++ more.
Lemma quiet_refl s : calm s s.
Proof. split_and!; try done. exists []. by rewrite app_nil_r. Qed.
Lemma quiet_trans s s' s'' : calm s s' → calm s' s'' → calm s s''.
Proof.
  intros (? & ? & ? & m & E) (? & ? & ? & m' & E'). split_and!; try congruence. exists (m ++ m'). by rewrite E', E, app_assoc.
Qed.
Lemma calm_keeps e s s' : calm s s' → e ∈ log s → e ∈ log s'.
Proof. intros (_ & _ & _ & m & ->). set_solver. Qed.

Section relaying.
Context `{Net} (o : options_t).
Hypothesis Hnet : healthy.

Lemma calm_step s s' : failed s' = failed s → routes s' = routes s → truncate s' = truncate s → log s' = log s → calm s s'.
Proof. intros. split_and!; try done. exists []. by rewrite app_nil_r. Qed.
Lemma calm_note e s : calm s (set_log (log s ++ [e]) s).
Proof. split_and!; try done. by exists [e]. Qed.
Ltac calmly := (eapply quiet_trans; [eassumption|by apply calm_step]).

Lemma reject_calm a x reason msg s s0 : calm s0 s → wp (reject a x reason msg) (λ _, calm s0) s.
Proof.
  intros C. apply net_wp_bind, wp_event. rewrite (proj1 Hnet). apply wp_note. eapply quiet_trans; [|apply calm_note]. calmly.
Qed.
Lemma release_calm r s s0 : calm s0 s → wp (release r) (λ _, calm s0) s.
Proof.
  intros C. unfold release. destruct (used r); [|exact C]. apply net_wp_bind, wp_note, net_wp_ret. eapply quiet_trans; [exact C|apply calm_note].
Qed.
Lemma unavailable_calm r s s0 : calm s0 s → wp (unavailable r) (λ _, calm s0) s.
Proof. intros C. apply net_wp_bind. eapply net_wp_mono; [by apply reject_calm|]. intros [] s'. apply release_calm. Qed.
Lemma read_upstream_calm work : ∀ l r s s0, calm s0 s → wp (read_upstream work l r) (λ _, calm s0) s.
Proof.
  induction work as [|work IH]; intros l r s s0 C; [exact C|]. destruct l as [|[d| |] l]; [exact C| |exact C|by apply unavailable_calm].
  cbn [read_upstream]. apply net_wp_bind, wp_note. assert (C1 := quiet_trans _ _ _ C (calm_note (Answered (fd r) d) s)).
  destruct (_ <? _); [apply net_wp_bind, wp_change, IH; calmly|]. apply net_wp_bind, wp_event. rewrite (proj1 Hnet). cbn [negb].
  apply net_wp_bind, wp_note, net_wp_bind, wp_change.
  set (s2 := set_forwarded _ _). assert (C2 : calm s0 s2).
  { eapply quiet_trans; [exact C1|]. split_and!; try done. by eexists. }
  destruct (is_end _ _); [by apply release_calm|by apply IH].
Qed.
Lemma send_pending_calm work now : ∀ r s s0, calm s0 s → wp (send_pending work now r) (λ _, calm s0) s.
Proof.
  induction work as [|work IH]; intros r s s0 C; [exact C|]. cbn [send_pending]. destruct (_ =? 0)%nat; [exact C|].
  destruct (queue r !! head r) as [p|]; [|exact C]. destruct (now <? due p); [exact C|]. apply net_wp_bind, wp_event. rewrite (proj2 Hnet).
  apply net_wp_bind, wp_note, net_wp_bind, wp_change, IH. eapply quiet_trans; [exact C|]. split_and!; try done. by eexists.
Qed.
Lemma serve_route_calm now idl replies r s : wp (serve_route now idl replies r) (λ _, calm s) s.
Proof.
  unfold serve_route. destruct (negb (used r)); [apply quiet_refl|]. apply net_wp_bind. eapply (net_wp_mono _ (λ _, calm s)).
  { destruct replies; [apply read_upstream_calm|]; apply quiet_refl. }
  intros r' s' C. destruct (negb (used r')); [exact C|]. destruct (_ <=? _); [by apply release_calm|by apply send_pending_calm].
Qed.

(** The loop on the routes, seen at one of them. *)
Definition sees (i : nat) (s s' : relay_t) : Prop :=
  failed s' = failed s ∧ truncate s' = truncate s ∧ length (routes s') = length (routes s) ∧
  (∀ j, j ≠ i → routes s' !! j = routes s !! j) ∧ ∃ more, log s' = log s ++ more.
Lemma on_route_sees i now idl replies s : (i < length (routes s))%nat →
  wp (on_route i (serve_route now idl replies)) (λ _, sees i s) s.
Proof.
  intros Hi. unfold on_route. apply net_wp_bind, net_wp_look. destruct (lookup_lt_is_Some_2 _ _ Hi) as [r ->]. apply net_wp_bind.
  eapply net_wp_mono; [apply serve_route_calm|]. intros r' s' (F & R & T & m & L). apply wp_change. unfold sees. cbn [routes failed truncate log set_routes].
  rewrite R, length_insert. split_and!; try done; [intros j Hj; by apply list_lookup_insert_ne|by exists m].
Qed.
Lemma serve_all now idl (f : nat → option (list reply)) i r (P : route_t → relay_t → Prop) l s :
  NoDup l → i ∈ l → (∀ j, j ∈ l → (j < length (routes s))%nat) → routes s !! i = Some r → failed s = false →
  (∀ s0, truncate s0 = truncate s → failed s0 = false → (∃ more, log s0 = log s ++ more) → wp (serve_route now idl (f i) r) P s0) →
  (∀ x s1 s2, P x s1 → (∃ more, log s2 = log s1 ++ more) → P x s2) →
  wp (for_each l (λ j, on_route j (serve_route now idl (f j))))
    (λ _ s', failed s' = false ∧ truncate s' = truncate s ∧ length (routes s') = length (routes s) ∧ ∃ x, routes s' !! i = Some x ∧ P x s') s.
Proof.
  revert s. assert (Hlater : ∀ l s, i ∉ l → (∀ j, j ∈ l → (j < length (routes s))%nat) → failed s = false →
    wp (for_each l (λ j, on_route j (serve_route now idl (f j))))
      (λ _ s', failed s' = false ∧ truncate s' = truncate s ∧ length (routes s') = length (routes s) ∧ routes s' !! i = routes s !! i ∧ ∃ more, log s' = log s ++ more) s).
  { clear l. induction l as [|j l IH]; intros s Hi Hl Hf; [split_and!; try done; exists []; by rewrite app_nil_r|].
    apply not_elem_of_cons in Hi as [Hne Hi]. apply net_wp_bind. eapply net_wp_mono; [apply on_route_sees, Hl; set_solver|].
    intros [] s1 (F1 & T1 & L1 & R1 & m & E1). eapply net_wp_mono; [apply IH; [done..| |congruence]|]; [intros k Hk; rewrite L1; apply Hl; set_solver|].
    intros [] s2 (F2 & T2 & L2 & R2 & m' & E2). split_and!; try congruence; [by rewrite R2, R1|]. exists (m ++ m'). by rewrite E2, E1, app_assoc. }
  induction l as [|j l IH]; intros s Hn Hi Hl Hr Hf HP Hmore; [by apply elem_of_nil in Hi|]. apply NoDup_cons in Hn as [Hj Hn].
  cbn [for_each]. destruct (decide (j = i)) as [->|Hne].
  - apply net_wp_bind. eapply (net_wp_mono _ (λ _ s', sees i s s' ∧ ∃ x, routes s' !! i = Some x ∧ P x s')).
    { split; [apply on_route_sees, Hl; set_solver|].
      assert (E : wp (on_route i (serve_route now idl (f i))) (λ _ s', ∃ x, routes s' !! i = Some x ∧ P x s') s); [|exact E].
      unfold on_route. apply net_wp_bind, net_wp_look. rewrite Hr. apply net_wp_bind.
      eapply (net_wp_mono _ (λ x s', P x s' ∧ routes s' = routes s)).
      - split; [apply HP; [done..|exists []; by rewrite app_nil_r]|]. by destruct (serve_route_calm now idl (f i) r s) as (_ & ? & _).
      - intros x s' [Hx E]. apply wp_change. exists x. cbn [routes set_routes]. rewrite E. split.
        + apply list_lookup_insert_eq. by apply lookup_lt_Some in Hr.
        + eapply Hmore; [exact Hx|]. exists []. by rewrite app_nil_r. }
    intros [] s1 ((F1 & T1 & L1 & _ & _) & x & Hx & HPx). eapply net_wp_mono; [apply (Hlater l s1 Hj); [|congruence]|].
    { intros k Hk. rewrite L1. apply Hl. set_solver. }
    intros [] s2 (F2 & T2 & L2 & R2 & E2). split_and!; try congruence. exists x. rewrite R2. split; [done|]. by eapply Hmore.
  - apply net_wp_bind. eapply net_wp_mono; [apply on_route_sees, Hl; set_solver|]. intros [] s1 (F1 & T1 & L1 & R1 & m & E1).
    eapply net_wp_mono; [apply (IH s1)|]; try done.
    + set_solver.
    + intros k Hk. rewrite L1. apply Hl. set_solver.
    + rewrite R1; [done|congruence].
    + congruence.
    + intros s0 T0 F0 (m0 & E0). apply HP; [congruence|done|]. exists (m ++ m0). by rewrite E0, E1, app_assoc.
    + intros [] s2 (F2 & T2 & L2 & x & Hx & HPx). split_and!; try congruence. eauto.
Qed.

(** *** A round trip *)

Lemma loop_cons w l s : loop o (w :: l) s = if failed s then (tt, s) else loop o l (round o w s).2.
Proof. cbn [loop]. unfold mbind, net_bind, look. destruct (failed s); [done|]. by destruct (round o w s). Qed.
Lemma loop_app l1 l2 s : (loop o (l1 ++ l2) s).2 = (loop o l2 (loop o l1 s).2).2.
Proof.
  revert s. induction l1 as [|w l1 IH]; intros s; [done|]. rewrite <-app_comm_cons, !loop_cons.
  destruct (failed s) eqn:E; [|apply IH]. cbn [snd]. destruct l2; [done|]. by rewrite loop_cons, E.
Qed.
Definition faultless : Prop := o_truncate o = 0 ∧ drop_every o = 0 ∧ delay o = 0 ∧ replay o = false.
(** The route of a peer after its datagram. *)
Definition holding (r : route_t) (d : bytes) (t : Z) : route_t :=
  Route (used r) (fd r) (peer r) t (session r) (<[head r := Pending d t]> (queue r)) (head r) 1.
Lemma accept_into_holds now a d r s : faultless → truncate s = 0 → 0 <= now < 2 ^ 64 → (head r < QUEUE)%nat → count r = O →
  accept_into o now a d r s = (holding r d now, s).
Proof.
  intros (_ & Hd & Hdel & Hrep) Ht Hnow Hh Hc. unfold accept_into, mbind, net_bind, look. cbn.
  rewrite Hd, Hdel, Hrep. cbn [Z.eqb negb andb]. rewrite Ht. cbn [Z.eqb negb andb]. unfold mret, net_ret, enqueue. cbn [count head set_activity]. rewrite Hc. cbn [Nat.eqb].
  unfold cut. cbn [Z.eqb negb andb]. rewrite Nat.add_0_r, Z.add_0_r, Nat.mod_small by done.
  unfold u64. rewrite Z.mod_small by done. reflexivity.
Qed.
Lemma take_datagram_holds now a d s i r : table o None ROUTES s → faultless → truncate s = 0 → 0 <= now < 2 ^ 64 →
  routes s !! i = Some r → used r = true → peer r = a → count r = O → is_loopback a = true → len d <= LAB_MAX_DATAGRAM →
  wp (take_datagram o now a d) (λ go s', go = true ∧ failed s' = failed s ∧ truncate s' = truncate s ∧
    routes s' !! i = Some (holding r d now) ∧ length (routes s') = length (routes s) ∧ ∃ more, log s' = log s ++ more) s.
Proof.
  intros [[S _] _] Hf Ht Hnow Hr Hu Hp Hc Hlo Hd. unfold take_datagram. rewrite Hlo. cbn [negb].
  apply net_wp_bind, wp_note, net_wp_bind, wp_change, net_wp_bind, net_wp_look. cbn [routes set_received set_log].
  destruct (Z.ltb_spec LAB_MAX_DATAGRAM (len d)) as [|_]; [lia|].
  assert (find_last (of_peer a) (routes s) = Some i) as ->.
  { destruct (find_last _ _) as [j|] eqn:El.
    - apply find_last_Some in El as (x & Hx & [Hxu Hxp]%of_peer_true). f_equal. apply (so_peers _ _ _ _ _ S j i x r); congruence.
    - pose proof (find_last_None _ _ _ _ El Hr) as Hno. unfold of_peer in Hno. rewrite Hu, bool_decide_eq_true_2 in Hno by done. done. }
  apply net_wp_bind. unfold on_route. apply net_wp_bind, net_wp_look. cbn [routes set_received set_log]. rewrite Hr. apply net_wp_bind.
  unfold wp at 1. pose proof (so_ring _ _ _ _ _ S i r Hr) as (_ & Hh & _).
  rewrite accept_into_holds by (cbn; done). apply wp_change, net_wp_ret. cbn [fst snd]. unfold set_routes. cbn [failed truncate routes log set_received set_log].
  rewrite length_insert. split_and!; try done; [|by eexists]. apply list_lookup_insert_eq. by apply lookup_lt_Some in Hr.
Qed.
Lemma serve_holds r t now replies s (Q : route_t → relay_t → Prop) : used r = true → count r = O → u64 (now - activity r) < idle o →
  replies = None → Q r s → t = now → wp (serve_route t (idle o) replies r) Q s.
Proof.
  intros Hu Hc Hi -> HQ ->. unfold serve_route. rewrite Hu. cbn [negb]. apply net_wp_bind, net_wp_ret. rewrite Hu. cbn [negb].
  destruct (Z.leb_spec (idle o) (u64 (now - activity r))); [lia|]. cbn [send_pending]. by rewrite Hc.
Qed.
Lemma serve_sends r d t now s : ring_ok r → used r = true → 0 <= t <= now → u64 (now - t) < idle o →
  wp (serve_route now (idle o) None (holding r d t)) (λ x s', x = pop (holding r d t) ∧ ∃ more, log s' = log s ++ more ∧ Upstream (fd r) d ∈ more) s.
Proof.
  intros (Hl & Hh & _) Hu Ht Hi. unfold serve_route. cbn [used holding]. rewrite Hu. cbn [negb]. apply net_wp_bind, net_wp_ret. cbn [used activity holding]. rewrite Hu. cbn [negb].
  destruct (Z.leb_spec (idle o) (u64 (now - t))); [lia|]. cbn [send_pending count head queue holding Nat.eqb].
  rewrite list_lookup_insert_eq by lia. cbn [due data]. destruct (Z.ltb_spec now t); [lia|].
  apply net_wp_bind, wp_event. rewrite (proj2 Hnet). apply net_wp_bind, wp_note, net_wp_bind, wp_change.
  cbn [send_pending count pop Nat.eqb Nat.sub]. apply net_wp_ret. split; [done|]. eexists. split; [done|]. set_solver.
Qed.
Lemma serve_answers r x now s : used r = true → len x <= LAB_MAX_DATAGRAM →
  wp (serve_route now (idle o) (Some [Answer x]) r) (λ _ s', ∃ more, log s' = log s ++ more ∧ Forwarded (peer r) x ∈ more) s.
Proof.
  intros Hu Hx. unfold serve_route. rewrite Hu. cbn [negb]. apply net_wp_bind.
  assert (W : wp (read_upstream 16 [Answer x] r) (λ _ s', ∃ more, log s' = log s ++ more ∧ Forwarded (peer r) x ∈ more) s).
  { cbn [read_upstream]. apply net_wp_bind, wp_note. destruct (Z.ltb_spec LAB_MAX_DATAGRAM (len x)); [lia|].
    apply net_wp_bind, wp_event. rewrite (proj1 Hnet). cbn [negb]. apply net_wp_bind, wp_note, net_wp_bind, wp_change.
    set (r1 := if is_ack x then _ else _). assert (Hp : peer r1 = peer r) by (unfold r1; by destruct (is_ack x)). rewrite Hp.
    set (s1 := set_forwarded _ _).
    assert (C : ∀ (m : net route_t), wp m (λ _, calm s1) s1 → wp m (λ _ s', ∃ more, log s' = log s ++ more ∧ Forwarded (peer r) x ∈ more) s1).
    { intros m Hm. eapply net_wp_mono; [exact Hm|]. intros y s2 (_ & _ & _ & m2 & E). exists ([Answered (fd r) x; Forwarded (peer r) x] ++ m2). split; [|set_solver].
      rewrite E. unfold s1. cbn. by rewrite <-!app_assoc. }
    destruct (is_end _ _); apply C; [apply release_calm, quiet_refl|apply quiet_refl]. }
  eapply net_wp_mono; [exact W|]. intros r1 s1 (m & E & Hin).
  assert (C : ∀ (f : net route_t), wp f (λ _, calm s1) s1 → wp f (λ _ s', ∃ more, log s' = log s ++ more ∧ Forwarded (peer r) x ∈ more) s1).
  { intros f Hm. eapply net_wp_mono; [exact Hm|]. intros y s2 (_ & _ & _ & m2 & E2). exists (m ++ m2). split; [by rewrite E2, E, app_assoc|set_solver]. }
  destruct (negb (used r1)); [apply C, quiet_refl|]. destruct (_ <=? _); apply C; [apply release_calm|apply send_pending_calm]; apply quiet_refl.
Qed.
End relaying.

Section round_trip.
Context `{Net} (o : options_t).
Hypothesis Hnet : healthy.
(** How the log went on, and with what. *)
Definition gains (s s' : relay_t) (e : act → Prop) : Prop := ∃ more, log s' = log s ++ more ∧ ∃ x, x ∈ more ∧ e x.
Lemma gains_more s s0 s1 s' e : (∃ m, log s0 = log s ++ m) → gains s0 s1 e → (∃ m, log s' = log s1 ++ m) → gains s s' e.
Proof.
  intros [m0 E0] (m & E & x & Hx & He) [m1 E1]. exists (m0 ++ m ++ m1). split; [by rewrite E1, E, E0, !app_assoc|]. exists x. set_solver.
Qed.
(** A turn of the routes, seen at the route [i]. *)
Lemma turn_of now replies i r (P : route_t → Prop) (e : act → Prop) s :
  length (routes s) = ROUTES → failed s = false → routes s !! i = Some r →
  (∀ s0, wp (serve_route now (idle o) (default None (replies !! i)) r) (λ y s', P y ∧ gains s0 s' e) s0) →
  wp (round o (Awake now replies Silent)) (λ _ s', failed s' = false ∧ truncate s' = truncate s ∧ length (routes s') = ROUTES ∧
    ∃ y, routes s' !! i = Some y ∧ P y ∧ gains s s' e) s.
Proof.
  intros Hk Hs Hr HP. apply net_wp_bind.
  eapply net_wp_mono; [apply (serve_all Hnet now (idle o) (λ j, default None (replies !! j)) i r (λ y s', P y ∧ gains s s' e))|].
  - apply NoDup_seq.
  - apply elem_of_seq. apply lookup_lt_Some in Hr. lia.
  - intros j Hj. rewrite Hk. by apply routes_in.
  - done.
  - done.
  - intros s0 _ _ M0. eapply net_wp_mono; [apply HP|]. intros y s' [Hy G]. split; [done|]. eapply gains_more; [exact M0|exact G|]. exists []. by rewrite app_nil_r.
  - intros y s1 s2 [Hy G] M. split; [done|]. eapply gains_more; [|exact G|exact M]. exists []. by rewrite app_nil_r.
  - intros [] s' (F & T & L & G). apply net_wp_ret. split_and!; [done|done|congruence|exact G].
Qed.
Lemma round_arrives now replies i r d s : table o None ROUTES s → faultless o → truncate s = 0 → failed s = false →
  routes s !! i = Some r → used r = true → count r = O → is_loopback (peer r) = true → len d <= LAB_MAX_DATAGRAM →
  0 <= now < 2 ^ 64 → u64 (now - activity r) < idle o → default None (replies !! i) = None →
  wp (round o (Awake now replies (Datagrams [From (peer r) d])))
    (λ _ s', failed s' = false ∧ length (routes s') = ROUTES ∧ routes s' !! i = Some (holding r d now) ∧ ∃ m, log s' = log s ++ m) s.
Proof.
  intros T Hf Ht Hs Hr Hu Hc Hlo Hd Hnow Hidle Hn. pose proof T as [_ Hk]. apply net_wp_bind.
  eapply (net_wp_mono _ (λ _ s1, table o None ROUTES s1 ∧ (failed s1 = false ∧ truncate s1 = truncate s ∧ length (routes s1) = length (routes s) ∧
    ∃ y, routes s1 !! i = Some y ∧ y = r ∧ ∃ m, log s1 = log s ++ m))).
  { split; [apply (for_each_keeps o None (λ j, serve_route now (idle o) (default None (replies !! j)))); [intros j; apply serve_route_keeps|apply routes_in|done]|].
    apply (serve_all Hnet now (idle o) (λ j, default None (replies !! j)) i r (λ y s1, y = r ∧ ∃ m, log s1 = log s ++ m)); [apply NoDup_seq| | |done|done| |].
    - apply elem_of_seq. apply lookup_lt_Some in Hr. lia.
    - intros j Hj. rewrite Hk. by apply routes_in.
    - intros s0 _ _ M. by eapply serve_holds.
    - intros y s1 s2 [-> (m & Em)] (m' & Em'). split; [done|]. exists (m ++ m'). by rewrite Em', Em, app_assoc. }
  intros [] s1 (T1 & F1 & Tr1 & L1 & y & Hy & -> & m & Em). cbn [read_peers]. apply net_wp_bind.
  eapply net_wp_mono; [apply (take_datagram_holds o now (peer r) d s1 i r); try done; congruence|].
  intros go s2 (-> & F2 & _ & R2 & L2 & m' & Em'). apply net_wp_ret. split_and!; [congruence|congruence|exact R2|]. exists (m ++ m'). by rewrite Em', Em, app_assoc.
Qed.
End round_trip.

(** C17.  The adapter relays: from any state a run reaches, on a healthy network and without
    the faults it can be asked to make, a datagram of a peer with an open route and
    an empty ring goes upstream on the peer's socket at the next turn, and what the
    policy server answers on that socket goes to the peer, whatever the other routes
    do meanwhile. *)
Theorem adapter_relays `{Net} args o wakes i r d x t1 t2 t3 replies1 replies2 replies3 :
  parse_options args default_options = Some o → healthy → faultless o →
  let s := (loop o wakes (boot o)).2 in
  failed s = false → routes s !! i = Some r → used r = true → count r = O → is_loopback (peer r) = true →
  len d <= LAB_MAX_DATAGRAM → len x <= LAB_MAX_DATAGRAM →
  0 <= t1 <= t2 → t2 < 2 ^ 64 → u64 (t1 - activity r) < idle o → t2 - t1 < idle o →
  default None (replies1 !! i) = None → default None (replies2 !! i) = None → default None (replies3 !! i) = Some [Answer x] →
  let s' := (loop o (wakes ++ [Awake t1 replies1 (Datagrams [From (peer r) d]); Awake t2 replies2 Silent; Awake t3 replies3 Silent]) (boot o)).2 in
  ∃ more, log s' = log s ++ more ∧ Upstream (fd r) d ∈ more ∧ Forwarded (peer r) x ∈ more.
Proof.
  intros E Hnet Hf s Hs Hr Hu Hc Hlo Hd Hx Ht12 Ht2 Hidle1 Hidle2 H1 H2 H3. cbn zeta. rewrite loop_app. fold s.
  apply started_range in E. assert (T : table o None ROUTES s) by (apply (loop_keeps o wakes (boot o)), table_boot; lia).
  assert (Ht : truncate s = 0) by (destruct T as [[_ Ht] _]; apply Ht, Hf). clearbody s. rewrite !loop_cons, Hs.
  pose proof T as [[S _] _]. pose proof (so_ring _ _ _ _ _ S i r Hr) as Hring.
  pose proof (round_arrives o Hnet t1 replies1 i r d s T Hf Ht Hs Hr Hu Hc Hlo Hd ltac:(lia) Hidle1 H1) as (F1 & L1 & R1 & M1).
  set (s1 := (round o _ s).2) in *. clearbody s1. rewrite F1.
  assert (W2 := turn_of o Hnet t2 replies2 i _ (λ y, used y = true ∧ peer y = peer r) (λ e, e = Upstream (fd r) d) s1 L1 F1 R1).
  destruct W2 as (F2 & _ & L2 & y & R2 & [Hyu Hyp] & G2).
  { intros s0. rewrite H2. eapply net_wp_mono; [apply (serve_sends o Hnet r d t1 t2 s0 Hring Hu); [lia|unfold u64; rewrite Z.mod_small; lia]|].
    intros y s' (-> & m & Em & Hm). split; [done|]. exists m. split; [done|]. by eexists. }
  set (s2 := (round o _ s1).2) in *. clearbody s2. rewrite F2.
  assert (W3 := turn_of o Hnet t3 replies3 i y (λ _, True) (λ e, e = Forwarded (peer r) x) s2 L2 F2 R2).
  destruct W3 as (_ & _ & _ & z & _ & _ & G3).
  { intros s0. rewrite H3. eapply net_wp_mono; [by apply (serve_answers o Hnet y x t3 s0)|].
    intros z s' (m & Em & Hm). split; [done|]. exists m. split; [done|]. rewrite <-Hyp. by eexists. }
  destruct M1 as (m1 & E1), G2 as (m2 & E2 & e2 & Hm2 & ->), G3 as (m3 & E3 & e3 & Hm3 & ->). cbn [loop].
  exists (m1 ++ m2 ++ m3). split; [|set_solver]. unfold mret, net_ret. cbn [snd]. by rewrite E3, E2, E1, !app_assoc.
Qed.
