(* ===== verification/LabSuite.v ===== *)
(** * The integration cases of the laboratory ([src/scripts/verificar-integracion.py])

    The cases over UDP, and those of [src/tests/policy_cases.py], for any program
    that answers datagrams, and their run against the policy server of
    [LabServer].  A socket is its address; a datagram sent is a turn of the
    program's loop; waiting for a reply is at most a second of turns in which
    nothing arrives.  The builds and the processes are not here. *)

From S2P Require Import Prelude Bytes Sha256 LabContract LabServer LabServerTheorems.
Import LabContract LabServer.

Module LabSuite.

(** What the clients speak to: the state a turn of its loop leaves, after the
    datagrams that have arrived, and what it sends; and its turns in a second. *)
Class System (S : Type) := {
  advance : list (address * bytes) → S → S * list (address * bytes);
  patience : nat }.
(** The program, and the datagrams that wait in the sockets of the clients. *)
Record world (S : Type) := World { system : S; unread : list (address * bytes); cases : list string }.
Arguments World {S} _ _ _.
Arguments system {S} _.
Arguments unread {S} _.
Arguments cases {S} _.

Section any.
Context {S : Type}.
Abbreviation test := (st (world S)).

Definition require (condition : bool) (message : string) : test unit := raise_when (negb condition) (RuntimeError message).
Definition case (name : string) : test unit := modify (λ w, World (system w) (unread w) (cases w ++ [name])).
End any.

(** ** Packets *)

(** [struct.pack] of the values used here, all in range; ["16s"] pads with zeros. *)
Definition fixed (n : nat) (s : bytes) : bytes := take n (s ++ zeros n).
Definition packet (kind : Z) (payload : bytes) (seq : Z) : bytes :=
  [z2b 0x4c; z2b 2; z2b kind; z2b 0] ++ le_encode 4 seq ++ le_encode 4 (len payload) ++ replicate 4 xaa ++ payload.
Definition hello (nonce : bytes) : bytes :=
  packet 1 (le_encode 4 0x4c414201 ++ fixed 16 (b "LabClient") ++ fixed 24 (b "hello-test") ++ fixed 16 nonce) 0.
(** [bytes(range(i, j))] *)
Definition range (i j : nat) : bytes := (λ k, z2b (Z.of_nat k)) <$> seq i (j - i).
Definition ping (session nonce : bytes) (stamp seq : Z) : bytes :=
  packet 0x10 (fixed 16 session ++ fixed 16 nonce ++ le_encode 8 stamp) seq.
Definition pong (nonce : bytes) (stamp : Z) : bytes := packet 0x11 (le_encode 8 stamp ++ fixed 16 nonce ++ le_encode 4 0) 0.
Definition close_packet (kind : Z) (session : bytes) : bytes :=
  packet kind (session ++ if kind =? 0x30 then le_encode 4 0 ++ le_encode 4 0 else le_encode 4 0 ++ le_encode 4 0 ++ zeros 36) 0.

Section harness.
Context {S : Type} {on : System S}.
Abbreviation test := (st (world S)).

(** ** The network *)

Definition turn (l : list (address * bytes)) : test unit := λ x,
  let (s, out) := advance l (system x) in (Ok tt, World s (unread x ++ out) (cases x)).
Definition sendto (client : address) (data : bytes) : test unit := turn [(client, data)].
Fixpoint take_first (a : address) (l : list (address * bytes)) : option (bytes * list (address * bytes)) :=
  match l with
  | [] => None
  | (x, data) :: l =>
      if decide (x = a) then Some (data, l) else (λ r, (r.1, (x, data) :: r.2)) <$> take_first a l
  end.
Fixpoint recvfrom (polls : nat) (client : address) : test bytes := λ x,
  match take_first client (unread x) with
  | Some (data, l) => (Ok data, World (system x) l (cases x))
  | None => match polls with O => (Raise TimeoutError, x) | Datatypes.S polls => (_ ← turn []; recvfrom polls client) x end
  end.
Definition exchange (client : address) (data : bytes) : test bytes := _ ← sendto client data; recvfrom patience client.

Definition expect_rst (data : bytes) (reason : Z) (message : bytes) (seq : Z) (session : option bytes) : test unit :=
  let expected := packet 0x20 ((match session with Some s => s | None => slice data 16 32 end) ++
    le_encode 4 reason ++ le_encode 4 (len message) ++ fixed 36 message) seq in
  require (bool_decide (data = expected)) "RST inesperado".

(** ** [check_hello] *)

Definition check_hello (client : address) (deterministic : bool) : test unit :=
  let nonce := range 1 17 in
  ack ← exchange client (hello nonce);
  _ ← require (len ack =? 72) "ACK";
  let result := get32 ack 16 in let reason := get32 ack 20 in let session := slice ack 24 40 in
  let snonce := slice ack 40 56 in let echo := slice ack 56 72 in
  _ ← require (bool_decide (take 16 ack = take 16 (packet 2 (zeros 56) 0))) "cabecera ACK incorrecta";
  _ ← require ((result =? 1) && (reason =? 0) && bool_decide (echo = nonce)) "resultado de ACK incorrecto";
  _ ← require (negb (bool_decide (session = zeros 16)) && negb (bool_decide (snonce = zeros 16))) "nonce nulo";
  _ ← require (negb deterministic || bool_decide (session = replicate 16 x42) && bool_decide (snonce = replicate 16 x42)) "lectura parcial";
  let ping_nonce := range 0 16 in let stamp := 0x1020304050607080 in
  reply ← exchange client (ping session ping_nonce stamp 1);
  _ ← require (bool_decide (reply = pong ping_nonce stamp)) "PONG incorrecto";
  case (if deterministic then "hello_ack_session_ping_partial_entropy" else "hello_ack_exact_and_session_ping").

(** ** [check_rejections] *)

Definition accepted (ack : bytes) : bool :=
  (len ack =? 72) && bool_decide (take 24 ack = take 16 (packet 2 (zeros 56) 0) ++ le_encode 4 1 ++ le_encode 4 0).
Definition rejection_cases : list (string * bytes * Z * bytes) :=
  let valid := hello (range 17 33) in
  [("short_header"%string, b "L", 1, b "hdr");
   ("bad_padding"%string, take 12 valid ++ zeros 4 ++ drop 16 valid, 1, b "hdr");
   ("wrong_length"%string, take 8 valid ++ le_encode 4 59 ++ drop 12 valid, 4, b "len != real");
   ("wrong_app"%string, take 16 valid ++ zeros 4 ++ drop 20 valid, 5, b "app_id != LAB1")].
(** Each case from its own socket. *)
Fixpoint check_rejections (l : list (string * bytes * Z * bytes)) (index : nat) (socket : nat → address) : test unit :=
  match l with
  | [] => mret tt
  | (name, data, reason, message) :: l =>
      let client := socket index in
      reply ← exchange client data;
      _ ← expect_rst reply reason message 0 None;
      ack ← exchange client (hello (replicate 16 (z2b (80 + Z.of_nat index))));
      _ ← require (accepted ack) "no acepta HELLO tras rechazo";
      _ ← case name;
      check_rejections l (Datatypes.S index) socket
  end.

Definition open_session (client : address) (nonce : bytes) : test bytes :=
  ack ← exchange client (hello nonce);
  _ ← require (accepted ack && bool_decide (drop 56 ack = nonce)) "ACK incorrecto";
  mret (slice ack 24 40).
Definition ping_session (client : address) (session : bytes) (seq : Z) : test unit :=
  let nonce := range 0 16 in let stamp := 0x1020304050607080 in
  reply ← exchange client (ping session nonce stamp seq);
  require (bool_decide (reply = pong nonce stamp)) "sesion afectada por el cierre de otro cliente".
(** [expect_rst(exchange(client, peer, data), ...)] *)
Definition answered (client : address) (data : bytes) (reason : Z) (message : bytes) (seq : Z) : test unit :=
  reply ← exchange client data; expect_rst reply reason message seq None.

(** ** [check_sessions] *)

Section sessions.
Context (clients : nat → address).

Fixpoint open_sessions (n : nat) (from : nat) : test (list bytes) :=
  match n with
  | O => mret []
  | Datatypes.S n => x ← open_session (clients from) (replicate 16 (z2b (Z.of_nat from + 1))); l ← open_sessions n (Datatypes.S from); mret (x :: l)
  end.
Definition nth_session (l : list bytes) (i : nat) : test bytes := lift (match l !! i with Some x => Ok x | None => Raise IndexError end).
Definition nth_sequence (l : list Z) (i : nat) : test Z := lift (match l !! i with Some x => Ok x | None => Raise IndexError end).
(** The other clients of three still answer. *)
Fixpoint ping_others (others : list nat) (index : nat) (sessions : list bytes) (sequences : list Z) : test (list Z) :=
  match others with
  | [] => mret sequences
  | other :: others =>
      if (other =? index)%nat then ping_others others index sessions sequences
      else
        x ← nth_session sessions other; n ← nth_sequence sequences other;
        _ ← ping_session (clients other) x n;
        ping_others others index sessions (<[other := n + 1]> sequences)
  end.
Definition slot_case (index : nat) : string :=
  match index with
  | 0%nat => "release_slot_0_isolation_and_reopen"
  | 1%nat => "release_slot_1_isolation_and_reopen"
  | _ => "release_slot_2_isolation_and_reopen"
  end.
Fixpoint release_slots (order : list nat) (sessions : list bytes) (sequences : list Z) : test unit :=
  match order with
  | [] => mret tt
  | index :: order =>
      let me := clients index in
      x ← nth_session sessions index;
      _ ← answered me (close_packet 0x30 x) 0 (b "bye") 0;
      _ ← answered me (close_packet 0x30 x) 3 (b "HELLO primero") 0;
      sequences ← ping_others [0; 1; 2]%nat index sessions sequences;
      replacement ← open_session (clients 3) (replicate 16 x05);
      _ ← ping_session (clients 3) replacement 1;
      _ ← answered (clients 3) (close_packet 0x20 replacement) 0 (b "rst") 0;
      _ ← answered (clients 3) (close_packet 0x20 replacement) 3 (b "HELLO primero") 0;
      let old_session := x in
      x ← open_session me (replicate 16 (z2b (Z.of_nat index + 1)));
      _ ← require (negb (bool_decide (x = old_session))) "la sesion cerrada fue reutilizada";
      _ ← answered me (ping old_session (zeros 16) 1 1) 8 (b "session !=") 0;
      _ ← ping_session me x 1;
      _ ← answered me (close_packet 0x20 x) 0 (b "rst") 1;
      x ← open_session me (replicate 16 (z2b (Z.of_nat index + 1)));
      _ ← case (slot_case index);
      release_slots order (<[index := x]> sessions) (<[index := 1]> sequences)
  end.
Definition check_capacity : test unit :=
  sessions ← open_sessions 3 0;
  _ ← answered (clients 3) (hello (replicate 16 x04)) 14 (b "max alcanzado") 0;
  _ ← case "capacity_enforced";
  release_slots [2; 0; 1]%nat sessions [1; 1; 1].
(** More openings than the table has room for. *)
Fixpoint check_cycles (n count : nat) : test unit :=
  match n with
  | O => case "70_bye_rst_cycles_capacity_one"
  | Datatypes.S n =>
      let client := clients (count mod 2) in
      session ← open_session client (replicate 16 (z2b (Z.of_nat count + 1)));
      _ ← ping_session client session 1;
      let kind := if (count mod 2 =? 0)%nat then 0x30 else 0x20 in
      _ ← answered client (close_packet kind session) 0 (b (if kind =? 0x30 then "bye" else "rst")) 0;
      check_cycles n (Datatypes.S count)
  end.
Definition bad_closes (session : bytes) : list (bytes * bytes) :=
  concat ((λ kind, let good := close_packet kind session in
                   let message := b (if kind =? 0x30 then "bye len" else "rst len") in
    [(take (length good - 1) good, message); (good ++ b "X", message); (take 8 good ++ zeros 4 ++ drop 12 good, message)])
    <$> [0x30; 0x20]).
Fixpoint check_invalid (session : bytes) (l : list (bytes * bytes)) (index : Z) : test unit :=
  match l with
  | [] => mret tt
  | (data, message) :: l =>
      _ ← answered (clients 0) data 4 message index;
      _ ← ping_session (clients 0) session (index + 1);
      _ ← answered (clients 1) (hello (replicate 16 x11)) 14 (b "max alcanzado") 0;
      check_invalid session l (index + 1)
  end.
Definition check_malformed_close : test unit :=
  session ← open_session (clients 0) (replicate 16 x10);
  let invalid := bad_closes session in
  _ ← check_invalid session invalid 0;
  let invalid_msg := packet 0x20 (session ++ le_encode 4 0 ++ le_encode 4 37 ++ zeros 36) 0 in
  _ ← answered (clients 0) invalid_msg 5 (b "rst msg len") (len invalid);
  _ ← ping_session (clients 0) session (len invalid + 1);
  _ ← answered (clients 0) (close_packet 0x20 session) 0 (b "rst") (len invalid + 1);
  _ ← open_session (clients 1) (replicate 16 x11);
  case "malformed_close_preserves_session".
Definition check_idle_timeout : test unit :=
  session ← open_session (clients 0) (replicate 16 x12);
  data ← recvfrom patience (clients 0);
  _ ← expect_rst data 17 (b "timeout") 0 None;
  reopened ← open_session (clients 1) (replicate 16 x13);
  _ ← require (negb (bool_decide (session = reopened))) "timeout conservo la sesion anterior";
  _ ← ping_session (clients 1) reopened 1;
  case "idle_timeout_releases_capacity".
End sessions.

(** ** The evidence cases of [policy_cases.py] *)

Definition request (session instance : bytes) (request_id origin cap evidence seed sequence : Z) : bytes :=
  packet 0x40 (fixed 16 session ++ le_encode 4 request_id ++ fixed 16 instance ++
    [z2b origin; z2b cap; z2b evidence; z2b 0] ++ le_encode 4 seed) sequence.
Definition digest : bytes := sha256 ((λ i, z2b (Z.land (Z.of_nat i * 7 + 37) 255)) <$> seq 0 4096).
Definition observation (session instance : bytes) (request_id origin cap evidence sequence : Z) : bytes :=
  packet 0x41 (fixed 16 session ++ le_encode 4 request_id ++ fixed 16 instance ++ replicate 16 x73 ++
    [z2b origin; z2b cap; z2b evidence; z2b 1] ++ le_encode 4 37 ++ le_encode 4 10 ++ le_encode 4 0 ++
    fixed 36 (le_encode 4 4096 ++ fixed 32 digest)) sequence.
Definition decided (client : address) (data session : bytes) (request_id status reason sequence : Z) : test unit :=
  response ← exchange client data;
  require (bool_decide (response = packet 0x42 (fixed 16 session ++ le_encode 4 request_id ++ le_encode 4 status ++ le_encode 4 reason) sequence))
    "decision unexpected".
Definition instance : bytes := replicate 16 x69.
(** Up to the pause of 1.1 seconds, and from it. *)
Definition policy_cases_before (c : address) : test bytes :=
  session ← open_session c instance;
  _ ← decided c (request session instance 1 7 1 1 37 1) session 1 0 19 1;
  _ ← decided c (request session instance 1 1 8 1 37 1) session 1 0 20 1;
  _ ← decided c (request session instance 1 1 1 2 37 1) session 1 0 21 1;
  _ ← decided c (request session (replicate 16 x6a) 1 1 1 1 37 1) session 1 0 22 1;
  _ ← decided c (request session instance 1 1 1 1 37 1) session 1 1 0 1;
  _ ← decided c (request session instance 1 1 1 1 37 1) session 1 0 10 1;
  _ ← decided c (request session instance 2 1 1 1 37 2) session 2 0 14 2;
  let good := observation session instance 1 1 1 1 2 in
  let malformed := <[71%nat := x00]> good in
  _ ← decided c malformed session 1 0 5 2;
  _ ← decided c (observation session instance 2 1 1 1 2) session 2 0 24 2;
  _ ← decided c (observation session instance 1 1 1 1 1) session 1 0 10 1;
  _ ← decided c good session 1 2 0 2;
  _ ← decided c good session 1 0 24 2;
  _ ← ping_session c session 3;
  _ ← case "evidence_rejections_preserve_request_and_sequence";
  _ ← decided c (request session instance 2 1 1 1 37 4) session 2 1 0 4;
  mret session.
Definition policy_cases_after (c : address) (session : bytes) : test unit :=
  _ ← decided c (observation session instance 2 1 1 1 5) session 2 0 23 5;
  _ ← decided c (request session instance 3 1 1 1 37 5) session 3 1 0 5;
  _ ← decided c (observation session instance 3 1 1 1 6) session 3 2 0 6;
  case "expired_request_replaced_without_sequence_consumption".
End harness.

(** ** The servers of the cases *)

(** [lab_server] with the options of [server(...)], and the clients before it. *)
Definition started (max_clients : nat) (timeout_ms : Z) : server_t := boot timeout_ms max_clients default_policy.
Definition direct (h : Host) : System server_t := {|
  advance := λ l s,
    let s' := (round (match l with [] => Idle | _ => Incoming l end) s).2 in (s', drop (length (sent s)) (sent s'));
  patience := 10 |}.
Definition loopback (port : nat) : address := Address 0x7f000001 (Z.of_nat port).
Definition sockets (i : nat) : address := loopback (40000 + i).

(** A machine on which everything is delivered, draws are numbered and [ms]
    milliseconds pass between events, and [pause] more after the first [awake]. *)
Definition machine (ms : Z) (awake : nat) (pause : Z) : Host := {|
  now_ms := λ n, ms * Z.of_nat n + (if (n <? awake)%nat then 0 else pause);
  random_bytes := λ n, Some (le_encode 16 (Z.of_nat n + 1) ++ replicate 16 x01);
  delivered := λ _, true |}.
(** [tests/server_random_fault.c]: one full draw in two parts, then failures. *)
Definition faulty (first : nat) : Host := {|
  now_ms := Z.of_nat;
  random_bytes := λ n, if (n =? first)%nat then Some (replicate 32 x42) else None;
  delivered := λ _, true |}.
Section suite.
Context {S : Type} (start : nat → Z → S) (net : Host → System S).
(** The event of the server that is its first draw. *)
Context (draw : nat).
Definition entropy_case (client : address) (name : string) : st (world S) unit :=
  _ ← answered (on := net (faulty draw)) client (hello (range 33 49)) 14 (b "entropy unavailable") 0;
  case name.
Definition check_entropy : st (world S) unit :=
  _ ← check_hello (on := net (faulty draw)) (sockets 0) true;
  _ ← entropy_case (sockets 1) "entropy_error";
  entropy_case (sockets 2) "entropy_eof".
(** The blocks of [main] and [check_sessions], each with its server. *)
Definition quick : Host := machine 1 0 0.
Definition quickly : System S := net quick.
Definition first (max_clients : nat) (timeout_ms : Z) : world S := World (start max_clients timeout_ms) [] [].
Definition suite : list (world S * st (world S) unit) :=
  [(first 32 5000, _ ← check_hello (on := quickly) (sockets 9) false; check_rejections (on := quickly) rejection_cases 0 sockets);
   (first 3 5000, check_capacity (on := quickly) sockets);
   (first 1 5000, check_cycles (on := quickly) sockets 70 0);
   (first 1 5000, check_malformed_close (on := quickly) sockets);
   (first 1 50, check_idle_timeout (on := net (machine 8 0 0)) sockets);
   (first 32 5000, check_entropy);
   (first 32 5000, session ← policy_cases_before (on := quickly) (sockets 0);
      policy_cases_after (on := net (machine 1 0 1100)) (sockets 0) session)].
(** The cases that pass, block by block. *)
Definition passed : list (list string) :=
  (λ '(w, t), match t w with (Ok _, w) => cases w | (Raise _, _) => [] end) <$> suite.
End suite.
Definition every_case : list (list string) :=
  ([["hello_ack_exact_and_session_ping"; "short_header"; "bad_padding"; "wrong_length"; "wrong_app"];
    ["capacity_enforced"; "release_slot_2_isolation_and_reopen"; "release_slot_0_isolation_and_reopen"; "release_slot_1_isolation_and_reopen"];
    ["70_bye_rst_cycles_capacity_one"];
    ["malformed_close_preserves_session"];
    ["idle_timeout_releases_capacity"];
    ["hello_ack_session_ping_partial_entropy"; "entropy_error"; "entropy_eof"];
    ["evidence_rejections_preserve_request_and_sequence"; "expired_request_replaced_without_sequence_consumption"]])%string.
End LabSuite.
Import LabSuite.

(** The repository's integration cases pass against the model of the server: the
    exact acknowledgement and pong, the rejections, the release and reuse of slots
    in any position, seventy cycles through one slot, malformed closes, the idle
    timeout, failures of the entropy, and the evidence policy with its
    rejections and its expiry. *)
Theorem integration_cases_pass : passed started direct 1 = every_case.
Proof. vm_compute. reflexivity. Qed.

(** ** Concrete runs for the theorems on the server *)

Lemma machine_full ms awake pause : full_draws (H := machine ms awake pause).
Proof. by intros k rnd [= <-]. Qed.
Lemma machine_fresh ms awake pause (n : nat) : Z.of_nat n < 256 ^ 16 → fresh_draws (H := machine ms awake pause) n.
Proof.
  intros Hn i j x y Hi Hj Ex Ey. cbn [random_bytes machine] in Ex, Ey.
  assert (Hx : take 16 x = le_encode 16 (Z.of_nat i + 1)) by (apply (inj Some) in Ex; rewrite <- Ex; by apply take_app_length').
  assert (Hy : take 16 y = le_encode 16 (Z.of_nat j + 1)) by (apply (inj Some) in Ey; rewrite <- Ey; by apply take_app_length').
  rewrite Hx, Hy. intros E. apply le_encode_inj in E; lia.
Qed.
(** A session with an accepted observation, and a second peer. *)
Definition run_session : bytes := le_encode 16 2.
Definition run_wakes : list wake :=
  [Incoming [(sockets 0, hello instance); (sockets 1, hello (range 1 17))];
   Incoming [(sockets 0, request run_session instance 1 1 1 1 37 1); (sockets 1, b "noise")]; Idle;
   Incoming [(sockets 0, observation run_session instance 1 1 1 1 2)]].

Lemma table_kept_witness :
  let s := (loop (H := quick) run_wakes (boot 5000 32 default_policy)).2 in
  length (c s) = 32%nat ∧ (in_use (c s) <= 32)%nat ∧ distinct addr (c s) ∧ distinct cnonce (c s).
Proof.
  destruct (table_kept (H := quick) 5000 32 default_policy run_wakes (machine_full 1 0 0)) as (H1 & H2 & _ & H4 & H5).
  split; [exact H1|]. split; [exact H2|]. split; [exact H4|exact H5].
Defined.
Lemma peers_isolated_witness :
  let s := (loop (H := quick) run_wakes (boot 5000 32 default_policy)).2 in
  apart (sockets 2) s (receive (H := quick) (sockets 2) (hello (range 3 19)) s).2.
Proof. exact (peers_isolated (H := quick) 5000 32 default_policy run_wakes (sockets 2) (hello (range 3 19)) (machine_full 1 0 0)). Defined.
Lemma decisions_are_dialogues_witness :
  let s := (main (H := quick) run_wakes false (boot 5000 32 default_policy)).2 in
  decisions run_session (sent s) = [(1, LAB_PENDING, 1); (2, LAB_ACCEPTED, 1)] ∧
  (∀ sid, is_Some (dialogue_of (decisions sid (tried s)))) ∧ (∀ sid, sublist (decisions sid (sent s)) (decisions sid (tried s))).
Proof.
  split; [vm_compute; reflexivity|].
  destruct (decisions_are_dialogues (H := quick) 5000 32 default_policy run_wakes false (machine_full 1 0 0)) as (H1 & H2 & _).
  - apply machine_fresh. vm_compute. reflexivity.
  - split; [exact H1|exact H2].
Defined.
