(* ===== verification/LabRelay.v ===== *)
(** * The adapter before the policy server ([src/tests/adapter_cases.py])

    The adapter of [LabAdapter] with the server of [LabServer] behind it, as one
    program for the clients of [LabSuite]: the cases of the integration checks pass
    through it as they pass without it, and so do the adapter's own cases, of
    bounded faults, isolated routes, restarts and an upstream that has gone. *)

From S2P Require Import Prelude Bytes LabContract LabServer LabServerTheorems LabAdapter LabSuite.
Import LabContract LabServer LabAdapter LabSuite.

Module LabRelay.

(** ** Both programs *)

(** The time, the answers that wait in the upstream sockets, the first port the
    kernel gives to those of this run of the adapter. *)
Record relayed := Relayed {
  options : options_t;
  relay : relay_t;
  server : server_t;
  up : bool;
  clock : Z;
  base : Z;
  answers : list (nat * reply) }.
Definition socket_of (x : relayed) (k : nat) : address := Address 0x7f000001 (base x + Z.of_nat k).
(** What [poll] finds at the socket of a route. *)
Definition found (x : relayed) (r : route_t) : option (list reply) :=
  if LabAdapter.used r then
    match omap (λ '(k, y), if (k =? fd r)%nat then Some y else None) (answers x) with [] => None | l => Some l end
  else None.
Definition upwards (e : act) : option (nat * bytes) := match e with Upstream k d => Some (k, d) | _ => None end.
Definition downwards (e : act) : option (address * bytes) :=
  match e with Forwarded a d => Some (a, d) | Rejected a d => Some (a, d) | _ => None end.
Definition fine : Net := {| LabAdapter.delivered := λ _, true; sends := λ _, Sent; binds := λ _, true; connects := λ _, true |}.

(** A turn of ten milliseconds: the adapter's, then the server's; a datagram to a
    server that has gone is refused. *)
Definition turn_relay (l : list (address * bytes)) (x : relayed) : relay_t :=
  (LabAdapter.loop (H := fine) (options x)
    [Awake (clock x + 10) (found x <$> routes (relay x)) (match l with [] => Silent | _ => Datagrams ((λ '(a, d), From a d) <$> l) end)] (relay x)).2.
Definition serve_upwards (h : Host) (x : relayed) (ups : list (nat * bytes)) : server_t :=
  (LabServer.round (match ups with [] => Idle | _ => Incoming ((λ '(k, d), (socket_of x k, d)) <$> ups) end) (server x)).2.
Definition via (h : Host) : System relayed := {|
  advance := λ l x,
    let r := turn_relay l x in
    let new := drop (length (log (relay x))) (log r) in
    let ups := omap upwards new in
    let s := if up x then serve_upwards h x ups else server x in
    let back := if up x then (λ '(a, d), (Z.to_nat (port a - base x), Answer d)) <$> drop (length (sent (server x))) (sent s)
                else (λ '(k, _), (k, BrokenReply)) <$> ups in
    (Relayed (options x) r s (up x) (clock x + 10) (base x) back, omap downwards new);
  patience := 100 |}.

(** [adapter(...)]: the command line of the scripts, with more options. *)
Definition adapter_command (more : list bytes) : list bytes :=
  [b "--listen"; b "127.0.0.1:7778"; b "--upstream"; b "127.0.0.1:7777"; b "-v"] ++ more.
Definition options_of (more : list bytes) : options_t := default default_options (LabAdapter.parse_options (adapter_command more) LabAdapter.default_options).
Definition behind (more : list bytes) (s : server_t) : relayed :=
  let o := options_of more in Relayed o (LabAdapter.boot o) s true 1000 50000 [].
(** Another adapter takes the place of the one that ends, with sockets of its own. *)
Definition restarted (more : list bytes) (x : relayed) : relayed :=
  let o := options_of more in Relayed o (LabAdapter.boot o) (server x) (up x) (clock x) (base x + 1000) [].
Definition with_adapter (more : list bytes) : st (world relayed) unit := modify (λ w, World (restarted more (system w)) (unread w) (cases w)).
Definition stop_server : st (world relayed) unit :=
  modify (λ w, let x := system w in World (Relayed (options x) (relay x) (server x) false (clock x) (base x) (answers x)) (unread w) (cases w)).

(** ** [adapter_cases.py] *)

Section cases.
Context (on : System relayed).
Abbreviation test := (st (world relayed)).
Definition now : test Z := gets (λ w, clock (system w)).
(** [sleep], in turns *)
Fixpoint wait (n : nat) : test unit := match n with O => mret tt | S n => _ ← turn []; wait n end.
(** [recvfrom] that must time out. *)
Definition nothing_for (polls : nat) (client : address) (message : string) : test unit := λ w,
  match recvfrom polls client w with
  | (Raise TimeoutError, w) => (Ok tt, w)
  | (Raise e, w) => (Raise e, w)
  | (Ok _, w) => (Raise (RuntimeError message), w)
  end.
Definition acknowledged (ack : bytes) (name : string) : test unit := require ((len ack =? 72) && (byte_at ack 2 =? 2)) name.

Definition loss_case (c : address) : test unit :=
  _ ← with_adapter [b "--drop-every"; b "2"];
  let request := hello (b "loss_hello_retry") in
  _ ← sendto c request;
  _ ← nothing_for 15 c "drop mode did not drop";
  ack ← exchange c request;
  _ ← acknowledged ack "loss_hello_retry";
  case "loss_hello_retry".
Definition delay_case (c : address) : test unit :=
  _ ← with_adapter [b "--delay-ms"; b "100"];
  start ← now;
  ack ← exchange c (hello (fixed 16 (b "bounded_delayxxxxx")));
  _ ← acknowledged ack "bounded_delay";
  stop ← now;
  _ ← require (90 <=? stop - start) "missing delay";
  case "bounded_delay".
Definition duplicate_case (c : address) : test unit :=
  _ ← with_adapter [b "--replay-last"];
  ack ← exchange c (hello (b "duplicate_pingxx"));
  _ ← acknowledged ack "duplicate_ping";
  let session := slice ack 24 40 in
  _ ← ping_session c session 1;
  response ← recvfrom patience c;
  _ ← expect_rst response 10 (b "REPLAY") 0 (Some session);
  _ ← ping_session c session 2;
  case "duplicate_ping".
Fixpoint reuse (n count : nat) (clients : nat → address) : test unit :=
  match n with
  | O => case "40_immediate_route_reuses_after_confirmed_close"
  | S n =>
      let c := clients count in
      session ← open_session c (replicate 16 (z2b (Z.of_nat count + 1)));
      _ ← ping_session c session 1;
      let kind := if (count mod 2 =? 0)%nat then 0x30 else 0x20 in
      response ← exchange c (close_packet kind session);
      _ ← expect_rst response 0 (b (if kind =? 0x30 then "bye" else "rst")) 0 (Some session);
      reuse n (S count) clients
  end.
Definition saturation_case (a c : address) : test unit :=
  _ ← with_adapter [b "--max-clients"; b "1"; b "--idle-ms"; b "150"];
  _ ← open_session a (replicate 16 x41);
  _ ← answered c (hello (replicate 16 x42)) 14 (b "adapter full") 0;
  _ ← wait 30;
  _ ← open_session c (replicate 16 x42);
  case "route_saturation_and_idle_reuse".
Definition queue_case (c : address) : test unit :=
  _ ← with_adapter [b "--delay-ms"; b "500"];
  _ ← turn (replicate 16 (c, hello (replicate 16 x51)));
  _ ← turn (replicate 16 (c, hello (replicate 16 x51)));
  _ ← turn (replicate 8 (c, hello (replicate 16 x51)));
  response ← recvfrom patience c;
  _ ← expect_rst response 14 (b "adapter queue full") 0 None;
  case "bounded_queue_saturation".
Definition stale_case (c : address) : test unit :=
  _ ← with_adapter [b "--delay-ms"; b "150"];
  old_session ← open_session c (replicate 16 x4c);
  _ ← sendto c (ping old_session (replicate 16 x6e) 1 1);
  _ ← with_adapter [];
  fresh ← open_session c (replicate 16 x4d);
  _ ← ping_session c fresh 1;
  _ ← nothing_for 30 c "queued response crossed relay restart";
  case "queued_old_request_discarded_on_restart".
Definition restart_case (c : address) : test unit :=
  _ ← with_adapter [];
  session ← open_session c (replicate 16 x52);
  _ ← ping_session c session 1;
  _ ← with_adapter [];
  response ← exchange c (ping session (replicate 16 x6e) 1 2);
  _ ← expect_rst response 3 (b "HELLO primero") 0 (Some (zeros 16));
  fresh ← open_session c (replicate 16 x53);
  _ ← require (negb (bool_decide (fresh = session))) "session survived restart";
  _ ← ping_session c fresh 1;
  case "restart_invalidates_session".
Definition upstream_case (c : address) : test unit :=
  _ ← stop_server;
  _ ← with_adapter [];
  response ← exchange c (hello (replicate 16 x55));
  _ ← expect_rst response 16 (b "upstream unavailable") 0 None;
  case "upstream_unavailable".
(** The cases, but for the native client's. *)
Definition adapter_cases : test unit :=
  _ ← loss_case (sockets 0);
  _ ← delay_case (sockets 1);
  _ ← duplicate_case (sockets 2);
  _ ← with_adapter [b "--max-clients"; b "1"];
  _ ← reuse 40 0 (λ i, sockets (100 + i));
  _ ← saturation_case (sockets 3) (sockets 4);
  _ ← queue_case (sockets 5);
  _ ← stale_case (sockets 6);
  _ ← restart_case (sockets 7);
  upstream_case (sockets 8).
End cases.
Definition upstream_server : world relayed := World (behind [] (LabSuite.started 32 2000)) [] [].
End LabRelay.
Import LabRelay.

(** The repository's integration cases pass through the adapter exactly as they pass
    without it. *)
Theorem cases_pass_via_adapter : passed (λ m t, behind [] (LabSuite.started m t)) via 2 = every_case.
Proof. vm_compute. reflexivity. Qed.

(** The adapter's own cases pass: a lost HELLO can be repeated, a delay delays, a
    duplicate is a replay to the server; forty routes follow each other through one
    slot when the server confirms the end of each session; a full table, a full
    ring and an upstream that has gone are told to the peer; nothing of a peer
    crosses a restart. *)
Theorem adapter_cases_pass : let '(r, w) := adapter_cases (via quick) upstream_server in
  r = Ok tt ∧ cases w =
    ["loss_hello_retry"; "bounded_delay"; "duplicate_ping"; "40_immediate_route_reuses_after_confirmed_close";
     "route_saturation_and_idle_reuse"; "bounded_queue_saturation"; "queued_old_request_discarded_on_restart";
     "restart_invalidates_session"; "upstream_unavailable"]%string.
Proof. vm_compute. split; reflexivity. Qed.

(** ** Concrete runs for the theorems on the adapter *)

Definition run_options : options_t := options_of [].
Lemma run_parsed : LabAdapter.parse_options (adapter_command []) LabAdapter.default_options = Some run_options.
Proof. vm_compute. reflexivity. Qed.
Definition run_start : list LabAdapter.wake :=
  [Awake 1000 [] (Datagrams [From (sockets 0) (hello LabSuite.instance); From (sockets 1) (b "noise")]); Awake 1010 [] Silent].
Definition run_open : relay_t := (LabAdapter.loop (H := fine) run_options run_start (LabAdapter.boot run_options)).2.
Definition run_route : route_t := default zero_route (routes run_open !! 0%nat).

Lemma routes_kept_witness :
  active (routes run_open) = 2%nat ∧ LabAdapter.distinct (routes run_open).
Proof.
  split; [vm_compute; reflexivity|].
  exact (proj1 (proj2 (proj2 (routes_kept (H := fine) (adapter_command []) run_options run_start run_parsed)))).
Defined.
(** A ping sent twice. *)
Definition replaying : options_t := options_of [b "--replay-last"].
Definition run_replayed : list LabAdapter.wake :=
  [Awake 1000 [] (Datagrams [From (sockets 0) (hello LabSuite.instance); From (sockets 0) (ping LabSuite.instance LabSuite.instance 1 1)]);
   Awake 1010 [] Silent; Awake 1200 [] Silent].
Lemma adapter_is_faithful_witness :
  let lg := log (LabAdapter.main (H := fine) replaying run_replayed false (LabAdapter.boot replaying)).2 in
  sent_for (sockets 0) lg = arrivals (sockets 0) lg ≫= copies replaying ∧ length (sent_for (sockets 0) lg) = 3%nat ∧
  (∀ a, carried replaying (sent_for a lg) (arrivals a lg ≫= copies replaying)) ∧ closed lg ≡ₚ LabAdapter.opened lg.
Proof.
  assert (E : LabAdapter.parse_options (adapter_command [b "--replay-last"]) LabAdapter.default_options = Some replaying) by (vm_compute; reflexivity).
  destruct (adapter_is_faithful (H := fine) (adapter_command [b "--replay-last"]) replaying run_replayed false E) as (H1 & _ & _ & _ & _ & H6).
  split; [vm_compute; reflexivity|]. split; [vm_compute; reflexivity|]. split; [exact H1|exact H6].
Defined.
Lemma adapter_relays_witness :
  let s' := (LabAdapter.loop (H := fine) run_options (run_start ++
    [Awake 2000 [] (Datagrams [From (peer run_route) (b "question")]); Awake 2010 [] Silent; Awake 2020 [Some [Answer (b "answer")]] Silent])
    (LabAdapter.boot run_options)).2 in
  ∃ more, log s' = log run_open ++ more ∧ Upstream (fd run_route) (b "question") ∈ more ∧ Forwarded (peer run_route) (b "answer") ∈ more.
Proof.
  apply (adapter_relays (H := fine) (adapter_command []) run_options run_start 0 run_route (b "question") (b "answer") 2000 2010 2020
    [] [] [Some [Answer (b "answer")]] run_parsed); try (vm_compute; reflexivity).
  - split; reflexivity.
  - repeat split; vm_compute; reflexivity.
  - vm_compute. discriminate.
  - vm_compute. discriminate.
  - vm_compute. split; discriminate.
Defined.
