(* ===== verification/LabHonest.v ===== *)
(** * An honest client among the other peers of the policy server

    What the server does on each round of such a client, whatever the others
    send in between. *)

From S2P Require Import Prelude Bytes LabContract LabServer LabServerTheorems.
Import LabContract LabServer.

(** The datagrams for one peer. *)
Definition to_peer (a : address) (l : list (address * bytes)) : list bytes :=
  omap (λ m, if decide (m.1 = a) then Some m.2 else None) l.
Lemma to_peer_app a l k : to_peer a (l ++ k) = to_peer a l ++ to_peer a k.
Proof. apply omap_app. Qed.
Lemma to_peer_same a out : to_peer a ((λ d, (a, d)) <$> out) = out.
Proof. induction out as [|d out IH]; [done|]. unfold to_peer in *. cbn. rewrite decide_True by done. by f_equal. Qed.
Lemma to_peer_other a a' out : a' ≠ a → to_peer a ((λ d, (a', d)) <$> out) = [].
Proof. intros Hne. induction out as [|d out IH]; [done|]. unfold to_peer in *. cbn. by rewrite decide_False. Qed.

(** ** What goes on while every datagram is delivered *)

Record steady (s s' : server_t) : Prop := {
  sd_running : running s = true → running s' = true;
  sd_config : timeout_ms s' = timeout_ms s ∧ max_clients s' = max_clients s ∧ policy s' = policy s }.
#[export] Instance steady_preorder : PreOrder steady.
Proof. split; [by intros s|]. intros s1 s2 s3 [R1 (T1 & M1 & P1)] [R2 (T2 & M2 & P2)]. split; [auto|split_and!; congruence]. Qed.

Section steady.
Context `{Host}.
Hypothesis Hdelivered : ∀ n, delivered n = true.
Definition steadily {A} (m : io A) : Prop := ∀ s, steady s (m s).2.

Lemma steadily_ret {A} (v : A) : steadily (mret v).
Proof. by intros s. Qed.
Lemma steadily_bind {A B} (m : io A) (f : A → io B) : steadily m → (∀ v, steadily (f v)) → steadily (m ≫= f).
Proof. intros Hm Hf s. unfold mbind, io_bind. specialize (Hm s). destruct (m s) as [v s1]. etrans; [exact Hm|apply Hf]. Qed.
Lemma steadily_look {A} (f : server_t → A) : steadily (look f).
Proof. by intros s. Qed.
Lemma steadily_event : steadily event.
Proof. by intros s. Qed.
Lemma steadily_clients l : steadily (change (λ s, set_clients (l s) s)).
Proof. by intros s. Qed.
Lemma steadily_counts w x y z : steadily (change (λ s, set_counts (w s) (x s) (y s) (z s) s)).
Proof. by intros s. Qed.
Lemma steadily_send x buf : steadily (send_datagram x buf).
Proof. intros s. unfold send_datagram, mbind, io_bind, event, change. cbn. by rewrite Hdelivered. Qed.
End steady.
#[export] Hint Resolve steadily_ret steadily_look steadily_event steadily_clients steadily_counts steadily_send : steady.
(** A handler, by its text. *)
Ltac steady := repeat first [solve [eauto with steady] | apply steadily_bind; [|intros ?] | case_match].

Section honest.
Context `{Host}.
Hypothesis Hdelivered : ∀ n, delivered n = true.

Lemma steadily_now : steadily lab_now_ms.
Proof. unfold lab_now_ms. steady. Qed.
Lemma steadily_rst x reason msg : steadily (send_rst x reason msg).
Proof. unfold send_rst. steady; apply (steadily_counts n_rx n_acks (λ s, n_rst s + 1) n_timeout). Qed.
#[local] Hint Resolve steadily_now steadily_rst : steady.
Lemma steadily_ack x : steadily (send_hello_ack x).
Proof. unfold send_hello_ack. steady; apply (steadily_counts n_rx (λ s, n_acks s + 1) n_rst n_timeout). Qed.
#[local] Hint Resolve steadily_ack : steady.
Lemma steadily_new x dat : steadily (do_new x dat).
Proof. unfold do_new, do_hello. steady. Qed.
Lemma steadily_evidence x h pay : steadily (do_evidence x h pay).
Proof. unfold do_evidence. steady. Qed.
Lemma steadily_ping x h pay : steadily (do_ping x h pay).
Proof. unfold do_ping. steady. Qed.
#[local] Hint Resolve steadily_new steadily_evidence steadily_ping : steady.
Lemma steadily_open x dat : steadily (do_open x dat).
Proof. unfold do_open. steady. Qed.
#[local] Hint Resolve steadily_open : steady.
Lemma steadily_serve a dat x : steadily (serve a dat x).
Proof. unfold serve. steady. Qed.
Lemma steadily_on_slot i f : (∀ x, steadily (f x)) → steadily (on_slot i f).
Proof. intros Hf. unfold on_slot. steady. Qed.
Lemma steadily_for_each l f : (∀ i, steadily (f i)) → steadily (for_each l f).
Proof. intros Hf. induction l as [|i l IH]; [apply steadily_ret|]. cbn. by apply steadily_bind. Qed.
Lemma steadily_sweep : steadily sweep_timeouts.
Proof.
  unfold sweep_timeouts. apply steadily_bind; [apply steadily_now|]. intros now. apply steadily_for_each. intros i.
  apply steadily_on_slot. intros x. unfold sweep_one. steady; apply (steadily_counts n_rx n_acks n_rst (λ s, n_timeout s + 1)).
Qed.
Lemma steadily_receive a dat : steadily (receive a dat).
Proof.
  unfold receive. apply steadily_bind; [apply (steadily_counts (λ s, n_rx s + 1) n_acks n_rst n_timeout)|]. intros _.
  steady. apply steadily_serve.
Qed.
(** A round with one datagram. *)
Lemma round_one a dat s : running s = true → round (Incoming [(a, dat)]) s = (true, (receive a dat (sweep_timeouts s).2).2).
Proof.
  intros Hr. pose proof (sd_running _ _ (steadily_sweep s) Hr) as Hr1. unfold round, mbind, io_bind, look.
  destruct (sweep_timeouts s) as [v s1]. cbn [fst snd] in *. rewrite Hr1. cbn [negb take receive_all]. unfold mbind, io_bind.
  pose proof (sd_running _ _ (steadily_receive a dat s1) Hr1) as Hr2. destruct (receive a dat s1) as [v2 s2]. cbn in *. by rewrite Hr2.
Qed.

(** ** The other peers *)

Section calm.
Context (M : nat) (Hfull : full_draws) (a : address) (i : nat) (x : client_t).
Hypothesis Hu : used x = true.
Hypothesis Ha : addr x = a.
Notation good := (sound 0 M).
Let Hfresh : fresh_draws 0.
Proof. intros j k y z Hj. lia. Qed.

(** The slot [x] is where it was, and its peer was sent nothing. *)
Record calm (s s' : server_t) : Prop := {
  ca_slot : c s' !! i = c s !! i;
  ca_sent : to_peer a (sent s') = to_peer a (sent s);
  ca_steady : steady s s';
  ca_grows : grows 0 M s s' }.
Lemma calm_refl s : good s → calm s s.
Proof. by intros G. Qed.
Lemma calm_trans s1 s2 s3 : calm s1 s2 → calm s2 s3 → calm s1 s3.
Proof.
  intros [A1 B1 C1 [D1 E1]] [A2 B2 C2 [D2 E2]]. split; [congruence|congruence|by etrans|split; [done|lia]].
Qed.
(** Another slot. *)
Lemma on_slot_calm s j f : good s → c s !! i = Some x → j ≠ i → (∀ y, steadily (f y)) →
  (∀ z, c s !! j = Some z → table M s → minds s j f z) → wp (on_slot j f) (λ _, calm s) s.
Proof.
  intros G Hx Hji Hst Hf. pose proof (on_slot_sound 0 M Hfresh s j f G Hf) as Hg.
  pose proof (steadily_on_slot j f Hst s) as Hs. unfold wp in *. revert Hg Hs. unfold on_slot, mbind, io_bind, look.
  destruct (c s !! j) as [z|] eqn:Ez; [|intros Hg Hs; split; done].
  destruct (Hf z eq_refl (proj1 G)) as [E|(a' & x0 & Hseat & Hh)].
  - rewrite E. cbn. rewrite list_insert_id by done. destruct s. intros Hg Hs. by split.
  - pose proof (Hh s eq_refl (le_n _)) as Ho. unfold wp in Ho. destruct (f z s) as [y s1]. cbn in Ho |- *. destruct Ho as (out & F & _ & _).
    intros Hg Hs. split; [| |exact Hs|exact Hg]; cbn [change c sent set_clients snd].
    + rewrite (fr_clients _ _ _ _ F). by rewrite list_lookup_insert_ne.
    + destruct (fr_sent _ _ _ _ F) as (out' & -> & _). rewrite to_peer_app, to_peer_other; [by rewrite app_nil_r|].
      intros ->. destruct Hseat as [_ [(Hz & _ & Haz)|(_ & _ & _ & _ & Hno)]].
      * apply Hji. eapply (ta_addresses _ _ (proj1 G) j i z x); try done. congruence.
      * apply (Hno x); [by eapply list_elem_of_lookup_2|done..].
Qed.
Lemma sweep_calm now l s : good s → c s !! i = Some x → u64 (now - last_rx x) <= timeout_ms s →
  wp (for_each l (λ j, on_slot j (sweep_one now))) (λ _, calm s) s.
Proof.
  revert s. induction l as [|j l IH]; intros s G Hx Hnow; [by apply wp_ret, calm_refl|]. cbn [for_each]. apply wp_bind.
  assert (Hj : wp (on_slot j (sweep_one now)) (λ _, calm s) s).
  { destruct (decide (j = i)) as [->|Hji].
    - unfold wp, on_slot, mbind, io_bind, look. rewrite Hx. unfold sweep_one, mbind, io_bind, look. cbn. rewrite Hu. cbn.
      replace (timeout_ms s <? u64 (now - last_rx x)) with false by (symmetry; by apply Z.ltb_ge).
      destruct (negb _); cbn; rewrite list_insert_id by done; destruct s; by apply calm_refl.
    - apply on_slot_calm; [done..| |intros z Hz _; by apply sweep_one_minds].
      intros y. unfold sweep_one. steady; apply (steadily_counts n_rx n_acks n_rst (λ s, n_timeout s + 1)). }
  eapply wp_mono; [exact Hj|]. intros ? s1 C1. eapply wp_mono; [apply IH|intros ? s2 C2; exact (calm_trans _ _ _ C1 C2)].
  - apply (ca_grows _ _ C1).
  - by rewrite (ca_slot _ _ C1).
  - by rewrite (proj1 (sd_config _ _ (ca_steady _ _ C1))).
Qed.
Lemma receive_calm a' dat s : good s → c s !! i = Some x → a' ≠ a → wp (receive a' dat) (λ _, calm s) s.
Proof.
  intros G Hx Hne. pose proof (keeps_receive 0 M Hfull Hfresh a' dat s G) as Hg. pose proof (steadily_receive a' dat s) as Hs.
  pose proof (receive_apart M Hfull a' dat s (proj1 G)) as Hap. unfold wp in *. destruct Hap as [Hsame (out & E & _)].
  split; [|by rewrite E, to_peer_app, to_peer_other, app_nil_r by done|done|done].
  rewrite Hx. apply Hsame; [done..|]. congruence.
Qed.

(** Rounds in which only the others send. *)
Definition others (w : wake) : Prop := match w with Idle => True | Incoming l => Forall (λ m, m.1 ≠ a) l | _ => False end.
Definition on_time (s : server_t) (n : nat) : Prop := ∀ k, (events s <= k < n)%nat → u64 (now_ms k - last_rx x) <= timeout_ms s.
Lemma on_time_mono s s' n : on_time s n → steady s s' → (events s <= events s')%nat → on_time s' n.
Proof. intros Ht Hs Hev k Hk. rewrite (proj1 (sd_config _ _ Hs)). apply Ht. lia. Qed.

(** The sweep at the start of a round. *)
Lemma sweep_at s : sweep_timeouts s = for_each slots (λ j, on_slot j (sweep_one (now_ms (events s)))) (tick s).
Proof. unfold sweep_timeouts, lab_now_ms, mbind, io_bind, event, mret, io_ret. reflexivity. Qed.
Lemma sweep_round_calm s n : good s → c s !! i = Some x → (events (sweep_timeouts s).2 <= n)%nat → on_time s n → calm s (sweep_timeouts s).2.
Proof.
  rewrite sweep_at. intros G Hx Hn Ht. assert (G' : good (tick s)) by (apply (keeps_now 0 M s G)).
  pose proof (keeps_sweep_at 0 M Hfresh (now_ms (events s)) (tick s) G') as [_ Hge]. cbn [events tick] in Hge.
  pose proof (sweep_calm (now_ms (events s)) slots (tick s) G' Hx) as Hc. unfold wp in Hc. eapply calm_trans; [|apply Hc, Ht; lia].
  split; [done|done|by split|split; [done|cbn; lia]].
Qed.
Lemma receive_all_calm l s : good s → c s !! i = Some x → Forall (λ m, m.1 ≠ a) l → calm s (receive_all l s).2.
Proof.
  revert s. induction l as [|[a' dat] l IH]; intros s G Hx Hl; [by apply calm_refl|]. apply Forall_cons in Hl as [Hne Hl]. cbn in Hne.
  pose proof (receive_calm a' dat s G Hx Hne) as C. unfold wp in C. cbn [receive_all]. unfold mbind, io_bind.
  destruct (receive a' dat s) as [v s1]. cbn in C. eapply calm_trans; [exact C|]. apply IH; [apply (ca_grows _ _ C)| |done].
  by rewrite (ca_slot _ _ C).
Qed.
Lemma steadily_receive_all l : steadily (receive_all l).
Proof. induction l as [|[a' dat] l IH]; [apply steadily_ret|]. cbn. apply steadily_bind; [by apply steadily_receive|done]. Qed.
Lemma round_others w s : others w → running s = true →
  ∃ l s1, Forall (λ m, m.1 ≠ a) l ∧ s1 = (receive_all l (sweep_timeouts s).2).2 ∧ running s1 = true ∧ ∀ k, loop (w :: k) s = loop k s1.
Proof.
  intros Hw Hr. pose proof (sd_running _ _ (steadily_sweep s) Hr) as Hr1. destruct w as [|l| | |]; try done.
  - exists [], (sweep_timeouts s).2. split_and!; [done..|]. intros k. cbn [loop]. unfold round, mbind, io_bind, look.
    destruct (sweep_timeouts s) as [v s1]. cbn in *. by rewrite Hr1.
  - exists (take 16 l). eexists. pose proof (sd_running _ _ (steadily_receive_all (take 16 l) (sweep_timeouts s).2) Hr1) as Hr2.
    split_and!; [by apply Forall_take|done|done|]. intros k. cbn [loop]. unfold round, mbind, io_bind, look.
    destruct (sweep_timeouts s) as [v s1]. cbn [fst snd] in *. rewrite Hr1. cbn [negb]. destruct (receive_all _ s1) as [v2 s2]. cbn in *. by rewrite Hr2.
Qed.
Lemma loop_others_app ws s k : Forall others ws → running s = true → loop (ws ++ k) s = loop k (loop ws s).2.
Proof.
  intros Hw. revert s. induction Hw as [|w ws Hw _ IH]; intros s Hr; [done|]. destruct (round_others w s Hw Hr) as (l & s1 & _ & _ & Hr1 & E).
  change ((w :: ws) ++ k) with (w :: (ws ++ k)). rewrite !E. by apply IH.
Qed.
(** Any number of such rounds, until at most the event [n]. *)
Lemma loop_others ws s n : Forall others ws → good s → c s !! i = Some x → running s = true →
  (events (loop ws s).2 <= n)%nat → on_time s n → calm s (loop ws s).2.
Proof.
  intros Hw. revert s. induction Hw as [|w ws Hw _ IH]; intros s G Hx Hr Hn Ht; [by apply calm_refl|].
  destruct (round_others w s Hw Hr) as (l & s1 & Hl & E1 & Hr1 & E). rewrite E in Hn |- *. clear E.
  pose proof (keeps_sweep 0 M Hfresh s G) as [G1 H1]. pose proof (keeps_receive_all 0 M Hfull Hfresh l _ G1) as [G2 H2]. rewrite <- E1 in *.
  pose proof (keeps_loop 0 M Hfull Hfresh ws _ G2) as [_ H3].
  assert (C : calm s s1).
  { assert (C1 : calm s (sweep_timeouts s).2) by (apply (sweep_round_calm s n); [done..|lia|done]).
    eapply calm_trans; [exact C1|]. rewrite E1. apply receive_all_calm; [done|by rewrite (ca_slot _ _ C1)|done]. }
  eapply calm_trans; [exact C|]. apply IH; [done|by rewrite (ca_slot _ _ C)|done|done|].
  eapply on_time_mono; [done|apply (ca_steady _ _ C)|apply (ca_grows _ _ C)].
Qed.

(** ** A datagram of the peer itself *)

Lemma find_index_exists f l y : y ∈ l → f y = true → is_Some (find_index f l).
Proof.
  intros Hy Hf. destruct (find_index f l) eqn:E; [done|]. pose proof (find_index_None f l E y Hy). congruence.
Qed.
Lemma slot_for_own s : table M s → c s !! i = Some x → slot_for a s = Some i.
Proof.
  intros T Hx. unfold slot_for. destruct (find_index_exists (of_peer a) (c s) x) as [j Ej]; [by eapply list_elem_of_lookup_2| |].
  { unfold of_peer. rewrite Hu. by apply bool_decide_eq_true. }
  rewrite Ej. apply find_index_Some in Ej as (z & Hz & Hp). unfold of_peer in Hp. apply andb_true_iff in Hp as [Huz Haz%bool_decide_eq_true].
  f_equal. eapply (ta_addresses _ _ T j i z x); try done. congruence.
Qed.
(** What such a round comes to: the answer [d], and [Q] of the slot. *)
Record answers_with (s : server_t) (d : bytes) (Q : nat → client_t → Prop) (s' : server_t) : Prop := {
  aw_slot : ∃ y, c s' !! i = Some y ∧ Q (events s') y;
  aw_rest : ∀ j z, j ≠ i → c s' !! j = Some z → used z = true → addr z ≠ a;
  aw_sent : to_peer a (sent s') = to_peer a (sent s) ++ [d];
  aw_steady : steady s s';
  aw_grows : grows 0 M s s' }.
Definition serves (s : server_t) (n : nat) (dat d : bytes) (Q : nat → client_t → Prop) : Prop :=
  ∀ s1, steady s s1 → (events s <= events s1)%nat → (events s1 <= n)%nat →
  wp (serve a dat x) (λ y s2, c s2 = c s1 ∧ sent s2 = sent s1 ++ [(a, d)] ∧ Q (events s2) y) s1.
Lemma round_own s n dat d Q : good s → c s !! i = Some x → running s = true → is_loopback a = true →
  (events (round (Incoming [(a, dat)]) s).2 <= n)%nat → on_time s n → serves s n dat d Q →
  answers_with s d Q (round (Incoming [(a, dat)]) s).2.
Proof.
  intros G Hx Hr Hlo Hn Ht Hserve.
  pose proof (keeps_sweep 0 M Hfresh s G) as [G1 E1].
  pose proof (round_one a dat s Hr) as Hround.
  rewrite Hround in *. cbn [snd] in *. set (s1 := (sweep_timeouts s).2) in *.
  pose proof (keeps_receive 0 M Hfull Hfresh a dat s1 G1) as [G2 E2].
  assert (C : calm s s1) by (apply (sweep_round_calm s n); [done..|change (events s1 <= n)%nat; lia|done]).
  set (s0 := set_counts (n_rx s1 + 1) (n_acks s1) (n_rst s1) (n_timeout s1) s1).
  assert (Hreceive : receive a dat s1 = on_slot i (serve a dat) s0).
  { unfold receive, mbind, io_bind, change, look. rewrite Hlo. cbn [negb]. fold s0. change (slot_for a s0) with (slot_for a s1).
    rewrite (slot_for_own s1); [done|apply G1|by rewrite (ca_slot _ _ C)]. }
  assert (Hslot : (receive a dat s1).2 = set_clients (<[i := (serve a dat x s0).1]> (c (serve a dat x s0).2)) (serve a dat x s0).2).
  { rewrite Hreceive. unfold on_slot, mbind, io_bind, look, change. change (c s0) with (c s1). rewrite (ca_slot _ _ C), Hx.
    by destruct (serve a dat x s0). }
  pose proof (ca_steady _ _ C) as S1. pose proof (steadily_receive a dat s1) as S2.
  assert (Hw := Hserve s0). unfold wp in Hw. rewrite Hslot in *. destruct (serve a dat x s0) as [y s2]. cbn [fst snd c sent events set_clients] in *.
  destruct Hw as (Hc & Hs & HQ); [by etrans|exact E1|change (events s0) with (events s1); lia|]. split.
  - exists y. cbn [c set_clients]. rewrite Hc. split; [|done]. apply list_lookup_insert_eq. apply lookup_lt_Some in Hx.
    change (c s0) with (c s1). rewrite (ta_size _ _ (proj1 G1)). by rewrite (ta_size _ _ (proj1 G)) in Hx.
  - cbn [c set_clients]. rewrite Hc. change (c s0) with (c s1). intros j z Hji Hj Huz Haz. rewrite list_lookup_insert_ne in Hj by done.
    apply Hji. eapply (ta_addresses _ _ (proj1 G1) j i z x); [done|by rewrite (ca_slot _ _ C)|done|done|congruence].
  - cbn [sent set_clients]. rewrite Hs, to_peer_app. change [(a, d)] with ((λ d, (a, d)) <$> [d]). rewrite to_peer_same. change (sent s0) with (sent s1).
    by rewrite (ca_sent _ _ C).
  - by etrans.
  - split; [exact G2|cbn; lia].
Qed.

(** Rounds of the others, then one of the peer. *)
Lemma loop_stage ws dat k s : Forall others ws → running s = true →
  loop (ws ++ Incoming [(a, dat)] :: k) s = loop k (loop (ws ++ [Incoming [(a, dat)]]) s).2.
Proof.
  intros Hw Hr. rewrite !loop_others_app by done. assert (Hr1 : running (loop ws s).2 = true).
  { clear -Hw Hr Hdelivered. revert s Hr. induction Hw as [|w ws Hw _ IH]; intros s Hr; [done|].
    destruct (round_others w s Hw Hr) as (l & s1 & _ & _ & Hr1 & E). rewrite E. by apply IH. }
  cbn [loop]. unfold mbind, io_bind. by rewrite (round_one a dat _ Hr1).
Qed.
Lemma stage ws s n dat d Q : Forall others ws → good s → c s !! i = Some x → running s = true → is_loopback a = true →
  (events (loop (ws ++ [Incoming [(a, dat)]]) s).2 <= n)%nat → on_time s n →
  (∀ s1, steady s s1 → (events s <= events s1)%nat → serves s1 n dat d Q) →
  answers_with s d Q (loop (ws ++ [Incoming [(a, dat)]]) s).2.
Proof.
  intros Hw G Hx Hr Hlo Hn Ht Hserve. rewrite loop_others_app in * by done. set (s1 := (loop ws s).2) in *.
  assert (G1 : good s1) by apply (keeps_loop 0 M Hfull Hfresh ws s G).
  assert (Hone : (loop [Incoming [(a, dat)]] s1).2 = (round (Incoming [(a, dat)]) s1).2).
  { cbn [loop]. unfold mbind, io_bind. destruct (round _ s1) as [[] s2]; done. }
  rewrite Hone in *. pose proof (keeps_round 0 M Hfull Hfresh (Incoming [(a, dat)]) s1 G1) as [_ E1].
  assert (C : calm s s1) by (apply (loop_others ws s n); [done..|change (events s1 <= n)%nat; lia|done]).
  pose proof (ca_steady _ _ C) as S1. pose proof (proj2 (ca_grows _ _ C)) as E0.
  destruct (round_own s1 n dat d Q) as [A1 A0 A2 A3 [A4 A5]]; [done|by rewrite (ca_slot _ _ C)|by apply (sd_running _ _ S1)|done|done| |by apply Hserve|].
  - by eapply on_time_mono.
  - split; [done|done|by rewrite A2, (ca_sent _ _ C)|by etrans|split; [done|lia]].
Qed.
End calm.


(** ** What the server answers an honest client *)

Lemma datagram_parts kind seq p : payload_wf p → kind_of p = kind → is_u32 seq →
  lab_hdr_parse (datagram kind seq (lab_payload_len kind) p) = Some (Hdr LAB_MAGIC LAB_VERSION kind 0 seq (lab_payload_len kind)) ∧
  drop 16 (datagram kind seq (lab_payload_len kind) p) = lab_payload_pack p ∧
  len (datagram kind seq (lab_payload_len kind) p) = 16 + lab_payload_len kind.
Proof.
  intros Hw <- Hq. assert (Hh : hdr_wf (Hdr LAB_MAGIC LAB_VERSION (kind_of p) 0 seq (lab_payload_len (kind_of p)))).
  { unfold hdr_wf, is_u8, is_u32. cbn [h_magic h_version h_kind h_flags h_seq h_len]. unfold is_u32 in Hq. destruct p; split_and!; by (done || lia). }
  assert (Hl : length (lab_hdr_pack (Hdr LAB_MAGIC LAB_VERSION (kind_of p) 0 seq (lab_payload_len (kind_of p)))) = 16%nat)
    by (unfold lab_hdr_pack; by rewrite !length_app, !length_le_encode).
  unfold datagram. split_and!; [by apply hdr_pack_parse|by rewrite drop_app_length'|]. rewrite len_app, length_pack by done. unfold len. lia.
Qed.

Lemma hdr_bytes dat h : lab_hdr_parse dat = Some h → byte_at dat 0 = h_magic h ∧ byte_at dat 1 = h_version h ∧ byte_at dat 2 = h_kind h.
Proof. unfold lab_hdr_parse. intros E. repeat (case_match; [done|]). by injection E as <-. Qed.
Lemma send_exact x wire s : send_datagram x wire s = (true, add_sent (addr x) wire (add_tried (addr x) wire (tick s))).
Proof. unfold send_datagram, mbind, io_bind, event, change. by rewrite Hdelivered. Qed.

Section serving.
Context (a : address) (s : server_t).
(** The answer, and the slot left. *)
Definition serving (m : io client_t) (d : bytes) (Q : nat → client_t → Prop) : Prop :=
  wp m (λ y s2, c s2 = c s ∧ sent s2 = sent s ++ [(a, d)] ∧ Q (events s2) y) s.

Lemma serve_hello x p rnd : used x = false → payload_wf (PHello p) → app_id p = LAB_APP_ID →
  strnlen (app p) = 9%nat → take 9 (app p) = LAB_APP_NAME → forallb printable (take (strnlen (name p)) (name p)) = true →
  valid_nonce (nonce p) = true → (∀ z, z ∈ c s → used z = true → cnonce z ≠ nonce p) → random_bytes (events s) = Some rnd →
  let y := opened (greeted (set_addr a zero_client) (nonce p) rnd (lab_payload_pack (PHello p))) (name p) (now_ms (S (S (events s)))) in
  serving (serve a (datagram LAB_HELLO 0 LAB_HELLO_LEN (PHello p)) x) (ack_datagram y) (λ n z, z = y ∧ n = S (S (S (events s)))).
Proof.
  intros Hu Hw Hid Happ Hname Hprint Hnonce Hfree Hrnd y.
  destruct (datagram_parts LAB_HELLO 0 (PHello p) Hw eq_refl) as (Hh & Hd & Hl); [by vm_compute|]. change (lab_payload_len LAB_HELLO) with LAB_HELLO_LEN in *.
  destruct (hdr_bytes _ _ Hh) as (B0 & B1 & B2). cbn [h_magic h_version h_kind] in B0, B1, B2.
  assert (Hp : lab_payload_parse (lab_payload_pack (PHello p)) LAB_HELLO = Some (PHello p)) by (by apply (pack_parse (PHello p))).
  assert (Hlp : len (lab_payload_pack (PHello p)) = LAB_HELLO_LEN) by (by apply (length_pack (PHello p))).
  unfold serving, serve. rewrite Hu. cbn [state set_addr zero_client]. unfold do_new. rewrite Hl, Hh, Hd, B0, B1, B2.
  change (16 + LAB_HELLO_LEN) with 76. change (LAB_MAX_DATAGRAM <? 76) with false. change (76 <? 16) with false. cbn [orb].
  rewrite !Z.eqb_refl. cbn [negb h_len h_flags h_seq]. change (LAB_HELLO_LEN =? 76 - 16) with true. cbn [negb orb Z.eqb].
  unfold do_hello. rewrite Hlp, Hp, Z.eqb_refl, Hid, Z.eqb_refl, Happ. cbn [negb Nat.eqb orb].
  rewrite (bool_decide_eq_true_2 _ Hname), Hprint, Hnonce. cbn [negb].
  apply wp_bind, wp_look. replace (existsb _ (c s)) with false.
  2:{ symmetry. apply not_true_iff_false. intros (z & Hz%list_elem_of_In & Hn)%existsb_exists. apply andb_true_iff in Hn as [Huz Hc%bool_decide_eq_true].
      by apply (Hfree z). }
  apply wp_bind. unfold wp at 1. cbn [event fst snd]. rewrite Hrnd. apply wp_bind. unfold wp at 1, send_hello_ack, mbind, io_bind.
  rewrite send_exact. cbn. split_and!; done.
Qed.

Section open.
Context (x : client_t).
Hypothesis Hu : used x = true.
Hypothesis Ho : state x = ST_OPEN.
Hypothesis Ha : addr x = a.
Lemma serve_evidence kind seq m q e id : payload_wf m → kind_of m = kind → kind = LAB_REQUEST ∨ kind = LAB_OBSERVATION → is_u32 seq →
  decide_evidence x (policy s) m (now_ms (events s)) = (e, LAB_OK, id) → lab_sequence_accept (sequence x) seq = (q, LAB_OK) →
  serving (serve a (datagram kind seq (lab_payload_len kind) m) x) (decision_datagram x seq id (answers kind) LAB_OK)
    (λ n z, z = set_evidence q e (now_ms (S (events s))) x ∧ n = S (S (S (events s)))).
Proof.
  intros Hw Hk Hkind Hq Hd Hseq. destruct (datagram_parts kind seq m Hw Hk Hq) as (Hh & Hpay & Hl).
  assert (Hp : lab_payload_parse (lab_payload_pack m) kind = Some m) by (rewrite <- Hk; by apply pack_parse).
  assert (Hx : set_addr a x = x) by (rewrite <- Ha; by destruct x).
  unfold serving, serve. rewrite Hu, Hx, Ho. unfold do_open. rewrite Hh, Hl, Hpay. cbn [h_magic h_version h_len h_kind h_flags].
  rewrite !Z.eqb_refl. replace (LAB_MAX_DATAGRAM <? 16 + lab_payload_len kind) with false by (by destruct Hkind as [-> | ->]).
  replace (lab_payload_len kind =? 16 + lab_payload_len kind - 16) with true by (symmetry; apply Z.eqb_eq; lia). cbn [negb orb Z.eqb].
  replace (kind =? LAB_HELLO) with false by (by destruct Hkind as [-> | ->]).
  replace ((kind =? LAB_REQUEST) || (kind =? LAB_OBSERVATION)) with true by (by destruct Hkind as [-> | ->]).
  unfold do_evidence. cbn [h_kind h_seq]. rewrite Hp. apply wp_bind, wp_look. apply wp_bind. unfold wp at 1, lab_now_ms, mbind, io_bind, event, mret, io_ret.
  cbn [fst snd]. rewrite Hd, Hseq. cbn [Z.eqb LAB_OK]. unfold wp. cbn [fst snd]. rewrite send_exact. cbn [fst snd]. change (LAB_OK =? LAB_CLOSING) with false.
  cbn. rewrite Ha. by split_and!.
Qed.
Lemma serve_bye : length (session x) = 16%nat →
  serving (serve a (datagram LAB_BYE 3 LAB_BYE_LEN (PBye (Bye (session x) 0 0))) x) (rst_datagram x LAB_OK (b "bye")) (λ _ z, z = zero_client).
Proof.
  intros Hs. set (p := Bye (session x) 0 0). assert (Hw : payload_wf (PBye p)) by by split_and!. destruct (datagram_parts LAB_BYE 3 (PBye p) Hw eq_refl) as (Hh & Hpay & Hl); [by vm_compute|].
  change (lab_payload_len LAB_BYE) with LAB_BYE_LEN in *. assert (Hx : set_addr a x = x) by (rewrite <- Ha; by destruct x).
  unfold serving, serve. rewrite Hu, Hx, Ho. unfold do_open. rewrite Hh, Hl, Hpay. cbn [h_magic h_version h_len h_kind h_flags].
  change (16 + LAB_BYE_LEN) with 40. change (LAB_MAX_DATAGRAM <? 40) with false. rewrite !Z.eqb_refl. cbn [negb].
  change (negb (LAB_BYE_LEN =? 40 - 16) || negb (lab_payload_len LAB_BYE =? LAB_BYE_LEN)) with false. cbn [Z.eqb negb orb].
  change (negb (LAB_BYE_LEN =? LAB_BYE_LEN) || negb (40 - 16 =? LAB_BYE_LEN)) with false.
  assert (Ht : take 16 (lab_payload_pack (PBye p)) = session x) by (by apply take_app_length').
  cbn [LAB_BYE LAB_HELLO LAB_REQUEST LAB_OBSERVATION LAB_HELLO_ACK LAB_PONG LAB_DECISION LAB_PING Z.eqb Pos.eqb orb].
  rewrite Ht, bool_decide_eq_true_2 by done. cbn [negb]. unfold wp, send_rst, mbind, io_bind. rewrite send_exact. cbn. by rewrite Ha.
Qed.
End open.
End serving.

(** ** A new peer *)

Section newcomer.
Context (M : nat) (Hfull : full_draws) (a : address).
Notation good := (sound 0 M).
Let Hfresh : fresh_draws 0.
Proof. intros j k y z Hj. lia. Qed.
Definition stranger (s : server_t) : Prop := ∀ z, z ∈ c s → used z = true → addr z ≠ a.
(** Sessions may have ended; the peer was sent nothing. *)
Record shrinks (s s' : server_t) : Prop := {
  sh_slots : ∀ z, z ∈ c s' → used z = true → z ∈ c s;
  sh_count : (in_use (c s') <= in_use (c s))%nat;
  sh_sent : to_peer a (sent s') = to_peer a (sent s) }.
Lemma shrinks_refl s : shrinks s s.
Proof. by split. Qed.
Lemma shrinks_trans s1 s2 s3 : shrinks s1 s2 → shrinks s2 s3 → shrinks s1 s3.
Proof. intros [A1 B1 C1] [A2 B2 C2]. split; [auto|lia|congruence]. Qed.
Lemma on_slot_shrinks s j now : stranger s → shrinks s (on_slot j (sweep_one now) s).2.
Proof.
  intros Hs. unfold on_slot, mbind, io_bind, look. destruct (c s !! j) as [z|] eqn:Ez; [|apply shrinks_refl].
  assert (Hsame : shrinks s (set_clients (<[j := z]> (c s)) s)) by (rewrite list_insert_id by done; by split).
  unfold sweep_one, mbind, io_bind, look. destruct (used z) eqn:Hu; [|exact Hsame]. cbn [negb orb].
  destruct (negb _); [exact Hsame|]. destruct (_ <? _); [|exact Hsame].
  unfold send_rst, mbind, io_bind. rewrite send_exact. unfold mret, io_ret, change. split; cbn [fst snd c sent set_clients set_counts add_sent add_tried tick].
  - intros y Hy Huy. apply list_elem_of_lookup in Hy as [k Hk]. apply list_lookup_insert_Some in Hk as [(_ & <- & _)|[_ Hk]]; [done|].
    by eapply list_elem_of_lookup_2.
  - pose proof (in_use_insert _ _ _ zero_client Ez) as Hc. rewrite Hu in Hc. cbn [Nat.b2n used zero_client] in Hc.
    unfold release_client. lia.
  - rewrite to_peer_app. etrans; [apply (f_equal (Datatypes.app _)), (to_peer_other a (addr z) [rst_datagram z LAB_TIMEOUT (b "timeout")])|apply app_nil_r].
    apply (Hs z); [by eapply list_elem_of_lookup_2|done].
Qed.
Lemma sweep_shrinks s : stranger s → shrinks s (sweep_timeouts s).2.
Proof.
  intros Hs. rewrite sweep_at. generalize (now_ms (events s)). intros now. assert (Hs' : stranger (tick s)) by done.
  apply (shrinks_trans s (tick s)); [by split|]. generalize (tick s) Hs'. clear Hs Hs' s.
  induction slots as [|j l IH]; intros s Hs; [apply shrinks_refl|]. cbn [for_each]. unfold mbind, io_bind.
  pose proof (on_slot_shrinks s j now Hs) as S1. destruct (on_slot j (sweep_one now) s) as [v s1]. cbn in S1. eapply shrinks_trans; [exact S1|].
  apply IH. intros z Hz Hu. apply Hs; [by apply (sh_slots _ _ S1)|done].
Qed.
Lemma in_use_all l : Forall (λ z, used z = true) l → in_use l = length l.
Proof. unfold in_use. induction 1 as [|z l Hz _ IH]; [done|]. rewrite filter_cons, decide_True by done. cbn. by rewrite IH. Qed.
Lemma free_slot s : table M s → stranger s → (in_use (c s) < M)%nat → (M <= MAX_CLIENTS)%nat →
  ∃ j z, slot_for a s = Some j ∧ c s !! j = Some z ∧ used z = false.
Proof.
  intros T Hs Hroom HM. unfold slot_for. destruct (find_index (of_peer a) (c s)) as [k|] eqn:Ek.
  { apply find_index_Some in Ek as (z & Hz & Hp). unfold of_peer in Hp. apply andb_true_iff in Hp as [Huz Haz%bool_decide_eq_true].
    exfalso. apply (Hs z); [by eapply list_elem_of_lookup_2|done..]. }
  rewrite (ta_limit _ _ T). destruct (Nat.leb_spec M (length (filter (λ x, used x = true) (c s)))); [unfold in_use in Hroom; lia|].
  assert (Hex : ∃ z, z ∈ c s ∧ used z = false).
  { destruct (decide (Forall (λ z, used z = true) (c s))) as [Hall|Hn].
    - apply in_use_all in Hall. rewrite (ta_size _ _ T) in Hall. lia.
    - apply not_Forall_Exists in Hn; [|apply _]. apply Exists_exists in Hn as (z & Hz & Hu). exists z. split; [done|by apply not_true_iff_false]. }
  destruct Hex as (z & Hz & Huz). destruct (find_index_exists (λ x, negb (used x)) (c s) z Hz) as [j Ej]; [by rewrite Huz|].
  rewrite Ej. apply find_index_Some in Ej as (y & Hy & Huy%negb_true_iff). by exists j, y.
Qed.
(** The round in which it says HELLO. *)
Record admitted (s : server_t) (p : lab_hello_t) (i : nat) (y : client_t) (s' : server_t) : Prop := {
  ad_slot : c s' !! i = Some y;
  ad_client : ∃ rnd, length rnd = 32%nat ∧ y = opened (greeted (set_addr a zero_client) (nonce p) rnd (lab_payload_pack (PHello p))) (name p) (last_rx y);
  ad_time : ∃ k, last_rx y = now_ms k ∧ (events s <= k < events s')%nat;
  ad_sent : to_peer a (sent s') = to_peer a (sent s) ++ [ack_datagram y];
  ad_steady : steady s s';
  ad_grows : grows 0 M s s';
  ad_loop : ∀ k, loop (Incoming [(a, datagram LAB_HELLO 0 LAB_HELLO_LEN (PHello p))] :: k) s = loop k s' }.
Lemma round_hello s p : good s → running s = true → is_loopback a = true → stranger s → (in_use (c s) < M)%nat → (M <= MAX_CLIENTS)%nat →
  (∀ n, is_Some (random_bytes n)) → payload_wf (PHello p) → app_id p = LAB_APP_ID →
  strnlen (app p) = 9%nat → take 9 (app p) = LAB_APP_NAME → forallb printable (take (strnlen (name p)) (name p)) = true →
  valid_nonce (nonce p) = true → (∀ z, z ∈ c s → used z = true → cnonce z ≠ nonce p) →
  ∃ i y, admitted s p i y (round (Incoming [(a, datagram LAB_HELLO 0 LAB_HELLO_LEN (PHello p))]) s).2.
Proof.
  intros G Hr Hlo Hs Hroom HM Hrnd Hw Hid Happ Hname Hprint Hnonce Hfree. set (dat := datagram _ _ _ _).
  pose proof (keeps_sweep 0 M Hfresh s G) as [G1 E1].
  pose proof (round_one a dat s Hr) as Hround.
  rewrite Hround. cbn [snd]. pose proof (sweep_shrinks s Hs) as Hsh. pose proof (steadily_sweep s) as S1. set (s1 := (sweep_timeouts s).2) in *.
  pose proof (keeps_receive 0 M Hfull Hfresh a dat s1 G1) as [G2 E2]. pose proof (steadily_receive a dat s1) as S2.
  set (s0 := set_counts (n_rx s1 + 1) (n_acks s1) (n_rst s1) (n_timeout s1) s1).
  destruct (free_slot s1) as (i & z & Hi & Hz & Huz); [apply G1|intros z Hz Huz; apply Hs; [by apply (sh_slots _ _ Hsh)|done]|pose proof (sh_count _ _ Hsh); lia|done|].
  destruct (Hrnd (events s0)) as [rnd Er].
  pose proof (serve_hello a s0 z p rnd Huz Hw Hid Happ Hname Hprint Hnonce) as Hserve. fold dat in Hserve.
  destruct (serve a dat z s0) as [y s2] eqn:Es. unfold serving, wp in Hserve. rewrite Es in Hserve.
  destruct Hserve as (Hc & Hsent & Hy & Hev); [intros y' Hy' Huy'; apply Hfree; [by apply (sh_slots _ _ Hsh)|done]|done|]. cbn [fst snd] in *.
  assert (Hreceive : (receive a dat s1).2 = set_clients (<[i := y]> (c s2)) s2).
  { unfold receive, mbind, io_bind, change, look. rewrite Hlo. cbn [negb]. fold s0. change (slot_for a s0) with (slot_for a s1). rewrite Hi.
    unfold on_slot, mbind, io_bind, look, change. change (c s0) with (c s1). rewrite Hz. by rewrite Es. }
  rewrite Hreceive in *. exists i, y. split; cbn [c sent events set_clients].
  - rewrite Hc. apply list_lookup_insert_eq. by apply lookup_lt_Some in Hz.
  - exists rnd. split; [by eapply Hfull|]. by rewrite Hy.
  - exists (S (S (events s0))). rewrite Hy. split; [done|]. change (events s0) with (events s1) in *. lia.
  - rewrite Hsent, to_peer_app. rewrite Hy.
    etrans; [apply (f_equal (Datatypes.app _)), (to_peer_same a [_])|]. change (sent s0) with (sent s1). by rewrite (sh_sent _ _ Hsh).
  - by etrans.
  - split; [exact G2|]. cbn in E2 |- *. lia.
  - intros k. fold dat. cbn [loop]. unfold mbind, io_bind. by rewrite Hround.
Qed.
End newcomer.
End honest.

(** ** The policy on honest evidence *)

(** What the policy allows to be asked. *)
Definition permits (p : lab_policy_t) (org cap : Z) : Prop :=
  (org = LAB_ORIGIN_LINUX ∨ org = LAB_ORIGIN_WINDOWS) ∧ (origin p = 0 ∨ origin p = org) ∧ 1 <= cap <= 3 ∧
  Z.land (capabilities p) (Z.shiftl 1 (cap - 1)) ≠ 0 ∧ evidence_class p = LAB_SELF_REPORTED.
Lemma common_permits e p org cap : permits p org cap → open e = true →
  common e p (LabContract.session e) (instance e) org cap LAB_SELF_REPORTED = LAB_OK.
Proof.
  intros (Ho & Hp & Hc & Hm & Hk) He. unfold common. rewrite He, !bool_decide_eq_true_2, Hk by done. cbn [negb].
  assert (H1 : (negb (org =? LAB_ORIGIN_LINUX) && negb (org =? LAB_ORIGIN_WINDOWS)) || (negb (origin p =? 0) && negb (origin p =? org)) = false).
  { apply orb_false_iff. split; [by destruct Ho as [-> | ->]|]. destruct Hp as [-> | ->]; [done|]. by rewrite Z.eqb_refl, andb_false_r. }
  assert (H2 : (cap <? 1) || (3 <? cap) || (Z.land (capabilities p) (Z.shiftl 1 (cap - 1)) =? 0) = false).
  { rewrite !orb_false_iff, !Z.ltb_ge, Z.eqb_neq. lia. }
  by rewrite H1, H2.
Qed.
Lemma request_admitted e p r now : permits p (q_origin r) (q_capability r) → open e = true → q_session r = LabContract.session e →
  q_instance r = instance e → q_class r = LAB_SELF_REPORTED → q_reserved r = 0 → q_id r ≠ 0 → last_request e < q_id r →
  pending e = false → now + request_timeout_ms p <= UINT64_MAX →
  lab_policy_request e p r now =
    (Evidence true true (LabContract.session e) (instance e) (q_id r) (now + request_timeout_ms p) r, LAB_OK).
Proof.
  intros Hp He Hs Hi Hc Hr Hid Hl Hpe Hn. unfold lab_policy_request. rewrite Hs, Hi, Hc, common_permits, Hr, Hpe, He by done. cbn [negb Z.eqb LAB_OK orb andb].
  destruct (Z.eqb_spec (q_id r) 0); [done|]. destruct (Z.leb_spec (q_id r) (last_request e)); [lia|].
  destruct (Z.ltb_spec (UINT64_MAX - now) (request_timeout_ms p)); [lia|done].
Qed.
(** An observation that answers the request [r] as the policy wants it. *)
Definition answers_request (p : lab_policy_t) (r : lab_request_t) (o : lab_observation_t) : Prop :=
  o_session o = q_session r ∧ o_id o = q_id r ∧ o_instance o = q_instance r ∧ o_origin o = q_origin r ∧ o_capability o = q_capability r ∧
  o_class o = LAB_SELF_REPORTED ∧ o_seed o = q_seed r ∧ nonzero (o_subject o) = true ∧ o_ok o = 1 ∧ o_error o = 0 ∧
  o_elapsed_ms o <= request_timeout_ms p ∧ bad_data (o_capability o) (o_data o) = false.
Lemma observation_admitted e p o now : permits p (o_origin o) (o_capability o) → open e = true → pending e = true →
  q_session (request e) = LabContract.session e → q_instance (request e) = instance e → answers_request p (request e) o → now < deadline e →
  lab_policy_observation e p o now =
    (Evidence true false (LabContract.session e) (instance e) (last_request e) (deadline e) (request e), LAB_OK).
Proof.
  intros Hp He Hpe Hs Hi (A1 & A2 & A3 & A4 & A5 & A6 & A7 & A8 & A9 & A10 & A11 & A12) Hn. unfold lab_policy_observation.
  rewrite A1, A3, Hs, Hi, A6, common_permits, Hpe, He, A2, Z.eqb_refl by done. cbn [negb Z.eqb LAB_OK orb].
  destruct (Z.leb_spec (deadline e) now); [lia|]. rewrite A12, A4, A5, A7, A8, A9, A10, !Z.eqb_refl. cbn [negb orb Z.eqb Pos.eqb].
  destruct (Z.ltb_spec (request_timeout_ms p) (o_elapsed_ms o)); [lia|done].
Qed.
