(* ===== verification/LabJob.v ===== *)
(** * A job of the laboratory, end to end

    [Session] of [src/scripts/lab.py] and the policy server, among the other peers
    of the server: the client that [Lab] models, against the server that
    [LabServer] models. *)

From S2P Require Import Prelude Bytes LabContract LabServer LabServerTheorems LabSuite LabHonest.
From S2P Require Import Lab.
Import LabContract LabServer.

(** ** The client reads what the server writes *)

Lemma slice_drop {A} (l : list A) n i j : slice (drop n l) i j = slice l (n + i) (n + j).
Proof. unfold slice. rewrite drop_drop. by replace (n + j - (n + i))%nat with (j - i)%nat by lia. Qed.
Lemma get32_u32 l i : (i + 4 <= length l)%nat → Lab.u32 l i = Ok (get32 l i).
Proof. intros Hi. unfold Lab.u32. destruct (Nat.ltb_spec (length l) (i + 4)); [lia|done]. Qed.
Lemma parse_datagram kind seq p : payload_wf p → kind_of p = kind → is_u32 seq →
  let dat := datagram kind seq (lab_payload_len kind) p in
  Lab.parse dat kind (lab_payload_len kind) = Ok (lab_payload_pack p) ∧ Lab.u32 dat 4 = Ok seq.
Proof.
  intros Hw Hk Hq. destruct (datagram_parts kind seq p Hw Hk Hq) as (Hh & Hd & Hl). cbn zeta. set (dat := datagram _ _ _ _) in *.
  assert (Hlen : (16 <= length dat)%nat) by (destruct (hdr_parse_pack _ _ Hh) as (_ & _ & ?); lia).
  assert (Hpad : slice dat 12 16 = Lab.filler ∧ get32 dat 4 = seq ∧ get32 dat 8 = lab_payload_len kind).
  { unfold lab_hdr_parse in Hh. destruct (len dat <? 16); [done|]. destruct (bool_decide (slice dat 12 16 = pad)) eqn:E; [|done]. cbn [negb] in Hh.
    injection Hh. intros. apply bool_decide_eq_true in E. done. }
  destruct Hpad as (Hp & H4 & H8). rewrite (get32_u32 dat 4), H4 by lia. split; [|done].
  unfold Lab.parse. rewrite Hl, Z.eqb_refl, Hp. rewrite (bool_decide_eq_true_2 (Lab.filler = _)) by done.
  rewrite bool_decide_eq_true_2 by done. cbn [negb orb]. rewrite (get32_u32 dat 8), H8 by lia. unfold mbind, result_bind. by rewrite Z.eqb_refl, <- Hd.
Qed.

(** The fields of a payload the client reads. *)
Ltac fields := unfold lab_payload_parse, lab_evidence_parse; intros E; repeat (case_match; try discriminate); injection E as <-; done.
Lemma decision_fields i p : lab_payload_parse i LAB_DECISION = Some (PDecision p) →
  take 16 i = d_session p ∧ get32 i 16 = d_id p ∧ get32 i 20 = d_status p ∧ get32 i 24 = d_reason p.
Proof. fields. Qed.
Lemma ack_fields i p : lab_payload_parse i LAB_HELLO_ACK = Some (PHelloAck p) →
  get32 i 0 = a_result p ∧ get32 i 4 = a_reason p ∧ slice i 8 24 = a_session p ∧ slice i 40 56 = a_cnonce p.
Proof. fields. Qed.
Lemma rst_fields i p : lab_payload_parse i LAB_RST = Some (PRst p) →
  take 16 i = r_session p ∧ get32 i 16 = r_reason p ∧ get32 i 20 = r_len p ∧ slice i 24 60 = r_msg p.
Proof. fields. Qed.
Lemma hello_fields i p : lab_payload_parse i LAB_HELLO = Some (PHello p) → slice i 44 60 = nonce p.
Proof. fields. Qed.
(** The payload of a datagram of the server, as the client takes it apart. *)
Lemma payload_read kind seq p : payload_wf p → kind_of p = kind → is_u32 seq →
  let dat := datagram kind seq (lab_payload_len kind) p in let i := lab_payload_pack p in
  Lab.parse dat kind (lab_payload_len kind) = Ok i ∧ Lab.u32 dat 4 = Ok seq ∧ lab_payload_parse i kind = Some p ∧
  length i = Z.to_nat (lab_payload_len kind).
Proof.
  intros Hw Hk Hq. destruct (parse_datagram kind seq p Hw Hk Hq) as [Hp Hu]. split_and!; [done|done|rewrite <- Hk; by apply pack_parse|].
  pose proof (length_pack p Hw) as Hl. rewrite Hk in Hl. unfold len in Hl. lia.
Qed.

(** ** The steps of [Session] *)

Lemma pack16_exact s : length s = 16%nat → Lab.pack16 (Some s) = Ok s.
Proof. intros Hs. unfold Lab.pack16. by rewrite take_app_length'. Qed.
Lemma pack_exact n z : 0 <= z < 256 ^ Z.of_nat n → Lab.pack n z = Ok (le_encode n z).
Proof. intros Hz. unfold Lab.pack. destruct (Z.leb_spec 0 z), (Z.ltb_spec z (256 ^ Z.of_nat n)); lia || done. Qed.
Lemma decision_checked sid seq status s : length sid = 16%nat → is_u32 seq → is_u32 status → Lab.session s = Some sid →
  Lab.check_decision (datagram LAB_DECISION seq LAB_DECISION_LEN (PDecision (Decision sid 1 status LAB_OK))) status seq s = (Ok tt, s).
Proof.
  intros Hs Hq Ht Hsid. destruct (payload_read LAB_DECISION seq (PDecision (Decision sid 1 status LAB_OK))) as (Hp & Hu & Hi & Hl); [by split_and!|done|done|].
  destruct (decision_fields _ _ Hi) as (F1 & F2 & F3 & F4). cbn [d_session d_id d_status d_reason] in F1, F2, F3, F4.
  unfold Lab.check_decision. change (Lab.parse _ 66 28) with (Lab.parse (datagram LAB_DECISION seq (lab_payload_len LAB_DECISION) (PDecision (Decision sid 1 status LAB_OK))) LAB_DECISION (lab_payload_len LAB_DECISION)).
  change LAB_DECISION_LEN with (lab_payload_len LAB_DECISION).
  rewrite Hp, Hu. set (i := lab_payload_pack _) in *. change (Z.to_nat (lab_payload_len LAB_DECISION)) with 28%nat in Hl.
  unfold mbind, st_bind, lift, gets. rewrite !get32_u32, F1, F2, F3, F4 by lia. unfold raise_when, lift.
  rewrite Hsid, bool_decide_eq_true_2, !Z.eqb_refl by done. done.
Qed.

(** The datagrams of the client, for the session [sid] it was given. *)
Section client.
Context (p : lab_hello_t) (sid : bytes) (org cap seed : Z).
Hypothesis Hp : payload_wf (PHello p).
Hypothesis Hnonce : length (nonce p) = 16%nat.
Hypothesis Hsid : length sid = 16%nat.
Definition hello_datagram : bytes := datagram LAB_HELLO 0 LAB_HELLO_LEN (PHello p).
Definition honest_request : lab_request_t := Request sid 1 (nonce p) org cap LAB_SELF_REPORTED 0 seed.
Definition request_datagram : bytes := datagram LAB_REQUEST 1 LAB_REQUEST_LEN (PRequest honest_request).
Definition bye_datagram : bytes := datagram LAB_BYE 3 LAB_BYE_LEN (PBye (Bye sid 0 0)).

Lemma hello_nonce : slice hello_datagram 60 76 = nonce p.
Proof.
  destruct (datagram_parts LAB_HELLO 0 (PHello p) Hp eq_refl) as (_ & Hd & _); [by vm_compute|].
  rewrite <- (slice_drop hello_datagram 16 44 60 : _ = slice hello_datagram 60 76). unfold hello_datagram. change LAB_HELLO_LEN with (lab_payload_len LAB_HELLO).
  rewrite Hd. by apply (hello_fields _ p), (pack_parse (PHello p)).
Qed.
Lemma open_exact snonce sent replies shut : length snonce = 16%nat →
  Lab.open (Lab.MkSession hello_datagram None sent
    (Ok (datagram LAB_HELLO_ACK 0 LAB_HELLO_ACK_LEN (PHelloAck (HelloAck 1 LAB_OK sid snonce (nonce p)))) :: replies) shut) =
  (Ok tt, Lab.MkSession hello_datagram (Some sid) (sent ++ [hello_datagram]) replies shut).
Proof.
  intros Hs. set (ack := HelloAck 1 LAB_OK sid snonce (nonce p)).
  destruct (payload_read LAB_HELLO_ACK 0 (PHelloAck ack)) as (Hr & _ & Hi & Hl); [by split_and!|done|by vm_compute|].
  destruct (ack_fields _ _ Hi) as (F1 & F2 & F3 & F4). cbn [a_result a_reason a_session a_cnonce ack] in F1, F2, F3, F4.
  unfold Lab.open, mbind, st_bind, gets, lift. cbn [Lab.hello]. unfold Lab.exchange. cbn [Lab.replies].
  change (Lab.parse ?d 2 56) with (Lab.parse d LAB_HELLO_ACK (lab_payload_len LAB_HELLO_ACK)). change LAB_HELLO_ACK_LEN with (lab_payload_len LAB_HELLO_ACK).
  rewrite Hr. set (i := lab_payload_pack _) in *. change (Z.to_nat (lab_payload_len LAB_HELLO_ACK)) with 56%nat in Hl.
  rewrite !get32_u32, F1, F2 by lia. unfold raise_when, lift, modify. cbn [Lab.hello Lab.session Lab.sent Lab.replies Lab.shut]. rewrite hello_nonce.
  assert (Hd : drop 40 i = nonce p) by (rewrite <- F4; unfold slice; by rewrite take_ge by (rewrite length_drop; lia)).
  rewrite Hd, bool_decide_eq_true_2, F3 by done. done.
Qed.
Lemma request_exact sent rest shut : is_u8 org → is_u8 cap → is_u32 seed →
  Lab.request cap org seed (Lab.MkSession hello_datagram (Some sid) sent
    (Ok (datagram LAB_DECISION 1 LAB_DECISION_LEN (PDecision (Decision sid 1 LAB_PENDING LAB_OK))) :: rest) shut) =
  (Ok request_datagram, Lab.MkSession hello_datagram (Some sid) (sent ++ [request_datagram]) rest shut).
Proof.
  intros Ho Hc Hs. unfold Lab.request, mbind, st_bind, gets, lift. unfold Lab.request_payload. cbn [Lab.session Lab.hello].
  rewrite hello_nonce, !pack16_exact, !pack_exact by done. unfold mbind, result_bind.
  set (payload := sid ++ _). assert (Hl : len payload = 44) by (unfold payload; rewrite !len_app; unfold len; rewrite Hsid, Hnonce; done).
  assert (E : Lab.packet 64 payload 1 = Ok request_datagram) by (unfold Lab.packet; rewrite Hl; reflexivity).
  rewrite E. unfold Lab.exchange. cbn [Lab.replies].
  by rewrite decision_checked by (done || by vm_compute).
Qed.
Lemma submit_exact data sent rest shut :
  Lab.submit data (Lab.MkSession hello_datagram (Some sid) sent
    (Ok (datagram LAB_DECISION 2 LAB_DECISION_LEN (PDecision (Decision sid 1 LAB_ACCEPTED LAB_OK))) :: rest) shut) =
  (Ok tt, Lab.MkSession hello_datagram (Some sid) (sent ++ [data]) rest shut).
Proof.
  unfold Lab.submit, mbind, st_bind, Lab.exchange. cbn [Lab.replies]. by rewrite decision_checked by (done || by vm_compute).
Qed.
Lemma close_exact x sent rest shut : session x = sid → nrst x = 0 →
  Lab.close (Lab.MkSession hello_datagram (Some sid) sent (Ok (rst_datagram x LAB_OK (b "bye")) :: rest) shut) =
  (Ok tt, Lab.MkSession hello_datagram (Some sid) (sent ++ [bye_datagram]) rest true).
Proof.
  intros Hx Hn. set (q := Rst sid LAB_OK 3 (message (b "bye"))).
  destruct (payload_read LAB_RST 0 (PRst q)) as (Hr & _ & Hi & Hl); [by split_and!|done|by vm_compute|].
  destruct (rst_fields _ _ Hi) as (F1 & F2 & F3 & F4). cbn [r_session r_reason r_len r_msg q] in F1, F2, F3, F4.
  assert (Hwire : rst_datagram x LAB_OK (b "bye") = datagram LAB_RST 0 (lab_payload_len LAB_RST) (PRst q)) by (unfold rst_datagram; by rewrite Hx, Hn).
  rewrite Hwire. unfold Lab.close, try_finally, Lab.close_body, mbind, st_bind, gets, lift. cbn [Lab.session].
  destruct sid as [|x0 sid'] eqn:Es; [done|]. rewrite <- Es in *. rewrite pack16_exact by done.
  assert (Hl2 : len (sid ++ zeros 8) = 24) by (rewrite len_app; unfold len; rewrite Hsid; done).
  assert (E : Lab.packet 48 (sid ++ zeros 8) 3 = Ok bye_datagram) by (unfold Lab.packet; rewrite Hl2; reflexivity).
  rewrite E. unfold Lab.exchange. cbn [Lab.replies]. change (Lab.parse ?d 32 60) with (Lab.parse d LAB_RST (lab_payload_len LAB_RST)). rewrite Hr.
  set (i := lab_payload_pack _) in *. change (Z.to_nat (lab_payload_len LAB_RST)) with 60%nat in Hl. rewrite !get32_u32, F1, F2, F3 by lia.
  assert (F5 : slice i 24 27 = b "bye").
  { assert (E5 : slice i 24 27 = take 3 (slice i 24 60)) by (unfold slice; by rewrite take_take). rewrite E5, F4. by vm_compute. }
  rewrite F5, !bool_decide_eq_true_2 by done. done.
Qed.
End client.

(** The client's part of a job: [Session] of [lab.py], with the worker's answer to
    the request it hands out. *)
Definition client_run (org cap seed : Z) (worker : bytes → bytes) : st Lab.Session unit :=
  _ ← Lab.open; req ← Lab.request cap org seed; _ ← Lab.submit (worker req); Lab.close.

(** ** Among the other peers *)

Section job.
Context `{Host} (M : nat) (Hfull : full_draws).
Hypothesis Hdelivered : ∀ n, delivered n = true.
Notation good := (sound 0 M).

(** From the event [n0] to the event [n]: the clock does not go back, and advances
    by less than the request's time and at most the session's. *)
Record brisk (p : lab_policy_t) (timeout : Z) (n0 n : nat) : Prop := {
  br_order : ∀ j k, (n0 <= j <= k)%nat → (k <= n)%nat → 0 <= now_ms k - now_ms j <= timeout ∧ now_ms k - now_ms j < request_timeout_ms p;
  br_range : ∀ k, (n0 <= k <= n)%nat → now_ms k + request_timeout_ms p <= UINT64_MAX }.
(** The slot of the session, last heard of within these events. *)
Record attends (a : address) (sid nonce : bytes) (n0 n : nat) (x : client_t) : Prop := {
  at_used : used x = true;
  at_state : state x = ST_OPEN;
  at_addr : addr x = a;
  at_session : session x = sid;
  at_rst : nrst x = 0;
  at_evidence : open (evidence x) = true ∧ LabContract.session (evidence x) = sid ∧ instance (evidence x) = nonce;
  at_heard : ∃ k, last_rx x = now_ms k ∧ (n0 <= k <= n)%nat }.
Lemma attends_on_time a sid nonce p n0 n x s : attends a sid nonce n0 (events s) x → brisk p (timeout_ms s) n0 n → on_time x s n.
Proof.
  intros A B k Hk. destruct (at_heard _ _ _ _ _ _ A) as (j & -> & Hj). destruct (br_order _ _ _ _ B j k) as [Ht _]; [lia..|].
  unfold u64. etrans; [apply Z.mod_le; lia|lia].
Qed.

(** The slot after each of the two answers. *)
Definition asked (p : lab_policy_t) (a : address) (sid nonce : bytes) (n0 : nat) (r : lab_request_t) (n : nat) (x : client_t) : Prop :=
  attends a sid nonce n0 n x ∧ (∃ seen, sequence x = Sequence 2 seen ∧ lab_sequence_accept (Sequence 2 seen) 2 = (Sequence 3 (<[2%nat := 2]> seen), LAB_OK)) ∧
  pending (evidence x) = true ∧ request (evidence x) = r ∧ ∃ k, deadline (evidence x) = now_ms k + request_timeout_ms p ∧ (n0 <= k <= n)%nat.

Lemma attends_after a sid nonce n0 n n' x q e k : attends a sid nonce n0 n x → (n0 <= k <= n')%nat → open e = true →
  LabContract.session e = sid → instance e = nonce → attends a sid nonce n0 n' (set_evidence q e (now_ms k) x).
Proof. intros [A1 A2 A3 A4 A5 _ _] Hk He Hs Hi. split; try done. by exists k. Qed.

Lemma request_serves a p0 sid org cap seed p n0 n n1 x s : length sid = 16%nat → length (nonce p0) = 16%nat → is_u8 org → is_u8 cap → is_u32 seed →
  attends a sid (nonce p0) n0 n1 x → sequence x = fresh_sequence → pending (evidence x) = false → last_request (evidence x) = 0 →
  permits p org cap → policy s = p → (n0 <= events s)%nat → brisk p (timeout_ms s) n0 n →
  serves a x s n (request_datagram p0 sid org cap seed) (decision_datagram x 1 1 LAB_PENDING LAB_OK)
    (asked p a sid (nonce p0) n0 (honest_request p0 sid org cap seed)).
Proof.
  intros Hs Hc Ho Hcap Hseed A Hseq Hpe Hla Hp Hpol Hn0 B s1 S1 Hev Hn1. pose proof A as [A1 A2 A3 A4 A5 (A6 & A7 & A8) _].
  destruct (sd_config _ _ S1) as (_ & _ & Hpol1). set (r := honest_request p0 sid org cap seed).
  pose proof (request_admitted (evidence x) p r (now_ms (events s1)) Hp A6 (eq_sym A7) (eq_sym A8) eq_refl eq_refl) as Hr.
  cbn [q_id r honest_request] in Hr. rewrite Hla, A7, A8 in Hr.
  pose proof (serve_evidence Hdelivered a s1 x A1 A2 A3 LAB_REQUEST 1 (PRequest r) (Sequence 2 (<[1%nat := 1]> (replicate 16 0)))
    (Evidence true true sid (nonce p0) 1 (now_ms (events s1) + request_timeout_ms p) r) 1) as Hserve.
  eapply wp_mono; [apply Hserve|].
  - by split_and!.
  - done.
  - by left.
  - by vm_compute.
  - cbn [decide_evidence]. rewrite Hpol1, Hpol, Hr; [done|done|lia|done|]. apply (br_range _ _ _ _ B). lia.
  - by rewrite Hseq.
  - intros y s2 (Hc2 & Hs2 & -> & He). unfold asked. split_and!; [done|done|..].
    + eapply attends_after; [exact A| |done..]. rewrite He. lia.
    + eexists. split; [done|]. by vm_compute.
    + done.
    + done.
    + exists (events s1). split; [done|]. rewrite He. lia.
Qed.
Lemma observation_serves a p0 sid org cap seed p o n0 n n1 x s : length sid = 16%nat → length (nonce p0) = 16%nat → 
  asked p a sid (nonce p0) n0 (honest_request p0 sid org cap seed) n1 x → payload_wf (PObservation o) →
  permits p org cap → answers_request p (honest_request p0 sid org cap seed) o → policy s = p → (n1 <= events s)%nat → (n0 <= n1)%nat → brisk p (timeout_ms s) n0 n →
  serves a x s n (datagram LAB_OBSERVATION 2 LAB_OBSERVATION_LEN (PObservation o)) (decision_datagram x 2 1 LAB_ACCEPTED LAB_OK)
    (attends a sid (nonce p0) n0).
Proof.
  intros Hs Hc (A & (seen & Hq & Hacc) & Hpe & Hr & k & Hd & Hk) Hw Hp Hans Hpol Hn1 Hn0 B s1 S1 Hev Hn2.
  pose proof A as [A1 A2 A3 A4 A5 (A6 & A7 & A8) _]. destruct (sd_config _ _ S1) as (_ & _ & Hpol1).
  assert (Ho : o_origin o = org ∧ o_capability o = cap ∧ o_id o = 1) by (destruct Hans as (_ & ? & _ & ? & ? & _); done). destruct Ho as (Ho1 & Ho2 & Ho3).
  pose proof (observation_admitted (evidence x) p o (now_ms (events s1))) as Hob. rewrite Ho1, Ho2, Hr, A6, A7, A8, Hd in Hob.
  pose proof (serve_evidence Hdelivered a s1 x A1 A2 A3 LAB_OBSERVATION 2 (PObservation o)) as Hserve.
  eapply wp_mono; [apply Hserve|].
  - done.
  - done.
  - by right.
  - by vm_compute.
  - cbn [decide_evidence]. rewrite Hpol1, Hpol, Hob; [by rewrite Ho3|done..|].
    destruct (br_order _ _ _ _ B k (events s1)) as [_ Ht]; [lia..|]. lia.
  - by rewrite Hq.
  - intros y s2 (Hc2 & Hs2 & -> & He). split_and!; [done|done|]. eapply attends_after; [exact A| |done..]. rewrite He. lia.
Qed.

Lemma brisk_sub p timeout n0 n n' : (n' <= n)%nat → brisk p timeout n0 n → brisk p timeout n0 n'.
Proof. intros Hn [B1 B2]. split; intros; [apply B1|apply B2]; lia. Qed.

(** From the acknowledgement on: what the server sends to the three datagrams. *)
Section script.
Context (a : address) (h : lab_hello_t) (sid : bytes) (org cap seed : Z) (o : lab_observation_t) (w1 w2 w3 : list wake).
Hypothesis Hlo : is_loopback a = true.
Hypothesis Hsid : length sid = 16%nat.
Hypothesis Hnonce : length (nonce h) = 16%nat.
Hypothesis Hseed : is_u32 seed.
Hypothesis Hw1 : Forall (others a) w1.
Hypothesis Hw2 : Forall (others a) w2.
Hypothesis Hw3 : Forall (others a) w3.
Hypothesis Ho : payload_wf (PObservation o).
Let request := request_datagram h sid org cap seed.
Let observation := datagram LAB_OBSERVATION 2 LAB_OBSERVATION_LEN (PObservation o).
Let bye := bye_datagram sid.

Lemma script_served n0 s i y : good s → running s = true → c s !! i = Some y → (n0 <= events s)%nat →
  attends a sid (nonce h) n0 (events s) y → sequence y = fresh_sequence → pending (evidence y) = false → last_request (evidence y) = 0 →
  permits (policy s) org cap → answers_request (policy s) (honest_request h sid org cap seed) o →
  let s' := (loop (w1 ++ Incoming [(a, request)] :: w2 ++ Incoming [(a, observation)] :: w3 ++ [Incoming [(a, bye)]]) s).2 in
  brisk (policy s) (timeout_ms s) n0 (events s') →
  stranger a s' ∧ ∃ z, session z = sid ∧ nrst z = 0 ∧ to_peer a (sent s') = to_peer a (sent s) ++
    [datagram LAB_DECISION 1 LAB_DECISION_LEN (PDecision (Decision sid 1 LAB_PENDING LAB_OK));
     datagram LAB_DECISION 2 LAB_DECISION_LEN (PDecision (Decision sid 1 LAB_ACCEPTED LAB_OK)); rst_datagram z LAB_OK (b "bye")].
Proof.
  intros G Hr Hy Hn A Hseq Hpe Hla Hp Hans s' B. assert (Hfresh : fresh_draws 0) by (intros j k x z Hj; lia).
  assert (Hu8 : is_u8 org ∧ is_u8 cap) by (destruct Hp as (Hor & _ & ? & _); unfold is_u8, LAB_ORIGIN_LINUX, LAB_ORIGIN_WINDOWS in *; lia).
  set (s1 := (loop (w1 ++ [Incoming [(a, request)]]) s).2). set (s2 := (loop (w2 ++ [Incoming [(a, observation)]]) s1).2).
  assert (G1 : good s1 ∧ (events s <= events s1)%nat) by apply (keeps_loop 0 M Hfull Hfresh _ s G). destruct G1 as [G1 E1].
  assert (G2 : good s2 ∧ (events s1 <= events s2)%nat) by apply (keeps_loop 0 M Hfull Hfresh _ s1 G1). destruct G2 as [G2 E2].
  assert (Hs' : s' = (loop (w2 ++ Incoming [(a, observation)] :: w3 ++ [Incoming [(a, bye)]]) s1).2) by (unfold s'; by rewrite (loop_stage Hdelivered)).
  assert (E1' : (events s1 <= events s')%nat) by (rewrite Hs'; apply (keeps_loop 0 M Hfull Hfresh _ s1 G1)).
  destruct (stage Hdelivered M Hfull a i y (at_used _ _ _ _ _ _ A) (at_addr _ _ _ _ _ _ A) w1 s (events s') request (decision_datagram y 1 1 LAB_PENDING LAB_OK)
    (asked (policy s) a sid (nonce h) n0 (honest_request h sid org cap seed))) as [(y1 & Hy1 & Q1) _ Sent1 S1 _]; try done.
  { by eapply attends_on_time. }
  { intros s0 S0 H0. destruct (sd_config _ _ S0) as (T0 & _ & P0). destruct Hu8. eapply request_serves; try done; [lia|by rewrite T0]. }
  fold s1 in Hy1, Q1, Sent1, S1. destruct (sd_config _ _ S1) as (T1 & _ & P1). pose proof (sd_running _ _ S1 Hr) as Hr1.
  assert (Hs'' : s' = (loop (w3 ++ [Incoming [(a, bye)]]) s2).2) by (rewrite Hs'; by rewrite (loop_stage Hdelivered)).
  assert (E2' : (events s2 <= events s')%nat) by (rewrite Hs''; apply (keeps_loop 0 M Hfull Hfresh _ s2 G2)).
  pose proof (proj1 Q1) as A1.
  destruct (stage Hdelivered M Hfull a i y1 (at_used _ _ _ _ _ _ A1) (at_addr _ _ _ _ _ _ A1) w2 s1 (events s') observation (decision_datagram y1 2 1 LAB_ACCEPTED LAB_OK)
    (attends a sid (nonce h) n0)) as [(y2 & Hy2 & A2) _ Sent2 S2 _]; try done.
  { eapply attends_on_time; [done|]. by rewrite T1. }
  { intros s0 S0 H0. destruct (sd_config _ _ S0) as (T0 & _ & P0).
    eapply (observation_serves a h sid org cap seed (policy s)); try done; [congruence|lia|]. by rewrite T0, T1. }
  fold s2 in Hy2, A2, Sent2, S2. destruct (sd_config _ _ S2) as (T2 & _ & P2). pose proof (sd_running _ _ S2 Hr1) as Hr2.
  destruct (stage Hdelivered M Hfull a i y2 (at_used _ _ _ _ _ _ A2) (at_addr _ _ _ _ _ _ A2) w3 s2 (events s') bye (rst_datagram y2 LAB_OK (b "bye"))
    (λ _ z, z = zero_client)) as [(y3 & Hy3 & ->) Hrest Sent3 _ _]; try done.
  { by rewrite Hs''. }
  { eapply attends_on_time; [done|]. by rewrite T2, T1. }
  { intros s0 S0 H0 s3 S3 H3 Hn3. pose proof A2 as [X1 X2 X3 X4 X5 _ _]. unfold bye, bye_datagram. rewrite <- X4.
    apply serve_bye; [done..|]. by rewrite X4. }
  rewrite <- Hs'' in Hy3, Hrest, Sent3. split.
  - intros z Hz Huz. apply list_elem_of_lookup in Hz as [j Hj]. destruct (decide (j = i)) as [->|Hji]; [assert (z = zero_client) as -> by congruence; done|by eapply Hrest].
  - exists y2. pose proof A2 as [X1 X2 X3 X4 X5 _ _]. split_and!; [done|done|]. rewrite Sent3, Sent2, Sent1, <- !app_assoc.
    unfold decision_datagram. by rewrite (at_session _ _ _ _ _ _ A), (at_session _ _ _ _ _ _ A1).
Qed.
End script.

(** The HELLO of a client of the laboratory. *)
Definition honest_hello (h : lab_hello_t) : Prop :=
  payload_wf (PHello h) ∧ length (nonce h) = 16%nat ∧ app_id h = LAB_APP_ID ∧ strnlen (app h) = 9%nat ∧ take 9 (app h) = LAB_APP_NAME ∧
  forallb printable (take (strnlen (name h)) (name h)) = true ∧ valid_nonce (nonce h) = true.
(** What a session opened by it is like. *)
Lemma admitted_attends a s h i y s' : admitted M a s h i y s' → ∃ sid snonce, length sid = 16%nat ∧ length snonce = 16%nat ∧
  attends a sid (nonce h) (events s) (events s') y ∧ sequence y = fresh_sequence ∧ pending (evidence y) = false ∧ last_request (evidence y) = 0 ∧
  ack_datagram y = datagram LAB_HELLO_ACK 0 LAB_HELLO_ACK_LEN (PHelloAck (HelloAck 1 LAB_OK sid snonce (nonce h))).
Proof.
  intros A. destruct (ad_client _ _ _ _ _ _ _ A) as (rnd & Hl & Ey), (ad_time _ _ _ _ _ _ _ A) as (k & Ek & Hk).
  exists (take 16 rnd), (drop 16 rnd). rewrite length_take, length_drop, Hl. split_and!; [done|done| |by rewrite Ey..].
  split; try by rewrite Ey. exists k. split; [done|lia].
Qed.
End job.

(** C8.  A job of an honest client succeeds, whatever the other peers do: while
    datagrams are delivered and the clock advances by less than the timeouts, a
    client that finds room, with a fresh nonce and an operation that the policy
    permits, receives exactly the four answers with which [open], [request],
    [submit] and [close] of its [Session] succeed, however many datagrams of other
    peers the server handles in between; and its session leaves the table. *)
Theorem honest_job_succeeds `{Host} timeout maximum p before a h org cap seed w1 w2 w3 :
  (∀ n, delivered n = true) → full_draws → (∀ n, is_Some (random_bytes n)) →
  let s := (loop before (boot timeout maximum p)).2 in
  running s = true → is_loopback a = true → stranger a s → (in_use (c s) < maximum `min` 32)%nat →
  honest_hello h → (∀ z, z ∈ c s → used z = true → cnonce z ≠ nonce h) → permits (policy s) org cap → is_u32 seed →
  Forall (others a) w1 → Forall (others a) w2 → Forall (others a) w3 →
  ∃ sid, length sid = 16%nat ∧
    ∀ o, payload_wf (PObservation o) → answers_request (policy s) (honest_request h sid org cap seed) o →
    let request := request_datagram h sid org cap seed in
    let observation := datagram LAB_OBSERVATION 2 LAB_OBSERVATION_LEN (PObservation o) in
    let s' := (loop (Incoming [(a, hello_datagram h)] :: w1 ++ Incoming [(a, request)] :: w2 ++
      Incoming [(a, observation)] :: w3 ++ [Incoming [(a, bye_datagram sid)]]) s).2 in
    brisk (policy s) (timeout_ms s) (events s) (events s') →
    ∃ replies, to_peer a (sent s') = to_peer a (sent s) ++ replies ∧
      client_run org cap seed (λ _, observation) (Lab.new_session (hello_datagram h) (Ok <$> replies)) =
        (Ok tt, Lab.MkSession (hello_datagram h) (Some sid) [hello_datagram h; request; observation; bye_datagram sid] [] true) ∧
      stranger a s'.
Proof.
  intros Hdel Hfull Hrnd s Hr Hlo Hstr Hroom (Hw & Hn & Hid & Happ & Hname & Hprint & Hnonce) Hfree Hp Hseed Hw1 Hw2 Hw3.
  set (M := (maximum `min` MAX_CLIENTS)%nat). assert (Hfresh : fresh_draws 0) by (intros i j x y Hi; lia).
  assert (G : sound 0 M s) by apply (keeps_loop 0 M Hfull Hfresh before _ (sound_boot 0 M timeout maximum p eq_refl)).
  destruct (round_hello Hdel M Hfull a s h) as (i & y & A); try done; [unfold M; lia|].
  set (s1 := (round _ s).2) in *. destruct (admitted_attends M a s h i y s1 A) as (sid & snonce & Hs & Hsn & At & Hseq & Hpe & Hla & Hack).
  exists sid. split; [done|]. intros o Ho Hans request observation. rewrite (ad_loop _ _ _ _ _ _ _ A). intros s' B.
  pose proof (ad_steady _ _ _ _ _ _ _ A) as S1. destruct (sd_config _ _ S1) as (T1 & _ & P1). destruct (ad_grows _ _ _ _ _ _ _ A) as [G1 E1].
  destruct (script_served M Hfull Hdel a h sid org cap seed o w1 w2 w3 Hlo Hs Hn Hseed Hw1 Hw2 Hw3 Ho (events s) s1 i y) as [Hgone (z & Hz & Hrst & Hsent)]; try done.
  - by apply (sd_running _ _ S1).
  - apply (ad_slot _ _ _ _ _ _ _ A).
  - by rewrite P1.
  - by rewrite P1.
  - by rewrite P1, T1.
  - rewrite (ad_sent _ _ _ _ _ _ _ A), Hack, <- app_assoc in Hsent. eexists. split; [exact Hsent|]. split; [|exact Hgone].
    assert (Hu8 : is_u8 org ∧ is_u8 cap) by (destruct Hp as (Hor & _ & ? & _); unfold is_u8, LAB_ORIGIN_LINUX, LAB_ORIGIN_WINDOWS in *; lia).
    destruct Hu8. unfold client_run, Lab.new_session, mbind, st_bind. cbn [fmap list_fmap Datatypes.app].
    rewrite (open_exact h sid Hw Hn Hs), (request_exact h sid org cap seed Hw Hn Hs) by done. rewrite (submit_exact h sid Hs).
    by apply (close_exact h sid Hn Hs).
Qed.
(** A machine whose clock stands still, and two peers that send noise. *)
Definition still : Host := LabSuite.machine 0 0 0.
Definition test_hello : lab_hello_t :=
  Hello LAB_APP_ID (LabSuite.fixed 16 (b "LabClient")) (LabSuite.fixed 24 (b "worker")) (replicate 16 x07).
Definition noise : list wake :=
  [Idle; Incoming [(LabSuite.sockets 1, b "noise"); (LabSuite.sockets 2, LabSuite.hello (LabSuite.range 1 17))]].
Definition client : address := LabSuite.sockets 0.
Definition test_observation (sid : bytes) : lab_observation_t :=
  Observation sid 1 (replicate 16 x07) (replicate 16 x73) 1 3 LAB_SELF_REPORTED 1 37 10 0 (zeros 36).
Lemma test_observation_wf sid : length sid = 16%nat → payload_wf (PObservation (test_observation sid)).
Proof. intros Hs. by split_and!. Qed.
Lemma test_observation_answers sid : answers_request default_policy (honest_request test_hello sid 1 3 37) (test_observation sid).
Proof. by split_and!. Qed.
Lemma test_hello_honest : honest_hello test_hello.
Proof. unfold honest_hello. split_and!; by vm_compute. Qed.
Lemma test_time : 0 < request_timeout_ms default_policy <= UINT64_MAX.
Proof. by vm_compute. Qed.
Lemma test_permits : permits default_policy 1 3.
Proof. unfold permits. split_and!; try done; by left. Qed.
Lemma still_brisk p timeout n0 n : 0 < request_timeout_ms p <= UINT64_MAX → 0 <= timeout → brisk (H := still) p timeout n0 n.
Proof. intros Hr Ht. split; cbn; intros; repeat case_match; lia. Qed.
Lemma honest_job_succeeds_witness :
  let s := (loop (H := still) noise (boot 5000 32 default_policy)).2 in
  ∃ sid replies request observation s', length sid = 16%nat ∧ to_peer client (sent s') = to_peer client (sent s) ++ replies ∧
    client_run 1 3 37 (λ _, observation) (Lab.new_session (hello_datagram test_hello) (Ok <$> replies)) =
      (Ok tt, Lab.MkSession (hello_datagram test_hello) (Some sid) [hello_datagram test_hello; request; observation; bye_datagram sid] [] true).
Proof.
  intros s.
  assert (Hslots : forallb (λ z, negb (used z) || (negb (bool_decide (addr z = client)) && negb (bool_decide (cnonce z = nonce test_hello)))) (c s) = true)
    by (vm_compute; reflexivity).
  assert (Hfree : ∀ z, z ∈ c s → used z = true → addr z ≠ client ∧ cnonce z ≠ nonce test_hello).
  { intros z Hz Hu. rewrite forallb_forall in Hslots. apply list_elem_of_In, Hslots in Hz. rewrite Hu in Hz. cbn in Hz.
    apply andb_true_iff in Hz as [Ha%negb_true_iff Hc%negb_true_iff]. split; by eapply bool_decide_eq_false. }
  assert (Hp : policy s = default_policy ∧ timeout_ms s = 5000) by (split; vm_compute; reflexivity). destruct Hp as [Hp Ht].
  assert (Hothers : Forall (others client) noise) by (repeat constructor; cbn; intros E; by vm_compute in E).
  destruct (honest_job_succeeds (H := still) 5000 32 default_policy noise client test_hello 1 3 37 noise noise noise) as (sid & Hs & Hjob).
  - intros n. reflexivity.
  - by intros k rnd [= <-].
  - intros n. by eexists.
  - vm_compute. reflexivity.
  - reflexivity.
  - intros z Hz Hu. by apply Hfree.
  - apply Nat.ltb_lt. vm_compute. reflexivity.
  - apply test_hello_honest.
  - intros z Hz Hu. by apply Hfree.
  - change (permits (policy s) 1 3). rewrite Hp. apply test_permits.
  - split; [discriminate|reflexivity].
  - exact Hothers.
  - exact Hothers.
  - exact Hothers.
  - destruct (Hjob (test_observation sid) (test_observation_wf sid Hs)) as (replies & Hsent & Hrun & _).
    + change (answers_request (policy s) (honest_request test_hello sid 1 3 37) (test_observation sid)). rewrite Hp. apply test_observation_answers.
    + apply still_brisk; [change (0 < request_timeout_ms (policy s) <= UINT64_MAX); rewrite Hp; apply test_time|].
      change (0 <= timeout_ms s). rewrite Ht. discriminate.
    + do 5 eexists. split; [exact Hs|]. split; [exact Hsent|exact Hrun].
Defined.

