(* ===== verification/Text.v ===== *)
(** * Text, as the string methods of Python read it

    [str.split], [str.splitlines], [str.strip], [str.rsplit] and [int]: what the
    scripts use to read the output of other programs. *)

From S2P Require Import Prelude Bytes Json.

Import Json.

Module Text.

Definition is_space (c : Z) : bool :=
  ((9 <=? c) && (c <=? 13)) || ((28 <=? c) && (c <=? 32)) || (c =? 133) || (c =? 160) || (c =? 5760) ||
  ((8192 <=? c) && (c <=? 8202)) || (c =? 8232) || (c =? 8233) || (c =? 8239) || (c =? 8287) || (c =? 12288).
Definition is_break (c : Z) : bool :=
  ((10 <=? c) && (c <=? 13)) || ((28 <=? c) && (c <=? 30)) || (c =? 133) || (c =? 8232) || (c =? 8233).

(** [s.split()]; [cur] is the word being read, reversed. *)
Definition close_word (cur : pystr) (l : list pystr) : list pystr :=
  match cur with [] => l | _ => rev cur :: l end.
Fixpoint words (cur s : pystr) : list pystr :=
  match s with
  | [] => close_word cur []
  | c :: s => if is_space c then close_word cur (words [] s) else words (c :: cur) s
  end.
(** [s.splitlines()] *)
Fixpoint lines (cur s : pystr) : list pystr :=
  match s with
  | [] => close_word cur []
  | 13 :: 10 :: s => rev cur :: lines [] s
  | c :: s => if is_break c then rev cur :: lines [] s else lines (c :: cur) s
  end.
(** [s.rsplit(')', 1)[1]]: what follows the last parenthesis. *)
Fixpoint after_paren (s : pystr) : option pystr :=
  match s with
  | [] => None
  | c :: s => match after_paren s with Some x => Some x | None => if c =? 41 then Some s else None end
  end.
(** [int(w)] of a word: a sign and decimal digits, single underscores between
    them.  (Python also takes the digits of other scripts, which are
    not modelled.) *)
Fixpoint digit_groups (acc : Z) (before : bool) (w : pystr) : option Z :=
  match w with
  | [] => if before then Some acc else None
  | c :: w => if is_digit c then digit_groups (10 * acc + (c - 48)) true w
              else if (c =? 95) && before then digit_groups acc false w else None
  end.
Definition int_of (w : pystr) : result Z :=
  match (match w with
         | 45 :: w => Z.opp <$> digit_groups 0 false w
         | 43 :: w => digit_groups 0 false w
         | _ => digit_groups 0 false w
         end) with
  | Some z => Ok z
  | None => Raise (ValueError "invalid literal for int()")
  end.

(** [s.strip()] *)
Fixpoint lstrip (s : pystr) : pystr :=
  match s with c :: s' => if is_space c then lstrip s' else s | [] => [] end.
Definition strip (s : pystr) : pystr := rev (lstrip (rev (lstrip s))).
Definition starts_with (p s : pystr) : bool := bool_decide (take (length p) s = p).

Lemma starts_with_spec p s : starts_with p s = true ↔ ∃ rest, s = p ++ rest.
Proof.
  unfold starts_with. rewrite bool_decide_eq_true. split.
  - intros Hp. exists (drop (length p) s). rewrite <-(take_drop (length p) s) at 1. by rewrite Hp.
  - intros (rest & ->). by rewrite take_app_length.
Qed.

Example words_of : words [] (u "  VmRSS:   812 kB ") = [u "VmRSS:"; u "812"; u "kB"].
Proof. reflexivity. Qed.
Example int_of_words : int_of <$> [u "-1_000"; u "+7"; u "1__0"; u "x"; u "-"] =
  [Ok (-1000); Ok 7; Raise (ValueError "invalid literal for int()"); Raise (ValueError "invalid literal for int()");
   Raise (ValueError "invalid literal for int()")].
Proof. reflexivity. Qed.
Example strip_ends : strip (u "  4.7.2  stable " ++ [10]) = u "4.7.2  stable".
Proof. reflexivity. Qed.

End Text.
