(* ===== verification/LabDemo.v ===== *)
(** * The demonstration of the laboratory

    [src/scripts/lab.py], the rest of it: the supervision of the two daemons
    ([daemon]), their resource snapshots ([resources]) and the measured run of
    every capability over both routes ([demo]).  The jobs are those of [Lab.v]. *)

From S2P Require Import Prelude Bytes Stream Json Dict Attestation Bridge Lab Text.
From Stdlib Require Import QArith.
Import Json Text.
#[local] Open Scope Z_scope.

Module LabDemo.

Definition nth_word (l : list pystr) (i : nat) : result pystr :=
  match l !! i with Some w => Ok w | None => Raise IndexError end.
(** ** [resources(pid)] *)

(** What [/proc/<pid>] holds: [status], [stat] and the number of open files. *)
Record proc := Proc { p_status : result pystr; p_stat : result pystr; p_fds : result Z }.
Record usage := Usage { rss_kib : option Z; open_fds : Z; cpu_seconds : Q }.

Fixpoint find_rss (l : list pystr) : result (option pystr) :=
  match l with
  | [] => Ok None
  | line :: l => if starts_with (u "VmRSS:") line then w ← nth_word (words [] line) 1; Ok (Some w) else find_rss l
  end.
(** [None]: there is no such process any more. *)
Definition resources (ticks_per_second : positive) (p : option proc) : result (option usage) :=
  match p with
  | None => Ok None
  | Some p =>
      status ← p_status p;
      rss ← find_rss (lines [] status);
      stat ← p_stat p;
      rest ← match after_paren stat with Some x => Ok x | None => Raise IndexError end;
      let fields := words [] rest in
      user ← (w ← nth_word fields 11; int_of w);
      system ← (w ← nth_word fields 12; int_of w);
      rss ← match rss with Some w => z ← int_of w; Ok (Some z) | None => Ok None end;
      fds ← p_fds p;
      Ok (Some (Usage rss fds ((user + system) # ticks_per_second)))
  end.

(** ** The two daemons *)

Inductive daemon := LabServer | LabAdapter.
#[export] Instance daemon_eq_dec : EqDecision daemon.
Proof. solve_decision. Defined.
Inductive route := Direct | ViaAdapter.
Definition routes : list route := [Direct; ViaAdapter].
Definition CAPS : list Z := [1; 2; 3].   (* file, proc, sync *)

(** What the run meets outside. *)
Class Host := {
  free_port : nat → result Z;
  spawned : daemon → result unit;
  boot_line : daemon → result pystr;            (* the first line, within three seconds *)
  ended_early : daemon → option Z;              (* its exit code when the block is left *)
  terminated : daemon → result unit;
  waited : daemon → result Z;                   (* for two seconds after [terminate] *)
  kill : daemon → result unit;
  waited_killed : daemon → result Z;            (* for two more after [kill] *)
  drained : daemon → result unit;               (* the task that reads its output, two seconds *)
  clock_ticks : positive;
  proc_of : nat → daemon → option proc;         (* after each job *)
  world : nat → Lab.World;                      (* what each job meets *)
  job_of : nat → Lab.job }.

Inductive event :=
| Started (d : daemon)
| Job (i : nat) (port capability : Z)
| Terminated (d : daemon)
| Killed (d : daemon)
| Reaped (d : daemon) (code : Z).

Record run := Run {
  run_route : route; run_cap : Z; run_observations : list Lab.observation;
  run_server : option usage; run_adapter : option usage }.
Record state := State { log : list event; jobs : nat; runs : list run }.

Definition emit (e : event) : st state unit :=
  modify (λ s, State (log s ++ [e]) (jobs s) (runs s)).

Section demo.
Context `{Host}.

(** [json.loads(line).get('ev') != 'boot'] *)
Definition check_boot (d : daemon) : result unit :=
  line ← boot_line d;
  v ← loads Attestation.plain_hooks line;
  e ← v_get v (u "ev");
  raise_if (negb (match e with Some x => py_eq x (VStr (u "boot")) | None => false end)) (ValueError "readiness").

Definition lookup_error : exn := OSError "ProcessLookupError".
(** The [finally] of [daemon]; [draining]: the task that reads the output was
    created. *)
Definition ask_to_end (d : daemon) : st state unit :=
  match ended_early d with
  | Some _ => mret tt
  | None => try_except (_ ← lift (terminated d); emit (Terminated d))
              (λ e, if decide (e = lookup_error) then Some (mret tt) else None)
  end.
Definition first_wait (d : daemon) : result Z :=
  match ended_early d with Some code => Ok code | None => waited d end.
Definition reap (d : daemon) : st state Z :=
  code ← try_except (lift (first_wait d))
           (λ e, if decide (e = TimeoutError) then
                   Some (_ ← lift (kill d); _ ← emit (Killed d); lift (waited_killed d))
                 else None);
  _ ← emit (Reaped d code); mret code.
Definition stop_daemon (draining : bool) (d : daemon) : st state unit :=
  _ ← ask_to_end d;
  code ← reap d;
  _ ← (if draining then lift (drained d) else mret tt);
  raise_when (negb (code =? 0)) (ValueError "daemon_failed").

(** [async with daemon(command): m] *)
Definition with_daemon {A} (d : daemon) (m : st state A) : st state A :=
  _ ← lift (spawned d);
  _ ← emit (Started d);
  match check_boot d with
  | Raise e => try_finally (raise e) (stop_daemon false d)
  | Ok _ => try_finally m (stop_daemon true d)
  end.

(** ** The measured run *)

(** [await run_job(...)], the next job of the host. *)
Definition next_job (port cap : Z) (remote_origin : option Z) : st state (nat * list Lab.observation) := λ s,
  let i := jobs s in
  (match (@Lab.run_job (world i) cap 37 remote_origin (job_of i)).1 with
   | Ok observations => Ok (i, observations)
   | Raise e => Raise e
   end, State (log s ++ [Job i port cap]) (S i) (runs s)).
Definition one_run (remote_origin : option Z) (r : route) (port cap : Z) : st state unit :=
  '(i, observations) ← next_job port cap remote_origin;
  server ← lift (resources clock_ticks (proc_of i LabServer));
  adapter ← lift (resources clock_ticks (proc_of i LabAdapter));
  modify (λ s, State (log s) (jobs s) (runs s ++ [Run r cap observations server adapter])).

(** The three nested loops, in the order of the code. *)
Definition plan (server_port adapter_port : Z) (iterations : nat) : list (route * Z * Z) :=
  r ← routes; cap ← CAPS;
  replicate iterations (r, match r with Direct => server_port | ViaAdapter => adapter_port end, cap).
Fixpoint all_runs (remote_origin : option Z) (l : list (route * Z * Z)) : st state unit :=
  match l with
  | [] => mret tt
  | (r, port, cap) :: l => _ ← one_run remote_origin r port cap; all_runs remote_origin l
  end.
(** [demo(args)] up to the printing of [runs]. *)
Definition demo (remote_origin : option Z) (iterations : nat) : st state (list run) :=
  server_port ← lift (free_port 0);
  adapter_port ← lift (free_port 1);
  _ ← with_daemon LabServer (with_daemon LabAdapter
        (all_runs remote_origin (plan server_port adapter_port iterations)));
  gets runs.
End demo.

End LabDemo.

(** * Properties of the demonstration: its daemons are always ended, and what it
    reports is what every job of the plan gave. *)

Import Json Stream Text LabDemo.

Section host.
Context `{Host}.

(** ** Ending a daemon *)

(** A daemon can be ended: [terminate] at most finds it gone, and if it is not
    over two seconds later it is killed, which ends it. *)
Definition stoppable (d : daemon) : Prop :=
  (terminated d = Ok tt ∨ terminated d = Raise lookup_error) ∧
  (∀ e, first_wait d = Raise e → e = TimeoutError ∧ kill d = Ok tt ∧ is_Ok (waited_killed d) = true).

Definition exit_code (d : daemon) : Z :=
  match first_wait d with
  | Ok code => code
  | Raise _ => match waited_killed d with Ok code => code | Raise _ => 0 end
  end.
Definition asked (d : daemon) : list event :=
  match ended_early d with
  | Some _ => []
  | None => match terminated d with Ok _ => [Terminated d] | Raise _ => [] end
  end.
Definition ending (d : daemon) : list event :=
  asked d ++ (if is_Ok (first_wait d) then [] else [Killed d]) ++ [Reaped d (exit_code d)].

Definition logged (l : list event) (s : state) : state := State (log s ++ l) (jobs s) (runs s).
Lemma logged_app l k s : logged k (logged l s) = logged (l ++ k) s.
Proof. unfold logged. cbn. by rewrite app_assoc. Qed.
Lemma emit_eq e s : emit e s = (Ok tt, logged [e] s).
Proof. done. Qed.
Lemma logged_nil s : logged [] s = s.
Proof. unfold logged. rewrite app_nil_r. by destruct s. Qed.

Lemma ask_to_end_eq d s : stoppable d → ask_to_end d s = (Ok tt, logged (asked d) s).
Proof.
  intros [Ht _]. unfold ask_to_end, asked. destruct (ended_early d); [by rewrite logged_nil|].
  unfold try_except, mbind, st_bind, lift. destruct Ht as [Ht|Ht]; rewrite Ht; [done|].
  rewrite decide_True by done. by rewrite logged_nil.
Qed.

Lemma reap_eq d s : stoppable d →
  reap d s = (Ok (exit_code d), logged ((if is_Ok (first_wait d) then [] else [Killed d]) ++ [Reaped d (exit_code d)]) s).
Proof.
  intros [_ Hw]. unfold reap, exit_code, try_except, mbind, st_bind, lift.
  destruct (first_wait d) as [c|e] eqn:E; [done|]. destruct (Hw e eq_refl) as (-> & Hk & Hc).
  rewrite decide_True by done. rewrite Hk. destruct (waited_killed d) as [c|e2]; [|done].
  rewrite emit_eq. cbn [is_Ok]. rewrite emit_eq, logged_app. done.
Qed.

Lemma stop_daemon_spec b d s r s' : stoppable d → stop_daemon b d s = (r, s') →
  s' = logged (ending d) s ∧ (r = Ok tt → exit_code d = 0).
Proof.
  intros Hd E. unfold stop_daemon in E. apply st_bind_inv in E as (r1 & s1 & E1 & E).
  rewrite ask_to_end_eq in E1 by done. injection E1 as <- <-.
  apply st_bind_inv in E as (r2 & s2 & E2 & E). rewrite reap_eq in E2 by done. injection E2 as <- <-.
  rewrite logged_app in E. apply st_bind_inv in E as (r3 & s3 & E3 & E).
  assert (s3 = logged (ending d) s) as -> by (destruct b; [apply lift_inv in E3 as [_ ->]|injection E3 as _ <-]; done).
  destruct r3; [|destruct E as [-> ->]; done].
  apply raise_when_spec in E as [-> [[Hc ->]|[_ ->]]]; [|done]. bools. done.
Qed.

(** What a block with a daemon leaves: nothing if it does not start, and else
    the daemon ended, after the block if it said it had booted. *)
Definition block {A} (d : daemon) (m : st state A) (s : state) (r : result A) (s' : state) : Prop :=
  (s' = s ∧ ∃ e, r = Raise e) ∨
  (s' = logged (Started d :: ending d) s ∧ ∃ e, r = Raise e) ∨
  (∃ r1 s1, check_boot d = Ok tt ∧ m (logged [Started d] s) = (r1, s1) ∧ s' = logged (ending d) s1 ∧
     ∀ x, r = Ok x → r1 = Ok x ∧ exit_code d = 0).

Lemma with_daemon_spec {A} d (m : st state A) s r s' :
  stoppable d → with_daemon d m s = (r, s') → block d m s r s'.
Proof.
  intros Hd E. unfold with_daemon in E. apply st_bind_inv in E as (r1 & s1 & E1 & E).
  apply lift_inv in E1 as [_ ->]. destruct r1 as [x1|e]; [|destruct E as [-> ->]; left; eauto].
  apply st_bind_inv in E as (r2 & s2 & E2 & E). rewrite emit_eq in E2. injection E2 as <- <-.
  right. destruct (check_boot d) as [x2|e] eqn:Eb; unfold try_finally in E.
  - right. destruct x2. destruct (m (logged [Started d] s)) as [r3 s3] eqn:Em.
    destruct (stop_daemon true d s3) as [r4 s4] eqn:Es. apply stop_daemon_spec in Es as [-> Hc]; [|done].
    exists r3, s3. destruct r4 as [x4|e4]; injection E as <- <-; split_and!; try done.
    intros x ->. split; [done|]. apply Hc. by destruct x4.
  - left. destruct (stop_daemon false d (logged [Started d] s)) as [r4 s4] eqn:Es.
    cbn [raise] in E. unfold raise in E. rewrite Es in E. apply stop_daemon_spec in Es as [-> _]; [|done].
    rewrite logged_app in E. destruct r4; injection E as <- <-; eauto.
Qed.

(** ** The jobs *)

(** The events of the jobs of a plan, numbered from [i]. *)
Definition job_events (i : nat) (l : list (route * Z * Z)) : list event :=
  imap (λ k x, Job (i + k) x.1.2 x.2) l.
Lemma job_events_cons i x l : job_events i (x :: l) = Job i x.1.2 x.2 :: job_events (S i) l.
Proof.
  unfold job_events. cbn. rewrite Nat.add_0_r. f_equal. apply imap_ext. intros k y _. cbn. f_equal. lia.
Qed.

(** What is reported of the [i]th job. *)
Definition measured (origin : option Z) (i : nat) (x : route * Z * Z) (o : run) : Prop :=
  run_route o = x.1.1 ∧ run_cap o = x.2 ∧
  (@Lab.run_job (world i) x.2 37 origin (job_of i)).1 = Ok (run_observations o).

Lemma all_runs_spec origin l s r s' : all_runs origin l s = (r, s') →
  ∃ n new, log s' = log s ++ job_events (jobs s) (take n l) ∧ runs s' = runs s ++ new ∧
    (r = Ok tt → (length l ≤ n)%nat ∧ length new = length l ∧
       ∀ k x, l !! k = Some x → ∃ o, new !! k = Some o ∧ measured origin (jobs s + k) x o).
Proof.
  revert s. induction l as [|[[ro port] cap] l IH]; intros s E; cbn [all_runs] in E.
  { injection E as <- <-. exists 0%nat, []. by rewrite !app_nil_r. }
  apply st_bind_inv in E as (r1 & s1 & E1 & E). unfold one_run in E1.
  apply st_bind_inv in E1 as (r2 & s2 & E2 & E1). unfold next_job in E2. injection E2 as Er <-.
  assert (Hstop : ∀ sx, s' = State (log s ++ [Job (jobs s) port cap]) (S (jobs s)) (runs s) → (∃ e, r = Raise e) → sx = s' →
    ∃ n new, log sx = log s ++ job_events (jobs s) (take n ((ro, port, cap) :: l)) ∧ runs sx = runs s ++ new ∧
      (r = Ok tt → (length ((ro, port, cap) :: l) ≤ n)%nat ∧ length new = length ((ro, port, cap) :: l) ∧
        ∀ k x, ((ro, port, cap) :: l) !! k = Some x → ∃ o, new !! k = Some o ∧ measured origin (jobs s + k) x o)).
  { intros sx -> (e & ->) ->. exists 1%nat, []. cbn [take]. rewrite job_events_cons, take_0, app_nil_r. by split_and!. }
  destruct (Lab.run_job cap 37 origin (job_of (jobs s))).1 as [obs|e] eqn:Ej; subst r2;
    [|destruct E1 as [-> ->]; destruct E as [-> ->]; by eapply Hstop; [|eexists|]].
  cbn beta iota in E1. apply st_bind_inv in E1 as (r3 & s3 & E3 & E1). apply lift_inv in E3 as [_ ->].
  destruct r3 as [us|e]; [|destruct E1 as [-> ->]; destruct E as [-> ->]; by eapply Hstop; [|eexists|]].
  apply st_bind_inv in E1 as (r4 & s4 & E4 & E1). apply lift_inv in E4 as [_ ->].
  destruct r4 as [ua|e]; [|destruct E1 as [-> ->]; destruct E as [-> ->]; by eapply Hstop; [|eexists|]].
  unfold modify in E1. injection E1 as <- <-. apply IH in E as (n & new & Hl & Hr & Hok).
  cbn [log jobs runs] in Hl, Hr, Hok. exists (S n), (Run ro cap obs us ua :: new).
  cbn [take]. rewrite job_events_cons. split_and!; [by rewrite Hl, <-app_assoc|by rewrite Hr, <-app_assoc|].
  intros Hrr. destruct (Hok Hrr) as (Hn & Hlen & Hall). split_and!; [cbn; lia|cbn; by rewrite Hlen|].
  intros [|k] x Hx; cbn in Hx.
  - injection Hx as <-. exists (Run ro cap obs us ua). split; [done|]. unfold measured. rewrite Nat.add_0_r. by split_and!.
  - rewrite Nat.add_succ_r. by apply Hall.
Qed.

(** ** The demonstration *)

(** The daemons are never left behind: the server ends last, the adapter before
    it, each asked first and killed if it does not listen, and no job starts
    before both said they had booted nor after one was asked to end.  A report
    means that both ended by themselves with code 0 and that each capability was
    measured over each route as often as asked, in the order of the loops, with
    exactly the observations its job accepted. *)
Theorem demo_reports origin iterations r s' :
  (∀ d, stoppable d) → demo origin iterations (State [] 0 []) = (r, s') →
  (log s' = [] ∨ log s' = Started LabServer :: ending LabServer ∨
   (∃ started, log s' = Started LabServer :: Started LabAdapter :: started ++ ending LabAdapter ++ ending LabServer ∧
      ∀ sp ap, free_port 0 = Ok sp → free_port 1 = Ok ap →
        ∃ n, started = job_events 0 (take n (plan sp ap iterations)))) ∧
  (∀ reported, r = Ok reported → exit_code LabServer = 0 ∧ exit_code LabAdapter = 0 ∧
     ∃ sp ap, free_port 0 = Ok sp ∧ free_port 1 = Ok ap ∧
       length reported = length (plan sp ap iterations) ∧
       log s' = [Started LabServer; Started LabAdapter] ++ job_events 0 (plan sp ap iterations) ++
                ending LabAdapter ++ ending LabServer ∧
       ∀ k x, plan sp ap iterations !! k = Some x → ∃ o, reported !! k = Some o ∧ measured origin k x o).
Proof.
  intros Hd E. unfold demo in E.
  apply st_bind_inv in E as (r1 & s1 & E1 & E). apply lift_inv in E1 as [Esp ->].
  destruct r1 as [sp|e]; [|destruct E as [-> ->]; split; [by left|done]].
  apply st_bind_inv in E as (r2 & s2 & E2 & E). apply lift_inv in E2 as [Eap ->].
  destruct r2 as [ap|e]; [|destruct E as [-> ->]; split; [by left|done]].
  apply st_bind_inv in E as (r3 & s3 & E3 & E). apply with_daemon_spec in E3; [|apply Hd].
  assert (Es : s' = s3) by (destruct r3; [unfold gets in E; by injection E|by destruct E as [_ ->]]). subst s'.
  destruct E3 as [(-> & e & ->)|[(-> & e & ->)|(ri & si & _ & Ei & -> & Hi)]].
  - destruct E as [-> _]. split; [by left|done].
  - destruct E as [-> _]. split; [right; by left|done].
  - apply with_daemon_spec in Ei; [|apply Hd].
    destruct Ei as [(-> & e & ->)|[(-> & e & ->)|(ra & sa & _ & Ea & -> & Ha)]].
    + destruct r3 as [x|e3]; [by destruct (Hi x eq_refl)|]. destruct E as [-> _]. split; [right; by left|done].
    + destruct r3 as [x|e3]; [by destruct (Hi x eq_refl)|]. destruct E as [-> _]. split; [right; right|done].
      exists []. split; [done|]. intros. by exists 0%nat.
    + apply all_runs_spec in Ea as (n & new & Hl & Hr & Hok). cbn [logged log jobs runs app] in *.
      rewrite Hl, <-!app_assoc. split.
      { right; right. eexists. split; [done|]. intros sp2 ap2 H1 H2. rewrite Esp in H1. rewrite Eap in H2.
        injection H1 as <-. injection H2 as <-. by exists n. }
      intros reported ->. destruct r3 as [x|e3]; [|by destruct E as [? _]].
      unfold gets in E. injection E as <-. destruct (Hi x eq_refl) as [-> Hcs]. destruct (Ha x eq_refl) as [-> Hca].
      destruct x. destruct (Hok eq_refl) as (Hn & Hlen & Hall). split_and!; [done|done|].
      exists sp, ap. rewrite Hr. split_and!; try done. by rewrite take_ge by done.
Qed.
End host.

(** ** A concrete machine: the adapter must be killed, the worker cannot start *)

Definition no_job : Lab.job := Lab.Job (Bridge.Process (Reader [] None 0) [] (Ok tt) (Ok 0) (Ok tt) None) (Reader [] None 0) [] [] None.
Definition sample_host : Host := {|
  free_port := λ i, Ok (40000 + Z.of_nat i);
  spawned := λ _, Ok tt;
  boot_line := λ _, Ok (dumps (VDict [(u "ev", VStr (u "boot"))]));
  ended_early := λ _, None;
  terminated := λ _, Ok tt;
  waited := λ d, if decide (d = LabAdapter) then Raise TimeoutError else Ok 0;
  kill := λ _, Ok tt;
  waited_killed := λ _, Ok (-9);
  drained := λ _, Ok tt;
  clock_ticks := 100;
  proc_of := λ _ _, Some (Proc (Ok (u "Name: lab" ++ [10] ++ u "VmRSS:  812 kB" ++ [10])) (Ok (u "7 (lab) S 1 2 3 4 5 6 7 8 9 10 40 2")) (Ok 5));
  world := λ _, {| Lab.spawned := Raise (OSError "ENOENT"); Lab.connected := Ok tt; Lab.remote_drain := Ok tt; Lab.remote_closed := Ok tt; Lab.policy := λ _, Ok [] |};
  job_of := λ _, no_job |}.

Example sample_usage : resources 100 (@proc_of sample_host 0 LabServer) = Ok (Some (Usage (Some 812) 5 (QArith_base.Qmake 42 100))).
Proof. reflexivity. Qed.

Definition sample_demo : result (list run) * state := Eval vm_compute in @demo sample_host None 1 (State [] 0 []).
Lemma sample_demo_eq : @demo sample_host None 1 (State [] 0 []) = (sample_demo.1, sample_demo.2).
Proof. vm_compute. reflexivity. Qed.
Lemma sample_stoppable d : @stoppable sample_host d.
Proof.
  split; [by left|]. intros e. unfold first_wait. cbn. case_decide; [|done]. intros [= <-]. done.
Qed.

Lemma demo_reports_witness :
  (log sample_demo.2 = [Started LabServer; Started LabAdapter; Job 0 40000 1; Terminated LabAdapter; Killed LabAdapter;
     Reaped LabAdapter (-9); Terminated LabServer; Reaped LabServer 0] ∧ sample_demo.1 = Raise (ValueError "daemon_failed")) ∧
  (log sample_demo.2 = [] ∨ log sample_demo.2 = Started LabServer :: @ending sample_host LabServer ∨
   (∃ started, log sample_demo.2 = Started LabServer :: Started LabAdapter ::
        started ++ @ending sample_host LabAdapter ++ @ending sample_host LabServer ∧
      ∀ sp ap, Ok 40000 = Ok sp → Ok 40001 = Ok ap → ∃ n, started = job_events 0 (take n (plan sp ap 1)))).
Proof.
  split; [split; vm_compute; reflexivity|].
  exact (proj1 (@demo_reports sample_host None 1 sample_demo.1 sample_demo.2 sample_stoppable sample_demo_eq)).
Defined.
