(* ===== verification/RunGame.v ===== *)
(** * The validated launcher and the credentials of a demonstration

    [src/tools/run_game.py], which checks the engine and the options of a match
    before it replaces itself by the engine, and
    [src/scripts/game_credentials.py], which makes the certificates of a local
    demonstration.  The engine, [openssl] and the file system are parameters. *)

From S2P Require Import Prelude Bytes Json Gateway Text.
Import Json Text.

Module RunGame.

(** ** The engine *)

Definition ENGINE_VERSION : pystr := u "4.7.2".
Definition refused : exn := SystemExit 1.        (* [SystemExit(message)] *)
Definition bad_option : exn := SystemExit 2.     (* [parser.error(message)] *)

(** What the launcher meets outside.  [version_of] is the run of
    [<engine> --version]: its exit code and standard output. *)
Class Machine := {
  GODOT_BIN : option pystr;                 (* the environment variable *)
  pinned : pystr;                           (* results/toolchain/godot-4.7.2/godot *)
  game_folder : pystr;
  is_file : pystr → bool;
  which : pystr → option pystr;
  resolve : pystr → pystr;                  (* [str(Path(p).resolve())] *)
  version_of : pystr → result (Z * pystr) }.

Section engine.
Context `{Machine}.

(** [a or b] of optional strings: the empty one is false. *)
Definition or_str (a b : option pystr) : option pystr :=
  match a with Some (_ :: _) => a | _ => b end.
Definition candidate : option pystr :=
  match or_str GODOT_BIN None with
  | Some override => or_str (which override) (Some override)
  | None => if is_file pinned then Some pinned else or_str (which (u "godot")) (which (u "godot4"))
  end.
Definition find_engine : result pystr :=
  match or_str candidate None with
  | None => Raise refused
  | Some found =>
      let found := resolve found in
      match version_of found with
      | Raise e => Raise (if is_OSError e || bool_decide (e = SubprocessError) then refused else e)
      | Ok (code, out) =>
          raise_if! negb (code =? 0) || negb (starts_with (ENGINE_VERSION ++ u ".stable.") (strip out)) then refused;
          Ok found
      end
  end.
(** [engine()]: the answer is kept, a failure is not. *)
Definition engine : st (option pystr) pystr :=
  kept ← get;
  match kept with
  | Some found => mret found
  | None => found ← lift find_engine; _ ← modify (λ _, Some found); mret found
  end.
End engine.

(** ** The options *)

(** The types of the options; any failure of theirs is reported by [argparse]. *)
Definition port_number (value : pystr) : result Z :=
  number ← int_of (strip value);
  raise_if! negb ((1024 <=? number) && (number <=? 65535)) then ValueError "port";
  Ok number.
(** [ipaddress.IPv4Address(value)]: four decimal octets without leading zeros. *)
Definition ip_address (value : pystr) : result pystr :=
  let parts := Gateway.split_dots [] value in
  raise_if! negb ((len parts =? 4) && forallb Gateway.is_octet parts) then ValueError "IPv4";
  Ok (join [46] (dump_int <$> (digits_value 0 <$> parts))).
(** [value.isidentifier()]; the properties of the characters beyond ASCII are a
    table of the interpreter. *)
Class Unicode := { xid_start : Z → bool; xid_continue : Z → bool }.
Definition is_letter (c : Z) : bool := ((65 <=? c) && (c <=? 90)) || ((97 <=? c) && (c <=? 122)) || (c =? 95).
Definition starts_identifier `{Unicode} (c : Z) : bool := if c <? 128 then is_letter c else xid_start c.
Definition continues_identifier `{Unicode} (c : Z) : bool := if c <? 128 then is_letter c || is_digit c else xid_continue c.
Definition isidentifier `{Unicode} (s : pystr) : bool :=
  match s with [] => false | c :: s => starts_identifier c && forallb continues_identifier s end.
Definition player_name `{Unicode} (value : pystr) : result pystr :=
  raise_if! negb (isidentifier value) || (24 <? len value) then ValueError "name";
  Ok value.

(** The floating point numbers of the interpreter. *)
Class Floats (float : Type) := {
  float_of : pystr → result float;
  between : Z → float → Z → bool;           (* [a <= x <= b] *)
  str_of : float → pystr }.

(** The words of the command line, as [argparse] sorts them. *)
Record words := Words {
  w_server : bool; w_development : bool; w_join : option pystr; w_port : option pystr; w_name : option pystr;
  w_config : option pystr; w_lab : bool; w_snap_cycle : bool; w_automated : bool; w_seconds : option pystr;
  w_screenshot : option pystr; w_alert_screenshot : option pystr }.
Record options := Options {
  server : bool; development : bool; join_to : option pystr; port : Z; name : pystr;
  config : option pystr; lab : bool; snap_cycle : bool; automated : bool; seconds : pystr;   (* printed *)
  screenshot : option pystr; alert_screenshot : option pystr }.

Section options.
Context `{Machine} `{Unicode} {float : Type} `{Floats float}.

(** A given word through its type; the default as it is. *)
Definition typed {A} (type : pystr → result A) (w : option pystr) (default : A) : result A :=
  match w with
  | None => Ok default
  | Some w => match type w with Ok x => Ok x | Raise _ => Raise bad_option end
  end.
Definition typed_seconds (w : option pystr) : result (pystr * bool) :=
  match w with
  | None => Ok (u "15", true)
  | Some w => match float_of w with
              | Ok x => Ok (str_of x, between 1 x 3600)
              | Raise _ => Raise bad_option
              end
  end.
Definition parse_args (w : words) : result options :=
  join ← typed (λ v, a ← ip_address v; Ok (Some a)) (w_join w) None;
  port ← typed port_number (w_port w) 7777;
  name ← typed player_name (w_name w) (u "Player");
  '(seconds, in_range) ← typed_seconds (w_seconds w);
  raise_if! w_server w && bool_decide (is_Some join) then bad_option;
  raise_if! negb in_range then bad_option;
  raise_if! match w_config w with Some c => negb (is_file c) | None => false end then bad_option;
  Ok (Options (w_server w) (w_development w) join port name (w_config w) (w_lab w) (w_snap_cycle w) (w_automated w)
        seconds (w_screenshot w) (w_alert_screenshot w)).

(** ** The command *)

Definition flag (on : bool) (word : string) : list pystr := if on then [u word] else [].
Definition valued (word : string) (v : option pystr) : list pystr :=
  match v with Some v => [u word; v] | None => [] end.
Definition arguments (o : options) : list pystr :=
  [u "--port"; dump_int (port o); u "--name"; name o; u "--seconds"; seconds o] ++
  flag (server o) "--server" ++ flag (development o) "--development" ++ flag (lab o) "--lab" ++
  flag (snap_cycle o) "--snap-cycle" ++ flag (automated o) "--automated" ++
  valued "--join" (join_to o) ++
  valued "--config" (resolve <$> config o) ++ valued "--screenshot" (resolve <$> screenshot o) ++
  valued "--alert-screenshot" (resolve <$> alert_screenshot o).
Definition command (w : words) : st (option pystr) (list pystr) :=
  o ← lift (parse_args w);
  engine ← engine;
  mret ([engine] ++ flag (server o) "--headless" ++ [u "--path"; game_folder; u "--"] ++ arguments o).
End options.

(** ** Credentials *)

(** What [stat] says of the directory, and whether anything is in it. *)
Record folder := Folder { f_is_dir : bool; f_owner : Z; f_mode : Z; f_empty : bool }.
(** Files of the directory: the request of one, [openssl] runs. *)
Inductive action :=
| OpenSSL (args : list pystr)
| WriteText (name : pystr) (text : pystr).

Definition check_folder (uid : Z) (f : folder) : result unit :=
  raise_if (negb (f_is_dir f) || negb (f_owner f =? uid) || negb (Z.land (f_mode f) 63 =? 0) || negb (f_empty f))
    (ValueError "CERTIFICATE_DIRECTORY_MUST_BE_PRIVATE_AND_EMPTY").

Definition authority : list pystr :=
  u <$> ["req"; "-x509"; "-newkey"; "rsa:2048"; "-nodes"; "-keyout"; "ca.key"; "-out"; "ca.crt";
         "-subj"; "/CN=Lab temporary CA"; "-days"; "1"; "-addext"; "basicConstraints=critical,CA:TRUE";
         "-addext"; "keyUsage=critical,keyCertSign,cRLSign"]%string.
Definition holders : list (pystr * pystr) :=
  [(u "server", u "serverAuth"); (u "client", u "clientAuth"); (u "client2", u "clientAuth"); (u "unknown", u "clientAuth")].
Definition extensions (usage : pystr) : pystr :=
  u "basicConstraints=critical,CA:FALSE" ++ [10] ++ u "keyUsage=critical,digitalSignature,keyEncipherment" ++ [10] ++
  u "extendedKeyUsage=" ++ usage ++ [10] ++ u "subjectAltName=DNS:localhost" ++ [10].
Definition holder_actions (h : pystr * pystr) : list action :=
  let '(name, usage) := h in
  [ OpenSSL ((u <$> ["req"; "-new"; "-newkey"; "rsa:2048"; "-nodes"; "-keyout"]%string) ++ [name ++ u ".key"; u "-out"; name ++ u ".csr"; u "-subj"; u "/CN=" ++ name]);
    WriteText (name ++ u ".ext") (extensions usage);
    OpenSSL ([u "x509"; u "-req"; u "-in"; name ++ u ".csr"; u "-CA"; u "ca.crt"; u "-CAkey"; u "ca.key";
              u "-CAcreateserial"; u "-out"; name ++ u ".crt"; u "-days"; u "1"; u "-extfile"; name ++ u ".ext"]) ].

Section certificates.
Context (outcome : nat → result unit).     (* of the actions, in order *)

Definition act (a : action) : st (list action) unit := λ done,
  match outcome (length done) with
  | Ok _ => (Ok tt, done ++ [a])
  | Raise e => (Raise e, done ++ [a])
  end.
Fixpoint act_all (l : list action) : st (list action) unit :=
  match l with [] => mret tt | a :: l => _ ← act a; act_all l end.
Definition certificates (uid : Z) (f : folder) : st (list action) unit :=
  _ ← lift (check_folder uid f);
  _ ← act (OpenSSL authority);
  act_all (holders ≫= holder_actions).
End certificates.

End RunGame.

(** * Properties of the launcher and of the credentials *)

Import Json Text RunGame.

(** ** Addresses are passed on as they were written *)

Lemma split_dots_not_nil cur s : Gateway.split_dots cur s ≠ [].
Proof. revert cur. induction s as [|c s IH]; intros cur; cbn; [done|]. by case_match. Qed.
Lemma split_dots_join cur s : join [46] (Gateway.split_dots cur s) = cur ++ s.
Proof.
  revert cur. induction s as [|c s IH]; intros cur; cbn [Gateway.split_dots]; [by rewrite app_nil_r|].
  destruct (c =? 46) eqn:Ec; [|by rewrite IH, <-app_assoc].
  bools. subst. pose proof (split_dots_not_nil [] s). specialize (IH []).
  destruct (Gateway.split_dots [] s); [done|]. cbn [join] in *. by rewrite IH.
Qed.

Definition ten : list Z := [48; 49; 50; 51; 52; 53; 54; 55; 56; 57].
Lemma is_digit_ten c : is_digit c = true → c ∈ ten.
Proof.
  unfold is_digit. intros Hc. bools. unfold ten. rewrite !elem_of_cons. lia.
Qed.
Definition canonical (s : pystr) : bool :=
  implb (Gateway.is_octet s) (bool_decide (dump_int (digits_value 0 s) = s)).
Lemma canonical_all : forallb (λ a, canonical [a] && forallb (λ b, canonical [a; b] &&
  forallb (λ c, canonical [a; b; c]) ten) ten) ten = true.
Proof. vm_compute. reflexivity. Qed.
Lemma octet_printed s : Gateway.is_octet s = true → dump_int (digits_value 0 s) = s.
Proof.
  intros Ho. assert (Hc : canonical s = true).
  { pose proof canonical_all as Hall.
    assert (Hd : forallb is_digit s = true ∧ (1 <= length s <= 3)%nat).
    { unfold Gateway.is_octet, len in Ho. bools. split; [done|lia]. }
    clear Ho. destruct Hd as [Hd Hl].
    destruct s as [|x [|y [|z [|t s]]]]; cbn in Hl; try lia; cbn [forallb] in Hd; bools;
      apply (forallb_elem _ _ x) in Hall; [|by apply is_digit_ten| |by apply is_digit_ten| |by apply is_digit_ten];
      apply andb_true_iff in Hall as [Hx Hall]; [done| |];
      (apply (forallb_elem _ _ y) in Hall; [|by apply is_digit_ten]); apply andb_true_iff in Hall as [Hy Hall]; [done|].
    apply (forallb_elem _ _ z) in Hall; [done|by apply is_digit_ten]. }
  unfold canonical in Hc. rewrite Ho in Hc. cbn in Hc. by bools.
Qed.

Definition dotted_quad (v : pystr) : Prop :=
  ∃ a b c d, v = join [46] (dump_int <$> [a; b; c; d]) ∧ Forall (λ x, 0 <= x <= 255) [a; b; c; d].
Lemma octet_range s : Gateway.is_octet s = true → 0 <= digits_value 0 s <= 255.
Proof.
  intros Ho. unfold Gateway.is_octet in Ho. bools. split; [|done].
  assert (Hd : ∀ l acc, 0 <= acc → forallb is_digit l = true → 0 <= digits_value acc l).
  { induction l as [|c l IH]; intros acc Ha Hl; cbn in *; [done|]. bools. apply IH; [|done].
    unfold is_digit in *. bools. lia. }
  by apply Hd.
Qed.
Lemma ip_address_same v a : ip_address v = Ok a → a = v ∧ dotted_quad v.
Proof.
  unfold ip_address. intros E. apply result_bind_Ok in E as (x & Hg & E). apply raise_if_Ok in Hg. bools.
  injection E as <-. assert (Hs : Forall (λ p, Gateway.is_octet p = true) (Gateway.split_dots [] v)) by by apply forallb_Forall.
  assert (Hm : dump_int <$> (digits_value 0 <$> Gateway.split_dots [] v) = Gateway.split_dots [] v).
  { clear - Hs. induction Hs as [|p l Hp Hl IH]; [done|]. cbn. by rewrite octet_printed, IH by done. }
  rewrite Hm, split_dots_join. split; [done|].
  assert (Hv : v = join [46] (dump_int <$> (digits_value 0 <$> Gateway.split_dots [] v))).
  { rewrite Hm. by rewrite split_dots_join. }
  clear Hm. unfold dotted_quad, len in *. revert Hv.
  destruct (Gateway.split_dots [] v) as [|p [|q [|r [|s [|]]]]]; cbn [length fmap list_fmap] in *; try lia.
  intros Hv. do 4 eexists. split; [exact Hv|]. rewrite !Forall_cons in Hs. destruct_and!.
  repeat constructor; by apply octet_range.
Qed.

(** ** The launcher *)

Section launcher.
Context `{Machine} `{Unicode} {float : Type} `{Floats float}.

(** The engine a launch may use: its version was the pinned one. *)
Definition right_version (found : pystr) : Prop :=
  ∃ out rest, version_of found = Ok (0, out) ∧ strip out = u "4.7.2.stable." ++ rest.

Lemma find_engine_Ok found : find_engine = Ok found → right_version found.
Proof.
  unfold find_engine. destruct (or_str candidate None) as [c|]; [|done].
  destruct (version_of (resolve c)) as [[code out]|e] eqn:Ev; [|by destruct (_ || _)].
  intros E. apply result_bind_Ok in E as (x & Hg & E). apply raise_if_Ok, orb_false_iff in Hg as [Hc Hs].
  bools. subst code. injection E as <-. exists out. apply starts_with_spec in Hs as (rest & ->). by exists rest.
Qed.

Lemma engine_spec kept r kept' : engine kept = (r, kept') →
  (∀ found, r = Ok found → kept' = Some found ∧ (kept = Some found ∨ right_version found)) ∧
  (∀ e, r = Raise e → kept' = None ∧ kept = None).
Proof.
  intros E. unfold engine in E. apply st_bind_inv in E as (r1 & s1 & E1 & E). injection E1 as <- <-.
  destruct kept as [k|].
  - injection E as <- <-. split; [intros found [= ->]; auto|done].
  - apply st_bind_inv in E as (r1 & s1 & E1 & E). apply lift_inv in E1 as [Ef ->].
    destruct r1 as [found|e]; [|destruct E as [-> ->]; by split].
    injection E as <- <-. split; [|done]. intros f [= <-]. split; [done|]. right. by apply find_engine_Ok.
Qed.

(** Options that passed every check, the values as the user wrote them. *)
Definition sound (w : words) (o : options) : Prop :=
  1024 <= port o <= 65535 ∧
  (isidentifier (name o) = true ∧ len (name o) <= 24) ∧
  (∀ a, join_to o = Some a → w_join w = Some a ∧ dotted_quad a ∧ server o = false) ∧
  (∀ n, w_name w = Some n → name o = n) ∧
  (∀ c, config o = Some c → w_config w = Some c ∧ is_file c = true) ∧
  (w_seconds w = None ∧ seconds o = u "15" ∨
   ∃ t x, w_seconds w = Some t ∧ float_of t = Ok x ∧ between 1 x 3600 = true ∧ seconds o = str_of x).

Lemma typed_Ok {A} (type : pystr → result A) w default x :
  typed type w default = Ok x → w = None ∧ x = default ∨ ∃ v, w = Some v ∧ type v = Ok x.
Proof.
  unfold typed. destruct w as [v|]; [|intros [= <-]; auto]. destruct (type v) eqn:E; [|done].
  intros [= <-]. right. eauto.
Qed.
Lemma typed_Raise {A} (type : pystr → result A) w default e : typed type w default = Raise e → e = bad_option.
Proof. unfold typed. destruct w as [v|]; [|done]. by destruct (type v); intros [= <-]. Qed.

(** The only exception [r] can raise. *)
Definition fails_with {A} (e : exn) (r : result A) : Prop := ∀ e', r = Raise e' → e' = e.
Lemma fails_with_bind {A B} e (m : result A) (f : A → result B) :
  fails_with e m → (∀ a, fails_with e (f a)) → fails_with e (m ≫= f).
Proof. intros Hm Hf e'. destruct m as [a|e1]; cbn; [apply Hf|]. intros [= <-]. by apply Hm. Qed.
Lemma fails_with_raise_if e x : fails_with e (raise_if x e).
Proof. intros e'. destruct x; cbn; [by intros [= <-]|done]. Qed.
Lemma parse_args_fails w : fails_with bad_option (parse_args w).
Proof.
  assert (Ht : ∀ A (type : pystr → result A) v d, fails_with bad_option (typed type v d)).
  { intros A type v d e'. apply typed_Raise. }
  unfold parse_args. repeat (apply fails_with_bind; [apply Ht||apply fails_with_raise_if|intros ?]).
  apply fails_with_bind.
  - unfold typed_seconds. intros e'. destruct (w_seconds w); [|done]. destruct (float_of _); [done|by intros [= <-]].
  - intros [? ?]. repeat (apply fails_with_bind; [apply fails_with_raise_if|intros ?]). done.
Qed.

Lemma parse_args_sound w o : parse_args w = Ok o → sound w o.
Proof.
  unfold parse_args. intros E.
  apply result_bind_Ok in E as (jo & Ej & E). apply result_bind_Ok in E as (po & Ep & E).
  apply result_bind_Ok in E as (na & En & E). apply result_bind_Ok in E as ([se ok] & Es & E).
  apply result_bind_Ok in E as (x1 & Hx & E). apply result_bind_Ok in E as (x2 & Hr & E).
  apply result_bind_Ok in E as (x3 & Hc & E). apply raise_if_Ok in Hx, Hr, Hc. injection E as <-.
  unfold sound. cbn. split; [|split; [|split; [|split; [|split]]]].
  - apply typed_Ok in Ep as [[_ ->]|(v & _ & Ep)]; [lia|]. unfold port_number in Ep.
    apply result_bind_Ok in Ep as (z & _ & Ep). apply result_bind_Ok in Ep as (x & Hg & Ep).
    apply raise_if_Ok in Hg. injection Ep as ->. bools. lia.
  - apply typed_Ok in En as [[_ ->]|(v & _ & En)]; [done|]. unfold player_name in En.
    apply result_bind_Ok in En as (x & Hg & En). apply raise_if_Ok in Hg. injection En as ->. bools. done.
  - intros a ->. apply typed_Ok in Ej as [[_ ?]|(v & Hv & Ej)]; [done|].
    apply result_bind_Ok in Ej as (a' & Ha & Ej). injection Ej as ->. apply ip_address_same in Ha as [-> Hq].
    split_and!; [done|done|]. by rewrite bool_decide_eq_true_2, andb_true_r in Hx by eauto.
  - intros n Hn. apply typed_Ok in En as [[? _]|(v & Hv & En)]; [congruence|]. unfold player_name in En.
    apply result_bind_Ok in En as (x & Hg & En). injection En as ->. congruence.
  - intros c Hwc. split; [done|]. rewrite Hwc in Hc. by bools.
  - unfold typed_seconds in Es. destruct (w_seconds w) as [t|]; [|injection Es as <- <-; by left].
    destruct (float_of t) as [x|] eqn:Ef; [|done]. injection Es as <- <-. bools. right. by exists t, x.
Qed.

(** What reaches the engine.  A launch runs the engine whose version was
    checked, now or earlier, on the game's folder; whatever the user wrote comes
    after the [--] that ends the options of the engine itself; the port, the
    name, the address and the duration are within their bounds, the address as
    it was written; a server joins nothing; a rejected option or engine launches
    nothing, and ends the launcher with code 2 or 1. *)
Theorem launch_is_validated w kept r kept' : command w kept = (r, kept') →
  (∀ args, r = Ok args → ∃ o found,
     sound w o ∧ (kept = Some found ∨ right_version found) ∧ kept' = Some found ∧
     args = [found] ++ flag (server o) "--headless" ++ [u "--path"; game_folder] ++ [u "--"] ++ arguments o) ∧
  (∀ e, r = Raise e → e = bad_option ∨ e = refused ∨ ∃ found, version_of found = Raise e).
Proof.
  intros E. unfold command in E. apply st_bind_inv in E as (r1 & s1 & E1 & E). apply lift_inv in E1 as [Eo ->].
  destruct r1 as [o|e].
  - apply parse_args_sound in Eo. apply st_bind_inv in E as (r2 & s2 & E2 & E).
    pose proof (engine_spec _ _ _ E2) as [Hok Hbad]. destruct r2 as [found|e].
    + injection E as <- <-. destruct (Hok found eq_refl) as [-> Hf]. split; [|done].
      intros args [= <-]. exists o, found. by split_and!.
    + destruct E as [-> ->]. split; [done|]. intros e' [= <-]. destruct (Hbad e eq_refl) as [_ ->].
      right. unfold engine in E2. cbn in E2. destruct find_engine as [f|e1] eqn:Ef; [done|]. injection E2 as -> _.
      unfold find_engine in Ef. destruct (or_str candidate None) as [c|]; [|injection Ef as <-; by left].
      destruct (version_of (resolve c)) as [[code out]|e1] eqn:Ev.
      * destruct (_ || _); [injection Ef as <-; by left|done].
      * destruct (_ || _); injection Ef as <-; [by left|right; eauto].
  - destruct E as [-> ->]. split; [done|]. intros e' [= <-]. left. by eapply parse_args_fails.
Qed.
End launcher.

(** ** Credentials *)

Section credentials.
Context (outcome : nat → result unit).

Definition all_actions : list action := OpenSSL authority :: (holders ≫= holder_actions).

Lemma act_all_spec l done r done' : act_all outcome l done = (r, done') →
  ∃ n, done' = done ++ take n l ∧ (∀ k, (length done <= k < length done' - 1)%nat → is_Ok (outcome k) = true) ∧
    match r with
    | Ok _ => (length l <= n)%nat ∧ (∀ k, (length done <= k < length done')%nat → is_Ok (outcome k) = true)
    | Raise e => (length done < length done')%nat ∧ outcome (length done' - 1)%nat = Raise e
    end.
Proof.
  revert done. induction l as [|a l IH]; intros done E; cbn [act_all] in E.
  { injection E as <- <-. exists 0%nat. rewrite app_nil_r. split; [done|]. split; [|split; [done|]]; intros; lia. }
  apply st_bind_inv in E as (r1 & s1 & E1 & E). unfold act in E1.
  destruct (outcome (length done)) as [x|e] eqn:Eo; injection E1 as <- <-.
  - apply IH in E as (n & Hd & Hk & Hr). rewrite length_app in *. cbn [length] in *. exists (S n).
    assert (Hall : ∀ k, (length done <= k)%nat → (length done + 1 <= k → is_Ok (outcome k) = true)%nat → is_Ok (outcome k) = true).
    { intros k Hk1 Hk2. destruct (decide (k = length done)) as [->|]; [by rewrite Eo|]. apply Hk2. lia. }
    split; [by rewrite Hd, <-app_assoc|]. split; [intros k ?; apply Hall; [lia|intros ?; apply Hk; lia]|].
    destruct r as [y|e]; destruct Hr as [Hr1 Hr2]; split; [cbn; lia| |lia|done].
    intros k ?. apply Hall; [lia|intros ?; apply Hr2; lia].
  - destruct E as [-> ->]. exists 1%nat. rewrite length_app. cbn [take length]. split; [done|].
    split; [intros k ?; lia|]. split; [lia|]. by replace (length done + 1 - 1)%nat with (length done) by lia.
Qed.

(** The credentials are made in a directory that is the user's own, closed to
    everyone else and empty - in any other nothing is run or written -, in one
    fixed order: the authority, and then for each of the four holders its
    request, its extensions and its certificate.  The first step that fails is
    the last one, and no success is reported unless all thirteen were made. *)
Theorem credentials_in_order uid f r done : certificates outcome uid f [] = (r, done) →
  let private := f_is_dir f = true ∧ f_owner f = uid ∧ Z.land (f_mode f) 63 = 0 ∧ f_empty f = true in
  (∃ n, done = take n all_actions) ∧ (done ≠ [] → private) ∧
  (∀ k, (S k < length done)%nat → is_Ok (outcome k) = true) ∧
  match r with
  | Ok _ => private ∧ done = all_actions ∧ (∀ k, (k < length done)%nat → is_Ok (outcome k) = true)
  | Raise e => done = [] ∧ ¬ private ∨ outcome (length done - 1)%nat = Raise e
  end.
Proof.
  intros E private. unfold certificates in E. apply st_bind_inv in E as (r1 & s1 & E1 & E).
  apply lift_inv in E1 as [Ec ->].
  assert (Hp : match r1 with Ok _ => private | Raise _ => ¬ private end).
  { unfold check_folder, raise_if in Ec. destruct (_ || _) eqn:Eb in Ec; subst r1.
    - intros (H1 & H2 & H3 & H4). subst private. rewrite H1, H2, H3, H4, Z.eqb_refl in Eb. done.
    - subst private. bools. split_and!; done. }
  destruct r1 as [x1|e].
  - change (act_all outcome all_actions [] = (r, done)) in E. apply act_all_spec in E as (n & -> & Hk & Hr).
    cbn [app length] in *. split; [by exists n|]. split; [done|]. split; [intros k ?; apply Hk; lia|].
    destruct r as [x|e]; destruct Hr as [Hr1 Hr2]; [|by right].
    rewrite take_ge in * by done. split_and!; try done; try apply Hp. intros k ?. apply Hr2. lia.
  - destruct E as [-> ->]. split; [by exists 0%nat|]. split; [done|]. split; [intros k; cbn; lia|]. by left.
Qed.
End credentials.

(** ** A launch, and credentials whose third step fails *)

#[local] Instance sample_machine : Machine := {|
  GODOT_BIN := Some (u "godot-lab"); pinned := u "/lab/godot"; game_folder := u "/lab/game"; is_file := λ _, true;
  which := λ _, None; resolve := λ p, u "/home/" ++ p;
  version_of := λ _, Ok (0, u " 4.7.2.stable.official" ++ [10]) |}.
#[local] Instance ascii_only : Unicode := {| xid_start := λ _, false; xid_continue := λ _, false |}.
#[local] Instance whole_seconds : Floats Z := {|
  float_of := int_of; between := λ a x b, (a <=? x) && (x <=? b); str_of := dump_int |}.
Definition sample_words : words :=
  Words false true (Some (u "192.168.1.20")) (Some (u "7_800")) (Some (u "Alice_2")) None true false false (Some (u "60")) None None.
Definition sample_launch : list pystr :=
  u <$> ["/home/godot-lab"; "--path"; "/lab/game"; "--"; "--port"; "7800"; "--name"; "Alice_2"; "--seconds"; "60";
         "--development"; "--lab"; "--join"; "192.168.1.20"]%string.
Lemma launch_is_validated_witness : ∃ o found, sound sample_words o ∧
  (None = Some found ∨ right_version found) ∧ Some (u "/home/godot-lab") = Some found ∧
  sample_launch = [found] ++ flag (server o) "--headless" ++ [u "--path"; game_folder] ++ [u "--"] ++ arguments o.
Proof.
  refine (proj1 (launch_is_validated sample_words None (Ok sample_launch) (Some (u "/home/godot-lab")) _) _ eq_refl).
  vm_compute. reflexivity.
Defined.

Example bad_launches : (λ w, (command w None).1) <$>
  [Words true true (Some (u "10.0.0.1")) None None None false false false None None None;
   Words false true (Some (u "10.0.0.01")) None None None false false false None None None;
   Words false true None (Some (u "80")) None None false false false None None None;
   Words false true None None (Some (u "two words")) None false false false None None None;
   Words false true None None None None false false false (Some (u "0")) None None] = replicate 5 (Raise bad_option).
Proof. vm_compute. reflexivity. Qed.

Definition third_fails (k : nat) : result unit := if (k =? 2)%nat then Raise (OSError "ENOSPC") else Ok tt.
Lemma credentials_in_order_witness :
  let made := take 3 all_actions in
  (∃ n, made = take n all_actions) ∧ third_fails (length made - 1) = Raise (OSError "ENOSPC").
Proof.
  split; [exact (proj1 (credentials_in_order third_fails 1000 (Folder true 1000 448 true) (Raise (OSError "ENOSPC"))
    (take 3 all_actions) ltac:(vm_compute; reflexivity)))|vm_compute; reflexivity].
Defined.
