(* ===== verification/Checks.v ===== *)
(** * Bounded checks

    [src/scripts/verificar-build.py], the build and its tests under deadlines,
    and the part of [src/scripts/verificar-ima.py] that compares the replay of
    the measurement log with the PCR of this machine.  The commands, the replay
    program and [tpm2_pcrread] are parameters. *)

From S2P Require Import Prelude Bytes Sha256 Json JsonCanon Dict Attestation.
Import Json Attestation.

Module Checks.

(** ** [verificar-build.py]: one command under a deadline *)

(** A command: whether it starts, how [communicate] ends within the limit, how
    the signal to its group and the second [communicate] end. *)
Record process := Process {
  started : result unit;
  communicated : result (Z * pystr * pystr);     (* exit code, stdout, stderr *)
  group_killed : result unit;
  collected : result (pystr * pystr) }.
Record outcome := Outcome { exit_code : Z; stdout : pystr; stderr : pystr }.

Definition lookup_error : exn := OSError "ProcessLookupError".
Definition timeout_expired : exn := SubprocessError.
Definition timeout_note : pystr := [10] ++ u "Timeout del verificador; grupo de procesos propio terminado.".

Definition run_body (p : process) : result outcome :=
  _ ← started p;
  match communicated p with
  | Ok (code, out, err) => Ok (Outcome code out err)
  | Raise e =>
      if decide (e = timeout_expired) then
        _ ← match group_killed p with
            | Ok x => Ok x
            | Raise e => if decide (e = lookup_error) then Ok tt else Raise e
            end;
        '(out, err) ← collected p;
        Ok (Outcome 124 out (err ++ timeout_note))
      else Raise e
  end.
(** [run(command, limit)]; [str_of]: the text of an exception. *)
Definition run (str_of : exn → pystr) (p : process) : result outcome :=
  match run_body p with
  | Ok o => Ok o
  | Raise e => if is_OSError e then Ok (Outcome 127 [] (str_of e)) else Raise e
  end.

(** ** The whole verification *)

Inductive command :=
| Version (tool : pystr)
| Configure | Build | Tests | UnitTests
| Port (word : pystr).
#[export] Instance command_eq_dec : EqDecision command.
Proof. solve_decision. Defined.

Definition versions : list command := Version <$> [u "cc"; u "cmake"; u "ninja"].
Definition commands : list command := [Configure; Build; Tests; UnitTests].
Definition ports : list command := Port <$> [u "0"; u "65536"; u "-1"; u "abc"; u "7777x"].
Definition limit (c : command) : Z := match c with Version _ => 10 | Port _ => 2 | _ => 60 end.
Definition expected (c : command) : Z := match c with Port _ => 2 | _ => 0 end.

Section verification.
Context (machine : command → process) (str_of : exn → pystr).

Definition checks := list (command * outcome).
(** One command, its result appended. *)
Definition check (c : command) : st checks Z :=
  o ← lift (run str_of (machine c));
  _ ← modify (λ l, l ++ [(c, o)]); mret (exit_code o).
(** [for command in l: ... if result['exit_code']: break]; [true]: no break. *)
Fixpoint check_until (l : list command) : st checks bool :=
  match l with
  | [] => mret true
  | c :: l => code ← check c; if negb (code =? 0) then mret false else check_until l
  end.
Fixpoint check_all (l : list command) : st checks unit :=
  match l with [] => mret tt | c :: l => _ ← check c; check_all l end.
Definition verify_body : st checks unit :=
  tools ← check_until versions;
  if negb tools then mret tt else
  built ← check_until commands;
  if negb built then mret tt else check_all ports.
Definition as_expected (x : command * outcome) : bool := exit_code x.2 =? expected x.1.
Definition passed (l : checks) : bool := forallb as_expected l.
(** [main()]: the checks made and the exit code. *)
Definition verify_build : result Z * checks :=
  (_ ← verify_body; l ← get; mret (if passed l then 0 else 1)) [].
End verification.

(** ** [verificar-ima.py] *)

(** [field(value)] and [record(...)]: an entry of the log and its digest. *)
Definition field (value : bytes) : result bytes :=
  raise_if! negb (len value <=? 4294967295) then StructError; Ok (le_encode 4 (len value) ++ value).
Definition default_data (subject name : bytes) : result bytes :=
  d ← field (b "sha256:" ++ [x00] ++ sha256 subject);
  n ← field (subject ++ [x00]);
  s ← (if bool_decide (name = b "ima-sig") then field [] else Ok []);
  Ok (d ++ n ++ s).
Definition record (subject name : bytes) (data : option bytes) (pcr : Z) : result (bytes * bytes) :=
  data ← match data with Some d => Ok d | None => default_data subject name end;
  let digest := sha256 data in
  raise_if! negb ((0 <=? pcr) && (pcr <=? 4294967295)) then StructError;
  n ← field name; d ← field data;
  Ok (le_encode 4 pcr ++ digest ++ n ++ d, digest).

(** [needle in s] *)
Fixpoint contains (needle s : pystr) : bool :=
  bool_decide (take (length needle) s = needle) || match s with [] => false | _ :: s => contains needle s end.

(** The run of the replay program: exit code, stdout, stderr. *)
Definition inspect (finished : result (Z * pystr * pystr)) : result dict :=
  '(code, out, err) ← finished;
  raise_if! negb (bool_decide (code ∈ [0; 1])) then RuntimeError "PARSER_PROCESS_FAILED";
  raise_if! contains (u "AddressSanitizer") err || contains (u "runtime error:") err then RuntimeError "SANITIZER_ERROR";
  v ← loads plain_hooks out;
  parsed ← v_item v (u "parsed");
  wrong ← (if negb (py_eq parsed (VBool (code =? 0))) then Ok true
           else x ← v_item v (u "attestation_verified"); Ok (truthy x));
  raise_if! wrong then RuntimeError "PARSER_RESULT_INVALID";
  match v with VDict d => Ok d | _ => Raise TypeError end.

Inductive assessment := INDETERMINATE | DENY | CONSISTENT.
Definition assessment_name (a : assessment) : pystr :=
  u (match a with INDETERMINATE => "INDETERMINATE" | DENY => "DENY" | CONSISTENT => "CONSISTENT" end)%string.
Definition compare (before : value) (replayed : value) (after : value) : assessment * pystr :=
  if negb (py_eq before after) then (INDETERMINATE, u "PCR_CHANGED_DURING_READ")
  else if negb (py_eq before replayed) then (DENY, u "PCR_REPLAY_MISMATCH")
  else (CONSISTENT, u "LOCAL_PCR_REPLAY_MATCH").

(** One [tpm2_pcrread]: its exit code and the file it wrote. *)
Definition read_pcr (ran : result (Z * result bytes)) : result pystr :=
  '(code, file) ← ran;
  raise_if! negb (code =? 0) then RuntimeError "TPM_PCR_READ_FAILED";
  data ← file;
  raise_if! negb (len data =? 32) then RuntimeError "TPM_PCR_SIZE";
  Ok (hex_of data).

Section hardware.
Context (reads : nat → result (Z * result bytes)) (replayer : result (Z * pystr * pystr)) (elapsed_ms : Z) (kernel : pystr).

Definition replayed_key : pystr := u "replayed_pcr_sha256".
(** [hardware(binary)]; the two reads of the PCR are before and after the replay. *)
Definition hardware : result dict :=
  before ← read_pcr (reads 0);
  value ← inspect replayer;
  after ← read_pcr (reads 1);
  let replayed := default VNone (d_get value replayed_key) in
  let value := d_delete value replayed_key in
  parsed ← d_item value (u "parsed");
  if negb (truthy parsed) then Ok (d_set value (u "assessment") (VStr (assessment_name INDETERMINATE)))
  else
    let '(a, reason) := compare (VStr before) replayed (VStr after) in
    Ok (d_update value
         [(u "assessment", VStr (assessment_name a)); (u "reason", VStr reason);
          (u "pcr_stable", VBool (bool_decide (before = after))); (u "elapsed_ms", VInt elapsed_ms);
          (u "origin_os", VStr (u "linux")); (u "evidence_class", VStr (u "self_reported_lab"));
          (u "policy_evaluation", VStr (u "not_performed"));
          (u "source_format", VStr (u "sha256-bank little-endian ima-ng/ima-sig")); (u "kernel", VStr kernel)]).
End hardware.

End Checks.

(** * Properties of the bounded checks *)

Import Json Attestation Checks.

(** ** One command *)

(** A success is a command that ended by itself with code 0: neither a command
    that was stopped at its deadline nor one that did not start counts as one,
    and no failure of the system escapes. *)
Lemma run_success str_of p o : run str_of p = Ok o → exit_code o = 0 →
  started p = Ok tt ∧ communicated p = Ok (0, stdout o, stderr o).
Proof.
  unfold run, run_body. intros E Hz. destruct (started p) as [[]|e]; cbn in E.
  - destruct (communicated p) as [[[code out] err]|e]; cbn in E.
    + injection E as <-. cbn in *. by subst.
    + assert (Ho : ∀ r : result outcome, match r with Ok o => Ok o | Raise e => if is_OSError e then Ok (Outcome 127 [] (str_of e)) else Raise e end = Ok o →
        r = Ok o ∨ exit_code o = 127). { intros [x|e1]; [by intros [= ->]; left|]. destruct (is_OSError e1); [|done]. intros [= <-]. by right. }
      apply Ho in E as [E|E]; [|by rewrite E in Hz]. case_decide; [|done].
      apply result_bind_Ok in E as (x & _ & E). apply result_bind_Ok in E as ([out err] & _ & E).
      injection E as <-. done.
  - destruct (is_OSError e); [|done]. injection E as <-. done.
Qed.
Lemma run_no_OSError str_of p e : run str_of p = Raise e → is_OSError e = false.
Proof. unfold run. destruct (run_body p); [done|]. destruct (is_OSError e0) eqn:E; [done|]. by intros [= <-]. Qed.

(** ** The whole verification *)

Section verification.
Context (machine : command → process) (str_of : exn → pystr).

Definition all_commands : list command := versions ++ commands ++ ports.
(** The command ran and ended with the code it must have. *)
Definition good (c : command) : Prop := ∃ o, run str_of (machine c) = Ok o ∧ exit_code o = expected c.
(** What is recorded of the commands [l]. *)
Definition recorded (l : list command) (k : checks) : Prop :=
  k.*1 = l ∧ Forall (λ x, run str_of (machine x.1) = Ok x.2) k.

Lemma check_inv c l r l' : check machine str_of c l = (r, l') →
  match r with
  | Ok code => ∃ o, run str_of (machine c) = Ok o ∧ code = exit_code o ∧ l' = l ++ [(c, o)]
  | Raise e => run str_of (machine c) = Raise e ∧ l' = l
  end.
Proof.
  intros E. unfold check in E. apply st_bind_inv in E as (r1 & l1 & E1 & E). apply lift_inv in E1 as [Er ->].
  destruct r1 as [o|e]; [|by destruct E as [-> ->]]. injection E as <- <-. by exists o.
Qed.

(** The commands [ran] are the first of [l], and [new] is what they gave. *)
Definition began (l ran : list command) (new : checks) : Prop := (∃ left, l = ran ++ left) ∧ recorded ran new.
Lemma began_nil l : began l [] [].
Proof. split; [by exists l|by split]. Qed.
Lemma began_cons c o l ran new : run str_of (machine c) = Ok o → began l ran new → began (c :: l) (c :: ran) ((c, o) :: new).
Proof. intros Ho [[left ->] [<- Hf]]. split; [by exists left|]. split; [done|by constructor]. Qed.

Lemma check_all_spec l k r k' : check_all machine str_of l k = (r, k') →
  ∃ ran new, k' = k ++ new ∧ began l ran new ∧
    match r with Ok _ => ran = l | Raise e => ∃ c, c ∈ l ∧ run str_of (machine c) = Raise e end.
Proof.
  revert k. induction l as [|c l IH]; intros k E; cbn [check_all] in E.
  { injection E as <- <-. exists [], []. rewrite app_nil_r. split_and!; [done|apply began_nil|done]. }
  apply st_bind_inv in E as (r1 & k1 & E1 & E). apply check_inv in E1. destruct r1 as [code|e].
  - destruct E1 as (o & Ho & _ & ->). apply IH in E as (ran & new & -> & Hb & Hr).
    exists (c :: ran), ((c, o) :: new). rewrite <-app_assoc. split_and!; [done|by apply began_cons|].
    destruct r as [x|e]; [by subst|]. destruct Hr as (c1 & ? & ?). exists c1. split; [by right|done].
  - destruct E1 as [Hr ->]. destruct E as [-> ->]. exists [], []. rewrite app_nil_r.
    split_and!; [done|apply began_nil|]. exists c. split; [by left|done].
Qed.

Lemma check_until_spec l k r k' : (∀ c, c ∈ l → expected c = 0) → check_until machine str_of l k = (r, k') →
  ∃ ran new, k' = k ++ new ∧ began l ran new ∧
    match r with
    | Ok true => ran = l ∧ passed new = true
    | Ok false => passed new = false
    | Raise e => ∃ c, c ∈ l ∧ run str_of (machine c) = Raise e
    end.
Proof.
  intros Hz. revert k. induction l as [|c l IH]; intros k E; cbn [check_until] in E.
  { injection E as <- <-. exists [], []. rewrite app_nil_r. split_and!; try done. apply began_nil. }
  apply st_bind_inv in E as (r1 & k1 & E1 & E). apply check_inv in E1. destruct r1 as [code|e].
  - destruct E1 as (o & Ho & -> & ->). assert (Hc : expected c = 0) by (apply Hz; by left).
    assert (Hp : ∀ new, passed ((c, o) :: new) = (exit_code o =? 0) && passed new).
    { intros new. unfold passed, as_expected at 1. cbn. by rewrite Hc. }
    destruct (exit_code o =? 0) eqn:Ec; cbn [negb] in E.
    + apply IH in E as (ran & new & -> & Hb & Hr); [|intros c1 ?; apply Hz; by right].
      exists (c :: ran), ((c, o) :: new). rewrite <-app_assoc, Hp. split_and!; [done|by apply began_cons|].
      destruct r as [[]|e]; [by destruct Hr as [-> ->]|done|]. destruct Hr as (c1 & ? & ?). exists c1. split; [by right|done].
    + injection E as <- <-. exists [c], [(c, o)]. rewrite Hp. split_and!; [done|by apply began_cons, began_nil|done].
  - destruct E1 as [Hr ->]. destruct E as [-> ->]. exists [], []. rewrite app_nil_r.
    split_and!; [done|apply began_nil|]. exists c. split; [by left|done].
Qed.

Lemma passed_recorded l k : recorded l k → passed k = true → Forall good l.
Proof.
  intros [<- Hf] Hp. unfold passed in Hp. rewrite forallb_Forall in Hp. rewrite Forall_fmap.
  eapply Forall_impl; [apply Forall_and; split; [exact Hf|exact Hp]|]. intros [c o] [Ho Hx]. exists o. unfold as_expected in Hx.
  by bools.
Qed.
Lemma recorded_passed l k : recorded l k → Forall good l → passed k = true.
Proof.
  intros [<- Hf] Hg. unfold passed. apply forallb_Forall. rewrite Forall_fmap in Hg.
  eapply Forall_impl; [apply Forall_and; split; [exact Hf|exact Hg]|]. intros [c o] [Ho (o' & Ho' & Hx)].
  unfold as_expected. cbn in *. assert (o = o') as -> by congruence. by apply Z.eqb_eq.
Qed.
Lemma recorded_app l1 k1 l2 k2 : recorded l1 k1 → recorded l2 k2 → recorded (l1 ++ l2) (k1 ++ k2).
Proof. intros [<- H1] [<- H2]. split; [by rewrite fmap_app|by apply Forall_app]. Qed.
Lemma began_more l1 k1 l2 ran k2 : recorded l1 k1 → began l2 ran k2 → began (l1 ++ l2) (l1 ++ ran) (k1 ++ k2).
Proof. intros H1 [[left ->] H2]. split; [exists left; by rewrite app_assoc|by apply recorded_app]. Qed.
Lemma began_here l1 l2 ran new : began l1 ran new → began (l1 ++ l2) ran new.
Proof. intros [[left ->] H]. split; [exists (left ++ l2); by rewrite app_assoc|done]. Qed.

Lemma verify_body_spec r k : verify_body machine str_of [] = (r, k) →
  ∃ ran, began all_commands ran k ∧
    match r with
    | Ok _ => passed k = true → ran = all_commands
    | Raise e => ∃ c, c ∈ all_commands ∧ run str_of (machine c) = Raise e
    end.
Proof.
  intros E. unfold verify_body in E. apply st_bind_inv in E as (r1 & k1 & E1 & E).
  apply check_until_spec in E1 as (ran1 & new1 & -> & Hb1 & H1);
    [|intros c; unfold versions; rewrite list_elem_of_fmap; by intros (t & -> & _)].
  destruct r1 as [[]|e]; cbn [negb app] in E.
  2: { injection E as <- <-. exists ran1. split; [by apply began_here|]. by rewrite H1. }
  2: { destruct E as [-> ->]. exists ran1. split; [by apply began_here|]. destruct H1 as (c & Hc & ?). exists c. split; [apply elem_of_app; by left|done]. }
  destruct H1 as [-> Hp1]. apply st_bind_inv in E as (r2 & k2 & E2 & E).
  apply check_until_spec in E2 as (ran2 & new2 & -> & Hb2 & H2);
    [|intros c Hc; unfold commands in Hc; repeat (apply elem_of_cons in Hc as [->|Hc]; [done|]); by apply elem_of_nil in Hc].
  assert (Hb : began all_commands (versions ++ ran2) (new1 ++ new2)) by by apply began_more; [apply Hb1|apply began_here].
  destruct r2 as [[]|e]; cbn [negb] in E.
  2: { injection E as <- <-. exists (versions ++ ran2). split; [done|]. unfold passed in *. by rewrite forallb_app, H2, andb_false_r. }
  2: { destruct E as [-> ->]. exists (versions ++ ran2). split; [done|]. destruct H2 as (c & Hc & ?). exists c. split; [apply elem_of_app; right; apply elem_of_app; by left|done]. }
  destruct H2 as [-> Hp2]. apply check_all_spec in E as (ran3 & new3 & -> & Hb3 & H3).
  exists (versions ++ commands ++ ran3). split.
  - rewrite <-app_assoc. apply began_more; [apply Hb1|]. apply began_more; [apply Hb2|done].
  - destruct r as [x|e]; [by subst|]. destruct H3 as (c & Hc & ?). exists c. split; [apply elem_of_app; right; apply elem_of_app; by right|done].
Qed.

(** The verdict on the build: the exit code is 0 exactly when all twelve commands
    did what they must - the versions, the build and its tests succeed, and the
    server refuses all five ports -; what was checked is a beginning of the list,
    all of it after a success, and every outcome recorded is that of its command;
    the only exceptions that escape are not failures of the system. *)
Theorem build_verdict r k : verify_build machine str_of = (r, k) →
  (∃ ran, began all_commands ran k ∧ (r = Ok 0 → ran = all_commands)) ∧
  (r = Ok 0 ↔ Forall good all_commands) ∧
  (∀ e, r = Raise e → is_OSError e = false ∧ ∃ c, run str_of (machine c) = Raise e).
Proof.
  intros E. unfold verify_build in E. apply st_bind_inv in E as (rb & kb & Eb & E).
  apply verify_body_spec in Eb as (ran & Hb & Hr).
  assert (Hk : k = kb ∧ r = match rb with Ok _ => Ok (if passed kb then 0 else 1) | Raise e => Raise e end).
  { destruct rb as [x|e]; [|by destruct E as [-> ->]]. by injection E as <- <-. }
  destruct Hk as [-> ->]. clear E. destruct rb as [x|e].
  - assert (Hok : @Ok Z (if passed kb then 0 else 1) = Ok 0 ↔ passed kb = true) by by destruct (passed kb).
    split; [exists ran; split; [done|]; by rewrite Hok|]. split; [|done]. rewrite Hok. split.
    + intros Hp. rewrite <-(Hr Hp). by apply passed_recorded with kb; [apply Hb|].
    + intros Hg. destruct Hb as [[left Hl] Hrec]. apply recorded_passed with ran; [done|]. rewrite Hl in Hg. by apply Forall_app in Hg as [? _].
  - split; [by exists ran|]. split.
    + destruct Hr as (c & Hc & Hraise). split; [done|]. intros Hg. rewrite Forall_forall in Hg.
      destruct (Hg c Hc) as (o & Ho & _). congruence.
    + intros e' [= <-]. destruct Hr as (c & _ & Hc). split; [by eapply run_no_OSError|by exists c].
Qed.
End verification.

(** ** The measurement log *)

Lemma app_inj_len {A} (x y s t : list A) : length x = length y → x ++ s = y ++ t → x = y ∧ s = t.
Proof. intros Hl E. by apply app_inj_1. Qed.
Lemma field_inv value f : field value = Ok f → f = le_encode 4 (len value) ++ value ∧ 0 <= len value < 256 ^ Z.of_nat 4.
Proof.
  unfold field. intros E. apply result_bind_Ok in E as (x & Hg & E). apply raise_if_Ok in Hg. injection E as <-. bools.
  split; [done|]. pose proof (len_nonneg value). change (256 ^ Z.of_nat 4) with 4294967296. lia.
Qed.
Lemma field_unambiguous v1 v2 f1 f2 s t : field v1 = Ok f1 → field v2 = Ok f2 → f1 ++ s = f2 ++ t → v1 = v2 ∧ s = t.
Proof.
  intros [-> H1]%field_inv [-> H2]%field_inv E. rewrite <-!app_assoc in E.
  apply app_inj_len in E as [El E]; [|by rewrite !length_le_encode]. apply le_encode_inj in El; [|done|done].
  apply app_inj_len in E; [done|]. unfold len in El. lia.
Qed.

(** An entry of the log carries the digest of its data, and nothing in a log can
    be read in two ways: two entries followed by anything that are the same bytes
    are the same entry, followed by the same. *)
Theorem records_unambiguous sub1 n1 d1 p1 r1 g1 sub2 n2 d2 p2 r2 g2 s t :
  record sub1 n1 d1 p1 = Ok (r1, g1) → record sub2 n2 d2 p2 = Ok (r2, g2) → r1 ++ s = r2 ++ t →
  p1 = p2 ∧ g1 = g2 ∧ n1 = n2 ∧ s = t ∧
  ∃ data, g1 = sha256 data ∧ (d1 = None ∧ default_data sub1 n1 = Ok data ∨ d1 = Some data).
Proof.
  assert (Hinv : ∀ sub n d p r g, record sub n d p = Ok (r, g) → ∃ data fn fd,
    (d = None ∧ default_data sub n = Ok data ∨ d = Some data) ∧ 0 <= p < 256 ^ Z.of_nat 4 ∧ g = sha256 data ∧
    field n = Ok fn ∧ field data = Ok fd ∧ r = le_encode 4 p ++ g ++ fn ++ fd).
  { intros sub n d p r g E. unfold record in E. apply result_bind_Ok in E as (data & Hd & E).
    apply result_bind_Ok in E as (x & Hg & E). apply raise_if_Ok in Hg.
    apply result_bind_Ok in E as (fn & Hn & E). apply result_bind_Ok in E as (fd & Hf & E). injection E as <- <-. bools.
    exists data, fn, fd. split_and!; try done; [|change (256 ^ Z.of_nat 4) with 4294967296; lia].
    destruct d; [right; by injection Hd as ->|by left]. }
  intros (data1 & fn1 & fd1 & H1 & Hp1 & -> & Hn1 & Hf1 & ->)%Hinv (data2 & fn2 & fd2 & _ & Hp2 & -> & Hn2 & Hf2 & ->)%Hinv E.
  rewrite <-!app_assoc in E. apply app_inj_len in E as [Ep E]; [|by rewrite !length_le_encode].
  apply app_inj_len in E as [Eg E]; [|by rewrite !length_sha256].
  apply (field_unambiguous _ _ _ _ _ _ Hn1 Hn2) in E as [-> E]. apply (field_unambiguous _ _ _ _ _ _ Hf1 Hf2) in E as [Ed ->].
  split_and!; [by eapply le_encode_inj in Ep|done|done|done|]. by exists data1.
Qed.

Lemma py_eq_hex s v : py_eq (VStr s) v = true ↔ v = VStr s.
Proof. destruct v; cbn; try done. rewrite bool_decide_eq_true. split; [by intros ->|by intros [= ->]]. Qed.

Section hardware.
Context (reads : nat → result (Z * result bytes)) (replayer : result (Z * pystr * pystr)) (elapsed_ms : Z) (kernel : pystr).

Definition assessed (d : dict) (a : assessment) : Prop := d_get d (u "assessment") = Some (VStr (assessment_name a)).

Lemma inspect_inv d : inspect replayer = Ok d → ∃ code out err parsed,
  replayer = Ok (code, out, err) ∧ code ∈ [0; 1] ∧ loads plain_hooks out = Ok (VDict d) ∧
  d_get d (u "parsed") = Some parsed ∧ py_eq parsed (VBool (code =? 0)) = true.
Proof.
  unfold inspect. intros E. apply result_bind_Ok in E as ([[code out] err] & Hr & E).
  apply result_bind_Ok in E as (x1 & Hc & E). apply raise_if_Ok in Hc. apply result_bind_Ok in E as (x2 & Hs & E).
  apply result_bind_Ok in E as (v & Hv & E). apply result_bind_Ok in E as (parsed & Hp & E).
  apply result_bind_Ok in E as (wrong & Hw & E). apply result_bind_Ok in E as (x3 & Hg & E). apply raise_if_Ok in Hg. subst.
  destruct v; try done. injection E as ->. unfold v_item, d_item in Hp. destruct (d_get d (u "parsed")) as [q|] eqn:Eq; [|done].
  injection Hp as ->. exists code, out, err, parsed. bools. split_and!; try done.
  destruct (py_eq parsed (VBool (code =? 0))); [done|]. by injection Hw.
Qed.

Lemma truthy_parsed v x : py_eq v (VBool x) = true → truthy v = x.
Proof. destruct v; cbn; try done; destruct x; cbn; intros H; try (by destruct x0); bools; subst; done. Qed.

Lemma read_pcr_inv ran s : read_pcr ran = Ok s → ∃ data, ran = Ok (0, Ok data) ∧ len data = 32 ∧ s = hex_of data.
Proof.
  unfold read_pcr. intros E. apply result_bind_Ok in E as ([code file] & -> & E). apply result_bind_Ok in E as (x1 & Hc & E).
  apply raise_if_Ok in Hc. apply result_bind_Ok in E as (data & -> & E). apply result_bind_Ok in E as (x2 & Hl & E).
  apply raise_if_Ok in Hl. bools. subst. injection E as <-. by exists data.
Qed.

(** The assessment of this machine.  CONSISTENT means that the log was read to
    its end, that its replay is the PCR, and that the PCR was the same before and
    after; DENY that the PCR stood still and the replay is another value;
    everything else is INDETERMINATE.  The replayed value itself is not in the
    report. *)
Theorem local_assessment d : hardware reads replayer elapsed_ms kernel = Ok d →
  ∃ before after code out err value,
    reads 0%nat = Ok (0, Ok before) ∧ reads 1%nat = Ok (0, Ok after) ∧ len before = 32 ∧ len after = 32 ∧
    replayer = Ok (code, out, err) ∧ loads plain_hooks out = Ok (VDict value) ∧
    let replayed := default VNone (d_get value replayed_key) in
    (assessed d CONSISTENT ↔ code = 0 ∧ before = after ∧ replayed = VStr (hex_of before)) ∧
    (assessed d DENY ↔ code = 0 ∧ before = after ∧ replayed ≠ VStr (hex_of before)) ∧
    (assessed d INDETERMINATE ↔ code ≠ 0 ∨ before ≠ after) ∧
    d_get d replayed_key = None.
Proof.
  unfold hardware. intros E. apply result_bind_Ok in E as (sb & Hb & E). apply result_bind_Ok in E as (value & Hi & E).
  apply result_bind_Ok in E as (sa & Ha & E). apply result_bind_Ok in E as (parsed & Hp & E).
  apply read_pcr_inv in Hb as (before & Hb & Hlb & ->). apply read_pcr_inv in Ha as (after & Ha & Hla & ->).
  apply inspect_inv in Hi as (code & out & err & parsed' & Hr & Hc & Hv & Hp' & Heq).
  assert (parsed' = parsed) as ->. { unfold d_item in Hp. rewrite d_get_delete, decide_False, Hp' in Hp by done. by injection Hp. }
  exists before, after, code, out, err, value. do 6 (split; [done|]). cbv zeta.
  assert (Hname : ∀ a a', assessment_name a = assessment_name a' ↔ a = a') by (intros [] []; split; done).
  rewrite (truthy_parsed _ _ Heq) in E.
  set (replayed := default VNone (d_get value replayed_key)) in *.
  assert (Hd : d_get d replayed_key = None ∧ ∀ a, assessed d a ↔ a = if negb (code =? 0) then INDETERMINATE
      else (compare (VStr (hex_of before)) replayed (VStr (hex_of after))).1).
  { unfold assessed. destruct (code =? 0); cbn [negb] in *.
    - destruct (compare _ _ _) as [a0 reason]. injection E as <-. split.
      + rewrite d_get_update_None by done. by rewrite d_get_delete, decide_True.
      + intros a. rewrite (d_get_update_Some _ _ _ (VStr (assessment_name a0))); [|apply (bool_decide_unpack _); by vm_compute|done].
        cbn. rewrite <-Hname. split; [by intros [= ->]|by intros ->].
    - injection E as <-. split; [by rewrite d_get_set_ne, d_get_delete, decide_True by done|].
      intros a. rewrite d_get_set_eq, <-Hname. split; [by intros [= ->]|by intros ->]. }
  destruct Hd as [Hnone Has]. split; [|split; [|split; [|done]]].
  all: rewrite Has; unfold compare; clear -Hc.
  all: assert (Hhex : py_eq (VStr (hex_of before)) (VStr (hex_of after)) = bool_decide (before = after)).
  all: try (cbn; apply bool_decide_ext; split; [intros He; by apply (f_equal from_hex) in He; rewrite !from_hex_hex_of in He|by intros ->]).
  all: rewrite Hhex; pose proof (py_eq_hex (hex_of before) replayed) as Hre; destruct (py_eq (VStr (hex_of before)) replayed).
  all: destruct (Z.eqb_spec code 0); cbn; destruct (decide (before = after)) as [He|He];
    rewrite ?(bool_decide_eq_true_2 _ He), ?(bool_decide_eq_false_2 _ He); cbn; naive_solver.
Qed.
End hardware.

(** ** Concrete checks *)

(** A machine where [ctest] hangs: it is stopped, and nothing after it runs. *)
Definition hanging (c : command) : process :=
  match c with
  | Tests => Process (Ok tt) (Raise timeout_expired) (Raise lookup_error) (Ok ([], []))
  | _ => Process (Ok tt) (Ok (0, [], [])) (Ok tt) (Ok ([], []))
  end.
Definition hung : result Z * checks := Eval vm_compute in verify_build hanging (λ _, []).
Lemma hung_eq : verify_build hanging (λ _, []) = (hung.1, hung.2).
Proof. vm_compute. reflexivity. Qed.
Lemma build_verdict_witness :
  (hung.1 = Ok 1 ∧ length hung.2 = 6%nat ∧ map exit_code (snd <$> drop 5 hung.2) = [124]) ∧
  (hung.1 = Ok 0 ↔ Forall (good hanging (λ _, [])) all_commands).
Proof.
  split; [by split_and!|].
  exact (proj1 (proj2 (build_verdict hanging (λ _, []) hung.1 hung.2 hung_eq))).
Defined.
Example refused_ports : (verify_build (λ c, Process (Ok tt) (Ok (expected c, [], [])) (Ok tt) (Ok ([], []))) (λ _, [])).1 = Ok 0.
Proof. reflexivity. Qed.

Definition sample_pcr : bytes := replicate 32 x5a.
Definition sample_reads (n : nat) : result (Z * result bytes) := Ok (0, Ok sample_pcr).
Definition sample_replay : result (Z * pystr * pystr) :=
  Ok (0, dumps (VDict [(u "parsed", VBool true); (u "attestation_verified", VBool false); (u "records", VInt 2);
                       (replayed_key, VStr (hex_of sample_pcr))]), []).
Definition sample_report : dict :=
  Eval vm_compute in match hardware sample_reads sample_replay 12 (u "6.1") with Ok d => d | Raise _ => [] end.
Lemma local_report_eq : hardware sample_reads sample_replay 12 (u "6.1") = Ok sample_report.
Proof. vm_compute. reflexivity. Qed.
Lemma local_assessment_witness :
  assessed sample_report CONSISTENT ∧
  ∃ before after code out err value,
    sample_reads 0%nat = Ok (0, Ok before) ∧ sample_reads 1%nat = Ok (0, Ok after) ∧ len before = 32 ∧ len after = 32 ∧
    sample_replay = Ok (code, out, err) ∧ loads plain_hooks out = Ok (VDict value) ∧
    let replayed := default VNone (d_get value replayed_key) in
    (assessed sample_report CONSISTENT ↔ code = 0 ∧ before = after ∧ replayed = VStr (hex_of before)) ∧
    (assessed sample_report DENY ↔ code = 0 ∧ before = after ∧ replayed ≠ VStr (hex_of before)) ∧
    (assessed sample_report INDETERMINATE ↔ code ≠ 0 ∨ before ≠ after) ∧
    d_get sample_report replayed_key = None.
Proof.
  split; [vm_compute; reflexivity|].
  exact (local_assessment sample_reads sample_replay 12 (u "6.1") sample_report local_report_eq).
Defined.
