(* ===== verification/Integration.v ===== *)
(** * The run of the integration checks ([src/scripts/verificar-integracion.py])

    The supervision of the servers and adapters under test, with the record kept of
    each, and [main]: the builds, the blocks of cases over their servers, the
    modules of [src/tests] with theirs, and the verdict.  The commands, the
    processes and the ports are parameters; what the datagrams of a case lead to is
    one too, and [LabSuite] says what some lead to on the policy server. *)

From S2P Require Import Prelude Bytes Json JsonFacts JsonCanon Dict Attestation Checks Text LabContract LabServer LabServerTheorems LabAdapter LabSuite.
Import Json.

Module Integration.

(** ** The evidence *)

(** The record of a program. *)
Record entry := Entry {
  command : list bytes;
  forced_kill : bool;
  exit_before_cleanup : option (option Z);    (* absent until the cleanup *)
  exit_code : option Z;                       (* absent until it has ended *)
  stdout : list pystr }.                      (* its lines *)
Inductive event := Started (i : nat) | Terminated (i : nat) | Killed (i : nat) | Reaped (i : nat) (code : Z).
Record evidence := Evidence {
  servers : list entry;
  checks : list Checks.outcome;
  cases : list string;
  events : list event;
  via_adapter : bool;
  passed : bool }.
Abbreviation run := (st evidence).

Definition set_servers l e := Evidence l (checks e) (cases e) (events e) (via_adapter e) (passed e).
Definition emit (x : event) : run unit := modify (λ e, Evidence (servers e) (checks e) (cases e) (events e ++ [x]) (via_adapter e) (passed e)).
Definition case (name : string) : run unit := modify (λ e, Evidence (servers e) (checks e) (cases e ++ [name]) (events e) (via_adapter e) (passed e)).
Definition set_via (x : bool) : run unit := modify (λ e, Evidence (servers e) (checks e) (cases e) (events e) x (passed e)).
Definition update (i : nat) (f : entry → entry) : run unit := modify (λ e, set_servers (alter f i (servers e)) e).
Definition require (condition : bool) (message : string) : result unit := raise_if (negb condition) (RuntimeError message).

(** What the [i]th program does. *)
Class Machine := {
  available_port : nat → result Z;
  popen : nat → result unit;
  look : nat → nat → pystr * option Z * bool;    (* each turn: first line of the log, [poll()], deadline passed *)
  at_end : nat → option Z;                       (* [poll()] after the tests *)
  at_cleanup : nat → option Z;
  still : nat → option Z;                        (* [poll()] before [terminate()] *)
  first_wait : nat → result Z;
  second_wait : nat → result Z;
  output : nat → list pystr }.

Section run.
Context `{Machine}.

(** ** [program] *)

Definition is_json_line (first : pystr) : bool := bool_decide (last first = Some 10) && bool_decide (head first = Some 123).
Definition boot_event (first : pystr) (port : Z) : result unit :=
  boot ← loads Attestation.plain_hooks first;
  ev ← v_get boot (u "ev");
  ok ← match ev with
       | Some ev => if py_eq ev (VStr (u "boot")) then p ← v_get boot (u "port"); Ok (match p with Some p => py_eq p (VInt port) | None => false end)
                    else Ok false
       | None => Ok false
       end;
  require ok "evento de arranque inesperado".
Fixpoint boot_loop (fuel i turn : nat) (port : Z) : result unit :=
  match fuel with
  | O => Raise out_of_fuel
  | S fuel =>
      let '(first, poll, late) := look i turn in
      if is_json_line first then boot_event first port
      else
        _ ← require (bool_decide (poll = None)) "proceso termino durante arranque";
        _ ← require (negb late) "timeout esperando arranque";
        boot_loop fuel i (S turn) port
  end.
(** Three seconds hold at most 300 pauses of 10 ms. *)
Definition BOOT_FUEL : nat := 302.

Definition clean_up (i : nat) : run unit :=
  _ ← update i (λ r, Entry (command r) (forced_kill r) (Some (at_cleanup i)) (exit_code r) (stdout r));
  _ ← match still i with None => emit (Terminated i) | Some _ => mret tt end;
  code ← match first_wait i with
         | Ok code => mret code
         | Raise e =>
             if decide (e = Checks.timeout_expired) then
               _ ← update i (λ r, Entry (command r) true (exit_before_cleanup r) (exit_code r) (stdout r));
               _ ← emit (Killed i); lift (second_wait i)
             else raise e
         end;
  _ ← emit (Reaped i code);
  update i (λ r, Entry (command r) (forced_kill r) (exit_before_cleanup r) (Some code) (output i)).
Definition program {A} (words : list bytes) (port : Z) (body : run A) : run A :=
  i ← gets (λ e, length (servers e));
  _ ← modify (λ e, set_servers (servers e ++ [Entry words false None None []]) e);
  _ ← lift (popen i);
  _ ← emit (Started i);
  try_finally
    (_ ← lift (boot_loop BOOT_FUEL i 0 port); a ← body;
     _ ← lift (require (bool_decide (at_end i = None)) "proceso termino durante las pruebas"); mret a)
    (clean_up i).

(** ** [adapter] and [server] *)

(** [str(z)] *)
Definition str (z : Z) : bytes := ascii_bytes (dump_int z).
Definition loopback (port : Z) : bytes := b "127.0.0.1:" ++ str port.
Definition adapter_command (port upstream : Z) (options : list bytes) : list bytes :=
  [b "--listen"; loopback port; b "--upstream"; loopback upstream; b "-v"] ++ options.
Definition server_command (port timeout_ms max_clients : Z) : list bytes :=
  [b "--host"; b "127.0.0.1"; b "--port"; str port; b "--timeout-ms"; str timeout_ms; b "--max"; str max_clients; b "-v"].
Definition reserve : run Z := i ← gets (λ e, length (servers e)); lift (available_port i).
(** Their bodies are given the port to speak to. *)
Definition adapter {A} (upstream : Z) (options : list bytes) (given : option Z) (body : Z → run A) : run A :=
  port ← match given with Some port => mret port | None => reserve end;
  program (adapter_command port upstream options) port (body port).
Definition server {A} (max_clients timeout_ms : Z) (body : Z → run A) : run A :=
  port ← reserve;
  program (server_command port timeout_ms max_clients) port
    (via ← gets via_adapter; if (via : bool) then adapter port [] None body else body port).

(** ** [main] *)

Inductive mode := HelloMode | SessionsMode | Direct | ViaAdapter.
#[global] Instance mode_eq_dec : EqDecision mode.
Proof. solve_decision. Defined.

Definition append (o : Checks.outcome) : run unit :=
  modify (λ e, Evidence (servers e) (checks e ++ [o]) (cases e) (events e) (via_adapter e) (passed e)).
(** One build command, within its minute. *)
Definition build (str_of : exn → pystr) (p : Checks.process) : run unit :=
  o ← lift (Checks.run str_of p);
  _ ← append o;
  lift (require (Checks.exit_code o =? 0) "fallo build/CTest").
Fixpoint builds (str_of : exn → pystr) (l : list Checks.process) : run unit :=
  match l with [] => mret tt | p :: l => _ ← build str_of p; builds str_of l end.
(** What a block of cases appends to [cases], or the exception that ends it. *)
Fixpoint record_cases (names : list string) : run unit :=
  match names with [] => mret tt | x :: names => _ ← case x; record_cases names end.
Definition block (gives : result (list string)) : run unit := names ← lift gives; record_cases names.
Fixpoint all_of (l : list (run unit)) : run unit := match l with [] => mret tt | m :: l => _ ← m; all_of l end.

Definition good_record (r : entry) : bool :=
  bool_decide (exit_before_cleanup r = Some None) && negb (forced_kill r) && bool_decide (exit_code r = Some 0).
Fixpoint json_lines (lines : list pystr) : result unit :=
  match lines with [] => Ok tt | x :: lines => _ ← loads Attestation.plain_hooks x; json_lines lines end.
Fixpoint check_records (l : list entry) : result unit :=
  match l with
  | [] => Ok tt
  | r :: l => _ ← require (good_record r) "salida del servidor inesperada"; _ ← json_lines (stdout r); check_records l
  end.

(** What the datagrams of the cases lead to: of the handshake, of the sessions (each
    block on a server with the limits below), of the entropy and of the modules of
    [src/tests], by name; what a command of those modules does, by the case it is
    for and its words; and whether the test's own responder ended well. *)
Record blocks := Blocks {
  hello_block : result (list string);
  session_blocks : list (result (list string));
  entropy_block : result (list string);
  network : string → result unit;
  native : string → list bytes → Checks.process;
  responder : string → result Z;
  responded : string → bool }.
Definition session_limits : list (Z * Z) := [(3, 5000); (1, 5000); (1, 5000); (1, 50)].

Context (str_of : exn → pystr) (commands : list Checks.process) (fault_command : Checks.process) (bs : blocks).

(** ** The modules of [src/tests] *)

Definition exchanges (name : string) : run unit := _ ← lift (network bs name); case name.
Definition execute (name : string) (words : list bytes) : run Checks.outcome := lift (Checks.run str_of (native bs name words)).
Definition demand (ok : result bool) (message : string) : run unit := x ← lift ok; lift (require x message).
(** [json.loads(result['stdout'])[key]] *)
Definition says (o : Checks.outcome) (key : string) : result value :=
  v ← loads Attestation.plain_hooks (Checks.stdout o); v_item v (u key).
Definition client_ok (o : Checks.outcome) : result bool :=
  if Checks.exit_code o =? 0 then v ← says o "ok"; Ok (Attestation.truthy v) else Ok false.
Definition client_failed (o : Checks.outcome) : result bool :=
  if Checks.exit_code o =? 1 then v ← says o "ok"; Ok (match v with VBool false => true | _ => false end) else Ok false.
Definition refused (o : Checks.outcome) : result bool := Ok (Checks.exit_code o =? 2).

(** *** [transport_cases.py] *)

Definition protocol_cases : list string :=
  ["binary_nonce_duplicate_and_hello_retransmission"; "live_sequence_history"; "stale_close_and_sequence_exhaustion";
   "v1_rejection_oversize_and_129_malformed_datagrams"]%string.
Definition expiry_cases (invalid : bool) : list string :=
  if invalid then ["invalid_activity_does_not_refresh"%string]
  else ["accepted_ping_refreshes_deadline"; "expiry_with_continuous_other_peer_traffic"]%string.
Definition client_words (port : Z) : list bytes :=
  [b "lab_client"; b "--host"; b "127.0.0.1"; b "--port"; str port; b "--count"; b "3"; b "--name"; b "demo"].
Definition cli_inputs : list (list bytes) :=
  concat ((λ x : string * string * list string, (λ value, [b x.1.1; b x.1.2; b value]) <$> x.2) <$>
    [("lab_client", "--port", [String.EmptyString; "-1"; "+1"; "0"; "65536"; "12x"; "4294967296"]);
     ("lab_server", "--timeout-ms", [String.EmptyString; "-1"; "+1"; "0"; "60001"; "12x"]);
     ("lab_server", "--max", [String.EmptyString; "-1"; "+1"; "0"; "33"; "12x"]);
     ("lab_adapter", "--max-clients", [String.EmptyString; "-1"; "+1"; "0"; "33"; "12x"])])%string.
Definition fault_cases : list string :=
  ["bad-magic"; "bad-version"; "bad-kind"; "bad-payload"; "bad-len"; "bad-session"; "dup"; "replay"; "trunc"; "bad-seq"; "stale"; "too-big"; "timeout"]%string.
Definition fault_words (port : Z) (case : string) : list bytes := [b "lab_fault"; b "--port"; str port; b "--case"; b case].
Definition responder_words (port : Z) : list bytes :=
  [b "lab_client"; b "--port"; str port; b "--count"; b "2"; b "--timeout-ms"; b "200"].
Definition responders : list string := ["ack_nonce"; "old_pong"; "oversize"]%string.
Definition native_case : string := "native_client_roundtrip_and_close".
Definition cli_case : string := "25_invalid_cli_inputs".
Definition faults_case : string := "13_native_fault_cases".
Definition replies_case : string := "native_client_rejects_wrong_ack_late_pong_and_oversize".

Definition transport_cases : run unit :=
  _ ← lift (network bs "sockets");
  _ ← server 32 5000 (λ _, all_of (exchanges <$> protocol_cases));
  _ ← all_of ((λ invalid, server 32 200 (λ _, all_of (exchanges <$> expiry_cases invalid))) <$> [false; true]);
  _ ← server 32 5000 (λ port,
    o ← execute native_case (client_words port); _ ← append o; _ ← demand (client_ok o) "cliente C fallo"; case native_case);
  _ ← all_of ((λ words, o ← execute cli_case words; demand (refused o) "CLI no rechazada") <$> cli_inputs);
  _ ← case cli_case;
  _ ← server 32 250 (λ port,
    _ ← all_of ((λ x, o ← execute faults_case (fault_words port x); demand (client_ok o) "fault") <$> fault_cases); case faults_case);
  _ ← all_of ((λ fault,
    port ← lift (responder bs fault);
    o ← execute fault (responder_words port);
    demand (if responded bs fault then client_failed o else Ok false) "client accepted unrelated reply") <$> responders);
  case replies_case.

(** *** [policy_cases.py] *)

Definition evidence_cases : list string :=
  ["evidence_rejections_preserve_request_and_sequence"; "expired_request_replaced_without_sequence_consumption"]%string.
Definition capabilities : list string := ["file"; "proc"; "sync"]%string.
Definition capability_case (op : string) : string := "native_evidence_" +:+ op.
Definition capability_words (port : Z) (op : string) : list bytes :=
  [b "lab_client"; b "--port"; str port; b "--op"; b op; b "--count"; b "1"; b "--delay"; b "10"].
Definition two_lines (o : Checks.outcome) : result bool :=
  l ← mapM (loads Attestation.plain_hooks) (Text.lines [] (Checks.stdout o));
  match l with
  | [x; y] =>
      if negb (Checks.exit_code o =? 0) then Ok false else
      status ← v_item x (u "status");
      if negb (py_eq status (VInt 2)) then Ok false else
      os ← v_item x (u "origin_os");
      if negb (py_eq os (VStr (u "linux"))) then Ok false else
      ok ← v_item y (u "ok"); Ok (Attestation.truthy ok)
  | _ => Ok false
  end.
Definition policy_cases : run unit :=
  server 32 5000 (λ port,
    _ ← all_of (exchanges <$> evidence_cases);
    all_of ((λ op, o ← execute (capability_case op) (capability_words port op);
                   _ ← demand (two_lines o) "native capability failed"; _ ← append o; case (capability_case op)) <$> capabilities)).

(** *** [adapter_cases.py] *)

Definition faulty_routes : list (list bytes * string) :=
  [([b "--drop-every"; b "2"], "loss_hello_retry"); ([b "--delay-ms"; b "100"], "bounded_delay"); ([b "--replay-last"], "duplicate_ping")]%string.
Definition bounded_routes : list (list bytes * string) :=
  [([b "--max-clients"; b "1"], "40_immediate_route_reuses_after_confirmed_close");
   ([b "--max-clients"; b "1"; b "--idle-ms"; b "150"], "route_saturation_and_idle_reuse");
   ([b "--delay-ms"; b "500"], "bounded_queue_saturation")]%string.
(** An adapter stopped and another on its port: its options, and the case of each. *)
Definition restarts : list (list bytes * string * string) :=
  [([b "--delay-ms"; b "150"], "queued_old_request", "queued_old_request_discarded_on_restart"); ([], "old_session", "restart_invalidates_session")]%string.
Definition loss_words (port : Z) : list bytes := [b "lab_client"; b "--port"; str port; b "--timeout-ms"; b "100"].
Definition loss_case : string := "native_client_bounded_loss".
Definition behind_adapters (upstream : Z) : run unit :=
  _ ← all_of ((λ x, _ ← adapter upstream x.1 None (λ _, lift (network bs x.2)); case x.2) <$> faulty_routes);
  _ ← all_of ((λ x, adapter upstream x.1 None (λ _, exchanges x.2)) <$> bounded_routes);
  _ ← all_of ((λ x,
    old_peer ← adapter upstream x.1.1 None (λ peer, _ ← lift (network bs x.1.2); mret peer);
    _ ← adapter upstream [] (Some old_peer) (λ _, lift (network bs x.2)); case x.2) <$> restarts);
  adapter upstream [b "--drop-every"; b "1"] None (λ peer,
    o ← execute loss_case (loss_words peer); _ ← demand (client_failed o) "client loss timeout"; _ ← append o; case loss_case).
Definition adapter_cases : run unit :=
  _ ← set_via false;
  try_finally
    (upstream ← server 32 2000 (λ upstream, _ ← behind_adapters upstream; mret upstream);
     adapter upstream [] None (λ _, exchanges "upstream_unavailable"))
    (set_via true).

(** ** The builds, the blocks and the inspection of the records *)

Definition run_blocks (m : mode) : run unit :=
  let via := bool_decide (m = ViaAdapter) in
  _ ← set_via via;
  _ ← builds str_of commands;
  _ ← server 32 5000 (λ _, block (hello_block bs));
  _ ← (if bool_decide (m = HelloMode) then mret tt
       else all_of (zip_with (λ limits gives, server limits.1 limits.2 (λ _, block gives)) session_limits (session_blocks bs)));
  _ ← (if bool_decide (m ∈ [Direct; ViaAdapter]) then
         _ ← transport_cases; _ ← policy_cases; if via then adapter_cases else mret tt
       else mret tt);
  _ ← build str_of fault_command;
  server 32 5000 (λ _, block (entropy_block bs)).
Definition conclude : run unit :=
  l ← gets servers;
  _ ← lift (check_records l);
  modify (λ e, Evidence (servers e) (checks e) (cases e) (events e) (via_adapter e) true).
Definition main_body (m : mode) : run unit := _ ← run_blocks m; conclude.
Definition reported (e : exn) : bool :=
  is_OSError e || is_RuntimeError e || is_ValueError e || bool_decide (e = Checks.timeout_expired).
(** The exit code. *)
Definition main (m : mode) : run Z :=
  _ ← try_except (main_body m) (λ e, if reported e then Some (mret tt) else None);
  ok ← gets passed; mret (if (ok : bool) then 0 else 1).
End run.
End Integration.
Import Integration.

(** ** The verdict *)

Section verdict.
Context `{Machine}.

(** Every program can be ended: it answers [terminate] within two seconds, or it is
    killed. *)
Definition killable : Prop := ∀ i,
  is_Ok (first_wait i) = true ∨ first_wait i = Raise Checks.timeout_expired ∧ is_Ok (second_wait i) = true.
(** What a computation leaves behind: the programs it started have ended. *)
Definition ended (new : list event) : Prop := ∀ i, Started i ∈ new → ∃ code, Reaped i code ∈ new.
Definition tidy {A} (m : run A) : Prop := ∀ e r e', m e = (r, e') →
  passed e' = passed e ∧ ∃ new, events e' = events e ++ new ∧ ended new.

Lemma ended_nil : ended [].
Proof. intros i Hi. by apply elem_of_nil in Hi. Qed.
Lemma ended_app l k : ended l → ended k → ended (l ++ k).
Proof.
  intros Hl Hk i [Hi|Hi]%elem_of_app; [apply Hl in Hi as [c Hi]|apply Hk in Hi as [c Hi]]; exists c; apply elem_of_app; auto.
Qed.
Lemma tidy_bind {A B} (m : run A) (f : A → run B) : tidy m → (∀ a, tidy (f a)) → tidy (m ≫= f).
Proof.
  intros Hm Hf e r e' E. apply st_bind_inv in E as ([a|x] & e1 & E1 & E); apply Hm in E1 as (Hp & new & Ev & Hn).
  - apply Hf in E as (Hp' & new' & Ev' & Hn'). split; [congruence|]. exists (new ++ new'). rewrite Ev', Ev, app_assoc. by auto using ended_app.
  - destruct E as [_ ->]. split; [done|]. by exists new.
Qed.
Lemma tidy_still {A} (m : run A) : (∀ e r e', m e = (r, e') → passed e' = passed e ∧ events e' = events e) → tidy m.
Proof. intros Hm e r e' E. apply Hm in E as [Hp Hv]. split; [done|]. exists []. rewrite app_nil_r. by auto using ended_nil. Qed.
Lemma tidy_lift {A} (r : result A) : tidy (lift r).
Proof. apply tidy_still. by intros e x e' [= _ <-]. Qed.
Lemma tidy_ret {A} (a : A) : tidy (mret a).
Proof. apply tidy_still. by intros e x e' [= _ <-]. Qed.
Lemma tidy_gets {A} (f : evidence → A) : tidy (gets f).
Proof. apply tidy_still. by intros e x e' [= _ <-]. Qed.
Lemma tidy_update i f : tidy (update i f).
Proof. apply tidy_still. by intros e x e' [= _ <-]. Qed.
Lemma tidy_case name : tidy (case name).
Proof. apply tidy_still. by intros e x e' [= _ <-]. Qed.
Lemma tidy_record names : tidy (record_cases names).
Proof. induction names; [apply tidy_ret|]. apply tidy_bind; [apply tidy_case|done]. Qed.
Lemma tidy_block gives : tidy (block gives).
Proof. apply tidy_bind; [apply tidy_lift|apply tidy_record]. Qed.
Lemma tidy_all l : Forall tidy l → tidy (all_of l).
Proof. induction 1; [apply tidy_ret|by apply tidy_bind]. Qed.
Lemma tidy_build str_of p : tidy (build str_of p).
Proof.
  apply tidy_bind; [apply tidy_lift|intros o]. apply tidy_bind; [|intros _; apply tidy_lift].
  apply tidy_still. by intros e x e' [= _ <-].
Qed.
Lemma tidy_builds str_of l : tidy (builds str_of l).
Proof. induction l; [apply tidy_ret|]. apply tidy_bind; [apply tidy_build|done]. Qed.

Lemma clean_up_reaps i e r e' : killable → clean_up i e = (r, e') →
  r = Ok tt ∧ passed e' = passed e ∧ ∃ new code, events e' = events e ++ new ++ [Reaped i code] ∧ ended new.
Proof.
  intros Hk E. unfold clean_up in E. apply st_bind_inv in E as (r1 & e1 & E1 & E). injection E1 as <- <-.
  apply st_bind_inv in E as (r2 & e2 & E2 & E).
  assert (H2 : r2 = Ok tt ∧ passed e2 = passed e ∧ ∃ new, events e2 = events e ++ new ∧ ended new).
  { destruct (still i); injection E2 as <- <-; (split; [done|]); (split; [done|]); [exists []; rewrite app_nil_r; by auto using ended_nil|].
    exists [Terminated i]. split; [done|]. intros j Hj. by apply list_elem_of_singleton in Hj. }
  destruct H2 as (-> & Hp2 & new2 & Hv2 & Hn2). apply st_bind_inv in E as (r3 & e3 & E3 & E).
  assert (H3 : ∃ code, r3 = Ok code ∧ passed e3 = passed e ∧ ∃ new, events e3 = events e ++ new ∧ ended new).
  { destruct (Hk i) as [Hw|[Hw Hw2]].
    - destruct (first_wait i) as [code|]; [|done]. injection E3 as <- <-. exists code. by eauto.
    - rewrite Hw, decide_True in E3 by done. destruct (second_wait i) as [code|]; [|done]. injection E3 as <- <-.
      exists code. split; [done|]. split; [done|]. cbn. exists (new2 ++ [Killed i]). rewrite Hv2, app_assoc. split; [done|].
      apply ended_app; [done|]. intros j Hj. by apply list_elem_of_singleton in Hj. }
  destruct H3 as (code & -> & Hp3 & new & Hv3 & Hn3). injection E as <- <-. cbn. split; [done|]. split; [done|].
  exists new, code. by rewrite Hv3, <-app_assoc.
Qed.
Lemma tidy_finally {A} (m : run A) (f : run unit) : tidy m → tidy f → tidy (try_finally m f).
Proof.
  intros Hm Hf e r e' E. unfold try_finally in E. destruct (m e) as [r1 e1] eqn:E1. destruct (f e1) as [r2 e2] eqn:E2.
  apply Hm in E1 as (Hp & new & Ev & Hn). apply Hf in E2 as (Hp' & new' & Ev' & Hn').
  assert (e' = e2) as -> by (destruct r2; by injection E as _ <-).
  split; [congruence|]. exists (new ++ new'). rewrite Ev', Ev, app_assoc. by auto using ended_app.
Qed.
Lemma tidy_set_via x : tidy (set_via x).
Proof. apply tidy_still. by intros e r e' [= _ <-]. Qed.
Lemma tidy_append o : tidy (append o).
Proof. apply tidy_still. by intros e r e' [= _ <-]. Qed.
Lemma tidy_program {A} words port (body : run A) : killable → tidy body → tidy (program words port body).
Proof.
  intros Hk Hb e r e' E. unfold program in E. apply st_bind_inv in E as (r1 & e1 & E1 & E). injection E1 as <- <-. set (i := length (servers e)) in *.
  apply st_bind_inv in E as (r2 & e2 & E2 & E). injection E2 as <- <-.
  apply st_bind_inv in E as ([x|x] & e3 & E3 & E); apply lift_inv in E3 as [_ ->].
  2:{ destruct E as [_ ->]. split; [done|]. exists []. rewrite app_nil_r. by auto using ended_nil. }
  apply st_bind_inv in E as (r4 & e4 & E4 & E). injection E4 as <- <-.
  unfold try_finally in E. set (e4 := Evidence _ _ _ _ _ _) in E. set (m := lift _ ≫= _) in E.
  assert (Hm : tidy m).
  { apply tidy_bind; [apply tidy_lift|intros _]. apply tidy_bind; [done|intros a]. apply tidy_bind; [apply tidy_lift|intros _; apply tidy_ret]. }
  destruct (m e4) as [r5 e5] eqn:E5. apply Hm in E5 as (Hp5 & new5 & Hv5 & Hn5).
  destruct (clean_up i e5) as [r6 e6] eqn:E6. apply clean_up_reaps in E6 as (-> & Hp6 & new6 & code & Hv6 & Hn6); [|done].
  injection E as <- <-. split; [rewrite Hp6, Hp5; done|]. exists ([Started i] ++ new5 ++ new6 ++ [Reaped i code]).
  rewrite Hv6, Hv5. cbn [events e4]. split; [by rewrite <-!app_assoc|].
  intros j. rewrite !elem_of_app. intros [Hj|[Hj|[Hj|Hj]]].
  - apply list_elem_of_singleton in Hj as [= ->]. exists code. rewrite !elem_of_app. do 3 right. by apply list_elem_of_singleton.
  - apply Hn5 in Hj as [c Hj]. exists c. rewrite !elem_of_app. auto.
  - apply Hn6 in Hj as [c Hj]. exists c. rewrite !elem_of_app. auto.
  - by apply list_elem_of_singleton in Hj.
Qed.
Lemma tidy_adapter {A} upstream options given (body : Z → run A) : killable → (∀ port, tidy (body port)) → tidy (adapter upstream options given body).
Proof.
  intros Hk Hb. apply tidy_bind; [|intros port; by apply tidy_program].
  destruct given; [apply tidy_ret|]. apply tidy_bind; [apply tidy_gets|intros; apply tidy_lift].
Qed.
Lemma tidy_server {A} maximum timeout (body : Z → run A) : killable → (∀ port, tidy (body port)) → tidy (server maximum timeout body).
Proof.
  intros Hk Hb. apply tidy_bind; [apply tidy_bind; [apply tidy_gets|intros; apply tidy_lift]|intros port].
  apply tidy_program; [done|]. apply tidy_bind; [apply tidy_gets|intros []]; [by apply tidy_adapter|done].
Qed.

(** What a run that returns has recorded and shown. *)
Definition yields {A} (m : run A) (l : list string) (P : Prop) : Prop :=
  ∀ e a e', m e = (Ok a, e') → cases e' = cases e ++ l ∧ P.
Lemma yields_weaken {A} (m : run A) l l' (P P' : Prop) : yields m l P → l = l' → (P → P') → yields m l' P'.
Proof. intros Hm <- HP e a e' E. apply Hm in E as [? ?]. auto. Qed.
Lemma yields_bind {A B} (m : run A) (f : A → run B) l k P Q :
  yields m l P → (∀ a, yields (f a) k Q) → yields (m ≫= f) (l ++ k) (P ∧ Q).
Proof.
  intros Hm Hf e a e' E. apply st_bind_Ok in E as (x & e1 & E1 & E). apply Hm in E1 as [C1 HP]. apply Hf in E as [C2 HQ].
  split; [by rewrite C2, C1, app_assoc|done].
Qed.
(** ... and what the rest shows may depend on the value. *)
Lemma yields_let {A B} (m : run A) (f : A → run B) k (V : A → Prop) (Q : A → Prop) :
  (∀ e a e', m e = (Ok a, e') → cases e' = cases e ∧ V a) → (∀ a, V a → yields (f a) k (Q a)) → yields (m ≫= f) k (∃ a, V a ∧ Q a).
Proof.
  intros Hm Hf e a e' E. apply st_bind_Ok in E as (x & e1 & E1 & E). apply Hm in E1 as [C1 HV]. apply (Hf x HV) in E as [C2 HQ].
  split; [by rewrite C2, C1|by exists x].
Qed.
Lemma yields_lift {A} (r : result A) : yields (lift r) [] (is_Ok r = true).
Proof. intros e a e' E. apply lift_inv in E as [-> ->]. by rewrite app_nil_r. Qed.
Lemma yields_ret {A} (a : A) : yields (mret a) [] True.
Proof. intros e x e' [= _ <-]. by rewrite app_nil_r. Qed.
Lemma yields_case name : yields (case name) [name] True.
Proof. by intros e a e' [= _ <-]. Qed.
Lemma yields_quiet {A} (m : run A) : (∀ e r e', m e = (r, e') → cases e' = cases e) → yields m [] True.
Proof. intros Hm e a e' E. apply Hm in E. by rewrite app_nil_r. Qed.
Lemma yields_append o : yields (append o) [] True.
Proof. apply yields_quiet. by intros e r e' [= _ <-]. Qed.
Lemma yields_set_via x : yields (set_via x) [] True.
Proof. apply yields_quiet. by intros e r e' [= _ <-]. Qed.
Lemma yields_finally {A} (m : run A) f l P : yields m l P → (∀ e r e', f e = (r, e') → cases e' = cases e) → yields (try_finally m f) l P.
Proof.
  intros Hm Hf e a e' E. unfold try_finally in E. destruct (m e) as [r1 e1] eqn:E1. destruct (f e1) as [r2 e2] eqn:E2. apply Hf in E2.
  destruct r2; [|done]. injection E as -> <-. apply Hm in E1 as [C HP]. by rewrite E2.
Qed.
Lemma clean_up_cases i e r e' : clean_up i e = (r, e') → cases e' = cases e.
Proof.
  unfold clean_up. intros E. apply st_bind_inv in E as (r1 & e1 & E1 & E). injection E1 as <- <-.
  apply st_bind_inv in E as (r2 & e2 & E2 & E). assert (C2 : cases e2 = cases e) by (destruct (still i); by injection E2 as _ <-).
  destruct r2; [|by destruct E as [_ ->]]. apply st_bind_inv in E as (r3 & e3 & E3 & E).
  assert (C3 : cases e3 = cases e).
  { destruct (first_wait i) as [|x]; [by injection E3 as _ <-|]. case_decide; by injection E3 as _ <-. }
  destruct r3; [|by destruct E as [_ ->]]. by injection E as _ <-.
Qed.
Lemma yields_program {A} words port (body : run A) l P : yields body l P → yields (program words port body) l P.
Proof.
  intros Hb. unfold program. apply (yields_weaken _ ([] ++ [] ++ [] ++ [] ++ l) _ (True ∧ True ∧ True ∧ True ∧ P)); [|done|tauto].
  apply yields_bind; [apply yields_quiet; by intros e r e' [= _ <-]|intros i].
  apply yields_bind; [apply yields_quiet; by intros e r e' [= _ <-]|intros _].
  apply yields_bind; [apply yields_quiet; by intros e r e' [= _ <-]|intros _].
  apply yields_bind; [apply yields_quiet; by intros e r e' [= _ <-]|intros _].
  apply yields_finally; [|apply clean_up_cases]. eapply yields_weaken.
  - apply yields_bind; [apply yields_lift|intros _]. apply yields_bind; [exact Hb|intros a].
    apply yields_bind; [apply yields_lift|intros _; apply yields_ret].
  - by rewrite !app_nil_r.
  - tauto.
Qed.
Lemma reserve_quiet e (a : Z) e' : reserve e = (Ok a, e') → cases e' = cases e ∧ True.
Proof. unfold reserve. intros E. apply st_bind_Ok in E as (i & e1 & E1 & E). injection E1 as _ <-. apply lift_inv in E as [_ ->]. done. Qed.
Lemma yields_adapter {A} upstream options given (body : Z → run A) l (P : Z → Prop) :
  (∀ port, yields (body port) l (P port)) → yields (adapter upstream options given body) l (∃ port, P port).
Proof.
  intros Hb. unfold adapter. eapply yields_weaken; [|done|].
  - apply (yields_let _ _ l (λ _, True) P).
    + intros e a e' E. destruct given; [by injection E as _ <-|by eapply reserve_quiet].
    + intros port _. by apply yields_program.
  - intros (port & _ & HP). by exists port.
Qed.
Lemma yields_server {A} maximum timeout (body : Z → run A) l (P : Z → Prop) :
  (∀ port, yields (body port) l (P port)) → yields (server maximum timeout body) l (∃ port, P port).
Proof.
  intros Hb. unfold server. eapply yields_weaken; [|done|].
  - apply (yields_let _ _ l (λ _, True) (λ _, ∃ port, P port)); [apply reserve_quiet|]. intros port _. apply yields_program.
    eapply yields_weaken; [apply (yields_let _ _ l (λ _, True) (λ _, ∃ port, P port))|done|by intros (_ & _ & ?)].
    + by intros e a e' [= _ <-].
    + intros [] _; [by apply yields_adapter|]. eapply yields_weaken; [apply Hb|done|eauto].
  - by intros (_ & _ & ?).
Qed.
Lemma yields_all {X} (f : X → run unit) (names : X → list string) (P : X → Prop) l :
  (∀ x, yields (f x) (names x) (P x)) → yields (all_of (f <$> l)) (concat (names <$> l)) (Forall P l).
Proof.
  intros Hf. induction l as [|x l IH]; cbn [fmap list_fmap all_of concat].
  - eapply yields_weaken; [apply yields_ret|done|by constructor].
  - eapply yields_weaken; [apply yields_bind; [apply Hf|intros _; exact IH]|done|]. intros []. by constructor.
Qed.
Definition names_of (gives : result (list string)) : list string := match gives with Ok l => l | Raise _ => [] end.
Lemma yields_record names : yields (record_cases names) names True.
Proof.
  induction names as [|x names IH]; [apply yields_ret|]. cbn [record_cases].
  by eapply yields_weaken; [apply yields_bind; [apply yields_case|intros _; exact IH]|..].
Qed.
Lemma yields_block gives : yields (block gives) (names_of gives) (is_Ok gives = true).
Proof.
  unfold block. intros e a e' E. apply st_bind_Ok in E as (names & e1 & [-> ->]%lift_inv & E). by apply yields_record in E as [? _].
Qed.
Definition succeeded (str_of : exn → pystr) (p : Checks.process) : Prop := ∃ o, Checks.run str_of p = Ok o ∧ Checks.exit_code o = 0.
Lemma yields_build str_of p : yields (build str_of p) [] (succeeded str_of p).
Proof.
  intros e a e' E. unfold build in E. apply st_bind_Ok in E as (o & e1 & [Ho ->]%lift_inv & E). apply st_bind_Ok in E as ([] & e2 & E2 & E).
  injection E2 as <-. apply lift_inv in E as [E ->]. apply symmetry, raise_if_Ok in E || apply raise_if_Ok in E. bools. rewrite app_nil_r. split; [done|]. by exists o.
Qed.
Lemma yields_builds str_of l : yields (builds str_of l) [] (Forall (succeeded str_of) l).
Proof.
  induction l as [|p l IH]; cbn [builds]; [eapply yields_weaken; [apply yields_ret|done|by constructor]|].
  eapply yields_weaken; [apply yields_bind; [apply yields_build|intros _; exact IH]|done|]. intros []. by constructor.
Qed.
Lemma yields_sessions limits gives : length limits = length gives →
  yields (all_of (zip_with (λ limits gives, server limits.1 limits.2 (λ _, block gives)) limits gives))
    (concat (names_of <$> gives)) (Forall (λ g, is_Ok g = true) gives).
Proof.
  revert gives. induction limits as [|x limits IH]; intros [|g gives] Hl; try done; cbn [zip_with all_of].
  - eapply yields_weaken; [apply yields_ret|done|by constructor].
  - injection Hl as Hl. eapply yields_weaken; [apply yields_bind; [apply yields_server; intros ?; apply yields_block|intros _; by apply IH]|done|].
    intros [[_ ?] ?]. by constructor.
Qed.
Lemma check_records_Ok l : check_records l = Ok tt → Forall (λ r, good_record r = true) l.
Proof.
  induction l as [|r l IH]; [constructor|]. cbn [check_records]. intros E. apply result_bind_Ok in E as (x & Ex & E).
  apply raise_if_Ok in Ex. apply result_bind_Ok in E as ([] & _ & E). apply IH in E. bools. by constructor.
Qed.

Section main.
Context (str_of : exn → pystr) (commands : list Checks.process) (fault_command : Checks.process) (bs : blocks).

(** *** The cases of [src/tests] leave no program *)

Section tidied.
Context (Hk : killable).
Lemma tidy_exchanges name : tidy (exchanges bs name).
Proof. apply tidy_bind; [apply tidy_lift|intros _; apply tidy_case]. Qed.
Lemma tidy_execute name words : tidy (execute str_of bs name words).
Proof. apply tidy_lift. Qed.
Lemma tidy_demand ok message : tidy (demand ok message).
Proof. apply tidy_bind; [apply tidy_lift|intros; apply tidy_lift]. Qed.
Lemma tidy_map {X} (f : X → run unit) l : (∀ x, tidy (f x)) → tidy (all_of (f <$> l)).
Proof. intros Hf. apply tidy_all, Forall_fmap, Forall_true. exact Hf. Qed.
Ltac tidy := repeat lazymatch goal with
  | |- tidy (lift _) => apply tidy_lift
  | |- tidy (mret _) => apply tidy_ret
  | |- tidy (case _) => apply tidy_case
  | |- tidy (block _) => apply tidy_block
  | |- tidy (exchanges _ _) => apply tidy_exchanges
  | |- tidy (execute _ _ _ _) => apply tidy_execute
  | |- tidy (demand _ _) => apply tidy_demand
  | |- tidy (append _) => apply tidy_append
  | |- tidy (set_via _) => apply tidy_set_via
  | |- tidy (build _ _) => apply tidy_build
  | |- tidy (builds _ _) => apply tidy_builds
  | |- tidy (all_of (_ <$> _)) => apply tidy_map; intros ?
  | |- tidy (server _ _ _) => apply tidy_server; [exact Hk|intros ?]
  | |- tidy (adapter _ _ _ _) => apply tidy_adapter; [exact Hk|intros ?]
  | |- tidy (try_finally _ _) => apply tidy_finally
  | |- tidy (_ ≫= _) => apply tidy_bind; [|intros ?]
  end.
Lemma tidy_transport : tidy (transport_cases str_of bs).
Proof. unfold transport_cases. tidy. Qed.
Lemma tidy_policy : tidy (policy_cases str_of bs).
Proof. unfold policy_cases. tidy. Qed.
Lemma tidy_adapters : tidy (adapter_cases str_of bs).
Proof. unfold adapter_cases, behind_adapters. tidy. Qed.
Lemma tidy_blocks m : tidy (run_blocks str_of commands fault_command bs m).
Proof.
  unfold run_blocks. apply tidy_bind; [tidy|intros _]. apply tidy_bind; [tidy|intros _]. apply tidy_bind; [tidy|intros _]. apply tidy_bind.
  { destruct (bool_decide (m = HelloMode)); [tidy|]. apply tidy_all. generalize session_limits (session_blocks bs).
    intros l. induction l as [|x l IH]; intros [|g k]; constructor; [tidy|apply IH]. }
  intros _. apply tidy_bind; [|intros _; tidy]. destruct (bool_decide (m ∈ [Direct; ViaAdapter])); [|tidy].
  apply tidy_bind; [apply tidy_transport|intros _]. apply tidy_bind; [apply tidy_policy|intros _].
  destruct (bool_decide (m = ViaAdapter)); [apply tidy_adapters|tidy].
Qed.
End tidied.

(** *** What the cases of [src/tests] show *)

Definition exchanged (l : list string) : Prop := Forall (λ name, is_Ok (network bs name) = true) l.
(** The command of a case ran, and its result is as it must be. *)
Definition passes (name : string) (words : list bytes) (accept : Checks.outcome → result bool) : Prop :=
  ∃ o, Checks.run str_of (native bs name words) = Ok o ∧ accept o = Ok true.
Lemma yields_exchanges l : yields (all_of (exchanges bs <$> l)) l (exchanged l).
Proof.
  eapply yields_weaken; [apply (yields_all _ (λ n, [n]) (λ n, is_Ok (network bs n) = true))| |done].
  - intros n. eapply yields_weaken; [apply yields_bind; [apply yields_lift|intros _; apply yields_case]|done|by intros []].
  - induction l as [|x l IH]; [done|]. cbn in *. by rewrite IH.
Qed.
Lemma yields_exchange name : yields (exchanges bs name) [name] (exchanged [name]).
Proof.
  eapply yields_weaken; [apply yields_bind; [apply yields_lift|intros _; apply yields_case]|done|]. intros [? _]. by constructor.
Qed.
Lemma yields_demand ok message : yields (demand ok message) [] (ok = Ok true).
Proof.
  intros e a e' E. unfold demand in E. apply st_bind_Ok in E as (x & e1 & [-> ->]%lift_inv & E). apply lift_inv in E as [E ->].
  rewrite app_nil_r. split; [done|]. by destruct x.
Qed.
(** A command and what becomes of its result. *)
Lemma yields_execute {B} name words accept (f : Checks.outcome → run B) l :
  (∀ o, yields (f o) l (accept o = Ok true)) → yields (execute str_of bs name words ≫= f) l (passes name words accept).
Proof.
  intros Hf. apply (yields_let _ _ l (λ o, Checks.run str_of (native bs name words) = Ok o) (λ o, accept o = Ok true)).
  - intros e o e' E. unfold execute in E. by apply lift_inv in E as [-> ->].
  - intros o Ho. apply Hf.
Qed.

Definition transport_names : list string :=
  protocol_cases ++ concat (expiry_cases <$> [false; true]) ++ [native_case; cli_case; faults_case; replies_case].
Definition transport_done : Prop :=
  exchanged ("sockets"%string :: protocol_cases ++ concat (expiry_cases <$> [false; true])) ∧
  (∃ port, passes native_case (client_words port) client_ok) ∧
  Forall (λ words, passes cli_case words refused) cli_inputs ∧
  (∃ port, Forall (λ x, passes faults_case (fault_words port x) client_ok) fault_cases) ∧
  Forall (λ fault, responded bs fault = true ∧ ∃ port, passes fault (responder_words port) client_failed) responders.
Lemma yields_transport : yields (transport_cases str_of bs) transport_names transport_done.
Proof.
  unfold transport_cases. eapply yields_weaken.
  - apply yields_bind; [apply yields_lift|intros _].
    apply yields_bind; [apply yields_server; intros ?; apply yields_exchanges|intros _].
    apply yields_bind; [apply (yields_all _ expiry_cases (λ i, ∃ _ : Z, exchanged (expiry_cases i))); intros i; apply yields_server; intros ?; apply yields_exchanges|intros _].
    apply yields_bind; [apply yields_server; intros port; apply (yields_execute _ _ client_ok)|intros _].
    { intros o. eapply yields_weaken; [apply yields_bind; [apply yields_append|intros _]; apply yields_bind; [apply yields_demand|intros _; apply yields_case]|done|tauto]. }
    apply yields_bind; [apply (yields_all _ (λ _, []) (λ words, passes cli_case words refused)); intros words; apply yields_execute; intros o; apply yields_demand|intros _].
    apply yields_bind; [apply yields_case|intros _].
    apply yields_bind; [apply yields_server; intros port; apply yields_bind; [|intros _; apply yields_case]|intros _].
    { apply (yields_all _ (λ _, []) (λ x, passes faults_case (fault_words port x) client_ok)). intros x. apply yields_execute. intros o. apply yields_demand. }
    apply yields_bind; [|intros _; apply yields_case].
    apply (yields_all _ (λ _, []) (λ fault, responded bs fault = true ∧ ∃ port, passes fault (responder_words port) client_failed)).
    intros fault. eapply yields_weaken; [apply (yields_let _ _ [] (λ _, True) (λ port, responded bs fault = true ∧ passes fault (responder_words port) client_failed))|done|].
    + intros e port e' E. apply lift_inv in E as [_ ->]. done.
    + intros port _. eapply yields_weaken; [apply (yields_execute _ _ (λ o, if responded bs fault then client_failed o else Ok false)); intros o; apply yields_demand|done|].
      intros (o & Ho & Ha). destruct (responded bs fault); [|done]. split; [done|]. by exists o.
    + intros (port & _ & ? & ?). eauto.
  - reflexivity.
  - intros (H1 & (_ & H2) & H3 & H4 & H5 & _ & (port & H6 & _) & H7 & _). split_and!; [|done|done|by exists port|done].
    apply Forall_cons. split; [done|]. apply Forall_app. split; [done|]. apply Forall_concat, Forall_fmap.
    eapply Forall_impl; [exact H3|]. by intros i [].
Qed.

Definition policy_names : list string := evidence_cases ++ (capability_case <$> capabilities).
Definition policy_done : Prop :=
  exchanged evidence_cases ∧ ∃ port, Forall (λ op, passes (capability_case op) (capability_words port op) two_lines) capabilities.
Lemma yields_policy : yields (policy_cases str_of bs) policy_names policy_done.
Proof.
  unfold policy_cases. eapply yields_weaken.
  - apply (yields_server _ _ _ (evidence_cases ++ concat ((λ op, [capability_case op]) <$> capabilities)) (λ port, exchanged evidence_cases ∧ Forall (λ op, passes (capability_case op) (capability_words port op) two_lines) capabilities)).
    intros port. apply yields_bind; [apply yields_exchanges|intros _].
    apply (yields_all _ (λ op, [capability_case op]) (λ op, passes (capability_case op) (capability_words port op) two_lines)).
    intros op. apply yields_execute. intros o. eapply yields_weaken;
      [apply yields_bind; [apply yields_demand|intros _]; apply yields_bind; [apply yields_append|intros _; apply yields_case]|done|tauto].
  - reflexivity.
  - intros (port & ? & ?). split; [done|by exists port].
Qed.

Definition adapter_names : list string :=
  faulty_routes.*2 ++ bounded_routes.*2 ++ restarts.*2 ++ [loss_case; "upstream_unavailable"%string].
Definition adapter_done : Prop :=
  exchanged (faulty_routes.*2 ++ bounded_routes.*2 ++ (restarts.*1).*2 ++ restarts.*2 ++ ["upstream_unavailable"%string]) ∧
  ∃ port, passes loss_case (loss_words port) client_failed.
Lemma yields_behind upstream : yields (behind_adapters str_of bs upstream) (faulty_routes.*2 ++ bounded_routes.*2 ++ restarts.*2 ++ [loss_case])
  (exchanged (faulty_routes.*2 ++ bounded_routes.*2 ++ (restarts.*1).*2 ++ restarts.*2) ∧ ∃ port, passes loss_case (loss_words port) client_failed).
Proof.
  unfold behind_adapters. eapply yields_weaken.
  - apply yields_bind; [apply (yields_all _ (λ x, [x.2]) (λ x, is_Ok (network bs x.2) = true)); intros x|intros _].
    { eapply yields_weaken; [apply yields_bind; [apply yields_adapter; intros ?; apply yields_lift|intros _; apply yields_case]|done|].
      by intros [[_ ?] _]. }
    apply yields_bind; [apply (yields_all _ (λ x, [x.2]) (λ x, exchanged [x.2])); intros x|intros _].
    { eapply yields_weaken; [apply yields_adapter; intros ?; apply yields_exchange|done|by intros [_ ?]]. }
    apply yields_bind; [apply (yields_all _ (λ x, [x.2]) (λ x, is_Ok (network bs x.1.2) = true ∧ is_Ok (network bs x.2) = true)); intros x|intros _].
    { eapply yields_weaken.
      - apply yields_bind.
        + apply yields_adapter. intros peer. apply yields_bind; [apply yields_lift|intros _; apply yields_ret].
        + intros peer. apply yields_bind; [apply yields_adapter; intros ?; apply yields_lift|intros _; apply yields_case].
      - done.
      - by intros ((_ & ? & _) & (_ & ?) & _). }
    apply yields_adapter. intros peer. apply (yields_execute _ _ client_failed). intros o. eapply yields_weaken;
      [apply yields_bind; [apply yields_demand|intros _]; apply yields_bind; [apply yields_append|intros _; apply yields_case]|done|tauto].
  - reflexivity.
  - intros (H1 & H2 & H3 & H4). split; [|exact H4]. apply Forall_app. split; [by apply Forall_fmap|]. apply Forall_app. split.
    + apply Forall_fmap. eapply Forall_impl; [exact H2|]. intros x Hx. by inversion Hx.
    + apply Forall_app. split; rewrite !Forall_fmap; (eapply Forall_impl; [exact H3|]); by intros x [].
Qed.
Lemma yields_adapters : yields (adapter_cases str_of bs) adapter_names adapter_done.
Proof.
  unfold adapter_cases. eapply yields_weaken.
  - apply yields_bind; [apply yields_set_via|intros _]. apply yields_finally; [|by intros e r e' [= _ <-]].
    apply yields_bind; [apply yields_server; intros upstream; apply yields_bind; [apply yields_behind|intros _; apply yields_ret]|intros upstream].
    apply yields_adapter. intros ?. apply yields_exchange.
  - reflexivity.
  - intros (_ & (_ & (H1 & H2) & _) & (_ & H3)). split; [|done]. revert H1 H3. unfold exchanged. rewrite !Forall_app. tauto.
Qed.

(** Everything the mode asks for has succeeded, and the cases it records. *)
Definition complete (m : mode) : Prop :=
  Forall (succeeded str_of) (commands ++ [fault_command]) ∧
  Forall (λ g, is_Ok g = true) (hello_block bs :: entropy_block bs :: if bool_decide (m = HelloMode) then [] else session_blocks bs) ∧
  (m ∈ [Direct; ViaAdapter] → transport_done ∧ policy_done) ∧ (m = ViaAdapter → adapter_done).
Definition mode_cases (m : mode) : list string :=
  names_of (hello_block bs) ++ (if bool_decide (m = HelloMode) then [] else concat (names_of <$> session_blocks bs)) ++
  (if bool_decide (m ∈ [Direct; ViaAdapter]) then transport_names ++ policy_names ++ (if bool_decide (m = ViaAdapter) then adapter_names else []) else []) ++
  names_of (entropy_block bs).
Lemma yields_blocks m : length (session_blocks bs) = 4%nat → yields (run_blocks str_of commands fault_command bs m) (mode_cases m) (complete m).
Proof.
  intros Hl. unfold run_blocks. eapply yields_weaken.
  - apply yields_bind; [apply yields_set_via|intros _]. apply yields_bind; [apply yields_builds|intros _].
    apply yields_bind; [apply yields_server; intros ?; apply yields_block|intros _].
    eapply (yields_bind _ _ (if bool_decide (m = HelloMode) then [] else concat (names_of <$> session_blocks bs)) _
      (Forall (λ g, is_Ok g = true) (if bool_decide (m = HelloMode) then [] else session_blocks bs))); [|intros _].
    { destruct (bool_decide (m = HelloMode)); [eapply yields_weaken; [apply yields_ret|done|by constructor]|]. by apply yields_sessions. }
    eapply (yields_bind _ _ (if bool_decide (m ∈ [Direct; ViaAdapter]) then transport_names ++ policy_names ++ (if bool_decide (m = ViaAdapter) then adapter_names else []) else []) _
      ((m ∈ [Direct; ViaAdapter] → transport_done ∧ policy_done) ∧ (m = ViaAdapter → adapter_done))); [|intros _].
    { destruct (bool_decide_reflect (m ∈ [Direct; ViaAdapter])) as [Hm|Hm].
      - assert (Ha : yields (if bool_decide (m = ViaAdapter) then adapter_cases str_of bs else mret tt)
          (if bool_decide (m = ViaAdapter) then adapter_names else []) (m = ViaAdapter → adapter_done)).
        { case_bool_decide as Hv; [eapply yields_weaken; [apply yields_adapters|done|done]|eapply yields_weaken; [apply yields_ret|done|done]]. }
        eapply yields_weaken.
        + apply yields_bind; [apply yields_transport|intros _]. apply yields_bind; [apply yields_policy|intros _; exact Ha].
        + done.
        + tauto.
      - eapply yields_weaken; [apply yields_ret|done|]. intros _. split; [done|]. intros ->. by destruct Hm; set_solver. }
    apply yields_bind; [apply yields_build|intros _]. apply yields_server. intros ?. apply yields_block.
  - unfold mode_cases. cbn [app]. done.
  - intros (_ & H1 & (_ & H2) & H3 & (H4 & H5) & H6 & (_ & H7)). split; [by apply Forall_app_2; [|constructor]|].
    split; [by repeat constructor|done].
Qed.

(** C40.  The run of the integration checks leaves no program behind, however it ends,
    when each of its programs ends within two seconds of [terminate], or else of
    [kill].  Its exit code is 0 only if everything the mode asks for succeeded - every
    build; the cases of the handshake, of the entropy and, past [--hello], of the
    sessions; with [--direct] or [--via-adapter], those of [transport_cases.py] and
    [policy_cases.py], every command they run with the result they require; and with
    [--via-adapter], those of [adapter_cases.py] - if exactly the cases of the mode are
    recorded, and if every server and adapter that was started was alive when its
    block ended, ended with code 0 and never had to be killed. *)
Theorem integration_verdict m e r e' : killable → length (session_blocks bs) = 4%nat → passed e = false → events e = [] →
  main str_of commands fault_command bs m e = (r, e') →
  (∀ i, Started i ∈ events e' → ∃ code, Reaped i code ∈ events e') ∧
  (r = Ok 0 → complete m ∧ cases e' = cases e ++ mode_cases m ∧
     Forall (λ x, exit_before_cleanup x = Some None ∧ forced_kill x = false ∧ exit_code x = Some 0) (servers e')).
Proof.
  intros Hk Hl Hp Hev E. unfold main in E.
  pose (ok := λ x, complete m ∧ cases x = cases e ++ mode_cases m ∧ Forall (λ r, good_record r = true) (servers x)).
  assert (Hmain : ∀ rb eb, main_body str_of commands fault_command bs m e = (rb, eb) → ended (events eb) ∧ (passed eb = true → ok eb)).
  { intros rb eb Eb. unfold main_body in Eb. apply st_bind_inv in Eb as (r1 & e1 & E1 & Eb). pose proof E1 as E2.
    apply (tidy_blocks Hk) in E2 as (Hp1 & new & Hv1 & Hn). rewrite Hev in Hv1. cbn in Hv1. subst new. rewrite Hp in Hp1.
    destruct r1 as [[]|x]; [|by destruct Eb as [_ ->]; rewrite Hp1]. apply (yields_blocks m Hl) in E1 as [Hc1 Hd1]. unfold conclude in Eb.
    apply st_bind_inv in Eb as (r2 & e2 & E2 & Eb). injection E2 as <- <-. apply st_bind_inv in Eb as ([[]|x] & e3 & E3 & Eb);
      apply lift_inv in E3 as [E3 ->]; [|by destruct Eb as [_ ->]; rewrite Hp1].
    injection Eb as _ <-. cbn. split; [done|]. intros _. split; [done|]. split; [done|]. by apply check_records_Ok. }
  apply st_bind_inv in E as (r1 & e1 & E1 & E).
  assert (H1 : ended (events e1) ∧ (passed e1 = true → ok e1)).
  { unfold try_except in E1. destruct (main_body _ _ _ _ m e) as [[[]|x] eb] eqn:Eb; specialize (Hmain _ _ eq_refl).
    - by injection E1 as _ <-.
    - destruct (reported x); [by injection E1 as _ <-|by injection E1 as _ <-]. }
  destruct H1 as [Hn Hok].
  assert (e' = e1 ∧ (r = Ok 0 → passed e1 = true)) as [-> Hr].
  { destruct r1 as [[]|x]; [|by destruct E as [-> ->]]. injection E as <- <-. split; [done|]. by destruct (passed e1). }
  split; [exact Hn|]. intros Hz. destruct (Hok (Hr Hz)) as (Hc & Hcases & Hg). split; [done|]. split; [done|].
  eapply Forall_impl; [exact Hg|]. intros x Hx. unfold good_record in Hx. bools. by split_and!.
Qed.
End main.
End verdict.

(** ** A run with the cases of the policy server *)

(** What the [i]th block gives against the model of the server. *)
Definition block_of (i : nat) : result (list string) :=
  match LabSuite.suite LabSuite.started LabSuite.direct 1 !! i with
  | Some (w, t) => match t w with (Ok _, w) => Ok (LabSuite.cases w) | (Raise e, _) => Raise e end
  | None => Raise IndexError
  end.
Definition good_process : Checks.process := Checks.Process (Ok tt) (Ok (0, [], [])) (Ok tt) (Ok ([], [])).
(** Servers that boot at the second look and end when asked. *)
Definition ready (port : Z) : pystr := dumps (VDict [(u "ev", VStr (u "boot")); (u "port", VInt port)]) ++ [10].
(** The two adapters restarted are on the port of the one before. *)
Definition port_of (i : nat) : Z := 40000 + Z.of_nat (if bool_decide (i ∈ [30; 32]%nat) then i - 1 else i)%nat.
#[local] Instance good_machine : Machine := {|
  available_port := λ i, Ok (40000 + Z.of_nat i);
  popen := λ _, Ok tt;
  look := λ i turn, (if (turn =? 0)%nat then [] else ready (port_of i), None, false);
  at_end := λ _, None; at_cleanup := λ _, None; still := λ _, None;
  first_wait := λ _, Ok 0; second_wait := λ _, Ok 0;
  output := λ i, [ready (port_of i)] |}.
(** Clients that do as the cases require, as [--via-adapter] asks of all of them. *)
Definition says_ok (ok : bool) : pystr := dumps (VDict [(u "ok", VBool ok)]) ++ [10].
Definition native_run (name : string) (words : list bytes) : Checks.process :=
  let (code, out) :=
    if bool_decide (name ∈ [native_case; faults_case]) then (0, says_ok true)
    else if bool_decide (name = cli_case) then (2, [])
    else if bool_decide (name ∈ capability_case <$> capabilities) then
      (0, dumps (VDict [(u "status", VInt 2); (u "origin_os", VStr (u "linux"))]) ++ [10] ++ says_ok true)
    else (1, says_ok false) in
  Checks.Process (Ok tt) (Ok (code, out, [])) (Ok tt) (Ok ([], [])).
Definition suite_blocks : blocks :=
  Blocks (block_of 0) (block_of <$> seq 1 4) (block_of 5) (λ _, Ok tt) native_run (λ _, Ok 40999) (λ _, true).
Definition nothing : evidence := Evidence [] [] [] [] false false.
Definition full_run := main (λ _, []) (replicate 4 good_process) good_process suite_blocks ViaAdapter nothing.
Lemma good_killable : killable.
Proof. intros i. by left. Qed.
Lemma integration_verdict_witness :
  full_run.1 = Ok 0 ∧ length (servers full_run.2) = 37%nat ∧ length (cases full_run.2) = 41%nat ∧
  (∀ i, Started i ∈ events full_run.2 → ∃ code, Reaped i code ∈ events full_run.2) ∧
  complete (λ _, []) (replicate 4 good_process) good_process suite_blocks ViaAdapter ∧
  cases full_run.2 = cases nothing ++ mode_cases suite_blocks ViaAdapter ∧
  Forall (λ x, exit_before_cleanup x = Some None ∧ forced_kill x = false ∧ exit_code x = Some 0) (servers full_run.2).
Proof.
  assert (Hr : full_run.1 = Ok 0 ∧ length (servers full_run.2) = 37%nat ∧ length (cases full_run.2) = 41%nat) by (vm_compute; split_and!; reflexivity).
  destruct (integration_verdict (λ _, []) (replicate 4 good_process) good_process suite_blocks
    ViaAdapter nothing full_run.1 full_run.2 good_killable eq_refl eq_refl eq_refl (surjective_pairing _)) as [H1 H2].
  destruct Hr as (Hr & Hs & Hc). split; [exact Hr|]. split; [exact Hs|]. split; [exact Hc|]. split; [exact H1|]. exact (H2 Hr).
Defined.

(** ** The command line of a server *)

Lemma digit_bytes s : forallb Json.is_digit s = true →
  forallb LabContract.is_digit (ascii_bytes s) = true ∧ ∀ v, decimal v (ascii_bytes s) = digits_value v s.
Proof.
  unfold ascii_bytes. induction s as [|c s IH]; [done|]. cbn [forallb]. intros [Hc Hs]%andb_true_iff. destruct (IH Hs) as [H1 H2].
  assert (Hb : b2z (z2b c) = c) by (unfold Json.is_digit in Hc; bools; rewrite b2z_z2b; apply Z.mod_small; lia).
  split; [rewrite fmap_cons; cbn [forallb]; rewrite H1, andb_true_r; unfold LabContract.is_digit; rewrite Hb; exact Hc|].
  intros v. rewrite fmap_cons. cbn [digits_value]. rewrite <-H2. unfold decimal. cbn [foldl]. rewrite Hb. f_equal. lia.
Qed.
Import LabContract LabServer.
(** A number written by the scripts is read back by the laboratory's programs. *)
Lemma str_parsed z minimum maximum : 0 <= minimum <= z → z <= maximum <= UINT32_MAX → lab_parse_u32 (str z) minimum maximum = Some z.
Proof.
  intros H1 H2. apply parse_u32_exact; [lia|]. unfold str, dump_int. destruct (Z.ltb_spec z 0); [lia|].
  destruct (digits_spec _ _ (log2_fuel z ltac:(lia))) as (Hd & Hv & _ & c & r & Hc & _). apply digit_bytes in Hd as [Hd Hdec].
  split_and!; [|done|by rewrite Hdec|lia|lia]. by rewrite Hc.
Qed.

(** An option given by its name. *)
Ltac names := repeat match goal with |- context [named ?s (b ?w)] =>
  let r := eval vm_compute in (named s (b w)) in change (named s (b w)) with r end; cbn [andb orb].
Section options.
Context (inet : bytes → option Z).
Lemma option_host o : inet (b "127.0.0.1") = Some 0x7f000001 →
  one_option inet (b "--host") (Some (b "127.0.0.1")) o = Some (set_host (b "127.0.0.1") o, true).
Proof. intros Hi. unfold one_option. names. rewrite bool_decide_eq_true_2 by done. cbn [mbind option_bind]. rewrite Hi. reflexivity. Qed.
Ltac number := intros Hz; unfold one_option; names; rewrite bool_decide_eq_true_2 by done; cbn [mbind option_bind];
  rewrite str_parsed by (unfold UINT32_MAX, MAX_CLIENTS; lia); reflexivity.
Lemma option_port z o : 1 <= z <= 65535 → one_option inet (b "--port") (Some (str z)) o = Some (set_port z o, true).
Proof. number. Qed.
Lemma option_timeout z o : 1 <= z <= 60000 → one_option inet (b "--timeout-ms") (Some (str z)) o = Some (set_timeout z o, true).
Proof. number. Qed.
Lemma option_max z o : 1 <= z <= 32 → one_option inet (b "--max") (Some (str z)) o = Some (set_max z o, true).
Proof. number. Qed.
Lemma option_verbose value o : one_option inet (b "-v") value o = Some (set_verbose o, false).
Proof. unfold one_option. names. reflexivity. Qed.

(** The command line the scripts build for a server means to the server what they
    mean by it: the address, the port, the timeout and the capacity, with the default
    policy. *)
Theorem server_command_accepted port timeout maximum : inet (b "127.0.0.1") = Some 0x7f000001 →
  1 <= port <= 65535 → 1 <= timeout <= 60000 → 1 <= maximum <= 32 →
  parse_options inet (server_command port timeout maximum) default_options =
    Some (Options (Some (b "127.0.0.1")) port timeout maximum default_policy true).
Proof.
  intros Hi Hp Ht Hm. unfold server_command. cbn [parse_options head].
  rewrite option_host by done. cbn [mbind option_bind]. rewrite option_port by done. cbn [mbind option_bind].
  rewrite option_timeout by done. cbn [mbind option_bind]. rewrite option_max by done. cbn [mbind option_bind].
  rewrite option_verbose. reflexivity.
Qed.
End options.
Lemma server_command_accepted_witness :
  parse_options (λ s, if bool_decide (s = b "127.0.0.1") then Some 0x7f000001 else None) (server_command 40123 5000 32) default_options =
    Some (Options (Some (b "127.0.0.1")) 40123 5000 32 default_policy true).
Proof.
  apply (server_command_accepted (λ s, if bool_decide (s = b "127.0.0.1") then Some 0x7f000001 else None) 40123 5000 32);
    [reflexivity|lia|lia|lia].
Defined.

(** ** The command line of an adapter *)

Lemma endpoint_parsed port : 1 <= port <= 65535 → LabAdapter.lab_endpoint (loopback port) = Some (Address 0x7f000001 port).
Proof.
  intros Hp. unfold LabAdapter.lab_endpoint, loopback.
  change (LabAdapter.at_colon (b "127.0.0.1:" ++ str port)) with (Some (b "127.0.0.1", str port)). cbn [mbind option_bind].
  rewrite str_parsed by (unfold UINT32_MAX; lia). reflexivity.
Qed.
(** The command line the scripts build for an adapter means to the adapter what they
    mean by it: its own endpoint, that of the server behind it, and no faults. *)
Theorem adapter_command_accepted port upstream : 1 <= port <= 65535 → 1 <= upstream <= 65535 →
  LabAdapter.parse_options (adapter_command port upstream []) LabAdapter.default_options =
    Some (LabAdapter.Options (Address 0x7f000001 port) (Address 0x7f000001 upstream) 32 10000 0 0 0 false true).
Proof.
  intros Hp Hu. unfold adapter_command. rewrite app_nil_r. cbn [LabAdapter.parse_options].
  change (LabAdapter.named "-v" (b "--listen")) with false. change (LabAdapter.named "--replay-last" (b "--listen")) with false.
  change (LabAdapter.one_option (b "--listen") (loopback port) LabAdapter.default_options)
    with (x ← LabAdapter.lab_endpoint (loopback port); Some (LabAdapter.set_listen x LabAdapter.default_options)).
  rewrite endpoint_parsed by done. cbn [mbind option_bind].
  change (LabAdapter.named "-v" (b "--upstream")) with false. change (LabAdapter.named "--replay-last" (b "--upstream")) with false.
  change (LabAdapter.one_option (b "--upstream") (loopback upstream) ?o) with (x ← LabAdapter.lab_endpoint (loopback upstream); Some (LabAdapter.set_upstream x o)).
  rewrite endpoint_parsed by done. reflexivity.
Qed.
Lemma adapter_command_accepted_witness :
  LabAdapter.parse_options (adapter_command 40001 40000 []) LabAdapter.default_options =
    Some (LabAdapter.Options (Address 0x7f000001 40001) (Address 0x7f000001 40000) 32 10000 0 0 0 false true).
Proof. apply (adapter_command_accepted 40001 40000); lia. Defined.
