(* ===== verification/ImaChain.v ===== *)
(** * The IMA verifier with the replay program it runs

    [ima_quote_verifier.py] composed with [ima_replay.c]: what a passing verdict
    says of the log file, and the cases of [verificar-ima.py] and
    [verificar-ima-quote.py] against both. *)

From S2P Require Import Prelude Bytes Sha256 Json JsonFacts JsonCanon Stream Env Dict Connection.
From S2P Require Import Attestation AttestationFacts AttestationSuite ImaQuote Checks ImaReplay.
Import Json Attestation ImaQuote ImaReplay.

(** The program at the n-th event, on the log at the path the caller gave. *)
Definition program (files : nat → opened) (closes : nat → bool) : Replayer :=
  {| replay_log := λ n, Ok (main (files n) (closes n)) |}.

(** ** What the program tells the verifier *)

Lemma update_unique items : ∀ acc, NoDup (keys (acc ++ items)) → d_update acc items = acc ++ items.
Proof.
  induction items as [|[k v] items IH]; intros acc Hn; [by rewrite app_nil_r|]. unfold d_update. cbn [foldl fst snd].
  fold (d_update (d_set acc k v) items). assert (Hk : k ∉ keys acc).
  { unfold keys in *. rewrite fmap_app in Hn. apply NoDup_app in Hn as (_ & Hn & _). intros Hk. apply (Hn k Hk), list_elem_of_here. }
  assert (d_set acc k v = acc ++ [(k, v)]) as ->.
  { clear -Hk. induction acc as [|[k' v'] acc IH]; [done|]. cbn [keys fmap list_fmap] in Hk. apply not_elem_of_cons in Hk as [Hne Hk].
    cbn [d_set app]. cbn [fst] in Hne. rewrite decide_False by done. by rewrite IH. }
  rewrite IH; rewrite <-app_assoc; done.
Qed.
Lemma plain_unique d : NoDup (keys d) → object_pairs_hook plain_hooks d = Ok (VDict d).
Proof. intros Hd. cbn. by rewrite (update_unique d []). Qed.
Lemma hex_encodable l : utf8_encodable (hex_of l) = true.
Proof.
  pose proof (hex_of_is_hex l) as H. unfold utf8_encodable. rewrite forallb_Forall in *. eapply Forall_impl; [exact H|].
  intros x Hx. unfold is_hex in Hx. unfold is_scalar, is_surrogate. lia.
Qed.
Lemma report_read n total pcr : 0 <= n < 2 ^ 64 → 0 <= total < 2 ^ 64 →
  loads plain_hooks (printed true n total (u "REPLAY_COMPLETE") pcr) = Ok (VDict (report n total pcr)).
Proof.
  intros Hn Ht. rewrite printed_report. apply loads_dumps_line; [apply plain_unique| |cbn; unfold recursion_limit; lia].
  cbn [wf report forallb]. rewrite hex_encodable. pose proof (wf_int n Hn) as W1. pose proof (wf_int total Ht) as W2. cbn [wf] in W1, W2.
  rewrite W1, W2. by vm_compute.
Qed.

(** A run of the program that succeeds, and what it prints. *)
Lemma main_succeeds file closes out : main file closes = (0, out) →
  ∃ data ev i, file = Opened data ev ∧ replay (fresh data ev) = (Ok tt, i) ∧ out = printed true (records i) (count i) (u "REPLAY_COMPLETE") (pcr i).
Proof.
  unfold main. destruct file as [| | |data ev]; try by destruct closes.
  destruct (replay (fresh data ev)) as [[[]|e] i] eqn:E; destruct closes; intros [=]; subst; by repeat eexists.
Qed.

Section chain.
Context `{Env} `{TpmTools} (files : nat → opened) (closes : nat → bool).

(** C11.  When the IMA verifier passes with the replay program behind it, the quote
    verifier passed on the same evidence and challenge, and the file the program
    opened is a log of well-formed records whose fold is, byte for byte, the PCR
    value under the quote; the verdict reports how many there are. *)
Theorem passing_verdict_binds_a_log self evidence c w d w' :
  ima_verify (H1 := program files closes) self evidence c w = (Ok d, w') →
  d_get d (u "reason") = Some (status "SCOPED_POLICY_PASS") →
  ∃ base w1 n file ev log s,
    quote_verify (quote self) evidence c w = (Ok base, w1) ∧
    d_get base (u "reason") = Some (status "SCOPED_POLICY_PASS") ∧
    files n = Opened file ev ∧ file = concat (ImaReplay.encode <$> log) ∧ Forall measurement_wf log ∧ log ≠ [] ∧
    d_get evidence (u "pcrs") = Some (VStr s) ∧ b64decode s = Ok (pcr_of (zeros 32) log) ∧
    d_get d (u "ima_validity") = Some (status "quote_bound") ∧ d_get d (u "ima_records") = Some (VInt (len log)).
Proof.
  intros (base & w1 & tail & Hq & -> & Hr)%ima_verify_Ok Hp.
  destruct Hr as [[_ Hr]|[Hr|[Hr|Hr]]]; [done|by rewrite Hp in Hr; apply (f_equal (λ v, v ≫= str_of)) in Hr..|].
  destruct Hr as (recs & n & out & value & s & signed & -> & Hn & Hl & Hparsed & Hpcr & Hs & Hb & Hrecs).
  cbn [replay_log program] in Hn. injection Hn as Hn. apply main_succeeds in Hn as (file & ev & i & Hfile & Hrun & ->).
  apply replay_loop_sound in Hrun as (log & Hw & Hlog & Hp' & Hr' & Hne & Hmax & Hc & Hby).
  cbn [left pcr records count fresh] in *. pose proof (len_nonneg log). pose proof (len_nonneg file).
  rewrite report_read in Hl by (unfold MAX_BYTES, MAX_RECORDS in *; specialize (Hmax ltac:(lia)); lia).
  injection Hl as <-. cbn in Hparsed, Hpcr, Hrecs. injection Hpcr as Hpcr. injection Hrecs as <-.
  apply (f_equal from_hex) in Hpcr. rewrite !from_hex_hex_of in Hpcr. subst signed.
  rewrite d_get_update_None, not_evaluated_reason in Hp by done.
  exists base, w1, n, file, ev, log, s. rewrite <-Hp'. split_and!; try done.
  - intros ->. change (len []) with 0 in *. lia.
  - apply d_get_update_Some; [dec_now|done].
  - rewrite Hr'. apply d_get_update_Some; [dec_now|done].
Qed.
End chain.

(** ** The repository's cases *)

Module ImaSuite.
Import Checks AttestationSuite.

(** An [assert], and a [for] over cases. *)
Definition must (ok : bool) : result unit := raise_if (negb ok) AssertionError.
Fixpoint for_each {A} (l : list A) (case : A → result unit) : result unit :=
  match l with [] => Ok tt | x :: l => _ ← case x; for_each l case end.

(** [inspect(binary, path)] on what is at the path. *)
Definition inspected (file : opened) : result dict :=
  inspect (let '(code, out) := ImaReplay.main file true in Ok (code, out, [])).
Definition log_of (data : bytes) : opened := Opened data [].
Definition truthy_field (d : dict) (k : string) : bool := match d_get d (u k) with Some v => truthy v | None => false end.
Definition replayed_value (d : dict) : value := default VNone (d_get d replayed_key).
Definition made_record (subject : string) (name : string) : result (bytes * bytes) := record (b subject) (b name) None 10.
(** [hashlib.sha256(hashlib.sha256(bytes(32)+d1).digest()+d2)] *)
Definition chain (digests : list bytes) : bytes := foldl (λ p d, sha256 (p ++ d)) (zeros 32) digests.
(** [data[i] ^= 1], and [data[i:j] = new]. *)
Definition flip (i : nat) (data : bytes) : bytes := alter (λ x, z2b (Z.lxor (b2z x) 1)) i data.
Definition splice (i j : nat) (new data : bytes) : bytes := take i data ++ new ++ drop j data.
Definition mismatch (expected : value) (d : dict) : bool :=
  match compare expected (replayed_value d) expected with (DENY, why) => bool_decide (why = u "PCR_REPLAY_MISMATCH") | _ => false end.

(** The inputs that must not parse, with their reasons. *)
Definition invalid_logs (first : bytes) : result (list (bytes * string)) :=
  '(unknown, _) ← made_record "owned-fixture" "ima-unknown";
  '(other, _) ← record (b "owned-fixture") (b "ima-ng") None 11;
  '(short, _) ← record (b "owned-fixture") (b "ima-ng") (Some (le_encode 4 100 ++ b "x")) 10;
  f1 ← field (b "sha256:" ++ [x00] ++ zeros 32); f2 ← field (b "no-null");
  '(unterminated, _) ← record (b "owned-fixture") (b "ima-ng") (Some (f1 ++ f2)) 10;
  Ok [(unknown, "UNSUPPORTED_TEMPLATE"%string); (other, "UNSUPPORTED_PCR"%string);
      (take 36 first ++ le_encode 4 33, "TEMPLATE_NAME_SIZE"%string);
      (take 46 first ++ le_encode 4 65537, "TEMPLATE_DATA_SIZE"%string);
      (short, "INVALID_TEMPLATE_FIELDS"%string); (unterminated, "INVALID_TEMPLATE_FIELDS"%string)].

(** [offline(binary)], without the seeded mutations. *)
Definition offline : result unit :=
  '(first, d1) ← made_record "owned-fixture" "ima-ng";
  '(second, d2) ← made_record "second-fixture" "ima-sig";
  let expected := VStr (hex_of (chain [d1; d2])) in
  value ← inspected (log_of (first ++ second));
  _ ← must (truthy_field value "parsed" && field_is value "records" (VInt 2) && py_eq (replayed_value value) expected);
  _ ← for_each [first; second ++ first; first ++ second ++ second] (λ data,
        value ← inspected (log_of data); must (truthy_field value "parsed" && mismatch expected value));
  _ ← for_each [[]; take 3 first; take 35 first; take (length first - 1) first; first ++ b "x"] (λ data,
        value ← inspected (log_of data); must (negb (truthy_field value "parsed")));
  value ← inspected (log_of (flip (length first - 2) first)); _ ← must (field_is value "reason" (status "TEMPLATE_DIGEST_MISMATCH"));
  value ← inspected (log_of (splice 4 36 (zeros 32) first)); _ ← must (field_is value "reason" (status "IMA_VIOLATION"));
  invalid ← invalid_logs first;
  _ ← for_each invalid (λ '(data, reason), value ← inspected (log_of data); must (field_is value "reason" (status reason)));
  _ ← for_each [(NotOpened, "OPEN_ERROR"%string); (NotRegular, "NOT_REGULAR_FILE"%string); (NotOpened, "OPEN_ERROR"%string)] (λ '(file, reason),
    value ← inspected file; must (field_is value "reason" (status reason)));
  must (match compare (status "a") (status "a") (status "b") with
        | (INDETERMINATE, why) => bool_decide (why = u "PCR_CHANGED_DURING_READ")
        | _ => false
        end).

(** The software TPM of the fixtures, on PCR 10. *)
#[export] Instance pcr10_tpm : TpmTools := {|
  inspect_quote := λ _ quote,
    if well_formed quote then
      Ok (0, dumps (VDict [(u "pcr10_selection_matches", VBool (bool_decide (q_selection quote = [x00; x04; x00]))); (u "parsed", VBool true);
                           (u "pcr_selection_matches", VBool (bool_decide (q_selection quote = pcr_0_7)));
                           (u "qualification", VStr (hex_of (q_extra quote))); (u "cryptographic_validity", status "not_verified")]))
    else Ok (1, []);
  checkquote := @checkquote software_tpm |}.

Definition server_st := st (world * AttestationServer ImaQuoteVerifier).
Definition verifier_on (file : opened) : Verifier ImaQuoteVerifier := ima_verifier (H1 := program (λ _, file) (λ _, true)).
Definition issued (who : pystr) : server_st challenge := issue (H0 := verifier_on NotOpened) who.
(** [server.submit('client', evidence)] with [file] at the log's path. *)
Definition submitted (file : opened) (evidence : dict) : server_st dict := submit (H0 := verifier_on file) client evidence.
Definition pcr_10 : bytes := [x00; x04; x00].
(** [attempt(data, nonce, selection)] *)
Definition attempt (pcr data : bytes) (nonce : option pystr) (selection : bytes) : server_st (dict * dict) :=
  c ← issued client;
  _ ← check (field_is (challenge_dict c) "requested_evidence" (VList [status "tpm_quote"; status "sha256:10"]));
  e ← lift (fixture c (Some pcr) nonce selection);
  r ← submitted (log_of data) e;
  mret (r, e).

Definition quote_cases : server_st unit :=
  '(first, d1) ← lift (made_record "owned-fixture" "ima-ng");
  '(second, d2) ← lift (made_record "second" "ima-ng");
  let pcr := chain [d1; d2] in
  '(r, e) ← attempt pcr (first ++ second) None pcr_10;
  _ ← check (decided r "ALLOW" && field_is r "ima_validity" (status "quote_bound") && field_is r "ima_records" (VInt 2));
  _ ← check (field_is r "tpm_identity_validity" (status "not_proven") && field_is r "measurement_policy_validity" (status "not_evaluated"));
  r ← submitted (log_of (first ++ second)) e; _ ← check (because r "CHALLENGE_REUSED");
  _ ← foldr (λ data (next : server_st unit),
        '(r, _) ← attempt pcr data None pcr_10;
        _ ← check (decided r "DENY" && because r "IMA_LOG_REPLAY_MISMATCH");
        _ ← check (field_is r "cryptographic_validity" (status "verified") && field_is r "freshness_validity" (status "verified"));
        next) (mret tt) [first; second ++ first; first ++ second ++ second];
  '(r, _) ← attempt pcr (take (length first - 1) first) None pcr_10; _ ← check (because r "IMA_LOG_INVALID");
  '(r, _) ← attempt pcr (first ++ second) (Some zeros_64) pcr_10; _ ← check (because r "NONCE_MISMATCH");
  '(r, _) ← attempt pcr (first ++ second) None [x00; x02; x00]; _ ← check (decided r "DENY");
  c ← issued client; e ← lift (fixture c (Some pcr) None pcr_10);
  _ ← raises None (submitted (log_of (first ++ second)) (d_set e (u "log_path") (status "/untrusted")));
  r ← submitted NotOpened e; _ ← check (decided r "INDETERMINATE" && because r "VERIFIER_ERROR");
  (* a symbolic link at the path is not opened *)
  c ← issued client; e ← lift (fixture c (Some pcr) None pcr_10);
  r ← submitted NotOpened e; _ ← check (decided r "INDETERMINATE");
  let data := concat (replicate 200 first) in
  _ ← check (16384 <? len data);
  c ← issued client; e ← lift (fixture c (Some (chain (replicate 200 d1))) None pcr_10);
  r ← submitted (log_of data) e;
  check (decided r "ALLOW" && field_is r "ima_records" (VInt 200)).
(** [main] of [verificar-ima-quote.py]; the second server differs in its path alone. *)
Definition main : st world unit :=
  v ← lift (new_ima_verifier ak);
  on_server (H := verifier_on NotOpened) v 10000 64 quote_cases.
End ImaSuite.

(** The cases hold of the model: of the replay, and of the verifier with the replay
    behind it. *)
Theorem ima_suites_pass : ImaSuite.offline = Ok tt ∧ (ImaSuite.main (World 0 0)).1 = Ok tt.
Proof. split; vm_compute; reflexivity. Qed.

(** A passing run on the log of one record. *)
Import AttestationSuite ImaSuite.
Definition one_log (_ : nat) : opened := log_of (ImaReplay.encode sample).
Definition ok_or {A} (default : A) (r : result A) : A := match r with Ok x => x | Raise _ => default end.
Definition sample_verifier : ImaQuoteVerifier :=
  Eval vm_compute in ok_or (Ima (MkQuoteVerifier [] 0 [] [] [] None [])) (new_ima_verifier ak).
Definition sample_challenge : challenge :=
  Eval vm_compute in Challenge (replicate 32 97) (replicate 64 98) 0 10000 ima_policy (u "sha256:10") (sha256_hex ak).
Definition sample_evidence : dict :=
  Eval vm_compute in ok_or [] (fixture sample_challenge (Some (pcr_of (zeros 32) [sample])) None pcr_10).
Definition sample_run : result dict * world :=
  Eval vm_compute in ima_verify (H1 := program one_log (λ _, true)) sample_verifier sample_evidence sample_challenge (World 0 0).
Definition sample_verdict : dict := Eval vm_compute in ok_or [] sample_run.1.
Lemma sample_run_eq :
  ima_verify (H1 := program one_log (λ _, true)) sample_verifier sample_evidence sample_challenge (World 0 0) = (Ok sample_verdict, sample_run.2).
Proof. vm_compute. reflexivity. Qed.
Lemma passing_verdict_binds_a_log_witness :
  d_get sample_verdict (u "reason") = Some (status "SCOPED_POLICY_PASS") ∧
  ∃ base w1 n file ev log s,
    quote_verify (quote sample_verifier) sample_evidence sample_challenge (World 0 0) = (Ok base, w1) ∧
    d_get base (u "reason") = Some (status "SCOPED_POLICY_PASS") ∧
    one_log n = Opened file ev ∧ file = concat (ImaReplay.encode <$> log) ∧ Forall measurement_wf log ∧ log ≠ [] ∧
    d_get sample_evidence (u "pcrs") = Some (VStr s) ∧ b64decode s = Ok (pcr_of (zeros 32) log) ∧
    d_get sample_verdict (u "ima_validity") = Some (status "quote_bound") ∧ d_get sample_verdict (u "ima_records") = Some (VInt (len log)).
Proof.
  assert (Hp : d_get sample_verdict (u "reason") = Some (status "SCOPED_POLICY_PASS")) by (vm_compute; reflexivity).
  split; [exact Hp|]. exact (passing_verdict_binds_a_log one_log (λ _, true) _ _ _ _ _ _ sample_run_eq Hp).
Defined.
